(* ===== verification/_CoqProject ===== *)
-Q . S2P
Prelude.v
GoIO.v
GoNet.v
GoURL.v
Address.v
Cache.v
Trie.v
OrdMap.v
Rule.v
IPPool.v
FakeIP.v
Resolver.v
Cipher.v
AeadConn.v
StreamConn.v
SsrAuth.v
SsrChain.v
SsrObfs.v
GoStream.v
TcpRelay.v
UdpRelay.v
Pools.v
Socks.v
SocksClient.v
Enhancer.v
Statistic.v
ConnPool.v
GoBufio.v
GoHTTP.v
HttpObfs.v
HttpProxy.v
HttpRelay.v
Options.v
Config.v
Servers.v
Dialer.v
GrpcConn.v
Flow.v
Addons.v
Certs.v
Mitm.v
DnsClient.v
SshServer.v
Transports.v
SsrConn.v
Cmd.v
Deploy.v
CacheClock.v
Tracked.v
Program.v
Datagrams.v
TunRelay.v
