(* ===== verification/Prelude.v ===== *)
(** * mini-ss: a verification development

    mini-ss is a Shadowsocks and ShadowsocksR proxy in Go. A client takes connections
    from local programs, on SOCKS5, HTTP, mixed or fixed-target ports or from a TUN
    device, decides by rules which proxy node (or the direct way) each of them takes, and
    relays it, encrypted and perhaps disguised, to a server, which relays it to its
    target. This library translates the program's own code into Rocq functions and
    step relations, file by file, and proves what the parts promise and how they work
    together. Everything under [src/] that is named below is meant; line numbers are
    in the manifest.

    ** Files

    The Go language and its standard library:
    - Prelude.v: errors, results that may fail or panic ([res]), the state monad [M],
      bytes and machine integers, tactics and the hint database [go].
    - GoIO.v: slices, byte connections that deliver their input in arbitrary pieces,
      [io.ReadFull], packet connections. GoNet.v, GoURL.v: strings, [strconv], [net],
      [netip], [net/url]. GoBufio.v, GoHTTP.v: [bufio], [net/http] requests, base64.
      GoStream.v: [net.Conn] as an interface ([NetConn], [NetConnLaws]) with
      [io.Copy] and the bidirectional copy over it.

    Data structures and naming:
    - Address.v ([src/address]): addresses on the wire. Cache.v, CacheClock.v, Trie.v, OrdMap.v
      ([src/util/cache], [trie], [ordmap], [src/selector]).
    - Rule.v ([src/rule], [geoip], [BuildRuler] of [src/config]): the matchers and the
      ruler all connections share.
    - IPPool.v, FakeIP.v, Resolver.v ([src/resolver]): the pool of fake addresses, the
      fake-IP resolver over it and over any two caches that satisfy [CacheLaws], and the
      resolver with its nameservers, its lookups and the race between nameservers.
      DnsClient.v: the exchange with one nameserver over HTTPS, and lookups that
      share an exchange.

    Ciphers and protocols:
    - Cipher.v ([src/cipher]); AeadConn.v and StreamConn.v ([src/ss/aead],
      [src/ss/stream]): encrypted connections and datagrams.
    - SsrAuth.v, SsrChain.v ([src/ssr/protocol]) and SsrObfs.v ([src/ssr/obfs],
      [src/ssr/cipher.go]): ShadowsocksR. SsrConn.v ([src/ssr/conn.go], the protocol
      connections, the ShadowsocksR half of [src/ss/conn.go]): how they are stacked.
    - HttpObfs.v ([src/connection/obfs.go]), Dialer.v, GrpcConn.v ([src/connection/ws.go], [grpc.go],
      the dual-stack dialer), ConnPool.v ([src/transport/conn_pool.go] and its users).

    Relays, front ends and set-up:
    - TcpRelay.v, UdpRelay.v ([src/relay], [src/ss/conn.go], [src/client/conn_wrapper.go]).
    - SocksClient.v ([src/client]): the SOCKS5 client, against the server of Socks.v.
    - Socks.v, HttpProxy.v, HttpRelay.v ([src/ss/socks.go], [auth.go], [http.go], [mixed.go],
      [tcptun.go], [src/connection/connection.go]), Enhancer.v ([src/enhancer]): where connections come in.
    - Options.v, Config.v ([src/options], [src/ss/option.go], [ss_client.go],
      [ss_server.go], [src/config]): from a configuration to the running parts.
    - Servers.v ([src/server]: listener, group, connections), Statistic.v ([src/statistic])
      and Tracked.v: trackers as connections, and the front ends around them.
    - SshServer.v ([src/server/ssh_server.go], the set-up of [src/transport/ssh_dialer.go]):
      authentication and the server. Transports.v ([src/transport], the WebSocket, QUIC,
      gRPC and obfuscation servers of [src/server], TLS of [src/options]): both ends of
      the other transports.
    - Cmd.v ([src/cmd]): from the command line to the client or the server.
    - Pools.v ([src/bufferpool] and its users in [src/relay]): buffers that goroutines share.
    - Deploy.v, Datagrams.v: a client and a server, each made of its configuration, put
      together, for streams and for datagrams. Program.v: the whole way of a connection, from two
      command lines and a SOCKS5 request to the target. TunRelay.v: the same from the TUN
      device.

    Interception:
    - Flow.v ([src/proxy/flow.go], [interceptor.go]): requests and responses with bodies in
      pooled buffers, the copies that are shown, the dumps. Addons.v ([src/proxy-addons]):
      chains of handlers. Certs.v ([src/util/cert]): keys and certificates. Mitm.v
      ([src/proxy/mitm.go]): the handler over all of these; its callers, Socks.v and
      HttpProxy.v, hand a connection over to it when a server has one.

    ** How the code is modelled

    A Go function becomes a function of the same name where Rocq allows it. A struct is a
    [Record]; an object that is shared (cache elements, fake-IP records, trackers) is a
    number into a store, so that aliasing is kept. An error is a value of [res];
    a slice expression or an index out of range, a nil pointer and a failed type assertion are
    [Panic], which is a result like any other and is proved absent or shown to occur.
    State is passed explicitly, with the monad [M]; integers are [Z] with their
    wrap-around written out ([u8] to [u64], [i64]), strings are lists of bytes. Loops that read
    from a connection carry fuel, computed in the definition from the input that
    is left ([src_size], [br_size], [nc_size]): each turn uses up a byte or a piece,
    so the fuel is enough, and the theorems state results, not results under the
    condition of termination. The loops of Pools.v run forever; their fuel is the number of
    datagrams after which they are looked at, and the theorem is about every such number. Goroutines, channels, tickers and locks are step
    relations whose steps are the atomic operations or critical sections of the
    code, a read and a write of a copying goroutine, or an access to a buffer that
    others use; invariants are proved by induction on runs, and termination by a measure.

    Where the code takes no lock, or several, and a step is nevertheless a whole call, the
    theorem says so and is about calls that do not overlap: queries and clean-ups of the
    fake-IP resolver (FakeIP.v; what two overlapping allocations do is [IPPool.allocate_race])
    and calls of the cache on its clock (CacheClock.v; [Cache.set_race_duplicates]). The
    packet connections of AeadConn.v and StreamConn.v make a datagram in a buffer that
    overlapping calls share: one call is a function there, its halves are definitions of their
    own, and [aead_WriteTo_race], [stream_WriteTo_race] and [stream_ReadFrom_race] show what
    overlapping calls do.

    Code of other packages is a parameter with named laws: cryptographic primitives
    ([AEADLaws], [StreamLaws] and the hypotheses of SsrAuth.v, SsrChain.v), the DNS
    message library, GeoIP, dialling, QUIC, SSH and the network stack. The witnesses
    instantiate them with concrete functions.

    ** What the theorems show

    - End to end: start a client and a server from command lines that agree, and what a local
      program sends through the SOCKS5 port arrives at the target it named, unchanged
      ([Program.command_line_end_to_end]); the same of any two configurations that share a method
      and a password, for streams ([Deploy.deployment_end_to_end], over any two ciphers
      [TcpRelay.tcp_end_to_end]) and for datagrams with their answers
      ([Datagrams.datagram_end_to_end], [UdpRelay.udp_end_to_end]); both
      directions keep going until one ends, and as long as writes succeed that one was passed on
      whole ([TcpRelay.tcp_relay_live]); datagrams are not mixed
      up ([relay_transparent], [natmap_isolation]), and the buffers that all
      relays share are never noticed ([Pools.pooled_relays]); a program that resolves a name
      and connects through the TUN device reaches the target of that name, which the rules
      are asked about instead of the fake address ([TunRelay.tun_end_to_end]).
    - Front ends: SOCKS5 and HTTP CONNECT are served as the rules and the credentials
      say, in whatever pieces the request arrives ([Socks.socks_connect_served],
      [HttpProxy.http_connect_served]), never without valid credentials where they are
      configured ([socks_auth_required], [http_auth_required]; over SSH,
      [SshServer.ssh_sessions_authenticated]), and on the mixed port
      alike ([mixed_connect_as_http]); what is refused is answered so
      ([socks_request_refused]); the SOCKS5 client and the server agree
      ([SocksClient.socks_client_served]); plain HTTP requests that share the buffers of a pool
      do not reach another one's target while no relay ends before its request is read
      ([HttpRelay.http_requests_isolated]; what happens otherwise, [http_request_stolen],
      [http_request_resent]).
    - Interception: an HTTPS request is answered by the origin's response, once
      ([Mitm.mitm_https_exchange]), under a certificate that copies a verified one
      ([mitm_certificate]); interceptors that only look change nothing
      ([Flow.immutable_http_transparent], [ws_relay_transparent]); chains of addons end, in
      order, and send a request at most once ([Addons.addon_chain_runs],
      [addons_http_exchange], [default_addons_transparent]).
    - Protocols: each encoder is undone by its decoder, over streams cut anywhere
      (AeadConn.v, StreamConn.v, SsrAuth.v, SsrChain.v, over any cipher
      [SsrConn.ssr_session], [SsrObfs.tls_session],
      [HttpObfs.obfs_transparent], [Dialer.msg_stream_transparent]); nonces do not repeat
      ([aead_nonce_unique]).
    - Data structures refine their abstract view or have their documented behaviour:
      the cache ([lru_refines_spec]; how long its entries live when calls do not overlap, [CacheClock.cache_lifetime]), the trie ([trie_search_first_match]), fake addresses
      (unique among live hosts when queries do not overlap, [fakeip_unique]), the pool, addresses on the wire
      ([address_wellformed], [hostport_roundtrip]).
    - Rules: a decision depends on the rules and the target alone
      ([ruler_match_history_independent]) and always exists ([build_ruler_total]).
    - Set-up: the options a configuration is turned into give exactly the client and
      the server its sections describe ([client_from_config], [server_from_config]); which
      of them encrypt the payload ([bind_encrypts]); the command line gives the client its flags describe
      ([Cmd.cli_client]); the dialer and the server made of one section fit, TLS included
      ([Transports.transports_agree]).
    - Life cycle and concurrency: a TCP listener that fails takes its group of them down and nothing stays open
      ([Servers.group_fails_together]); the nameserver race ends with an answer if there is
      one and every exchange returns ([dns_exchange_live]; otherwise it may hang,
      [dns_exchange_hangs]), and callers that share a lookup all return
      ([DnsClient.shared_lookup]); the dual-stack race leaks no connection
      ([dual_stack_race]); connections are pooled in turn ([pool_round_robin]); traffic is
      counted exactly ([traffic_exact]) and without a trace ([Tracked.tracked_relay]); the enhancer starts and stops cleanly
      ([enhancer_life_cycle]).
    - Flaws the model shows are theorems or lemmas of their own, next to the part
      they are about, and are listed in the manifest.

    ** Not modelled, and why

    The SSH, QUIC, gRPC and WebSocket libraries, TLS and the flag library are parameters of
    what calls them. Plain DNS and DoT exchanges are one call of the DNS library.
    Reading YAML, logging, deadlines, the examples and generated
    code are left out. Outside of Pools.v, HttpRelay.v and Flow.v an operation has a buffer of its own, which
    Pools.v justifies for the relays and the shared buffer of a packet connection does not allow (see above); timers
    appear as steps that may happen at any time, the cache's within a bound on their lag. *)

From Stdlib Require Import Ascii.
From Stdlib Require Export ZArith Lia.
From stdpp Require Export base list strings gmap numbers.
Export list_basics.list list_relations.list list_monad.list list_misc.list.

Declare Scope go_scope.
Delimit Scope go_scope with go.
Create HintDb go.

(** ** Go errors, and results that may also panic *)

Inductive error :=
| io_EOF
| io_ErrUnexpectedEOF
| io_ErrShortBuffer
| errNew (msg : string)
| errExt (code : Z).

#[export] Instance error_eq_dec : EqDecision error.
Proof. solve_decision. Defined.

Inductive res (A : Type) :=
| Ret (a : A)
| Fail (e : error)
| Panic.
Arguments Ret {A} _.
Arguments Fail {A} _.
Arguments Panic {A}.

#[export] Instance res_eq_dec {A} `{!EqDecision A} : EqDecision (res A).
Proof. solve_decision. Defined.

#[export] Instance res_ret : MRet res := @Ret.
#[export] Instance res_bind : MBind res := λ A B f m,
  match m with Ret a => f a | Fail e => Fail e | Panic => Panic end.

(** A computation that threads a state and may fail or panic. *)
Definition M (S A : Type) := S → S * res A.
#[export] Instance M_ret {S} : MRet (M S) := λ A a s, (s, Ret a).
#[export] Instance M_bind {S} : MBind (M S) := λ A B f m s,
  match m s with
  | (s', Ret a) => f a s'
  | (s', Fail e) => (s', Fail e)
  | (s', Panic) => (s', Panic)
  end.
Definition mfail {S A} (e : error) : M S A := λ s, (s, Fail e).
Definition mlift {S A} (r : res A) : M S A := λ s, (s, r).

Lemma bind_Ret {S A B} (f : A → M S B) (m : M S A) s s' a :
  m s = (s', Ret a) → (m ≫= f) s = f a s'.
Proof. intros H. unfold mbind, M_bind. by rewrite H. Qed.
Lemma bind_Fail {S A B} (f : A → M S B) (m : M S A) s s' e :
  m s = (s', Fail e) → (m ≫= f) s = (s', Fail e).
Proof. intros H. unfold mbind, M_bind. by rewrite H. Qed.

Lemma bind_inv {S A B} (m : M S A) (f : A → M S B) s s' y :
  (m ≫= f) s = (s', Ret y) → ∃ s1 x, m s = (s1, Ret x) ∧ f x s1 = (s', Ret y).
Proof. unfold mbind, M_bind. destruct (m s) as [s1 [x|e|]]; intros H; try done. by exists s1, x. Qed.

(** ** Tactics *)

(** Split every [match]/[if] of the goal or of the hypotheses. *)
Ltac split_match :=
  match goal with
  | |- context [match ?x with _ => _ end] => destruct x eqn:?
  | H : context [match ?x with _ => _ end] |- _ => destruct x eqn:?
  end.
Ltac case_all := repeat (split_match; simplify_eq/=; try done).
(** Turn boolean comparisons into propositions and call [lia]. *)
Ltac zify_bool :=
  repeat match goal with
  | H : (_ <? _)%Z = true |- _ => apply Z.ltb_lt in H
  | H : (_ <? _)%Z = false |- _ => apply Z.ltb_ge in H
  | H : (_ <=? _)%Z = true |- _ => apply Z.leb_le in H
  | H : (_ <=? _)%Z = false |- _ => apply Z.leb_gt in H
  | H : (_ =? _)%Z = true |- _ => apply Z.eqb_eq in H
  | H : (_ =? _)%Z = false |- _ => apply Z.eqb_neq in H
  | H : (_ <? _)%nat = true |- _ => apply Nat.ltb_lt in H
  | H : (_ <? _)%nat = false |- _ => apply Nat.ltb_ge in H
  | H : (_ <=? _)%nat = true |- _ => apply Nat.leb_le in H
  | H : (_ <=? _)%nat = false |- _ => apply Nat.leb_gt in H
  | H : (_ =? _)%nat = true |- _ => apply Nat.eqb_eq in H
  | H : (_ =? _)%nat = false |- _ => apply Nat.eqb_neq in H
  | H : _ && _ = true |- _ => apply andb_true_iff in H as [? ?]
  | H : _ || _ = false |- _ => apply orb_false_iff in H as [? ?]
  | H : negb _ = true |- _ => apply negb_true_iff in H
  | H : negb _ = false |- _ => apply negb_false_iff in H
  end.
Ltac blia := zify_bool; lia.

(** Prove an identity of bitwise operations bit by bit. *)
Ltac zbits :=
  apply Z.bits_inj'; intros ? _; rewrite ?Z.lxor_spec, ?Z.lor_spec, ?Z.land_spec;
  repeat match goal with |- context [Z.testbit ?x ?n] => destruct (Z.testbit x n) end; done.

(** Reduce an [if] whose test [lia] decides. *)
Ltac iftrue := 
  match goal with
  | |- context [if (?a <? ?b)%Z then _ else _] => rewrite (proj2 (Z.ltb_lt a b)) by lia
  | |- context [if (?a <=? ?b)%Z then _ else _] => rewrite (proj2 (Z.leb_le a b)) by lia
  | |- context [if (?a =? ?b)%Z then _ else _] => rewrite (proj2 (Z.eqb_eq a b)) by lia
  | |- context [if (?a <? ?b)%nat then _ else _] => rewrite (proj2 (Nat.ltb_lt a b)) by lia
  | |- context [if (?a <=? ?b)%nat then _ else _] => rewrite (proj2 (Nat.leb_le a b)) by lia
  | |- context [if (?a =? ?b)%nat then _ else _] => rewrite (proj2 (Nat.eqb_eq a b)) by lia
  end.
Ltac iffalse := 
  match goal with
  | |- context [if (?a <? ?b)%Z then _ else _] => rewrite (proj2 (Z.ltb_ge a b)) by lia
  | |- context [if (?a <=? ?b)%Z then _ else _] => rewrite (proj2 (Z.leb_gt a b)) by lia
  | |- context [if (?a =? ?b)%Z then _ else _] => rewrite (proj2 (Z.eqb_neq a b)) by lia
  | |- context [if (?a <? ?b)%nat then _ else _] => rewrite (proj2 (Nat.ltb_ge a b)) by lia
  | |- context [if (?a <=? ?b)%nat then _ else _] => rewrite (proj2 (Nat.leb_gt a b)) by lia
  | |- context [if (?a =? ?b)%nat then _ else _] => rewrite (proj2 (Nat.eqb_neq a b)) by lia
  end.

(** ** Lists *)

Lemma list_filter_id {A} (P : A → Prop) `{!∀ x, Decision (P x)} (l : list A) :
  (∀ x, x ∈ l → P x) → filter P l = l.
Proof.
  induction l as [|x l IH]; intros Hl; [done|].
  rewrite filter_cons_True by (apply Hl; by left). f_equal. apply IH. intros y Hy. apply Hl. by right.
Qed.

Lemma list_filter_ext_in {A} (P Q : A → Prop) `{!∀ x, Decision (P x), !∀ x, Decision (Q x)} (l : list A) :
  (∀ x, x ∈ l → (P x ↔ Q x)) → filter P l = filter Q l.
Proof.
  induction l as [|x l IH]; intros Hl; [done|]. rewrite !filter_cons.
  rewrite IH by (intros y Hy; apply Hl; by right).
  rewrite (decide_ext (P x) (Q x)) by (apply Hl; by left). done.
Qed.

Lemma NoDup_fst_inj {A B} (l : list (A * B)) k x y :
  NoDup l.*1 → (k, x) ∈ l → (k, y) ∈ l → x = y.
Proof.
  induction l as [|[a b] l IH]; intros Hn Hx Hy; [by apply not_elem_of_nil in Hx|].
  simpl in Hn. apply NoDup_cons in Hn as [Ha Hn].
  assert (∀ z, (a, z) ∈ l → False) as Hno.
  { intros z Hz. apply Ha. apply list_elem_of_fmap. by exists (a, z). }
  apply elem_of_cons in Hx as [Hx|Hx]; apply elem_of_cons in Hy as [Hy|Hy]; simplify_eq; try done.
  - by destruct (Hno y).
  - by destruct (Hno x).
  - auto.
Qed.

(** ** Bytes and strings *)

Local Open Scope Z_scope.

(** A byte is an integer of [0,256); a Go slice or string is a list of them. *)
Definition is_byte (b : Z) : Prop := 0 ≤ b < 256.
Definition wf_bytes (l : list Z) : Prop := Forall is_byte l.

(** Go's conversions [byte(x)], [uint16(x)], [uint32(x)], [uint64(x)]. *)
Definition u8 (z : Z) : Z := z mod 2 ^ 8.
Definition u16 (z : Z) : Z := z mod 2 ^ 16.
Definition u32 (z : Z) : Z := z mod 2 ^ 32.
(** A signed 64-bit integer, as arithmetic on it wraps. *)
Definition i64 (z : Z) : Z := (z + 2 ^ 63) mod 2 ^ 64 - 2 ^ 63.
Definition u64 (z : Z) : Z := z mod 2 ^ 64.

Definition byte_of_ascii (a : ascii) : Z := Z.of_N (N_of_ascii a).
Definition ascii_of_byte (b : Z) : ascii := ascii_of_N (Z.to_N b).

(** Go's [[]byte(s)] and [string(b)]. *)
Definition bytes_of_string (s : string) : list Z :=
  byte_of_ascii <$> String.list_ascii_of_string s.
Definition string_of_bytes (l : list Z) : string :=
  String.string_of_list_ascii (ascii_of_byte <$> l).

(** A Go string is its sequence of bytes; [str] writes a literal. *)
Abbreviation gostring := (list Z) (only parsing).
Definition str (s : string) : gostring := bytes_of_string s.
Arguments str _%_string_scope.

Lemma ascii_of_byte_of_ascii a : ascii_of_byte (byte_of_ascii a) = a.
Proof. unfold ascii_of_byte, byte_of_ascii. rewrite N2Z.id. apply ascii_N_embedding. Qed.

Lemma byte_of_ascii_of_byte b : is_byte b → byte_of_ascii (ascii_of_byte b) = b.
Proof.
  intros Hb. unfold is_byte in Hb. unfold ascii_of_byte, byte_of_ascii.
  rewrite N_ascii_embedding by lia. lia.
Qed.

Lemma byte_of_ascii_range a : is_byte (byte_of_ascii a).
Proof. unfold is_byte, byte_of_ascii. pose proof (N_ascii_bounded a). lia. Qed.

Lemma string_of_bytes_of_string s : string_of_bytes (bytes_of_string s) = s.
Proof.
  unfold string_of_bytes, bytes_of_string. rewrite <-list_fmap_compose.
  rewrite (list_fmap_ext _ id).
  - rewrite list_fmap_id. apply String.string_of_list_ascii_of_string.
  - intros i x _. apply ascii_of_byte_of_ascii.
Qed.

Lemma bytes_of_string_of_bytes l : wf_bytes l → bytes_of_string (string_of_bytes l) = l.
Proof.
  intros Hl. unfold string_of_bytes, bytes_of_string.
  rewrite String.list_ascii_of_string_of_list_ascii.
  induction Hl; simpl; [done|]. rewrite byte_of_ascii_of_byte by done. by f_equal.
Qed.

Lemma bytes_of_string_wf s : wf_bytes (bytes_of_string s).
Proof.
  apply Forall_fmap, Forall_forall. intros a _. apply byte_of_ascii_range.
Qed.
#[export] Hint Resolve bytes_of_string_wf : go.

Lemma length_bytes_of_string s : length (bytes_of_string s) = String.length s.
Proof.
  unfold bytes_of_string. rewrite length_fmap. induction s; simpl; congruence.
Qed.

Lemma u8_range z : is_byte (u8 z).
Proof. unfold is_byte, u8. change (2 ^ 8) with 256. apply Z.mod_pos_bound. lia. Qed.
Lemma u8_id z : is_byte z → u8 z = z.
Proof. unfold is_byte, u8. intros. change (2 ^ 8) with 256. by apply Z.mod_small. Qed.
#[export] Hint Resolve u8_range : go.

Lemma wf_bytes_app l k : wf_bytes (l ++ k) ↔ wf_bytes l ∧ wf_bytes k.
Proof. apply Forall_app. Qed.
Lemma wf_bytes_take n l : wf_bytes l → wf_bytes (take n l).
Proof. apply Forall_take. Qed.
Lemma wf_bytes_drop n l : wf_bytes l → wf_bytes (drop n l).
Proof. apply Forall_drop. Qed.
#[export] Hint Resolve wf_bytes_take wf_bytes_drop : go.

(** ** Multi-byte integers, as [encoding/binary] lays them out *)

Definition be16 (v : Z) : list Z := [u8 (Z.shiftr v 8); u8 v].
Definition le16 (v : Z) : list Z := [u8 v; u8 (Z.shiftr v 8)].
Definition le32 (v : Z) : list Z :=
  [u8 v; u8 (Z.shiftr v 8); u8 (Z.shiftr v 16); u8 (Z.shiftr v 24)].
Definition be32 (v : Z) : list Z := reverse (le32 v).

(** [binary.BigEndian.Uint16], [binary.LittleEndian.Uint16/32/64]: index the
    slice (a panic when it is too short, which the callers' guards exclude). *)
Definition byte_at (l : list Z) (i : nat) : Z := default 0 (l !! i).
Definition get_be16 (l : list Z) : Z := Z.lor (Z.shiftl (byte_at l 0) 8) (byte_at l 1).
Definition get_le16 (l : list Z) : Z := Z.lor (byte_at l 0) (Z.shiftl (byte_at l 1) 8).
Fixpoint get_le (l : list Z) : Z :=
  match l with [] => 0 | b :: r => Z.lor b (Z.shiftl (get_le r) 8) end.
Definition get_le32 (l : list Z) : Z := get_le (take 4 l).
Definition get_le64 (l : list Z) : Z := get_le (take 8 l).

Lemma lor_shiftl_add a b n : 0 ≤ n → 0 ≤ b < 2 ^ n → Z.lor b (Z.shiftl a n) = b + a * 2 ^ n.
Proof.
  intros Hn Hb. rewrite <-Z.shiftl_mul_pow2 by done. symmetry. apply Z.add_nocarry_lor.
  apply Z.bits_inj'. intros i Hi. rewrite Z.land_spec, Z.bits_0.
  destruct (Z.ltb_spec i n).
  - rewrite Z.shiftl_spec_low by lia. apply andb_false_r.
  - rewrite <-(Z.mod_small b (2 ^ n)), Z.mod_pow2_bits_high by lia. done.
Qed.

Lemma get_be16_be16 v k : 0 ≤ v < 65536 → get_be16 (be16 v ++ k) = v.
Proof.
  intros Hv. unfold get_be16, be16, byte_at; simpl.
  pose proof (u8_range v) as Hr. unfold is_byte in Hr.
  rewrite Z.lor_comm, lor_shiftl_add by (unfold is_byte in *; lia).
  unfold u8. rewrite Z.shiftr_div_pow2 by lia. change (2 ^ 8) with 256.
  rewrite (Z.mod_small (v / 256)) by (split; [apply Z.div_pos; lia|apply Z.div_lt_upper_bound; lia]).
  pose proof (Z.div_mod v 256). lia.
Qed.

Lemma get_le16_le16 v k : 0 ≤ v < 65536 → get_le16 (le16 v ++ k) = v.
Proof.
  intros Hv. rewrite <-(get_be16_be16 v k) at 2 by done.
  unfold get_le16, get_be16, le16, be16, byte_at; simpl. apply Z.lor_comm.
Qed.

Lemma get_le32_le32 v k : 0 ≤ v < 2 ^ 32 → get_le32 (le32 v ++ k) = v.
Proof.
  intros Hv. unfold get_le32, le32. cbn [take app get_le]. rewrite Z.shiftl_0_l, Z.lor_0_r.
  pose proof (u8_range v) as H0. pose proof (u8_range (Z.shiftr v 8)) as H1.
  pose proof (u8_range (Z.shiftr v 16)) as H2. unfold is_byte in *.
  rewrite !lor_shiftl_add by lia. unfold u8. rewrite !Z.shiftr_div_pow2 by lia.
  change (2 ^ 8) with 256. change (2 ^ 16) with 65536. change (2 ^ 24) with 16777216.
  change (2 ^ 32) with 4294967296 in Hv.
  assert (0 ≤ v / 16777216 < 256) by (split; [apply Z.div_pos|apply Z.div_lt_upper_bound]; lia).
  rewrite (Z.mod_small (v / 16777216)) by lia.
  pose proof (Z.div_mod v 256). pose proof (Z.div_mod (v / 256) 256). pose proof (Z.div_mod (v / 256 / 256) 256).
  rewrite !Z.div_div in * by lia. change (256 * 256) with 65536 in *. change (65536 * 256) with 16777216 in *. lia.
Qed.

Lemma length_be16 v : length (be16 v) = 2%nat.
Proof. done. Qed.
Lemma length_le16 v : length (le16 v) = 2%nat.
Proof. done. Qed.
Lemma length_le32 v : length (le32 v) = 4%nat.
Proof. done. Qed.

Lemma be16_wf v : wf_bytes (be16 v).
Proof. repeat constructor; apply u8_range. Qed.
Lemma le16_wf v : wf_bytes (le16 v).
Proof. repeat constructor; apply u8_range. Qed.
Lemma le32_wf v : wf_bytes (le32 v).
Proof. repeat constructor; apply u8_range. Qed.
#[export] Hint Resolve be16_wf le16_wf le32_wf : go.

(** ** Termination *)

(** A relation that keeps an invariant and decreases a measure has no infinite run. *)
Lemma no_infinite_run {S} (R : S → S → Prop) (size : S → nat) (I : S → Prop) (f : nat → S) :
  I (f 0%nat) → (∀ s s', I s → R s s' → I s' ∧ (size s' < size s)%nat) → ¬ ∀ i, R (f i) (f (Datatypes.S i)).
Proof.
  intros H0 Hstep Hf.
  assert (∀ i, I (f i) ∧ (size (f i) + i ≤ size (f 0%nat))%nat) as H.
  { induction i as [|i [IH1 IH2]]; [split; [done|lia]|]. destruct (Hstep _ _ IH1 (Hf i)). split; [done|lia]. }
  destruct (H (Datatypes.S (size (f 0%nat)))) as [_ ?]. lia.
Qed.
