(* ===== verification/GoIO.v ===== *)
(** * Go's byte streams: [net.Conn], [io.ReadFull], [copy] and slicing.

    The parts of the language and of package [io] the source builds on:
    slice expressions (with their panics), [copy], a connection whose input
    arrives in arbitrary chunks and whose output may fail after any number of
    bytes, and [io.ReadFull] over it. *)
From S2P Require Import Prelude.

(** ** Slices *)

(** [b[i:j]] for a slice whose capacity is its length: out of range panics. *)
Definition slice {A} (b : list A) (i j : nat) : res (list A) :=
  if (i <=? j) && (j <=? length b) then Ret (take (j - i) (drop i b)) else Panic.

(** [b[i]]. *)
Definition index {A} (b : list A) (i : nat) : res A :=
  match b !! i with Some x => Ret x | None => Panic end.

(** [copy(b[off:], src)]: as many elements as both have room for. *)
Definition copy_at {A} (b : list A) (off : nat) (src : list A) : list A :=
  take off b ++ take (length b - off) src ++ drop (off + length src) b.

Lemma length_copy_at {A} (b : list A) off src :
  off ≤ length b → length (copy_at b off src) = length b.
Proof. intros. unfold copy_at. rewrite !length_app, !length_take, length_drop. lia. Qed.

Lemma take_copy_at {A} (b : list A) off src n :
  off + length src ≤ length b → n = off + length src →
  take n (copy_at b off src) = take off b ++ src.
Proof.
  intros Hl ->. unfold copy_at. rewrite (take_ge src) by lia.
  rewrite app_assoc, take_app_le, take_ge; rewrite ?length_app, ?length_take; try lia. done.
Qed.

Lemma copy_at_0 {A} (b src : list A) :
  length src ≤ length b → copy_at b 0 src = src ++ drop (length src) b.
Proof.
  intros. unfold copy_at. rewrite take_0, (take_ge src) by (rewrite Nat.sub_0_r; done). done.
Qed.

Lemma slice_ok {A} (b : list A) i j :
  i ≤ j → j ≤ length b → slice b i j = Ret (take (j - i) (drop i b)).
Proof. intros. unfold slice. case_match; [done|]. exfalso. apply andb_false_iff in H1. rewrite !Nat.leb_gt in H1. lia. Qed.

Lemma slice_panic {A} (b : list A) i j :
  length b < j → slice b i j = Panic.
Proof. intros. unfold slice. rewrite (proj2 (Nat.leb_gt j _)) by lia. by rewrite andb_false_r. Qed.

(** ** Connections *)

(** [c_in]: the input still to arrive, in the chunks the peer and the network
    deliver it; [c_rerr]: what [Read] returns once it is used up; [c_out]: the
    bytes written so far; [c_wbudget]: how many more bytes can be written
    before [Write] starts failing with [c_werr] ([None]: never). *)
Record conn := Conn {
  c_in : list (list Z);
  c_rerr : error;
  c_out : list Z;
  c_wbudget : option nat;
  c_werr : error;
}.

Definition set_in (i : list (list Z)) (c : conn) : conn :=
  Conn i (c_rerr c) (c_out c) (c_wbudget c) (c_werr c).
Definition set_out (o : list Z) (w : option nat) (c : conn) : conn :=
  Conn (c_in c) (c_rerr c) o w (c_werr c).

(** [c.Read(b)] with [len(b) = n]: part of the next chunk. *)
Definition conn_read (n : nat) : M conn (list Z) := λ c,
  match c_in c with
  | [] => (c, Fail (c_rerr c))
  | ch :: rest =>
      if length ch <=? n then (set_in rest c, Ret ch)
      else (set_in (drop n ch :: rest) c, Ret (take n ch))
  end.

(** [c.Write(b)]: the number of bytes written, and an error iff it is short. *)
Definition conn_write (b : list Z) (c : conn) : conn * (nat * option error) :=
  match c_wbudget c with
  | None => (set_out (c_out c ++ b) None c, (length b, None))
  | Some k =>
      if length b <=? k then (set_out (c_out c ++ b) (Some (k - length b)) c, (length b, None))
      else (set_out (c_out c ++ take k b) (Some 0) c, (k, Some (c_werr c)))
  end.

(** [conn.Write(b)] with the results dropped, as in [conn.Write(buf)]. *)
Definition conn_write_ (b : list Z) (c : conn) : conn := fst (conn_write b c).

(** The loop of [io.ReadAtLeast(r, buf, len(buf))]. *)
Fixpoint read_loop (chs : list (list Z)) (want : nat) (acc : list Z)
    : list (list Z) * list Z :=
  if want <=? length acc then (chs, acc) else
  match chs with
  | [] => ([], acc)
  | ch :: rest =>
      let k := want - length acc in
      if length ch <=? k then read_loop rest want (acc ++ ch)
      else (drop k ch :: rest, acc ++ take k ch)
  end.

(** [io.ReadFull(c, b)] with [len(b) = n]: the bytes that fill [b]. *)
Definition read_full (n : nat) : M conn (list Z) := λ c,
  let '(chs, acc) := read_loop (c_in c) n [] in
  (set_in chs c,
   if n <=? length acc then Ret acc
   else Fail (if (0 <? length acc) && bool_decide (c_rerr c = io_EOF)
              then io_ErrUnexpectedEOF else c_rerr c)).

(** What is still to be read, whatever the chunks. *)
Definition pending (c : conn) : list Z := concat (c_in c).

Lemma read_loop_enough chs want acc :
  length acc ≤ want → want ≤ length (acc ++ concat chs) →
  ∃ chs', read_loop chs want acc = (chs', take want (acc ++ concat chs)) ∧
          concat chs' = drop want (acc ++ concat chs).
Proof.
  revert acc. induction chs as [|ch chs IH]; intros acc Ha Hw; simpl in *.
  - rewrite app_nil_r in *. rewrite (proj2 (Nat.leb_le _ _)) by lia.
    exists []. rewrite take_ge, drop_ge by lia. done.
  - case_match eqn:E; zify_bool.
    { exists (ch :: chs). simpl. rewrite take_app_le, drop_app_le, take_ge, drop_ge by lia. done. }
    case_match eqn:E'; zify_bool.
    + destruct (IH (acc ++ ch)) as (chs' & -> & Hc).
      { rewrite length_app. lia. }
      { by rewrite <-app_assoc. }
      exists chs'. by rewrite Hc, <-app_assoc.
    + exists (drop (want - length acc) ch :: chs). simpl.
      rewrite take_app_ge, drop_app_ge by lia.
      rewrite (take_app_le ch), (drop_app_le ch) by lia. done.
Qed.

Lemma read_loop_short chs want acc :
  length (acc ++ concat chs) < want →
  read_loop chs want acc = ([], acc ++ concat chs).
Proof.
  revert acc. induction chs as [|ch chs IH]; intros acc Hw; simpl in *.
  - rewrite app_nil_r in *. by rewrite (proj2 (Nat.leb_gt _ _)) by lia.
  - rewrite !length_app in Hw.
    rewrite (proj2 (Nat.leb_gt _ _)) by lia. rewrite (proj2 (Nat.leb_le _ _)) by lia.
    rewrite IH, <-app_assoc; [done|]. rewrite !length_app. lia.
Qed.

Lemma read_loop_chunks chs : ∀ want acc, length (read_loop chs want acc).1 ≤ length chs.
Proof.
  induction chs as [|ch chs IH]; intros want acc; simpl; repeat case_match; simpl; try lia.
  specialize (IH want (acc ++ ch)). lia.
Qed.

(** [io.ReadFull] sees the input as one byte sequence: how it was chunked does
    not matter. *)
Lemma read_full_ok n c :
  n ≤ length (pending c) →
  ∃ chs', read_full n c = (set_in chs' c, Ret (take n (pending c))) ∧
          concat chs' = drop n (pending c).
Proof.
  intros Hn. destruct (read_loop_enough (c_in c) n []) as (chs' & E & Hc); simpl; try lia.
  { done. }
  exists chs'. unfold read_full. rewrite E. simpl in *. split; [|done].
  rewrite length_take, (proj2 (Nat.leb_le _ _)); [done|]. unfold pending in *. lia.
Qed.

Lemma read_full_short n c :
  length (pending c) < n →
  read_full n c =
    (set_in [] c,
     Fail (if (0 <? length (pending c)) && bool_decide (c_rerr c = io_EOF)
           then io_ErrUnexpectedEOF else c_rerr c)).
Proof.
  intros Hn. unfold read_full. rewrite read_loop_short by done. simpl.
  by rewrite (proj2 (Nat.leb_gt _ _)) by done.
Qed.

(** The remaining input after a [ReadFull] of a known prefix. *)
Lemma read_full_app n c p q :
  pending c = p ++ q → length p = n →
  ∃ c', read_full n c = (c', Ret p) ∧ pending c' = q ∧
        c_rerr c' = c_rerr c ∧ c_out c' = c_out c ∧
        c_wbudget c' = c_wbudget c ∧ c_werr c' = c_werr c.
Proof.
  intros Hp Hl. destruct (read_full_ok n c) as (chs & -> & Hc).
  { rewrite Hp, length_app. lia. }
  rewrite Hp, <-Hl, take_app_length, drop_app_length in *.
  eexists. split; [done|]. by repeat split.
Qed.

Lemma conn_read_pending n c c' d :
  conn_read n c = (c', Ret d) → pending c = d ++ pending c' ∧ length d ≤ n.
Proof.
  unfold conn_read, pending. destruct (c_in c) as [|ch rest] eqn:E; [done|]. simpl.
  case_match; intros [= <- <-]; zify_bool; simpl.
  - done.
  - rewrite app_assoc, take_drop, length_take. split; [done|lia].
Qed.

(** Reading makes progress: the measure of a loop that reads until an error. *)
Definition src_size (c : conn) : nat := length (c_in c) + length (pending c).

Lemma conn_read_progress n c c' d :
  0 < n → conn_read n c = (c', Ret d) → src_size c' < src_size c.
Proof.
  unfold conn_read, src_size, pending. destruct (c_in c) as [|ch rest] eqn:E; [done|]. simpl.
  intros Hn. case_match; intros [= <- <-]; zify_bool; simpl; rewrite ?length_app, ?length_drop; lia.
Qed.

Lemma conn_read_Fail n c c' e : conn_read n c = (c', Fail e) → c' = c ∧ c_in c = [] ∧ e = c_rerr c.
Proof.
  unfold conn_read. destruct (c_in c); [by intros [= <- <-]|]. by case_match.
Qed.

Lemma conn_read_nopanic n c c' : conn_read n c ≠ (c', Panic).
Proof. unfold conn_read. destruct (c_in c); [done|]. by case_match. Qed.

Lemma conn_read_rerr n c c' x : conn_read n c = (c', x) → c_rerr c' = c_rerr c.
Proof. unfold conn_read. destruct (c_in c); [by intros [= <- <-]|]. by case_match; intros [= <- <-]. Qed.

(** [bytes.NewReader(b)]: everything at once, then EOF. *)
Definition bytes_reader (b : list Z) : conn :=
  Conn (match b with [] => [] | _ => [b] end) io_EOF [] None io_EOF.

Lemma pending_bytes_reader b : pending (bytes_reader b) = b.
Proof. unfold pending. destruct b; [done|]. simpl. by rewrite app_nil_r. Qed.

(** A connection that accepts all writes. *)
Lemma conn_write_unbounded b c :
  c_wbudget c = None → conn_write b c = (set_out (c_out c ++ b) None c, (length b, None)).
Proof. intros H. unfold conn_write. by rewrite H. Qed.

(** ** Packet connections *)

(** [pk_in]: the datagrams to arrive, with their senders; [pk_rerr]: the error
    after them; [pk_out]: the datagrams sent; [pk_werr]: an error every [WriteTo]
    returns, if any. *)
Record pconn (A : Type) := PConn {
  pk_in : list (list Z * A);
  pk_rerr : error;
  pk_out : list (list Z * A);
  pk_werr : option error;
}.
Arguments PConn {A} _ _ _ _.
Arguments pk_in {A} _.
Arguments pk_rerr {A} _.
Arguments pk_out {A} _.
Arguments pk_werr {A} _.

Section PacketConn.
Context {A : Type}.

(** [ReadFrom(b)] with [len(b) = n]: the next datagram, cut to [n] bytes. *)
Definition pconn_read (n : nat) (c : pconn A) : pconn A * res (list Z * A) :=
  match pk_in c with
  | [] => (c, Fail (pk_rerr c))
  | (d, a) :: r => (PConn r (pk_rerr c) (pk_out c) (pk_werr c), Ret (take n d, a))
  end.

(** [WriteTo(b, addr)]: the number of bytes, or an error. *)
Definition pconn_write (b : list Z) (a : A) (c : pconn A) : pconn A * res nat :=
  match pk_werr c with
  | Some e => (c, Fail e)
  | None => (PConn (pk_in c) (pk_rerr c) (pk_out c ++ [(b, a)]) None, Ret (length b))
  end.
End PacketConn.
