(* ===== verification/GoNet.v ===== *)
(** * Go's text and address functions: [strings], [strconv], [net], [netip].

    The standard-library functions the source parses and prints addresses
    with, written out as executable functions on byte strings:
    [strings.Split/Cut/Contains/...], [strconv.Itoa/Atoi],
    [net.SplitHostPort/JoinHostPort], [netip.ParseAddr], [net.ParseIP],
    [net.IP.String], [netip.Addr.String], [netip.Prefix]. *)
From S2P Require Import Prelude.
Local Open Scope Z_scope.

(** ** Package strings *)

(** [strings.IndexByte], [strings.LastIndexByte]. *)
Fixpoint index_byte (c : Z) (s : list Z) : option nat :=
  match s with
  | [] => None
  | x :: r => if x =? c then Some 0%nat else S <$> index_byte c r
  end.
Fixpoint last_index_byte (c : Z) (s : list Z) : option nat :=
  match s with
  | [] => None
  | x :: r => match last_index_byte c r with
              | Some i => Some (S i)
              | None => if x =? c then Some 0%nat else None
              end
  end.
Definition contains_byte (c : Z) (s : list Z) : bool :=
  match index_byte c s with Some _ => true | None => false end.

(** [strings.HasPrefix], [strings.Index] (of a non-empty needle), [strings.Contains]. *)
Fixpoint has_prefix (p s : list Z) : bool :=
  match p, s with
  | [], _ => true
  | x :: p', y :: s' => (x =? y) && has_prefix p' s'
  | _ :: _, [] => false
  end.
Fixpoint index_of (sub s : list Z) : option nat :=
  if has_prefix sub s then Some 0%nat else
  match s with [] => None | _ :: r => S <$> index_of sub r end.
Definition contains (s sub : list Z) : bool :=
  match index_of sub s with Some _ => true | None => false end.

(** [strings.Split] with a one-byte separator. *)
Fixpoint split_byte (sep : Z) (s : list Z) : list (list Z) :=
  match s with
  | [] => [[]]
  | c :: r =>
      if c =? sep then [] :: split_byte sep r
      else match split_byte sep r with
           | p :: ps => (c :: p) :: ps
           | [] => [[c]]
           end
  end.

(** [strings.Cut] with a one-byte separator. *)
Definition cut_byte (sep : Z) (s : list Z) : list Z * list Z * bool :=
  match index_byte sep s with
  | Some i => (take i s, drop (S i) s, true)
  | None => (s, [], false)
  end.

(** [strings.TrimPrefix], [strings.TrimSuffix]. *)
Definition trim_prefix (s p : list Z) : list Z :=
  if has_prefix p s then drop (length p) s else s.
Definition trim_suffix (s p : list Z) : list Z :=
  if has_prefix (reverse p) (reverse s) then take (length s - length p) s else s.

(** [strings.ReplaceAll] with a non-empty needle. *)
Fixpoint replace_all_aux (fuel : nat) (s old new : list Z) : list Z :=
  match fuel with
  | O => s
  | S f =>
      match s with
      | [] => []
      | c :: r => if has_prefix old s then new ++ replace_all_aux f (drop (length old) s) old new
                  else c :: replace_all_aux f r old new
      end
  end.
Definition replace_all (s old new : list Z) : list Z :=
  replace_all_aux (length s) s old new.

Lemma split_byte_nonnil sep s : split_byte sep s ≠ [].
Proof. destruct s; simpl; [done|]. repeat case_match; done. Qed.

Lemma split_byte_nosep sep s : sep ∉ s → split_byte sep s = [s].
Proof.
  induction s as [|c r IH]; intros Hn; [done|]. apply not_elem_of_cons in Hn as [Hne Hn]. simpl.
  rewrite (proj2 (Z.eqb_neq c sep)) by done. by rewrite IH.
Qed.

Lemma split_byte_parts_nosep sep s p : p ∈ split_byte sep s → sep ∉ p.
Proof.
  revert p. induction s as [|c r IH]; simpl; intros p.
  - intros ->%list_elem_of_singleton. apply not_elem_of_nil.
  - case_match eqn:E.
    + intros [->|Hp]%elem_of_cons; [apply not_elem_of_nil|auto].
    + zify_bool. destruct (split_byte sep r) as [|q qs] eqn:Er.
      * by destruct (split_byte_nonnil sep r).
      * intros [->|Hp]%elem_of_cons; [|apply IH; by right].
        apply not_elem_of_cons. split; [done|]. apply IH. by left.
Qed.

Lemma index_byte_None c s : index_byte c s = None ↔ c ∉ s.
Proof.
  induction s as [|x r IH]; simpl.
  - split; [intros _; apply not_elem_of_nil|done].
  - rewrite not_elem_of_cons. case_match; zify_bool.
    + split; [done|]. intros []. congruence.
    + rewrite fmap_None, IH. naive_solver.
Qed.

Lemma contains_byte_false c s : contains_byte c s = false ↔ c ∉ s.
Proof. unfold contains_byte. rewrite <-index_byte_None. by destruct (index_byte c s). Qed.

Lemma index_byte_app c s t : c ∉ s → index_byte c (s ++ c :: t) = Some (length s).
Proof.
  induction s as [|x r IH]; simpl; intros Hn; [by rewrite Z.eqb_refl|].
  apply not_elem_of_cons in Hn as [Hne Hn].
  rewrite (proj2 (Z.eqb_neq x c)) by congruence. by rewrite IH.
Qed.

Lemma last_index_byte_None c s : c ∉ s → last_index_byte c s = None.
Proof.
  induction s as [|x r IH]; simpl; [done|]. intros [Hne Hn]%not_elem_of_cons.
  rewrite IH by done. by rewrite (proj2 (Z.eqb_neq x c)) by congruence.
Qed.

Lemma last_index_byte_app c s t : c ∉ t → last_index_byte c (s ++ c :: t) = Some (length s).
Proof.
  intros Ht. induction s as [|x r IH]; simpl; [|by rewrite IH].
  rewrite last_index_byte_None by done. by rewrite Z.eqb_refl.
Qed.

Lemma has_prefix_spec p s : has_prefix p s = true ↔ ∃ t, s = p ++ t.
Proof.
  revert s. induction p as [|x p IH]; intros s; simpl; [naive_solver|].
  destruct s as [|y s]; [naive_solver|]. rewrite andb_true_iff, Z.eqb_eq, IH. naive_solver.
Qed.

(** [strings.Contains] finds exactly the substrings. *)
Lemma contains_spec s sub : contains s sub = true ↔ ∃ a b, s = a ++ sub ++ b.
Proof.
  unfold contains. transitivity (is_Some (index_of sub s)).
  { destruct (index_of sub s); [split; eauto|]. split; [done|by intros []]. }
  induction s as [|c s IH]; simpl.
  - case_match eqn:E.
    + apply has_prefix_spec in E as [t E]. split; [|by eexists].
      intros _. exists [], t. done.
    + split; [by intros []|]. intros (a & b & Hab). destruct a; [|done].
      assert (has_prefix sub [] = true) by (apply has_prefix_spec; eauto). congruence.
  - case_match eqn:E.
    + apply has_prefix_spec in E as [t E]. split; [|by eexists].
      intros _. exists [], t. done.
    + rewrite fmap_is_Some, IH. split.
      * intros (a & b & ->). by exists (c :: a), b.
      * intros (a & b & Hab). destruct a as [|x a]; simplify_eq/=; [|eauto].
        assert (has_prefix sub (c :: s) = true) by (apply has_prefix_spec; eauto). congruence.
Qed.

(** ** Package strconv *)

Fixpoint dec_aux (fuel : nat) (n : Z) (acc : list Z) : list Z :=
  match fuel with
  | O => acc
  | S f => let acc' := (48 + n mod 10) :: acc in
           if n <? 10 then acc' else dec_aux f (n / 10) acc'
  end.
(** The decimal digits of a number that is not negative. *)
Definition dec (n : Z) : list Z := dec_aux (S (Z.to_nat (Z.log2 n))) n [].
(** [strconv.Itoa]. *)
Definition itoa (n : Z) : list Z := if n <? 0 then 45 :: dec (- n) else dec n.

Definition is_digit (c : Z) : bool := (48 <=? c) && (c <=? 57).

Fixpoint parse_digits (s : list Z) (acc : Z) : option Z :=
  match s with
  | [] => Some acc
  | c :: r => if is_digit c then parse_digits r (10 * acc + (c - 48)) else None
  end.

Definition max_int : Z := 2 ^ 63 - 1.

(** The value [strconv.Atoi] returns, with its error: a syntax error gives 0,
    a range error the nearest bound. *)
Definition atoi (s : list Z) : Z * bool :=
  let '(neg, ds) := match s with
                    | 45 :: r => (true, r)
                    | 43 :: r => (false, r)
                    | _ => (false, s)
                    end in
  match ds with
  | [] => (0, false)
  | _ => match parse_digits ds 0 with
         | None => (0, false)
         | Some v =>
             if neg then if max_int + 1 <? v then (- (max_int + 1), false) else (- v, true)
             else if max_int <? v then (max_int, false) else (v, true)
         end
  end.

(** [strconv.ParseUint(s, 10, bits)]: 0 on a syntax error, the maximum on overflow. *)
Definition parse_uint (bits : Z) (s : list Z) : Z * bool :=
  match s with
  | [] => (0, false)
  | _ => match parse_digits s 0 with
         | None => (0, false)
         | Some v => if 2 ^ bits <=? v then (2 ^ bits - 1, false) else (v, true)
         end
  end.

Lemma parse_dec_aux fuel n acc :
  0 ≤ n < 10 ^ Z.of_nat fuel → parse_digits (dec_aux fuel n acc) 0 = parse_digits acc n.
Proof.
  revert n acc. induction fuel as [|f IH]; intros n acc Hn.
  { simpl in Hn. assert (n = 0) as -> by lia. done. }
  rewrite Nat2Z.inj_succ, Z.pow_succ_r in Hn by lia. cbn [dec_aux].
  assert (∀ d, 0 ≤ d < 10 → is_digit (48 + d) = true) as Hd.
  { intros. unfold is_digit. apply andb_true_iff. rewrite !Z.leb_le. lia. }
  pose proof (Z.mod_pos_bound n 10 ltac:(lia)).
  case_match; zify_bool.
  - cbn [parse_digits]. rewrite Hd, Z.mod_small by lia. f_equal. lia.
  - rewrite IH.
    + cbn [parse_digits]. rewrite Hd by lia. f_equal. pose proof (Z.div_mod n 10). lia.
    + split; [apply Z.div_pos; lia|]. apply Z.div_lt_upper_bound; lia.
Qed.

Lemma dec_fuel n : 0 ≤ n → n < 10 ^ Z.of_nat (S (Z.to_nat (Z.log2 n))).
Proof.
  intros Hn. rewrite Nat2Z.inj_succ, Z2Nat.id by apply Z.log2_nonneg.
  destruct (decide (n = 0)) as [->|]; [done|].
  apply Z.lt_le_trans with (2 ^ Z.succ (Z.log2 n)); [apply Z.log2_spec; lia|].
  apply Z.pow_le_mono_l. lia.
Qed.

(** Printing a number and parsing it gives the number. *)
Lemma parse_dec n : 0 ≤ n → parse_digits (dec n) 0 = Some n.
Proof. intros. unfold dec. rewrite parse_dec_aux; [done|]. split; [done|]. by apply dec_fuel. Qed.

Lemma dec_aux_digits fuel n acc :
  0 ≤ n → Forall (λ c, is_digit c = true) acc →
  Forall (λ c, is_digit c = true) (dec_aux fuel n acc).
Proof.
  revert n acc. induction fuel as [|f IH]; intros n acc Hn Ha; cbn [dec_aux]; [done|].
  assert (is_digit (48 + n mod 10) = true).
  { pose proof (Z.mod_pos_bound n 10 ltac:(lia)). unfold is_digit.
    apply andb_true_iff. rewrite !Z.leb_le. lia. }
  case_match; [by constructor|]. apply IH; [apply Z.div_pos; lia|by constructor].
Qed.

Lemma dec_digits n : 0 ≤ n → Forall (λ c, is_digit c = true) (dec n).
Proof. intros. by apply dec_aux_digits. Qed.

Lemma dec_nonnil n : dec n ≠ [].
Proof.
  unfold dec. cbn [dec_aux]. case_match; [done|].
  generalize (Z.to_nat (Z.log2 n)) as f. generalize (n / 10) as m.
  generalize (48 + n mod 10) as x. intros x m f.
  assert (∀ f m acc, acc ≠ [] → dec_aux f m acc ≠ []) as Hg; [|by refine (Hg f m [x] _)].
  clear. induction f as [|f IH]; intros m acc Ha; cbn [dec_aux]; [done|].
  case_match; [done|]. by refine (IH _ (_ :: _) _).
Qed.

Lemma atoi_itoa n : 0 ≤ n ≤ max_int → atoi (itoa n) = (n, true).
Proof.
  intros Hn. unfold itoa. iffalse.
  pose proof (parse_dec n ltac:(lia)) as Hp.
  pose proof (dec_digits n ltac:(lia)) as Hd. pose proof (dec_nonnil n) as Hne.
  destruct (dec n) as [|c r] eqn:E; [done|]. apply Forall_cons_1 in Hd as [Hc _].
  unfold is_digit in Hc. apply andb_true_iff in Hc as [Hc1 Hc2]. zify_bool.
  assert (atoi (c :: r) =
          match parse_digits (c :: r) 0 with
          | None => (0, false)
          | Some v => if max_int <? v then (max_int, false) else (v, true) end) as ->.
  { unfold atoi. repeat (case_match; try lia; simplify_eq); done. }
  rewrite Hp. by iffalse.
Qed.

(** ** Packages netip and net: addresses *)

(** [netip.Addr]: the zero value, a 4-byte address, or a 16-byte address with
    its zone. *)
Inductive Addr :=
| AddrNone
| Addr4 (b : list Z)
| Addr6 (b : list Z) (zone : gostring).

#[export] Instance Addr_eq_dec : EqDecision Addr.
Proof. solve_decision. Defined.

#[export] Instance Addr_countable : Countable Addr.
Proof.
  refine (inj_countable'
    (λ a, match a with
          | AddrNone => (0%nat, [], [])
          | Addr4 b => (1%nat, b, [])
          | Addr6 b z => (2%nat, b, z) end)
    (λ t, match t with
          | (1%nat, b, _) => Addr4 b
          | (2%nat, b, z) => Addr6 b z
          | _ => AddrNone end) _).
  by intros [].
Defined.

Definition IsValid (a : Addr) : bool := match a with AddrNone => false | _ => true end.
Definition Is4 (a : Addr) : bool := match a with Addr4 _ => true | _ => false end.

(** [parseIPv4Fields]: [prev] is [s[i-1]], [flds] the fields stored so far. *)
Fixpoint parse4_fields (s : list Z) (prev : option Z) (val : Z) (digLen : nat)
    (flds : list Z) : option (list Z) :=
  match s with
  | [] => if (length flds <? 3)%nat then None else Some (flds ++ [val])
  | c :: r =>
      if is_digit c then
        if (digLen =? 1)%nat && (val =? 0) then None
        else let val' := val * 10 + (c - 48) in
             if 255 <? val' then None else parse4_fields r (Some c) val' (S digLen) flds
      else if c =? 46 then
        if match prev with None => true | Some p => p =? 46 end ||
           match r with [] => true | _ => false end then None
        else if (length flds =? 3)%nat then None
        else parse4_fields r (Some c) 0 0 (flds ++ [val])
      else None
  end.
Definition parse_ipv4 (s : list Z) : option (list Z) := parse4_fields s None 0 0 [].

Definition hex_val (c : Z) : option Z :=
  if is_digit c then Some (c - 48)
  else if (97 <=? c) && (c <=? 102) then Some (c - 97 + 10)
  else if (65 <=? c) && (c <=? 70) then Some (c - 65 + 10)
  else None.

(** The digits of one hexadecimal group: how many, their value, what follows.
    [None]: more than four digits (which is also when the value overflows). *)
Fixpoint hex_group (s : list Z) (off : nat) (acc : Z) : option (nat * Z * list Z) :=
  match s with
  | [] => Some (off, acc, [])
  | c :: r =>
      match hex_val c with
      | None => Some (off, acc, s)
      | Some v => if (3 <? off)%nat then None else hex_group r (S off) (acc * 16 + v)
      end
  end.

(** The loop of [parseIPv6]: [ip] is what has been stored, [ell] the position of
    the ellipsis. Returns the bytes, the ellipsis and the unread text. *)
Fixpoint parse6_loop (fuel : nat) (s : list Z) (ip : list Z) (ell : option nat)
    : option (list Z * option nat * list Z) :=
  match fuel with
  | O => Some (ip, ell, s)
  | S f =>
      match hex_group s 0 0 with
      | None => None
      | Some (O, _, _) => None
      | Some (_, acc, rest) =>
          match rest with
          | 46 :: _ =>
              if match ell with None => negb (length ip =? 12)%nat | Some _ => false end then None
              else if (16 <? length ip + 4)%nat then None
              else match parse4_fields s None 0 0 [] with
                   | None => None
                   | Some f4 => Some (ip ++ f4, ell, [])
                   end
          | _ =>
              let ip' := ip ++ be16 acc in
              match rest with
              | [] => Some (ip', ell, [])
              | 58 :: rest' =>
                  match rest' with
                  | [] => None
                  | 58 :: rest'' =>
                      match ell with
                      | Some _ => None
                      | None => match rest'' with
                                | [] => Some (ip', Some (length ip'), [])
                                | _ => parse6_loop f rest'' ip' (Some (length ip'))
                                end
                      end
                  | _ => parse6_loop f rest' ip' ell
                  end
              | _ => None
              end
          end
      end
  end.

Definition parse_ipv6 (s : list Z) : option (list Z * gostring) :=
  match cut_byte 37 s with
  | (s', zone, found) =>
      if found && match zone with [] => true | _ => false end then None else
      let '(s1, ell) := match s' with 58 :: 58 :: r => (r, Some 0%nat) | _ => (s', None) end in
      match s1, ell with
      | [], Some _ => Some (replicate 16 0, zone)
      | _, _ =>
          match parse6_loop 8 s1 [] ell with
          | Some (ip, ell', []) =>
              if (length ip <? 16)%nat then
                match ell' with
                | None => None
                | Some e => Some (take e ip ++ replicate (16 - length ip) 0 ++ drop e ip, zone)
                end
              else match ell' with Some _ => None | None => Some (ip, zone) end
          | _ => None
          end
      end
  end.

(** [netip.ParseAddr]: the first of ['.'], [':'], ['%'] decides the family. *)
Fixpoint addr_family (s : list Z) : option Z :=
  match s with
  | [] => None
  | c :: r => if (c =? 46) || (c =? 58) || (c =? 37) then Some c else addr_family r
  end.
Definition ParseAddr (s : list Z) : option Addr :=
  match addr_family s with
  | Some 46 => Addr4 <$> parse_ipv4 s
  | Some 58 => '(b, z) ← parse_ipv6 s; Some (Addr6 b z)
  | _ => None
  end.

Definition v4_in_v6_prefix : list Z := replicate 10 0 ++ [255; 255].

(** [net.ParseIP]: the 16-byte form; a zone is refused. *)
Definition net_ParseIP (s : list Z) : option (list Z) :=
  match ParseAddr s with
  | Some (Addr4 b) => Some (v4_in_v6_prefix ++ b)
  | Some (Addr6 b []) => Some b
  | _ => None
  end.

(** [net.IP.To4], [net.IP.To16]. *)
Definition To4 (ip : list Z) : option (list Z) :=
  if (length ip =? 4)%nat then Some ip
  else if (length ip =? 16)%nat && bool_decide (take 12 ip = v4_in_v6_prefix)
  then Some (drop 12 ip) else None.
Definition To16 (ip : list Z) : option (list Z) :=
  if (length ip =? 4)%nat then Some (v4_in_v6_prefix ++ ip)
  else if (length ip =? 16)%nat then Some ip else None.

(** Dotted decimal. *)
Fixpoint fmt4 (l : list Z) : list Z :=
  match l with
  | [] => []
  | [x] => dec x
  | x :: r => dec x ++ 46 :: fmt4 r
  end.

Definition hex_digit (d : Z) : Z := if d <? 10 then 48 + d else 87 + d.
(** [appendHex]: a 16-bit value in lower-case hexadecimal, no leading zero. *)
Definition fmt_hex (x : Z) : list Z :=
  (if 4096 <=? x then [hex_digit (x / 4096)] else []) ++
  (if 256 <=? x then [hex_digit (x / 256 mod 16)] else []) ++
  (if 16 <=? x then [hex_digit (x / 16 mod 16)] else []) ++
  [hex_digit (x mod 16)].

(** The eight 16-bit groups of an address. *)
Fixpoint groups (b : list Z) : list Z :=
  match b with
  | x :: y :: r => (x * 256 + y) :: groups r
  | _ => []
  end.

(** How many zero groups a list starts with. *)
Fixpoint zero_run (g : list Z) : nat :=
  match g with
  | x :: r => if x =? 0 then S (zero_run r) else 0
  | [] => 0
  end.
(** The first longest run of at least two zero groups: its start and end. *)
Fixpoint longest_zero (g : list Z) (i : nat) (best : option (nat * nat)) : option (nat * nat) :=
  match g with
  | [] => best
  | _ :: r =>
      let l := zero_run g in
      let cur := match best with Some (a, b) => (b - a)%nat | None => 0%nat end in
      longest_zero r (S i)
        (if (2 <=? l)%nat && (cur <? l)%nat then Some (i, (i + l)%nat) else best)
  end.

Fixpoint join_hex (g : list Z) : list Z :=
  match g with
  | [] => []
  | [x] => fmt_hex x
  | x :: r => fmt_hex x ++ 58 :: join_hex r
  end.
Definition fmt6 (b : list Z) : list Z :=
  let g := groups b in
  match longest_zero g 0 None with
  | None => join_hex g
  | Some (s, e) => join_hex (take s g) ++ [58; 58] ++ join_hex (drop e g)
  end.

(** [net.IP.String] for a 4- or 16-byte address. *)
Definition IP_String (ip : list Z) : list Z :=
  match To4 ip with Some p4 => fmt4 p4 | None => fmt6 ip end.

(** [netip.Addr.String]: an address mapped from IPv4 prints its last four bytes
    dotted. *)
Definition Addr_String (a : Addr) : list Z :=
  match a with
  | AddrNone => str "invalid IP"
  | Addr4 b => fmt4 b
  | Addr6 b z =>
      (if bool_decide (take 12 b = v4_in_v6_prefix) then str "::ffff:" ++ fmt4 (drop 12 b)
       else fmt6 b) ++ match z with [] => [] | _ => 37 :: z end
  end.

(** ** netip.Prefix *)

(** An address and a bit count; [None] is the invalid prefix. *)
Abbreviation Prefix := (Addr * Z)%type.

Definition BitLen (a : Addr) : Z :=
  match a with AddrNone => 0 | Addr4 _ => 32 | Addr6 _ _ => 128 end.

(** The number a big-endian byte sequence stands for. *)
Definition be_int (b : list Z) : Z := foldl (λ acc x, acc * 256 + x) 0 b.
Definition addr_int (a : Addr) : Z :=
  match a with AddrNone => 0 | Addr4 b => be_int b | Addr6 b _ => be_int b end.

Definition ParsePrefix (s : list Z) : option Prefix :=
  match last_index_byte 47 s with
  | None => None
  | Some i =>
      match ParseAddr (take i s) with
      | Some ip =>
          match ip with
          | Addr6 _ (_ :: _) => None
          | _ =>
              let bitsStr := drop (S i) s in
              if match bitsStr with c :: _ :: _ => (c <? 49) || (57 <? c) | _ => false end then None else
              let '(bits, ok) := atoi bitsStr in
              if negb ok || (bits <? 0) || (BitLen ip <? bits) then None else Some (ip, bits)
          end
      | None => None
      end
  end.

(** [netip.Prefix.Contains]: same family, no zone, equal network bits. *)
Definition Prefix_Contains (p : Prefix) (ip : Addr) : bool :=
  let '(a, bits) := p in
  match ip with
  | Addr6 _ (_ :: _) => false
  | _ =>
      if (BitLen a =? 0) || (BitLen ip =? 0) || negb (BitLen a =? BitLen ip) then false
      else Z.shiftr (Z.lxor (addr_int ip) (addr_int a)) (BitLen a - bits) =? 0
  end.

(** ** net.SplitHostPort and net.JoinHostPort *)

Inductive split_err := missingPort | tooManyColons | otherAddrErr.

Definition SplitHostPort (hp : list Z) : (gostring * gostring) + split_err :=
  match last_index_byte 58 hp with
  | None => inr missingPort
  | Some i =>
      let bracketed := match hp with 91 :: _ => true | _ => false end in
      let r : ((gostring * nat * nat) + split_err) :=
        if bracketed then
          match index_byte 93 hp with
          | None => inr otherAddrErr
          | Some e =>
              if (e + 1 =? length hp)%nat then inr missingPort
              else if (e + 1 =? i)%nat then inl (take (e - 1) (drop 1 hp), 1%nat, S e)
              else if bool_decide (hp !! S e = Some 58) then inr tooManyColons
              else inr missingPort
          end
        else if contains_byte 58 (take i hp) then inr tooManyColons
        else inl (take i hp, 0%nat, 0%nat) in
      match r with
      | inr e => inr e
      | inl (host, j, k) =>
          if contains_byte 91 (drop j hp) then inr otherAddrErr
          else if contains_byte 93 (drop k hp) then inr otherAddrErr
          else inl (host, drop (S i) hp)
      end
  end.

Definition JoinHostPort (host port : gostring) : gostring :=
  if contains_byte 58 host then str "[" ++ host ++ str "]:" ++ port
  else host ++ str ":" ++ port.

Example split_v6 : SplitHostPort (str "[::1]:80") = inl (str "::1", str "80").
Proof. reflexivity. Qed.
Example parse_v6 : net_ParseIP (str "2001:db8::ff00:42:8329") =
  Some [32;1;13;184;0;0;0;0;0;0;255;0;0;66;131;41].
Proof. reflexivity. Qed.
Example print_v6 : IP_String [32;1;13;184;0;0;0;0;0;0;255;0;0;66;131;41] =
  str "2001:db8::ff00:42:8329".
Proof. reflexivity. Qed.
Example parse_mapped : net_ParseIP (str "::ffff:1.2.3.4") = Some (v4_in_v6_prefix ++ [1;2;3;4]).
Proof. reflexivity. Qed.

(** ** Facts about the address functions *)

Lemma dec_aux_acc f n acc : dec_aux f n acc = dec_aux f n [] ++ acc.
Proof.
  revert n acc. induction f as [|f IH]; intros n acc; cbn [dec_aux]; [done|].
  case_match; [done|]. rewrite IH, (IH _ [_]), <-app_assoc. done.
Qed.

Lemma dec_aux_fuel f f' n acc :
  0 ≤ n → n < 10 ^ Z.of_nat f → n < 10 ^ Z.of_nat f' → (0 < f)%nat → (0 < f')%nat →
  dec_aux f n acc = dec_aux f' n acc.
Proof.
  revert f' n acc. induction f as [|f IH]; intros f' n acc Hn Hf Hf' ??; [lia|].
  destruct f' as [|f']; [lia|]. cbn [dec_aux]. case_match; [done|]. zify_bool.
  rewrite !Nat2Z.inj_succ, !Z.pow_succ_r in Hf, Hf' by lia.
  assert (f ≠ 0%nat) by (intros ->; simpl in *; lia).
  assert (f' ≠ 0%nat) by (intros ->; simpl in *; lia).
  apply IH; try lia; [apply Z.div_pos; lia|..]; apply Z.div_lt_upper_bound; lia.
Qed.

Lemma dec_small d : 0 ≤ d < 10 → dec d = [48 + d].
Proof.
  intros. unfold dec. cbn [dec_aux]. iftrue. by rewrite Z.mod_small by lia.
Qed.

Lemma dec_snoc v d : 0 < v → 0 ≤ d < 10 → dec (v * 10 + d) = dec v ++ [48 + d].
Proof.
  intros Hv Hd. unfold dec at 1. cbn [dec_aux]. iffalse.
  replace ((v * 10 + d) / 10) with v
    by (rewrite Z.add_comm, Z.div_add by lia; rewrite Z.div_small by lia; lia).
  replace ((v * 10 + d) mod 10) with d
    by (rewrite Z.add_comm, Z.mod_add by lia; by rewrite Z.mod_small by lia).
  rewrite dec_aux_acc. f_equal. unfold dec.
  assert (1 ≤ Z.log2 (v * 10 + d)).
  { change 1 with (Z.log2 2). apply Z.log2_le_mono. lia. }
  apply dec_aux_fuel; try lia; [|by apply dec_fuel; lia].
  rewrite Z2Nat.id by lia. apply Z.lt_le_trans with (2 ^ Z.log2 (v * 10 + d)).
  - apply Z.lt_le_trans with ((v * 10 + d) / 2).
    + apply Z.le_succ_l, Z.div_le_lower_bound; lia.
    + apply Z.lt_succ_r. apply Z.div_lt_upper_bound; [lia|].
      pose proof (Z.log2_spec (v * 10 + d) ltac:(lia)) as [_ Hl].
      rewrite Z.pow_succ_r in Hl by lia. lia.
  - apply Z.pow_le_mono_l. lia.
Qed.

Lemma is_digit_spec c : is_digit c = true ↔ ∃ d, c = 48 + d ∧ 0 ≤ d < 10.
Proof.
  unfold is_digit. rewrite andb_true_iff, !Z.leb_le. split.
  - intros. exists (c - 48). lia.
  - intros (d & -> & ?). lia.
Qed.

(** Reading back the digits [strconv.Itoa] prints for an octet. *)
Lemma parse4_dec x r prev flds :
  0 ≤ x ≤ 255 →
  ∃ p, p ≠ 46 ∧ parse4_fields (dec x ++ r) prev 0 0 flds =
                parse4_fields r (Some p) x (length (dec x)) flds.
Proof.
  intros Hx. revert r. induction x as [x IH] using (well_founded_induction (Z.lt_wf 0)); intros r.
  destruct (Z.ltb_spec x 10).
  - rewrite dec_small by lia. exists (48 + x). split; [lia|].
    cbn [app parse4_fields length]. rewrite (proj2 (is_digit_spec _)) by eauto with lia.
    simpl andb. cbv iota zeta. rewrite Z.add_simpl_l. iffalse. done.
  - pose proof (Z.div_mod x 10 ltac:(lia)) as Hdm.
    pose proof (Z.mod_pos_bound x 10 ltac:(lia)).
    assert (0 < x / 10) by (apply Z.div_str_pos; lia).
    rewrite Hdm, (Z.mul_comm 10), dec_snoc, <-app_assoc by lia.
    destruct (IH (x / 10) ltac:(lia) ltac:(lia) ([48 + x mod 10] ++ r)) as (p & Hp & ->).
    exists (48 + x mod 10). split; [lia|]. cbn [app parse4_fields].
    rewrite (proj2 (is_digit_spec _)) by eauto with lia.
    rewrite (proj2 (Z.eqb_neq (x / 10) 0)), andb_false_r by lia. cbv zeta.
    iffalse. rewrite length_app, Nat.add_comm. do 2 f_equal. lia.
Qed.

Lemma parse4_octet x r prev flds :
  0 ≤ x ≤ 255 → r ≠ [] → (length flds < 3)%nat →
  parse4_fields (dec x ++ 46 :: r) prev 0 0 flds = parse4_fields r (Some 46) 0 0 (flds ++ [x]).
Proof.
  intros Hx Hr Hf. destruct (parse4_dec x (46 :: r) prev flds Hx) as (p & Hp & ->).
  cbn [parse4_fields]. rewrite (proj2 (Z.eqb_neq p 46)) by done.
  destruct r; [done|]. simpl is_digit. cbv iota. rewrite Z.eqb_refl. cbn [orb]. by iffalse.
Qed.

Lemma parse4_last x prev flds :
  0 ≤ x ≤ 255 → (length flds = 3)%nat → parse4_fields (dec x) prev 0 0 flds = Some (flds ++ [x]).
Proof.
  intros Hx Hf. destruct (parse4_dec x [] prev flds Hx) as (p & Hp & E).
  rewrite app_nil_r in E. rewrite E. cbn [parse4_fields]. by iffalse.
Qed.

(** Parsing the dotted decimal of four bytes gives the bytes. *)
Lemma parse_ipv4_fmt4 l : length l = 4%nat → wf_bytes l → parse_ipv4 (fmt4 l) = Some l.
Proof.
  intros Hl Hw. destruct l as [|a [|b [|c [|d []]]]]; simplify_eq/=.
  unfold wf_bytes, is_byte in Hw. rewrite !Forall_cons_iff in Hw. destruct_and!.
  pose proof (dec_nonnil d). unfold parse_ipv4.
  rewrite !parse4_octet by (simpl; try lia; first [done|by intros [_ [=]]%app_nil]).
  by rewrite parse4_last by (simpl; lia).
Qed.

Lemma parse4_inv s prev val dl flds fs :
  parse4_fields s prev val dl flds = Some fs → (length flds ≤ 3)%nat → 0 ≤ val ≤ 255 →
  (dl = 0%nat → val = 0 ∧ (prev = None ∨ prev = Some 46)) → ((2 ≤ dl)%nat → 0 < val) →
  ∃ rest, fs = flds ++ rest ∧ length fs = 4%nat ∧ Forall is_byte rest ∧
    (dl ≠ 0%nat → dec val ++ s = fmt4 rest) ∧ (dl = 0%nat → s ≠ [] → s = fmt4 rest).
Proof.
  revert prev val dl flds fs.
  induction s as [|c r IH]; intros prev val dl flds fs H Hf Hv H0 H2; cbn [parse4_fields] in H.
  - case_match; [done|]. zify_bool. simplify_eq. exists [val]. split; [done|].
    rewrite length_app, app_nil_r. split_and!; [simpl; lia| |done..].
    constructor; [split; lia|done].
  - case_match eqn:Ed.
    + apply is_digit_spec in Ed as (d & -> & Hd). case_match eqn:Ez; [done|].
      assert (dl ≠ 0%nat → 0 < val) as Hpos.
      { apply andb_false_iff in Ez. rewrite Nat.eqb_neq, Z.eqb_neq in Ez. intros ?.
        destruct (decide (dl = 1%nat)); [lia|]. apply H2. lia. }
      cbv zeta in H. case_match; [done|]. zify_bool.
      apply IH in H as (rest & -> & Hl & Hw & Hs & _); [|lia|lia|done|lia].
      exists rest. split_and!; try done; intros Hdl.
      * rewrite <-Hs by done. replace (48 + d - 48) with d by lia.
        by rewrite dec_snoc, <-app_assoc by (auto; lia).
      * destruct (H0 Hdl) as [-> _]. intros _. rewrite <-Hs by done.
        rewrite dec_small by lia. simpl. do 2 f_equal. lia.
    + case_match eqn:E46; [|done]. zify_bool. subst c.
      destruct (match prev with None => true | Some p => p =? 46 end ||
                match r with [] => true | _ => false end) eqn:Eg; [done|].
      apply orb_false_iff in Eg as [Ep Er]. case_match; [done|]. zify_bool.
      apply IH in H as (rest & -> & Hl & Hw & _ & Hs);
        [|rewrite ?length_app; simpl; try lia; eauto..].
      exists (val :: rest). rewrite <-app_assoc in *. split_and!; try done.
      * constructor; [split; lia|done].
      * intros _. rewrite Hs by (by destruct r || done).
        destruct rest; [|done]. destruct r; [done|]. by specialize (Hs eq_refl ltac:(done)).
      * intros Hdl. destruct (H0 Hdl) as [_ [->| ->]]; done.
Qed.

(** Conversely a text accepted as an IPv4 address is the dotted decimal of its
    bytes: [parseIPv4Fields] accepts no other spelling. *)
Lemma parse_ipv4_canonical s fs :
  parse_ipv4 s = Some fs → length fs = 4%nat ∧ wf_bytes fs ∧ s = fmt4 fs.
Proof.
  intros H. destruct s as [|c s]; [done|].
  apply parse4_inv in H as (rest & -> & Hl & Hw & _ & Hs); simpl; [|lia|lia|auto|lia].
  split_and!; try done. by apply Hs.
Qed.

(** Splitting what [net.JoinHostPort] joined. *)
Lemma SplitHostPort_JoinHostPort host port :
  91 ∉ host → 93 ∉ host → 58 ∉ port → 91 ∉ port → 93 ∉ port →
  SplitHostPort (JoinHostPort host port) = inl (host, port).
Proof.
  intros H91 H93 Hp58 Hp91 Hp93. unfold JoinHostPort.
  destruct (contains_byte 58 host) eqn:E58.
  - change (str "[") with [91]. change (str "]:" ++ port) with (93 :: 58 :: port).
    unfold SplitHostPort. change ([91] ++ host ++ 93 :: 58 :: port) with
      ((91 :: host) ++ 93 :: 58 :: port).
    replace (last_index_byte 58 _) with (Some (S (S (length host)))).
    2: { change (93 :: 58 :: port) with ([93] ++ 58 :: port). rewrite app_assoc.
         rewrite last_index_byte_app, length_app by done. simpl. f_equal. lia. }
    rewrite index_byte_app by (apply not_elem_of_cons; done).
    cbn [app length]. rewrite !length_app. cbn [length].
    iffalse. rewrite (proj2 (Nat.eqb_eq _ _)) by lia.
    replace (S (length host) - 1)%nat with (length host) by lia.
    change (drop 1 (91 :: ?l)) with l. rewrite take_app_length.
    assert (∀ n, drop (S (length host + n)) (91 :: host ++ 93 :: 58 :: port) =
                 drop n (93 :: 58 :: port)) as Hd.
    { intros n. cbn [skipn]. by rewrite <-drop_drop, drop_app_length. }
    replace (S (S (length host))) with (S (length host + 1)) by lia.
    replace (S (S (length host + 1))) with (S (length host + 2)) by lia.
    rewrite !Hd. cbn [skipn].
    rewrite (proj2 (contains_byte_false 91 _)), (proj2 (contains_byte_false 93 _)); [done|..].
    + by rewrite !not_elem_of_cons.
    + rewrite not_elem_of_app, !not_elem_of_cons. by repeat split.
  - apply contains_byte_false in E58. change (str ":" ++ port) with (58 :: port).
    unfold SplitHostPort. rewrite last_index_byte_app by done.
    assert (match host ++ 58 :: port with 91 :: _ => true | _ => false end = false) as ->.
    { destruct host as [|x h]; simpl; [done|]. apply not_elem_of_cons in H91 as [? _].
      repeat case_match; done || congruence. }
    rewrite take_app_length, (proj2 (contains_byte_false _ _)), !drop_0 by done.
    rewrite (proj2 (contains_byte_false 91 _)), (proj2 (contains_byte_false 93 _)).
    + change (58 :: port) with ([58] ++ port). rewrite app_assoc, drop_app_length'; [done|].
      rewrite length_app. simpl. lia.
    + rewrite not_elem_of_app, not_elem_of_cons. by repeat split.
    + rewrite not_elem_of_app, not_elem_of_cons. by repeat split.
Qed.

(** The bytes the parsers return. *)
Lemma parse6_loop_wf fuel s ip ell ip' ell' s' :
  parse6_loop fuel s ip ell = Some (ip', ell', s') →
  wf_bytes ip → (length ip + 2 * fuel ≤ 16)%nat →
  (∀ e, ell = Some e → (e ≤ length ip)%nat) →
  wf_bytes ip' ∧ (length ip' ≤ 16)%nat ∧ (∀ e, ell' = Some e → (e ≤ length ip')%nat).
Proof.
  revert s ip ell. induction fuel as [|f IH]; intros s ip ell H Hw Hl He; cbn [parse6_loop] in H.
  { simplify_eq. split_and!; try done. lia. }
  destruct (hex_group s 0 0) as [[[off acc] rest]|] eqn:Eh; [|done].
  destruct off as [|off]; [done|].
  assert (wf_bytes (ip ++ be16 acc)) as Hw' by (apply wf_bytes_app; auto with go).
  assert (length (ip ++ be16 acc) = length ip + 2)%nat as Hl' by by rewrite length_app.
  assert (∀ e, ell = Some e → (e ≤ length (ip ++ be16 acc))%nat) as He'.
  { intros e Hee. specialize (He e Hee). lia. }
  remember (ip ++ be16 acc) as ip1 eqn:Eip. clear Eip.
  assert (∀ e, Some (length ip1) = Some e → (e ≤ length ip1)%nat) as Hself by naive_solver.
  repeat match type of H with
  | (match parse4_fields _ _ _ _ _ with _ => _ end) = _ =>
      destruct (parse4_fields _ _ _ _ _) as [f4|] eqn:E4 in H; [|done]
  | (match ?x with _ => _ end) = _ => destruct x eqn:?; try done
  end; simplify_eq;
  try (destruct (parse_ipv4_canonical s f4 E4) as (? & ? & _); zify_bool;
       rewrite wf_bytes_app, length_app; split_and!; try done; [lia|];
       intros e Hee; specialize (He e Hee); lia);
  try (split_and!; try done; lia);
  (eapply IH; [eassumption|done|lia|done]).
Qed.

Lemma parse_ipv6_wf s b z : parse_ipv6 s = Some (b, z) → length b = 16%nat ∧ wf_bytes b.
Proof.
  unfold parse_ipv6. destruct (cut_byte 37 s) as [[s' zone] found]. case_match; [done|].
  destruct (match s' with 58 :: 58 :: r => (r, Some 0%nat) | _ => (s', None) end) as [s1 ell] eqn:E1.
  assert (∀ e, ell = Some e → (e ≤ length (@nil Z))%nat) as He.
  { intros e ->. repeat case_match; naive_solver. }
  assert (∀ n, wf_bytes (replicate n 0)) as Hz.
  { intros n. apply Forall_replicate. unfold is_byte. lia. }
  assert (∀ r, (match parse6_loop 8 s1 [] ell with
      | Some (ip, ell', []) =>
          if (length ip <? 16)%nat then
            match ell' with
            | None => None
            | Some e => Some (take e ip ++ replicate (16 - length ip) 0 ++ drop e ip, zone)
            end
          else match ell' with Some _ => None | None => Some (ip, zone) end
      | _ => None end) = Some r → length r.1 = 16%nat ∧ wf_bytes r.1) as Hmain.
  { intros r Hr. destruct (parse6_loop 8 s1 [] ell) as [[[ip ell'] [|]]|] eqn:El; try done.
    apply parse6_loop_wf in El as (Hw & Hl & He'); [|constructor|simpl; lia|done].
    case_match; zify_bool; case_match; simplify_eq; simpl.
    - specialize (He' _ eq_refl). rewrite !length_app, length_take, length_replicate, length_drop.
      split; [lia|]. rewrite !wf_bytes_app. split_and!; auto with go.
    - split; [lia|done]. }
  intros Hb. destruct s1, ell; try (by apply (Hmain (b, z))).
  simplify_eq. split; [done|]. apply (Hz 16%nat).
Qed.

Lemma v4_in_v6_wf b :
  length b = 4%nat → wf_bytes b →
  length (v4_in_v6_prefix ++ b) = 16%nat ∧ wf_bytes (v4_in_v6_prefix ++ b).
Proof.
  intros Hl Hw. rewrite length_app, wf_bytes_app, Hl. split_and!; [done| |done].
  repeat constructor; unfold is_byte; lia.
Qed.

Lemma net_ParseIP_wf s ip : net_ParseIP s = Some ip → length ip = 16%nat ∧ wf_bytes ip.
Proof.
  unfold net_ParseIP, ParseAddr. intros H.
  destruct (addr_family s) as [c|]; [|done].
  destruct (decide (c = 46)) as [->|]; [|destruct (decide (c = 58)) as [->|]].
  - destruct (parse_ipv4 s) eqn:E; simplify_eq/=.
    apply parse_ipv4_canonical in E as (? & ? & _). by apply v4_in_v6_wf.
  - destruct (parse_ipv6 s) as [[b z]|] eqn:E; simplify_eq/=.
    destruct z; simplify_eq. by apply parse_ipv6_wf in E.
  - exfalso. repeat case_match; try congruence; simplify_eq.
Qed.

Lemma To4_wf ip ip4 : wf_bytes ip → To4 ip = Some ip4 → length ip4 = 4%nat ∧ wf_bytes ip4.
Proof.
  unfold To4. intros Hw H. case_match; zify_bool; simplify_eq; [done|].
  case_match; simplify_eq. zify_bool. rewrite length_drop. split; [lia|auto with go].
Qed.

(** A host text accepted by [net.ParseIP] as IPv4 prints back as itself. *)
Lemma IP_String_v4 s b : parse_ipv4 s = Some b → IP_String b = s.
Proof.
  intros (Hl & _ & ->)%parse_ipv4_canonical. unfold IP_String, To4. by rewrite Hl.
Qed.
