(* ===== verification/GoURL.v ===== *)
(** * Package net/url, as far as nameserver addresses and HTTP requests need it.

    [url.Parse], [URL.String] and [URL.Hostname] of the Go standard library as
    executable functions on byte strings: schemes, user information, hosts with
    ports and zones, paths, and percent-encoding. The query and the fragment of a
    URL are cut off and dropped: the source does not look at them. *)
From S2P Require Import Prelude GoNet.
Local Open Scope Z_scope.

Inductive encoding := encodePath | encodeHost | encodeZone | encodeUserPassword.

Definition is_alpha (c : Z) : bool := ((97 <=? c) && (c <=? 122)) || ((65 <=? c) && (c <=? 90)).
Definition mem (c : Z) (s : string) : bool := contains_byte c (str s).

(** [shouldEscape(c, mode)]. *)
Definition shouldEscape (c : Z) (mode : encoding) : bool :=
  if is_alpha c || is_digit c then false else
  if match mode with encodeHost | encodeZone => mem c "!$&'()*+,;=:[]<>" || (c =? 34) | _ => false end then false else
  if mem c "-_.~" then false else
  if mem c "$&+,/:;=?@" then
    match mode with
    | encodePath => c =? 63
    | encodeUserPassword => mem c "@/?:"
    | _ => true
    end
  else true.

Definition upperhex (v : Z) : Z := if v <? 10 then 48 + v else 55 + v.
Definition escape (s : list Z) (mode : encoding) : list Z :=
  concat ((λ c, if shouldEscape c mode then [37; upperhex (Z.shiftr c 4); upperhex (Z.land c 15)] else [c]) <$> s).

(** [unescape(s, mode)]; [None]: an error. *)
Fixpoint unescape (s : list Z) (mode : encoding) : option (list Z) :=
  match s with
  | [] => Some []
  | 37 :: r =>
      match r with
      | h :: l :: r' =>
          match hex_val h, hex_val l with
          | Some x, Some y =>
              let v := 16 * x + y in
              let bad := match mode with
                         | encodeHost => (x <? 8) && negb (v =? 37)
                         | encodeZone => negb (v =? 37) && negb (v =? 32) && shouldEscape v encodeHost
                         | _ => false
                         end in
              if (bad : bool) then None else cons v <$> unescape r' mode
          | _, _ => None
          end
      | _ => None
      end
  | c :: r =>
      if match mode with encodeHost | encodeZone => (c <? 128) && shouldEscape c mode | _ => false end then None
      else cons c <$> unescape r mode
  end.

(** [getScheme]: the scheme and the rest. *)
Fixpoint getScheme_loop (i : nat) (s rawURL : list Z) : option (list Z * list Z) :=
  match s with
  | [] => Some ([], rawURL)
  | c :: r =>
      if is_alpha c then getScheme_loop (S i) r rawURL
      else if is_digit c || mem c "+-." then
        match i with O => Some ([], rawURL) | _ => getScheme_loop (S i) r rawURL end
      else if c =? 58 then
        match i with O => None | _ => Some (take i rawURL, r) end
      else Some ([], rawURL)
  end.
Definition getScheme (rawURL : list Z) : option (list Z * list Z) := getScheme_loop 0 rawURL rawURL.

Definition to_lower (s : list Z) : list Z := (λ c, if (65 <=? c) && (c <=? 90) then c + 32 else c) <$> s.

(** User name, and password if one is set. *)
Abbreviation Userinfo := (gostring * option gostring)%type.
Record URL := MkURL {
  Scheme : gostring;
  Opaque_ : gostring;
  User : option Userinfo;
  UHost : gostring;
  Path : gostring;
}.

(** [validOptionalPort]: empty, or a colon and digits. *)
Definition validOptionalPort (p : list Z) : bool :=
  match p with [] => true | 58 :: r => forallb is_digit r | _ => false end.

Definition parseHost (host : list Z) : option gostring :=
  match host with
  | 91 :: _ =>
      match last_index_byte 93 host with
      | None => None
      | Some i =>
          if negb (validOptionalPort (drop (S i) host)) then None else
          match index_of (str "%25") (take i host) with
          | Some z =>
              h1 ← unescape (take z host) encodeHost;
              h2 ← unescape (take (i - z) (drop z host)) encodeZone;
              h3 ← unescape (drop i host) encodeHost;
              Some (h1 ++ h2 ++ h3)
          | None => unescape host encodeHost
          end
      end
  | _ =>
      match last_index_byte 58 host with
      | Some i => if validOptionalPort (drop i host) then unescape host encodeHost else None
      | None => unescape host encodeHost
      end
  end.

Definition validUserinfo (s : list Z) : bool :=
  forallb (λ c, is_alpha c || is_digit c || mem c "-._:~!$&'()*+,;=%@") s.

Definition parseAuthority (authority : list Z) : option (option Userinfo * gostring) :=
  match last_index_byte 64 authority with
  | None => h ← parseHost authority; Some (None, h)
  | Some i =>
      h ← parseHost (drop (S i) authority);
      let userinfo := take i authority in
      if negb (validUserinfo userinfo) then None else
      match cut_byte 58 userinfo with
      | (u, p, true) =>
          u' ← unescape u encodeUserPassword; p' ← unescape p encodeUserPassword; Some (Some (u', Some p'), h)
      | (u, _, false) => u' ← unescape u encodeUserPassword; Some (Some (u', None), h)
      end
  end.

(** [parse] of net/url; [None]: an error. The query is dropped. *)
Definition url_parse (viaRequest : bool) (u : list Z) : option URL :=
  if existsb (λ c, (c <? 32) || (c =? 127)) u then None else
  if viaRequest && bool_decide (u = []) then None else
  if decide (u = str "*") then Some (MkURL [] [] None [] (str "*")) else
  '(scheme0, rest0) ← getScheme u;
  let scheme := to_lower scheme0 in
  let rest := fst (fst (cut_byte 63 rest0)) in
  if negb (has_prefix (str "/") rest) && negb (bool_decide (scheme = [])) then Some (MkURL scheme rest None [] []) else
  if negb (has_prefix (str "/") rest) && (viaRequest || contains_byte 58 (fst (fst (cut_byte 47 rest)))) then None else
  if (negb (bool_decide (scheme = [])) || negb viaRequest && negb (has_prefix (str "///") rest)) && has_prefix (str "//") rest then
    let authority0 := drop 2 rest in
    let '(authority, path) := match index_byte 47 authority0 with
                              | Some i => (take i authority0, drop i authority0)
                              | None => (authority0, [])
                              end in
    '(user, host) ← parseAuthority authority;
    p ← unescape path encodePath;
    Some (MkURL scheme [] user host p)
  else p ← unescape rest encodePath; Some (MkURL scheme [] None [] p).

(** [url.Parse] and [url.ParseRequestURI]. *)
Definition url_Parse (rawURL : gostring) : option URL := url_parse false (fst (fst (cut_byte 35 rawURL))).
Definition url_ParseRequestURI (rawURL : gostring) : option URL := url_parse true rawURL.

(** [Userinfo.String]. *)
Definition Userinfo_String (u : Userinfo) : gostring :=
  escape u.1 encodeUserPassword ++ match u.2 with Some p => str ":" ++ escape p encodeUserPassword | None => [] end.

(** [URL.String] of a URL with a scheme and no opaque part. *)
Definition URL_String (u : URL) : gostring :=
  let path := if decide (Path u = str "*") then str "*" else escape (Path u) encodePath in
  Scheme u ++ str ":" ++
  (if bool_decide (UHost u = []) && bool_decide (Path u = []) && bool_decide (User u = None) then [] else str "//") ++
  match User u with Some i => Userinfo_String i ++ str "@" | None => [] end ++
  escape (UHost u) encodeHost ++
  (if negb (bool_decide (path = [])) && negb (has_prefix (str "/") path) && negb (bool_decide (UHost u = [])) then str "/" else []) ++ path.

(** [URL.Hostname]: the host without port and brackets. *)
Definition Hostname (u : URL) : gostring :=
  let hp := UHost u in
  let h := match last_index_byte 58 hp with
           | Some i => if validOptionalPort (drop i hp) then take i hp else hp
           | None => hp
           end in
  match h with
  | 91 :: r => match last_index_byte 93 h with
               | Some j => if (S j =? length h)%nat then take (j - 1) r else h
               | None => h
               end
  | _ => h
  end.

Example parse_tls : url_Parse (str "TLS://dns.google:853/x?y#z") = Some (MkURL (str "tls") [] None (str "dns.google:853") (str "/x")).
Proof. reflexivity. Qed.
Example parse_v6_zone : url_Parse (str "udp://[fe80::1%25en0]:53") = Some (MkURL (str "udp") [] None (str "[fe80::1%en0]:53") []).
Proof. reflexivity. Qed.
Example parse_bad_port : url_Parse (str "udp://8.8.8.8:x") = None.
Proof. reflexivity. Qed.
Example print_https : URL_String (MkURL (str "https") [] (Some (str "u@", Some (str "p"))) (str "dns:443") (str "/dns query")) =
  str "https://u%40:p@dns:443/dns%20query".
Proof. reflexivity. Qed.

(** ** Simple addresses: a scheme, [//] and a host made of plain characters *)

(** Characters that stand for themselves in a host. *)
Definition host_char (c : Z) : bool := is_alpha c || is_digit c || mem c "-_.~:[]".

Lemma host_char_bounds c : host_char c = true → 33 ≤ c < 127 ∧ c ≠ 35 ∧ c ≠ 37 ∧ c ≠ 47 ∧ c ≠ 63 ∧ c ≠ 64.
Proof.
  unfold host_char, is_alpha, is_digit, mem. intros H.
  destruct (decide (33 ≤ c < 127)) as [Hc|Hc].
  - split; [done|]. repeat split; intros ->; done.
  - exfalso. assert (contains_byte c (str "-_.~:[]") = false) as Hm.
    { apply contains_byte_false. change (str "-_.~:[]") with [45; 95; 46; 126; 58; 91; 93].
      intros Hin. repeat (apply elem_of_cons in Hin as [->|Hin]; [lia|]). by apply elem_of_nil in Hin. }
    rewrite Hm in H. zify_bool. lia.
Qed.

Lemma host_char_escape c : host_char c = true → shouldEscape c encodeHost = false.
Proof.
  unfold host_char, shouldEscape. intros H. destruct (is_alpha c || is_digit c); [done|]. simpl in H.
  unfold mem in *. apply not_false_iff_true in H.
  destruct (contains_byte c (str "!$&'()*+,;=:[]<>") || (c =? 34)) eqn:E; [done|].
  destruct (contains_byte c (str "-_.~")) eqn:E2; [done|]. exfalso. apply H.
  apply orb_false_iff in E as [E _]. apply contains_byte_false in E, E2. apply contains_byte_false.
  change (str "-_.~:[]") with ([45; 95; 46; 126] ++ [58; 91; 93]).
  change (str "-_.~") with [45; 95; 46; 126] in E2. rewrite not_elem_of_app. split; [done|].
  intros Hin. apply E. clear -Hin. change (str "!$&'()*+,;=:[]<>") with
    ([33; 36; 38; 39; 40; 41; 42; 43; 44; 59; 61] ++ [58; 91; 93] ++ [60; 62]). set_solver.
Qed.

Lemma unescape_host s : Forall (λ c, host_char c = true) s → unescape s encodeHost = Some s.
Proof.
  induction 1 as [|c s Hc Hs IH]; [done|]. pose proof (host_char_bounds c Hc) as Hb. cbn [unescape].
  assert (unescape (c :: s) encodeHost = cons c <$> unescape s encodeHost) as E.
  { cbn [unescape]. rewrite host_char_escape, andb_false_r by done.
    destruct c as [|p|p]; try done. repeat (destruct p as [p|p|]; try done). }
  cbn [unescape] in E. rewrite E, IH. done.
Qed.

Lemma cut_byte_none sep s : sep ∉ s → cut_byte sep s = (s, [], false).
Proof. intros H. unfold cut_byte. by rewrite (proj2 (index_byte_None sep s)). Qed.

Lemma parseHost_plain hp : Forall (λ c, host_char c = true) hp → parseHost hp = Some hp ∨ parseHost hp = None.
Proof.
  intros H. assert (index_of (str "%25") hp = None ∧ ∀ i, index_of (str "%25") (take i hp) = None) as [_ Hi].
  { assert (∀ l, Forall (λ c, host_char c = true) l → index_of (str "%25") l = None) as Hl.
    { induction 1 as [|c l Hc _ IH]; [done|]. apply host_char_bounds in Hc as (_ & _ & Hc & _).
      cbn [index_of]. rewrite IH. change (str "%25") with [37; 50; 53]. cbn [has_prefix].
      by rewrite (proj2 (Z.eqb_neq 37 c)) by done. }
    split; [by apply Hl|]. intros i. apply Hl. by apply Forall_take. }
  pose proof (unescape_host hp H) as Hu. unfold parseHost.
  repeat case_match; subst; auto; try (by rewrite Hi in *); congruence.
Qed.

Lemma not_elem_hosts c s : Forall (λ c, host_char c = true) s → c ∈ [35; 63; 47; 64; 37] → c ∉ s.
Proof.
  intros Hs Hc Hin. rewrite Forall_forall in Hs. apply Hs, host_char_bounds in Hin as (_ & ? & ? & ? & ? & ?).
  set_solver.
Qed.

Lemma getScheme_loop_alpha raw s rest i :
  Forall (λ c, is_alpha c = true) s → (0 < i + length s)%nat →
  getScheme_loop i (s ++ 58 :: rest) raw = Some (take (i + length s) raw, rest).
Proof.
  intros Hs. revert i. induction Hs as [|c s Hc Hs IH]; intros i Hi; cbn [getScheme_loop app length].
  - simpl in Hi. rewrite Nat.add_0_r in *. change (is_alpha 58) with false. change (is_digit 58 || mem 58 "+-.") with false.
    change (58 =? 58) with true. cbv iota. destruct i; [lia|done].
  - rewrite Hc. rewrite IH by lia. do 3 f_equal. lia.
Qed.

Definition lower_char (c : Z) : bool := (97 <=? c) && (c <=? 122).
Lemma lower_alpha c : lower_char c = true → is_alpha c = true.
Proof. unfold lower_char, is_alpha. intros ->. done. Qed.
Lemma lower_host c : lower_char c = true → host_char c = true.
Proof. intros H. unfold host_char. by rewrite (lower_alpha c H). Qed.

Lemma to_lower_id s : Forall (λ c, lower_char c = true) s → to_lower s = s.
Proof.
  unfold to_lower. induction 1 as [|c s Hc _ IH]; [done|]. cbn. rewrite IH. f_equal.
  unfold lower_char in Hc. case_match; [zify_bool; lia|done].
Qed.

Lemma no_ctl s : Forall (λ c, 33 ≤ c < 127) s → existsb (λ c, (c <? 32) || (c =? 127)) s = false.
Proof.
  induction 1 as [|c s Hc _ IH]; [done|]. simpl. rewrite IH, orb_false_r.
  apply orb_false_iff. rewrite Z.ltb_ge, Z.eqb_neq. lia.
Qed.

(** [scheme://host]. *)
Lemma url_parse_simple via scheme hp :
  scheme ≠ [] → Forall (λ c, lower_char c = true) scheme → Forall (λ c, host_char c = true) hp →
  url_parse via (scheme ++ str "://" ++ hp) = (h ← parseHost hp; Some (MkURL scheme [] None h [])).
Proof.
  intros Hne Hs Hh. change (str "://" ++ hp) with (58 :: 47 :: 47 :: hp). set (u := scheme ++ 58 :: 47 :: 47 :: hp).
  assert (Forall (λ c, host_char c = true) scheme) as Hsh by (eapply Forall_impl; [exact Hs|exact lower_host]).
  unfold url_parse. rewrite no_ctl.
  2: { unfold u. apply Forall_app. split; [|do 3 (constructor; [lia|])]; eapply Forall_impl; try done;
       intros c Hc; apply host_char_bounds in Hc; lia. }
  rewrite (bool_decide_false (u = [])) by (unfold u; by destruct scheme). rewrite andb_false_r.
  rewrite decide_False.
  2: { unfold u. destruct scheme as [|x [|y s]]; [done| |]; discriminate. }
  unfold getScheme, u. rewrite getScheme_loop_alpha.
  2: { eapply Forall_impl; [exact Hs|exact lower_alpha]. }
  2: { destruct scheme; [done|simpl; lia]. }
  rewrite Nat.add_0_l, take_app_length. cbn [mbind option_bind]. rewrite to_lower_id by done.
  rewrite (cut_byte_none 63 (47 :: 47 :: hp)).
  2: { rewrite !not_elem_of_cons. split_and!; [done|done|]. apply not_elem_hosts; [done|set_solver]. }
  cbn [fst]. change (has_prefix (str "/") (47 :: 47 :: hp)) with true. cbn [negb andb].
  rewrite bool_decide_false by done. cbn [negb orb]. change (has_prefix (str "//") (47 :: 47 :: hp)) with true. cbv iota.
  change (drop 2 (47 :: 47 :: hp)) with hp.
  rewrite (proj2 (index_byte_None 47 hp)) by (apply not_elem_hosts; [done|set_solver]).
  unfold parseAuthority. assert (last_index_byte 64 hp = None) as ->.
  { apply last_index_byte_None. apply not_elem_hosts; [done|set_solver]. }
  by destruct (parseHost hp).
Qed.

Lemma url_Parse_simple scheme hp :
  scheme ≠ [] → Forall (λ c, lower_char c = true) scheme → Forall (λ c, host_char c = true) hp →
  url_Parse (scheme ++ str "://" ++ hp) = (h ← parseHost hp; Some (MkURL scheme [] None h [])).
Proof.
  intros Hne Hs Hh. unfold url_Parse. rewrite cut_byte_none; [by apply url_parse_simple|].
  change (str "://" ++ hp) with (58 :: 47 :: 47 :: hp). rewrite not_elem_of_app, !not_elem_of_cons.
  assert (Forall (λ c, host_char c = true) scheme) by (eapply Forall_impl; [exact Hs|exact lower_host]).
  split_and!; [apply not_elem_hosts; [done|]; set_solver|set_solver..|apply not_elem_hosts; [done|]; set_solver].
Qed.

(** ** Paths *)

(** A fact about all bytes, by computation. *)
Lemma all_bytes (f : Z → bool) : forallb f (seqZ 0 256) = true → ∀ c, is_byte c → f c = true.
Proof.
  intros H c Hc. rewrite forallb_forall in H. apply H. apply list_elem_of_In, elem_of_seqZ. unfold is_byte in Hc. lia.
Qed.
Lemma unescape_plain c s mode : c ≠ 37 →
  unescape (c :: s) mode =
  if match mode with encodeHost | encodeZone => (c <? 128) && shouldEscape c mode | _ => false end then None else cons c <$> unescape s mode.
Proof.
  intros Hc. cbn [unescape]. destruct c as [|p|p]; try done. repeat (destruct p as [p|p|]; try done).
Qed.
Definition hex_ok (c : Z) : bool :=
  match hex_val (upperhex (Z.shiftr c 4)), hex_val (upperhex (Z.land c 15)) with
  | Some x, Some y => 16 * x + y =? c
  | _, _ => false
  end.
(** A path that is printed is read back. *)
Lemma unescape_escape_path s : wf_bytes s → unescape (escape s encodePath) encodePath = Some s.
Proof.
  induction 1 as [|c s Hc _ IH]; [done|]. unfold escape in *. cbn [fmap list_fmap concat]. destruct (shouldEscape c encodePath) eqn:E.
  - cbn [app unescape]. pose proof (all_bytes hex_ok eq_refl c Hc) as Hh. unfold hex_ok in Hh.
    destruct (hex_val (upperhex (Z.shiftr c 4))) as [x|]; [|done]. destruct (hex_val (upperhex (Z.land c 15))) as [y|]; [|done].
    apply Z.eqb_eq in Hh. by rewrite Hh, IH.
  - cbn [app]. rewrite unescape_plain, IH; [done|]. intros ->. done.
Qed.
(** What a printed path is made of. *)
Definition path_char (c : Z) : bool := (33 <=? c) && (c <? 127) && negb (c =? 35) && negb (c =? 63).
Lemma escape_path_chars s : wf_bytes s → Forall (λ c, path_char c = true) (escape s encodePath).
Proof.
  induction 1 as [|c s Hc _ IH]; [constructor|]. unfold escape in *. cbn [fmap list_fmap concat]. apply Forall_app. split; [|done].
  pose proof (all_bytes (λ c, forallb path_char (if shouldEscape c encodePath then [37; upperhex (Z.shiftr c 4); upperhex (Z.land c 15)] else [c])) eq_refl c Hc) as H.
  simpl in H. apply Forall_forall. intros x Hx. rewrite forallb_forall in H. by apply H, list_elem_of_In.
Qed.
Lemma path_char_not c s : Forall (λ c, path_char c = true) s → c = 35 ∨ c = 63 → c ∉ s.
Proof. intros Hs Hc Hin. rewrite Forall_forall in Hs. apply Hs in Hin. unfold path_char in Hin. zify_bool. naive_solver. Qed.

(** [scheme://host/path]. *)
Lemma url_parse_path via scheme hp path :
  scheme ≠ [] → Forall (λ c, lower_char c = true) scheme → Forall (λ c, host_char c = true) hp → Forall (λ c, path_char c = true) path →
  url_parse via (scheme ++ str "://" ++ hp ++ 47 :: path) =
  (h ← parseHost hp; p ← unescape (47 :: path) encodePath; Some (MkURL scheme [] None h p)).
Proof.
  intros Hne Hs Hh Hp. change (str "://" ++ hp ++ 47 :: path) with (58 :: 47 :: 47 :: hp ++ 47 :: path).
  set (u := scheme ++ 58 :: 47 :: 47 :: hp ++ 47 :: path).
  assert (Forall (λ c, host_char c = true) scheme) as Hsh by (eapply Forall_impl; [exact Hs|exact lower_host]).
  assert (Forall (λ c, 33 ≤ c < 127) path) as Hp'.
  { eapply Forall_impl; [exact Hp|]. intros c Hc. unfold path_char in Hc. zify_bool. lia. }
  unfold url_parse. rewrite no_ctl.
  2: { unfold u. apply Forall_app. split; [|do 3 (constructor; [lia|]); apply Forall_app; split; [|by constructor; [lia|]]];
       eapply Forall_impl; try done; intros c Hc; apply host_char_bounds in Hc; lia. }
  rewrite (bool_decide_false (u = [])) by (unfold u; by destruct scheme). rewrite andb_false_r.
  rewrite decide_False.
  2: { unfold u. destruct scheme as [|x [|y s]]; [done| |]; discriminate. }
  unfold getScheme, u. rewrite getScheme_loop_alpha.
  2: { eapply Forall_impl; [exact Hs|exact lower_alpha]. }
  2: { destruct scheme; [done|simpl; lia]. }
  rewrite Nat.add_0_l, take_app_length. cbn [mbind option_bind]. rewrite to_lower_id by done.
  rewrite (cut_byte_none 63 (47 :: 47 :: hp ++ 47 :: path)).
  2: { rewrite !not_elem_of_cons, not_elem_of_app, not_elem_of_cons. split_and!; [done|done| |done|]; [apply not_elem_hosts; [done|set_solver]|].
       apply path_char_not; [done|by right]. }
  cbn [fst]. change (has_prefix (str "/") (47 :: ?l)) with true. cbn [negb andb].
  rewrite bool_decide_false by done. cbn [negb orb]. change (has_prefix (str "//") (47 :: 47 :: ?l)) with true. cbv iota.
  change (drop 2 (47 :: 47 :: hp ++ 47 :: path)) with (hp ++ 47 :: path).
  assert (47 ∉ hp) as H47 by (apply not_elem_hosts; [done|set_solver]).
  rewrite index_byte_app by done. rewrite take_app_length, drop_app_length.
  unfold parseAuthority. assert (last_index_byte 64 hp = None) as ->.
  { apply last_index_byte_None. apply not_elem_hosts; [done|set_solver]. }
  by destruct (parseHost hp).
Qed.

(** A URL with a plain host and any absolute path is read back from its text. *)
Lemma url_Parse_String scheme hp path :
  scheme ≠ [] → Forall (λ c, lower_char c = true) scheme → hp ≠ [] → Forall (λ c, host_char c = true) hp → parseHost hp = Some hp → wf_bytes path →
  url_Parse (URL_String (MkURL scheme [] None hp (47 :: path))) = Some (MkURL scheme [] None hp (47 :: path)).
Proof.
  intros Hne Hs Hhn Hh Hph Hw. unfold URL_String. cbn [Path Scheme UHost User]. rewrite decide_False by discriminate.
  rewrite (bool_decide_false (47 :: path = [])) by done. rewrite andb_false_r. cbn [andb].
  assert (escape hp encodeHost = hp) as ->.
  { clear -Hh. unfold escape. induction Hh as [|c l Hc _ IH]; [done|]. cbn [fmap list_fmap concat]. rewrite host_char_escape by done. cbn. by f_equal. }
  change (escape (47 :: path) encodePath) with (47 :: escape path encodePath).
  rewrite (bool_decide_false (47 :: _ = [])) by done. change (has_prefix (str "/") (47 :: ?l)) with true. cbn [negb andb app].
  change (str ":" ++ str "//" ++ ?l) with (str "://" ++ l).
  pose proof (escape_path_chars path Hw) as Hpc. unfold url_Parse. rewrite cut_byte_none.
  - cbn [fst]. rewrite url_parse_path by done. rewrite Hph. cbn [mbind option_bind]. rewrite unescape_plain by done. cbn iota.
    by rewrite unescape_escape_path.
  - change (str "://" ++ ?l) with (58 :: 47 :: 47 :: l).
    assert (Forall (λ c, host_char c = true) scheme) by (eapply Forall_impl; [exact Hs|exact lower_host]).
    rewrite not_elem_of_app, !not_elem_of_cons, not_elem_of_app, not_elem_of_cons.
    split_and!; [apply not_elem_hosts; [done|]; set_solver|done..|apply not_elem_hosts; [done|]; set_solver|done|].
    apply path_char_not; [done|by left].
Qed.
