(* ===== verification/Address.v ===== *)
(** * Package address: SOCKS5-style addresses on the wire.

    Models [src/address/address.go]: an address is its bytes, a type byte
    (1: IPv4, 3: domain name, 4: IPv6), the host and a big-endian port. The
    buffer arguments are lists; a function that returns [b[:n]] returns the
    bytes of that slice, and a slice expression out of range panics. *)
From S2P Require Import Prelude GoIO GoNet.
Local Open Scope Z_scope.

Definition errAddrTypeNotSupported := errNew "unsupported address type".
Definition errDomainLengthToLong := errNew "domain length to long".
Definition errInvalidHostOrPort := errNew "invalid host or port".
Definition errSplitHostPort := errNew "address error of net.SplitHostPort".

Definition IPv4len : nat := 4.
Definition IPv6len : nat := 16.

(** [bufferpool.MaxAddressBufferSize]. *)
Definition MaxAddressBufferSize : nat := 259.

(** The parser over a reader of states [S], given its [io.ReadFull]. *)
Section FromReader.
Context {S : Type} (ReadFull : nat → M S (list Z)).

(** [io.ReadFull(r, b[i:j])]: the slice expression, then the read. *)
Definition read_from (b : list Z) (i j : nat) : M S (list Z) :=
  _ ← mlift (slice b i j); ReadFull (j - i)%nat.

Definition ParseAddressFrom (b : list Z) : M S (list Z) :=
  if (length b <? 1)%nat then mfail io_ErrShortBuffer else
  t ← read_from b 0 1;
  match byte_at t 0 with
  | 3 =>
      l ← read_from b 1 2;
      let n := Z.to_nat (byte_at l 0) in
      d ← read_from b 2 (2 + n + 2);
      mret (t ++ l ++ d)
  | 1 =>
      d ← read_from b 1 (1 + IPv4len + 2);
      mret (t ++ d)
  | 4 =>
      d ← read_from b 1 (1 + IPv6len + 2);
      mret (t ++ d)
  | _ => mfail errAddrTypeNotSupported
  end.
End FromReader.

(** [ParseAddressFromReader] on a connection. *)
Abbreviation read_into := (read_from read_full).
Definition ParseAddressFromReader (b : list Z) : M conn (list Z) := ParseAddressFrom read_full b.

Definition ParseAddressFromBuffer (b : list Z) : res (list Z) :=
  match b with
  | [] => Fail io_ErrShortBuffer
  | t :: _ =>
      let finish (addrLen : nat) :=
        if (length b <? addrLen)%nat then Fail io_ErrShortBuffer else slice b 0 addrLen in
      match t with
      | 3 => if (length b <? 2)%nat then Fail io_ErrShortBuffer
             else finish (1 + 1 + Z.to_nat (byte_at b 1) + 2)%nat
      | 1 => finish (1 + IPv4len + 2)%nat
      | 4 => finish (1 + IPv6len + 2)%nat
      | _ => Fail errAddrTypeNotSupported
      end
  end.

(** The last two statements of [ParseAddressFromHostPort]. *)
Definition put_port (b : list Z) (portindex : nat) (port : Z) : res (list Z) :=
  slice (<[S portindex := u8 port]> (<[portindex := u8 (Z.shiftr port 8)]> b))
        0 (portindex + 2).

Definition ParseAddressFromHostPort (host : gostring) (port : Z) (b : list Z) : res (list Z) :=
  if (length host =? 0)%nat || (port <? 0) || (65535 <? port) then Fail errInvalidHostOrPort else
  match net_ParseIP host with
  | Some ip =>
      match To4 ip with
      | Some ip4 =>
          if (length b <? 1 + IPv4len + 2)%nat then Fail io_ErrShortBuffer
          else put_port (copy_at (<[0%nat := 1]> b) 1 ip4) (1 + IPv4len) port
      | None =>
          if (length b <? 1 + IPv6len + 2)%nat then Fail io_ErrShortBuffer
          else put_port (copy_at (<[0%nat := 4]> b) 1 (default [] (To16 ip))) (1 + IPv6len) port
      end
  | None =>
      if (255 <? length host)%nat then Fail errDomainLengthToLong
      else if (length b <? 1 + 1 + length host + 2)%nat then Fail io_ErrShortBuffer
      else put_port (copy_at (<[1%nat := u8 (Z.of_nat (length host))]> (<[0%nat := 3]> b)) 2 host)
                    (1 + 1 + length host) port
  end.

Definition ParseAddress (addr : gostring) (b : list Z) : res (list Z) :=
  match SplitHostPort addr with
  | inr _ => Fail errSplitHostPort
  | inl (host, port) => ParseAddressFromHostPort host (fst (atoi port)) b
  end.

Definition Host (a : list Z) : gostring :=
  let n := length a in
  match a with
  | [] => []
  | 3 :: _ =>
      let l := Z.to_nat (byte_at a 1) in
      if (1 <? n)%nat && (2 + l <=? n)%nat then take l (drop 2 a) else []
  | 1 :: _ => if (1 + IPv4len <=? n)%nat then IP_String (take IPv4len (drop 1 a)) else []
  | 4 :: _ => if (1 + IPv6len <=? n)%nat then IP_String (take IPv6len (drop 1 a)) else []
  | _ => []
  end.

(** [(int(a[i]) << 8) | int(a[i+1])]. *)
Definition port_at (a : list Z) (i : nat) : Z :=
  Z.lor (Z.shiftl (byte_at a i) 8) (byte_at a (i + 1)).

Definition Port (a : list Z) : Z :=
  let n := length a in
  match a with
  | [] => 0
  | 3 :: _ =>
      let l := Z.to_nat (byte_at a 1) in
      if (1 <? n)%nat && (4 + l <=? n)%nat then port_at a (2 + l) else 0
  | 1 :: _ => if (3 + IPv4len <=? n)%nat then port_at a (1 + IPv4len) else 0
  | 4 :: _ => if (3 + IPv6len <=? n)%nat then port_at a (1 + IPv6len) else 0
  | _ => 0
  end.

Definition String (a : list Z) : gostring := JoinHostPort (Host a) (itoa (Port a)).

(** ** The addresses these functions produce *)

(** A complete address: its type, its host part and its port. *)
Inductive wf_addr : list Z → Prop :=
| wf_v4 ip p : length ip = IPv4len → wf_bytes ip → 0 ≤ p < 65536 →
    wf_addr ([1] ++ ip ++ be16 p)
| wf_v6 ip p : length ip = IPv6len → wf_bytes ip → 0 ≤ p < 65536 →
    wf_addr ([4] ++ ip ++ be16 p)
| wf_dom h p : (length h ≤ 255)%nat → wf_bytes h → 0 ≤ p < 65536 →
    wf_addr ([3; Z.of_nat (length h)] ++ h ++ be16 p).
#[export] Hint Constructors wf_addr : go.

Lemma wf_addr_bytes a : wf_addr a → wf_bytes a.
Proof.
  destruct 1; rewrite !wf_bytes_app; split_and!; auto with go; repeat constructor; try lia.
Qed.

Lemma wf_addr_length a : wf_addr a → (length a ≤ MaxAddressBufferSize)%nat.
Proof.
  unfold MaxAddressBufferSize. destruct 1; rewrite !length_app, length_be16; simpl;
  unfold IPv4len, IPv6len in *; lia.
Qed.

(** [ParseAddressFromHostPort] on each branch: what it builds in the buffer. *)
Lemma put_port_spec b hd host port :
  (length hd + length host + 2 ≤ length b)%nat → 0 ≤ port < 65536 → take (length hd) b = hd →
  put_port (copy_at b (length hd) host) (length hd + length host) port = Ret (hd ++ host ++ be16 port).
Proof.
  intros Hl Hp Hh. unfold put_port.
  set (b' := copy_at b (length hd) host).
  assert (length b' = length b) as Hb' by (apply length_copy_at; lia).
  rewrite slice_ok; [|lia|rewrite !length_insert; lia]. f_equal. rewrite drop_0.
  set (n := (length hd + length host)%nat).
  assert (take n b' = hd ++ host) as Ht.
  { unfold b', n. rewrite (take_copy_at b (length hd) host) by (done || lia). by rewrite Hh. }
  rewrite <-(take_drop n b') at 1. rewrite Ht. rewrite Nat.sub_0_r.
  assert (length (hd ++ host) = n) as Hn by (rewrite length_app; done).
  rewrite !insert_app_r_alt by lia.
  destruct (drop n b') as [|x [|y r]] eqn:Ed;
    [apply (f_equal length) in Ed; rewrite length_drop in Ed; simpl in Ed; lia..|].
  rewrite Hn, Nat.sub_diag. replace (S n - n)%nat with 1%nat by lia. simpl.
  rewrite app_assoc, take_app_ge by lia. rewrite Hn.
  by replace (n + 2 - n)%nat with 2%nat by lia.
Qed.

Lemma HostPort_v4 host port b ip ip4 :
  net_ParseIP host = Some ip → To4 ip = Some ip4 → (0 < length host)%nat →
  0 ≤ port ≤ 65535 → (7 ≤ length b)%nat →
  ParseAddressFromHostPort host port b = Ret ([1] ++ ip4 ++ be16 port).
Proof.
  intros Hip H4 Hh Hp Hb. apply net_ParseIP_wf in Hip as Hw. destruct Hw as [_ Hw].
  destruct (To4_wf _ _ Hw H4) as [Hl _]. unfold ParseAddressFromHostPort.
  rewrite Hip, H4. rewrite (proj2 (Nat.eqb_neq _ _)), !(proj2 (Z.ltb_ge _ _)) by lia. cbn [orb].
  rewrite (proj2 (Nat.ltb_ge _ _)) by (unfold IPv4len; lia).
  replace (1 + IPv4len)%nat with (1 + length ip4)%nat by (rewrite Hl; done).
  apply (put_port_spec _ [1] ip4); [rewrite length_insert; simpl; lia|lia|]. by destruct b; [simpl in Hb; lia|].
Qed.

Lemma HostPort_v6 host port b ip :
  net_ParseIP host = Some ip → To4 ip = None → (0 < length host)%nat →
  0 ≤ port ≤ 65535 → (19 ≤ length b)%nat →
  ParseAddressFromHostPort host port b = Ret ([4] ++ ip ++ be16 port).
Proof.
  intros Hip H4 Hh Hp Hb. apply net_ParseIP_wf in Hip as Hw. destruct Hw as [Hl Hw].
  unfold ParseAddressFromHostPort.
  rewrite Hip, H4. rewrite (proj2 (Nat.eqb_neq _ _)), !(proj2 (Z.ltb_ge _ _)) by lia. cbn [orb].
  rewrite (proj2 (Nat.ltb_ge _ _)) by (unfold IPv6len; lia).
  assert (To16 ip = Some ip) as -> by (unfold To16; by rewrite Hl).
  replace (1 + IPv6len)%nat with (1 + length ip)%nat by (rewrite Hl; done).
  apply (put_port_spec _ [4] ip); [rewrite length_insert; simpl; lia|lia|]. by destruct b; [simpl in Hb; lia|].
Qed.

Lemma HostPort_domain host port b :
  net_ParseIP host = None → (0 < length host ≤ 255)%nat →
  0 ≤ port ≤ 65535 → (length host + 4 ≤ length b)%nat →
  ParseAddressFromHostPort host port b =
    Ret ([3; Z.of_nat (length host)] ++ host ++ be16 port).
Proof.
  intros Hip Hh Hp Hb. unfold ParseAddressFromHostPort.
  rewrite Hip. rewrite (proj2 (Nat.eqb_neq _ _)), !(proj2 (Z.ltb_ge _ _)) by lia. cbn [orb].
  rewrite !(proj2 (Nat.ltb_ge _ _)) by lia.
  rewrite u8_id by (unfold is_byte; lia).
  apply (put_port_spec _ [3; Z.of_nat (length host)] host); [rewrite !length_insert; simpl; lia|lia|].
  destruct b as [|x [|y b]]; simpl in Hb; [lia..|done].
Qed.

(** Case analysis on a successful [ParseAddressFromHostPort]. *)
Lemma HostPort_inv host port b a :
  wf_bytes host → ParseAddressFromHostPort host port b = Ret a →
  0 ≤ port ≤ 65535 ∧
  ((∃ ip ip4, net_ParseIP host = Some ip ∧ To4 ip = Some ip4 ∧ a = [1] ++ ip4 ++ be16 port) ∨
   (∃ ip, net_ParseIP host = Some ip ∧ To4 ip = None ∧ a = [4] ++ ip ++ be16 port) ∨
   (net_ParseIP host = None ∧ (0 < length host ≤ 255)%nat ∧
    a = [3; Z.of_nat (length host)] ++ host ++ be16 port)).
Proof.
  intros Hw H. pose proof H as H'. unfold ParseAddressFromHostPort in H'.
  destruct (length host =? 0)%nat eqn:E0, (port <? 0) eqn:E1, (65535 <? port) eqn:E2;
    try done. cbn [orb] in H'. zify_bool. split; [lia|].
  destruct (net_ParseIP host) as [ip|] eqn:Eip; [destruct (To4 ip) as [ip4|] eqn:E4|].
  - destruct (length b <? _)%nat eqn:Eb; [done|]. zify_bool. unfold IPv4len in *.
    rewrite (HostPort_v4 host port b ip ip4) in H by (try done; lia).
    simplify_eq. left. eauto.
  - destruct (length b <? _)%nat eqn:Eb; [done|]. zify_bool. unfold IPv6len in *.
    rewrite (HostPort_v6 host port b ip) in H by (try done; lia).
    simplify_eq. right. left. eauto.
  - destruct (255 <? length host)%nat eqn:E3; [done|].
    destruct (length b <? _)%nat eqn:Eb; [done|]. zify_bool.
    rewrite (HostPort_domain host port b) in H by (try done; lia).
    simplify_eq. right. right. split_and!; done || lia.
Qed.

Lemma HostPort_wf host port b a :
  wf_bytes host → ParseAddressFromHostPort host port b = Ret a → wf_addr a.
Proof.
  intros Hw H. destruct (HostPort_inv _ _ _ _ Hw H)
    as (Hp & [(ip & ip4 & Hip & H4 & ->)|[(ip & Hip & H4 & ->)|(Hip & Hl & ->)]]).
  - apply net_ParseIP_wf in Hip as [_ Hip]. destruct (To4_wf _ _ Hip H4). constructor; done || lia.
  - apply net_ParseIP_wf in Hip as [??]. constructor; done || lia.
  - constructor; done || lia.
Qed.

(** ** Reading complete addresses *)

Lemma port_at_be16 l p r : 0 ≤ p < 65536 → port_at (l ++ be16 p ++ r) (length l) = p.
Proof.
  intros Hp. rewrite <-(get_be16_be16 p r Hp) at 2. unfold port_at, get_be16, byte_at.
  rewrite (lookup_app_r l _ (length l)), (lookup_app_r l _ (length l + 1)) by lia.
  replace (length l + 1 - length l)%nat with 1%nat by lia. by rewrite Nat.sub_diag.
Qed.

Lemma Port_wf_v4 ip p : length ip = IPv4len → 0 ≤ p < 65536 → Port ([1] ++ ip ++ be16 p) = p.
Proof.
  intros Hl Hp. unfold Port. cbn [app]. cbn [length]. rewrite length_app, Hl, length_be16. cbn.
  pose proof (port_at_be16 (1 :: ip) p [] Hp) as H. cbn [length app] in H. rewrite Hl in H. done.
Qed.
Lemma Port_wf_v6 ip p : length ip = IPv6len → 0 ≤ p < 65536 → Port ([4] ++ ip ++ be16 p) = p.
Proof.
  intros Hl Hp. unfold Port. cbn [app]. cbn [length]. rewrite length_app, Hl, length_be16. cbn.
  pose proof (port_at_be16 (4 :: ip) p [] Hp) as H. cbn [length app] in H. rewrite Hl in H. done.
Qed.
Lemma Port_wf_dom h p :
  0 ≤ p < 65536 → Port ([3; Z.of_nat (length h)] ++ h ++ be16 p) = p.
Proof.
  intros Hp. unfold Port. cbn [app length]. rewrite length_app, length_be16.
  change (byte_at (3 :: ?x :: ?l) 1) with x.
  rewrite Nat2Z.id, (proj2 (Nat.ltb_lt _ _)), (proj2 (Nat.leb_le _ _)) by lia. cbn [andb].
  exact (port_at_be16 (3 :: Z.of_nat (length h) :: h) p [] Hp).
Qed.

Lemma Host_wf_v4 ip p : length ip = IPv4len → Host ([1] ++ ip ++ be16 p) = IP_String ip.
Proof.
  intros Hl. unfold Host. cbn [app length]. rewrite length_app, Hl, length_be16.
  change (drop 1 (1 :: ?l)) with l. rewrite <-Hl, take_app_length, Hl. done.
Qed.
Lemma Host_wf_v6 ip p : length ip = IPv6len → Host ([4] ++ ip ++ be16 p) = IP_String ip.
Proof.
  intros Hl. unfold Host. cbn [app length]. rewrite length_app, Hl, length_be16.
  change (drop 1 (4 :: ?l)) with l. rewrite <-Hl, take_app_length, Hl. done.
Qed.
Lemma Host_wf_dom h p : Host ([3; Z.of_nat (length h)] ++ h ++ be16 p) = h.
Proof.
  unfold Host. cbn [app length]. rewrite length_app, length_be16.
  change (byte_at (3 :: ?x :: ?l) 1) with x. rewrite Nat2Z.id.
  rewrite (proj2 (Nat.ltb_lt _ _)), (proj2 (Nat.leb_le _ _)) by lia. cbn [andb].
  change (drop 2 (_ :: _ :: ?l)) with l. by rewrite take_app_length.
Qed.

(** ** The parsers on arbitrary input *)

(** [ParseAddressFromBuffer] by its type byte. *)
Definition addr_len (t : Z) (b : list Z) : option nat :=
  if t =? 1 then Some 7%nat else if t =? 4 then Some 19%nat
  else if (t =? 3) && (2 <=? length b)%nat then Some (4 + Z.to_nat (byte_at b 1))%nat
  else None.

Lemma FromBuffer_eq t b' (b := t :: b') :
  ParseAddressFromBuffer b =
  match addr_len t b with
  | Some n => if (length b <? n)%nat then Fail io_ErrShortBuffer else Ret (take n b)
  | None => Fail (if t =? 3 then io_ErrShortBuffer else errAddrTypeNotSupported)
  end.
Proof.
  assert (∀ n, (if (length b <? n)%nat then Fail io_ErrShortBuffer else slice b 0 n) =
            if (length b <? n)%nat then Fail io_ErrShortBuffer else Ret (take n b)) as Hfin.
  { intros n. case_match; zify_bool; [done|]. rewrite slice_ok by lia. by rewrite Nat.sub_0_r. }
  unfold ParseAddressFromBuffer, addr_len, b. fold b. cbv zeta. rewrite !Hfin.
  destruct (decide (t = 3)) as [->|]; [|destruct (decide (t = 1)) as [->|];
    [done|destruct (decide (t = 4)) as [->|]; [done|]]].
  - simpl Z.eqb. cbv iota. cbn [andb].
    replace (1 + 1 + Z.to_nat (byte_at b 1) + 2)%nat
      with (4 + Z.to_nat (byte_at b 1))%nat by lia.
    destruct (2 <=? length b)%nat eqn:E; zify_bool.
    + rewrite (proj2 (Nat.ltb_ge _ 2)) by lia. done.
    + rewrite (proj2 (Nat.ltb_lt _ 2)) by lia. done.
  - rewrite !(proj2 (Z.eqb_neq t _)) by done. cbn [andb].
    repeat case_match; done || congruence.
Qed.

Lemma FromBuffer_no_panic b : ParseAddressFromBuffer b ≠ Panic.
Proof. destruct b as [|t b]; [done|]. rewrite FromBuffer_eq. repeat case_match; done. Qed.

Lemma read_into_cases b i j n c :
  j = (i + n)%nat → (j ≤ length b)%nat →
  ((n ≤ length (pending c))%nat ∧
    ∃ c', read_into b i j c = (c', Ret (take n (pending c))) ∧ pending c' = drop n (pending c)) ∨
  ((length (pending c) < n)%nat ∧ ∃ c' e, read_into b i j c = (c', Fail e)).
Proof.
  intros -> Hj. unfold read_from.
  assert (∀ m : M conn (list Z), (mlift (slice b i (i + n)) ≫= λ _, m) c = m c) as ->.
  { intros m. unfold mbind, M_bind, mlift. by rewrite slice_ok by lia. }
  replace (i + n - i)%nat with n by lia.
  destruct (decide (n ≤ length (pending c))%nat); [left|right; split; [lia|]].
  - split; [done|]. destruct (read_full_ok n c) as (chs & -> & ?); [done|]. eauto.
  - rewrite read_full_short by lia. eauto.
Qed.

(** [ParseAddressFromReader], once the type byte [t] has been read. *)
Definition reader_body (b t : list Z) : M conn (list Z) :=
  match byte_at t 0 with
  | 3 =>
      l ← read_into b 1 2;
      let n := Z.to_nat (byte_at l 0) in
      d ← read_into b 2 (2 + n + 2);
      mret (t ++ l ++ d)
  | 1 => d ← read_into b 1 (1 + IPv4len + 2); mret (t ++ d)
  | 4 => d ← read_into b 1 (1 + IPv6len + 2); mret (t ++ d)
  | _ => mfail errAddrTypeNotSupported
  end.

Definition agrees (r : res (list Z)) (p : list Z) (x : conn * res (list Z)) : Prop :=
  match r with
  | Ret a => ∃ c', x = (c', Ret a) ∧ p = a ++ pending c'
  | Fail _ => ∃ c' e, x = (c', Fail e)
  | Panic => False
  end.

Lemma reader_body_fixed b t c n :
  (S n ≤ length b)%nat →
  agrees (if (length (t :: pending c) <? S n)%nat then Fail io_ErrShortBuffer
          else Ret (take (S n) (t :: pending c))) (t :: pending c)
         ((d ← read_into b 1 (S n); mret ([t] ++ d)) c).
Proof.
  intros Hb. destruct (read_into_cases b 1 (S n) n c eq_refl Hb) as [(Hn & c' & E & Hp)|(Hn & c' & e & E)].
  - rewrite (proj2 (Nat.ltb_ge _ _)) by (simpl; lia). simpl. rewrite (bind_Ret _ _ _ _ _ E).
    eexists. split; [done|]. rewrite Hp. simpl. by rewrite take_drop.
  - rewrite (proj2 (Nat.ltb_lt _ _)) by (simpl; lia). simpl. rewrite (bind_Fail _ _ _ _ _ E). eauto.
Qed.

Lemma reader_body_domain b c :
  (MaxAddressBufferSize ≤ length b)%nat → wf_bytes (pending c) →
  agrees (ParseAddressFromBuffer (3 :: pending c)) (3 :: pending c) (reader_body b [3] c).
Proof.
  unfold MaxAddressBufferSize. intros Hb Hw. rewrite FromBuffer_eq. unfold reader_body, addr_len.
  change (byte_at [3] 0) with 3. cbv iota. simpl Z.eqb. cbn [andb].
  destruct (read_into_cases b 1 2 1 c eq_refl ltac:(lia)) as [(Hn & c1 & E & Hp)|(Hn & c1 & e & E)].
  2: { rewrite (bind_Fail _ _ _ _ _ E), (proj2 (Nat.leb_gt _ _)) by (simpl; lia). simpl. eauto. }
  rewrite (bind_Ret _ _ _ _ _ E). destruct (pending c) as [|l rest]; [simpl in Hn; lia|].
  apply Forall_cons_1 in Hw as [Hl Hw]. unfold is_byte in Hl.
  change (byte_at (take 1 (l :: rest)) 0) with l. change (byte_at (3 :: l :: rest) 1) with l.
  change (drop 1 (l :: rest)) with rest in Hp. cbn [length]. cbv zeta. set (k := Z.to_nat l).
  rewrite (proj2 (Nat.leb_le 2 _)) by lia.
  destruct (read_into_cases b 2 (2 + k + 2) (k + 2) c1 ltac:(lia) ltac:(lia))
    as [(Hk & c2 & E2 & Hp2)|(Hk & c2 & e & E2)]; rewrite Hp in *.
  - rewrite (proj2 (Nat.ltb_ge _ _)) by lia. rewrite (bind_Ret _ _ _ _ _ E2).
    replace (4 + k)%nat with (S (S (k + 2))) by lia. simpl. exists c2. split; [done|].
    by rewrite Hp2, take_drop.
  - rewrite (proj2 (Nat.ltb_lt _ _)) by lia. rewrite (bind_Fail _ _ _ _ _ E2). simpl. eauto.
Qed.

(** The reader and the buffer parser agree. *)
Lemma reader_agrees b c :
  (MaxAddressBufferSize ≤ length b)%nat → wf_bytes (pending c) →
  agrees (ParseAddressFromBuffer (pending c)) (pending c) (ParseAddressFromReader b c).
Proof.
  intros Hb Hw. unfold ParseAddressFromReader, ParseAddressFrom.
  rewrite (proj2 (Nat.ltb_ge _ _)) by (unfold MaxAddressBufferSize in Hb; lia).
  destruct (read_into_cases b 0 1 1 c eq_refl ltac:(unfold MaxAddressBufferSize in Hb; lia))
    as [(Hn & c1 & E & Hp)|(Hn & c1 & e & E)].
  2: { rewrite (bind_Fail _ _ _ _ _ E). destruct (pending c); [simpl; eauto|simpl in Hn; lia]. }
  rewrite (bind_Ret _ _ _ _ _ E). destruct (pending c) as [|t rest]; [simpl in Hn; lia|].
  change (drop 1 (t :: rest)) with rest in Hp. change (take 1 (t :: rest)) with [t].
  apply Forall_cons_1 in Hw as [_ Hw]. fold (reader_body b [t]). rewrite <-Hp in *.
  destruct (decide (t = 3)) as [->|]; [by apply reader_body_domain|].
  rewrite FromBuffer_eq. unfold addr_len, MaxAddressBufferSize in *.
  destruct (decide (t = 1)) as [->|]; [apply (reader_body_fixed b 1 c1 6); lia|].
  destruct (decide (t = 4)) as [->|]; [apply (reader_body_fixed b 4 c1 18); lia|].
  rewrite !(proj2 (Z.eqb_neq t _)) by done. cbn [andb agrees]. unfold reader_body.
  change (byte_at [t] 0) with t. exists c1, errAddrTypeNotSupported.
  repeat case_match; done || congruence.
Qed.

Lemma addr_len_wf a payload :
  wf_addr a → ∃ t r, a = t :: r ∧ addr_len t (a ++ payload) = Some (length a).
Proof.
  destruct 1 as [ip p Hl|ip p Hl|h p Hl Hw Hp];
    (eexists _, _; split; [reflexivity|]); unfold addr_len; simpl;
    rewrite ?length_app, ?Hl; try done.
  change (byte_at (3 :: ?x :: ?l) 1) with x. rewrite Nat2Z.id. simpl. f_equal. lia.
Qed.

(** A complete address is read back from the front of a buffer. *)
Lemma FromBuffer_wf a payload : wf_addr a → ParseAddressFromBuffer (a ++ payload) = Ret a.
Proof.
  intros Ha. destruct (addr_len_wf a payload Ha) as (t & r & -> & Hl).
  cbn [app] in *. rewrite FromBuffer_eq, Hl. rewrite (proj2 (Nat.ltb_ge _ _)).
  - f_equal. change (t :: r ++ payload) with ((t :: r) ++ payload). by rewrite take_app_length.
  - simpl. rewrite length_app. lia.
Qed.

Lemma FromReader_wf a payload b c :
  wf_addr a → wf_bytes payload → (MaxAddressBufferSize ≤ length b)%nat →
  pending c = a ++ payload →
  ∃ c', ParseAddressFromReader b c = (c', Ret a) ∧ pending c' = payload.
Proof.
  intros Ha Hw Hb Hp.
  pose proof (reader_agrees b c Hb) as H. rewrite Hp, FromBuffer_wf in H by done.
  destruct H as (c' & -> & E); [apply wf_bytes_app; split; [by apply wf_addr_bytes|done]|].
  exists c'. split; [done|]. by apply app_inv_head in E.
Qed.

Lemma IP_String_To4 ip ip4 : wf_bytes ip → To4 ip = Some ip4 → IP_String ip4 = IP_String ip.
Proof.
  intros Hw H. destruct (To4_wf _ _ Hw H) as [Hl _]. unfold IP_String. rewrite H.
  unfold To4. by rewrite Hl.
Qed.

(** ** Properties *)

Lemma HostPort_fields host port b a :
  wf_bytes host → ParseAddressFromHostPort host port b = Ret a →
  Port a = port ∧ Host a = match net_ParseIP host with Some ip => IP_String ip | None => host end.
Proof.
  intros Hw H. destruct (HostPort_inv _ _ _ _ Hw H)
    as (Hp & [(ip & ip4 & Hip & H4 & ->)|[(ip & Hip & H4 & ->)|(Hip & Hl & ->)]]); rewrite Hip.
  - apply net_ParseIP_wf in Hip as [_ Hip]. destruct (To4_wf _ _ Hip H4).
    rewrite Port_wf_v4, Host_wf_v4 by (done || lia). by rewrite (IP_String_To4 ip ip4).
  - apply net_ParseIP_wf in Hip as [? _]. by rewrite Port_wf_v6, Host_wf_v6 by (done || lia).
  - by rewrite Port_wf_dom, Host_wf_dom by lia.
Qed.

(** An address [ParseAddressFromHostPort] builds is read back,
    byte for byte, by [ParseAddressFromBuffer] from the front of any datagram
    and by [ParseAddressFromReader] from any chunking of any stream, which is
    left exactly after the address; its port is the port given, its host the
    domain given or the canonical text of the IP address given. *)
Theorem hostport_roundtrip host port b a payload :
  wf_bytes host → wf_bytes payload → ParseAddressFromHostPort host port b = Ret a →
  Port a = port ∧
  Host a = match net_ParseIP host with Some ip => IP_String ip | None => host end ∧
  ParseAddressFromBuffer (a ++ payload) = Ret a ∧
  ∀ b' c, (MaxAddressBufferSize ≤ length b')%nat → pending c = a ++ payload →
    ∃ c', ParseAddressFromReader b' c = (c', Ret a) ∧ pending c' = payload.
Proof.
  intros Hw Hpl H. pose proof (HostPort_wf _ _ _ _ Hw H) as Ha.
  destruct (HostPort_fields _ _ _ _ Hw H) as [Hp Hh].
  split_and!; [done|done|by apply FromBuffer_wf|].
  intros b' c Hb' Hc. by apply (FromReader_wf a payload b').
Qed.

Lemma hostport_roundtrip_witness :
  Port [3; 5; 97; 46; 99; 111; 109; 1; 187] = 443.
Proof.
  refine (proj1 (hostport_roundtrip (str "a.com") 443 (replicate 259 0)
    [3; 5; 97; 46; 99; 111; 109; 1; 187] [1] _ _ _)); [|by repeat constructor|reflexivity].
  apply bytes_of_string_wf.
Defined.

(** On any input, however it is chunked, reading an address
    from a connection into a buffer of [MaxAddressBufferSize] bytes succeeds
    exactly when [ParseAddressFromBuffer] succeeds on the bytes that are
    pending, with the same address, consumes exactly its bytes, and never
    panics. *)
Theorem reader_buffer_equivalence b c :
  (MaxAddressBufferSize ≤ length b)%nat → wf_bytes (pending c) →
  agrees (ParseAddressFromBuffer (pending c)) (pending c) (ParseAddressFromReader b c).
Proof. apply reader_agrees. Qed.

Lemma reader_buffer_equivalence_witness :
  agrees (Ret [3; 1; 97; 0; 80]) [3; 1; 97; 0; 80; 7]
    (ParseAddressFromReader (replicate 259 0) (Conn [[3; 1]; [97; 0]; [80; 7]] io_EOF [] None io_EOF)).
Proof.
  apply (reader_buffer_equivalence (replicate 259 0)
    (Conn [[3; 1]; [97; 0]; [80; 7]] io_EOF [] None io_EOF)).
  - vm_compute. lia.
  - repeat constructor; unfold is_byte; lia.
Defined.


(** *** Every address produced is a complete one *)

(** The last two bytes are a port. *)
Lemma be16_split l n : wf_bytes l → length l = (n + 2)%nat →
  ∃ ip p, l = ip ++ be16 p ∧ length ip = n ∧ wf_bytes ip ∧ 0 ≤ p < 65536.
Proof.
  intros Hw Hl. pose proof (take_drop n l) as E. assert (wf_bytes (drop n l)) as Hd by (by apply Forall_drop).
  assert (length (drop n l) = 2%nat) as Hl2 by (rewrite length_drop; lia).
  destruct (drop n l) as [|x [|y [|? ?]]]; try done. apply Forall_cons in Hd as [Hx Hd]. apply Forall_cons in Hd as [Hy _].
  unfold is_byte in *. exists (take n l), (x * 256 + y). split_and!; [|by rewrite length_take; lia|by apply Forall_take|lia|lia].
  rewrite <-E at 1. f_equal. unfold be16, u8. rewrite Z.shiftr_div_pow2 by lia. change (2 ^ 8) with 256. f_equal; [|f_equal]; Z.to_euclidean_division_equations; lia.
Qed.

Lemma FromBuffer_inv_wf b a : wf_bytes b → ParseAddressFromBuffer b = Ret a → wf_addr a.
Proof.
  intros Hw H. destruct b as [|t b]; [done|]. rewrite FromBuffer_eq in H. unfold addr_len in H.
  apply Forall_cons in Hw as [_ Hw]. destruct (t =? 1) eqn:E1; [|destruct (t =? 4) eqn:E4].
  - apply Z.eqb_eq in E1 as ->. destruct (_ <? 7)%nat eqn:El; [done|]. zify_bool. injection H as <-. simpl in El.
    destruct (be16_split (take 6 b) 4) as (ip & p & E & ? & ? & ?); [by apply Forall_take|rewrite length_take; lia|].
    cbn [take]. rewrite E. by apply (wf_v4 ip p).
  - apply Z.eqb_eq in E4 as ->. destruct (_ <? 19)%nat eqn:El; [done|]. zify_bool. injection H as <-. simpl in El.
    destruct (be16_split (take 18 b) 16) as (ip & p & E & ? & ? & ?); [by apply Forall_take|rewrite length_take; lia|].
    cbn [take]. rewrite E. by apply (wf_v6 ip p).
  - destruct (t =? 3) eqn:E3; [|done]. apply Z.eqb_eq in E3 as ->. destruct b as [|k b]; [done|]. cbn [length Nat.leb andb] in H.
    change (byte_at (3 :: k :: b) 1) with k in H. apply Forall_cons in Hw as [Hk Hw]. unfold is_byte in Hk.
    destruct (_ <? _)%nat eqn:El; [done|]. zify_bool. injection H as <-.
    destruct (be16_split (take (Z.to_nat k + 2) b) (Z.to_nat k)) as (h & p & E & Hh & ? & ?); [by apply Forall_take|rewrite length_take; lia|].
    cbn [take Nat.add]. replace (S (S (Z.to_nat k))) with (Z.to_nat k + 2)%nat by lia. rewrite E. replace k with (Z.of_nat (length h)) by lia. apply (wf_dom h p); [lia|done|done].
Qed.

Lemma SplitHostPort_wf hp host port : wf_bytes hp → SplitHostPort hp = inl (host, port) → wf_bytes host ∧ wf_bytes port.
Proof.
  intros Hw H. unfold SplitHostPort in H. destruct (last_index_byte 58 hp) as [i|]; [|done].
  assert (wf_bytes (drop (S i) hp)) by (by apply Forall_drop). repeat case_match; simplify_eq;
    (split; [|done]); by repeat first [apply Forall_take | apply Forall_drop].
Qed.

(** C34 (type): the type of an address. Whatever the parsers accept, from a host and a
    port, from text, from a datagram or from a stream, is a complete address: a type
    byte, a host of the length the type calls for, and a port of 16 bits, in at most
    [MaxAddressBufferSize] bytes; and these are exactly the byte strings that the
    buffer parser takes whole. *)
Theorem address_wellformed a :
  (∀ host port b, wf_bytes host → ParseAddressFromHostPort host port b = Ret a → wf_addr a) ∧
  (∀ addr b, wf_bytes addr → ParseAddress addr b = Ret a → wf_addr a) ∧
  (∀ b, wf_bytes b → ParseAddressFromBuffer b = Ret a → wf_addr a) ∧
  (∀ b c c', (MaxAddressBufferSize ≤ length b)%nat → wf_bytes (pending c) → ParseAddressFromReader b c = (c', Ret a) → wf_addr a) ∧
  (wf_addr a → (length a ≤ MaxAddressBufferSize)%nat) ∧
  (wf_addr a ↔ wf_bytes a ∧ ParseAddressFromBuffer a = Ret a).
Proof.
  split_and!; [intros; by eapply HostPort_wf| |intros; by eapply FromBuffer_inv_wf| |apply wf_addr_length|].
  - intros addr b Hw H. unfold ParseAddress in H. destruct (SplitHostPort addr) as [[host port]|] eqn:E; [|done].
    eapply HostPort_wf; [|done]. by destruct (SplitHostPort_wf _ _ _ Hw E).
  - intros b c c' Hb Hw H. pose proof (reader_agrees b c Hb Hw) as Hag. rewrite H in Hag.
    destruct (ParseAddressFromBuffer (pending c)) as [a'| |] eqn:E; [|by destruct Hag as (? & ? & ?)|done].
    destruct Hag as (? & [= <- <-] & _). by eapply FromBuffer_inv_wf.
  - split; [|intros [Hw E]; by eapply FromBuffer_inv_wf].
    intros Ha. split; [by apply wf_addr_bytes|]. rewrite <-(app_nil_r a) at 1. by apply FromBuffer_wf.
Qed.

Lemma address_wellformed_witness : wf_addr [1; 127; 0; 0; 1; 0; 80].
Proof.
  refine (proj1 (proj2 (address_wellformed [1; 127; 0; 0; 1; 0; 80])) (str "127.0.0.1:80") (replicate 259 0) _ eq_refl).
  apply bytes_of_string_wf.
Defined.

(** With a buffer of [MaxAddressBufferSize] bytes
    [ParseAddressFromHostPort] succeeds exactly on a non-empty host, a port of
    16 bits and, for a domain name, at most 255 bytes; with a buffer of any
    size it never panics, so the buffer bound covers every address. *)
Theorem hostport_accepts host port b :
  wf_bytes host →
  ParseAddressFromHostPort host port b ≠ Panic ∧
  ((MaxAddressBufferSize ≤ length b)%nat →
   (∃ a, ParseAddressFromHostPort host port b = Ret a) ↔
   (0 < length host)%nat ∧ 0 ≤ port ≤ 65535 ∧
   (is_Some (net_ParseIP host) ∨ (length host ≤ 255)%nat)).
Proof.
  intros Hw. split.
  - intros H. pose proof H as H'. unfold ParseAddressFromHostPort in H'.
    destruct (length host =? 0)%nat eqn:E0, (port <? 0) eqn:E1, (65535 <? port) eqn:E2;
      try done. cbn [orb] in H'. zify_bool.
    destruct (net_ParseIP host) as [ip|] eqn:Eip; [destruct (To4 ip) as [ip4|] eqn:E4|].
    + destruct (length b <? _)%nat eqn:Eb; [done|]. zify_bool. unfold IPv4len in Eb.
      by rewrite (HostPort_v4 host port b ip ip4) in H by (try done; lia).
    + destruct (length b <? _)%nat eqn:Eb; [done|]. zify_bool. unfold IPv6len in Eb.
      by rewrite (HostPort_v6 host port b ip) in H by (try done; lia).
    + destruct (255 <? length host)%nat eqn:E3; [done|].
      destruct (length b <? _)%nat eqn:Eb; [done|]. zify_bool.
      by rewrite (HostPort_domain host port b) in H by (try done; lia).
  - unfold MaxAddressBufferSize. intros Hb. split.
    + intros [a H]. destruct (HostPort_inv _ _ _ _ Hw H)
        as (Hp & [(ip & ip4 & Hip & H4 & ->)|[(ip & Hip & H4 & ->)|(Hip & Hl & ->)]]);
        (split; [|split; [done|]]); rewrite ?Hip; eauto with lia;
        destruct host; simpl; done || lia.
    + intros (Hl & Hp & Hc). destruct (net_ParseIP host) as [ip|] eqn:Eip.
      * destruct (To4 ip) as [ip4|] eqn:E4.
        -- eexists. apply (HostPort_v4 _ _ _ ip); done || lia.
        -- eexists. apply (HostPort_v6 _ _ _ ip); done || lia.
      * destruct Hc as [[? ?]|Hc]; [done|]. eexists. apply HostPort_domain; done || lia.
Qed.

Lemma hostport_accepts_witness :
  ParseAddressFromHostPort (str "::1") 80 [] ≠ Panic.
Proof. apply (hostport_accepts (str "::1") 80 []). apply bytes_of_string_wf. Defined.

Lemma dec_no_punct n c : 0 ≤ n → (c < 48 ∨ 57 < c) → c ∉ dec n.
Proof.
  intros Hn Hc Hin. pose proof (dec_digits n Hn) as H. rewrite Forall_forall in H.
  apply H, is_digit_spec in Hin as (d & -> & ?). lia.
Qed.

Lemma fmt4_no_punct l c : wf_bytes l → (c < 46 ∨ 57 < c) → c ∉ fmt4 l.
Proof.
  intros Hw Hc. induction Hw as [|x l Hx Hw IH]; [apply not_elem_of_nil|].
  unfold is_byte in Hx. simpl. destruct l; [apply dec_no_punct; lia|].
  rewrite not_elem_of_app, not_elem_of_cons. split_and!; [apply dec_no_punct; lia|lia|done].
Qed.

(** A text with a dot before any colon or percent sign goes to the IPv4 parser. *)
Lemma ParseIP_fmt4 l :
  length l = 4%nat → wf_bytes l → net_ParseIP (fmt4 l) = Some (v4_in_v6_prefix ++ l).
Proof.
  intros Hl Hw. pose proof (parse_ipv4_fmt4 l Hl Hw) as Hp.
  assert (addr_family (fmt4 l) = Some 46) as Hf.
  { destruct l as [|x [|y l]]; [done..|]. simpl. apply Forall_cons_1 in Hw as [Hx _].
    pose proof (dec_digits x ltac:(unfold is_byte in Hx; lia)) as Hd.
    induction Hd as [|c r Hc Hr IH]; [done|]. simpl. apply is_digit_spec in Hc as (d & -> & ?).
    rewrite !(proj2 (Z.eqb_neq _ _)) by lia. done. }
  unfold net_ParseIP, ParseAddr. by rewrite Hf, Hp.
Qed.

Lemma To4_mapped l : length l = 4%nat → To4 (v4_in_v6_prefix ++ l) = Some l.
Proof.
  intros Hl. unfold To4. rewrite length_app, Hl. simpl length. simpl Nat.eqb. cbv iota.
  rewrite (take_app_length' v4_in_v6_prefix), (drop_app_length' v4_in_v6_prefix) by done.
  by rewrite bool_decide_true.
Qed.

(** Printing an address with [String] and parsing the text
    with [ParseAddress] gives the same bytes, for every IPv4 address and every
    domain name that is not itself an IP literal and has no colon or bracket. *)
Theorem string_parse_roundtrip a b :
  wf_addr a → (MaxAddressBufferSize ≤ length b)%nat →
  match a with
  | 1 :: _ => True
  | 3 :: _ => Host a ≠ [] ∧ net_ParseIP (Host a) = None ∧
              (58 ∉ Host a) ∧ (91 ∉ Host a) ∧ (93 ∉ Host a)
  | _ => False
  end →
  ParseAddress (String a) b = Ret a.
Proof.
  unfold MaxAddressBufferSize.
  intros [ip p Hl Hw Hp|ip p Hl Hw Hp|h p Hl Hw Hp] Hb Hc; [|done|];
    unfold String, ParseAddress.
  - assert (0 ≤ p ≤ max_int) by (unfold max_int; lia).
    rewrite Port_wf_v4, Host_wf_v4 by done. unfold IP_String, To4. rewrite Hl. cbv iota. simpl Nat.eqb.
    cbv iota. unfold itoa. rewrite (proj2 (Z.ltb_ge p 0)) by lia.
    rewrite SplitHostPort_JoinHostPort by
      (first [apply fmt4_no_punct; [done|lia] | apply dec_no_punct; lia]).
    pose proof (atoi_itoa p ltac:(done)) as Ha. unfold itoa in Ha.
    rewrite (proj2 (Z.ltb_ge p 0)) in Ha by lia. rewrite Ha. cbn [fst].
    apply (HostPort_v4 _ _ _ (v4_in_v6_prefix ++ ip)).
    + by apply ParseIP_fmt4.
    + by apply To4_mapped.
    + destruct ip as [|x [|? ?]]; [done..|]. simpl. rewrite length_app. simpl. lia.
    + lia.
    + lia.
  - cbn [app] in Hc. change (3 :: Z.of_nat (length h) :: h ++ be16 p) with
      ([3; Z.of_nat (length h)] ++ h ++ be16 p) in Hc. rewrite Host_wf_dom in Hc.
    destruct Hc as (Hne & Hip & H58 & H91 & H93).
    assert (0 ≤ p ≤ max_int) by (unfold max_int; lia).
    rewrite Port_wf_dom, Host_wf_dom by done. unfold itoa. rewrite (proj2 (Z.ltb_ge p 0)) by lia.
    rewrite SplitHostPort_JoinHostPort by (first [done|apply dec_no_punct; lia]).
    pose proof (atoi_itoa p ltac:(done)) as Ha. unfold itoa in Ha.
    rewrite (proj2 (Z.ltb_ge p 0)) in Ha by lia. rewrite Ha. cbn [fst].
    apply HostPort_domain; try done; [|lia|lia]. destruct h; [done|simpl in *; lia].
Qed.

Lemma string_parse_roundtrip_witness :
  ParseAddress (String [1; 127; 0; 0; 1; 0; 80]) (replicate 259 0) = Ret [1; 127; 0; 0; 1; 0; 80].
Proof.
  apply (string_parse_roundtrip [1; 127; 0; 0; 1; 0; 80] (replicate 259 0)).
  - apply (wf_v4 [127; 0; 0; 1] 80); [done| |lia]. repeat constructor; lia.
  - vm_compute. lia.
  - exact I.
Defined.
