(* ===== verification/Cache.v ===== *)
(** * Package cache: the LRU cache with expiry.

    Models [src/util/cache/cache.go]. [LruCache] keeps a doubly linked list of
    elements and a map from keys to elements; an element is a pointer, here its
    number [elem], so that a map entry and a list position can disagree. The
    abstract view of a cache is the list of its entries from least to most
    recently used ([alist]); [Module Spec] gives every operation on that view
    and the theorems at the end show that the pointer-level operations refine
    it. Times are nanosecond counts, unbounded here. *)
From S2P Require Import Prelude.
Local Open Scope Z_scope.

Definition ErrCacheIsNotFound := errNew "cache is not found".
Definition ErrCacheWasExpired := errNew "cache was expired".

(** The options a cache reads after construction. [evictFn]: whether a callback
    is set; its calls are returned as the list of evicted entries. [timeNowFn]:
    whether the clock is [time.Now] rather than the ticking [fasttimeNow]; the
    operations take the time the clock gives as an argument. *)
Record options := Options {
  timeNowFn : bool;
  maxSize : nat;
  interval : Z;
  expiration : Z;
  evictFn : bool;
  checkCache : bool;
  updateCacheExpOnGet : bool;
  deleteExpCacheOnGet : bool;
}.

(** The functional options, in the order of the source. *)
Inductive Option :=
| WithGoTimeNow
| WithMaxSize (n : nat)
| WithInterval (d : Z)
| WithExpiration (d : Z)
| WithEvictCallback
| WithUpdateCacheExpirationOnGet
| WithDeleteExpiredCacheOnGet
| WithBackgroundCheckCache.

Definition apply (o : options) (x : Option) : options :=
  let '(Options t m i e f c u d) := o in
  match x with
  | WithGoTimeNow => Options true m i e f c u d
  | WithMaxSize n => Options t n i e f c u d
  | WithInterval i' => Options t m i' e f c u d
  | WithExpiration e' => Options t m i e' f c u d
  | WithEvictCallback => Options t m i e true c u d
  | WithUpdateCacheExpirationOnGet => Options t m i e f c true d
  | WithDeleteExpiredCacheOnGet => Options t m i e f c u true
  | WithBackgroundCheckCache => Options t m i e f true u d
  end.

Definition second : Z := 1000000000.
Definition default_options : options :=
  Options false 100 (30 * second) (15 * second) false false false false.
Definition make_options (opt : list Option) : options := foldl apply default_options opt.

(** ** Abstract caches: entries from least to most recently used *)
Module Spec.
Section Spec.
Context {K V : Type} `{!EqDecision K}.
Implicit Types (l : list (K * (V * Z))) (k : K) (v : V) (now : Z) (o : options).

Fixpoint find k l : option (V * Z) :=
  match l with
  | [] => None
  | (k', x) :: r => if decide (k' = k) then Some x else find k r
  end.
Definition remove k l := filter (λ e, e.1 ≠ k) l.
Definition evictions o (es : list (K * (V * Z))) : list (K * V) :=
  if evictFn o then (λ e, (e.1, e.2.1)) <$> es else [].

(** Each operation returns the new entries, the callback's calls and a result. *)
Definition contains k l : bool := match find k l with Some _ => true | None => false end.

Definition get o k now l : list (K * (V * Z)) * list (K * V) * res V :=
  match find k l with
  | None => (l, [], Fail ErrCacheIsNotFound)
  | Some (v, e) =>
      if e <=? now then
        if deleteExpCacheOnGet o
        then (remove k l, evictions o [(k, (v, e))], Fail ErrCacheWasExpired)
        else (l, [], Fail ErrCacheWasExpired)
      else (remove k l ++ [(k, (v, if updateCacheExpOnGet o then now + expiration o else e))],
            [], Ret v)
  end.

Definition set o k v now l : list (K * (V * Z)) * list (K * V) * res () :=
  let new := (k, (v, now + expiration o)) in
  match find k l with
  | Some _ => (remove k l ++ [new], [], Ret ())
  | None =>
      if (length l =? maxSize o)%nat then
        match l with
        | [] => (l, [], Panic)
        | old :: r => (r ++ [new], evictions o [old], Ret ())
        end
      else (l ++ [new], [], Ret ())
  end.

Definition del o k l : list (K * (V * Z)) * list (K * V) :=
  match find k l with
  | Some x => (remove k l, evictions o [(k, x)])
  | None => (l, [])
  end.

(** The entries that survive a cleanup, and those it evicts. *)
Definition live now l := filter (λ e, ¬ e.2.2 ≤ now) l.
Definition dead now l := filter (λ e, e.2.2 ≤ now) l.
End Spec.
End Spec.

(** ** The implementation *)
Section LruCache.
Context {K V : Type} `{!EqDecision K, !Countable K}.

(** [lru]: the list of elements, front (least recently used) first; [elems]:
    the entry each element points to, kept for removed elements too, since a
    pointer to one may still be held; [cache]: the map. *)
Record LruCache := MkLruCache {
  lru : list nat;
  elems : gmap nat (K * (V * Z));
  cache : gmap K nat;
  next : nat;
}.

Definition NewCache : LruCache := MkLruCache [] ∅ ∅ 0.

(** [list.List.MoveToBack] and [Remove] do nothing for an element that is not
    in the list. *)
Definition MoveToBack (ele : nat) (c : LruCache) : LruCache :=
  if decide (ele ∈ lru c)
  then MkLruCache (filter (λ i, i ≠ ele) (lru c) ++ [ele]) (elems c) (cache c) (next c)
  else c.

(** [c.delete(ele)]: unmap the key of the entry, unlink the element, call back. *)
Definition delete_elem (o : options) (ele : nat) (c : LruCache) : LruCache * list (K * V) :=
  match elems c !! ele with
  | None => (c, [])
  | Some (k, x) =>
      (MkLruCache (filter (λ i, i ≠ ele) (lru c)) (elems c) (delete k (cache c)) (next c),
       Spec.evictions o [(k, x)])
  end.

Definition set_entry (ele : nat) (en : K * (V * Z)) (c : LruCache) : LruCache :=
  MkLruCache (lru c) (<[ele := en]> (elems c)) (cache c) (next c).

Definition Contains (key : K) (c : LruCache) : bool :=
  match cache c !! key with Some _ => true | None => false end.

(** [Get] after the map lookup gave [ele]. *)
Definition Get_found (o : options) (ele : nat) (now : Z) (c : LruCache)
    : LruCache * list (K * V) * res V :=
  match elems c !! ele with
  | None => (c, [], Panic)
  | Some (k, (v, e)) =>
      if e <=? now then
        if deleteExpCacheOnGet o
        then let '(c', ev) := delete_elem o ele c in (c', ev, Fail ErrCacheWasExpired)
        else (c, [], Fail ErrCacheWasExpired)
      else
        let c' := MoveToBack ele c in
        (set_entry ele (k, (v, if updateCacheExpOnGet o then now + expiration o else e)) c',
         [], Ret v)
  end.

Definition Get (o : options) (key : K) (now : Z) (c : LruCache)
    : LruCache * list (K * V) * res V :=
  match cache c !! key with
  | Some ele => Get_found o ele now c
  | None => (c, [], Fail ErrCacheIsNotFound)
  end.

(** [Set] after the lookup found [ele]: overwrite the entry in place. *)
Definition Set_found (o : options) (ele : nat) (value : V) (now : Z) (c : LruCache) : LruCache :=
  match elems c !! ele with
  | None => c
  | Some (k, _) => MoveToBack ele (set_entry ele (k, (value, now + expiration o)) c)
  end.

(** [Set] after the lookup found nothing. *)
Definition Set_missing (o : options) (key : K) (value : V) (now : Z) (c : LruCache)
    : LruCache * list (K * V) * res () :=
  let push (c : LruCache) :=
    MkLruCache (lru c ++ [next c]) (<[next c := (key, (value, now + expiration o))]> (elems c))
               (<[key := next c]> (cache c)) (S (next c)) in
  if (length (lru c) =? maxSize o)%nat then
    match lru c with
    | [] => (c, [], Panic)
    | front :: _ => let '(c', ev) := delete_elem o front c in (push c', ev, Ret ())
    end
  else (push c, [], Ret ()).

Definition Set_ (o : options) (key : K) (value : V) (now : Z) (c : LruCache)
    : LruCache * list (K * V) * res () :=
  match cache c !! key with
  | Some ele => (Set_found o ele value now c, [], Ret ())
  | None => Set_missing o key value now c
  end.

Definition Delete (o : options) (key : K) (c : LruCache) : LruCache * list (K * V) :=
  match cache c !! key with
  | Some ele => delete_elem o ele c
  | None => (c, [])
  end.

(** [deleteOverflow]: the [for] loop has no exit, so no amount of fuel lets it
    return. *)
Fixpoint deleteOverflow (fuel : nat) (o : options) (c : LruCache) : option LruCache :=
  match fuel with
  | O => None
  | S f => deleteOverflow f o
      (if (maxSize o <? length (lru c))%nat
       then match lru c with front :: _ => fst (delete_elem o front c) | [] => c end
       else c)
  end.

(** The second loop of [cleanup], over the elements collected from the map. *)
Fixpoint cleanup_loop (o : options) (now : Z) (es : list nat) (c : LruCache)
    : LruCache * list (K * V) :=
  match es with
  | [] => (c, [])
  | ele :: r =>
      match elems c !! ele with
      | Some (_, (_, e)) =>
          if e <=? now then
            let '(c1, ev1) := delete_elem o ele c in
            let '(c2, ev2) := cleanup_loop o now r c1 in (c2, ev1 ++ ev2)
          else cleanup_loop o now r c
      | None => cleanup_loop o now r c
      end
  end.

(** Go ranges over a map in an order it does not fix: the elements are
    collected in any permutation of the map's values. *)
Definition cleanup (o : options) (now : Z) (c c' : LruCache) (ev : list (K * V)) : Prop :=
  ∃ order, order ≡ₚ (map_to_list (cache c)).*2 ∧ cleanup_loop o now order c = (c', ev).

(** ** The abstract view and the invariant *)

Fixpoint view (h : gmap nat (K * (V * Z))) (l : list nat) : list (K * (V * Z)) :=
  match l with
  | [] => []
  | i :: r => match h !! i with Some e => e :: view h r | None => view h r end
  end.
Definition entries (c : LruCache) : list (K * (V * Z)) := view (elems c) (lru c).

Record Inv (c : LruCache) : Prop := {
  inv_nodup : NoDup (lru c);
  inv_elems : ∀ i, i ∈ lru c → is_Some (elems c !! i) ∧ (i < next c)%nat;
  inv_cache : ∀ k i, cache c !! k = Some i ↔ i ∈ lru c ∧ ∃ x, elems c !! i = Some (k, x);
}.

Lemma view_app h l1 l2 : view h (l1 ++ l2) = view h l1 ++ view h l2.
Proof. induction l1 as [|i l1 IH]; simpl; [done|]. rewrite IH. by case_match. Qed.

Lemma view_insert h l i x : i ∉ l → view (<[i := x]> h) l = view h l.
Proof.
  induction l as [|j l IH]; intros Hi; [done|]. apply not_elem_of_cons in Hi as [Hne Hi].
  simpl. rewrite lookup_insert_ne by congruence. by rewrite IH.
Qed.

Lemma length_view h l : (∀ i, i ∈ l → is_Some (h !! i)) → length (view h l) = length l.
Proof.
  induction l as [|j l IH]; intros Hs; [done|]. simpl.
  destruct (Hs j) as [x ->]; [by left|]. simpl. rewrite IH; [done|].
  intros i Hi. apply Hs. by right.
Qed.

Lemma view_find_None h l k :
  (∀ i x, i ∈ l → h !! i ≠ Some (k, x)) → Spec.find k (view h l) = None.
Proof.
  induction l as [|j l IH]; intros Hn; [done|]. simpl.
  assert (Spec.find k (view h l) = None) by (apply IH; intros; apply Hn; by right).
  destruct (h !! j) as [[k' x]|] eqn:E; [|done]. simpl. rewrite decide_False; [done|].
  intros ->. by apply (Hn j x); [left|].
Qed.

Lemma view_find h l k i x :
  i ∈ l → h !! i = Some (k, x) → (∀ j y, j ∈ l → h !! j = Some (k, y) → j = i) →
  Spec.find k (view h l) = Some x.
Proof.
  induction l as [|j l IH]; intros Hi Hx Hu; [by apply not_elem_of_nil in Hi|].
  simpl. destruct (decide (j = i)) as [->|Hne].
  - rewrite Hx. simpl. by rewrite decide_True.
  - apply elem_of_cons in Hi as [?|Hi]; [congruence|].
    assert (Spec.find k (view h l) = Some x).
    { apply IH; [done|done|]. intros j' y ? ?. apply (Hu j' y); [by right|done]. }
    destruct (h !! j) as [[k' y]|] eqn:E; [|done]. simpl. rewrite decide_False; [done|].
    intros ->. apply Hne. apply (Hu j y); [by left|done].
Qed.

Lemma view_remove h l k i :
  (∀ j, j ∈ l → ∃ k' y, h !! j = Some (k', y) ∧ (k' = k ↔ j = i)) →
  view h (filter (λ j, j ≠ i) l) = Spec.remove k (view h l).
Proof.
  induction l as [|j l IH]; intros Hu; [done|].
  assert (view h (filter (λ j, j ≠ i) l) = Spec.remove k (view h l)) as IH'.
  { apply IH. intros j' ?. apply Hu. by right. }
  destruct (Hu j) as (k' & y & E & Hk); [by left|].
  unfold Spec.remove in *. rewrite filter_cons. simpl. rewrite E, filter_cons. simpl.
  destruct (decide (j ≠ i)), (decide (k' ≠ k)); simpl; rewrite ?E, IH'; naive_solver.
Qed.

Lemma Inv_unique c k i j x y :
  Inv c → i ∈ lru c → j ∈ lru c → elems c !! i = Some (k, x) → elems c !! j = Some (k, y) → i = j.
Proof.
  intros [_ _ Hc] Hi Hj Ei Ej.
  assert (cache c !! k = Some i) by (apply Hc; eauto).
  assert (cache c !! k = Some j) by (apply Hc; eauto). congruence.
Qed.

Lemma Inv_find c k :
  Inv c → Spec.find k (entries c) = cache c !! k ≫= λ i, snd <$> elems c !! i.
Proof.
  intros HI. pose proof HI as [_ _ Hc]. destruct (cache c !! k) as [i|] eqn:E; simpl.
  - apply Hc in E as (Hi & x & Ex). rewrite Ex. simpl.
    apply (view_find _ _ _ i); [done..|]. intros j y Hj Ej. by eapply Inv_unique.
  - apply view_find_None. intros i x Hi Ei.
    assert (cache c !! k = Some i) by (apply Hc; eauto). congruence.
Qed.

Lemma Inv_remove c k i :
  Inv c → cache c !! k = Some i →
  view (elems c) (filter (λ j, j ≠ i) (lru c)) = Spec.remove k (entries c).
Proof.
  intros HI E. pose proof HI as [_ He Hc]. apply Hc in E as (Hi & x & Ex).
  apply view_remove. intros j Hj. destruct (He j Hj) as [[[k' y] Ey] _].
  exists k', y. split; [done|]. split; [intros ->; by eapply Inv_unique|congruence].
Qed.

Lemma Inv_remove_front c k i rest :
  Inv c → lru c = i :: rest → cache c !! k = Some i →
  Spec.remove k (entries c) = view (elems c) rest.
Proof.
  intros HI El E. rewrite <-(Inv_remove c k i HI E), El, filter_cons_False by naive_solver.
  f_equal. pose proof (inv_nodup c HI) as Hn. rewrite El in Hn. apply list.NoDup_cons in Hn as [Hn _].
  apply list_filter_id. intros j Hj ->. done.
Qed.

Lemma Inv_length c : Inv c → length (entries c) = length (lru c).
Proof. intros [_ He _]. apply length_view. intros i Hi. by apply He. Qed.

Lemma Inv_NewCache : Inv NewCache.
Proof.
  constructor; simpl.
  - constructor.
  - intros i Hi. by apply not_elem_of_nil in Hi.
  - intros k i. rewrite lookup_empty. split; [done|]. intros [Hi _]. by apply not_elem_of_nil in Hi.
Qed.

Lemma delete_elem_refines o c k i x :
  Inv c → cache c !! k = Some i → elems c !! i = Some (k, x) →
  ∃ c', delete_elem o i c = (c', Spec.evictions o [(k, x)]) ∧ Inv c' ∧
        entries c' = Spec.remove k (entries c) ∧ elems c' = elems c.
Proof.
  intros HI E Ex. unfold delete_elem. rewrite Ex. eexists. split; [done|].
  split; [|split; [exact (Inv_remove c k i HI E)|done]].
  pose proof HI as [Hn He Hc]. constructor; simpl.
  - by apply list.NoDup_filter.
  - intros j [_ Hj]%list_elem_of_filter. auto.
  - intros k' j. rewrite lookup_delete_Some, Hc, list_elem_of_filter. split.
    + intros (Hk & Hj & y & Ey). split; [split|by eauto]; [congruence|done].
    + intros ((Hji & Hj) & y & Ey). split; [|by eauto]. intros <-. apply Hc in E as [Hi _].
      exact (Hji (Inv_unique c k j i y x HI Hj Hi Ey Ex)).
Qed.

(** Overwriting the value of a linked element and moving it to the back. *)
Lemma touch_refines c k i x y :
  Inv c → cache c !! k = Some i → elems c !! i = Some (k, x) →
  let c' := MkLruCache (filter (λ j, j ≠ i) (lru c) ++ [i]) (<[i := (k, y)]> (elems c))
                       (cache c) (next c) in
  Inv c' ∧ entries c' = Spec.remove k (entries c) ++ [(k, y)].
Proof.
  intros HI E Ex. pose proof HI as [Hn He Hc]. pose proof (proj1 (Hc k i) E) as [Hi _].
  assert (∀ j, j ∈ filter (λ j, j ≠ i) (lru c) ++ [i] ↔ j ∈ lru c) as Hmem.
  { intros j. rewrite elem_of_app, list_elem_of_filter, list_elem_of_singleton.
    destruct (decide (j = i)); naive_solver. }
  simpl. split.
  - constructor; simpl.
    + apply list.NoDup_app. split_and!; [by apply list.NoDup_filter| |apply NoDup_singleton].
      intros j [??]%list_elem_of_filter ->%list_elem_of_singleton. done.
    + intros j Hj%Hmem. rewrite lookup_insert_is_Some. destruct (He j Hj). destruct (decide (i = j)); auto.
    + intros k' j. rewrite Hmem, Hc. split; intros (Hj & z & Ez); (split; [done|]).
      * destruct (decide (j = i)) as [->|]; simplify_map_eq; eauto.
      * destruct (decide (j = i)) as [->|]; simplify_map_eq; eauto.
  - unfold entries. simpl. rewrite view_app, view_insert.
    + simpl. rewrite lookup_insert_eq. f_equal. by apply Inv_remove.
    + intros [??]%list_elem_of_filter. done.
Qed.

Lemma MoveToBack_linked i c :
  i ∈ lru c → MoveToBack i c =
  MkLruCache (filter (λ j, j ≠ i) (lru c) ++ [i]) (elems c) (cache c) (next c).
Proof. intros. unfold MoveToBack. by rewrite decide_True. Qed.

Lemma Get_refines o k now c c' ev r :
  Inv c → Get o k now c = (c', ev, r) →
  Inv c' ∧ Spec.get o k now (entries c) = (entries c', ev, r).
Proof.
  intros HI H. unfold Get in H. unfold Spec.get. rewrite Inv_find by done.
  destruct (cache c !! k) as [i|] eqn:E; simpl; [|by simplify_eq].
  pose proof (proj1 (inv_cache c HI k i) E) as (Hi & [v e] & Ex).
  unfold Get_found in H. rewrite Ex in *. simpl. case_match eqn:Ee.
  - case_match eqn:Ed; [|by simplify_eq].
    destruct (delete_elem_refines o c k i (v, e) HI E Ex) as (c1 & Ed1 & HI1 & He1 & _).
    rewrite Ed1 in H. simplify_eq. by rewrite He1.
  - rewrite MoveToBack_linked in H by done. unfold set_entry in H. simpl in H. simplify_eq.
    edestruct (touch_refines c k i) as [HI' He']; [done..|]. split; [exact HI'|].
    f_equal. f_equal. symmetry. exact He'.
Qed.

Lemma push_refines o k v now c :
  Inv c → cache c !! k = None →
  let c' := MkLruCache (lru c ++ [next c]) (<[next c := (k, (v, now + expiration o))]> (elems c))
               (<[k := next c]> (cache c)) (S (next c)) in
  Inv c' ∧ entries c' = entries c ++ [(k, (v, now + expiration o))].
Proof.
  intros HI E. pose proof HI as [Hn He Hc].
  assert (next c ∉ lru c) as Hfresh by (intros [_ ?]%He; lia).
  simpl. split.
  - constructor; simpl.
    + apply list.NoDup_app. split_and!; [done| |apply NoDup_singleton].
      intros j Hj ->%list_elem_of_singleton. done.
    + intros j [Hj| ->%list_elem_of_singleton]%elem_of_app.
      * destruct (He j Hj). split; [|lia]. rewrite lookup_insert_is_Some. destruct (decide (next c = j)); auto.
      * split; [|lia]. rewrite lookup_insert_eq. eauto.
    + intros k' j. rewrite elem_of_app, list_elem_of_singleton. split.
      * destruct (decide (k' = k)) as [->|]; [rewrite lookup_insert_eq|rewrite lookup_insert_ne by done].
        -- intros [= <-]. split; [by right|]. eexists. apply lookup_insert_eq.
        -- intros (Hj & x & Ex)%Hc. split; [by left|]. exists x.
           rewrite lookup_insert_ne; [done|]. congruence.
      * intros ([Hj| ->] & x & Ex).
        -- rewrite lookup_insert_ne in Ex by congruence.
           assert (cache c !! k' = Some j) by (apply Hc; eauto).
           rewrite lookup_insert_ne; [done|]. congruence.
        -- rewrite lookup_insert_eq in Ex. simplify_eq. by rewrite lookup_insert_eq.
  - unfold entries. simpl. rewrite view_app, view_insert by done. simpl. by rewrite lookup_insert_eq.
Qed.

Lemma Set_refines o k v now c c' ev r :
  Inv c → Set_ o k v now c = (c', ev, r) →
  Inv c' ∧ Spec.set o k v now (entries c) = (entries c', ev, r).
Proof.
  intros HI H. unfold Set_ in H. unfold Spec.set. rewrite Inv_find by done.
  destruct (cache c !! k) as [i|] eqn:E; simpl.
  - pose proof (proj1 (inv_cache c HI k i) E) as (Hi & x & Ex). rewrite Ex. simpl.
    unfold Set_found in H. rewrite Ex in H. rewrite MoveToBack_linked in H by done.
    unfold set_entry in H. simpl in H. simplify_eq.
    edestruct (touch_refines c k i) as [HI' He']; [done..|]. split; [exact HI'|].
    f_equal. f_equal. symmetry. exact He'.
  - unfold Set_missing in H. rewrite Inv_length by done. case_match eqn:El.
    + destruct (lru c) as [|front rest] eqn:Elru.
      * simplify_eq. unfold entries. rewrite Elru. done.
      * destruct (inv_elems c HI front) as [[[kf xf] Ef] _]; [rewrite Elru; by left|].
        assert (cache c !! kf = Some front) as Ecf
          by (apply (inv_cache c HI); rewrite Elru; split; [by left|eauto]).
        destruct (delete_elem_refines o c kf front xf HI Ecf Ef) as (c1 & Ed1 & HI1 & He1 & Hel).
        rewrite Ed1 in H. simplify_eq.
        assert (cache c1 !! k = None) as Ek.
        { unfold delete_elem in Ed1. rewrite Ef in Ed1. simplify_eq. simpl.
          apply lookup_delete_None. by right. }
        destruct (push_refines o k v now c1 HI1 Ek) as [HI2 He2]. split; [exact HI2|].
        rewrite He2, He1, (Inv_remove_front c kf front rest HI Elru Ecf).
        unfold entries. rewrite Elru. simpl. by rewrite Ef.
    + simplify_eq. destruct (push_refines o k v now c HI E) as [HI2 He2]. split; [exact HI2|].
      by rewrite <-He2.
Qed.

Lemma Delete_refines o k c c' ev :
  Inv c → Delete o k c = (c', ev) → Inv c' ∧ Spec.del o k (entries c) = (entries c', ev).
Proof.
  intros HI H. unfold Delete in H. unfold Spec.del. rewrite Inv_find by done.
  destruct (cache c !! k) as [i|] eqn:E; simpl; [|by simplify_eq].
  pose proof (proj1 (inv_cache c HI k i) E) as (Hi & x & Ex). rewrite Ex. simpl.
  destruct (delete_elem_refines o c k i x HI E Ex) as (c1 & Ed1 & HI1 & He1 & _).
  rewrite Ed1 in H. simplify_eq. by rewrite He1.
Qed.

Lemma Contains_refines k c : Inv c → Contains k c = Spec.contains k (entries c).
Proof.
  intros HI. unfold Contains, Spec.contains. rewrite Inv_find by done.
  destruct (cache c !! k) as [i|] eqn:E; simpl; [|done].
  pose proof (proj1 (inv_cache c HI k i) E) as (Hi & x & Ex). by rewrite Ex.
Qed.

(** *** [cleanup] *)

Definition expired (h : gmap nat (K * (V * Z))) (now : Z) (i : nat) : Prop :=
  match h !! i with Some (_, (_, e)) => e ≤ now | None => False end.
#[local] Instance expired_dec h now i : Decision (expired h now i).
Proof. unfold expired. repeat case_match; apply _. Defined.

Lemma view_filter_expired h now l :
  view h (filter (λ i, expired h now i) l) = Spec.dead now (view h l) ∧
  view h (filter (λ i, ¬ expired h now i) l) = Spec.live now (view h l).
Proof.
  induction l as [|i l [IH1 IH2]]; [done|]. unfold Spec.dead, Spec.live in *.
  rewrite !filter_cons. simpl.
  destruct (h !! i) as [[k [v e]]|] eqn:E.
  - assert (expired h now i ↔ e ≤ now) as Hx by (unfold expired; by rewrite E).
    destruct (decide (e ≤ now)) as [He|He].
    + rewrite decide_True, (decide_False (P := ¬ expired h now i)) by tauto. simpl.
      rewrite E, !filter_cons. simpl. rewrite decide_True, decide_False by tauto. by rewrite IH1, IH2.
    + rewrite decide_False, (decide_True (P := ¬ expired h now i)) by tauto. simpl.
      rewrite E, !filter_cons. simpl. rewrite decide_False, decide_True by tauto. by rewrite IH1, IH2.
  - assert (¬ expired h now i) by (unfold expired; rewrite E; tauto).
    rewrite decide_False, decide_True by done. simpl. by rewrite E, IH1, IH2.
Qed.

Lemma evictions_app o (l1 l2 : list (K * (V * Z))) :
  Spec.evictions o (l1 ++ l2) = Spec.evictions o l1 ++ Spec.evictions o l2.
Proof. unfold Spec.evictions. case_match; [apply fmap_app|done]. Qed.

Lemma cleanup_loop_refines o now es c c' ev :
  Inv c → NoDup es → (∀ i, i ∈ es → i ∈ lru c) → cleanup_loop o now es c = (c', ev) →
  Inv c' ∧ elems c' = elems c ∧
  lru c' = filter (λ i, ¬ (i ∈ es ∧ expired (elems c) now i)) (lru c) ∧
  ev = Spec.evictions o (view (elems c) (filter (λ i, expired (elems c) now i) es)).
Proof.
  revert c c' ev. induction es as [|i es IH]; intros c c' ev HI Hn Hs H.
  { simpl in H. simplify_eq. split_and!; [done..| |].
    - symmetry. apply list_filter_id. intros i _ [?%not_elem_of_nil _]. done.
    - unfold Spec.evictions. by case_match. }
  apply list.NoDup_cons in Hn as [Hi Hn].
  destruct (inv_elems c HI i) as [[[k [v e]] Ex] _]; [apply Hs; by left|].
  simpl in H. rewrite Ex in H. case_match eqn:Ee; zify_bool.
  - assert (cache c !! k = Some i) as Ec by (apply (inv_cache c HI); split; [apply Hs; by left|eauto]).
    destruct (delete_elem_refines o c k i (v, e) HI Ec Ex) as (c1 & Ed & HI1 & _ & El1).
    assert (lru c1 = filter (λ j, j ≠ i) (lru c)) as Hl1.
    { unfold delete_elem in Ed. rewrite Ex in Ed. by simplify_eq. }
    rewrite Ed in H. destruct (cleanup_loop o now es c1) as [c2 ev2] eqn:E2. simplify_eq.
    destruct (IH c1 c' ev2) as (HI2 & El2 & Hl2 & ->); [done..| |done|].
    { intros j Hj. rewrite Hl1, list_elem_of_filter. split; [by intros ->|]. apply Hs. by right. }
    assert (expired (elems c) now i) as Hx by (unfold expired; by rewrite Ex).
    split_and!; [done|congruence| |].
    + rewrite Hl2, Hl1, list_filter_filter. apply list_filter_iff. intros j. rewrite El1.
      rewrite elem_of_cons. destruct (decide (j = i)) as [->|]; tauto.
    + rewrite filter_cons_True by done. simpl. rewrite Ex, El1.
      by rewrite <-evictions_app.
  - destruct (IH c c' ev) as (HI2 & El2 & Hl2 & ->); [done..| |done|].
    { intros j Hj. apply Hs. by right. }
    assert (¬ expired (elems c) now i) as Hne by (unfold expired; rewrite Ex; lia).
    split_and!; [done..| |by rewrite filter_cons_False].
    rewrite Hl2. apply list_filter_iff. intros j. rewrite elem_of_cons. split; [|tauto].
    intros Hj [[->|?] ?]; [done|tauto].
Qed.

Lemma mapped_elems c :
  Inv c → NoDup (map_to_list (cache c)).*2 ∧ ∀ i, i ∈ (map_to_list (cache c)).*2 ↔ i ∈ lru c.
Proof.
  intros [Hn He Hc]. split.
  - apply NoDup_fmap_2_strong; [|apply NoDup_map_to_list].
    intros [k1 i1] [k2 i2] H1%elem_of_map_to_list H2%elem_of_map_to_list Heq.
    simpl in Heq. subst i2. apply Hc in H1 as (_ & x & E1). apply Hc in H2 as (_ & y & E2). congruence.
  - intros i. rewrite list_elem_of_fmap. split.
    + intros ([k j] & -> & Hk%elem_of_map_to_list). by apply Hc in Hk as [? _].
    + intros Hi. destruct (He i Hi) as [[[k x] Ex] _]. exists (k, i). split; [done|].
      apply elem_of_map_to_list, Hc. eauto.
Qed.

Lemma view_perm h (l1 l2 : list nat) : l1 ≡ₚ l2 → view h l1 ≡ₚ view h l2.
Proof.
  induction 1; simpl; repeat case_match; try done.
  - by constructor.
  - by constructor.
  - by etrans.
Qed.

Lemma evictions_perm o (l1 l2 : list (K * (V * Z))) :
  l1 ≡ₚ l2 → Spec.evictions o l1 ≡ₚ Spec.evictions o l2.
Proof. intros H. unfold Spec.evictions. case_match; [by rewrite H|done]. Qed.

Lemma cleanup_refines o now c c' ev :
  Inv c → cleanup o now c c' ev →
  Inv c' ∧ entries c' = Spec.live now (entries c) ∧
  ev ≡ₚ Spec.evictions o (Spec.dead now (entries c)).
Proof.
  intros HI (order & Hp & H). destruct (mapped_elems c HI) as [Hn Hm].
  assert (order ≡ₚ lru c) as Hp'.
  { rewrite Hp. apply NoDup_Permutation; [done|apply HI|done]. }
  destruct (cleanup_loop_refines o now order c c' ev) as (HI' & El & Hl & ->); [done| | |done|].
  { by rewrite Hp. }
  { intros i. by rewrite Hp'. }
  destruct (view_filter_expired (elems c) now (lru c)) as [Hd Hlv]. split_and!; [done| |].
  - unfold entries. rewrite El, Hl, <-Hlv. f_equal.
    apply list_filter_ext_in. intros i Hi. rewrite Hp'. tauto.
  - apply evictions_perm. unfold entries. rewrite <-Hd. apply view_perm. by rewrite Hp'.
Qed.
End LruCache.
Arguments LruCache K V : clear implicits.
Arguments LruCache K V {_ _}.

(** ** The interface [Cache[K, V]]

    The operations of the source's interface and what a client may rely on: an
    implementation keeps an invariant and each operation acts on the abstract
    view as [Spec] says. *)
Class CacheOps (K V C : Type) := {
  cache_new : C;
  cache_get : options → K → Z → C → C * list (K * V) * res V;
  cache_set : options → K → V → Z → C → C * list (K * V) * res ();
  cache_delete : options → K → C → C * list (K * V);
  cache_contains : K → C → bool;
  cache_cleanup : options → Z → C → C → list (K * V) → Prop;
}.

Class CacheLaws (K V C : Type) `{!EqDecision K} `{!CacheOps K V C} := {
  cache_inv : C → Prop;
  cache_view : C → list (K * (V * Z));
  cache_new_ok : cache_inv cache_new ∧ cache_view cache_new = [];
  cache_get_ok o k now c c' ev r :
    cache_inv c → cache_get o k now c = (c', ev, r) →
    cache_inv c' ∧ Spec.get o k now (cache_view c) = (cache_view c', ev, r);
  cache_set_ok o k v now c c' ev r :
    cache_inv c → cache_set o k v now c = (c', ev, r) →
    cache_inv c' ∧ Spec.set o k v now (cache_view c) = (cache_view c', ev, r);
  cache_delete_ok o k c c' ev :
    cache_inv c → cache_delete o k c = (c', ev) →
    cache_inv c' ∧ Spec.del o k (cache_view c) = (cache_view c', ev);
  cache_contains_ok k c :
    cache_inv c → cache_contains k c = Spec.contains k (cache_view c);
  cache_cleanup_ok o now c c' ev :
    cache_inv c → cache_cleanup o now c c' ev →
    cache_inv c' ∧ cache_view c' = Spec.live now (cache_view c) ∧
    ev ≡ₚ Spec.evictions o (Spec.dead now (cache_view c));
}.

#[export] Instance LruCache_ops {K V} `{Countable K} : CacheOps K V (LruCache K V) := {|
  cache_new := NewCache;
  cache_get := Get;
  cache_set := Set_;
  cache_delete := Delete;
  cache_contains := Contains;
  cache_cleanup := cleanup;
|}.

#[export, program] Instance LruCache_laws {K V} `{Countable K} : CacheLaws K V (LruCache K V) := {|
  cache_inv := Inv;
  cache_view := entries;
  cache_get_ok := Get_refines;
  cache_set_ok := Set_refines;
  cache_delete_ok := Delete_refines;
  cache_contains_ok := Contains_refines;
  cache_cleanup_ok := cleanup_refines;
|}.
Next Obligation. intros. split; [apply Inv_NewCache|done]. Qed.

(** ** Runs of a cache *)

Inductive op (K V : Type) :=
| OGet (k : K)
| OSet (k : K) (v : V)
| ODelete (k : K)
| OContains (k : K)
| OCleanup.
Arguments OGet {K V} _.
Arguments OSet {K V} _ _.
Arguments ODelete {K V} _.
Arguments OContains {K V} _.
Arguments OCleanup {K V}.

Inductive out (V : Type) :=
| RGet (r : res V)
| RSet (r : res ())
| RBool (b : bool)
| RDone.
Arguments RGet {V} _.
Arguments RSet {V} _.
Arguments RBool {V} _.
Arguments RDone {V}.

Section Runs.
Context {K V C : Type} `{!EqDecision K, !CacheOps K V C}.
Implicit Types (c : C) (now : Z).

(** One call at time [now], with the entries passed to the eviction callback
    and the result. *)
Inductive cstep (o : options) now : op K V → C → C → list (K * V) → out V → Prop :=
| step_get k c c' ev r : cache_get o k now c = (c', ev, r) → cstep o now (OGet k) c c' ev (RGet r)
| step_set k v c c' ev r : cache_set o k v now c = (c', ev, r) → cstep o now (OSet k v) c c' ev (RSet r)
| step_delete k c c' ev : cache_delete o k c = (c', ev) → cstep o now (ODelete k) c c' ev RDone
| step_contains k c : cstep o now (OContains k) c c [] (RBool (cache_contains k c))
| step_cleanup c c' ev : cache_cleanup o now c c' ev → cstep o now OCleanup c c' ev RDone.

Inductive csteps (o : options) : C → list (Z * op K V * list (K * V) * out V) → C → Prop :=
| csteps_nil c : csteps o c [] c
| csteps_cons c now x ev r c' tr c'' :
    cstep o now x c c' ev r → csteps o c' tr c'' → csteps o c ((now, x, ev, r) :: tr) c''.
End Runs.

Section SpecRuns.
Context {K V : Type} `{!EqDecision K}.
Implicit Types (l : list (K * (V * Z))).

(** The same calls on abstract entries, as a function. *)
Definition spec_step (o : options) (now : Z) (x : op K V) l
    : list (K * (V * Z)) * list (K * V) * out V :=
  match x with
  | OGet k => let '(l', ev, r) := Spec.get o k now l in (l', ev, RGet r)
  | OSet k v => let '(l', ev, r) := Spec.set o k v now l in (l', ev, RSet r)
  | ODelete k => let '(l', ev) := Spec.del o k l in (l', ev, RDone)
  | OContains k => (l, [], RBool (Spec.contains k l))
  | OCleanup => (Spec.live now l, Spec.evictions o (Spec.dead now l), RDone)
  end.

(** The abstract cache that a trace leads to, if it explains the trace: same
    results, same evictions (up to order). *)
Inductive explains (o : options) : list (K * (V * Z)) → list (Z * op K V * list (K * V) * out V) →
    list (K * (V * Z)) → Prop :=
| explains_nil l : explains o l [] l
| explains_cons l now x ev r l' ev' tr l'' :
    spec_step o now x l = (l', ev', r) → ev ≡ₚ ev' → explains o l' tr l'' →
    explains o l ((now, x, ev, r) :: tr) l''.

(** Distinct keys, and no more entries than the maximum. *)
Definition bounded (o : options) l : Prop := NoDup l.*1 ∧ (length l ≤ maxSize o)%nat.

Lemma remove_keys k l : (Spec.remove k l).*1 = filter (λ k', k' ≠ k) l.*1.
Proof.
  unfold Spec.remove. induction l as [|e l IH]; [done|]. simpl. rewrite !filter_cons.
  case_decide; rewrite ?fmap_cons; [f_equal|]; exact IH.
Qed.

Lemma find_Some_elem k l x : Spec.find k l = Some x → (k, x) ∈ l.
Proof.
  induction l as [|[k' y] l IH]; [done|]. simpl. case_decide; intros H'.
  - simplify_eq. by left.
  - right. auto.
Qed.

Lemma find_None_elem k l : Spec.find k l = None ↔ k ∉ l.*1.
Proof.
  induction l as [|[k' y] l IH]; simpl; [split; [intros _; apply not_elem_of_nil|done]|].
  rewrite not_elem_of_cons. case_decide; [naive_solver|]. naive_solver.
Qed.

Lemma length_remove_le k l : (length (Spec.remove k l) ≤ length l)%nat.
Proof. apply length_filter. Qed.

Lemma length_remove_lt k l x : Spec.find k l = Some x → (length (Spec.remove k l) < length l)%nat.
Proof.
  intros H%find_Some_elem. apply length_filter_lt with (k, x); [done|]. simpl. naive_solver.
Qed.

Lemma bounded_remove o k l : bounded o l → bounded o (Spec.remove k l).
Proof.
  intros [Hn Hl]. split; [|pose proof (length_remove_le k l); lia].
  rewrite remove_keys. by apply list.NoDup_filter.
Qed.

Lemma bounded_snoc o k l y :
  NoDup l.*1 → k ∉ l.*1 → (length l < maxSize o)%nat → bounded o (l ++ [(k, y)]).
Proof.
  intros Hn Hk Hl. split; [|rewrite length_app; simpl; lia].
  rewrite fmap_app. apply list.NoDup_app. split_and!; [done| |apply NoDup_singleton].
  intros z Hz ->%list_elem_of_singleton. done.
Qed.

Lemma bounded_touch o k l x y :
  bounded o l → Spec.find k l = Some x → bounded o (Spec.remove k l ++ [(k, y)]).
Proof.
  intros [Hn Hl] Hf. pose proof (length_remove_lt k l x Hf). apply bounded_snoc; [| |lia].
  - rewrite remove_keys. by apply list.NoDup_filter.
  - rewrite remove_keys, list_elem_of_filter. tauto.
Qed.

Lemma bounded_filter o (P : K * (V * Z) → Prop) `{!∀ x, Decision (P x)} l :
  bounded o l → bounded o (filter P l).
Proof.
  intros [Hn Hl]. split; [|pose proof (length_filter P l); lia].
  eapply sublist_NoDup; [exact Hn|]. apply fmap_sublist. apply sublist_filter.
Qed.

Lemma spec_step_bounded o now x l l' ev r :
  bounded o l → spec_step o now x l = (l', ev, r) → bounded o l'.
Proof.
  intros Hb H. destruct x as [k|k v|k|k|]; simpl in H.
  - unfold Spec.get in H. destruct (Spec.find k l) as [[v e]|] eqn:E; [|by simplify_eq].
    case_all; try done; eauto using bounded_remove, bounded_touch.
  - unfold Spec.set in H. destruct (Spec.find k l) as [x|] eqn:E.
    { simplify_eq. eauto using bounded_touch. }
    apply find_None_elem in E. destruct Hb as [Hn Hl].
    destruct (length l =? maxSize o)%nat eqn:El; zify_bool.
    + destruct l as [|old l]; simplify_eq; [by split|]. simpl in *. apply list.NoDup_cons in Hn as [? Hn].
      apply not_elem_of_cons in E as [? E]. apply bounded_snoc; [done..|]. lia.
    + simplify_eq. apply bounded_snoc; [done..|]. lia.
  - unfold Spec.del in H. case_all; eauto using bounded_remove.
  - by simplify_eq.
  - simplify_eq. by apply bounded_filter.
Qed.
End SpecRuns.

(** ** Conservation: entries are evicted or kept, never lost *)
Section Conservation.
Context {K V : Type} `{!EqDecision K}.
Implicit Types (l : list (K * (V * Z))).

(** The entries without their expiry times. *)
Definition pairs l : list (K * V) := (λ e, (e.1, e.2.1)) <$> l.

Lemma pairs_app l1 l2 : pairs (l1 ++ l2) = pairs l1 ++ pairs l2.
Proof. apply fmap_app. Qed.
Lemma pairs_keys l : (pairs l).*1 = l.*1.
Proof. unfold pairs. rewrite <-list_fmap_compose. by apply list_fmap_ext. Qed.
Lemma pairs_perm l1 l2 : l1 ≡ₚ l2 → pairs l1 ≡ₚ pairs l2.
Proof. intros H. unfold pairs. by rewrite H. Qed.

Lemma remove_absent k l : k ∉ l.*1 → Spec.remove k l = l.
Proof.
  intros Hk. apply list_filter_id. intros e He Hke. apply Hk. subst k. by apply list_elem_of_fmap_2.
Qed.

Lemma remove_split k l x :
  NoDup l.*1 → Spec.find k l = Some x → Spec.remove k l ++ [(k, x)] ≡ₚ l.
Proof.
  induction l as [|[k' y] l IH]; [done|]. simpl. intros [Hn1 Hn2]%NoDup_cons.
  unfold Spec.remove. rewrite filter_cons. simpl. destruct (decide (k' = k)) as [->|Hne].
  - intros [= ->]. rewrite decide_False by tauto. fold (Spec.remove k l).
    rewrite remove_absent by done. by rewrite Permutation_app_comm.
  - intros Hf. rewrite decide_True by done. simpl. by rewrite (IH Hn2 Hf).
Qed.

Lemma get_conserves o k now l l' ev r :
  NoDup l.*1 → evictFn o = true → Spec.get o k now l = (l', ev, r) → pairs l' ++ ev ≡ₚ pairs l.
Proof.
  intros Hn Ho. unfold Spec.get. destruct (Spec.find k l) as [[v e]|] eqn:Ef.
  - pose proof (pairs_perm _ _ (remove_split k l _ Hn Ef)) as Hp. rewrite pairs_app in Hp.
    destruct (e <=? now); [destruct (deleteExpCacheOnGet o)|]; intros [= <- <- <-];
      unfold Spec.evictions; rewrite ?Ho, ?pairs_app, ?app_nil_r; done.
  - intros [= <- <- <-]. by rewrite app_nil_r.
Qed.

(** A failing [get] of a cache that deletes expired entries leaves no entry. *)
Lemma get_fails_absent o k now l l' ev e :
  NoDup l.*1 → deleteExpCacheOnGet o = true → Spec.get o k now l = (l', ev, Fail e) → k ∉ l'.*1.
Proof.
  intros Hn Ho. unfold Spec.get. destruct (Spec.find k l) as [[v x]|] eqn:Ef.
  - rewrite Ho. destruct (x <=? now); intros [= <- <- <-]. rewrite remove_keys, list_elem_of_filter. tauto.
  - intros [= <- <- <-]. by apply find_None_elem.
Qed.

Lemma get_Ret_elem o k now l l' ev v :
  Spec.get o k now l = (l', ev, Ret v) → (k, v) ∈ pairs l ∧ (k, v) ∈ pairs l'.
Proof.
  unfold Spec.get. destruct (Spec.find k l) as [[v' x]|] eqn:Ef; [|done].
  destruct (x <=? now); [by destruct (deleteExpCacheOnGet o)|]. intros [= <- <- <-].
  split; [|rewrite pairs_app; set_solver].
  apply find_Some_elem in Ef. unfold pairs. apply list_elem_of_fmap. by exists (k, (v', x)).
Qed.

Lemma get_subset o k now l l' ev r :
  Spec.get o k now l = (l', ev, r) → ∀ p, p ∈ pairs l' → p ∈ pairs l.
Proof.
  unfold Spec.get. destruct (Spec.find k l) as [[v x]|] eqn:Ef; [|by intros [= <- <- <-]].
  assert (∀ p, p ∈ pairs (Spec.remove k l) → p ∈ pairs l) as Hs.
  { intros p. unfold pairs. rewrite !list_elem_of_fmap. intros (e & -> & [_ He]%list_elem_of_filter). eauto. }
  apply find_Some_elem in Ef.
  destruct (x <=? now); [destruct (deleteExpCacheOnGet o)|]; intros [= <- <- <-]; [done..|].
  intros p. rewrite pairs_app. intros [Hp| ->%list_elem_of_singleton]%elem_of_app; [auto|].
  unfold pairs. apply list_elem_of_fmap. by exists (k, (v, x)).
Qed.

Lemma set_conserves o k v now l l' ev r :
  k ∉ l.*1 → evictFn o = true → (0 < maxSize o)%nat → Spec.set o k v now l = (l', ev, r) →
  r = Ret () ∧ pairs l' ++ ev ≡ₚ pairs l ++ [(k, v)] ∧ (k, v) ∈ pairs l'.
Proof.
  intros Hk Ho Hm. unfold Spec.set. rewrite (proj2 (find_None_elem k l)) by done.
  destruct (length l =? maxSize o)%nat eqn:El; zify_bool.
  - destruct l as [|old l]; simpl in El; [lia|]. intros [= <- <- <-]. rewrite pairs_app.
    unfold Spec.evictions. rewrite Ho. simpl. split_and!; [done| |set_solver].
    rewrite Permutation_app_comm. done.
  - intros [= <- <- <-]. rewrite pairs_app, app_nil_r. set_solver.
Qed.

Lemma set_subset o k v now l l' ev r :
  (0 < maxSize o)%nat → Spec.set o k v now l = (l', ev, r) →
  r = Ret () ∧ ∀ p, p ∈ pairs l' → p = (k, v) ∨ (p ∈ pairs l ∧ p.1 ≠ k).
Proof.
  intros Hm. unfold Spec.set. destruct (Spec.find k l) as [x|] eqn:Ef.
  - intros [= <- <- <-]. split; [done|]. intros p. rewrite pairs_app.
    intros [Hp| ->%list_elem_of_singleton]%elem_of_app; [|by left]. right.
    unfold pairs in *. rewrite list_elem_of_fmap in *.
    destruct Hp as (e & -> & [Hne He]%list_elem_of_filter). split; [eauto|done].
  - apply find_None_elem in Ef.
    assert (∀ p, p ∈ pairs l → p.1 ≠ k) as Hne.
    { intros p Hp <-. apply Ef. rewrite <-pairs_keys. by apply list_elem_of_fmap_2. }
    destruct (length l =? maxSize o)%nat eqn:El; zify_bool.
    + destruct l as [|old l]; simpl in El; [lia|]. intros [= <- <- <-]. split; [done|].
      intros p. rewrite pairs_app. intros [Hp| ->%list_elem_of_singleton]%elem_of_app; [|by left].
      right. split; [by right|]. apply Hne. by right.
    + intros [= <- <- <-]. split; [done|]. intros p. rewrite pairs_app.
      intros [Hp| ->%list_elem_of_singleton]%elem_of_app; [|by left]. right. auto.
Qed.

Lemma find_app_absent k l x : k ∉ l.*1 → Spec.find k (l ++ [(k, x)]) = Some x.
Proof.
  induction l as [|[k' y] l IH]; simpl; intros Hk.
  - by rewrite decide_True.
  - apply not_elem_of_cons in Hk as [Hne Hk]. rewrite decide_False by congruence. auto.
Qed.

Lemma set_find o k v now l l' ev :
  NoDup l.*1 → Spec.set o k v now l = (l', ev, Ret ()) → Spec.find k l' = Some (v, now + expiration o).
Proof.
  intros Hn. unfold Spec.set. destruct (Spec.find k l) as [x|] eqn:Ef.
  - intros [= <- <-]. apply find_app_absent. rewrite remove_keys, list_elem_of_filter. tauto.
  - apply find_None_elem in Ef. destruct (length l =? maxSize o)%nat; [destruct l as [|old l]|];
      intros [= <- <-]; apply find_app_absent; [|done]. simpl in Ef. set_solver.
Qed.

Lemma get_find o k now l v e :
  Spec.find k l = Some (v, e) → now < e → ∃ l', Spec.get o k now l = (l', [], Ret v).
Proof.
  intros Hf Hn. unfold Spec.get. rewrite Hf, (proj2 (Z.leb_gt _ _)) by done. eauto.
Qed.

Lemma live_dead now l : Spec.live now l ++ Spec.dead now l ≡ₚ l.
Proof.
  unfold Spec.live, Spec.dead. induction l as [|e l IH]; [done|]. rewrite !filter_cons.
  destruct (decide (e.2.2 ≤ now)); [rewrite decide_False by tauto|rewrite decide_True by done].
  - by rewrite <-Permutation_middle, IH.
  - simpl. by rewrite IH.
Qed.

Lemma cleanup_conserves o now l ev :
  evictFn o = true → ev ≡ₚ Spec.evictions o (Spec.dead now l) →
  pairs (Spec.live now l) ++ ev ≡ₚ pairs l.
Proof.
  intros Ho ->. unfold Spec.evictions. rewrite Ho. fold (pairs (Spec.dead now l)).
  rewrite <-pairs_app. apply pairs_perm, live_dead.
Qed.

Lemma live_subset now l p : p ∈ pairs (Spec.live now l) → p ∈ pairs l.
Proof. unfold pairs. rewrite !list_elem_of_fmap. intros (e & -> & [_ He]%list_elem_of_filter). eauto. Qed.
End Conservation.

Section Refinement.
Context {K V C : Type} `{CacheLaws K V C}.

Lemma cstep_refines o now x (c c' : C) ev r :
  cache_inv c → cstep o now x c c' ev r →
  cache_inv c' ∧ ∃ ev', spec_step o now x (cache_view c) = (cache_view c', ev', r) ∧ ev ≡ₚ ev'.
Proof.
  intros HI Hs. destruct Hs as [k c c' ev r E|k v c c' ev r E|k c c' ev E|k c|c c' ev E]; simpl.
  - apply cache_get_ok in E as [? ->]; eauto.
  - apply cache_set_ok in E as [? ->]; eauto.
  - apply cache_delete_ok in E as [? ->]; eauto.
  - rewrite cache_contains_ok by done. eauto.
  - apply cache_cleanup_ok in E as (? & -> & ?); eauto.
Qed.

Lemma csteps_refines o (c c' : C) tr :
  cache_inv c → csteps o c tr c' → cache_inv c' ∧ explains o (cache_view c) tr (cache_view c').
Proof.
  intros HI Hs. induction Hs as [c|c now x ev r c' tr c'' H1 H2 IH]; [split; [done|constructor]|].
  apply cstep_refines in H1 as (HI' & ev' & E & Hp); [|done].
  destruct (IH HI') as [HI'' He]. split; [done|]. by econstructor.
Qed.
End Refinement.

Lemma explains_bounded {K V} `{!EqDecision K} o (l l' : list (K * (V * Z))) tr :
  bounded o l → explains o l tr l' → bounded o l'.
Proof.
  intros Hb He. induction He as [|l now x ev r l' ev' tr l'' E]; [done|].
  eauto using spec_step_bounded.
Qed.

(** C17 (refinement): any sequence of [Get], [Set], [Delete], [Contains] and
    background cleanups on a new [LruCache] returns exactly what the abstract
    least-recently-used cache with expiry returns, evicts exactly the entries it
    evicts, and the linked list and the map stay consistent, with distinct keys
    and at most [maxSize] entries. *)
Theorem lru_refines_spec {K V} `{Countable K} (o : options) (c : LruCache K V) tr :
  csteps o NewCache tr c →
  Inv c ∧ explains o [] tr (entries c) ∧ bounded o (entries c).
Proof.
  intros Hs. destruct (csteps_refines o NewCache c tr) as [HI He]; [apply Inv_NewCache|done|].
  split_and!; [done..|]. apply (explains_bounded o [] _ tr); [|done].
  split; [constructor|simpl; lia].
Qed.

Definition demo_options : options := make_options [WithMaxSize 2; WithExpiration 10; WithEvictCallback].
Definition demo_trace : list (Z * op Z Z * list (Z * Z) * out Z) :=
  [(0, OSet 1 10, [], RSet (Ret ())); (1, OSet 2 20, [], RSet (Ret ()));
   (2, OGet 1, [], RGet (Ret 10)); (3, OSet 3 30, [(2, 20)], RSet (Ret ()));
   (4, OGet 2, [], RGet (Fail ErrCacheIsNotFound)); (10, OGet 1, [], RGet (Fail ErrCacheWasExpired))].

Lemma lru_refines_spec_witness :
  ∃ c : LruCache Z Z, csteps demo_options NewCache demo_trace c ∧ bounded demo_options (entries c).
Proof.
  assert (∃ c : LruCache Z Z, csteps demo_options NewCache demo_trace c) as [c Hs].
  { eexists. repeat (eapply csteps_cons; [constructor; vm_compute; reflexivity|]). apply csteps_nil. }
  exists c. split; [exact Hs|]. exact (proj2 (proj2 (lru_refines_spec _ _ _ Hs))).
Defined.

(** [deleteOverflow] never returns, whatever the cache holds: its
    loop has no exit, so once called the write lock is held for ever. *)
Theorem deleteOverflow_never_returns {K V} `{Countable K} (fuel : nat) (o : options) (c : LruCache K V) :
  deleteOverflow fuel o c = None.
Proof. revert c. induction fuel as [|f IH]; intros c; [done|]. simpl. apply IH. Qed.

(** [Set] looks the key up under the read lock and inserts under the
    write lock. When two callers interleave so that both look the key up before
    either inserts, both run the insertion; the cache then holds two elements of
    the key, of which the map knows the newer only: after [Delete] of the key the
    older entry still takes room, and the consistency of list and map is lost. *)
Theorem set_race_duplicates {K V} `{Countable K} (o : options) (k : K) (v1 v2 : V) (n1 n2 : Z)
    (c : LruCache K V) c1 ev1 r1 c2 ev2 r2 c3 ev3 :
  Inv c → Contains k c = false → (length (lru c) + 1 < maxSize o)%nat →
  Set_missing o k v1 n1 c = (c1, ev1, r1) → Set_missing o k v2 n2 c1 = (c2, ev2, r2) →
  Delete o k c2 = (c3, ev3) →
  entries c2 = entries c ++ [(k, (v1, n1 + expiration o)); (k, (v2, n2 + expiration o))] ∧
  Contains k c3 = false ∧ entries c3 = entries c ++ [(k, (v1, n1 + expiration o))] ∧ ¬ Inv c3.
Proof.
  intros HI Hc Hl H1 H2 H3. unfold Contains in Hc. destruct (cache c !! k) eqn:Ek; [done|].
  assert (next c ∉ lru c) as Hf1 by (intros [_ ?]%(inv_elems c HI); lia).
  assert (S (next c) ∉ lru c) as Hf2 by (intros [_ ?]%(inv_elems c HI); lia).
  unfold Set_missing in H1. rewrite (proj2 (Nat.eqb_neq _ _)) in H1 by lia. simplify_eq.
  unfold Set_missing in H2. simpl in H2. rewrite length_app in H2.
  rewrite (proj2 (Nat.eqb_neq _ _)) in H2 by (simpl; lia). simplify_eq.
  unfold Delete in H3. simpl in H3. rewrite lookup_insert_eq in H3.
  unfold delete_elem in H3. simpl in H3. rewrite lookup_insert_eq in H3. simplify_eq.
  assert (filter (λ i, i ≠ S (next c)) ((lru c ++ [next c]) ++ [S (next c)]) = lru c ++ [next c]) as Hfl.
  { rewrite list.filter_app, filter_cons_False, filter_nil, app_nil_r by tauto. apply list_filter_id.
    intros i [Hi|Hi%list_elem_of_singleton]%elem_of_app ->; [done|lia]. }
  split_and!.
  - unfold entries. simpl. rewrite !view_app. simpl. rewrite lookup_insert_eq.
    rewrite lookup_insert_ne, lookup_insert_eq by lia. by rewrite !view_insert, <-app_assoc by done.
  - unfold Contains. simpl. by rewrite lookup_delete_eq.
  - unfold entries. simpl. rewrite Hfl, view_app. simpl.
    rewrite lookup_insert_ne, lookup_insert_eq by lia. by rewrite !view_insert by done.
  - intros HI3. assert (delete k (<[k:=S (next c)]> (<[k:=next c]> (cache c))) !! k = Some (next c)) as Hbad.
    { apply (inv_cache _ HI3). simpl. rewrite Hfl. split; [set_solver|].
      eexists. rewrite lookup_insert_ne by lia. apply lookup_insert_eq. }
    by rewrite lookup_delete_eq in Hbad.
Qed.

Lemma set_race_duplicates_witness :
  ∃ c3 : LruCache Z Z, Contains 7 c3 = false ∧ entries c3 = [(7, (100, 10))] ∧ ¬ Inv c3.
Proof.
  eexists. edestruct (set_race_duplicates demo_options 7 100 200 0 1 (NewCache (K := Z) (V := Z)))
    as (_ & Hc & He & Hn); [apply Inv_NewCache|reflexivity|simpl; lia|reflexivity..|].
  split_and!; [exact Hc|exact He|exact Hn].
Defined.
