(* ===== verification/Trie.v ===== *)
(** * Package trie: the domain trie.

    Models [src/util/trie/domain.go] and [src/util/trie/node.go]. A trie stores
    data under reversed lists of labels; ["*"] stands for any one label and a
    final [""] (the dot wildcard) for one or more. The specification below reads
    an insertion as a set of patterns and a search as the choice of the first
    matching pattern in the priority the source documents. *)
From S2P Require Import Prelude GoIO GoNet.
Local Open Scope Z_scope.

Definition wildcard : gostring := str "*".
Definition dotWildcard : gostring := str "".
Definition complexWildcard : gostring := str "+".
Definition domainStep : Z := 46.
Definition ErrInvalidDomain := errNew "invalid domain".

Section Trie.
Context {D : Type}.

(** [children]: the map, as an association list; [Data]: [None] for [nil]. *)
Inductive Node := MkNode (children : list (gostring * Node)) (Data : option D).

Definition children (n : Node) := let '(MkNode c _) := n in c.
Definition Data (n : Node) := let '(MkNode _ d) := n in d.

Definition newNode (data : option D) : Node := MkNode [] data.

Fixpoint assoc_get (s : gostring) (l : list (gostring * Node)) : option Node :=
  match l with
  | [] => None
  | (k, c) :: r => if decide (k = s) then Some c else assoc_get s r
  end.
Fixpoint assoc_set (s : gostring) (x : Node) (l : list (gostring * Node)) : list (gostring * Node) :=
  match l with
  | [] => [(s, x)]
  | (k, c) :: r => if decide (k = s) then (k, x) :: r else (k, c) :: assoc_set s x r
  end.

Definition getChild (n : Node) (s : gostring) : option Node := assoc_get s (children n).
Definition hasChild (n : Node) (s : gostring) : bool :=
  match getChild n s with Some _ => true | None => false end.
Definition addChild (n : Node) (s : gostring) (child : Node) : Node :=
  MkNode (assoc_set s child (children n)) (Data n).

(** The loop that checks the labels after the first. *)
Fixpoint nonempty_all (parts : list gostring) : bool :=
  match parts with
  | [] => true
  | p :: r => if decide (p = []) then false else nonempty_all r
  end.

Definition ValidAndSplitDomain (domain : gostring) : option (list gostring) :=
  if match list.last domain with Some c => c =? 46 | None => false end then None else
  let parts := split_byte domainStep domain in
  match parts with
  | [p] => if decide (p = []) then None else Some parts
  | _ => if nonempty_all (drop 1 parts) then Some parts else None
  end.

(** [insert]: the loop goes from the last label to the first; the node it ends
    in is updated in place, which rebuilds the path to it here. *)
Fixpoint insert_path (node : Node) (rparts : list gostring) (data : D) : Node :=
  match rparts with
  | [] => MkNode (children node) (Some data)
  | part :: r =>
      let node1 := if hasChild node part then node else addChild node part (newNode None) in
      match getChild node1 part with
      | Some c => addChild node1 part (insert_path c r data)
      | None => node1
      end
  end.
Definition insert (t : Node) (parts : list gostring) (data : D) : Node :=
  insert_path t (reverse parts) data.

Definition Insert (t : Node) (domain : gostring) (data : D) : Node * option error :=
  match ValidAndSplitDomain domain with
  | None => (t, Some ErrInvalidDomain)
  | Some parts =>
      match parts with
      | p0 :: rest =>
          if decide (p0 = complexWildcard) then
            let t1 := insert t rest data in
            (insert t1 (dotWildcard :: rest) data, None)
          else (insert t parts data, None)
      | [] => (t, None)
      end
  end.

(** [n != nil && n.Data != nil]. *)
Definition hasData (n : option Node) : bool :=
  match n with Some n => match Data n with Some _ => true | None => false end | None => false end.

Fixpoint search_path (node : Node) (rparts : list gostring) : option Node :=
  match rparts with
  | [] => Some node
  | part :: r =>
      let n1 := match getChild node part with Some c => search_path c r | None => None end in
      if hasData n1 then n1 else
      let n2 := match getChild node wildcard with Some c => search_path c r | None => None end in
      if hasData n2 then n2 else getChild node dotWildcard
  end.
Definition search (node : Node) (parts : list gostring) : option Node :=
  search_path node (reverse parts).

Definition Search (t : Node) (domain : gostring) : option Node :=
  match ValidAndSplitDomain domain with
  | None => None
  | Some parts =>
      match parts with
      | [] :: _ => None
      | _ => let n := search t parts in if hasData n then n else None
      end
  end.

Definition New : Node := newNode None.

(** ** Specification *)

(** The data stored at a path of labels. *)
Fixpoint data_at (t : Node) (path : list gostring) : option D :=
  match path with
  | [] => Data t
  | p :: r => match getChild t p with Some c => data_at c r | None => None end
  end.

(** The patterns a domain can match, reversed, best first: at each label the
    label itself, then ["*"], then the dot wildcard. *)
Fixpoint candidates (rparts : list gostring) : list (list gostring) :=
  match rparts with
  | [] => [[]]
  | p :: r =>
      (cons p <$> candidates r) ++ (cons wildcard <$> candidates r) ++ [[dotWildcard]]
  end.

Definition search_spec (f : list gostring → option D) (rparts : list gostring) : option D :=
  head (omap f (candidates rparts)).

Lemma assoc_get_set s s' x l :
  assoc_get s' (assoc_set s x l) = if decide (s = s') then Some x else assoc_get s' l.
Proof.
  induction l as [|[k c] l IH]; simpl; [done|]. destruct (decide (k = s)) as [->|]; simpl.
  - by destruct (decide (s = s')).
  - rewrite IH. destruct (decide (k = s')), (decide (s = s')); congruence.
Qed.

Lemma getChild_addChild n s s' x :
  getChild (addChild n s x) s' = if decide (s = s') then Some x else getChild n s'.
Proof. apply assoc_get_set. Qed.

Lemma insert_path_cons node part r data :
  insert_path node (part :: r) data =
    addChild (if hasChild node part then node else addChild node part (newNode None)) part
      (insert_path (default (newNode None) (getChild node part)) r data).
Proof.
  simpl. unfold hasChild. destruct (getChild node part) eqn:E; rewrite ?E; [done|].
  by rewrite getChild_addChild, decide_True.
Qed.

Lemma data_at_newNode p : data_at (newNode None) p = None.
Proof. by destruct p. Qed.

Lemma data_at_insert_path path data : ∀ t q,
  data_at (insert_path t path data) q = if decide (q = path) then Some data else data_at t q.
Proof.
  induction path as [|p path IH]; intros t q.
  - destruct q as [|s q]; [done|]. simpl. by destruct t.
  - rewrite insert_path_cons. destruct q as [|s q].
    { simpl. unfold hasChild. destruct t; by case_match. }
    cbn [data_at]. rewrite getChild_addChild. destruct (decide (p = s)) as [->|Hne].
    + rewrite IH. destruct (decide (q = path)) as [->|]; [by rewrite decide_True|].
      rewrite decide_False by congruence. destruct (getChild t s); simpl; [done|apply data_at_newNode].
    + rewrite decide_False by congruence. unfold hasChild.
      destruct (getChild t p) eqn:E; [done|]. by rewrite getChild_addChild, decide_False.
Qed.

Lemma head_app {A} (l k : list A) :
  head (l ++ k) = match head l with Some x => Some x | None => head k end.
Proof. by destruct l. Qed.

Lemma omap_cons_fmap (f : list gostring → option D) p (l : list (list gostring)) :
  omap f (cons p <$> l) = omap (λ q, f (p :: q)) l.
Proof.
  induction l as [|q l IH]; [done|]. rewrite fmap_cons. cbn.
  destruct (f (p :: q)); [f_equal|]; exact IH.
Qed.

Lemma hasData_None n : n ≫= Data = None → hasData n = false.
Proof. destruct n as [n|]; simpl; [|done]. by intros ->. Qed.
Lemma hasData_Some n d : n ≫= Data = Some d → hasData n = true.
Proof. destruct n as [n|]; simpl; [|done]. by intros ->. Qed.

Lemma search_spec_child node p r :
  head (omap (λ q, data_at node (p :: q)) (candidates r)) =
  (match getChild node p with Some c => search_spec (data_at c) r | None => None end).
Proof.
  simpl. destruct (getChild node p) as [c|]; [done|].
  induction (candidates r) as [|q l IH]; [done|]. exact IH.
Qed.

(** The recursive search returns the data of the first candidate that has any. *)
Lemma search_path_spec r : ∀ node,
  search_path node r ≫= Data = search_spec (data_at node) r.
Proof.
  induction r as [|p r IH]; intros node.
  { unfold search_spec. simpl. by destruct (Data node). }
  unfold search_spec. cbn [candidates search_path].
  rewrite !omap_app, !head_app, !omap_cons_fmap, !search_spec_child.
  set (n1 := match getChild node p with Some c => search_path c r | None => None end).
  set (n2 := match getChild node wildcard with Some c => search_path c r | None => None end).
  assert (n1 ≫= Data = match getChild node p with Some c => search_spec (data_at c) r | None => None end) as <-.
  { unfold n1. destruct (getChild node p); [apply IH|done]. }
  assert (n2 ≫= Data = match getChild node wildcard with Some c => search_spec (data_at c) r | None => None end) as <-.
  { unfold n2. destruct (getChild node wildcard); [apply IH|done]. }
  destruct (n1 ≫= Data) eqn:E1; [by rewrite (hasData_Some _ _ E1), E1|].
  rewrite (hasData_None _ E1).
  destruct (n2 ≫= Data) eqn:E2; [by rewrite (hasData_Some _ _ E2), E2|].
  rewrite (hasData_None _ E2). simpl. destruct (getChild node dotWildcard) as [c|]; simpl; [|done].
  by destruct (Data c).
Qed.

(** A pattern (reversed) matches a domain (reversed). *)
Inductive pmatch : list gostring → list gostring → Prop :=
| pmatch_nil : pmatch [] []
| pmatch_label p q r : pmatch q r → pmatch (p :: q) (p :: r)
| pmatch_wildcard p q r : pmatch q r → pmatch (wildcard :: q) (p :: r)
| pmatch_dot p r : pmatch [dotWildcard] (p :: r).

Lemma candidates_pmatch q r : q ∈ candidates r ↔ pmatch q r.
Proof.
  revert q. induction r as [|p r IH]; intros q; simpl.
  - rewrite list_elem_of_singleton. split; [intros ->; constructor|by inversion 1].
  - rewrite !elem_of_app, list_elem_of_singleton, !list_elem_of_fmap. split.
    + intros [(q' & -> & Hq%IH)|[(q' & -> & Hq%IH)| ->]]; by constructor.
    + inversion 1; subst; [left|right; left|by right; right]; eexists; by rewrite IH.
Qed.

(** The patterns one insertion adds. *)
Definition patterns (domain : gostring) : list (list gostring) :=
  match ValidAndSplitDomain domain with
  | Some (p0 :: rest) =>
      if decide (p0 = complexWildcard) then [reverse rest; reverse (dotWildcard :: rest)]
      else [reverse (p0 :: rest)]
  | _ => []
  end.

Lemma data_at_Insert t domain data q :
  data_at (fst (Insert t domain data)) q =
  if decide (q ∈ patterns domain) then Some data else data_at t q.
Proof.
  unfold Insert, patterns. destruct (ValidAndSplitDomain domain) as [[|p0 rest]|] eqn:E; [done| |done].
  destruct (decide (p0 = complexWildcard)); simpl; unfold insert; rewrite ?data_at_insert_path;
    repeat case_decide; set_solver.
Qed.

(** Insertions in order; a later one overrides. *)
Definition build (l : list (gostring * D)) : Node :=
  foldl (λ t e, fst (Insert t e.1 e.2)) New l.
Definition stored (l : list (gostring * D)) (q : list gostring) : option D :=
  foldl (λ d e, if decide (q ∈ patterns e.1) then Some e.2 else d) None l.

Lemma data_at_build l q : data_at (build l) q = stored l q.
Proof.
  unfold build, stored. rewrite <-(data_at_newNode q). change (newNode None) with New.
  generalize New as t.
  induction l as [|e l IH]; intros t; [done|]. simpl. by rewrite IH, data_at_Insert.
Qed.

Lemma search_spec_ext (f g : list gostring → option D) r :
  (∀ q, f q = g q) → search_spec f r = search_spec g r.
Proof.
  intros H. unfold search_spec. f_equal. induction (candidates r) as [|q l IH]; [done|].
  cbn. rewrite H. destruct (g q); [f_equal|]; exact IH.
Qed.

Lemma stored_None l q : stored l q = None ↔ ∀ e, e ∈ l → q ∉ patterns e.1.
Proof.
  unfold stored. induction l as [|e l IH] using rev_ind; [set_solver|].
  rewrite foldl_snoc. case_decide; set_solver.
Qed.

Lemma search_spec_None (f : list gostring → option D) r :
  search_spec f r = None ↔ ∀ q, pmatch q r → f q = None.
Proof.
  unfold search_spec. setoid_rewrite <-candidates_pmatch.
  induction (candidates r) as [|q l IH]; simpl; [set_solver|].
  split.
  - destruct (f q) eqn:E; [done|]. rewrite IH. intros Hn q' [->|Hq]%elem_of_cons; auto.
  - intros Hn. rewrite (Hn q) by (by left). rewrite IH. intros q' Hq. apply Hn. by right.
Qed.

Definition valid_target (domain : gostring) (r : list gostring) : Prop :=
  ∃ parts, ValidAndSplitDomain domain = Some parts ∧ head parts ≠ Some [] ∧ r = reverse parts.

Lemma Search_spec l domain r :
  valid_target domain r →
  Search (build l) domain ≫= Data = search_spec (stored l) r.
Proof.
  intros (parts & Hv & Hh & ->). unfold Search. rewrite Hv.
  rewrite <-(search_spec_ext _ _ _ (data_at_build l)), <-search_path_spec.
  change (search_path (build l) (reverse parts)) with (search (build l) parts).
  set (n := search (build l) parts).
  assert ((if hasData n then n else None) ≫= Data = n ≫= Data) as Hn.
  { unfold hasData. destruct n as [n|]; [|done]. simpl. by destruct (Data n) eqn:Ed. }
  destruct parts as [|[|c p0] rest]; [exact Hn|done|exact Hn].
Qed.

Lemma Search_Data t domain : Search t domain ≫= Data = None → Search t domain = None.
Proof.
  unfold Search. destruct (ValidAndSplitDomain domain) as [parts|]; [|done].
  assert (∀ n, (if hasData n then n else None) ≫= Data = None → (if hasData n then n else None) = None) as Hn.
  { intros n. destruct (hasData n) eqn:E; [|done]. intros H%hasData_None. congruence. }
  destruct parts as [|[|c p] ps]; [apply Hn|done|apply Hn].
Qed.
End Trie.
Arguments Node : clear implicits.

(** C35 (equivalence): searching a trie built by any sequence of insertions
    returns the data of the first stored pattern among the candidates of the
    domain in priority order (at each label, from the top-level one down: the
    label itself, then ["*"], then the dot wildcard), a later insertion of the
    same pattern overriding an earlier one. *)
Theorem trie_search_first_match {D} (l : list (gostring * D)) (domain : gostring) r :
  valid_target domain r →
  Search (build l) domain ≫= Data = head (omap (stored l) (candidates r)).
Proof. apply Search_spec. Qed.

Lemma trie_search_first_match_witness :
  Search (build [(str ".dev", 0); (str "example.dev", 1); (str "*.example.dev", 2);
                 (str "test.example.dev", 3)]) (str "foo.example.dev") ≫= Data = Some 2.
Proof.
  rewrite (trie_search_first_match _ _ [str "dev"; str "example"; str "foo"]).
  - vm_compute. reflexivity.
  - eexists. split; [vm_compute; reflexivity|]. split; [discriminate|reflexivity].
Defined.

Lemma Search_complete {D} (l : list (gostring * D)) (domain : gostring) r :
  valid_target domain r →
  Search (build l) domain ≠ None ↔ ∃ e q, e ∈ l ∧ q ∈ patterns e.1 ∧ pmatch q r.
Proof.
  intros Hv. pose proof (Search_spec l domain r Hv) as Hs.
  assert (Search (build l) domain = None ↔ search_spec (stored l) r = None) as Hn.
  { rewrite <-Hs. split; [by intros ->|]. apply Search_Data. }
  rewrite Hn, search_spec_None. setoid_rewrite stored_None. split.
  - intros Hne. destruct (decide (Exists (λ q, Exists (λ e, q ∈ patterns e.1) l) (candidates r))) as [Hx|Hx].
    + apply Exists_exists in Hx as (q & Hq & (e & He & Hp)%Exists_exists).
      exists e, q. by rewrite <-candidates_pmatch.
    + exfalso. apply Hne. intros q Hq e He Hp. apply Hx. apply Exists_exists.
      exists q. rewrite candidates_pmatch. split; [done|]. apply Exists_exists. eauto.
  - intros (e & q & He & Hp & Hm) Hall. by eapply Hall.
Qed.

(** A search succeeds exactly when some inserted domain has a
    pattern that matches; no stored pattern is ever missed because of another. *)
Theorem trie_search_complete {D} (l : list (gostring * D)) (domain : gostring) r :
  valid_target domain r →
  Search (build l) domain ≠ None ↔ ∃ e q, e ∈ l ∧ q ∈ patterns e.1 ∧ pmatch q r.
Proof. apply Search_complete. Qed.

Lemma trie_search_complete_witness :
  Search (build [(str "+.foo.com", 7)]) (str "a.b.foo.com") ≠ None.
Proof.
  apply (trie_search_complete _ _ [str "com"; str "foo"; str "b"; str "a"]).
  - eexists. split; [vm_compute; reflexivity|]. split; [discriminate|reflexivity].
  - exists (str "+.foo.com", 7), [str "com"; str "foo"; []]. split_and!.
    + left.
    + apply list_elem_of_lookup. exists 1%nat. vm_compute. reflexivity.
    + repeat constructor.
Defined.
