(* ===== verification/OrdMap.v ===== *)
(** * Packages ordmap and selector: the insertion-ordered map and the proxy
    selector built on it.

    Models [src/util/ordmap/map.go] and [src/selector/selector.go]. As in the
    cache, a list element is its number; [record] maps a key to the element of
    its latest [Store], and the list may hold elements no key maps to any more. *)
From S2P Require Import Prelude GoNet.

Module ordmap.
Section OrdMap.
Context {K V : Type} `{Countable K}.

(** [ll = None]: the list is nil, before the first [Store]. [ents]: the entry
    every element holds. *)
Record OrderedMap := MkOrderedMap {
  ll : option (list nat);
  ents : gmap nat (K * V);
  record : gmap K nat;
  next : nat;
}.
Definition empty : OrderedMap := MkOrderedMap None ∅ ∅ 0.

Definition Size (m : OrderedMap) : nat :=
  match ll m with None => 0 | Some l => length l end.

Definition Store (key : K) (value : V) (m : OrderedMap) : OrderedMap :=
  MkOrderedMap (Some (default [] (ll m) ++ [next m])) (<[next m := (key, value)]> (ents m))
               (<[key := next m]> (record m)) (S (next m)).

Definition Load (key : K) (m : OrderedMap) : option V :=
  match record m !! key with
  | None => None
  | Some e => snd <$> ents m !! e
  end.

Definition Delete (key : K) (m : OrderedMap) : OrderedMap :=
  match record m !! key with
  | None => m
  | Some e => MkOrderedMap (filter (λ i, i ≠ e) <$> ll m) (ents m) (delete key (record m)) (next m)
  end.

Definition First (m : OrderedMap) : option V :=
  match ll m with
  | None => None
  | Some [] => None
  | Some (f :: _) => snd <$> ents m !! f
  end.

(** The loop of [Range] and [UnorderedRange] over the entries in the order
    they are visited; the callback has a state and stops the loop by [false]. *)
Fixpoint range_loop {S} (f : S → K → V → S * bool) (es : list (K * V)) (s : S) : S :=
  match es with
  | [] => s
  | (k, v) :: r => let '(s', go) := f s k v in if go then range_loop f r s' else s'
  end.

Definition listed (m : OrderedMap) : list (K * V) := omap (λ i, ents m !! i) (default [] (ll m)).
Definition Range {S} (f : S → K → V → S * bool) (m : OrderedMap) (s : S) : S :=
  match ll m with None => s | Some _ => range_loop f (listed m) s end.

(** Go visits a map in no fixed order. *)
Definition UnorderedRange {S} (f : S → K → V → S * bool) (m : OrderedMap) (s s' : S) : Prop :=
  ∃ order, order ≡ₚ map_to_list (record m) ∧
    s' = range_loop f (omap (λ e, (λ x : K * V, (e.1, x.2)) <$> ents m !! e.2) order) s.

(** ** Specification: a finite map, and the entries in insertion order *)

Inductive op := OStore (k : K) (v : V) | ODelete (k : K).
Definition run1 (m : OrderedMap) (o : op) : OrderedMap :=
  match o with OStore k v => Store k v m | ODelete k => Delete k m end.
Definition run (os : list op) : OrderedMap := foldl run1 empty os.

Definition spec1 (g : gmap K V) (o : op) : gmap K V :=
  match o with OStore k v => <[k := v]> g | ODelete k => delete k g end.
Definition spec (os : list op) : gmap K V := foldl spec1 ∅ os.

Definition list1 (l : list (K * V)) (o : op) : list (K * V) :=
  match o with OStore k v => l ++ [(k, v)] | ODelete k => filter (λ e, e.1 ≠ k) l end.
Definition in_order (os : list op) : list (K * V) := foldl list1 [] os.

(** No [Store] of a key the map already has. *)
Fixpoint fresh_stores (g : gmap K V) (os : list op) : bool :=
  match os with
  | [] => true
  | o :: r =>
      match o with
      | OStore k _ => match g !! k with Some _ => false | None => fresh_stores (spec1 g o) r end
      | ODelete _ => fresh_stores (spec1 g o) r
      end
  end.

Record Inv (m : OrderedMap) (g : gmap K V) : Prop := {
  inv_next : ∀ i, next m ≤ i → ents m !! i = None;
  inv_ll : ∀ i, i ∈ default [] (ll m) → is_Some (ents m !! i);
  inv_nodup : NoDup (default [] (ll m));
  inv_rec : ∀ k i, record m !! k = Some i →
    i ∈ default [] (ll m) ∧ ∃ v, ents m !! i = Some (k, v) ∧ g !! k = Some v;
  inv_dom : ∀ k, record m !! k = None → g !! k = None;
}.

Lemma Inv_empty : Inv empty ∅.
Proof. split; simpl; intros; [done|set_solver|constructor|by simplify_map_eq|done]. Qed.

Lemma Inv_below m g i : Inv m g → i ∈ default [] (ll m) → i < next m.
Proof.
  intros HI Hi. destruct (decide (next m ≤ i)) as [Hle|]; [|lia].
  destruct (inv_ll _ _ HI i Hi) as [x Ex]. rewrite (inv_next _ _ HI i Hle) in Ex. done.
Qed.

Lemma Inv_Store m g k v : Inv m g → Inv (Store k v m) (<[k := v]> g).
Proof.
  intros HI. pose proof (Inv_below m g) as Hb. split; simpl.
  - intros i Hi. rewrite lookup_insert_ne by lia. apply (inv_next _ _ HI). lia.
  - intros i [Hi| ->%list_elem_of_singleton]%elem_of_app.
    + rewrite lookup_insert_ne by (specialize (Hb i HI Hi); lia). by apply (inv_ll _ _ HI).
    + rewrite lookup_insert_eq. eauto.
  - apply NoDup_app. split_and!; [apply HI| |apply NoDup_singleton].
    intros i Hi ->%list_elem_of_singleton. specialize (Hb _ HI Hi). lia.
  - intros k' i Hk. destruct (decide (k' = k)) as [->|Hne].
    + rewrite lookup_insert_eq in Hk. simplify_eq. split; [set_solver|].
      exists v. by rewrite !lookup_insert_eq.
    + rewrite lookup_insert_ne in Hk by done. destruct (inv_rec _ _ HI _ _ Hk) as (Hi & x & Ex & Eg).
      split; [set_solver|]. exists x. specialize (Hb _ HI Hi).
      rewrite lookup_insert_ne by lia. by rewrite lookup_insert_ne.
  - intros k'. destruct (decide (k' = k)) as [->|Hne]; [by rewrite lookup_insert_eq|].
    rewrite !lookup_insert_ne by done. apply HI.
Qed.

Lemma Inv_Delete m g k : Inv m g → Inv (Delete k m) (delete k g).
Proof.
  intros HI. unfold Delete. destruct (record m !! k) as [e|] eqn:E; [|].
  - destruct (inv_rec _ _ HI _ _ E) as (He & x & Ex & Eg).
    assert (∀ i, i ∈ default [] (filter (λ i, i ≠ e) <$> ll m) ↔ i ≠ e ∧ i ∈ default [] (ll m)) as Hm.
    { intros i. destruct (ll m); simpl; [by rewrite list_elem_of_filter|set_solver]. }
    split; cbn [ll ents record next].
    + apply HI.
    + intros i [_ Hi]%Hm. by apply (inv_ll _ _ HI).
    + pose proof (inv_nodup _ _ HI) as Hn. destruct (ll m); simpl in *; [by apply NoDup_filter|done].
    + intros k' i [Hne Hk]%lookup_delete_Some. destruct (inv_rec _ _ HI _ _ Hk) as (Hi & y & Ey & Ey').
      split; [rewrite Hm; split; [intros ->; congruence|done]|]. exists y. by rewrite lookup_delete_ne.
    + intros k' [->|Hk]%lookup_delete_None; [by rewrite lookup_delete_eq|].
      apply lookup_delete_None. right. by apply (inv_dom _ _ HI).
  - rewrite delete_id by (by apply (inv_dom _ _ HI)). done.
Qed.

Lemma Inv_run os : Inv (run os) (spec os).
Proof.
  induction os as [|o os IH] using rev_ind; [apply Inv_empty|].
  unfold run, spec. rewrite !foldl_snoc. destruct o; [by apply Inv_Store|by apply Inv_Delete].
Qed.

Lemma Load_Inv m g k : Inv m g → Load k m = g !! k.
Proof.
  intros HI. unfold Load. destruct (record m !! k) as [i|] eqn:E.
  - apply (inv_rec _ _ HI) in E as (_ & v & -> & ->). done.
  - by rewrite (inv_dom _ _ HI).
Qed.

(** When no key is stored twice, the list and the map describe the same entries. *)
Definition Fresh (m : OrderedMap) : Prop :=
  ∀ i k v, i ∈ default [] (ll m) → ents m !! i = Some (k, v) → record m !! k = Some i.

Lemma listed_insert (h : gmap nat (K * V)) (l : list nat) i x :
  i ∉ l → omap (λ j, <[i := x]> h !! j) l = omap (λ j, h !! j) l.
Proof.
  induction l as [|j l IH]; intros Hi; [done|]. apply not_elem_of_cons in Hi as [Hne Hi]. cbn.
  rewrite lookup_insert_ne by congruence. case_match; [f_equal|]; by apply IH.
Qed.

Lemma listed_filter (h : gmap nat (K * V)) (l : list nat) k e :
  (∀ i, i ∈ l → ∃ k' v, h !! i = Some (k', v) ∧ (k' = k ↔ i = e)) →
  omap (λ j, h !! j) (filter (λ i, i ≠ e) l) = filter (λ x, x.1 ≠ k) (omap (λ j, h !! j) l).
Proof.
  induction l as [|j l IH]; intros Hl; [done|].
  destruct (Hl j) as (k' & v & E & Hk); [by left|].
  assert (omap (λ j, h !! j) (filter (λ i, i ≠ e) l) = filter (λ x, x.1 ≠ k) (omap (λ j, h !! j) l)) as IH'.
  { apply IH. intros i Hi. apply Hl. by right. }
  rewrite filter_cons. cbn [omap list_omap]. rewrite E, filter_cons. simpl.
  destruct (decide (j ≠ e)), (decide (k' ≠ k)); try tauto.
  cbn [omap list_omap]. rewrite E. f_equal. exact IH'.
Qed.

Lemma fresh_run os : ∀ m g l,
  Inv m g → Fresh m → listed m = l → fresh_stores g os = true →
  listed (foldl run1 m os) = foldl list1 l os ∧ Fresh (foldl run1 m os) ∧ Inv (foldl run1 m os) (foldl spec1 g os).
Proof.
  induction os as [|o os IH]; intros m g l HI HF Hl Hf; [done|]. pose proof (Inv_below m g) as Hb.
  destruct o as [k v|k]; simpl in Hf |- *.
  - destruct (g !! k) eqn:Eg; [done|].
    assert (record m !! k = None) as Er.
    { destruct (record m !! k) eqn:E; [|done]. apply (inv_rec _ _ HI) in E as (_ & ? & _ & ?). congruence. }
    apply (IH _ (<[k:=v]> g)); [by apply Inv_Store| | |done].
    + intros i k' v' [Hi| ->%list_elem_of_singleton]%elem_of_app Ei; simpl in *.
      * rewrite lookup_insert_ne in Ei by (specialize (Hb i HI Hi); lia).
        pose proof (HF _ _ _ Hi Ei). rewrite lookup_insert_ne by congruence. done.
      * rewrite lookup_insert_eq in Ei. simplify_eq. by rewrite lookup_insert_eq.
    + subst l. unfold listed. simpl. rewrite omap_app, listed_insert.
      * cbn. by rewrite lookup_insert_eq.
      * intros Hi. specialize (Hb _ HI Hi). lia.
  - apply (IH _ (delete k g)); [by apply Inv_Delete| | |done].
    + unfold Delete. destruct (record m !! k) as [e|] eqn:E; [|done].
      intros i k' v' Hi Ei. simpl in *.
      assert (i ≠ e ∧ i ∈ default [] (ll m)) as [Hne Hi'].
      { destruct (ll m); simpl in *; [by apply list_elem_of_filter in Hi|set_solver]. }
      pose proof (HF _ _ _ Hi' Ei). rewrite lookup_delete_ne by congruence. done.
    + subst l. unfold Delete. destruct (record m !! k) as [e|] eqn:E.
      * unfold listed. simpl. destruct (inv_rec _ _ HI _ _ E) as (He & x & Ex & _).
        destruct (ll m) as [l|] eqn:El; simpl in *; [|set_solver].
        apply listed_filter. intros i Hi. destruct (inv_ll _ _ HI i) as [[k' v] Ei]; [by rewrite El|].
        exists k', v. split; [done|]. split; [|congruence]. intros ->.
        unfold Fresh in HF. rewrite El in HF. pose proof (HF _ _ _ Hi Ei). congruence.
      * symmetry. apply list_filter_id. intros [k' v] (i & Hi & Ei)%list_elem_of_omap. simpl. intros ->.
        pose proof (HF _ _ _ Hi Ei). congruence.
Qed.
End OrdMap.
Arguments OrderedMap K V {_ _}.
Arguments op : clear implicits.
End ordmap.
Import ordmap.

(** Whatever is stored and deleted, [Load] answers as the
    finite map of the latest stores does. *)
Theorem ordmap_load_refines {K V} `{Countable K} (os : list (ordmap.op K V)) (k : K) :
  Load k (run os) = spec os !! k.
Proof. apply Load_Inv, Inv_run. Qed.

(** As long as no key is stored while present, [Range] visits
    exactly the present entries, in the order of their insertion, and [Size] is
    their number. *)
Theorem ordmap_range_in_order {K V S} `{Countable K} (os : list (ordmap.op K V))
    (f : S → K → V → S * bool) (s : S) :
  fresh_stores ∅ os = true →
  Range f (run os) s = range_loop f (in_order os) s ∧ Size (run os) = length (in_order os).
Proof.
  intros Hf. destruct (fresh_run os empty ∅ []) as (Hl & _ & HI); [apply Inv_empty| |done|done|].
  { intros i k v Hi. simpl in Hi. set_solver. }
  change (foldl run1 empty os) with (run os) in *. change (foldl list1 [] os) with (in_order os) in Hl.
  rewrite <-Hl. unfold Range, Size, listed. pose proof (inv_ll _ _ HI) as Hs.
  destruct (ll (run os)) as [l|]; simpl in *; [|done]. split; [done|].
  clear -Hs. induction l as [|i l IH]; [done|]. cbn. destruct (Hs i) as [x ->]; [by left|]. simpl.
  f_equal. apply IH. intros j Hj. apply Hs. by right.
Qed.

Lemma ordmap_range_in_order_witness :
  let os := [OStore 1 10; OStore 2 20; ODelete 1; OStore 3 30; OStore 1 11]%Z in
  Range (λ s k v, (s ++ [(k, v)], true)) (run os) [] = [(2, 20); (3, 30); (1, 11)]%Z.
Proof.
  intros os. assert (fresh_stores ∅ os = true) as Hf by (vm_compute; reflexivity).
  rewrite (proj1 (ordmap_range_in_order os _ _ Hf)). vm_compute. reflexivity.
Defined.

(** Storing a present key again leaves its old element in the
    list: after deleting the key the map has no entry, yet [Size] still counts
    the old element and [First] can return its value. *)
Theorem ordmap_store_twice_stale {K V} `{Countable K} (k : K) (v1 v2 : V) :
  let m := run [OStore k v1; OStore k v2; ODelete k] in
  Load k m = None ∧ Size m = 1 ∧ First m = Some v1.
Proof.
  unfold run. simpl. unfold Delete. simpl. rewrite lookup_insert_eq. simpl.
  unfold Load, Size, First. simpl. rewrite lookup_delete_eq.
  split_and!; [done..|]. rewrite lookup_insert_ne, lookup_insert_eq by lia. done.
Qed.

(** ** The selector *)
Module selector.
Section Selector.
(** [ctxv.V] and the options a relayer is made of, carried unchanged. *)
Context {V : Type}.

Record Selector := MkSelector {
  tcpProxyNode : OrderedMap gostring V;
  udpProxyNode : OrderedMap gostring V;
}.
Definition NewSelector : Selector := MkSelector empty empty.

(** The relayer an invoker runs: the direct one or a proxy node's. *)
Inductive invoker := Direct | Proxy (v : V).

Definition AddProxy (proxy : gostring) (ctx : V) (s : Selector) : Selector :=
  MkSelector (Store proxy ctx (tcpProxyNode s)) (udpProxyNode s).
Definition AddPacketProxy (proxy : gostring) (ctx : V) (s : Selector) : Selector :=
  MkSelector (tcpProxyNode s) (Store proxy ctx (udpProxyNode s)).

Definition Select (proxy : gostring) (s : Selector) : invoker :=
  match proxy with
  | [] => Direct
  | _ => match Load proxy (tcpProxyNode s) with Some node => Proxy node | None => Direct end
  end.
Definition SelectPacket (proxy : gostring) (s : Selector) : invoker :=
  match proxy with
  | [] => Direct
  | _ => match Load proxy (udpProxyNode s) with Some node => Proxy node | None => Direct end
  end.

(** Registrations: TCP ([true]) or UDP ([false]), name, node. *)
Definition register (s : Selector) (r : bool * gostring * V) : Selector :=
  let '(tcp, name, v) := r in if tcp then AddProxy name v s else AddPacketProxy name v s.
Definition configured (rs : list (bool * gostring * V)) : Selector := foldl register NewSelector rs.

(** The node of the latest registration of a name. *)
Definition latest (tcp : bool) (name : gostring) (rs : list (bool * gostring * V)) : option V :=
  foldl (λ acc r, let '(t, n, v) := r in
                  if decide (t = tcp ∧ n = name) then Some v else acc) None rs.

Definition stores (tcp : bool) (rs : list (bool * gostring * V)) : list (op gostring V) :=
  omap (λ r, if bool_decide (r.1.1 = tcp) then Some (OStore r.1.2 r.2) else None) rs.

Lemma configured_maps rs :
  tcpProxyNode (configured rs) = run (stores true rs) ∧
  udpProxyNode (configured rs) = run (stores false rs).
Proof.
  induction rs as [|[[t n] v] rs [IH1 IH2]] using rev_ind; [done|].
  unfold configured. rewrite foldl_snoc. fold (configured rs). unfold stores, run in *.
  rewrite !omap_app, !foldl_app, <-IH1, <-IH2. by destruct t.
Qed.

Lemma latest_spec tcp name rs : spec (stores tcp rs) !! name = latest tcp name rs.
Proof.
  induction rs as [|[[t n] v] rs IH] using rev_ind; [done|].
  unfold latest. rewrite foldl_snoc. fold (latest tcp name rs). rewrite <-IH.
  unfold stores, spec. rewrite omap_app, foldl_app. cbn. case_bool_decide; cbn.
  - destruct (decide (n = name)) as [->|]; [rewrite decide_True by done; by rewrite lookup_insert_eq|].
    rewrite decide_False by tauto. by rewrite lookup_insert_ne.
  - by rewrite decide_False by tauto.
Qed.
End Selector.
Arguments Selector : clear implicits.
Arguments invoker : clear implicits.
End selector.
Import selector.

(** A non-empty proxy name selects the node registered last
    under that name for the transport; the empty name and a name with no node
    for the transport select the direct relayer. *)
Theorem selector_latest {V} (rs : list (bool * gostring * V)) (name : gostring) :
  let pick tcp := if decide (name = []) then Direct
                  else match latest tcp name rs with Some v => Proxy v | None => Direct end in
  Select name (configured rs) = pick true ∧ SelectPacket name (configured rs) = pick false.
Proof.
  destruct (configured_maps rs) as [H1 H2]. unfold Select, SelectPacket. rewrite H1, H2.
  rewrite !(Load_Inv _ _ _ (Inv_run _)), <-!latest_spec. simpl.
  by destruct name as [|c r].
Qed.
