(* ===== verification/Rule.v ===== *)
(** * Package rule: matchers, the ruler and its selection of a proxy.

    Models [src/rule/*.go], [QueryCountryByIP] of [src/geoip/query.go] and
    [BuildRuler] of [src/config/config.go]. The target of a match is a pointer to
    a string that the IP matchers overwrite with the resolved address, so it is
    threaded through the matchers. The resolver ([LookupHost]) and the GeoIP
    database ([db_Country]) are parameters. *)
From S2P Require Import Prelude GoIO GoNet Trie.
Local Open Scope Z_scope.

Inductive RuleMode := Global | Direct | Match.
#[export] Instance RuleMode_eq_dec : EqDecision RuleMode.
Proof. solve_decision. Defined.

Definition RuleMode_String (m : RuleMode) : gostring :=
  match m with Global => str "GLOBAL" | Direct => str "DIRECT" | Match => str "MATCH" end.

Inductive RuleType :=
| RuleNoType
| RuleDomain
| RuleDomainKeyword
| RuleDomainSuffix
| RuleGeoIP
| RuleIPCIDR
| RuleOthers.
#[export] Instance RuleType_eq_dec : EqDecision RuleType.
Proof. solve_decision. Defined.

Definition IndexToRuleType : list RuleType :=
  [RuleDomain; RuleDomainKeyword; RuleDomainSuffix; RuleGeoIP; RuleIPCIDR; RuleOthers].

Record RuleItem := MkRuleItem {
  ri_mode : RuleMode;
  ri_type : RuleType;
  Proxy : gostring;
  Value : list gostring;
  Resolve : bool;
  Accept : bool;
}.
#[export] Instance RuleItem_eq_dec : EqDecision RuleItem.
Proof. solve_decision. Defined.

Definition errEmptyGlobalProxyNode := errNew "empty global proxy node".
Definition ErrRuleMatchDropped := errNew "rule matched dropped".

(** A matcher with the result of its latest successful match. *)
Inductive Matcher :=
| domainRule (t : Node RuleItem) (result : option RuleItem)
| domainSuffixRule (t : Node RuleItem) (result : option RuleItem)
| domainKeywordRule (R : list RuleItem) (result : option RuleItem)
| geoipRule (R : list RuleItem) (result : option RuleItem)
| ipCIDRRule (R : list RuleItem) (result : option RuleItem)
| otherRule (R : RuleItem).

Definition MatchedResult (m : Matcher) : option RuleItem :=
  match m with
  | domainRule _ r | domainSuffixRule _ r | domainKeywordRule _ r | geoipRule _ r | ipCIDRRule _ r => r
  | otherRule r => Some r
  end.

(** The nested loops that fill the trie. *)
Definition rule_domains (pre : gostring) (rules : list RuleItem) : list (gostring * RuleItem) :=
  rules ≫= λ ri, (λ v, (pre ++ v, ri)) <$> Value ri.
Definition newDomainRule (rules : list RuleItem) : Matcher :=
  domainRule (build (rule_domains [] rules)) None.
Definition newDomainSuffixRule (rules : list RuleItem) : Matcher :=
  domainSuffixRule (build (rule_domains (str "+.") rules)) None.

(** [rules[0]] panics when there are none. *)
Definition newRuleMatcher (ruleType : RuleType) (rules : list RuleItem) : res Matcher :=
  match ruleType with
  | RuleDomain => Ret (newDomainRule rules)
  | RuleDomainSuffix => Ret (newDomainSuffixRule rules)
  | RuleDomainKeyword => Ret (domainKeywordRule rules None)
  | RuleGeoIP => Ret (geoipRule rules None)
  | RuleIPCIDR => Ret (ipCIDRRule rules None)
  | RuleOthers => r ← GoIO.index rules 0; Ret (otherRule r)
  | RuleNoType => Panic
  end.

Record Ruler := MkRuler {
  r_mode : RuleMode;
  matched : option RuleItem;
  MS : list Matcher;
  DirectTo : gostring;
  GlobalTo : gostring;
}.

Fixpoint newMatchers (i : nat) (allRules : list (list RuleItem)) : res (list Matcher) :=
  match allRules with
  | [] => Ret []
  | rules :: r =>
      ty ← GoIO.index IndexToRuleType i;
      m ← newRuleMatcher ty rules;
      ms ← newMatchers (S i) r;
      Ret (m :: ms)
  end.

Definition NewRuler (mode : RuleMode) (directTo globalTo : gostring)
    (allRules : list (list RuleItem)) : res Ruler :=
  matchers ← newMatchers 0 allRules;
  let directTo' := if decide (directTo = str "direct" ∨ directTo = str "global") then [] else directTo in
  let globalTo' := if decide (globalTo = str "global" ∨ globalTo = str "direct") then [] else globalTo in
  Ret (MkRuler mode None matchers directTo' globalTo').

(** The first rule whose some value satisfies [f]. *)
Fixpoint first_rule (f : gostring → bool) (R : list RuleItem) : option RuleItem :=
  match R with
  | [] => None
  | rx :: r => if existsb f (Value rx) then Some rx else first_rule f r
  end.

Section Matching.
(** The default resolver's [LookupHost] and the country database. *)
Context (LookupHost : gostring → Addr) (db_Country : Addr → option gostring).

Definition QueryCountryByIP (ip : Addr) : gostring :=
  if IsValid ip then default [] (db_Country ip) else [].

Definition trie_match (t : Node RuleItem) (target : gostring) : option RuleItem :=
  match target with
  | [] => None
  | _ => Search t target ≫= Data
  end.

(** The resolution step of the IP matchers: a rule with [Resolve] replaces a
    target that is not an address by the address it resolves to. *)
Definition resolve_target (rx : RuleItem) (target : gostring) : gostring :=
  if Resolve rx then
    match ParseAddr target with
    | Some _ => target
    | None => let ip := LookupHost target in if IsValid ip then Addr_String ip else target
    end
  else target.

(** The loop of [geoipRule.Match]. *)
Fixpoint geoip_loop (R : list RuleItem) (target : gostring) : gostring * option RuleItem :=
  match R with
  | [] => (target, None)
  | rx :: r =>
      let target' := resolve_target rx target in
      let ip := default AddrNone (ParseAddr target') in
      if existsb (λ rule, bool_decide (rule = QueryCountryByIP ip)) (Value rx)
      then (target', Some rx) else geoip_loop r target'
  end.

(** The values of one CIDR rule; [netip.MustParsePrefix] panics on a bad one. *)
Fixpoint cidr_values (vs : list gostring) (ip : Addr) : res bool :=
  match vs with
  | [] => Ret false
  | rule :: r =>
      match ParsePrefix rule with
      | None => Panic
      | Some subnet => if Prefix_Contains subnet ip then Ret true else cidr_values r ip
      end
  end.
Fixpoint ipcidr_loop (R : list RuleItem) (target : gostring) : gostring * res (option RuleItem) :=
  match R with
  | [] => (target, Ret None)
  | rx :: r =>
      let target' := resolve_target rx target in
      let ip := default AddrNone (ParseAddr target') in
      match cidr_values (Value rx) ip with
      | Ret true => (target', Ret (Some rx))
      | Ret false => ipcidr_loop r target'
      | Fail e => (target', Fail e)
      | Panic => (target', Panic)
      end
  end.

(** One matcher's [Match]: its new state, the new target, whether it matched. *)
Definition Matcher_Match (m : Matcher) (target : gostring) : Matcher * gostring * res bool :=
  match m with
  | domainRule t r =>
      match trie_match t target with
      | Some d => (domainRule t (Some d), target, Ret true)
      | None => (m, target, Ret false)
      end
  | domainSuffixRule t r =>
      match trie_match t target with
      | Some d => (domainSuffixRule t (Some d), target, Ret true)
      | None => (m, target, Ret false)
      end
  | domainKeywordRule R r =>
      match target with
      | [] => (m, target, Ret false)
      | _ => match first_rule (contains target) R with
             | Some rx => (domainKeywordRule R (Some rx), target, Ret true)
             | None => (m, target, Ret false)
             end
      end
  | geoipRule R r =>
      match geoip_loop R target with
      | (target', Some rx) => (geoipRule R (Some rx), target', Ret true)
      | (target', None) => (m, target', Ret false)
      end
  | ipCIDRRule R r =>
      match ipcidr_loop R target with
      | (target', Ret (Some rx)) => (ipCIDRRule R (Some rx), target', Ret true)
      | (target', Ret None) => (m, target', Ret false)
      | (target', Fail e) => (m, target', Fail e)
      | (target', Panic) => (m, target', Panic)
      end
  | otherRule R => (m, target, Ret (if decide (Proxy R = []) then false else true))
  end.

(** The loop of [Ruler.Match] over the matchers. *)
Fixpoint match_loop (ms : list Matcher) (target : gostring) (old : option RuleItem)
    : list Matcher * gostring * option RuleItem * res bool :=
  match ms with
  | [] => ([], target, old, Ret false)
  | m :: r =>
      match Matcher_Match m target with
      | (m', target', Ret true) =>
          let matched := MatchedResult m' in
          (m' :: r, target', matched,
           match matched with
           | Some ri => if Accept ri then Ret true else Ret false
           | None => Panic
           end)
      | (m', target', Ret false) =>
          let '(r', target'', matched, ok) := match_loop r target' old in
          (m' :: r', target'', matched, ok)
      | (m', target', Fail e) => (m' :: r, target', old, Fail e)
      | (m', target', Panic) => (m' :: r, target', old, Panic)
      end
  end.

Definition auto_item (mode : RuleMode) : RuleItem :=
  MkRuleItem mode RuleNoType (str "auto-select") [] false true.

Definition Ruler_Match (target : gostring) (r : Ruler) : Ruler * gostring * res bool :=
  match r_mode r with
  | Global | Direct =>
      (MkRuler (r_mode r) (Some (auto_item (r_mode r))) (MS r) (DirectTo r) (GlobalTo r), target, Ret true)
  | Match =>
      let '(ms, target', m, ok) := match_loop (MS r) target (matched r) in
      (MkRuler (r_mode r) m ms (DirectTo r) (GlobalTo r), target', ok)
  end.

(** [Select]; a nil [matched] panics. *)
Definition Select (r : Ruler) : res gostring :=
  match matched r with
  | None => Panic
  | Some ri =>
      let mode := ri_mode ri in
      let global := match GlobalTo r with [] => Fail errEmptyGlobalProxyNode | p => Ret p end in
      let direct := Ret (DirectTo r) in
      match mode with
      | Match =>
          if decide (Proxy ri = str "global") then global
          else if decide (Proxy ri = str "direct") then direct
          else match Proxy ri with [] => Fail ErrRuleMatchDropped | p => Ret p end
      | Global => global
      | Direct => direct
      end
  end.

(** ** Specification: matching is a function of the rules and the target *)

(** Matchers up to the remembered results. *)
Definition forget (m : Matcher) : Matcher :=
  match m with
  | domainRule t _ => domainRule t None
  | domainSuffixRule t _ => domainSuffixRule t None
  | domainKeywordRule R _ => domainKeywordRule R None
  | geoipRule R _ => geoipRule R None
  | ipCIDRRule R _ => ipCIDRRule R None
  | otherRule R => otherRule R
  end.

(** The rule the matchers pick, if any. *)
Definition pick1 (m : Matcher) (target : gostring) : gostring * res (option RuleItem) :=
  match m with
  | domainRule t _ | domainSuffixRule t _ => (target, Ret (trie_match t target))
  | domainKeywordRule R _ =>
      (target, Ret (match target with [] => None | _ => first_rule (contains target) R end))
  | geoipRule R _ => let '(t, x) := geoip_loop R target in (t, Ret x)
  | ipCIDRRule R _ => ipcidr_loop R target
  | otherRule R => (target, Ret (if decide (Proxy R = []) then None else Some R))
  end.
Fixpoint pick (ms : list Matcher) (target : gostring) : gostring * res (option RuleItem) :=
  match ms with
  | [] => (target, Ret None)
  | m :: r => match pick1 m target with
              | (t, Ret None) => pick r t
              | (t, x) => (t, x)
              end
  end.

Lemma pick1_forget m t : pick1 (forget m) t = pick1 m t.
Proof. by destruct m. Qed.
Lemma pick_forget ms t : pick (forget <$> ms) t = pick ms t.
Proof.
  revert t. induction ms as [|m ms IH]; intros t; [done|]. simpl. rewrite pick1_forget.
  repeat case_match; eauto.
Qed.

Lemma Matcher_Match_pick1 m target :
  ∃ m', forget m' = forget m ∧
    match pick1 m target with
    | (t, Ret (Some ri)) => Matcher_Match m target = (m', t, Ret true) ∧ MatchedResult m' = Some ri
    | (t, Ret None) => Matcher_Match m target = (m', t, Ret false)
    | (t, Fail e) => Matcher_Match m target = (m', t, Fail e)
    | (t, Panic) => Matcher_Match m target = (m', t, Panic)
    end.
Proof.
  destruct m as [t r|t r|R r|R r|R r|R]; unfold Matcher_Match, pick1.
  - destruct (trie_match t target); eexists; (split; [|done || (split; done)]); done.
  - destruct (trie_match t target); eexists; (split; [|done || (split; done)]); done.
  - destruct target; [eexists; split; done|].
    destruct (first_rule _ R); eexists; (split; [|done || (split; done)]); done.
  - destruct (geoip_loop R target) as [t [x|]]; eexists; (split; [|done || (split; done)]); done.
  - destruct (ipcidr_loop R target) as [t [[x|]|e|]]; eexists; (split; [|done || (split; done)]); done.
  - destruct (decide (Proxy R = [])); eexists; (split; [|done || (split; done)]); done.
Qed.

Lemma match_loop_pick ms : ∀ target old ms' t' m ok,
  match_loop ms target old = (ms', t', m, ok) →
  forget <$> ms' = forget <$> ms ∧
  match pick ms target with
  | (t, Ret (Some ri)) => t' = t ∧ m = Some ri ∧ ok = Ret (Accept ri)
  | (t, Ret None) => t' = t ∧ m = old ∧ ok = Ret false
  | (t, Fail e) => t' = t ∧ m = old ∧ ok = Fail e
  | (t, Panic) => t' = t ∧ m = old ∧ ok = Panic
  end.
Proof.
  induction ms as [|m0 ms IH]; intros target old ms' t' m ok H; simpl in *; [by simplify_eq|].
  destruct (Matcher_Match_pick1 m0 target) as (m1 & Hf & Hm).
  destruct (pick1 m0 target) as [t [[ri|]|e|]].
  - destruct Hm as [E Hr]. rewrite E, Hr in H. simplify_eq. simpl. rewrite Hf.
    by destruct (Accept ri).
  - rewrite Hm in H. destruct (match_loop ms t old) as [[[r' t''] m2] ok2] eqn:E. simplify_eq.
    apply IH in E as [E1 E2]. rewrite !fmap_cons. by rewrite Hf, E1.
  - rewrite Hm in H. simplify_eq. simpl. by rewrite Hf.
  - rewrite Hm in H. simplify_eq. simpl. by rewrite Hf.
Qed.

(** Two rulers that differ in what earlier matches left behind only. *)
Definition same_rules (r1 r2 : Ruler) : Prop :=
  r_mode r1 = r_mode r2 ∧ DirectTo r1 = DirectTo r2 ∧ GlobalTo r1 = GlobalTo r2 ∧
  forget <$> MS r1 = forget <$> MS r2.

#[export] Instance same_rules_equiv : Equivalence same_rules.
Proof.
  unfold same_rules. split; [by intros r| |].
  - intros r1 r2 (? & ? & ? & ?). by split_and!.
  - intros r1 r2 r3 (? & ? & ? & ?) (? & ? & ? & ?). split_and!; congruence.
Qed.

Lemma Ruler_Match_same target r r' t ok :
  Ruler_Match target r = (r', t, ok) → same_rules r' r.
Proof.
  unfold Ruler_Match. destruct (r_mode r) eqn:Em; intros H.
  - simplify_eq. unfold same_rules. simpl. by rewrite Em.
  - simplify_eq. unfold same_rules. simpl. by rewrite Em.
  - destruct (match_loop (MS r) target (matched r)) as [[[ms t'] m] ok'] eqn:E. simplify_eq.
    apply match_loop_pick in E as [E _]. unfold same_rules. simpl. by rewrite Em.
Qed.

(** The decision for a target, as a function of the rules: the picked item. *)
Definition decision (r : Ruler) (target : gostring) : gostring * res (option RuleItem) :=
  match r_mode r with
  | Global | Direct => (target, Ret (Some (auto_item (r_mode r))))
  | Match => pick (MS r) target
  end.

Lemma decision_same r1 r2 target : same_rules r1 r2 → decision r1 target = decision r2 target.
Proof.
  intros (Hm & _ & _ & Hms). unfold decision. rewrite Hm. destruct (r_mode r2); try done.
  by rewrite <-pick_forget, Hms, pick_forget.
Qed.

Lemma Ruler_Match_decision target r r' t ok :
  Ruler_Match target r = (r', t, ok) →
  match decision r target with
  | (t', Ret (Some ri)) => t = t' ∧ matched r' = Some ri ∧ ok = Ret (Accept ri)
  | (t', Ret None) => t = t' ∧ matched r' = matched r ∧ ok = Ret false
  | (t', Fail e) => t = t' ∧ matched r' = matched r ∧ ok = Fail e
  | (t', Panic) => t = t' ∧ matched r' = matched r ∧ ok = Panic
  end.
Proof.
  unfold Ruler_Match, decision. destruct (r_mode r) eqn:Em; intros H; try by simplify_eq.
  destruct (match_loop (MS r) target (matched r)) as [[[ms t'] m] ok'] eqn:E. simplify_eq.
  apply match_loop_pick in E as [_ E]. exact E.
Qed.

Lemma match_runs ts : ∀ r r',
  foldl (λ r t, fst (fst (Ruler_Match t r))) r ts = r' → same_rules r' r.
Proof.
  induction ts as [|t ts IH]; intros r r' H; simpl in H; [by subst|].
  apply IH in H. destruct (Ruler_Match t r) as [[r1 t1] ok1] eqn:E. simpl in H.
  etrans; [exact H|]. by eapply Ruler_Match_same.
Qed.
End Matching.

(** ** Matching and selecting: what comes of a target *)

(** The decision of the rules for a name, and the proxy it names. *)
Definition with_matched (ri : RuleItem) (r : Ruler) : Ruler :=
  MkRuler (r_mode r) (Some ri) (MS r) (DirectTo r) (GlobalTo r).
Definition routed (LookupHost : gostring → Addr) db_Country (r : Ruler) (target : gostring) : res (gostring * gostring) :=
  let '(h, x) := decision LookupHost db_Country r target in
  m ← x;
  match m with
  | Some ri => if Accept ri then p ← Select (with_matched ri r); Ret (p, h) else Fail ErrRuleMatchDropped
  | None => Fail ErrRuleMatchDropped
  end.

Lemma Select_same r r' ri : same_rules r' r → matched r' = Some ri → Select r' = Select (with_matched ri r).
Proof. intros (_ & Hd & Hg & _) Hm. unfold Select. simpl. by rewrite Hm, Hd, Hg. Qed.

(** ** [BuildRuler] of the configuration *)
Record rule_entry := RuleEntry {
  re_resolve : bool;
  re_proxy : gostring;
  re_action : gostring;
  re_value : list gostring;
}.
Record cfgMatch := CfgMatch {
  Others : gostring;
  Domains : list rule_entry;
  DomainKeywords : list rule_entry;
  DomainSuffixs : list rule_entry;
  GeoIPs : list rule_entry;
  IPCidrs : list rule_entry;
}.
Record cfgRules := CfgRules {
  Mode : gostring;
  cfg_DirectTo : gostring;
  cfg_GlobalTo : gostring;
  cfg_Match : option cfgMatch;
}.

(** A rule of the configuration; [Domain], [DomainKeyword] and [DomainSuffix]
    have no [Resolve] field. *)
Definition build_item (ty : RuleType) (withResolve : bool) (e : rule_entry) : RuleItem :=
  MkRuleItem Match ty (re_proxy e) (re_value e) (withResolve && re_resolve e)
    (bool_decide (re_action e = str "accept")).

(** [logger.Fatal] exits the process: no result. *)
Definition BuildRuler (rules : option cfgRules) : option (res Ruler) :=
  match rules with
  | None => Some (NewRuler Direct [] [] [])
  | Some cr =>
      let mode := if decide (Mode cr = str "global") then Global
                  else if decide (Mode cr = str "direct") then Direct else Match in
      match mode with
      | Global | Direct => Some (NewRuler mode (cfg_DirectTo cr) (cfg_GlobalTo cr) [])
      | Match =>
          match cfg_Match cr with
          | None => None
          | Some m =>
              Some (NewRuler mode (cfg_DirectTo cr) (cfg_GlobalTo cr)
                [ build_item RuleDomain false <$> Domains m;
                  build_item RuleDomainKeyword false <$> DomainKeywords m;
                  build_item RuleDomainSuffix false <$> DomainSuffixs m;
                  build_item RuleGeoIP true <$> GeoIPs m;
                  build_item RuleIPCIDR true <$> IPCidrs m;
                  [MkRuleItem Match RuleOthers (Others m) [] false true] ])
          end
      end
  end.

(** ** Theorems *)

Lemma newMatchers_six d k s g c o :
  newMatchers 0 [d; k; s; g; c; [o]] =
  Ret [newDomainRule d; domainKeywordRule k None; newDomainSuffixRule s;
       geoipRule g None; ipCIDRRule c None; otherRule o].
Proof. done. Qed.

Lemma cidr_values_ok vs ip :
  (∀ v, v ∈ vs → ParsePrefix v ≠ None) → ∃ b, cidr_values vs ip = Ret b.
Proof.
  induction vs as [|v vs IH]; intros Hv; simpl; [eauto|].
  destruct (ParsePrefix v) as [p|] eqn:E; [|by destruct (Hv v); [left|]].
  case_match; [eauto|]. apply IH. intros. apply Hv. by right.
Qed.

Lemma ipcidr_loop_ok LH R : ∀ t,
  (∀ ri v, ri ∈ R → v ∈ Value ri → ParsePrefix v ≠ None) → ∃ t' x, ipcidr_loop LH R t = (t', Ret x).
Proof.
  induction R as [|rx R IH]; intros t Hv; simpl; [eauto|].
  destruct (cidr_values_ok (Value rx) (default AddrNone (ParseAddr (resolve_target LH rx t)))) as [b ->].
  { intros v. apply Hv. by left. }
  destruct b; [eauto|]. apply IH. intros ri v Hr. apply Hv. by right.
Qed.

Lemma pick_total LH db ms o : ∀ t,
  (∀ m, m ∈ ms → ∀ t, ∃ t' x, pick1 LH db m t = (t', Ret x)) → Proxy o ≠ [] →
  ∃ t' ri, pick LH db (ms ++ [otherRule o]) t = (t', Ret (Some ri)).
Proof.
  induction ms as [|m ms IH]; intros t Hm Ho.
  - simpl. rewrite decide_False by done. eauto.
  - simpl. destruct (Hm m) with t as (t' & [ri|] & ->); [by left|eauto|].
    apply IH; [|done]. intros m' Hm'. apply Hm. by right.
Qed.

(** Whatever was matched before on the same ruler, [Match]
    decides as the rules alone say: in global and direct mode the automatic item;
    in match mode the item of the first matcher, in the order of the matchers,
    that picks one, the address resolved by an earlier IP matcher being what the
    later ones see. It returns [true] exactly if that item is accepted. *)
Theorem ruler_match_history_independent LH db (r : Ruler) (history : list gostring)
    (target : gostring) r' t ok :
  Ruler_Match LH db target (foldl (λ r t, fst (fst (Ruler_Match LH db t r))) r history) = (r', t, ok) →
  match decision LH db r target with
  | (t', Ret (Some ri)) => t = t' ∧ matched r' = Some ri ∧ ok = Ret (Accept ri)
  | (t', Ret None) => t = t' ∧ ok = Ret false
  | (t', Fail e) => t = t' ∧ ok = Fail e
  | (t', Panic) => t = t' ∧ ok = Panic
  end.
Proof.
  intros H. apply Ruler_Match_decision in H.
  rewrite (decision_same LH db _ r) in H by (by eapply match_runs).
  repeat case_match; naive_solver.
Qed.

Definition demo_rules : option cfgRules :=
  Some (CfgRules (str "match") [] (str "proxy-g")
    (Some (CfgMatch (str "direct")
      [RuleEntry false (str "p1") (str "accept") [str "example.com"]]
      [RuleEntry false (str "p2") (str "drop") [str "ads"]]
      [RuleEntry false (str "global") (str "accept") [str "google.com"]]
      []
      [RuleEntry false (str "p3") (str "accept") [str "10.0.0.0/8"]]))).
Definition demo_ruler : Ruler :=
  match BuildRuler demo_rules with Some (Ret r) => r | _ => MkRuler Direct None [] [] [] end.
Definition no_lookup : gostring → Addr := λ _, AddrNone.
Definition no_country : Addr → option gostring := λ _, None.

Lemma ruler_match_history_independent_witness :
  ∃ r', matched r' = Some (MkRuleItem Match RuleDomainSuffix (str "global") [str "google.com"] false true).
Proof.
  eexists. edestruct (ruler_match_history_independent no_lookup no_country demo_ruler
    [str "example.com"; str "10.1.2.3"] (str "www.google.com")) as (_ & H & _);
    [vm_compute; reflexivity|]. exact H.
Defined.

(** A configuration always yields a ruler (unless the match
    section is missing, which ends the process); with an [others] proxy and
    well-formed CIDR values every target gets a rule and no match panics. *)
Theorem build_ruler_total LH db (cr : cfgRules) (target : gostring) :
  (∃ m, cfg_Match cr = Some m ∧ Others m ≠ [] ∧
        ∀ e v, e ∈ IPCidrs m → v ∈ re_value e → ParsePrefix v ≠ None) →
  ∃ r t ri, BuildRuler (Some cr) = Some (Ret r) ∧ decision LH db r target = (t, Ret (Some ri)).
Proof.
  intros (m & Hm & Ho & Hc). unfold BuildRuler. rewrite Hm.
  destruct (decide (Mode cr = str "global")).
  { do 3 eexists. split; [reflexivity|]. reflexivity. }
  destruct (decide (Mode cr = str "direct")).
  { do 3 eexists. split; [reflexivity|]. reflexivity. }
  unfold NewRuler. rewrite newMatchers_six. eexists.
  cut (∃ t ri, pick LH db [newDomainRule (build_item RuleDomain false <$> Domains m);
      domainKeywordRule (build_item RuleDomainKeyword false <$> DomainKeywords m) None;
      newDomainSuffixRule (build_item RuleDomainSuffix false <$> DomainSuffixs m);
      geoipRule (build_item RuleGeoIP true <$> GeoIPs m) None;
      ipCIDRRule (build_item RuleIPCIDR true <$> IPCidrs m) None;
      otherRule (MkRuleItem Match RuleOthers (Others m) [] false true)] target = (t, Ret (Some ri))).
  { intros (t & ri & H). exists t, ri. split; [reflexivity|exact H]. }
  apply (pick_total LH db [_; _; _; _; _]); [|done].
  intros m' Hm' t. repeat (apply elem_of_cons in Hm' as [->|Hm']); [simpl; eauto..| | |by apply not_elem_of_nil in Hm'].
  - simpl. destruct (geoip_loop LH db _ t). eauto.
  - apply ipcidr_loop_ok. intros ri v (e & -> & He)%list_elem_of_fmap Hv. by apply (Hc e).
Qed.

Lemma build_ruler_total_witness :
  ∃ r t ri, BuildRuler demo_rules = Some (Ret r) ∧
            decision no_lookup no_country r (str "10.9.8.7") = (t, Ret (Some ri)).
Proof.
  apply (build_ruler_total no_lookup no_country _ (str "10.9.8.7")).
  eexists. split; [reflexivity|]. split; [discriminate|].
  intros e v [->|[]%not_elem_of_nil]%elem_of_cons [->|[]%not_elem_of_nil]%elem_of_cons.
  vm_compute. discriminate.
Defined.

(** After an accepting match on a ruler made by [NewRuler],
    [Select] does not panic: global mode, or the rule proxy ["global"], gives the
    configured global node or the error that there is none; direct mode, or the
    rule proxy ["direct"], gives the configured direct node, empty for a direct
    connection; any other rule proxy is returned as it is, and an empty one drops
    the request. The words ["direct"] and ["global"] are never returned as the
    name of a node. *)
Theorem ruler_select_outcome LH db mode dt gt rules r target r' t :
  NewRuler mode dt gt rules = Ret r →
  Ruler_Match LH db target r = (r', t, Ret true) →
  ∃ ri, matched r' = Some ri ∧ Accept ri = true ∧
    (Select r' =
     let global := if decide (GlobalTo r = []) then Fail errEmptyGlobalProxyNode else Ret (GlobalTo r) in
     match ri_mode ri with
     | Global => global
     | Direct => Ret (DirectTo r)
     | Match => if decide (Proxy ri = str "global") then global
                else if decide (Proxy ri = str "direct") then Ret (DirectTo r)
                else if decide (Proxy ri = []) then Fail ErrRuleMatchDropped else Ret (Proxy ri)
     end) ∧ Select r' ≠ Ret (str "direct") ∧ Select r' ≠ Ret (str "global").
Proof.
  intros HN HM. pose proof (Ruler_Match_same _ _ _ _ _ _ _ HM) as (_ & HD & HG & _).
  apply Ruler_Match_decision in HM.
  destruct (decision LH db r target) as [t' [[ri|]|e|]]; try (destruct HM as (_ & _ & ?); discriminate).
  destruct HM as (_ & Hm & Ha). exists ri. split; [done|]. split; [congruence|].
  assert ((DirectTo r ≠ str "direct" ∧ DirectTo r ≠ str "global") ∧
          (GlobalTo r ≠ str "direct" ∧ GlobalTo r ≠ str "global")) as [[HD1 HD2] [HG1 HG2]].
  { unfold NewRuler in HN. destruct (newMatchers 0 rules); simplify_eq/=.
    repeat case_decide; split; split; naive_solver. }
  unfold Select. rewrite Hm, HD, HG. split.
  - destruct (ri_mode ri), (GlobalTo r); try done; repeat case_decide; try done; by destruct (Proxy ri).
  - destruct (ri_mode ri), (GlobalTo r); repeat case_decide; destruct (Proxy ri); naive_solver.
Qed.

Lemma ruler_select_outcome_witness :
  ∃ r', Select r' = Ret (str "proxy-g").
Proof.
  eexists. edestruct (ruler_select_outcome no_lookup no_country Global [] (str "proxy-g") []
    (MkRuler Global None [] [] (str "proxy-g")) (str "example.com")) as (ri & Hm & _ & Hs & _); [reflexivity|vm_compute; reflexivity|].
  rewrite Hs. simpl in Hm. injection Hm as <-. reflexivity.
Defined.

(** The ruler is shared by all connections and [Match] leaves its
    decision in it for a later [Select]. When another connection matches in
    between, [Select] answers with that connection's rule, whatever the first
    target was decided to be. *)
Theorem select_after_other_match LH db (r : Ruler) (t1 t2 : gostring) r1 x1 r2 x2 ri2 u2 :
  Ruler_Match LH db t1 r = (r1, x1, Ret true) →
  Ruler_Match LH db t2 r1 = (r2, x2, Ret true) →
  decision LH db r t2 = (u2, Ret (Some ri2)) →
  matched r2 = Some ri2 ∧
  ∀ r2' y, Ruler_Match LH db t2 r = (r2', y, Ret true) → Select r2 = Select r2'.
Proof.
  intros H1 H2 Hd. pose proof (Ruler_Match_same _ _ _ _ _ _ _ H1) as S1.
  pose proof (Ruler_Match_same _ _ _ _ _ _ _ H2) as S2.
  apply Ruler_Match_decision in H2. rewrite (decision_same LH db r1 r) in H2 by done.
  rewrite Hd in H2. destruct H2 as (_ & Hm & _). split; [done|]. intros r2' y H3.
  pose proof (Ruler_Match_same _ _ _ _ _ _ _ H3) as S3.
  apply Ruler_Match_decision in H3. rewrite Hd in H3. destruct H3 as (_ & Hm' & _).
  destruct (transitivity S2 S1) as (_ & HD & HG & _), S3 as (_ & HD' & HG' & _).
  unfold Select. by rewrite Hm, Hm', HD, HG, HD', HG'.
Qed.

Lemma select_after_other_match_witness :
  ∃ r2, Select r2 = Ret (str "p1") ∧
        decision no_lookup no_country demo_ruler (str "www.google.com") =
        (str "www.google.com", Ret (Some (MkRuleItem Match RuleDomainSuffix (str "global") [str "google.com"] false true))).
Proof.
  eexists. split; [|vm_compute; reflexivity].
  edestruct (select_after_other_match no_lookup no_country demo_ruler (str "www.google.com") (str "example.com"))
    as [_ H]; [vm_compute; reflexivity..|].
  etrans; [eapply H; vm_compute; reflexivity|]. vm_compute. reflexivity.
Defined.

(** ** Suffix rules on strings *)

Lemma split_byte_app sep a b :
  split_byte sep (a ++ sep :: b) = split_byte sep a ++ split_byte sep b.
Proof.
  induction a as [|c a IH]; simpl.
  - by rewrite Z.eqb_refl.
  - case_match; [by rewrite IH|]. rewrite IH.
    destruct (split_byte sep a) eqn:E; [by destruct (split_byte_nonnil sep a)|done].
Qed.

Fixpoint join_byte (sep : Z) (l : list gostring) : gostring :=
  match l with
  | [] => []
  | [p] => p
  | p :: r => p ++ sep :: join_byte sep r
  end.

Lemma join_split sep s : join_byte sep (split_byte sep s) = s.
Proof.
  induction s as [|c s IH]; simpl; [done|]. case_match; zify_bool.
  - subst. pose proof (split_byte_nonnil sep s) as Hn. simpl.
    destruct (split_byte sep s) eqn:E; [done|]. by rewrite IH.
  - destruct (split_byte sep s) as [|p ps] eqn:E; [by destruct (split_byte_nonnil sep s)|].
    simpl in *. destruct ps; simpl in *; by rewrite <-IH.
Qed.

Lemma join_app sep l k : l ≠ [] → k ≠ [] → join_byte sep (l ++ k) = join_byte sep l ++ sep :: join_byte sep k.
Proof.
  intros Hl Hk. induction l as [|p l IH]; [done|]. destruct l as [|q l].
  - simpl. by destruct k.
  - change (((p :: q :: l) ++ k)) with (p :: ((q :: l) ++ k)).
    assert (join_byte sep (p :: ((q :: l) ++ k)) = p ++ sep :: join_byte sep ((q :: l) ++ k)) as -> by done.
    rewrite IH by done. simpl. by rewrite <-app_assoc.
Qed.

(** A plain domain: splits into non-empty labels none of which is special. *)
Definition plain_domain (v : gostring) : Prop :=
  ∃ parts, ValidAndSplitDomain v = Some parts ∧
    Forall (λ p, p ≠ [] ∧ p ≠ wildcard ∧ p ≠ complexWildcard) parts.

Lemma Valid_split v parts : ValidAndSplitDomain v = Some parts → parts = split_byte 46 v.
Proof. unfold ValidAndSplitDomain. intros H. repeat case_match; naive_solver. Qed.

Lemma plain_parts v : plain_domain v →
  ValidAndSplitDomain v = Some (split_byte 46 v) ∧
  Forall (λ p, p ≠ [] ∧ p ≠ wildcard ∧ p ≠ complexWildcard) (split_byte 46 v).
Proof. intros (parts & E & Hp). by rewrite <-(Valid_split _ _ E). Qed.

Lemma nonempty_all_spec parts : nonempty_all parts = true ↔ Forall (λ p, p ≠ []) parts.
Proof.
  induction parts as [|p r IH]; simpl; [split; [constructor|done]|].
  rewrite Forall_cons. case_decide; [split; [done|tauto]|]. rewrite IH. tauto.
Qed.

Lemma plain_valid_plus v : plain_domain v →
  ValidAndSplitDomain (str "+." ++ v) = Some (complexWildcard :: split_byte 46 v).
Proof.
  intros Hv. destruct (plain_parts v Hv) as [E Hp].
  change (str "+." ++ v) with (43 :: 46 :: v).
  assert (split_byte 46 (43 :: 46 :: v) = complexWildcard :: split_byte 46 v) as Es by done.
  unfold ValidAndSplitDomain in E |- *. unfold domainStep in *. rewrite Es.
  assert (v ≠ []) as Hv0 by (intros ->; by vm_compute in E).
  assert (list.last (43 :: 46 :: v) = list.last v) as -> by (destruct v; done).
  destruct (match list.last v with Some c => c =? 46 | None => false end); [done|].
  pose proof (split_byte_nonnil 46 v) as Hn. destruct (split_byte 46 v) as [|p ps]; [done|].
  change (drop 1 (complexWildcard :: p :: ps)) with (p :: ps).
  rewrite (proj2 (nonempty_all_spec _)); [done|].
  eapply Forall_impl; [exact Hp|]. naive_solver.
Qed.

Lemma pmatch_plain q r :
  Forall (λ p, p ≠ [] ∧ p ≠ wildcard) q → pmatch q r ↔ q = r.
Proof.
  intros Hq. split.
  - induction 1 as [|p q r Hm IH|p q r Hm IH|p r]; apply Forall_cons in Hq || idtac; try done.
    + f_equal. apply IH. tauto.
    + tauto.
    + tauto.
  - intros <-. clear Hq. induction q; by constructor.
Qed.

Lemma pmatch_plain_dot q r :
  Forall (λ p, p ≠ [] ∧ p ≠ wildcard) q →
  pmatch (q ++ [dotWildcard]) r ↔ ∃ p r', r = q ++ p :: r'.
Proof.
  revert r. induction q as [|x q IH]; intros r Hq; simpl.
  - split.
    + inversion 1; subst; eauto.
    + intros (p & r' & ->). constructor.
  - apply Forall_cons in Hq as [[Hx1 Hx2] Hq]. split.
    + inversion 1 as [|? ? ? Hm|? ? ? Hm|]; subst; try done.
      * apply IH in Hm as (p & r' & ->); [|done]. eauto.
    + intros (p & r' & ->). constructor. apply IH; eauto.
Qed.

Lemma patterns_plus v : plain_domain v →
  patterns (str "+." ++ v) = [reverse (split_byte 46 v); reverse (split_byte 46 v) ++ [dotWildcard]].
Proof.
  intros Hv. unfold patterns. rewrite plain_valid_plus by done. rewrite decide_True by done.
  by rewrite reverse_cons.
Qed.

Lemma rule_domains_elem pre rules d ri :
  (d, ri) ∈ rule_domains pre rules ↔ ∃ v, ri ∈ rules ∧ v ∈ Value ri ∧ d = pre ++ v.
Proof.
  unfold rule_domains. rewrite list_elem_of_bind. setoid_rewrite list_elem_of_fmap. naive_solver.
Qed.

Lemma suffix_pmatch v target : plain_domain v → plain_domain target →
  (target = v ∨ ∃ a, target = a ++ 46 :: v) ↔
  ∃ q, q ∈ patterns (str "+." ++ v) ∧ pmatch q (reverse (split_byte 46 target)).
Proof.
  intros Hv Ht. rewrite (patterns_plus v Hv). destruct (plain_parts v Hv) as [_ Hp].
  assert (Forall (λ p, p ≠ [] ∧ p ≠ wildcard) (reverse (split_byte 46 v))) as Hp'.
  { apply Forall_reverse. eapply Forall_impl; [exact Hp|]. naive_solver. }
  pose proof (split_byte_nonnil 46 v) as Hnv. split.
  - intros [->|(a & ->)].
    + eexists. split; [by left|]. by apply pmatch_plain.
    + eexists. split; [right; by left|]. apply pmatch_plain_dot; [done|].
      rewrite split_byte_app, reverse_app.
      pose proof (split_byte_nonnil 46 a) as Hna. destruct (split_byte 46 a) as [|x l] using rev_ind; [done|].
      rewrite reverse_snoc. eauto.
  - intros (q & Hq & Hm). apply elem_of_cons in Hq as [->|Hq].
    + apply pmatch_plain in Hm; [|done]. left. apply (inj reverse) in Hm.
      by rewrite <-(join_split 46 target), <-Hm, join_split.
    + apply list_elem_of_singleton in Hq as ->. apply pmatch_plain_dot in Hm as (p & r & Hm); [|done].
      right. exists (join_byte 46 (reverse r ++ [p])).
      rewrite <-(join_split 46 target). rewrite <-(reverse_involutive (split_byte 46 target)), Hm.
      rewrite reverse_app, reverse_cons, reverse_involutive.
      rewrite join_app; [by rewrite join_split| |done]. by destruct (reverse r).
Qed.

(** A suffix rule whose values are plain domains matches a
    valid domain exactly when the domain is one of the values or ends with a dot
    followed by one: label boundaries are respected, and no value hides another. *)
Theorem suffix_rule_strings (rules : list RuleItem) (target : gostring) :
  plain_domain target → (∀ ri v, ri ∈ rules → v ∈ Value ri → plain_domain v) →
  trie_match (build (rule_domains (str "+.") rules)) target ≠ None ↔
  ∃ ri v, ri ∈ rules ∧ v ∈ Value ri ∧ (target = v ∨ ∃ a, target = a ++ 46 :: v).
Proof.
  intros Ht Hr. destruct (plain_parts target Ht) as [Et Hpt].
  assert (valid_target target (reverse (split_byte 46 target))) as Hvt.
  { exists (split_byte 46 target). split_and!; [done| |done].
    destruct (split_byte 46 target); [done|]. apply Forall_cons in Hpt as [[] _]. by intros [=]. }
  assert (trie_match (build (rule_domains (str "+.") rules)) target ≠ None ↔
          Search (build (rule_domains (str "+.") rules)) target ≠ None) as ->.
  { unfold trie_match. destruct target as [|c target]; [by vm_compute in Et|].
    split; intros Hn Hs; apply Hn; [by rewrite Hs|by apply Search_Data]. }
  rewrite Search_complete by done. split.
  - intros ([d ri] & q & (v & Hri & Hv & ->)%rule_domains_elem & Hq & Hm). simpl in Hq.
    specialize (Hr ri v Hri Hv). exists ri, v. split_and!; [done..|].
    apply suffix_pmatch; [done..|]. eauto.
  - intros (ri & v & Hri & Hv & Hs). specialize (Hr ri v Hri Hv).
    apply suffix_pmatch in Hs as (q & Hq & Hm); [|done..].
    exists (str "+." ++ v, ri), q. split_and!; [|done..]. apply rule_domains_elem. eauto.
Qed.

Lemma suffix_rule_strings_witness :
  trie_match (build (rule_domains (str "+.") [MkRuleItem Match RuleDomainSuffix (str "p") [str "google.com"] false true]))
    (str "www.google.com") ≠ None.
Proof.
  assert (∀ s, s = str "google.com" ∨ s = str "www.google.com" → plain_domain s) as Hp.
  { intros s [->| ->]; (eexists; split; [vm_compute; reflexivity|repeat constructor; discriminate]). }
  apply suffix_rule_strings; [by apply Hp; right| |].
  - intros ri v [->|[]%not_elem_of_nil]%elem_of_cons [->|[]%not_elem_of_nil]%elem_of_cons.
    apply Hp. by left.
  - do 2 eexists. split_and!; [left|left|]. right. exists (str "www"). reflexivity.
Defined.
