(* ===== verification/IPPool.v ===== *)
(** * Package resolver, fake-IP pool.

    Models [src/resolver/pool.go]. The pool covers the host addresses of an IPv4
    prefix; addresses are 32-bit integers, kept in range with [u32]. *)
From S2P Require Import Prelude GoIO GoNet.
Local Open Scope Z_scope.

Definition errNoAvailableFakeIP := errNew "no available fake ip".

(** [hash/adler32.Checksum]. *)
Definition adler_step (ab : Z * Z) (x : Z) : Z * Z :=
  let a := (ab.1 + x) mod 65521 in (a, (ab.2 + a) mod 65521).
Definition adler32 (p : list Z) : Z :=
  let '(a, b) := foldl adler_step (1, 0) p in Z.lor (Z.shiftl b 16) a.

Definition intToIP (v : Z) : Addr :=
  Addr4 [u8 (Z.shiftr v 24); u8 (Z.shiftr v 16); u8 (Z.shiftr v 8); u8 v].

(** [netip.Addr.As4]: panics unless the address is IPv4 or IPv4-mapped. *)
Definition As4 (ip : Addr) : res (list Z) :=
  match ip with
  | AddrNone => Panic
  | Addr4 b => Ret b
  | Addr6 b _ => if bool_decide (take 12 b = v4_in_v6_prefix) then Ret (drop 12 b) else Panic
  end.

Definition ipToInt (ip : Addr) : res Z :=
  v ← As4 ip;
  Ret (Z.lor (Z.lor (Z.lor (Z.shiftl (byte_at v 0) 24) (Z.shiftl (byte_at v 1) 16))
                    (Z.shiftl (byte_at v 2) 8)) (byte_at v 3)).

Record ipPool := IpPool {
  hmin : Z;
  hmax : Z;
  bits : Z;
  flags : list bool;
}.

(** The address of [prefix.Masked()]: host bits cleared. *)
Definition masked_addr (p : Prefix) : Addr :=
  match p with
  | (Addr4 b, n) =>
      let v := be_int b in intToIP (Z.land v (Z.shiftl (Z.ones n) (32 - n)))
  | (a, _) => a
  end.

(** An IPv6 prefix reaches [As4] and panics; [None] is an invalid prefix. The
    shift count [32 - bits] is not negative for IPv4. *)
Definition newIPPool (prefix : option Prefix) : res ipPool :=
  match prefix with
  | None => Fail errNoAvailableFakeIP
  | Some p =>
      match p.1 with
      | Addr4 _ =>
          base ← ipToInt (masked_addr p);
          let mask := Z.land (u32 (Z.shiftl 4294967295 (32 - p.2))) 4294967295 in
          if mask =? 4294967295 then Fail errNoAvailableFakeIP else
          let last := Z.lor base (Z.land (u32 (Z.lnot mask)) 4294967295) in
          let '(hmin, hmax) :=
            if mask =? 4294967294 then (base, last) else (u32 (base + 1), u32 (last - 1)) in
          let hostn := u32 (u32 (hmax - hmin) + 1) in
          Ret (IpPool hmin hmax p.2 (replicate (Z.to_nat hostn) false))
      | _ => Panic
      end
  end.

Definition Capacity (pool : ipPool) : nat := length (flags pool).
Definition IPMin (pool : ipPool) : Addr := intToIP (hmin pool).
Definition IPMax (pool : ipPool) : Addr := intToIP (hmax pool).
Definition Bits (pool : ipPool) : Z := bits pool.

(** The counting loop. *)
Fixpoint count_unused (l : list bool) : nat :=
  match l with
  | [] => 0
  | used :: r => if used then count_unused r else S (count_unused r)
  end.
Definition Available (pool : ipPool) : nat := count_unused (flags pool).

(** [index]: [None] for [-1]. *)
Definition index (pool : ipPool) (ip : Addr) : res (option nat) :=
  value ← ipToInt ip;
  Ret (if (hmin pool <=? value) && (value <=? hmax pool)
       then Some (Z.to_nat (value - hmin pool)) else None).

Definition Contains (pool : ipPool) (ip : Addr) : res bool :=
  i ← index pool ip; Ret (match i with Some _ => true | None => false end).

Definition IsAvailable (pool : ipPool) (ip : Addr) : res bool :=
  i ← index pool ip;
  match i with
  | Some n => used ← GoIO.index (flags pool) n; Ret (negb used)
  | None => Ret false
  end.

(** [pool.flags[i] = v]; out of range panics. *)
Definition set_flag (pool : ipPool) (i : nat) (v : bool) : res ipPool :=
  if (i <? length (flags pool))%nat
  then Ret (IpPool (hmin pool) (hmax pool) (bits pool) (<[i := v]> (flags pool)))
  else Panic.

(** The first index whose flag is not set. *)
Fixpoint first_unused (l : list bool) : option nat :=
  match l with
  | [] => None
  | used :: r => if used then S <$> first_unused r else Some 0%nat
  end.

(** [None]: the zero address and [false]. *)
Definition allocateFor (pool : ipPool) (ip : Addr) : res (ipPool * option Addr) :=
  i ← index pool ip;
  match i with
  | Some n => p ← set_flag pool n true; Ret (p, Some ip)
  | None =>
      match first_unused (flags pool) with
      | None => Ret (pool, None)
      | Some n => p ← set_flag pool n true; Ret (p, Some (intToIP (u32 (hmin pool + u32 (Z.of_nat n)))))
      end
  end.

Definition Release (pool : ipPool) (ip : Addr) : res (ipPool * bool) :=
  i ← index pool ip;
  match i with
  | Some n => p ← set_flag pool n false; Ret (p, true)
  | None => Ret (pool, false)
  end.

(** [Allocate]: the slot of the host's checksum, or the first free one. *)
Definition Allocate (pool : ipPool) (host : gostring) : ipPool * res Addr :=
  let cap := u32 (Z.of_nat (length (flags pool))) in
  if cap =? 0 then (pool, Panic) else
  let h := Z.to_nat (adler32 host mod cap) in
  match flags pool !! h with
  | None => (pool, Panic)
  | Some used =>
      let i := if (used : bool) then default h (first_unused (flags pool)) else h in
      match flags pool !! i with
      | None => (pool, Panic)
      | Some true => (pool, Fail errNoAvailableFakeIP)
      | Some false =>
          match set_flag pool i true with
          | Ret p => (p, Ret (intToIP (u32 (hmin pool + Z.of_nat i))))
          | _ => (pool, Panic)
          end
      end
  end.

(** ** Invariant *)
Record Inv (pool : ipPool) : Prop := {
  inv_range : 0 ≤ hmin pool ∧ hmin pool ≤ hmax pool ∧ hmax pool < 2 ^ 32;
  inv_len : Z.of_nat (length (flags pool)) = hmax pool - hmin pool + 1;
}.

(** The flag of a host number. *)
Definition used_at (pool : ipPool) (v : Z) : bool := default false (flags pool !! Z.to_nat (v - hmin pool)).

Lemma intToIP_ipToInt v : 0 ≤ v < 2 ^ 32 → ipToInt (intToIP v) = Ret v.
Proof.
  intros Hv. unfold ipToInt, intToIP, As4. cbn [mbind res_bind]. unfold byte_at. simpl. f_equal.
  pose proof (u8_range v) as H0. pose proof (u8_range (Z.shiftr v 8)) as H1.
  pose proof (u8_range (Z.shiftr v 16)) as H2. unfold is_byte in *.
  set (a := u8 (Z.shiftr v 24)) in *. set (b := u8 (Z.shiftr v 16)) in *.
  set (c := u8 (Z.shiftr v 8)) in *. set (d := u8 v) in *.
  replace (Z.lor (Z.lor (Z.lor (Z.shiftl a 24) (Z.shiftl b 16)) (Z.shiftl c 8)) d)
    with (Z.lor d (Z.shiftl (Z.lor c (Z.shiftl (Z.lor b (Z.shiftl a 8)) 8)) 8)).
  - rewrite !lor_shiftl_add by lia. unfold a, b, c, d, u8. rewrite !Z.shiftr_div_pow2 by lia.
    change (2 ^ 8) with 256. change (2 ^ 16) with 65536. change (2 ^ 24) with 16777216.
    change (2 ^ 32) with 4294967296 in Hv.
    assert (0 ≤ v / 16777216 < 256) by (split; [apply Z.div_pos|apply Z.div_lt_upper_bound]; lia).
    rewrite (Z.mod_small (v / 16777216)) by lia.
    pose proof (Z.div_mod v 256). pose proof (Z.div_mod (v / 256) 256). pose proof (Z.div_mod (v / 256 / 256) 256).
    rewrite !Z.div_div in * by lia. change (256 * 256) with 65536 in *. change (65536 * 256) with 16777216 in *. lia.
  - rewrite !Z.shiftl_lor, !Z.shiftl_shiftl by lia. change (8 + 8) with 16. change (8 + 16) with 24.
    zbits.
Qed.

Lemma used_at_range pool v :
  Inv pool → hmin pool ≤ v ≤ hmax pool → ∃ n, n = Z.to_nat (v - hmin pool) ∧ (n < length (flags pool))%nat.
Proof. intros [Hr Hl] Hv. eexists. split; [done|]. lia. Qed.

Lemma index_in pool v :
  Inv pool → hmin pool ≤ v ≤ hmax pool → index pool (intToIP v) = Ret (Some (Z.to_nat (v - hmin pool))).
Proof.
  intros [Hr _] Hv. unfold index. rewrite intToIP_ipToInt by lia. simpl.
  rewrite (proj2 (Z.leb_le _ _)), (proj2 (Z.leb_le _ _)) by lia. done.
Qed.

Lemma index_out pool v :
  0 ≤ v < 2 ^ 32 → (v < hmin pool ∨ hmax pool < v) → index pool (intToIP v) = Ret None.
Proof.
  intros Hv Ho. unfold index. rewrite intToIP_ipToInt by done. simpl. case_match; [|done]. blia.
Qed.

Lemma set_flag_ok pool n b :
  Inv pool → (n < length (flags pool))%nat →
  ∃ p, set_flag pool n b = Ret p ∧ Inv p ∧ hmin p = hmin pool ∧ hmax p = hmax pool ∧ bits p = bits pool ∧
       flags p = <[n := b]> (flags pool).
Proof.
  intros [Hr Hl] Hn. unfold set_flag. rewrite (proj2 (Nat.ltb_lt _ _)) by done.
  eexists. split; [done|]. split_and!; try done. split; simpl; [done|]. by rewrite length_insert.
Qed.

Lemma first_unused_Some l n : first_unused l = Some n → l !! n = Some false.
Proof.
  revert n. induction l as [|[] l IH]; intros n; simpl; [done| |].
  - intros (m & Hm & ->)%fmap_Some. by apply IH.
  - by intros [= <-].
Qed.

Lemma first_unused_None l : first_unused l = None ↔ count_unused l = 0%nat.
Proof. induction l as [|[] l IH]; simpl; [done| |done]. by rewrite fmap_None. Qed.

Lemma first_unused_all l n : first_unused l = None → l !! n = Some false → False.
Proof.
  revert n. induction l as [|[] l IH]; intros n H1 H2; simpl in *; [done| |done].
  apply fmap_None in H1. destruct n; [done|]. eauto.
Qed.

Lemma count_unused_insert (l : list bool) n (b b' : bool) :
  l !! n = Some b →
  (count_unused (<[n := b']> l) + (if b then 0 else 1) = count_unused l + (if b' then 0 else 1))%nat.
Proof.
  revert n. induction l as [|x l IH]; intros [|n] H; simplify_eq/=; [destruct b, b'; lia|].
  specialize (IH n H). destruct x; lia.
Qed.

Lemma adler_bound ab p : 0 ≤ ab.1 < 65521 → 0 ≤ ab.2 < 65521 →
  let r := foldl adler_step ab p in 0 ≤ r.1 < 65521 ∧ 0 ≤ r.2 < 65521.
Proof.
  revert ab. induction p as [|x p IH]; intros ab H1 H2; simpl; [done|].
  apply IH; apply Z.mod_pos_bound; lia.
Qed.

Lemma adler32_range p : 0 ≤ adler32 p < 2 ^ 32.
Proof.
  unfold adler32. pose proof (adler_bound (1, 0) p ltac:(simpl; lia) ltac:(simpl; lia)) as [Ha Hb].
  destruct (foldl adler_step (1, 0) p) as [a b]. simpl in *.
  rewrite Z.lor_comm, lor_shiftl_add by lia. lia.
Qed.

(** The outcome of [Allocate]: a slot that was free, or none is. *)
Lemma Allocate_cases pool host :
  Inv pool → hmax pool - hmin pool < 2 ^ 32 - 1 →
  (∃ n p, flags pool !! n = Some false ∧ Allocate pool host = (p, Ret (intToIP (hmin pool + Z.of_nat n))) ∧
          hmin pool + Z.of_nat n ≤ hmax pool ∧
          Inv p ∧ hmin p = hmin pool ∧ hmax p = hmax pool ∧ bits p = bits pool ∧
          flags p = <[n := true]> (flags pool)) ∨
  (Available pool = 0%nat ∧ Allocate pool host = (pool, Fail errNoAvailableFakeIP)).
Proof.
  intros HI Hsz. pose proof HI as [Hr Hl]. unfold Allocate.
  assert (u32 (Z.of_nat (length (flags pool))) = Z.of_nat (length (flags pool))) as ->.
  { unfold u32. apply Z.mod_small. lia. }
  rewrite (proj2 (Z.eqb_neq _ _)) by lia. set (cap := Z.of_nat (length (flags pool))) in *.
  pose proof (Z.mod_pos_bound (adler32 host) cap ltac:(lia)) as Hm.
  set (h := Z.to_nat (adler32 host mod cap)).
  destruct (flags pool !! h) as [used|] eqn:E; [|apply lookup_ge_None in E; lia].
  set (i := if used then default h (first_unused (flags pool)) else h).
  assert (flags pool !! i = Some false ∨ first_unused (flags pool) = None ∧ flags pool !! i = Some true) as Hi.
  { unfold i. destruct used; [|by left]. destruct (first_unused (flags pool)) eqn:Ef; simpl; [|by right].
    left. by apply first_unused_Some. }
  destruct Hi as [Hi|[Hf Hi]].
  - left. rewrite Hi. pose proof (lookup_lt_Some _ _ _ Hi) as Hlt.
    destruct (set_flag_ok pool i true HI Hlt) as (p & -> & Hp). exists i, p.
    split_and!; try apply Hp; [done| |lia].
    do 2 f_equal. f_equal. unfold u32. apply Z.mod_small. lia.
  - right. rewrite Hi. split; [|done]. by apply first_unused_None.
Qed.

(** ** The pool of a prefix *)

Lemma mask_val k : 0 ≤ k ≤ 32 → Z.land (u32 (Z.shiftl 4294967295 k)) 4294967295 = 2 ^ 32 - 2 ^ k.
Proof.
  intros Hk. change 4294967295 with (Z.ones 32) at 2. rewrite Z.land_ones by lia.
  unfold u32. rewrite Z.mod_mod, Z.shiftl_mul_pow2 by lia.
  assert (0 < 2 ^ k ≤ 2 ^ 32) by (split; [apply Z.pow_pos_nonneg; lia|apply Z.pow_le_mono_r; lia]).
  replace (4294967295 * 2 ^ k) with ((2 ^ 32 - 2 ^ k) + (2 ^ k - 1) * 2 ^ 32) by lia.
  rewrite Z.mod_add by lia. apply Z.mod_small. lia.
Qed.

Lemma lnot_mask k : 0 ≤ k ≤ 32 → Z.land (u32 (Z.lnot (2 ^ 32 - 2 ^ k))) 4294967295 = 2 ^ k - 1.
Proof.
  intros Hk. change 4294967295 with (Z.ones 32). rewrite Z.land_ones by lia.
  unfold u32. rewrite Z.mod_mod by lia. unfold Z.lnot.
  assert (0 < 2 ^ k ≤ 2 ^ 32) by (split; [apply Z.pow_pos_nonneg; lia|apply Z.pow_le_mono_r; lia]).
  replace (Z.pred (- (2 ^ 32 - 2 ^ k))) with ((2 ^ k - 1) + (-1) * 2 ^ 32) by lia.
  rewrite Z.mod_add by lia. apply Z.mod_small. lia.
Qed.

Lemma land_network v n k : 0 ≤ n → 0 ≤ k → 0 ≤ v < 2 ^ (n + k) →
  Z.land v (Z.shiftl (Z.ones n) k) = v / 2 ^ k * 2 ^ k.
Proof.
  intros Hn Hk Hv. rewrite <-Z.shiftr_div_pow2, <-Z.shiftl_mul_pow2 by done.
  apply Z.bits_inj'. intros i Hi. rewrite Z.land_spec.
  destruct (Z.ltb_spec i k).
  - rewrite !Z.shiftl_spec_low by done. apply andb_false_r.
  - rewrite !Z.shiftl_spec by done. rewrite Z.shiftr_spec by lia. replace (i - k + k) with i by lia.
    destruct (Z.ltb_spec (i - k) n).
    + rewrite Z.ones_spec_low by lia. apply andb_true_r.
    + rewrite Z.ones_spec_high by lia. rewrite <-(Z.mod_small v (2 ^ (n + k))) by done.
      rewrite Z.mod_pow2_bits_high by lia. done.
Qed.

Lemma be_int_4 b : length b = 4%nat → wf_bytes b → 0 ≤ be_int b < 2 ^ 32.
Proof.
  intros Hl Hw. destruct b as [|x0 [|x1 [|x2 [|x3 [|]]]]]; try done.
  unfold wf_bytes, is_byte in Hw. rewrite !Forall_cons in Hw. unfold be_int. simpl. lia.
Qed.

(** The first and last host of a prefix. *)
Definition first_host (v n : Z) : Z :=
  let base := v / 2 ^ (32 - n) * 2 ^ (32 - n) in if n =? 31 then base else base + 1.
Definition last_host (v n : Z) : Z :=
  let base := v / 2 ^ (32 - n) * 2 ^ (32 - n) in
  if n =? 31 then base + 1 else base + 2 ^ (32 - n) - 2.

Lemma network_bounds v n : 0 ≤ n ≤ 31 → 0 ≤ v < 2 ^ 32 →
  let k := 32 - n in 2 ≤ 2 ^ k ≤ 2 ^ 32 ∧ 0 ≤ v / 2 ^ k * 2 ^ k ∧ v / 2 ^ k * 2 ^ k + 2 ^ k ≤ 2 ^ 32 ∧
  (n < 31 → 4 ≤ 2 ^ k).
Proof.
  intros Hn Hv k. assert (2 ^ 32 = 2 ^ n * 2 ^ k) as E by (rewrite <-Z.pow_add_r by lia; f_equal; lia).
  assert (2 ^ 1 ≤ 2 ^ k) by (apply Z.pow_le_mono_r; lia).
  assert (2 ^ k ≤ 2 ^ 32) by (apply Z.pow_le_mono_r; lia).
  assert (0 ≤ v / 2 ^ k) by (apply Z.div_pos; lia).
  assert (v / 2 ^ k < 2 ^ n) by (apply Z.div_lt_upper_bound; lia).
  split_and!; [lia..|nia|nia|]. intros. change 4 with (2 ^ 2). apply Z.pow_le_mono_r; lia.
Qed.

Lemma newIPPool_v4 b n :
  length b = 4%nat → wf_bytes b → 0 ≤ n ≤ 31 →
  ∃ pool, newIPPool (Some (Addr4 b, n)) = Ret pool ∧ Inv pool ∧
    hmin pool = first_host (be_int b) n ∧ hmax pool = last_host (be_int b) n ∧ bits pool = n ∧
    flags pool = replicate (length (flags pool)) false ∧ hmin pool < hmax pool ∧
    hmax pool - hmin pool < 2 ^ 32 - 1.
Proof.
  intros Hl Hw Hn. pose proof (be_int_4 b Hl Hw) as Hv.
  destruct (network_bounds (be_int b) n Hn Hv) as (Hk & Hb0 & Hb1 & Hk4).
  unfold newIPPool. cbn [fst snd]. unfold masked_addr.
  rewrite land_network by (replace (n + (32 - n)) with 32 by lia; lia).
  set (base := be_int b / 2 ^ (32 - n) * 2 ^ (32 - n)) in *.
  rewrite intToIP_ipToInt by lia. cbn [mbind res_bind].
  rewrite mask_val by lia. rewrite (proj2 (Z.eqb_neq _ _)) by lia. rewrite lnot_mask by lia.
  assert (Z.lor base (2 ^ (32 - n) - 1) = base + 2 ^ (32 - n) - 1) as ->.
  { rewrite Z.lor_comm. unfold base. rewrite <-Z.shiftl_mul_pow2, lor_shiftl_add by lia.
    rewrite Z.shiftl_mul_pow2 by lia. lia. }
  unfold first_host, last_host. fold base. destruct (Z.eqb_spec n 31) as [->|Hne].
  - change (2 ^ (32 - 31)) with 2 in *. rewrite (proj2 (Z.eqb_eq _ _)) by done.
    eexists. split; [reflexivity|]. unfold u32. cbn [hmin hmax bits flags].
    rewrite !(Z.mod_small) by (rewrite ?Z.mod_small; lia).
    split_and!; try lia; [|by rewrite length_replicate]. split; cbn [hmin hmax flags]; [lia|].
    rewrite length_replicate. lia.
  - rewrite (proj2 (Z.eqb_neq _ _)) by lia. specialize (Hk4 ltac:(lia)).
    eexists. split; [reflexivity|]. unfold u32. cbn [hmin hmax bits flags].
    rewrite !(Z.mod_small (base + 1)), !(Z.mod_small (_ - 1)) by lia.
    rewrite (Z.mod_small (base + 2 ^ (32 - n) - 1 - 1 - (base + 1))) by lia.
    rewrite (Z.mod_small (_ - (base + 1) + 1)) by lia.
    split_and!; try lia; [|by rewrite length_replicate]. split; cbn [hmin hmax flags]; [lia|].
    rewrite length_replicate. lia.
Qed.

Lemma IsAvailable_in pool v :
  Inv pool → hmin pool ≤ v ≤ hmax pool → IsAvailable pool (intToIP v) = Ret (negb (used_at pool v)).
Proof.
  intros HI Hv. unfold IsAvailable. rewrite index_in by done. cbn [mbind res_bind].
  destruct (used_at_range pool v HI Hv) as (n & Hn & Hlt). rewrite <-Hn.
  unfold GoIO.index, used_at. rewrite <-Hn.
  by destruct (lookup_lt_is_Some_2 (flags pool) n Hlt) as [u ->].
Qed.

(** For an IPv4 prefix of at most 31 bits, the pool covers exactly
    the host addresses of the network (both addresses of a /31, all but the
    network and broadcast addresses otherwise), none of them in use; no 32-bit
    computation wraps around. *)
Theorem new_pool_hosts (b : list Z) (n : Z) :
  length b = 4%nat → wf_bytes b → 0 ≤ n ≤ 31 →
  ∃ pool, newIPPool (Some (Addr4 b, n)) = Ret pool ∧
    hmin pool = first_host (be_int b) n ∧ hmax pool = last_host (be_int b) n ∧
    Z.of_nat (Capacity pool) = hmax pool - hmin pool + 1 ∧ Available pool = Capacity pool ∧
    ∀ v, 0 ≤ v < 2 ^ 32 →
      Contains pool (intToIP v) = Ret (bool_decide (first_host (be_int b) n ≤ v ≤ last_host (be_int b) n)).
Proof.
  intros Hl Hw Hn. destruct (newIPPool_v4 b n Hl Hw Hn) as (pool & E & HI & H1 & H2 & _ & Hf & _ & _).
  exists pool. split_and!; [done..|apply HI| |].
  - unfold Available, Capacity. rewrite Hf at 1.
    generalize (length (flags pool)) as m. intros m. induction m as [|m IH]; simpl; congruence.
  - intros v Hv. rewrite <-H1, <-H2. unfold Contains.
    destruct (decide (hmin pool ≤ v ≤ hmax pool)) as [Hin|Hout].
    + rewrite index_in by done. simpl. by rewrite bool_decide_true.
    + rewrite index_out by lia. simpl. by rewrite bool_decide_false.
Qed.

Definition demo_prefix : list Z := [198; 18; 0; 5].
Lemma demo_prefix_wf : wf_bytes demo_prefix.
Proof. repeat constructor; unfold is_byte; lia. Defined.

Lemma new_pool_hosts_witness :
  ∃ pool, newIPPool (Some (Addr4 demo_prefix, 29)) = Ret pool ∧
    hmin pool = 3323068417 ∧ hmax pool = 3323068422 ∧ Available pool = 6%nat.
Proof.
  edestruct (new_pool_hosts demo_prefix 29) as (pool & E & H1 & H2 & H3 & H4 & _);
    [reflexivity|apply demo_prefix_wf|lia|].
  exists pool. split_and!; [exact E|exact H1|exact H2|]. rewrite H4.
  assert (Z.of_nat (Capacity pool) = 6) as H5 by (rewrite H3, H1, H2; vm_compute; reflexivity). lia.
Defined.

(** [Allocate] succeeds exactly when some address is free; the
    address it returns is one of the pool, was free and is in use afterwards,
    every other address keeps its state and the number of free addresses drops by
    one. Otherwise it reports that none is left and changes nothing. *)
Theorem allocate_unique (pool : ipPool) (host : gostring) p r :
  Inv pool → hmax pool - hmin pool < 2 ^ 32 - 1 → Allocate pool host = (p, r) →
  (Available pool = 0%nat ∧ r = Fail errNoAvailableFakeIP ∧ p = pool) ∨
  (∃ v, hmin pool ≤ v ≤ hmax pool ∧ r = Ret (intToIP v) ∧ Inv p ∧
     IsAvailable pool (intToIP v) = Ret true ∧ IsAvailable p (intToIP v) = Ret false ∧
     Available pool = S (Available p) ∧
     ∀ w, hmin pool ≤ w ≤ hmax pool → w ≠ v → IsAvailable p (intToIP w) = IsAvailable pool (intToIP w)).
Proof.
  intros HI Hsz HA.
  destruct (Allocate_cases pool host HI Hsz) as [(n & p' & Hn & E & Hle & HI' & Hmin & Hmax & _ & Hf)|[H0 E]];
    rewrite E in HA; simplify_eq; [right|by left].
  pose proof (lookup_lt_Some _ _ _ Hn) as Hlt.
  assert (hmin pool ≤ hmin pool + Z.of_nat n ≤ hmax pool) as Hv by lia.
  assert (Z.to_nat (hmin pool + Z.of_nat n - hmin pool) = n) as Hz by lia.
  exists (hmin pool + Z.of_nat n). split_and!; [lia..|done|done| | | |].
  - rewrite IsAvailable_in by done. unfold used_at. by rewrite Hz, Hn.
  - rewrite IsAvailable_in by (rewrite ?Hmin, ?Hmax; done). unfold used_at.
    rewrite Hmin, Hz, Hf, list_lookup_insert_eq by done. done.
  - unfold Available. rewrite Hf. pose proof (count_unused_insert _ n _ true Hn). simpl in *. lia.
  - intros w Hw Hne. rewrite !IsAvailable_in by (rewrite ?Hmin, ?Hmax; done). unfold used_at.
    rewrite Hmin, Hf, list_lookup_insert_ne by lia. done.
Qed.

Definition demo_pool : ipPool := IpPool 3323068417 3323068422 29 [true; false; false; true; false; false].
Lemma demo_pool_Inv : Inv demo_pool.
Proof. split; simpl; lia. Defined.

Lemma allocate_unique_witness :
  ∃ p v, Allocate demo_pool (str "example.com") = (p, Ret (intToIP v)) ∧
         IsAvailable demo_pool (intToIP v) = Ret true ∧ Available p = 3%nat.
Proof.
  destruct (allocate_unique demo_pool (str "example.com") (fst (Allocate demo_pool (str "example.com")))
    (snd (Allocate demo_pool (str "example.com")))) as [(H & _)|(v & _ & Hr & _ & Ha & _ & Hc & _)].
  - exact demo_pool_Inv.
  - simpl; lia.
  - vm_compute. reflexivity.
  - vm_compute in H. discriminate.
  - exists (fst (Allocate demo_pool (str "example.com"))), v. split; [|split; [exact Ha|]].
    + rewrite <-Hr. vm_compute. reflexivity.
    + vm_compute. reflexivity.
Defined.

(** Releasing the address [Allocate] returned gives back the
    pool as it was, so the next [Allocate] of the host returns it again. *)
Theorem allocate_release_roundtrip (pool : ipPool) (host : gostring) p ip :
  Inv pool → hmax pool - hmin pool < 2 ^ 32 - 1 → Allocate pool host = (p, Ret ip) →
  Release p ip = Ret (pool, true).
Proof.
  intros HI Hsz HA.
  destruct (Allocate_cases pool host HI Hsz) as [(n & p' & Hn & E & Hle & HI' & Hmin & Hmax & Hb & Hf)|[H0 E]];
    rewrite E in HA; simplify_eq.
  pose proof (lookup_lt_Some _ _ _ Hn) as Hlt.
  unfold Release. rewrite index_in by (rewrite ?Hmin, ?Hmax; done || lia). cbn [mbind res_bind].
  rewrite Hmin. replace (Z.to_nat (hmin pool + Z.of_nat n - hmin pool)) with n by lia.
  unfold set_flag. rewrite Hf, length_insert, (proj2 (Nat.ltb_lt _ _)) by done. cbn [mbind res_bind].
  rewrite Hmin, Hmax, Hb, list_insert_insert_eq, list_insert_id by done. by destruct pool.
Qed.

Lemma allocate_release_roundtrip_witness :
  Release (fst (Allocate demo_pool (str "example.com"))) (intToIP 3323068421) = Ret (demo_pool, true).
Proof.
  apply (allocate_release_roundtrip demo_pool (str "example.com")).
  - exact demo_pool_Inv.
  - simpl; lia.
  - vm_compute. reflexivity.
Defined.

(** ** Without a lock

    [Allocate] looks for a slot and then marks it; nothing keeps a second goroutine from looking in
    between. *)
Definition Allocate_pick (pool : ipPool) (host : gostring) : res nat :=
  let cap := u32 (Z.of_nat (length (flags pool))) in
  if cap =? 0 then Panic else
  let h := Z.to_nat (adler32 host mod cap) in
  match flags pool !! h with
  | None => Panic
  | Some used =>
      let i := if (used : bool) then default h (first_unused (flags pool)) else h in
      match flags pool !! i with None => Panic | Some true => Fail errNoAvailableFakeIP | Some false => Ret i end
  end.
Definition Allocate_mark (pool : ipPool) (i : nat) : ipPool * res Addr :=
  match set_flag pool i true with
  | Ret p => (p, Ret (intToIP (u32 (hmin pool + Z.of_nat i))))
  | _ => (pool, Panic)
  end.
Lemma Allocate_split pool host :
  Allocate pool host = match Allocate_pick pool host with Ret i => Allocate_mark pool i | Fail e => (pool, Fail e) | Panic => (pool, Panic) end.
Proof.
  unfold Allocate, Allocate_pick, Allocate_mark. case_match; [done|]. destruct (flags pool !! _); [|done]. cbv zeta. by destruct (flags pool !! _) as [[]|].
Qed.
(** Two hosts for which the same slot is found, both before it is marked, are given the same address: any two names whose
    checksums agree modulo the size of a pool, or any two at all when their own slots are taken. *)
Lemma allocate_race pool h1 h2 i : Allocate_pick pool h1 = Ret i → Allocate_pick pool h2 = Ret i →
  ∃ p a, Allocate pool h1 = (p, Ret a) ∧ Allocate_mark p i = (p, Ret a).
Proof.
  intros H1 _. rewrite Allocate_split, H1. unfold Allocate_mark, set_flag.
  assert (i < length (flags pool))%nat as Hi.
  { unfold Allocate_pick in H1. case_match; [done|]. destruct (flags pool !! _); [|done]. cbv zeta in H1.
    destruct (flags pool !! _) as [[]|] eqn:E in H1; try done. injection H1 as <-. by eapply lookup_lt_Some. }
  rewrite (proj2 (Nat.ltb_lt _ _)) by done. eexists _, _. split; [done|]. cbn [flags hmin hmax bits].
  rewrite length_insert, (proj2 (Nat.ltb_lt _ _)), list_insert_insert_eq by done. done.
Qed.
Lemma allocate_race_possible : Allocate_pick demo_pool (str "a") = Ret 4%nat ∧ Allocate_pick demo_pool (str "g") = Ret 4%nat.
Proof. vm_compute. by split. Qed.
