(* ===== verification/FakeIP.v ===== *)
(** * Package resolver, fake-IP resolver.

    Models [src/resolver/fakeip.go] over the pool of [IPPool] and any two caches
    that satisfy [CacheLaws]. Records are pointers into a store, shared by the two
    caches, so that the in-place update of a reply is seen through both. The DNS
    message library is a parameter. *)
From S2P Require Import Prelude GoIO GoNet Cache IPPool.
Local Open Scope Z_scope.

(** [dnsutil.TrimDomain]. *)
Definition TrimDomain (name : gostring) : gostring := trim_suffix name (str ".").

Definition DefaultFakeIPDnsRecordTTL : Z := 60 * second.
Definition DefaultFakeIPCacheInterval : Z := 30 * second.

Definition host_options : options :=
  make_options [WithMaxSize 4096; WithInterval DefaultFakeIPCacheInterval;
                WithExpiration DefaultFakeIPDnsRecordTTL; WithEvictCallback;
                WithDeleteExpiredCacheOnGet; WithBackgroundCheckCache].
Definition ip_options : options :=
  make_options [WithMaxSize 4096; WithInterval DefaultFakeIPCacheInterval;
                WithExpiration DefaultFakeIPDnsRecordTTL;
                WithDeleteExpiredCacheOnGet; WithBackgroundCheckCache].

(** Addresses count up: [netip.Addr.Next] of an IPv4 address; the zero address
    after the last one. *)
Definition Addr4_Next (v : Z) : Addr := if v =? 2 ^ 32 - 1 then AddrNone else intToIP (v + 1).

Section FakeIP.
(** [dns.Msg] and the functions of the DNS library the resolver calls: the name
    of the first question ([None]: there is none, and indexing panics),
    [SetReply], [Fqdn] and appending an A record to a fresh reply. *)
Context {Msg : Type}
  (question_name : Msg → option gostring)
  (emptyMsg : Msg) (SetReply : Msg → Msg → Msg) (Fqdn : gostring → gostring)
  (appendA : Msg → gostring → Z → list Z → Msg).
Context {C1 C2 : Type} `{!CacheOps gostring nat C1, !CacheOps Addr nat C2}.

Record Record_ := MkRecord {
  Domain : gostring;
  FakeIP : Addr;
  Query : Msg;
  Reply : Msg;
}.

Record fakeIPResolver := MkResolver {
  pool : ipPool;
  cache : C1;
  ipCache : C2;
  dnsIP : Addr;
  tunPrefix : Prefix;
  records : gmap nat Record_;
  next : nat;
}.

Definition AsSlice (ip : Addr) : list Z :=
  match ip with AddrNone => [] | Addr4 b => b | Addr6 b _ => b end.

(** [newFakeIPResolver]: reserve the tun address (the prefix's own address when
    the pool has it) and the address after it for DNS. *)
Definition newFakeIPResolver (cidr : option Prefix) : res fakeIPResolver :=
  p0 ← newIPPool cidr;
  match cidr with
  | None => Panic
  | Some (addr, _) =>
      '(p1, tun) ← allocateFor p0 addr;
      match tun with
      | None => Fail (errNew "can not allocate ip for tun device")
      | Some tunIP =>
          v ← ipToInt tunIP;
          '(p2, dns) ← allocateFor p1 (Addr4_Next v);
          Ret (MkResolver p2 cache_new cache_new (default AddrNone dns) (tunIP, bits p2) ∅ 0)
      end
  end.

(** [onReleaseFakeIP], for each entry the host cache evicts. *)
Definition release1 (recs : gmap nat Record_) (p : ipPool) (ev : gostring * nat) : ipPool :=
  match recs !! ev.2 with
  | Some rec => match Release p (FakeIP rec) with Ret (p', _) => p' | _ => p end
  | None => p
  end.
Definition onReleaseFakeIP (recs : gmap nat Record_) (p : ipPool) (evs : list (gostring * nat)) : ipPool :=
  foldl (release1 recs) p evs.

Definition GetAllocatedTunPrefix (r : fakeIPResolver) : Prefix := tunPrefix r.
Definition GetAllocatedDnsIP (r : fakeIPResolver) : Addr := dnsIP r.
Definition IsFakeIP (r : fakeIPResolver) (ip : Addr) : res bool := Contains (pool r) ip.

Definition set_cache (r : fakeIPResolver) (c : C1) (ev : list (gostring * nat)) : fakeIPResolver :=
  MkResolver (onReleaseFakeIP (records r) (pool r) ev) c (ipCache r) (dnsIP r) (tunPrefix r)
             (records r) (next r).
Definition set_ipCache (r : fakeIPResolver) (c : C2) : fakeIPResolver :=
  MkResolver (pool r) (cache r) c (dnsIP r) (tunPrefix r) (records r) (next r).
Definition set_pool (r : fakeIPResolver) (p : ipPool) : fakeIPResolver :=
  MkResolver p (cache r) (ipCache r) (dnsIP r) (tunPrefix r) (records r) (next r).
Definition set_record (r : fakeIPResolver) (i : nat) (rec : Record_) (n : nat) : fakeIPResolver :=
  MkResolver (pool r) (cache r) (ipCache r) (dnsIP r) (tunPrefix r) (<[i := rec]> (records r)) n.

Definition find (host : gostring) (now : Z) (r : fakeIPResolver) : fakeIPResolver * res nat :=
  let '(c, ev, x) := cache_get host_options host now (cache r) in (set_cache r c ev, x).

Definition deref (r : fakeIPResolver) (i : nat) : res Record_ :=
  match records r !! i with Some rec => Ret rec | None => Panic end.

Definition FindByIP (ip : Addr) (now : Z) (r : fakeIPResolver) : fakeIPResolver * res nat :=
  let '(c, _, x) := cache_get ip_options ip now (ipCache r) in
  let r1 := set_ipCache r c in
  match x with
  | Ret i => match deref r1 i with
             | Ret rec => find (Domain rec) now r1
             | Fail e => (r1, Fail e)
             | Panic => (r1, Panic)
             end
  | Fail e => (r1, Fail e)
  | Panic => (r1, Panic)
  end.

Definition fake_reply (host : gostring) (request : Msg) (fakeIP : Addr) : Msg :=
  appendA (SetReply emptyMsg request) (Fqdn host) (DefaultFakeIPDnsRecordTTL / second) (AsSlice fakeIP).

Definition makeNewFakeDnsRecord (host : gostring) (request : Msg) (now : Z) (r : fakeIPResolver)
    : fakeIPResolver * res nat :=
  let '(p, a) := Allocate (pool r) host in
  let r1 := set_pool r p in
  match a with
  | Fail e => (r1, Fail e)
  | Panic => (r1, Panic)
  | Ret fakeIP =>
      if negb (IsValid fakeIP) then (r1, Fail (errNew "unable to allocate fake ip from pool")) else
      let i := next r1 in
      let r2 := set_record r1 i (MkRecord host fakeIP request (fake_reply host request fakeIP)) (S i) in
      let '(c, ev, x) := cache_set host_options host i now (cache r2) in
      let r3 := set_cache r2 c ev in
      match x with
      | Ret _ =>
          let '(c2, _, y) := cache_set ip_options fakeIP i now (ipCache r3) in
          match y with
          | Ret _ => (set_ipCache r3 c2, Ret i)
          | Fail e => (set_ipCache r3 c2, Fail e)
          | Panic => (set_ipCache r3 c2, Panic)
          end
      | Fail e => (r3, Fail e)
      | Panic => (r3, Panic)
      end
  end.

(** [query]; the reply message is the record's. *)
Definition query (req : Msg) (now : Z) (r : fakeIPResolver) : fakeIPResolver * res Msg :=
  match question_name req with
  | None => (r, Panic)
  | Some name =>
      let domain := TrimDomain name in
      match find domain now r with
      | (r1, Ret i) =>
          match records r1 !! i with
          | None => (r1, Panic)
          | Some rec =>
              let reply := SetReply (Reply rec) req in
              (set_record r1 i (MkRecord (Domain rec) (FakeIP rec) (Query rec) reply) (next r1), Ret reply)
          end
      | (r1, Panic) => (r1, Panic)
      | (r1, Fail _) =>
          match makeNewFakeDnsRecord domain req now r1 with
          | (r2, Ret i) => (r2, rec ← deref r2 i; Ret (Reply rec))
          | (r2, Fail e) => (r2, Fail e)
          | (r2, Panic) => (r2, Panic)
          end
      end
  end.

(** The transitions of a running resolver: lookups and queries at any time, and
    the background cleanups of the two caches. *)
Inductive step : fakeIPResolver → fakeIPResolver → Prop :=
| step_find ip now r r' x : FindByIP ip now r = (r', x) → step r r'
| step_query req now r r' x : query req now r = (r', x) → step r r'
| step_cleanup now r c ev :
    cache_cleanup host_options now (cache r) c ev → step r (set_cache r c ev)
| step_ip_cleanup now r c ev :
    cache_cleanup ip_options now (ipCache r) c ev → step r (set_ipCache r c).

Definition reachable (cidr : Prefix) (r : fakeIPResolver) : Prop :=
  ∃ r0, newFakeIPResolver (Some cidr) = Ret r0 ∧ rtc step r0 r.
End FakeIP.
Arguments Record_ : clear implicits.
Arguments fakeIPResolver : clear implicits.

(** ** The invariant *)
Section Invariant.
Context {Msg : Type}.
Implicit Types (recs : gmap nat (Record_ Msg)) (L : list (gostring * nat)) (I : list (Addr * nat)).

(** [L]: the entries of the host cache; [I]: those of the address cache; [tunv],
    [dnsv]: the reserved addresses. *)
Record Core (p : ipPool) recs (n : nat) L I (tunv dnsv : Z) : Prop := {
  core_pool : Inv p;
  core_size : hmax p - hmin p < 2 ^ 32 - 1;
  core_live : ∀ h i, (h, i) ∈ L → ∃ rec v, recs !! i = Some rec ∧ Domain rec = h ∧
    FakeIP rec = intToIP v ∧ hmin p ≤ v ≤ hmax p ∧ used_at p v = true ∧ v ≠ tunv ∧ v ≠ dnsv;
  core_hosts : NoDup L.*1;
  core_ips : ∀ h1 i1 h2 i2 rec1 rec2, (h1, i1) ∈ L → (h2, i2) ∈ L →
    recs !! i1 = Some rec1 → recs !! i2 = Some rec2 → FakeIP rec1 = FakeIP rec2 → h1 = h2;
  core_ipcache : ∀ ip i, (ip, i) ∈ I → ∃ rec, recs !! i = Some rec ∧ FakeIP rec = ip;
  core_link : ∀ h i ip j rec, (h, i) ∈ L → (ip, j) ∈ I → recs !! i = Some rec → FakeIP rec = ip → j = i;
  core_next : ∀ i, (n ≤ i)%nat → recs !! i = None;
  core_tun : hmin p ≤ tunv ≤ hmax p ∧ used_at p tunv = true;
  core_dns : hmin p ≤ dnsv ≤ hmax p ∧ used_at p dnsv = true;
}.

Lemma intToIP_inj v w : 0 ≤ v < 2 ^ 32 → 0 ≤ w < 2 ^ 32 → intToIP v = intToIP w → v = w.
Proof.
  intros Hv Hw E. assert (ipToInt (intToIP v) = ipToInt (intToIP w)) as H by congruence.
  rewrite !intToIP_ipToInt in H by done. congruence.
Qed.

(** Releasing the address of a host that is no longer listed. *)
Lemma Core_release1 p recs n L I tunv dnsv h i :
  Core p recs n ((h, i) :: L) I tunv dnsv →
  Core (release1 recs p (h, i)) recs n L I tunv dnsv.
Proof.
  intros HC. destruct (core_live _ _ _ _ _ _ _ HC h i) as (rec & v & Er & Hd & Hf & Hv & Hu & Ht & Hdn); [by left|].
  pose proof (core_pool _ _ _ _ _ _ _ HC) as HI.
  unfold release1. simpl. rewrite Er, Hf. unfold Release. rewrite index_in by done. cbn [mbind res_bind].
  destruct (used_at_range p v HI Hv) as (k & Hk & Hlt). rewrite <-Hk.
  destruct (set_flag_ok p k false HI Hlt) as (p' & -> & HI' & Hmin & Hmax & _ & Hfl).
  change (Core p' recs n L I tunv dnsv).
  pose proof (core_hosts _ _ _ _ _ _ _ HC) as Hn. simpl in Hn. apply NoDup_cons in Hn as [Hnh Hn].
  assert (∀ w, hmin p ≤ w ≤ hmax p → w ≠ v → used_at p' w = used_at p w) as Hsame.
  { intros w Hw Hne. unfold used_at. rewrite Hmin, Hfl, list_lookup_insert_ne by lia. done. }
  split; rewrite ?Hmin, ?Hmax.
  - done.
  - apply HC.
  - intros h' i' Hin. destruct (core_live _ _ _ _ _ _ _ HC h' i') as (rec' & v' & Er' & Hd' & Hf' & Hv' & Hu' & ? & ?); [by right|].
    exists rec', v'. split_and!; try done; try lia. rewrite Hsame; [done..|]. intros ->.
    assert (h' = h) as ->.
    { eapply (core_ips _ _ _ _ _ _ _ HC h' i' h i); [by right|by left|done..|congruence]. }
    apply Hnh. apply list_elem_of_fmap. by exists (h, i').
  - done.
  - intros h1 i1 h2 i2 rec1 rec2 H1 H2. eapply (core_ips _ _ _ _ _ _ _ HC); by right.
  - apply HC.
  - intros h' i' ip j rec' H1 H2. eapply (core_link _ _ _ _ _ _ _ HC); [by right|done].
  - apply HC.
  - destruct (core_tun _ _ _ _ _ _ _ HC). by rewrite Hsame.
  - destruct (core_dns _ _ _ _ _ _ _ HC). by rewrite Hsame.
Qed.

Lemma Core_perm p recs n L L' I tunv dnsv :
  L ≡ₚ L' → Core p recs n L I tunv dnsv → Core p recs n L' I tunv dnsv.
Proof.
  intros Hp HC. split; try apply HC.
  - intros h i. rewrite <-Hp. apply HC.
  - rewrite <-Hp. apply HC.
  - intros h1 i1 h2 i2 rec1 rec2. rewrite <-!Hp. apply HC.
  - intros h i ip j rec. rewrite <-Hp. apply HC.
Qed.

Lemma Core_release p recs n L ev I tunv dnsv :
  Core p recs n (L ++ ev) I tunv dnsv →
  Core (onReleaseFakeIP recs p ev) recs n L I tunv dnsv.
Proof.
  revert p. induction ev as [|[h i] ev IH]; intros p HC; simpl; [by rewrite app_nil_r in HC|].
  apply IH, Core_release1. eapply Core_perm; [|exact HC]. by rewrite Permutation_middle.
Qed.

Lemma Core_ipcache_subset p recs n L I I' tunv dnsv :
  (∀ x, x ∈ I' → x ∈ I) → Core p recs n L I tunv dnsv → Core p recs n L I' tunv dnsv.
Proof.
  intros Hs HC. split; try apply HC.
  - intros ip i Hi%Hs. by apply (core_ipcache _ _ _ _ _ _ _ HC).
  - intros h i ip j rec H1 H2%Hs. by eapply (core_link _ _ _ _ _ _ _ HC).
Qed.

(** A fresh record with a newly allocated address. *)
Lemma Core_new p recs n L I tunv dnsv host rec ip p' :
  Core p recs n L I tunv dnsv → host ∉ L.*1 → Allocate p host = (p', Ret ip) →
  Domain rec = host → FakeIP rec = ip →
  Core p' (<[n := rec]> recs) (S n) (L ++ [(host, n)]) (filter (λ x, x.1 ≠ ip) I ++ [(ip, n)]) tunv dnsv.
Proof.
  intros HC Hh HA Hd Hf. pose proof (core_pool _ _ _ _ _ _ _ HC) as HI.
  destruct (Allocate_cases p host HI (core_size _ _ _ _ _ _ _ HC))
    as [(k & p'' & Hk & E & Hle & HI' & Hmin & Hmax & _ & Hfl)|[_ E]]; rewrite E in HA; simplify_eq.
  set (v := hmin p + Z.of_nat k) in *. pose proof (inv_range p HI) as Hr.
  assert (Z.to_nat (v - hmin p) = k) as Hz by lia.
  assert (used_at p v = false) as Hfree by (unfold used_at; by rewrite Hz, Hk).
  pose proof (lookup_lt_Some _ _ _ Hk) as Hlt.
  assert (∀ w, hmin p ≤ w ≤ hmax p → used_at p w = true → used_at p' w = true ∧ w ≠ v) as Hkeep.
  { intros w Hw Hu. assert (w ≠ v) by (intros ->; congruence). split; [|done].
    unfold used_at in *. rewrite Hmin, Hfl, list_lookup_insert_ne by lia. done. }
  assert (∀ i, is_Some (recs !! i) → i ≠ n) as Hfresh.
  { intros i [x Ex] ->. rewrite (core_next _ _ _ _ _ _ _ HC n) in Ex by lia. done. }
  assert (∀ h i, (h, i) ∈ L → ∃ r, recs !! i = Some r ∧ FakeIP r ≠ intToIP v) as HL.
  { intros h i Hin. destruct (core_live _ _ _ _ _ _ _ HC h i Hin) as (r & w & Er & _ & Hfw & Hw & Hu & _).
    exists r. split; [done|]. rewrite Hfw. intros Heq%intToIP_inj; [|lia..]. by apply (Hkeep w Hw Hu). }
  destruct (core_tun _ _ _ _ _ _ _ HC) as [Ht1 Ht2], (core_dns _ _ _ _ _ _ _ HC) as [Hd1 Hd2].
  destruct (Hkeep _ Ht1 Ht2) as [Ht3 Ht4], (Hkeep _ Hd1 Hd2) as [Hd3 Hd4].
  assert (∀ h i, (h, i) ∈ L ++ [(Domain rec, n)] → (h, i) ∈ L ∧ i ≠ n ∨ h = Domain rec ∧ i = n) as Hcases.
  { intros h i [Hin|[= -> ->]%list_elem_of_singleton]%elem_of_app; [left|by right].
    split; [done|]. destruct (HL h i Hin) as (r & Er & _). eauto. }
  split; rewrite ?Hmin, ?Hmax; try done.
  - apply HC.
  - intros h i [[Hin Hne]|[-> ->]]%Hcases.
    + destruct (core_live _ _ _ _ _ _ _ HC h i Hin) as (r & w & Er & Hdr & Hfw & Hw & Hu & ? & ?).
      exists r, w. rewrite lookup_insert_ne by done. destruct (Hkeep w Hw Hu). split_and!; done || lia.
    + exists rec, v. rewrite lookup_insert_eq. split_and!; try done; try lia.
      unfold used_at. by rewrite Hmin, Hz, Hfl, list_lookup_insert_eq.
  - rewrite fmap_app. apply NoDup_app. split_and!; [apply HC| |apply NoDup_singleton].
    intros h Hin ->%list_elem_of_singleton. done.
  - intros h1 i1 h2 i2 rec1 rec2 [[H1 Hn1]|[-> ->]]%Hcases [[H2 Hn2]|[-> ->]]%Hcases E1 E2 Heq.
    + rewrite lookup_insert_ne in E1, E2 by done. by eapply (core_ips _ _ _ _ _ _ _ HC).
    + exfalso. rewrite lookup_insert_ne in E1 by done. rewrite lookup_insert_eq in E2. simplify_eq.
      destruct (HL h1 i1 H1) as (r & Er & Hr'). simplify_eq. congruence.
    + exfalso. rewrite lookup_insert_ne in E2 by done. rewrite lookup_insert_eq in E1. simplify_eq.
      destruct (HL h2 i2 H2) as (r & Er & Hr'). simplify_eq. congruence.
    + done.
  - intros ip i [[_ Hin]%list_elem_of_filter|[= -> ->]%list_elem_of_singleton]%elem_of_app.
    + destruct (core_ipcache _ _ _ _ _ _ _ HC ip i Hin) as (r & Er & Hfr).
      exists r. rewrite lookup_insert_ne by (symmetry; eauto). done.
    + exists rec. by rewrite lookup_insert_eq.
  - intros h i ip j r [[H1 Hn1]|[-> ->]]%Hcases Hin Er Hfr.
    + rewrite lookup_insert_ne in Er by done.
      apply elem_of_app in Hin as [[Hne Hin]%list_elem_of_filter|[= -> ->]%list_elem_of_singleton].
      * by eapply (core_link _ _ _ _ _ _ _ HC).
      * exfalso. destruct (HL h i H1) as (r' & Er' & Hr'). simplify_eq. congruence.
    + rewrite lookup_insert_eq in Er. simplify_eq.
      apply elem_of_app in Hin as [[Hne Hin]%list_elem_of_filter|[= ->]%list_elem_of_singleton]; [|done].
      simpl in Hne. congruence.
  - intros i Hi. rewrite lookup_insert_ne by lia. apply (core_next _ _ _ _ _ _ _ HC). lia.
Qed.

(** Updating a record's messages in place. *)
Lemma Core_touch p recs n L I tunv dnsv i rec rec' :
  Core p recs n L I tunv dnsv → recs !! i = Some rec →
  Domain rec' = Domain rec → FakeIP rec' = FakeIP rec →
  Core p (<[i := rec']> recs) n L I tunv dnsv.
Proof.
  intros HC Er Hd Hf.
  assert (∀ j r, <[i := rec']> recs !! j = Some r → ∃ r0, recs !! j = Some r0 ∧ Domain r = Domain r0 ∧ FakeIP r = FakeIP r0) as Hback.
  { intros j r. destruct (decide (j = i)) as [->|]; [rewrite lookup_insert_eq; naive_solver|].
    rewrite lookup_insert_ne by done. eauto. }
  assert (∀ j r0, recs !! j = Some r0 → ∃ r, <[i := rec']> recs !! j = Some r ∧ Domain r = Domain r0 ∧ FakeIP r = FakeIP r0) as Hforw.
  { intros j r0 Ej. destruct (decide (j = i)) as [->|]; [rewrite lookup_insert_eq; naive_solver|].
    rewrite lookup_insert_ne by done. eauto. }
  split; try apply HC.
  - intros h j Hin. destruct (core_live _ _ _ _ _ _ _ HC h j Hin) as (r0 & v & E0 & Hd0 & Hf0 & Hrest).
    destruct (Hforw j r0 E0) as (r & E & Hd1 & Hf1). exists r, v. split_and!; try apply Hrest; congruence.
  - intros h1 i1 h2 i2 r1 r2 H1 H2 (a & Ea & _ & Fa)%Hback (b & Eb & _ & Fb)%Hback Heq.
    eapply (core_ips _ _ _ _ _ _ _ HC); eauto. congruence.
  - intros ip j Hin. destruct (core_ipcache _ _ _ _ _ _ _ HC ip j Hin) as (r0 & E0 & Hf0).
    destruct (Hforw j r0 E0) as (r & E & _ & Hf1). exists r. split; congruence.
  - intros h j ip j' r H1 H2 (a & Ea & _ & Fa)%Hback Heq.
    eapply (core_link _ _ _ _ _ _ _ HC); eauto. congruence.
  - intros j Hj. destruct (decide (j = i)) as [->|].
    + rewrite (core_next _ _ _ _ _ _ _ HC i Hj) in Er. done.
    + rewrite lookup_insert_ne by done. by apply (core_next _ _ _ _ _ _ _ HC).
Qed.
End Invariant.

Section Steps.
Context {Msg : Type}
  (question_name : Msg → option gostring)
  (emptyMsg : Msg) (SetReply : Msg → Msg → Msg) (Fqdn : gostring → gostring)
  (appendA : Msg → gostring → Z → list Z → Msg).
Context {C1 C2 : Type} `{!CacheOps gostring nat C1, !CacheOps Addr nat C2}.
Context `{!CacheLaws gostring nat C1, !CacheLaws Addr nat C2}.
Implicit Types (r : fakeIPResolver Msg C1 C2).

Abbreviation make := (makeNewFakeDnsRecord emptyMsg SetReply Fqdn appendA).
Abbreviation query := (query question_name emptyMsg SetReply Fqdn appendA).
Abbreviation step := (step question_name emptyMsg SetReply Fqdn appendA).

Definition hosts r : list (gostring * nat) := pairs (cache_view (cache r)).
Definition ips r : list (Addr * nat) := pairs (cache_view (ipCache r)).

Record FInv (tunv dnsv : Z) r : Prop := {
  f_cache : cache_inv (cache r);
  f_ipCache : cache_inv (ipCache r);
  f_bounded : bounded host_options (cache_view (cache r));
  f_ipbounded : bounded ip_options (cache_view (ipCache r));
  f_core : Core (pool r) (records r) (next r) (hosts r) (ips r) tunv dnsv;
  f_tun : (tunPrefix r).1 = intToIP tunv;
  f_dns : dnsIP r = intToIP dnsv;
}.

Lemma find_ok tunv dnsv host now r r' x :
  FInv tunv dnsv r → find host now r = (r', x) →
  FInv tunv dnsv r' ∧ records r' = records r ∧ next r' = next r ∧ ips r' = ips r ∧
  match x with
  | Ret i => (host, i) ∈ hosts r ∧ (host, i) ∈ hosts r'
  | Fail _ => host ∉ (hosts r').*1
  | Panic => True
  end.
Proof.
  intros HF. unfold find. destruct (cache_get host_options host now (cache r)) as [[c ev] y] eqn:E.
  intros [= <- <-]. apply cache_get_ok in E as [Hc E]; [|apply HF].
  pose proof (f_bounded _ _ _ HF) as [Hn _].
  pose proof (get_conserves host_options _ _ _ _ _ _ Hn eq_refl E) as Hp.
  split; [|split_and!; [done..|]].
  - split; try apply HF; [done| |].
    + eapply (spec_step_bounded host_options now (OGet host)); [apply HF|].
      simpl. by rewrite E.
    + simpl. apply Core_release. eapply Core_perm; [|apply HF]. symmetry. exact Hp.
  - destruct y as [i|e|]; [|..].
    + by eapply get_Ret_elem.
    + unfold hosts. rewrite pairs_keys. eapply (get_fails_absent host_options); [exact Hn|done|exact E].
    + done.
Qed.

Lemma FindByIP_ok tunv dnsv ip now r r' x :
  FInv tunv dnsv r → FindByIP ip now r = (r', x) →
  FInv tunv dnsv r' ∧
  match x with
  | Ret i => ∃ j rec h, (ip, j) ∈ ips r ∧ records r !! j = Some rec ∧ FakeIP rec = ip ∧ Domain rec = h ∧
               (h, i) ∈ hosts r
  | _ => True
  end.
Proof.
  intros HF. unfold FindByIP. destruct (cache_get ip_options ip now (ipCache r)) as [[c ev] y] eqn:E.
  apply cache_get_ok in E as [Hc E]; [|apply HF].
  assert (FInv tunv dnsv (set_ipCache r c)) as HF1.
  { split; try apply HF; [done| |].
    - eapply (spec_step_bounded ip_options now (OGet ip)); [apply HF|]. simpl. by rewrite E.
    - eapply Core_ipcache_subset; [|apply HF]. by eapply get_subset. }
  destruct y as [j|e|]; [|by intros [= <- <-]..].
  apply get_Ret_elem in E as [Hj _].
  destruct (core_ipcache _ _ _ _ _ _ _ (f_core _ _ _ HF) ip j Hj) as (rec & Er & Hf).
  unfold deref. simpl. rewrite Er. intros H. apply (find_ok tunv dnsv) in H as (HF2 & _ & _ & _ & Hx); [|done].
  split; [done|]. destruct x as [i|e|]; [|done..]. destruct Hx as [Hx _]. by exists j, rec, (Domain rec).
Qed.

Lemma make_ok tunv dnsv host req now r r' x :
  FInv tunv dnsv r → host ∉ (hosts r).*1 → make host req now r = (r', x) →
  FInv tunv dnsv r' ∧
  match x with
  | Ret i => (host, i) ∈ hosts r' ∧ ∃ rec, records r' !! i = Some rec ∧ Domain rec = host ∧
               Reply rec = fake_reply emptyMsg SetReply Fqdn appendA host req (FakeIP rec)
  | Fail e => e = errNoAvailableFakeIP ∧ Available (pool r) = 0%nat
  | Panic => False
  end.
Proof.
  intros HF Hh. unfold makeNewFakeDnsRecord. pose proof (f_core _ _ _ HF) as HC.
  destruct (Allocate (pool r) host) as [p a] eqn:EA.
  destruct (Allocate_cases (pool r) host (core_pool _ _ _ _ _ _ _ HC) (core_size _ _ _ _ _ _ _ HC))
    as [(k & p' & _ & E & _)|[H0 E]]; rewrite E in EA; injection EA as <- <-.
  2:{ intros [= <- <-]. split; [|done]. destruct r; exact HF. }
  simpl. set (fakeIP := intToIP (hmin (pool r) + Z.of_nat k)) in *.
  set (rec := MkRecord host fakeIP req _). set (i := next r).
  destruct (cache_set host_options host i now (cache r)) as [[c ev] y] eqn:E1.
  pose proof (Core_new _ _ _ _ _ _ _ host rec fakeIP p' HC Hh E eq_refl eq_refl) as HC1.
  apply cache_set_ok in E1 as [Hc E1]; [|apply HF].
  pose proof E1 as E1'. apply set_conserves in E1 as (-> & Hp & Hin);
    [|by rewrite <-pairs_keys|done|simpl; lia].
  destruct (cache_set ip_options fakeIP i now (ipCache r)) as [[c2 ev2] z] eqn:E2.
  apply cache_set_ok in E2 as [Hc2 E2]; [|apply HF].
  pose proof E2 as E2'. apply set_subset in E2 as [-> Hs]; [|simpl; lia].
  intros [= <- <-]. split.
  - split; simpl; try apply HF; [done|done| | |].
    + eapply (spec_step_bounded host_options now (OSet host i)); [apply HF|]. simpl. by rewrite E1'.
    + eapply (spec_step_bounded ip_options now (OSet fakeIP i)); [apply HF|]. simpl. by rewrite E2'.
    + apply Core_release. eapply Core_perm; [symmetry; exact Hp|].
      eapply Core_ipcache_subset; [|exact HC1]. intros [ip j] Hx%Hs.
      rewrite elem_of_app, list_elem_of_filter, list_elem_of_singleton. simpl in *.
      destruct Hx as [->|[??]]; [by right|by left].
  - split; [exact Hin|]. exists rec. simpl. by rewrite lookup_insert_eq.
Qed.

Lemma query_ok tunv dnsv req now r r' x :
  FInv tunv dnsv r → query req now r = (r', x) → FInv tunv dnsv r'.
Proof.
  intros HF. unfold FakeIP.query. destruct (question_name req) as [name|]; [|by intros [= <- <-]].
  destruct (find (TrimDomain name) now r) as [r1 y] eqn:E.
  destruct (find_ok tunv dnsv _ _ _ _ _ HF E) as (HF1 & Hr & Hn & Hi & Hx).
  destruct y as [i|e|]; [| |by intros [= <- <-]].
  - destruct Hx as [_ Hx]. destruct (core_live _ _ _ _ _ _ _ (f_core _ _ _ HF1) _ _ Hx) as (rec & v & Er & Hd & _).
    rewrite Er. intros [= <- <-]. split; simpl; try apply HF1.
    eapply Core_touch; [apply HF1|exact Er|done|done].
  - destruct (make (TrimDomain name) req now r1) as [r2 z] eqn:E2.
    destruct (make_ok tunv dnsv _ _ _ _ _ _ HF1 Hx E2) as [HF2 _].
    destruct z; by intros [= <- <-].
Qed.

Lemma step_ok tunv dnsv r r' : FInv tunv dnsv r → step r r' → FInv tunv dnsv r'.
Proof.
  intros HF Hs. destruct Hs as [ip now r r' x E|req now r r' x E|now r c ev E|now r c ev E].
  - by eapply FindByIP_ok.
  - by eapply query_ok.
  - apply cache_cleanup_ok in E as (Hc & Hv & Hp); [|apply HF].
    split; simpl; try apply HF; [done| |].
    + rewrite Hv. by apply bounded_filter, HF.
    + apply Core_release. unfold hosts. simpl. rewrite Hv. eapply Core_perm; [|apply HF].
      symmetry. by apply (cleanup_conserves host_options).
  - apply cache_cleanup_ok in E as (Hc & Hv & _); [|apply HF].
    split; simpl; try apply HF; [done| |].
    + rewrite Hv. by apply bounded_filter, HF.
    + eapply Core_ipcache_subset; [|apply HF]. unfold ips. simpl. rewrite Hv. apply live_subset.
Qed.

(** *** Initialisation *)

Lemma allocateFor_in p v :
  Inv p → hmin p ≤ v ≤ hmax p →
  ∃ p', allocateFor p (intToIP v) = Ret (p', Some (intToIP v)) ∧ Inv p' ∧
    hmin p' = hmin p ∧ hmax p' = hmax p ∧ bits p' = bits p ∧
    flags p' = <[Z.to_nat (v - hmin p) := true]> (flags p).
Proof.
  intros HI Hv. unfold allocateFor. rewrite index_in by done. cbn [mbind res_bind].
  destruct (used_at_range p v HI Hv) as (k & Hk & Hlt). rewrite <-Hk.
  destruct (set_flag_ok p k true HI Hlt) as (p' & -> & HI' & ? & ? & ? & ?). by exists p'.
Qed.

Lemma allocateFor_out p v k :
  Inv p → 0 ≤ v < 2 ^ 32 → (v < hmin p ∨ hmax p < v) → first_unused (flags p) = Some k →
  ∃ p', allocateFor p (intToIP v) = Ret (p', Some (intToIP (hmin p + Z.of_nat k))) ∧ Inv p' ∧
    hmin p' = hmin p ∧ hmax p' = hmax p ∧ bits p' = bits p ∧
    flags p' = <[k := true]> (flags p) ∧ hmin p + Z.of_nat k ≤ hmax p.
Proof.
  intros HI Hv Ho Hk. unfold allocateFor. rewrite index_out by done. cbn [mbind res_bind]. rewrite Hk.
  pose proof (lookup_lt_Some _ _ _ (first_unused_Some _ _ Hk)) as Hlt. pose proof HI as [Hr Hl].
  destruct (set_flag_ok p k true HI Hlt) as (p' & -> & HI' & ? & ? & ? & ?). cbn [mbind res_bind].
  exists p'. split_and!; try done; [|lia]. do 4 f_equal. unfold u32.
  rewrite (Z.mod_small (Z.of_nat k)), Z.mod_small by lia. done.
Qed.

Lemma Addr4_intToIP b : length b = 4%nat → wf_bytes b → Addr4 b = intToIP (be_int b).
Proof.
  intros Hl Hw. destruct b as [|x0 [|x1 [|x2 [|x3 [|]]]]]; try done.
  unfold wf_bytes, is_byte in Hw. rewrite !Forall_cons in Hw.
  unfold intToIP, be_int. cbn [foldl]. unfold u8. rewrite !Z.shiftr_div_pow2 by lia.
  change (2 ^ 8) with 256. change (2 ^ 16) with 65536. change (2 ^ 24) with 16777216.
  set (w := ((_ * 256 + x1) * 256 + x2) * 256 + x3).
  assert (w / 16777216 = x0 ∧ w / 65536 = x0 * 256 + x1 ∧ w / 256 = (x0 * 256 + x1) * 256 + x2) as (-> & -> & ->).
  { unfold w. split_and!; symmetry.
    - apply (Z.div_unique _ _ _ ((x1 * 256 + x2) * 256 + x3)); lia.
    - apply (Z.div_unique _ _ _ (x2 * 256 + x3)); lia.
    - apply (Z.div_unique _ _ _ x3); lia. }
  unfold w. rewrite (Z.mod_small x0) by lia.
  rewrite !(Z.add_comm (_ * 256)), !Z_mod_plus_full, !Z.mod_small by lia. done.
Qed.

(** The two reserved addresses: [tunv] is the prefix's own address if the pool
    has it. *)
Lemma newFakeIPResolver_ok b n :
  length b = 4%nat → wf_bytes b → 0 ≤ n ≤ 31 → be_int b < 2 ^ 32 - 1 →
  ∃ r tunv dnsv, newFakeIPResolver (Msg := Msg) (C1 := C1) (C2 := C2) (Some (Addr4 b, n)) = Ret r ∧
    FInv tunv dnsv r ∧ tunv ≠ dnsv ∧ hosts r = [] ∧
    (first_host (be_int b) n ≤ be_int b ≤ last_host (be_int b) n → tunv = be_int b).
Proof.
  intros Hl Hw Hn Hmax.
  destruct (newIPPool_v4 b n Hl Hw Hn) as (p0 & E0 & HI0 & H1 & H2 & _ & Hf & Hlt & Hsz).
  pose proof (be_int_4 b Hl Hw) as Hv. set (v := be_int b) in *. rewrite <-H1, <-H2.
  pose proof HI0 as [Hr0 Hl0].
  destruct (flags p0) as [|f0 [|f1 fl]] eqn:Ef; simpl in Hl0; [lia..|].
  assert (f0 = false ∧ f1 = false) as [-> ->] by (simpl in Hf; by injection Hf).
  assert (∀ tunv dnsv p1 p2, Inv p2 → hmin p2 = hmin p0 → hmax p2 = hmax p0 →
    hmin p0 ≤ tunv ≤ hmax p0 → hmin p0 ≤ dnsv ≤ hmax p0 → tunv ≠ dnsv →
    flags p1 = <[Z.to_nat (tunv - hmin p0) := true]> (flags p0) →
    flags p2 = <[Z.to_nat (dnsv - hmin p0) := true]> (flags p1) →
    FInv tunv dnsv (MkResolver p2 cache_new cache_new (intToIP dnsv) (intToIP tunv, bits p2) ∅ 0)) as Hfin.
  { intros tunv dnsv p1 p2 HI2 Hm2 Hx2 Ht Hd Hne F1 F2.
    destruct (cache_new_ok (C := C1)) as [Hc1 Hv1]. destruct (cache_new_ok (C := C2)) as [Hc2 Hv2].
    split; simpl; try done.
    - rewrite Hv1. split; [constructor|simpl; lia].
    - rewrite Hv2. split; [constructor|simpl; lia].
    - unfold hosts, ips. simpl. rewrite Hv1, Hv2. simpl.
      split; rewrite ?Hm2, ?Hx2; try done;
        try (intros; match goal with H : _ ∈ [] |- _ => by apply not_elem_of_nil in H end); [constructor|..].
      + split; [done|]. unfold used_at. rewrite Hm2, F2, list_lookup_insert_ne by lia.
        rewrite F1, list_lookup_insert_eq; [done|]. rewrite Ef. simpl. lia.
      + split; [done|]. unfold used_at. rewrite Hm2, F2, list_lookup_insert_eq; [done|].
        rewrite F1, length_insert, Ef. simpl. lia. }
  unfold newFakeIPResolver. rewrite E0. cbn [mbind res_bind]. rewrite (Addr4_intToIP b) by done. fold v.
  destruct (decide (hmin p0 ≤ v ≤ hmax p0)) as [Hin|Hout].
  - destruct (allocateFor_in p0 v HI0 Hin) as (p1 & -> & HI1 & Hm1 & Hx1 & Hb1 & F1). cbn [mbind res_bind].
    rewrite intToIP_ipToInt by done. cbn [mbind res_bind]. unfold Addr4_Next.
    rewrite (proj2 (Z.eqb_neq _ _)) by lia. destruct (decide (v + 1 ≤ hmax p0)).
    + destruct (allocateFor_in p1 (v + 1) HI1) as (p2 & -> & HI2 & Hm2 & Hx2 & Hb2 & F2); [lia|].
      cbn [mbind res_bind default]. eexists _, v, (v + 1). split; [reflexivity|]. split_and!; try done; try lia.
      * apply (Hfin v (v + 1) p1); rewrite ?Hm2, ?Hx2; try done; try lia. by rewrite F2, Hm1.
      * unfold hosts. simpl. by destruct (cache_new_ok (C := C1)) as [_ ->].
    + assert (first_unused (flags p1) = Some 0%nat) as Hu.
      { rewrite F1, Ef. destruct (Z.to_nat (v - hmin p0)) eqn:Ez; [lia|done]. }
      destruct (allocateFor_out p1 (v + 1) 0 HI1) as (p2 & -> & HI2 & Hm2 & Hx2 & Hb2 & F2 & _); [lia..|done|].
      cbn [mbind res_bind default]. replace (hmin p1 + Z.of_nat 0) with (hmin p0) by lia.
      eexists _, v, (hmin p0). split; [reflexivity|]. split_and!; try done; try lia.
      * apply (Hfin v (hmin p0) p1); rewrite ?Hm2, ?Hx2; try done; try lia. by rewrite Z.sub_diag.
      * unfold hosts. simpl. by destruct (cache_new_ok (C := C1)) as [_ ->].
  - destruct (allocateFor_out p0 v 0 HI0) as (p1 & -> & HI1 & Hm1 & Hx1 & Hb1 & F1 & _);
      [lia..|by rewrite Ef|]. cbn [mbind res_bind].
    replace (hmin p0 + Z.of_nat 0) with (hmin p0) by lia.
    rewrite intToIP_ipToInt by lia. cbn [mbind res_bind]. unfold Addr4_Next.
    rewrite (proj2 (Z.eqb_neq _ _)) by lia.
    destruct (allocateFor_in p1 (hmin p0 + 1) HI1) as (p2 & -> & HI2 & Hm2 & Hx2 & Hb2 & F2); [lia|].
    cbn [mbind res_bind default]. eexists _, (hmin p0), (hmin p0 + 1). split; [reflexivity|].
    split_and!; try done; try lia.
    + apply (Hfin (hmin p0) (hmin p0 + 1) p1); rewrite ?Hm2, ?Hx2; try done; try lia.
      * by rewrite Z.sub_diag.
      * by rewrite F2, Hm1.
    + unfold hosts. simpl. by destruct (cache_new_ok (C := C1)) as [_ ->].
Qed.

(** The network of a prefix does not depend on which of its hosts is named. *)
Lemma host_network v n h : 0 ≤ n ≤ 31 → 0 ≤ v < 2 ^ 32 → h = first_host v n →
  first_host h n = first_host v n ∧ last_host h n = last_host v n.
Proof.
  intros Hn Hv ->. destruct (network_bounds v n Hn Hv) as (Hk & _ & _ & Hk4).
  assert (first_host v n / 2 ^ (32 - n) = v / 2 ^ (32 - n)) as E.
  { unfold first_host. destruct (Z.eqb_spec n 31); [by rewrite Z.div_mul by lia|].
    specialize (Hk4 ltac:(lia)). rewrite Z.div_add_l, (Z.div_small 1) by lia. lia. }
  unfold first_host at 1, last_host. by rewrite E.
Qed.

Lemma newIPPool_network b b' n pool :
  length b = 4%nat → wf_bytes b → length b' = 4%nat → wf_bytes b' → 0 ≤ n ≤ 31 →
  be_int b' = first_host (be_int b) n →
  newIPPool (Some (Addr4 b, n)) = Ret pool → newIPPool (Some (Addr4 b', n)) = Ret pool.
Proof.
  intros Hl Hw Hl' Hw' Hn Hb E. destruct (newIPPool_v4 b n Hl Hw Hn) as (p & E1 & HI & H1 & H2 & H3 & Hf & _).
  destruct (newIPPool_v4 b' n Hl' Hw' Hn) as (p' & E2 & HI' & H1' & H2' & H3' & Hf' & _).
  destruct (host_network (be_int b) n _ Hn (be_int_4 b Hl Hw) Hb) as [Hx Hy].
  rewrite E2. rewrite E1 in E. injection E as <-. f_equal.
  assert (length (flags p') = length (flags p)) as Hlen.
  { pose proof (inv_len _ HI). pose proof (inv_len _ HI'). rewrite H1', H2', Hx, Hy in *. lia. }
  rewrite Hlen in Hf'. rewrite <-Hf in Hf'. destruct p, p'. simpl in *. congruence.
Qed.

Lemma intToIP_bytes v : ∃ b, intToIP v = Addr4 b ∧ length b = 4%nat ∧ wf_bytes b.
Proof. eexists. split; [reflexivity|]. split; [done|]. repeat constructor; apply u8_range. Qed.

Lemma allocateFor_bits p ip p' a : allocateFor p ip = Ret (p', a) → bits p' = bits p.
Proof.
  unfold allocateFor, set_flag. destruct (index p ip) as [[k|]| |]; cbn [mbind res_bind]; [| |done|done].
  - case_match; cbn [mbind res_bind]; [|done]. by intros [= <- _].
  - destruct (first_unused (flags p)); [|by intros [= <- _]]. case_match; cbn [mbind res_bind]; [|done]. by intros [= <- _].
Qed.

(** Making a resolver again from the prefix a resolver settled on. *)
Lemma newFakeIPResolver_again b n r :
  length b = 4%nat → wf_bytes b → 0 ≤ n ≤ 31 → be_int b < 2 ^ 32 - 1 →
  newFakeIPResolver (Msg := Msg) (C1 := C1) (C2 := C2) (Some (Addr4 b, n)) = Ret r →
  newFakeIPResolver (Some (tunPrefix r)) = Ret r.
Proof.
  intros Hl Hw Hn Hmax. pose proof (be_int_4 b Hl Hw) as Hv.
  destruct (newIPPool_v4 b n Hl Hw Hn) as (p0 & E0 & HI0 & H1 & H2 & Hb0 & Hf & Hlt & Hsz). pose proof HI0 as [Hr0 Hl0].
  assert (∀ p1 tunIP r, allocateFor p0 tunIP = Ret (p1, Some tunIP) → newIPPool (Some (tunIP, n)) = Ret p0 →
    (v ← ipToInt tunIP; '(p2, dns) ← allocateFor p1 (Addr4_Next v);
     Ret (MkResolver p2 cache_new cache_new (default AddrNone dns) (tunIP, bits p2) ∅ 0)) = Ret r →
    newFakeIPResolver (Msg := Msg) (C1 := C1) (C2 := C2) (Some (tunPrefix r)) = Ret r) as Hgo.
  { intros p1 tunIP r' Ha Hnew H. assert (tunPrefix r' = (tunIP, n)) as ->.
    { destruct (ipToInt tunIP) as [w| |]; [|done|done]. cbn [mbind res_bind] in H.
      destruct (allocateFor p1 (Addr4_Next w)) as [[p2 dns]| |] eqn:E2; [|done|done]. cbn [mbind res_bind] in H.
      injection H as <-. simpl. apply allocateFor_bits in E2, Ha. congruence. }
    unfold newFakeIPResolver. rewrite Hnew. cbn [mbind res_bind]. rewrite Ha. exact H. }
  unfold newFakeIPResolver at 1. rewrite E0. cbn [mbind res_bind].
  rewrite (Addr4_intToIP b) by done. destruct (decide (hmin p0 ≤ be_int b ≤ hmax p0)) as [Hin|Hout].
  - destruct (allocateFor_in p0 _ HI0 Hin) as (p1 & E1 & _). rewrite E1. cbn [mbind res_bind]. apply (Hgo p1); [done|].
    by rewrite <-Addr4_intToIP.
  - assert (first_unused (flags p0) = Some 0%nat) as Hu.
    { rewrite Hf. destruct (length (flags p0)) eqn:El; [lia|done]. }
    destruct (allocateFor_out p0 _ 0 HI0 Hv ltac:(lia) Hu) as (p1 & E1 & _ & Hm0 & Hx0 & Hb1' & F1 & Hle). rewrite E1.
    cbn [mbind res_bind]. replace (hmin p0 + Z.of_nat 0) with (hmin p0) in * by lia.
    destruct (intToIP_bytes (hmin p0)) as (b' & Eb & Hl' & Hw').
    assert (be_int b' = hmin p0) as Hbe.
    { apply intToIP_inj; [by apply be_int_4|lia|]. by rewrite <-Addr4_intToIP. }
    apply (Hgo p1).
    + destruct (allocateFor_in p0 (hmin p0) HI0 ltac:(lia)) as (p1' & E1' & _ & Hm1 & Hx1 & Hb1 & F1').
      rewrite E1'. do 2 f_equal. rewrite Z.sub_diag in F1'. change (Z.to_nat 0) with 0%nat in F1'. destruct p1, p1'. simpl in *. congruence.
    + rewrite Eb. eapply newIPPool_network; [..|exact E0]; try done. congruence.
Qed.

Lemma reachable_FInv b n r :
  length b = 4%nat → wf_bytes b → 0 ≤ n ≤ 31 → be_int b < 2 ^ 32 - 1 →
  reachable question_name emptyMsg SetReply Fqdn appendA (Addr4 b, n) r →
  ∃ tunv dnsv, FInv tunv dnsv r ∧ tunv ≠ dnsv.
Proof.
  intros Hl Hw Hn Hm (r0 & E & Hs).
  destruct (newFakeIPResolver_ok b n Hl Hw Hn Hm) as (r0' & tunv & dnsv & E' & HF & Hne & _).
  rewrite E in E'. simplify_eq. exists tunv, dnsv. split; [|done]. clear E.
  induction Hs as [|r1 r2 r3 H1 _ IH]; [done|]. apply IH. by eapply step_ok.
Qed.

(** C18 (invariant): in every state a resolver can reach from an IPv4 prefix of at most 31 bits (its address not
    255.255.255.255) by any sequence of queries, lookups and background cleanups that come one after another, the records in
    the host cache have pairwise different fake addresses; each address belongs to the pool, is marked as used, and is neither
    the tun nor the DNS address. (The pool has no lock: of calls that overlap, two can be given one address, see
    [allocate_race] of IPPool.v.) *)
Theorem fakeip_unique b n r :
  length b = 4%nat → wf_bytes b → 0 ≤ n ≤ 31 → be_int b < 2 ^ 32 - 1 →
  reachable question_name emptyMsg SetReply Fqdn appendA (Addr4 b, n) r →
  (tunPrefix r).1 ≠ dnsIP r ∧
  ∀ h i, (h, i) ∈ hosts r → ∃ rec, records r !! i = Some rec ∧ Domain rec = h ∧
    IsFakeIP r (FakeIP rec) = Ret true ∧ IsAvailable (pool r) (FakeIP rec) = Ret false ∧
    FakeIP rec ≠ (tunPrefix r).1 ∧ FakeIP rec ≠ dnsIP r ∧
    ∀ h' i' rec', (h', i') ∈ hosts r → records r !! i' = Some rec' → FakeIP rec' = FakeIP rec → h' = h.
Proof.
  intros Hl Hw Hn Hm Hr. destruct (reachable_FInv b n r Hl Hw Hn Hm Hr) as (tunv & dnsv & HF & Hne).
  pose proof (f_core _ _ _ HF) as HC. pose proof (inv_range _ (core_pool _ _ _ _ _ _ _ HC)) as Hrg.
  destruct (core_tun _ _ _ _ _ _ _ HC) as [Ht _], (core_dns _ _ _ _ _ _ _ HC) as [Hd _].
  rewrite (f_tun _ _ _ HF), (f_dns _ _ _ HF). split; [intros ?%intToIP_inj; lia|].
  intros h i Hin. destruct (core_live _ _ _ _ _ _ _ HC h i Hin) as (rec & v & Er & Hdr & Hf & Hv & Hu & H1 & H2).
  exists rec. rewrite Hf. split_and!; try done.
  - unfold IsFakeIP, Contains. by rewrite index_in by (apply HC || done).
  - rewrite IsAvailable_in by (apply HC || done). by rewrite Hu.
  - intros ?%intToIP_inj; lia.
  - intros ?%intToIP_inj; lia.
  - intros h' i' rec' Hin' Er' Heq. eapply (core_ips _ _ _ _ _ _ _ HC h' i' h i); try done. congruence.
Qed.

(** In every reachable state, looking up the fake address of a
    cached record either fails (the address entry expired or was evicted) or
    returns that very record: no address is ever attributed to another domain. *)
Theorem find_by_ip_same_record b n r h i rec now r' j :
  length b = 4%nat → wf_bytes b → 0 ≤ n ≤ 31 → be_int b < 2 ^ 32 - 1 →
  reachable question_name emptyMsg SetReply Fqdn appendA (Addr4 b, n) r →
  (h, i) ∈ hosts r → records r !! i = Some rec →
  FindByIP (FakeIP rec) now r = (r', Ret j) → j = i.
Proof.
  intros Hl Hw Hn Hm Hr Hin Er HFd. destruct (reachable_FInv b n r Hl Hw Hn Hm Hr) as (tunv & dnsv & HF & _).
  pose proof (f_core _ _ _ HF) as HC.
  destruct (FindByIP_ok _ _ _ _ _ _ _ HF HFd) as (_ & k & rec' & h' & Hk & Ek & Hfk & Hd & Hj).
  assert (k = i) as -> by (eapply (core_link _ _ _ _ _ _ _ HC h i); done). simplify_eq.
  destruct (core_live _ _ _ _ _ _ _ HC h i Hin) as (rec0 & v & E0 & Hd0 & _). simplify_eq.
  pose proof (core_hosts _ _ _ _ _ _ _ HC) as Hnd.
  eapply (NoDup_fst_inj (hosts r)); done.
Qed.

Lemma query_finds b n r req name now now' r1 m :
  length b = 4%nat → wf_bytes b → 0 ≤ n ≤ 31 → be_int b < 2 ^ 32 - 1 →
  reachable question_name emptyMsg SetReply Fqdn appendA (Addr4 b, n) r →
  question_name req = Some name → TrimDomain name ∉ (hosts r).*1 → (0 < Available (pool r))%nat →
  now' < now + DefaultFakeIPDnsRecordTTL →
  query req now r = (r1, m) →
  ∃ i rec r2, m = Ret (Reply rec) ∧
    Reply rec = fake_reply emptyMsg SetReply Fqdn appendA (TrimDomain name) req (FakeIP rec) ∧
    IsAvailable (pool r) (FakeIP rec) = Ret true ∧
    FindByIP (FakeIP rec) now' r1 = (r2, Ret i) ∧ records r2 !! i = Some rec ∧ Domain rec = TrimDomain name ∧
    IsFakeIP r1 (FakeIP rec) = Ret true.
Proof.
  intros Hl Hw Hn Hm Hr Hq Habs Hav Hnow. destruct (reachable_FInv b n r Hl Hw Hn Hm Hr) as (tunv & dnsv & HF & _).
  intros Hquery. pose proof (step_query question_name emptyMsg SetReply Fqdn appendA req now r r1 m Hquery) as Hstep.
  revert Hquery. unfold FakeIP.query. rewrite Hq.
  destruct (find (TrimDomain name) now r) as [r0 y] eqn:E0.
  assert (r0 = set_cache r (cache r0) [] ∧ cache_view (cache r0) = cache_view (cache r) ∧
          cache_inv (cache r0) ∧ y = Fail ErrCacheIsNotFound) as (Er0 & Hv0 & Hc0 & ->).
  { unfold find in E0. destruct (cache_get host_options (TrimDomain name) now (cache r)) as [[c ev] z] eqn:E.
    injection E0 as <- <-. apply cache_get_ok in E as [Hc E]; [|apply HF].
    unfold Spec.get in E. rewrite (proj2 (find_None_elem _ _)) in E by (by rewrite <-pairs_keys).
    by simplify_eq. }
  rewrite Er0. clear E0. generalize dependent r0. intros r0 _ Hv0 Hc0.
  unfold makeNewFakeDnsRecord. simpl.
  pose proof (f_core _ _ _ HF) as HC.
  destruct (Allocate_cases (pool r) (TrimDomain name) (core_pool _ _ _ _ _ _ _ HC) (core_size _ _ _ _ _ _ _ HC))
    as [(k & p & Hk & -> & Hle & _)|[H0 _]]; [|lia].
  set (fakeIP := intToIP _). change (negb (IsValid fakeIP)) with false. cbv iota.
  pose proof (inv_range _ (core_pool _ _ _ _ _ _ _ HC)) as Hrg.
  set (rec := MkRecord (TrimDomain name) fakeIP req _). set (i := next r).
  destruct (cache_set host_options (TrimDomain name) i now (cache r0)) as [[c ev] z] eqn:E1.
  apply cache_set_ok in E1 as [Hc E1]; [|done]. rewrite Hv0 in E1.
  pose proof E1 as E1'. apply set_conserves in E1' as (-> & _ & _);
    [|by rewrite <-pairs_keys|done|simpl; lia].
  destruct (cache_set ip_options fakeIP i now (ipCache r)) as [[c2 ev2] z2] eqn:E2.
  apply cache_set_ok in E2 as [Hc2 E2]; [|apply HF].
  pose proof E2 as E2'. apply set_subset in E2' as [-> _]; [|simpl; lia].
  apply set_find in E1; [|apply (f_bounded _ _ _ HF)]. apply set_find in E2; [|apply (f_ipbounded _ _ _ HF)].
  intros [= <- <-]. exists i, rec. unfold deref. simpl. rewrite lookup_insert_eq.
  unfold FindByIP. simpl.
  destruct (cache_get ip_options fakeIP now' c2) as [[c3 ev3] z3] eqn:E3.
  apply cache_get_ok in E3 as [_ E3]; [|done].
  destruct (get_find ip_options fakeIP now' _ _ _ E2) as [l3 E3']; [done|]. rewrite E3' in E3. simplify_eq.
  unfold deref. simpl. rewrite lookup_insert_eq. unfold find. simpl.
  destruct (cache_get host_options (TrimDomain name) now' c) as [[c4 ev4] z4] eqn:E4.
  apply cache_get_ok in E4 as [_ E4]; [|done].
  destruct (get_find host_options (TrimDomain name) now' _ _ _ E1) as [l4 E4']; [done|].
  rewrite E4' in E4. simplify_eq. eexists. split_and!; try done.
  - change (IsAvailable (pool r) (intToIP (hmin (pool r) + Z.of_nat k)) = Ret true).
    rewrite IsAvailable_in by (apply HC || lia). unfold used_at.
    replace (Z.to_nat (hmin (pool r) + Z.of_nat k - hmin (pool r))) with k by lia. by rewrite Hk.
  - simpl. by rewrite lookup_insert_eq.
  - apply step_ok with (tunv := tunv) (dnsv := dnsv) in Hstep; [|done]. pose proof (f_core _ _ _ Hstep) as HC1.
    destruct (core_live _ _ _ _ _ _ _ HC1 (TrimDomain name) i) as (rec1 & v & Er1 & _ & Hf1 & Hv1 & _).
    + unfold hosts, pairs. cbn [cache]. apply list_elem_of_fmap. exists (TrimDomain name, (i, now + expiration host_options)).
      split; [done|]. by apply find_Some_elem.
    + simpl in Er1. rewrite lookup_insert_eq in Er1. injection Er1 as <-. change (FakeIP rec) with fakeIP in Hf1 |- *.
      pose proof (index_in _ v (core_pool _ _ _ _ _ _ _ HC1) Hv1) as Hidx. rewrite <-Hf1 in Hidx.
      unfold IsFakeIP, Contains. by rewrite Hidx.
Qed.

(** A query for a domain that is not cached, while an address
    is free, answers with a fresh fake address; within the record's lifetime that
    address leads back to the domain. *)
Theorem query_then_find b n r req name now now' r1 m :
  length b = 4%nat → wf_bytes b → 0 ≤ n ≤ 31 → be_int b < 2 ^ 32 - 1 →
  reachable question_name emptyMsg SetReply Fqdn appendA (Addr4 b, n) r →
  question_name req = Some name → TrimDomain name ∉ (hosts r).*1 → (0 < Available (pool r))%nat →
  now' < now + DefaultFakeIPDnsRecordTTL →
  query req now r = (r1, m) →
  ∃ i rec r2, m = Ret (Reply rec) ∧
    Reply rec = fake_reply emptyMsg SetReply Fqdn appendA (TrimDomain name) req (FakeIP rec) ∧
    IsAvailable (pool r) (FakeIP rec) = Ret true ∧
    FindByIP (FakeIP rec) now' r1 = (r2, Ret i) ∧ records r2 !! i = Some rec ∧ Domain rec = TrimDomain name.
Proof.
  intros Hl Hw Hn Hm Hr Hq Habs Hav Hnow HQ.
  destruct (query_finds b n r req name now now' r1 m Hl Hw Hn Hm Hr Hq Habs Hav Hnow HQ) as (i & rec & r2 & H). naive_solver.
Qed.

(** [IsFakeIP] panics on an IPv6 address (one not mapped from
    IPv4), which its callers do not exclude. *)
Theorem is_fake_ip_v6_panics r ip6 zone :
  take 12 ip6 ≠ v4_in_v6_prefix → IsFakeIP r (Addr6 ip6 zone) = Panic.
Proof.
  intros H. unfold IsFakeIP, Contains, index, ipToInt, As4. by rewrite bool_decide_false.
Qed.
End Steps.

(** ** A concrete resolver: messages are names, answers append the address *)
Module Demo.
Definition C1 := LruCache gostring nat.
Definition C2 := LruCache Addr nat.
Definition qname (m : gostring) : option gostring := Some m.
Definition set_reply (m req : gostring) : gostring := req.
Definition fqdn (s : gostring) : gostring := s.
Definition append_a (m name : gostring) (ttl : Z) (ip : list Z) : gostring := m ++ ip.
Definition prefix : list Z := [198; 18; 0; 1].
Definition R := fakeIPResolver gostring C1 C2.
Definition reach : R → Prop := reachable qname [] set_reply fqdn append_a (Addr4 prefix, 29).
Definition init : res R := newFakeIPResolver (Some (Addr4 prefix, 29)).
Definition ask (s : string) (now : Z) (r : R) : R :=
  fst (query qname [] set_reply fqdn append_a (str s) now r).
Definition r0 : R :=
  match init with Ret r => r | _ => MkResolver (IpPool 0 0 0 []) NewCache NewCache AddrNone (AddrNone, 0) ∅ 0 end.
Definition r1 : R := ask "a.com" 0 r0.
Definition r2 : R := ask "b.com" 1 r1.

Lemma prefix_wf : wf_bytes prefix.
Proof. repeat constructor; unfold is_byte; lia. Qed.

Lemma ask_step s now r : step qname [] set_reply fqdn append_a r (ask s now r).
Proof.
  unfold ask. destruct (query qname [] set_reply fqdn append_a (str s) now r) as [r' x] eqn:E.
  by eapply step_query.
Qed.

Lemma reach_r1 : reach r1.
Proof. exists r0. split; [vm_compute; reflexivity|]. eapply rtc_l; [apply ask_step|apply rtc_refl]. Qed.
Lemma reach_r2 : reach r2.
Proof.
  exists r0. split; [vm_compute; reflexivity|].
  eapply rtc_l; [apply ask_step|]. eapply rtc_l; [apply ask_step|]. apply rtc_refl.
Qed.
End Demo.

Lemma fakeip_unique_witness :
  (tunPrefix Demo.r2).1 ≠ dnsIP Demo.r2 ∧ hosts Demo.r2 = [(str "a.com", 0%nat); (str "b.com", 1%nat)].
Proof.
  split; [|vm_compute; reflexivity].
  refine (proj1 (fakeip_unique _ _ _ _ _ Demo.prefix 29 Demo.r2 _ _ _ _ Demo.reach_r2)).
  - reflexivity.
  - exact Demo.prefix_wf.
  - lia.
  - vm_compute. reflexivity.
Defined.

Lemma find_by_ip_same_record_witness :
  ∃ r', FindByIP (intToIP 3323068419) 2 Demo.r2 = (r', Ret 0%nat).
Proof.
  assert (match snd (FindByIP (intToIP 3323068419) 2 Demo.r2) with Ret _ => true | _ => false end = true)
    as Hret by (vm_compute; reflexivity).
  destruct (FindByIP (intToIP 3323068419) 2 Demo.r2) as [r' x] eqn:E.
  exists r'. f_equal. destruct x as [j|e|]; [|discriminate Hret..]. clear Hret.
  f_equal. refine (find_by_ip_same_record _ _ _ _ _ Demo.prefix 29 Demo.r2 (str "a.com") 0
    (MkRecord (str "a.com") (intToIP 3323068419) (str "a.com") (str "a.com" ++ [198; 18; 0; 3])) 2 r' j
    _ _ _ _ Demo.reach_r2 _ _ E).
  - reflexivity.
  - exact Demo.prefix_wf.
  - lia.
  - vm_compute. reflexivity.
  - apply list_elem_of_lookup. exists 0%nat. vm_compute. reflexivity.
  - vm_compute. reflexivity.
Defined.

Lemma query_then_find_witness :
  ∃ (i : nat) (r2 : Demo.R) ip, FindByIP ip 59 (Demo.ask "b.com" 1 Demo.r1) = (r2, Ret i).
Proof.
  edestruct (query_then_find Demo.qname [] Demo.set_reply Demo.fqdn Demo.append_a Demo.prefix 29 Demo.r1
    (str "b.com") (str "b.com") 1 59 (Demo.ask "b.com" 1 Demo.r1)) as (i & rec & r2 & _ & _ & _ & H & _).
  - reflexivity.
  - exact Demo.prefix_wf.
  - lia.
  - vm_compute. reflexivity.
  - exact Demo.reach_r1.
  - reflexivity.
  - vm_compute. intros H. repeat (apply elem_of_cons in H as [H|H]; [discriminate H|]).
    by apply not_elem_of_nil in H.
  - vm_compute. lia.
  - vm_compute. reflexivity.
  - apply surjective_pairing.
  - exists i, r2, (FakeIP rec). exact H.
Defined.

Lemma is_fake_ip_v6_panics_witness :
  IsFakeIP Demo.r2 (Addr6 ([32; 1; 13; 184] ++ replicate 11 0 ++ [1]) []) = Panic.
Proof. apply is_fake_ip_v6_panics. discriminate. Defined.
