(* ===== verification/Resolver.v ===== *)
(** * Package resolver: nameservers, lookups and the local DNS server.

    Models [src/resolver/resolver.go], [src/resolver/dns_client.go] (which client a
    nameserver gets), [src/resolver/dns_server.go], [src/util/hostsutil/hosts.go]
    and [MsgToAddrs] of [src/util/dnsutil/dns.go], over the fake-IP resolver of
    FakeIP.v. The DNS message library, the exchange with one nameserver and the
    hosts file are parameters; asking the nameservers one after another, with a
    ticker, goroutines and a channel, is a step relation. *)
From S2P Require Import Prelude GoIO GoNet GoURL Cache IPPool FakeIP.
Local Open Scope Z_scope.

Definition errCannotLookupIPFromHostsFile := errNew "cannot lookup ip from local hosts file".
Definition errCannotLookupIPv4v6 := errNew "cannot lookup ipv4 and ipv6 from host".
Definition errDnsExchangedFailed := errNew "dns exchanged failed".

(** ** [parseNameserver] *)

Record nameserverExt := NameserverExt { ns_addr : gostring; ns_net : gostring }.
#[export] Instance nameserverExt_eq_dec : EqDecision nameserverExt.
Proof. solve_decision. Defined.

Definition addPrefix (nameserver : gostring) : gostring :=
  if contains nameserver (str "://") then nameserver else
  match ParseAddr nameserver with
  | None => str "udp://" ++ nameserver
  | Some ip => if Is4 ip then str "udp://" ++ nameserver else str "udp://[" ++ nameserver ++ str "]"
  end.

Definition formatNameserver (hostport defaultPort : gostring) : option gostring :=
  match SplitHostPort hostport with
  | inl (host, port) => Some (JoinHostPort host port)
  | inr missingPort =>
      match SplitHostPort (hostport ++ str ":" ++ defaultPort) with
      | inl (host, port) => Some (JoinHostPort host port)
      | inr _ => None
      end
  | inr _ => None
  end.

(** One iteration of the loop: the entry appended, if any. *)
Definition parse1 (ns0 : gostring) : option nameserverExt :=
  urlres ← url_Parse (addPrefix ns0);
  if decide (Scheme urlres = str "udp") then
    addr ← formatNameserver (UHost urlres) (str "53"); Some (NameserverExt addr (str "udp"))
  else if decide (Scheme urlres = str "tcp") then
    addr ← formatNameserver (UHost urlres) (str "53"); Some (NameserverExt addr (str "tcp"))
  else if decide (Scheme urlres = str "tls") then
    addr ← formatNameserver (UHost urlres) (str "853"); Some (NameserverExt addr (str "tcp-tls"))
  else if decide (Scheme urlres = str "https") then
    addr ← formatNameserver (UHost urlres) (str "443");
    Some (NameserverExt (URL_String (MkURL (str "https") [] (User urlres) addr (Path urlres))) (str "https"))
  else None.
Definition parseNameserver (nameservers : list gostring) : list nameserverExt := omap parse1 nameservers.

(** ** Clients *)

(** [NewDnsClient]: what distinguishes one client from another. *)
Record DnsClient := MkDnsClient { dc_method : gostring; dc_host : gostring; dc_addr : gostring; dc_net : gostring }.
Definition NewDnsClient (dnsNet addr : gostring) : res DnsClient :=
  if decide (dnsNet = str "https") then
    match url_Parse addr with
    | None => Panic
    | Some u => Ret (MkDnsClient (str "GET") (Hostname u) addr dnsNet)
    end
  else Ret (MkDnsClient [] (match SplitHostPort addr with inl (host, _) => host | inr _ => [] end) addr dnsNet).

Definition client_key (ns : nameserverExt) : gostring := ns_net ns ++ str ":" ++ ns_addr ns.

Fixpoint make_clients (l : list nameserverExt) (m : gmap gostring DnsClient) : res (gmap gostring DnsClient) :=
  match l with
  | [] => Ret m
  | ns :: r => c ← NewDnsClient (ns_net ns) (ns_addr ns); make_clients r (<[client_key ns := c]> m)
  end.

(** ** The hosts file ([hostsutil]) *)

(** [initHostsMap]: [mp] is what [hostsfile.ParseHosts] returns, in the order in
    which the loop happens to visit the map. *)
Definition add_host (ip host : gostring) (m : gmap gostring (list Addr)) : gmap gostring (list Addr) :=
  match ParseAddr ip with
  | Some a => <[host := default [] (m !! host) ++ [a]]> m
  | None => m
  end.
Definition initHostsMap (mp : list (gostring * list gostring)) : gmap gostring (list Addr) :=
  foldl (λ m e, foldl (λ m host, add_host e.1 host m) m e.2) ∅ mp.
Definition hosts_LookupIP (hostsMap : gmap gostring (list Addr)) (host : gostring) : Addr :=
  match hostsMap !! host with Some (ip :: _) => ip | _ => AddrNone end.

(** ** Lookups *)
Inductive RR := RR_A (ip : list Z) | RR_AAAA (ip : list Z) | RR_other.

(** [netip.AddrFromSlice]. *)
Definition AddrFromSlice (b : list Z) : option Addr :=
  if (length b =? 4)%nat then Some (Addr4 b) else if (length b =? 16)%nat then Some (Addr6 b []) else None.
Definition rr_addr (a : RR) : option Addr :=
  match a with
  | RR_A ip => b ← To4 ip; AddrFromSlice b
  | RR_AAAA ip => b ← To16 ip; AddrFromSlice b
  | RR_other => None
  end.
Definition ClassINET : Z := 1.
Definition TypeA : Z := 1.
Definition TypeAAAA : Z := 28.
Definition RcodeSuccess : Z := 0.

Section Resolver.
(** [dns.Msg]: the first question (name, type, class; [None]: indexing panics), the
    answers, the return code, and the functions that build messages. *)
Context {Msg : Type}
  (question : Msg → option (gostring * Z * Z)) (Answer : Msg → list RR) (Rcode : Msg → Z)
  (emptyMsg : Msg) (SetReply : Msg → Msg → Msg) (Fqdn : gostring → gostring)
  (appendA appendAAAA : Msg → gostring → Z → list Z → Msg)
  (SetQuestion : gostring → Z → Msg).
Definition question_name (m : Msg) : option gostring := (λ q, q.1.1) <$> question m.

Definition MsgToAddrs (reply : Msg) : list Addr := omap rr_addr (Answer reply).

Context {C1 C2 : Type} `{!CacheOps gostring nat C1, !CacheOps Addr nat C2}.
Context (hostsMap : gmap gostring (list Addr)).

Record Resolver := MkResolver_ {
  fakeip : option (fakeIPResolver Msg C1 C2);
  nameservers : list nameserverExt;
  clients : gmap gostring DnsClient;
  lookupHostPref : bool;
}.

(** [NewDnsResolver]; [local]: [dnsutil.GetLocalDnsList()]. *)
Definition NewDnsResolver (ns local : list gostring) (lookupHostsFile : bool) : res Resolver :=
  let l := parseNameserver ns ++ parseNameserver local in
  m ← make_clients l ∅;
  Ret (MkResolver_ None l m lookupHostsFile).

Definition IsEnhancerMode (r : Resolver) : bool := match fakeip r with Some _ => true | None => false end.
(** [EnableEnhancerMode]: the assignment replaces the embedded resolver, by nil when
    making one fails. [None]: the zero prefix. *)
Definition with_fakeip (f : option (fakeIPResolver Msg C1 C2)) (r : Resolver) : Resolver :=
  MkResolver_ f (nameservers r) (clients r) (lookupHostPref r).
Definition EnableEnhancerMode (tunCIDR : option Prefix) (r : Resolver) : Resolver * res unit :=
  match newFakeIPResolver tunCIDR with
  | Ret f => (with_fakeip (Some f) r, Ret tt)
  | Fail e => (with_fakeip None r, Fail e)
  | Panic => (r, Panic)
  end.

(** [lookupIPWithMsg] for a context that is not cancelled: the outcome of the
    exchange below, shared by simultaneous callers. *)
Context (lookupIPWithMsg : Msg → res Msg).

Definition lookupIP (host : gostring) (dnsType : Z) : res (list Addr) :=
  reply ← lookupIPWithMsg (SetQuestion (Fqdn host) dnsType);
  Ret (MsgToAddrs reply).

(** [LookupIP]: IPv4 first; the result of the IPv6 goroutine is received only
    when IPv4 gave nothing. *)
Definition LookupIP (pref : bool) (host : gostring) : res (list Addr) :=
  let ip := hosts_LookupIP hostsMap host in
  if pref && IsValid ip then Ret [ip] else
  match lookupIP host TypeA with
  | Panic => Panic
  | Ret (ip :: ips) => Ret (ip :: ips)
  | _ => match lookupIP host TypeAAAA with
         | Ret ips => Ret ips
         | Fail _ => Fail errCannotLookupIPv4v6
         | Panic => Panic
         end
  end.

(** [LookupHost]; [pick]: the [rand.Intn] it draws. *)
Definition LookupHost (pick : nat) (pref : bool) (host : gostring) : Addr :=
  match host with
  | [] => AddrNone
  | _ =>
      match ParseAddr host with
      | Some ip => ip
      | None =>
          match LookupIP pref host with
          | Ret (ip :: ips) => default AddrNone ((ip :: ips) !! (pick mod S (length ips))%nat)
          | _ => AddrNone
          end
      end
  end.

(** [ResolveTCPAddr] and [ResolveUDPAddr]: the IP as a slice, and the port. *)
Definition ResolveAddr (pick : nat) (pref : bool) (addr : gostring) : res (list Z * Z) :=
  match SplitHostPort addr with
  | inr _ => Fail (errNew "address error of net.SplitHostPort")
  | inl (host, p) =>
      let ip := LookupHost pick pref host in
      if negb (IsValid ip) then Fail (errNew "can not lookup address: %s")
      else Ret (AsSlice ip, fst (parse_uint 16 p))
  end.

(** [lookupHostsFile]. *)
Definition lookupHostsFile (req : Msg) : res Msg :=
  match question_name req with
  | None => Panic
  | Some name =>
      let host := TrimDomain name in
      let ip := hosts_LookupIP hostsMap host in
      if negb (IsValid ip) then Fail errCannotLookupIPFromHostsFile
      else Ret ((if Is4 ip then appendA else appendAAAA) (SetReply emptyMsg req) (Fqdn host) 6 (AsSlice ip))
  end.

Context (DefaultDomainFilter : list gostring).
Definition matchDomainFilter (name : gostring) : bool :=
  existsb (λ f, bool_decide (TrimDomain name = f)) DefaultDomainFilter.

(** [Query]. *)
Definition Query (req : Msg) (now : Z) (r : Resolver) : Resolver * res Msg :=
  match lookupHostsFile req with
  | Panic => (r, Panic)
  | Ret reply => (r, Ret reply)
  | Fail _ =>
      match question req with
      | None => (r, Panic)
      | Some (name, qtype, qclass) =>
          if (qclass =? ClassINET) && (qtype =? TypeA) then
            if matchDomainFilter name then (r, lookupIPWithMsg req) else
            match fakeip r with
            | None => (r, Panic)
            | Some f =>
                let '(f1, x) := query question_name emptyMsg SetReply Fqdn appendA req now f in
                (with_fakeip (Some f1) r, x)
            end
          else (r, Ret (SetReply emptyMsg req))
      end
  end.

(** [serveDNS]: the message written, or a failure reply. *)
Definition serveDNS (HandleFailed : Msg → Msg) (req : Msg) (now : Z) (r : Resolver) : Resolver * res Msg :=
  match Query req now r with
  | (r1, Ret reply) => (r1, Ret reply)
  | (r1, Fail _) => (r1, Ret (HandleFailed req))
  | (r1, Panic) => (r1, Panic)
  end.
End Resolver.
Arguments Resolver : clear implicits.

(** [NewDnsServer]: the port of the address, 53 by default. *)
Definition NewDnsServer_port (addr : gostring) : Z :=
  let p := match SplitHostPort addr with inl (_, p) => p | inr _ => [] end in
  fst (parse_uint 16 (match p with [] => str "53" | _ => p end)).

(** ** [exchangeContextWithoutCache]

    The nameservers are asked one after another; each gets its own goroutine, the
    next is asked half a second (a tick) later, the first good reply to arrive is
    returned, and when all were asked their goroutines are awaited. *)
Section Exchange.
Context {Msg : Type} (Rcode : Msg → Z).
(** The outcome of [clients[key].ExchangeContext(ctx, req)] for a nameserver; [None]: it never returns
    (DnsClient.v: an oversized reply over HTTPS). *)
Context (answer : nameserverExt → option (res Msg)).

Inductive xpc := AtLoop | AtSelect | Waiting | Done (x : res Msg).
Record xstate := X { x_todo : list nameserverExt; x_running : list nameserverExt; x_ch : option Msg; x_pc : xpc }.

(** [getReplyDnsMsg] got a reply worth sending. *)
Definition good_reply (ns : nameserverExt) : option Msg :=
  match answer ns with Some (Ret m) => if Rcode m =? RcodeSuccess then Some m else None | _ => None end.

Inductive xstep : xstate → xstate → Prop :=
| x_start ns todo run ch : xstep (X (ns :: todo) run ch AtLoop) (X todo (ns :: run) ch AtSelect)
| x_reply todo run m : xstep (X todo run (Some m) AtSelect) (X todo run None (Done (Ret m)))
| x_tick todo run ch : xstep (X todo run ch AtSelect) (X todo run ch AtLoop)
| x_asked run ch : xstep (X [] run ch AtLoop) (X [] run ch Waiting)
| x_sent todo r1 ns r2 ch pc m :
    (** the send: into the channel, or dropped when it is full *)
    good_reply ns = Some m →
    xstep (X todo (r1 ++ ns :: r2) ch pc) (X todo (r1 ++ r2) (match ch with None => Some m | Some _ => ch end) pc)
| x_failed todo r1 ns r2 ch pc :
    answer ns ≠ None → answer ns ≠ Some Panic → good_reply ns = None →
    xstep (X todo (r1 ++ ns :: r2) ch pc) (X todo (r1 ++ r2) ch pc)
| x_last todo ch :
    xstep (X todo [] ch Waiting)
          (X todo [] None (Done (match ch with Some m => Ret m | None => Fail errDnsExchangedFailed end))).

Definition xinit (nss : list nameserverExt) : xstate := X nss [] None AtLoop.

(** What a state says about the nameservers [nss]. *)
Record XInv (nss : list nameserverExt) (s : xstate) : Prop := {
  xi_sub ns : ns ∈ x_todo s ++ x_running s → ns ∈ nss;
  xi_ch m : x_ch s = Some m → ∃ ns, ns ∈ nss ∧ good_reply ns = Some m;
  (** a good nameserver is still to come, or its reply (or another one) has come *)
  xi_good ns m : ns ∈ nss → good_reply ns = Some m →
    ns ∈ x_todo s ++ x_running s ∨ is_Some (x_ch s) ∨ ∃ m', x_pc s = Done (Ret m');
  (** so is one that does not return *)
  xi_never ns : ns ∈ nss → answer ns = None → ns ∈ x_todo s ++ x_running s;
  xi_wait : x_pc s = Waiting → x_todo s = [];
  xi_done x : x_pc s = Done x →
    match x with
    | Ret m => ∃ ns, ns ∈ nss ∧ good_reply ns = Some m
    | Fail e => e = errDnsExchangedFailed ∧ ∀ ns, ns ∈ nss → answer ns ≠ None ∧ good_reply ns = None
    | Panic => False
    end;
}.

Lemma XInv_init nss : XInv nss (xinit nss).
Proof. split; simpl; try done; rewrite ?app_nil_r; auto. Qed.

Lemma XInv_step nss s s' : XInv nss s → xstep s s' → XInv nss s'.
Proof.
  intros [Hsub Hch Hgood Hnev Hw Hd] Hs.
  destruct Hs as [ns todo run ch|todo run m|todo run ch|run ch|todo r1 ns r2 ch pc m Hg|todo r1 ns r2 ch pc Hn Hp Hg|todo ch];
    simpl in *.
  - split; simpl; try done; [intros x Hx; apply Hsub; set_solver| |intros x Hx Ha; specialize (Hnev x Hx Ha); set_solver].
    intros x m Hx Hm. destruct (Hgood x m Hx Hm) as [H|H]; [left; set_solver|naive_solver].
  - split; simpl; try done; [|intros x [= <-]; by apply Hch].
    intros x m' Hx Hm. right; right. eauto.
  - split; simpl; try done. intros x m Hx Hm. destruct (Hgood x m Hx Hm) as [H|H]; naive_solver.
  - split; simpl; try done. intros x m Hx Hm. destruct (Hgood x m Hx Hm) as [H|H]; naive_solver.
  - assert (answer ns ≠ None) as Hn by (unfold good_reply in Hg; by destruct (answer ns)).
    split; simpl; [intros x Hx; apply Hsub; set_solver| | | |done|].
    + intros m' Hm'. destruct ch; [by apply Hch|]. injection Hm' as <-. exists ns. split; [|done]. apply Hsub. set_solver.
    + intros x m' Hx Hm. right; left. destruct ch; eauto.
    + intros x Hx Ha. specialize (Hnev x Hx Ha). assert (x ≠ ns) by congruence. set_solver.
    + intros x Hx. specialize (Hd x Hx). done.
  - split; simpl; [intros x Hx; apply Hsub; set_solver|done| | |done|done].
    + intros x m' Hx Hm. destruct (Hgood x m' Hx Hm) as [H|H]; [|auto]. left.
      assert (x ≠ ns) by congruence. set_solver.
    + intros x Hx Ha. specialize (Hnev x Hx Ha). assert (x ≠ ns) by congruence. set_solver.
  - split; simpl; try done.
    + intros x m' Hx Hm. destruct (Hgood x m' Hx Hm) as [H|[[m Hc]|[? ?]]]; [| |done].
      * rewrite Hw in H by done. set_solver.
      * right; right. exists m. by rewrite Hc.
    + intros x [= <-]. destruct ch as [m|]; [by apply Hch|]. split; [done|].
      intros ns Hns. split; [intros Ha; specialize (Hnev ns Hns Ha); rewrite Hw in Hnev by done; set_solver|].
      destruct (good_reply ns) as [m|] eqn:E; [|done]. exfalso.
      destruct (Hgood ns m Hns E) as [H|[[? ?]|[? ?]]]; [|done|done]. rewrite Hw in H by done. set_solver.
Qed.

Definition xsize (s : xstate) : nat :=
  4 * length (x_todo s) + length (x_running s) +
  match x_pc s with AtSelect => 3 | AtLoop => 2 | Waiting => 1 | Done _ => 0 end.

Lemma xstep_decreases s s' : xstep s s' → (xsize s' < xsize s)%nat.
Proof. destruct 1; unfold xsize; simpl; rewrite ?length_app; simpl; lia. Qed.

(** It goes on, or waits for exchanges none of which returns. *)
Lemma xprogress nss s :
  XInv nss s → (∀ ns, ns ∈ nss → answer ns ≠ Some Panic) → (∀ x, x_pc s ≠ Done x) →
  (∃ s', xstep s s') ∨ (x_pc s = Waiting ∧ x_running s ≠ [] ∧ ∀ ns, ns ∈ x_running s → answer ns = None).
Proof.
  intros HI Hp Hn. destruct s as [todo run ch pc]. simpl in *. destruct pc as [| | |x]; [left|left| |by destruct (Hn x)].
  - destruct todo as [|ns todo]; eexists; [apply x_asked|apply x_start].
  - eexists. apply x_tick.
  - destruct (decide (run = [])) as [->|Hr]; [left; eexists; apply x_last|].
    destruct (decide (Exists (λ ns, answer ns ≠ None) run)) as [H|H]; [|right; split_and!; [done|done|]].
    + left. apply Exists_exists in H as (ns & (r1 & r2 & ->)%list_elem_of_split & Hns).
      assert (ns ∈ nss) as Hin by (apply (xi_sub _ _ HI); simpl; set_solver).
      destruct (good_reply ns) as [m|] eqn:E; eexists; [by apply (x_sent todo r1 ns r2)|apply (x_failed todo r1 ns r2); auto].
    + intros ns Hns. apply not_Exists_Forall in H; [|intros ?; apply _]. rewrite Forall_forall in H. apply dec_stable. intros Hx. by apply (H ns).
Qed.
End Exchange.

(** ** The nameservers of a resolver have their clients *)
Definition dns_nets : list gostring := [str "udp"; str "tcp"; str "tcp-tls"; str "https"].

Lemma formatNameserver_join hp port a : formatNameserver hp port = Some a → ∃ h p, a = JoinHostPort h p.
Proof.
  unfold formatNameserver. repeat case_match; intros; simplify_eq; eauto.
Qed.

(** What an entry of the list looks like. *)
Lemma parse1_wf s ns : parse1 s = Some ns →
  ns_net ns ∈ dns_nets ∧ (ns_net ns ≠ str "https" → ∃ h p, ns_addr ns = JoinHostPort h p).
Proof.
  unfold parse1. destruct (url_Parse (addPrefix s)) as [u|]; [|done]. cbn [mbind option_bind].
  unfold dns_nets.
  repeat (destruct (decide _); [destruct (formatNameserver _ _) as [a|] eqn:E; [|done]; apply formatNameserver_join in E;
    cbn [mbind option_bind]; intros [= <-]; cbn [ns_net ns_addr]; split; [set_solver|done]|]); done.
Qed.

Lemma parseNameserver_wf l : Forall (λ ns, ns_net ns ∈ dns_nets ∧
  (ns_net ns ≠ str "https" → ∃ h p, ns_addr ns = JoinHostPort h p)) (parseNameserver l).
Proof.
  unfold parseNameserver. apply Forall_forall. intros ns Hin.
  apply list_elem_of_omap in Hin as (s & _ & Hs). by eapply parse1_wf.
Qed.

Lemma client_key_inj a b :
  ns_net a ∈ dns_nets → ns_net b ∈ dns_nets → client_key a = client_key b → a = b.
Proof.
  intros Ha Hb E. unfold client_key in E. change (str ":") with [58] in E. cbn [app] in E.
  assert (∀ n, n ∈ dns_nets → 58 ∉ n) as Hno.
  { intros n Hn. unfold dns_nets in Hn. repeat (apply elem_of_cons in Hn as [->|Hn]; [by apply contains_byte_false|]).
    by apply elem_of_nil in Hn. }
  assert (length (ns_net a) = length (ns_net b)) as Hl.
  { apply (f_equal (index_byte 58)) in E. rewrite !index_byte_app in E by auto. congruence. }
  apply app_inj_1 in E as [H1 H2]; [|done]. injection H2 as H2. destruct a, b. simpl in *. congruence.
Qed.

Lemma make_clients_ok l : ∀ m m',
  Forall (λ ns, ns_net ns ∈ dns_nets) l → make_clients l m = Ret m' →
  (∀ ns, ns ∈ l → ∃ c, m' !! client_key ns = Some c ∧ NewDnsClient (ns_net ns) (ns_addr ns) = Ret c) ∧
  (∀ k, k ∉ client_key <$> l → m' !! k = m !! k).
Proof.
  induction l as [|ns l IH]; intros m m' HF H; simpl in H.
  - injection H as <-. split; [intros ns Hin; by apply elem_of_nil in Hin|done].
  - apply Forall_cons in HF as [Hns HF]. destruct (NewDnsClient (ns_net ns) (ns_addr ns)) as [c|e|] eqn:E; [|done|done].
    cbn [mbind res_bind] in H. destruct (IH _ _ HF H) as [H1 H2]. split.
    + intros x [->|Hx]%elem_of_cons; [|by apply H1].
      destruct (decide (client_key ns ∈ client_key <$> l)) as [Hin|Hnin].
      * apply list_elem_of_fmap in Hin as (y & Hk & Hy). apply client_key_inj in Hk as <-; [by apply H1|done|].
        rewrite Forall_forall in HF. by apply HF.
      * exists c. rewrite H2, lookup_insert_eq by done. done.
    + intros k Hk. cbn [fmap list_fmap] in Hk. rewrite not_elem_of_cons in Hk. destruct Hk as [Hk1 Hk2].
      rewrite H2, lookup_insert_ne by done. done.
Qed.

(** C6 (liveness): the exchange of a new resolver, however the goroutines, the ticks and the channel interleave. An exchange with
    a nameserver returns a reply or an error or does not return at all (an oversized reply over HTTPS); none panics. The
    exchange does not run forever. It stops before it has returned only in [wg.Wait], while every goroutine it still waits
    for is at a nameserver whose exchange never returns; so if they all return, so does it. What it returns is a
    successful reply of one of its nameservers; it reports failure only when the exchanges with all of them have
    returned, none with a successful reply. No nameserver is without its client. *)
Theorem dns_exchange_live {Msg C1 C2} (Rcode : Msg → Z) (Exchange : DnsClient → option (res Msg)) ns local pref (r : Resolver Msg C1 C2) :
  (∀ c, Exchange c ≠ Some Panic) → NewDnsResolver ns local pref = Ret r →
  let answer n := match clients r !! client_key n with Some c => Exchange c | None => Some Panic end in
  (∀ s, rtc (xstep Rcode answer) (xinit (nameservers r)) s →
     ((∀ x, x_pc s ≠ Done x) →
        (∃ s', xstep Rcode answer s s') ∨
        (x_pc s = Waiting ∧ x_running s ≠ [] ∧
         ∀ n, n ∈ x_running s → n ∈ nameservers r ∧ ∃ c, NewDnsClient (ns_net n) (ns_addr n) = Ret c ∧ Exchange c = None)) ∧
     ∀ x, x_pc s = Done x →
       match x with
       | Ret m => ∃ n c, n ∈ nameservers r ∧ NewDnsClient (ns_net n) (ns_addr n) = Ret c ∧ Exchange c = Some (Ret m) ∧ Rcode m = RcodeSuccess
       | Fail e => e = errDnsExchangedFailed ∧
           ∀ n, n ∈ nameservers r → ∃ c x, NewDnsClient (ns_net n) (ns_addr n) = Ret c ∧ Exchange c = Some x ∧
             ∀ m, x = Ret m → Rcode m ≠ RcodeSuccess
       | Panic => False
       end) ∧
  (∀ f, f 0%nat = xinit (nameservers r) → ¬ ∀ i, xstep Rcode answer (f i) (f (S i))).
Proof.
  intros HE Hr answer. unfold NewDnsResolver in Hr.
  destruct (make_clients (parseNameserver ns ++ parseNameserver local) ∅) as [m| |] eqn:Em; [|done|done].
  injection Hr as <-. cbn [nameservers clients] in *. set (l := parseNameserver ns ++ parseNameserver local) in *.
  assert (Forall (λ ns, ns_net ns ∈ dns_nets) l) as HF.
  { unfold l. apply Forall_app. split; (eapply Forall_impl; [apply parseNameserver_wf|]); by intros ? [? _]. }
  destruct (make_clients_ok l _ _ HF Em) as [Hc _].
  assert (∀ n, n ∈ l → ∃ c, answer n = Exchange c ∧ NewDnsClient (ns_net n) (ns_addr n) = Ret c) as Ha.
  { intros n Hn. destruct (Hc n Hn) as (c & E & Ec). exists c. unfold answer. rewrite E. done. }
  split.
  - intros s Hs.
    assert (XInv Rcode answer l s) as HI.
    { remember (xinit l) as s0 eqn:E0. assert (XInv Rcode answer l s0) as H0 by (subst; apply XInv_init). clear E0.
      induction Hs as [|x y z Hxy _ IH]; [done|]. eauto using XInv_step. }
    split.
    + intros Hn. destruct (xprogress Rcode answer l s HI) as [H|(H1 & H2 & H3)]; [|done|by left|right; split_and!; [done|done|]].
      { intros n Hin. destruct (Ha n Hin) as (c & -> & _). apply HE. }
      intros n Hin. assert (n ∈ l) as Hl by (apply (xi_sub _ _ _ _ HI); set_solver). split; [done|].
      destruct (Ha n Hl) as (c & E & Hcc). exists c. split; [done|]. rewrite <-E. by apply H3.
    + intros x Hx. pose proof (xi_done _ _ _ _ HI x Hx) as H. destruct x as [m'|e|]; [| |done].
      * destruct H as (n & Hn & Hg). destruct (Ha n Hn) as (c & Hac & Hcc). exists n, c. unfold good_reply in Hg.
        rewrite Hac in Hg. destruct (Exchange c) as [[m0| |]|]; [|done|done|done]. case_match; [|done]. zify_bool. by simplify_eq.
      * destruct H as [-> H]. split; [done|]. intros n Hn. destruct (Ha n Hn) as (c & Hac & Hcc). destruct (H n Hn) as [H1 H2].
        rewrite Hac in H1. destruct (Exchange c) as [x|] eqn:Ex; [|done]. exists c, x. split_and!; [done|done|].
        intros m0 -> Hrc. unfold good_reply in H2. rewrite Hac, Hrc in H2. done.
  - intros f _ Hf. apply (no_infinite_run (xstep Rcode answer) xsize (λ _, True) f); [done| |done].
    intros s s' _ Hst. split; [done|]. by eapply xstep_decreases.
Qed.

(** With one nameserver whose exchange does not return, [wg.Wait] waits for good, even with another one's reply in the
    channel. *)
Lemma dns_exchange_hangs n1 n2 : let answer n := if bool_decide (ns_addr n = ns_addr n1) then None else Some (Ret 7) in
  ns_addr n2 ≠ ns_addr n1 →
  ∃ s, rtc (xstep (λ _ : Z, 0) answer) (xinit [n1; n2]) s ∧ x_ch s = Some 7 ∧ ¬ ∃ s', xstep (λ _, 0) answer s s'.
Proof.
  intros answer Hne. exists (X [] [n1] (Some 7) Waiting). split_and!; [|done|].
  - eapply rtc_l; [apply x_start|]. eapply rtc_l; [apply x_tick|]. eapply rtc_l; [apply x_start|]. eapply rtc_l; [apply x_tick|].
    eapply rtc_l; [apply x_asked|]. eapply rtc_l; [apply (x_sent _ _ [] [] n2 [n1] None Waiting 7)|constructor].
    unfold good_reply, answer. by rewrite bool_decide_false.
  - intros [s' Hs]. inversion Hs as [| | | |? r1 ns r2 ? ? ? Hg E1 E2|? r1 ns r2 ? ? Hn ? ? E1 E2|]; subst;
      destruct r1 as [|? [|]]; simplify_eq/=; unfold good_reply, answer in *; by rewrite bool_decide_true in *.
Qed.

(** ** Default ports *)

(** Characters of a host name or of a dotted address. *)
Definition name_char (c : Z) : bool := is_alpha c || is_digit c || mem c "-_.~".

Lemma name_char_host c : name_char c = true → host_char c = true ∧ c ≠ 58 ∧ c ≠ 91 ∧ c ≠ 93 ∧ c ≠ 37.
Proof.
  unfold name_char, host_char. intros H. split.
  - destruct (is_alpha c || is_digit c); [done|]. simpl in *. unfold mem in *.
    apply not_false_iff_true. intros Hf. apply contains_byte_false in Hf. apply not_false_iff_true in H. apply H.
    apply contains_byte_false. change (str "-_.~:[]") with (str "-_.~" ++ str ":[]") in Hf.
    rewrite not_elem_of_app in Hf. tauto.
  - split_and!; intros ->; done.
Qed.

Section Names.
Context (host : gostring) (Hne : host ≠ []) (Hc : Forall (λ c, name_char c = true) host).

Lemma name_host_chars : Forall (λ c, host_char c = true) host.
Proof. eapply Forall_impl; [exact Hc|]. intros c H. exact (proj1 (name_char_host c H)). Qed.
Lemma name_no c : c ∈ [58; 91; 93; 37] → c ∉ host.
Proof.
  intros Hin Hh. rewrite Forall_forall in Hc. apply Hc, name_char_host in Hh as (_ & ? & ? & ? & ?). set_solver.
Qed.

Lemma name_split p : 58 ∉ p → 91 ∉ p → 93 ∉ p → SplitHostPort (host ++ 58 :: p) = inl (host, p).
Proof.
  intros H1 H2 H3. pose proof (SplitHostPort_JoinHostPort host p) as H. unfold JoinHostPort in H.
  rewrite (proj2 (contains_byte_false 58 host)) in H by (apply name_no; set_solver).
  apply H; try done; apply name_no; set_solver.
Qed.
Lemma name_nosplit : SplitHostPort host = inr missingPort.
Proof.
  unfold SplitHostPort. rewrite last_index_byte_None by (apply name_no; set_solver). done.
Qed.

Lemma digits_no p c : Forall (λ c, is_digit c = true) p → (c < 48 ∨ 57 < c) → c ∉ p.
Proof. intros Hp Hr Hin. rewrite Forall_forall in Hp. apply Hp in Hin. unfold is_digit in Hin. zify_bool. lia. Qed.

(** The host of the URL, without and with a port. *)
Lemma name_format port : Forall (λ c, is_digit c = true) port →
  formatNameserver host port = Some (host ++ 58 :: port) ∧
  ∀ q, formatNameserver (host ++ 58 :: port) q = Some (host ++ 58 :: port).
Proof.
  intros Hp. assert ((58 ∉ port) ∧ (91 ∉ port) ∧ (93 ∉ port)) as (H1 & H2 & H3).
  { split_and!; apply digits_no; (done || lia). }
  assert (JoinHostPort host port = host ++ 58 :: port) as Hj.
  { unfold JoinHostPort. by rewrite (proj2 (contains_byte_false 58 host)) by (apply name_no; set_solver). }
  unfold formatNameserver. rewrite name_nosplit. change (str ":" ++ port) with (58 :: port).
  rewrite name_split by done. rewrite Hj. done.
Qed.

Lemma parseHost_name : parseHost host = Some host.
Proof.
  pose proof name_host_chars as Hh. destruct (parseHost_plain host Hh) as [H|H]; [done|]. exfalso.
  unfold parseHost in H. rewrite (last_index_byte_None 58 host), unescape_host in H; [|done|apply name_no; set_solver].
  pose proof (name_no 91 ltac:(set_solver)) as H91. clear -H H91.
  destruct host as [|x l]; [done|]. apply not_elem_of_cons in H91 as [Hx _]. repeat case_match; simplify_eq.
Qed.
Lemma parseHost_name_port port : Forall (λ c, is_digit c = true) port → parseHost (host ++ 58 :: port) = Some (host ++ 58 :: port).
Proof.
  intros Hp. assert (Forall (λ c, host_char c = true) (host ++ 58 :: port)) as Hh.
  { apply Forall_app. split; [apply name_host_chars|]. constructor; [done|]. eapply Forall_impl; [exact Hp|].
    intros c Hd. unfold host_char. rewrite Hd. by rewrite orb_true_r. }
  destruct (parseHost_plain _ Hh) as [H|H]; [done|]. exfalso. unfold parseHost in H.
  rewrite last_index_byte_app, drop_app_length, unescape_host in H; [|done|apply digits_no; (done || lia)].
  assert (validOptionalPort (58 :: port) = true) as Hv.
  { simpl. apply forallb_forall. intros x Hx. rewrite Forall_forall in Hp. apply Hp. by apply list_elem_of_In. }
  rewrite Hv in H. pose proof (name_no 91 ltac:(set_solver)) as H91. clear -H H91.
  destruct host as [|x l]; [done|]. apply not_elem_of_cons in H91 as [Hx _]. cbn [app] in H. repeat case_match; simplify_eq.
Qed.

Lemma name_contains : contains host (str "://") = false.
Proof.
  apply not_true_iff_false. intros (a & b & E)%contains_spec. apply (name_no 58); [set_solver|].
  rewrite E. change (str "://") with [58; 47; 47]. set_solver.
Qed.
Lemma name_addPrefix : addPrefix host = str "udp" ++ str "://" ++ host.
Proof.
  unfold addPrefix. rewrite name_contains. assert (∀ b z, ParseAddr host ≠ Some (Addr6 b z)) as Hn6.
  { intros b z Hp. unfold ParseAddr in Hp.
    assert (∀ c, addr_family host = Some c → c = 46) as Hf.
    { clear Hp Hne. intros c. induction host as [|x l IH]; [done|]. cbn [addr_family].
      apply Forall_cons in Hc as [Hx Hl]. apply name_char_host in Hx as (_ & ? & _ & _ & ?).
      case_match; [|by apply IH]. intros [= <-]. zify_bool. lia. }
    destruct (addr_family host) as [c|]; [|done]. rewrite (Hf c eq_refl) in Hp. by destruct (parse_ipv4 host). }
  destruct (ParseAddr host) as [[|b|b z]|] eqn:E; [|done|by edestruct Hn6|done].
  unfold ParseAddr in E. repeat case_match; simplify_eq/=; destruct (parse_ipv4 host), (parse_ipv6 host) as [[]|]; simplify_eq/=.
Qed.
End Names.

(** The schemes with their networks and default ports. *)
Definition dns_schemes : list (string * (string * string)) :=
  [("udp", ("udp", "53")); ("tcp", ("tcp", "53")); ("tls", ("tcp-tls", "853"))]%string.

(** A nameserver given as a host name or IPv4 address is asked over
    UDP on port 53; with a scheme it is asked over that scheme's network, on the
    scheme's default port unless a port is given, which is then used. *)
Theorem nameserver_defaults scheme net port host p :
  (scheme, (net, port)) ∈ dns_schemes → host ≠ [] → Forall (λ c, name_char c = true) host → Forall (λ c, is_digit c = true) p →
  parseNameserver [host] = [NameserverExt (host ++ str ":53") (str "udp")] ∧
  parseNameserver [str scheme ++ str "://" ++ host] = [NameserverExt (host ++ str ":" ++ str port) (str net)] ∧
  parseNameserver [str scheme ++ str "://" ++ host ++ str ":" ++ p] = [NameserverExt (host ++ str ":" ++ p) (str net)].
Proof.
  intros Hin Hne Hc Hp. pose proof (name_host_chars host Hc) as Hh.
  assert (∀ s hp, contains (str s ++ str "://" ++ hp) (str "://") = true) as Hcont.
  { intros s hp. apply contains_spec. by exists (str s), hp. }
  assert (∀ s, addPrefix (str s ++ str "://" ++ host) = str s ++ str "://" ++ host ∧
               addPrefix (str s ++ str "://" ++ host ++ str ":" ++ p) = str s ++ str "://" ++ host ++ str ":" ++ p) as Hadd.
  { intros s. unfold addPrefix. by rewrite !Hcont. }
  assert (Forall (λ c, host_char c = true) (host ++ 58 :: p)) as Hh2.
  { apply Forall_app. split; [done|]. constructor; [done|]. eapply Forall_impl; [exact Hp|].
    intros c Hd. unfold host_char. rewrite Hd. by rewrite orb_true_r. }
  destruct (name_format host Hne Hc p Hp) as [_ Hf2].
  unfold parseNameserver. cbn [omap list_omap]. unfold parse1.
  rewrite (name_addPrefix host Hne Hc), !(proj1 (Hadd scheme)), !(proj2 (Hadd scheme)).
  change (str ":" ++ p) with (58 :: p).
  assert (∀ q, Forall (λ c, is_digit c = true) q → formatNameserver host q = Some (host ++ 58 :: q)) as Hf1.
  { intros q Hq. by apply name_format. }
  rewrite url_Parse_simple by (first [done|by repeat constructor]).
  rewrite (parseHost_name host Hne Hc). cbn [mbind option_bind Scheme UHost].
  rewrite (Hf1 (str "53")) by (repeat constructor). split; [done|].
  unfold dns_schemes in Hin. repeat (apply elem_of_cons in Hin as [[= -> -> ->]|Hin]; [
    rewrite !url_Parse_simple by (first [done|by repeat constructor]);
    rewrite (parseHost_name host Hne Hc), (parseHost_name_port host Hne Hc p Hp);
    cbn [mbind option_bind Scheme UHost]; rewrite !Hf1, !Hf2 by (repeat constructor); done|]).
  by apply elem_of_nil in Hin.
Qed.

(** [LookupHost] of a name, for every random draw: when it returns an
    address, that is the one the hosts file gives (if the file is to be used), or
    one of the A answers, or, only when there is no A answer, one of the AAAA
    answers; it returns none only when none of the three has any. *)
Theorem lookup_host_spec {Msg} (Answer : Msg → list RR) Fqdn SetQuestion hostsMap (lookup : Msg → res Msg) pick pref host :
  (∀ m, lookup m ≠ Panic) → host ≠ [] → ParseAddr host = None →
  let a := match lookup (SetQuestion (Fqdn host) TypeA) with Ret m => MsgToAddrs Answer m | _ => [] end in
  let aaaa := match lookup (SetQuestion (Fqdn host) TypeAAAA) with Ret m => MsgToAddrs Answer m | _ => [] end in
  let file := if (pref : bool) then hosts_LookupIP hostsMap host else AddrNone in
  let ip := LookupHost Answer Fqdn SetQuestion hostsMap lookup pick pref host in
  if IsValid file then ip = file
  else if decide (a = []) then (if decide (aaaa = []) then ip = AddrNone else ip ∈ aaaa) else ip ∈ a.
Proof.
  intros Hp Hne Hpa. cbv zeta. unfold LookupHost. destruct host as [|h0 host]; [done|]. rewrite Hpa.
  assert (∀ (x : Addr) l n, default AddrNone ((x :: l) !! (n mod S (length l))%nat) ∈ x :: l) as Hd.
  { intros x l n. destruct (lookup_lt_is_Some_2 (x :: l) (n mod S (length l))%nat) as [y Hy].
    { apply Nat.mod_upper_bound. done. }
    rewrite Hy. simpl. by eapply list_elem_of_lookup_2. }
  unfold LookupIP. destruct (pref && IsValid (hosts_LookupIP hostsMap (h0 :: host))) eqn:E.
  - apply andb_true_iff in E as [-> E]. rewrite E. done.
  - assert (IsValid (if (pref : bool) then hosts_LookupIP hostsMap (h0 :: host) else AddrNone) = false) as -> by (by destruct pref).
    unfold lookupIP. pose proof (Hp (SetQuestion (Fqdn (h0 :: host)) TypeA)).
    pose proof (Hp (SetQuestion (Fqdn (h0 :: host)) TypeAAAA)).
    destruct (lookup (SetQuestion (Fqdn (h0 :: host)) TypeA)) as [m|e|]; [| |done]; cbn [mbind res_bind].
    + destruct (MsgToAddrs Answer m) as [|x l]; [|rewrite decide_False by done; apply Hd].
      rewrite decide_True by done. destruct (lookup (SetQuestion (Fqdn (h0 :: host)) TypeAAAA)) as [m'| |]; [|done|done].
      cbn [mbind res_bind]. destruct (MsgToAddrs Answer m') as [|y l]; [done|]. rewrite decide_False by done. apply Hd.
    + rewrite decide_True by done. destruct (lookup (SetQuestion (Fqdn (h0 :: host)) TypeAAAA)) as [m'| |]; [|done|done].
      cbn [mbind res_bind]. destruct (MsgToAddrs Answer m') as [|y l]; [done|]. rewrite decide_False by done. apply Hd.
Qed.

(** A host listed for two addresses: the result depends on the order in which a Go
    map happens to be visited. *)
Lemma hosts_order_matters :
  hosts_LookupIP (initHostsMap [(str "127.0.0.1", [str "localhost"]); (str "::1", [str "localhost"])]) (str "localhost") ≠
  hosts_LookupIP (initHostsMap [(str "::1", [str "localhost"]); (str "127.0.0.1", [str "localhost"])]) (str "localhost").
Proof. vm_compute. discriminate. Qed.

(** *** Witnesses *)
Lemma lookup_host_spec_witness :
  LookupHost (λ m : Z, [RR_A [1; 2; 3; 4]]) (λ s, s) (λ _ t, t) ∅ (λ m, Ret m) 5 true (str "a.b") ∈ [Addr4 [1; 2; 3; 4]].
Proof.
  exact (lookup_host_spec (λ m : Z, [RR_A [1; 2; 3; 4]]) (λ s, s) (λ _ t, t) ∅ (λ m, Ret m) 5 true (str "a.b")
    (λ m, ltac:(discriminate)) ltac:(discriminate) eq_refl).
Defined.

Lemma nameserver_defaults_witness :
  parseNameserver [str "tls://dns.google"] = [NameserverExt (str "dns.google:853") (str "tcp-tls")].
Proof.
  refine (proj1 (proj2 (nameserver_defaults "tls" "tcp-tls" "853" (str "dns.google") [] _ _ _ _))).
  - unfold dns_schemes. set_solver.
  - discriminate.
  - repeat constructor.
  - constructor.
Defined.

(** The first nameserver never answers, the second one does. *)
Lemma dns_exchange_live_witness :
  ∃ r : Resolver Z nat nat, NewDnsResolver [str "8.8.8.8"; str "https://1.1.1.1/dns-query"] [] true = Ret r ∧
    ∀ s, rtc (xstep (λ _, 0) (λ n, match clients r !! client_key n with
        Some c => if bool_decide (dc_net c = str "https") then None else Some (Ret 7) | None => Some Panic end)) (xinit (nameservers r)) s →
      ∀ m, x_pc s = Done m → ∃ c, m = Ret 7 ∧ dc_net c = str "udp".
Proof.
  destruct (NewDnsResolver (Msg := Z) (C1 := nat) (C2 := nat) [str "8.8.8.8"; str "https://1.1.1.1/dns-query"] [] true)
    as [r|e|] eqn:E; [|vm_compute in E; discriminate E..]. exists r. split; [reflexivity|].
  intros s Hs m Hm.
  assert (∀ c, (if bool_decide (dc_net c = str "https") then None else Some (Ret 7)) ≠ Some (@Panic Z)) as Hnp by (intros c; case_bool_decide; discriminate).
  pose proof (proj2 (proj1 (dns_exchange_live (λ _ : Z, 0) (λ c, if bool_decide (dc_net c = str "https") then None else Some (Ret 7)) _ _ _ r
    Hnp E) s Hs) _ Hm) as H. assert (nameservers r = parseNameserver [str "8.8.8.8"; str "https://1.1.1.1/dns-query"] ++ []) as En.
  { vm_compute in E. injection E as <-. vm_compute. reflexivity. }
  rewrite En, app_nil_r in H. destruct m as [m|e|]; [| |done].
  - destruct H as (n & c & Hn & Hc & Hx & _). exists c. case_bool_decide; [done|]. injection Hx as <-. split; [done|].
    vm_compute in Hn. apply elem_of_cons in Hn as [->|Hn]; [vm_compute in Hc; injection Hc as <-; reflexivity|].
    apply list_elem_of_singleton in Hn as ->. vm_compute in Hc. injection Hc as <-. done.
  - destruct H as [_ H]. exfalso. destruct (H (NameserverExt (str "https://1.1.1.1:443/dns-query") (str "https"))) as (c & x & Hc & Hx & _).
    + apply (list_elem_of_lookup_2 _ 1). vm_compute. reflexivity.
    + vm_compute in Hc. injection Hc as <-. vm_compute in Hx. discriminate Hx.
Defined.
