(* ===== verification/Cipher.v ===== *)
(** * Package cipher: key derivation, the tables of methods and the cipher
    interfaces; package bufferpool's sizes.

    Models [src/cipher/*.go] and the constants of [src/bufferpool/pool.go]. The
    cryptographic primitives (MD5, HKDF, AES, ChaCha20, ...) belong to other
    packages and are parameters; the laws the connections rely on are the fields
    of the classes [AEADLaws] and [StreamLaws]. *)
From S2P Require Import Prelude GoIO GoNet.
Local Open Scope Z_scope.

(** ** bufferpool *)
Definition MaxAddressBufferSize : nat := 259.
Definition MaxSocksBufferSize : nat := 515.
Definition MaxUdpBufferSize : nat := Z.to_nat (16 * 1024).
Definition MaxTcpBufferSize : nat := Z.to_nat (16 * 1024).
Lemma MaxTcp_size : Z.of_nat MaxTcpBufferSize = 16384.
Proof. unfold MaxTcpBufferSize. lia. Qed.
Lemma MaxUdp_size : Z.of_nat MaxUdpBufferSize = 16384.
Proof. unfold MaxUdpBufferSize. lia. Qed.
Lemma MaxTcp_pos : (0 < MaxTcpBufferSize)%nat.
Proof. pose proof MaxTcp_size. lia. Qed.
#[global] Opaque MaxTcpBufferSize MaxUdpBufferSize.

(** ** [cipher.AEAD] and [cipher.Stream] *)

Record AEAD := MkAEAD {
  NonceSize : nat;
  Overhead : nat;
  Seal : list Z → list Z → list Z;
  Open : list Z → list Z → option (list Z);
}.

(** Sealing adds the overhead and opening with the same nonce undoes it. *)
Class AEADLaws (enc dec : AEAD) : Prop := {
  aead_overhead : Overhead dec = Overhead enc;
  aead_nonce : NonceSize dec = NonceSize enc;
  aead_length n p : length (Seal enc n p) = (length p + Overhead enc)%nat;
  aead_open n p : Open dec n (Seal enc n p) = Some p;
}.

(** A stream's state is what it processed so far: the output for [src] after [h]. *)
Definition Stream : Type := list Z → list Z → list Z.

(** [XORKeyStream] keeps lengths, does not depend on how the input is cut, and the
    decrypter undoes the encrypter. *)
Class StreamLaws (enc dec : Stream) : Prop := {
  stream_length h m : length (enc h m) = length m;
  stream_length_dec h m : length (dec h m) = length m;
  stream_app h a b : enc h (a ++ b) = enc h a ++ enc (h ++ a) b;
  stream_app_dec h a b : dec h (a ++ b) = dec h a ++ dec (h ++ a) b;
  stream_inverse m : dec [] (enc [] m) = m;
}.

(** Which implementation a method uses. *)
Inductive stream_kind := AesCtr | AesCfb | Salsa20 | BfCfb | Rc4Md5 | Chacha20 | Chacha20Ietf.
Inductive aead_kind := AesGcm | Chacha20Poly1305 | XChacha20Poly1305.

(** [streamCipherMap]: key size, IV size, constructor. *)
Definition streamCipherMap : list (gostring * (nat * nat * stream_kind)) :=
  [ (str "aes-128-ctr", (16, 16, AesCtr)%nat);
    (str "aes-192-ctr", (24, 16, AesCtr)%nat);
    (str "aes-256-ctr", (32, 16, AesCtr)%nat);
    (str "aes-128-cfb", (16, 16, AesCfb)%nat);
    (str "aes-192-cfb", (24, 16, AesCfb)%nat);
    (str "aes-256-cfb", (32, 16, AesCfb)%nat);
    (str "salsa20", (32, 8, Salsa20)%nat);
    (str "bf-cfb", (16, 8, BfCfb)%nat);
    (str "rc4-md5", (16, 16, Rc4Md5)%nat);
    (str "chacha20", (32, 8, Chacha20)%nat);
    (str "chacha20-ietf", (32, 12, Chacha20Ietf)%nat) ].

(** [aeadCipherMap]: key size, salt size, nonce size, tag size, constructor. *)
Definition aeadCipherMap : list (gostring * (nat * nat * nat * nat * aead_kind)) :=
  [ (str "aes-128-gcm", (16, 16, 12, 16, AesGcm)%nat);
    (str "aes-192-gcm", (24, 24, 12, 16, AesGcm)%nat);
    (str "aes-256-gcm", (32, 32, 12, 16, AesGcm)%nat);
    (str "chacha20-ietf-poly1305", (32, 32, 12, 16, Chacha20Poly1305)%nat);
    (str "xchacha20-ietf-poly1305", (32, 32, 12, 16, XChacha20Poly1305)%nat) ].

Fixpoint lookup_method {A} (m : gostring) (l : list (gostring * A)) : option A :=
  match l with
  | [] => None
  | (k, a) :: r => if decide (k = m) then Some a else lookup_method m r
  end.

Lemma chacha20_entry : lookup_method (str "chacha20") streamCipherMap = Some (32%nat, 8%nat, Chacha20).
Proof. vm_compute. reflexivity. Qed.

(** [metaStreamCipher] and [metaAEADCipher]: the key, the size of IV or salt and
    the implementation. *)
Record metaStreamCipher := MetaStream { sc_key : list Z; sc_ivSize : nat; sc_kind : stream_kind }.
Record metaAEADCipher := MetaAEAD { ac_key : list Z; ac_saltSize : nat; ac_kind : aead_kind }.
Definition sc_KeySize (m : metaStreamCipher) : nat := length (sc_key m).
Definition ac_KeySize (c : metaAEADCipher) : nat := length (ac_key c).

Definition ErrUnsupportedMethod := errNew "unsupported method: %s".
Definition info : gostring := str "ss-subkey".

Section Cipher.
(** [crypto/md5], HKDF-SHA1 expanded to a length, and the constructors of the
    primitives. *)
Context (md5 : list Z → list Z).
Context (hkdf_sha1 : list Z → list Z → list Z → nat → list Z).
(** [aes.NewCipher] and [blowfish.NewCipher], and the modes of a block cipher, which
    panic when the IV has not the size of a block. *)
Context {Block : Type} (aes_NewCipher blowfish_NewCipher : list Z → res Block)
        (NewCTR NewCFBEncrypter NewCFBDecrypter : Block → list Z → res Stream).
Context (NewGCM : Block → res AEAD) (chacha20poly1305_New chacha20poly1305_NewX : list Z → res AEAD).
Context (rc4 : list Z → res Stream) (chacha20 : list Z → list Z → res Stream)
        (salsa20_xor : list Z → list Z → list Z → list Z).

(** [Kdf]: the loop of [EVP_BytesToKey]; [h.Sum(res)] appends the digest and
    [prev] is the last digest. *)
Fixpoint kdf_loop (fuel : nat) (password res prev : list Z) (keyLen : nat) : option (list Z) :=
  if (keyLen <=? length res)%nat then Some (take keyLen res) else
  match fuel with
  | O => None
  | S f =>
      let d := md5 (prev ++ password) in
      let res' := res ++ d in
      kdf_loop f password res' (drop (length res' - length d) res') keyLen
  end.
Definition Kdf (password : gostring) (keyLen : nat) : option (list Z) :=
  kdf_loop keyLen password [] [] keyLen.

Definition NewStreamCipher (method password : gostring) : res metaStreamCipher :=
  match lookup_method method streamCipherMap with
  | None => Fail (errNew "unsupported stream cipher: %s")
  | Some (keySize, ivSize, kind) =>
      match Kdf password keySize with
      | Some key => Ret (MetaStream key ivSize kind)
      | None => Panic
      end
  end.

Definition NewAEADCipher (method password : gostring) : res metaAEADCipher :=
  match lookup_method method aeadCipherMap with
  | None => Fail (errNew "unsupported aead cipher: %s")
  | Some (keySize, saltSize, _, _, kind) =>
      match Kdf password keySize with
      | Some key => Ret (MetaAEAD key saltSize kind)
      | None => Panic
      end
  end.

(** [GetCipher]: at most one of the two ciphers is set. *)
Definition GetCipher (method password : gostring)
    : res (option metaStreamCipher * option metaAEADCipher) :=
  if decide (method = str "none") then Ret (None, None)
  else match lookup_method method streamCipherMap with
       | Some _ => sc ← NewStreamCipher method password; Ret (Some sc, None)
       | None =>
           match lookup_method method aeadCipherMap with
           | Some _ => ac ← NewAEADCipher method password; Ret (None, Some ac)
           | None => Fail ErrUnsupportedMethod
           end
       end.

Definition hkdfSha1 (key salt info : list Z) (outLen : nat) : list Z := hkdf_sha1 key salt info outLen.

(** What the constructors store as [makeAEAD]. *)
Definition makeAEAD (k : aead_kind) (key : list Z) : res AEAD :=
  match k with
  | AesGcm => blk ← aes_NewCipher key; NewGCM blk
  | Chacha20Poly1305 => chacha20poly1305_New key
  | XChacha20Poly1305 => chacha20poly1305_NewX key
  end.
(** [metaAEADCipher.GetEncrypter] and [GetDecrypter]. *)
Definition ac_GetEncrypter (c : metaAEADCipher) (salt : list Z) : res AEAD :=
  makeAEAD (ac_kind c) (hkdfSha1 (ac_key c) salt info (ac_KeySize c)).
Definition ac_GetDecrypter (c : metaAEADCipher) (salt : list Z) : res AEAD :=
  makeAEAD (ac_kind c) (hkdfSha1 (ac_key c) salt info (ac_KeySize c)).

Definition rc4MD5 (key iv : list Z) : res Stream := rc4 (md5 (key ++ iv)).

(** [salsa20Wrapper]: every call starts a new key stream at position 0, so the
    state is not used. *)
Definition newSalsa20 (key iv : list Z) : res Stream :=
  Ret (λ _ src, salsa20_xor src iv (take 32 key)).
Definition newChacha20 (key iv : list Z) : res Stream := chacha20 key iv.

Definition aesCTR (key iv : list Z) : res Stream := blk ← aes_NewCipher key; NewCTR blk iv.
Definition aesCFB_enc (key iv : list Z) : res Stream := blk ← aes_NewCipher key; NewCFBEncrypter blk iv.
Definition aesCFB_dec (key iv : list Z) : res Stream := blk ← aes_NewCipher key; NewCFBDecrypter blk iv.
Definition bfCFB_enc (key iv : list Z) : res Stream := blk ← blowfish_NewCipher key; NewCFBEncrypter blk iv.
Definition bfCFB_dec (key iv : list Z) : res Stream := blk ← blowfish_NewCipher key; NewCFBDecrypter blk iv.

(** What the constructors store as [makeEncrypter] and [makeDecrypter]. *)
Definition makeEncrypter (k : stream_kind) : list Z → list Z → res Stream :=
  match k with
  | AesCtr => aesCTR | AesCfb => aesCFB_enc | BfCfb => bfCFB_enc | Rc4Md5 => rc4MD5 | Salsa20 => newSalsa20
  | Chacha20 | Chacha20Ietf => newChacha20
  end.
Definition makeDecrypter (k : stream_kind) : list Z → list Z → res Stream :=
  match k with
  | AesCtr => aesCTR | AesCfb => aesCFB_dec | BfCfb => bfCFB_dec | Rc4Md5 => rc4MD5 | Salsa20 => newSalsa20
  | Chacha20 | Chacha20Ietf => newChacha20
  end.
Definition sc_GetEncrypter (m : metaStreamCipher) (iv : list Z) : res Stream := makeEncrypter (sc_kind m) (sc_key m) iv.
Definition sc_GetDecrypter (m : metaStreamCipher) (iv : list Z) : res Stream := makeDecrypter (sc_kind m) (sc_key m) iv.

(** *** Reference: [D_1 = MD5(password)], [D_(i+1) = MD5(D_i ++ password)] *)
Fixpoint digests (password prev : list Z) (n : nat) : list Z :=
  match n with
  | O => []
  | S m => let d := md5 (prev ++ password) in d ++ digests password d m
  end.

Hypothesis md5_length : ∀ m, length (md5 m) = 16%nat.

Lemma kdf_loop_spec fuel password keyLen : ∀ res prev,
  (keyLen ≤ length res + 16 * fuel)%nat →
  kdf_loop fuel password res prev keyLen = Some (take keyLen (res ++ digests password prev fuel)).
Proof.
  induction fuel as [|f IH]; intros res prev Hf; simpl.
  - case_match; zify_bool; [|lia]. by rewrite app_nil_r.
  - case_match; zify_bool; [by rewrite take_app_le|].
    rewrite length_app, md5_length. replace (length res + 16 - 16)%nat with (length res) by lia.
    rewrite drop_app_length, IH by (rewrite length_app, md5_length; lia).
    by rewrite <-app_assoc.
Qed.

Lemma digests_length password n : ∀ prev, length (digests password prev n) = (16 * n)%nat.
Proof. induction n as [|n IH]; intros prev; simpl; [done|]. rewrite length_app, md5_length, IH. lia. Qed.

(** Key derivation terminates for every password and key
    size, and returns the first [keyLen] bytes of the digest chain [D_1 D_2 ...]
    of [EVP_BytesToKey]; every method of the tables therefore gets a key of
    exactly its key size. *)
Theorem kdf_evp_bytes_to_key (password : gostring) (keyLen : nat) :
  Kdf password keyLen = Some (take keyLen (digests password [] keyLen)) ∧
  length (take keyLen (digests password [] keyLen)) = keyLen ∧
  (∀ method sc, NewStreamCipher method password = Ret sc →
     ∃ iv kind, lookup_method method streamCipherMap = Some (sc_KeySize sc, iv, kind) ∧ sc_ivSize sc = iv) ∧
  (∀ method ac, NewAEADCipher method password = Ret ac →
     ∃ n t kind, lookup_method method aeadCipherMap = Some (ac_KeySize ac, ac_saltSize ac, n, t, kind)).
Proof.
  assert (∀ n, Kdf password n = Some (take n (digests password [] n))) as HK.
  { intros n. unfold Kdf. by rewrite kdf_loop_spec by lia. }
  assert (∀ n, length (take n (digests password [] n)) = n) as HL.
  { intros n. rewrite length_take, digests_length. lia. }
  split_and!; [done|done| |].
  - intros method sc. unfold NewStreamCipher. destruct (lookup_method method streamCipherMap) as [[[k i] kd]|]; [|done].
    rewrite HK. intros [= <-]. unfold sc_KeySize. simpl. rewrite HL. eauto.
  - intros method ac. unfold NewAEADCipher.
    destruct (lookup_method method aeadCipherMap) as [[[[[k s] n] t] kd]|]; [|done].
    rewrite HK. intros [= <-]. unfold ac_KeySize. simpl. rewrite HL. eauto.
Qed.

Lemma NewStreamCipher_inv method password sc :
  NewStreamCipher method password = Ret sc →
  ∃ k, lookup_method method streamCipherMap = Some (k, sc_ivSize sc, sc_kind sc).
Proof.
  unfold NewStreamCipher. destruct (lookup_method method streamCipherMap) as [[[k i] kd]|]; [|done].
  destruct (Kdf password k); [|done]. intros [= <-]. eauto.
Qed.

(** The ChaCha20 constructor refuses nonces of any length but 12 and
    24 bytes; the table gives the method "chacha20" IVs of 8 bytes, so neither
    direction of a connection with that method can ever be set up. *)
Theorem chacha20_unusable (password : gostring) (iv : list Z) sc :
  (∀ key iv, length iv ≠ 12%nat → length iv ≠ 24%nat → ∃ e, chacha20 key iv = Fail e) →
  NewStreamCipher (str "chacha20") password = Ret sc → length iv = sc_ivSize sc →
  (∃ e, sc_GetEncrypter sc iv = Fail e) ∧ (∃ e, sc_GetDecrypter sc iv = Fail e).
Proof.
  intros Hc HN Hl. apply NewStreamCipher_inv in HN as [k HN].
  rewrite chacha20_entry in HN. injection HN as _ Hi Hk.
  unfold sc_GetEncrypter, sc_GetDecrypter. rewrite <-Hk.
  split; apply Hc; rewrite Hl, <-Hi; discriminate.
Qed.

(** The salsa20 stream restarts its key stream at every call: two
    successive writes are encrypted with the same key stream, so the xor of the
    ciphertexts is the xor of the plaintexts. *)
Theorem salsa20_keystream_reused (ks : list Z → list Z → nat → Z) (key iv m1 m2 : list Z) s i x1 x2 :
  (∀ src iv key, salsa20_xor src iv key = imap (λ j b, Z.lxor b (ks iv key j)) src) →
  newSalsa20 key iv = Ret s → m1 !! i = Some x1 → m2 !! i = Some x2 →
  ∃ c1 c2, s [] m1 !! i = Some c1 ∧ s m1 m2 !! i = Some c2 ∧ Z.lxor c1 c2 = Z.lxor x1 x2.
Proof.
  intros Hs [= <-] H1 H2. eexists _, _. rewrite !Hs, !list_lookup_imap, H1, H2. split_and!; [done..|].
  zbits.
Qed.
End Cipher.

Definition demo_md5 : list Z → list Z := λ m, take 16 (m ++ replicate 16 0).
Lemma demo_md5_length m : length (demo_md5 m) = 16%nat.
Proof. unfold demo_md5. rewrite length_take, length_app, length_replicate. lia. Qed.

Lemma kdf_evp_bytes_to_key_witness :
  Kdf demo_md5 (str "pw") 32 = Some (take 32 (digests demo_md5 (str "pw") [] 32)).
Proof. exact (proj1 (kdf_evp_bytes_to_key demo_md5 demo_md5_length (str "pw") 32)). Defined.

Definition demo_chacha20 : list Z → list Z → res Stream := λ _ iv,
  if (length iv =? 12)%nat || (length iv =? 24)%nat then Ret (λ _ m, m) else Fail (errNew "wrong nonce size").
Definition no_block : list Z → res unit := λ _, Panic.
Definition no_mode : unit → list Z → res Stream := λ _ _, Panic.

Lemma chacha20_unusable_witness :
  ∃ sc e, NewStreamCipher demo_md5 (str "chacha20") (str "pw") = Ret sc ∧
    sc_GetEncrypter demo_md5 no_block no_block no_mode no_mode (λ _, Panic) demo_chacha20
      (λ m _ _, m) sc (replicate 8 7) = Fail e.
Proof.
  destruct (NewStreamCipher demo_md5 (str "chacha20") (str "pw")) as [sc|e|] eqn:E;
    [|vm_compute in E; discriminate..].
  destruct (chacha20_unusable demo_md5 no_block no_block no_mode no_mode no_mode (λ _, Panic)
    demo_chacha20 (λ m _ _, m) (str "pw") (replicate 8 7) sc) as [[e He] _].
  - intros key iv H1 H2. unfold demo_chacha20. exists (errNew "wrong nonce size").
    rewrite (proj2 (Nat.eqb_neq _ _) H1), (proj2 (Nat.eqb_neq _ _) H2). reflexivity.
  - exact E.
  - vm_compute in E. injection E as <-. reflexivity.
  - exists sc, e. split; [reflexivity|exact He].
Defined.

Lemma salsa20_keystream_reused_witness :
  ∃ c1 c2, (λ (h : list Z) src, imap (λ j b, Z.lxor b (Z.of_nat j + 9)) src) [] [5; 6] !! 1%nat = Some c1 ∧
    (λ (h : list Z) src, imap (λ j b, Z.lxor b (Z.of_nat j + 9)) src) [5; 6] [7; 8] !! 1%nat = Some c2 ∧
    Z.lxor c1 c2 = Z.lxor 6 8.
Proof.
  exact (salsa20_keystream_reused (λ src _ _, imap (λ j b, Z.lxor b (Z.of_nat j + 9)) src)
    (λ _ _ j, Z.of_nat j + 9) [] [] [5; 6] [7; 8] _ 1 6 8 (λ _ _ _, eq_refl) eq_refl eq_refl eq_refl).
Defined.
