(* ===== verification/AeadConn.v ===== *)
(** * Package aead: the AEAD stream and packet connections.

    Models [src/ss/aead/stream_conn.go] and [src/ss/aead/packet_conn.go]. A frame
    is the sealed two-byte size followed by the sealed payload, each under its own
    nonce. The reader's [remainbuf] is a window of its buffer that is used up
    before the buffer is filled again, so it is modelled by its contents. *)
From S2P Require Import Prelude GoIO GoNet Cipher.
Local Open Scope Z_scope.

Definition errOpen := errNew "cipher: message authentication failed".
Definition errOverflow := errNew "payload buffer size overflow".

(** [increment]: a little-endian counter. *)
Fixpoint increment (nonce : list Z) : list Z :=
  match nonce with
  | [] => []
  | b :: r => let b' := u8 (b + 1) in if b' =? 0 then b' :: increment r else b' :: r
  end.

Record streamReader := StreamReader {
  r_aead : AEAD;
  remainbuf : list Z;
  r_nonce : list Z;
}.
Definition newStreamReader (a : AEAD) : streamReader := StreamReader a [] (replicate (NonceSize a) 0).

Definition bump (r : streamReader) : streamReader :=
  StreamReader (r_aead r) (remainbuf r) (increment (r_nonce r)).

(** [read]: one frame; the payload. The slice [r.buf[:size+Overhead]] panics when
    it exceeds the buffer, which has room for [MaxTcpBufferSize+Overhead]. *)
Definition read (r : streamReader) (c : conn) : streamReader * conn * res (list Z) :=
  let ov := Overhead (r_aead r) in
  match read_full (2 + ov) c with
  | (c1, Fail e) => (r, c1, Fail e)
  | (c1, Panic) => (r, c1, Panic)
  | (c1, Ret buf) =>
      let r1 := bump r in
      match Open (r_aead r) (r_nonce r) buf with
      | None => (r1, c1, Fail errOpen)
      | Some hdr =>
          let size := Z.lor (Z.shiftl (byte_at hdr 0) 8) (Z.land (byte_at hdr 1) 255) in
          if Z.of_nat (MaxTcpBufferSize + ov) <? size then (r1, c1, Fail errOverflow) else
          if Z.of_nat (MaxTcpBufferSize + ov) <? size + Z.of_nat ov then (r1, c1, Panic) else
          match read_full (Z.to_nat size + ov) c1 with
          | (c2, Fail e) => (r1, c2, Fail e)
          | (c2, Panic) => (r1, c2, Panic)
          | (c2, Ret buf2) =>
              let r2 := bump r1 in
              match Open (r_aead r1) (r_nonce r1) buf2 with
              | None => (r2, c2, Fail errOpen)
              | Some payload => (r2, c2, Ret (take (Z.to_nat size) payload))
              end
          end
      end
  end.

Definition set_remain (r : streamReader) (b : list Z) : streamReader :=
  StreamReader (r_aead r) b (r_nonce r).

(** [Read(b)] with [len(b) = n]. *)
Definition Read (n : nat) (r : streamReader) (c : conn) : streamReader * conn * res (list Z) :=
  match remainbuf r with
  | _ :: _ => (set_remain r (drop n (remainbuf r)), c, Ret (take n (remainbuf r)))
  | [] =>
      match read r c with
      | (r1, c1, Ret p) =>
          ((if (n <? length p)%nat then set_remain r1 (drop n p) else r1), c1, Ret (take n p))
      | (r1, c1, Fail e) => (r1, c1, Fail e)
      | (r1, c1, Panic) => (r1, c1, Panic)
      end
  end.

(** The second loop of [WriteTo]: total written so far, and the error returned. *)
Fixpoint writeTo_loop (fuel : nat) (r : streamReader) (c w : conn) (n : nat)
    : option (streamReader * conn * conn * res (nat * option error)) :=
  match fuel with
  | O => None
  | S f =>
      match read r c with
      | (r1, c1, Panic) => Some (r1, c1, w, Panic)
      | (r1, c1, Fail er) =>
          Some (r1, c1, w, Ret (n, if decide (er = io_EOF) then None else Some er))
      | (r1, c1, Ret p) =>
          match p with
          | [] => writeTo_loop f r1 c1 w n
          | _ =>
              let '(w1, (nw, ew)) := conn_write p w in
              match ew with
              | Some e => Some (r1, c1, w1, Ret ((n + nw)%nat, Some e))
              | None => writeTo_loop f r1 c1 w1 (n + nw)
              end
          end
      end
  end.

(** [WriteTo(w)]: first what is left of the last frame; a writer that writes less
    than it is given returns an error, so that loop runs at most once. *)
Definition WriteTo (r : streamReader) (c w : conn)
    : option (streamReader * conn * conn * res (nat * option error)) :=
  let fuel := S (length (pending c)) in
  match remainbuf r with
  | [] => writeTo_loop fuel r c w 0
  | b =>
      let '(w1, (nw, ew)) := conn_write b w in
      let r1 := set_remain r (drop nw b) in
      match ew with
      | Some e => Some (r1, c, w1, Ret (nw, Some e))
      | None => writeTo_loop fuel r1 c w1 nw
      end
  end.

Record streamWriter := StreamWriter { w_aead : AEAD; w_nonce : list Z }.
Definition newStreamWriter (a : AEAD) : streamWriter := StreamWriter a (replicate (NonceSize a) 0).

(** The bytes of one frame, and the nonce after it. *)
Definition seal_frame (a : AEAD) (nonce p : list Z) : list Z :=
  Seal a nonce (be16 (Z.of_nat (length p))) ++ Seal a (increment nonce) p.

(** [ReadFrom(r)]: read up to [MaxTcpBufferSize] bytes, send them as a frame. *)
Fixpoint readFrom_loop (fuel : nat) (w : streamWriter) (c src : conn) (n : nat)
    : option (streamWriter * conn * conn * (nat * option error)) :=
  match fuel with
  | O => None
  | S f =>
      match conn_read MaxTcpBufferSize src with
      | (src1, Ret p) =>
          match p with
          | [] => readFrom_loop f w c src1 n
          | _ =>
              let w1 := StreamWriter (w_aead w) (increment (increment (w_nonce w))) in
              let '(c1, (_, ew)) := conn_write (seal_frame (w_aead w) (w_nonce w) p) c in
              match ew with
              | Some e => Some (w1, c1, src1, ((n + length p)%nat, Some e))
              | None => readFrom_loop f w1 c1 src1 (n + length p)
              end
          end
      | (src1, Fail er) =>
          Some (w, c, src1, (n, if decide (er = io_EOF) then None else Some er))
      | (src1, Panic) => Some (w, c, src1, (n, None))
      end
  end.
Definition ReadFrom (w : streamWriter) (c src : conn)
    : option (streamWriter * conn * conn * (nat * option error)) :=
  readFrom_loop (S (src_size src)) w c src 0.

(** [Write(b)]. *)
Definition Write (b : list Z) (w : streamWriter) (c : conn)
    : option (streamWriter * conn * (nat * option error)) :=
  match ReadFrom w c (bytes_reader b) with
  | Some (w1, c1, _, x) => Some (w1, c1, x)
  | None => None
  end.

(** ** The connection: the salt comes first in each direction *)
Section Conn.
Context (SaltSize : nat) (GetEncrypter GetDecrypter : list Z → res AEAD).

Record streamConn := MkStreamConn {
  sc_conn : conn;
  sc_r : option streamReader;
  sc_w : option streamWriter;
}.
Definition NewStreamConn (c : conn) : streamConn := MkStreamConn c None None.

Definition initReader (s : streamConn) : streamConn * res streamReader :=
  match read_full SaltSize (sc_conn s) with
  | (c1, Ret salt) =>
      match GetDecrypter salt with
      | Ret cp => let r := newStreamReader cp in (MkStreamConn c1 (Some r) (sc_w s), Ret r)
      | Fail e => (MkStreamConn c1 None (sc_w s), Fail e)
      | Panic => (MkStreamConn c1 None (sc_w s), Panic)
      end
  | (c1, Fail e) => (MkStreamConn c1 None (sc_w s), Fail e)
  | (c1, Panic) => (MkStreamConn c1 None (sc_w s), Panic)
  end.

(** [rnd]: what [io.ReadFull(rand.Reader, salt)] gives. *)
Definition initWriter (rnd : res (list Z)) (s : streamConn) : streamConn * res streamWriter :=
  match rnd with
  | Fail e => (s, Fail e)
  | Panic => (s, Panic)
  | Ret salt =>
      let '(c1, (_, ew)) := conn_write salt (sc_conn s) in
      match ew with
      | Some e => (MkStreamConn c1 (sc_r s) None, Fail e)
      | None =>
          match GetEncrypter salt with
          | Ret cp => let w := newStreamWriter cp in (MkStreamConn c1 (sc_r s) (Some w), Ret w)
          | Fail e => (MkStreamConn c1 (sc_r s) None, Fail e)
          | Panic => (MkStreamConn c1 (sc_r s) None, Panic)
          end
      end
  end.

Definition get_reader (s : streamConn) : streamConn * res streamReader :=
  match sc_r s with Some r => (s, Ret r) | None => initReader s end.
Definition get_writer (rnd : res (list Z)) (s : streamConn) : streamConn * res streamWriter :=
  match sc_w s with Some w => (s, Ret w) | None => initWriter rnd s end.

Definition conn_Read (n : nat) (s : streamConn) : streamConn * res (list Z) :=
  match get_reader s with
  | (s1, Ret r) => let '(r1, c1, x) := Read n r (sc_conn s1) in (MkStreamConn c1 (Some r1) (sc_w s1), x)
  | (s1, Fail e) => (s1, Fail e)
  | (s1, Panic) => (s1, Panic)
  end.

Definition conn_Write (rnd : res (list Z)) (b : list Z) (s : streamConn)
    : option (streamConn * res (nat * option error)) :=
  match get_writer rnd s with
  | (s1, Ret w) =>
      match Write b w (sc_conn s1) with
      | Some (w1, c1, x) => Some (MkStreamConn c1 (sc_r s1) (Some w1), Ret x)
      | None => None
      end
  | (s1, Fail e) => Some (s1, Fail e)
  | (s1, Panic) => Some (s1, Panic)
  end.

Definition conn_WriteTo (s : streamConn) (w : conn)
    : option (streamConn * conn * res (nat * option error)) :=
  match get_reader s with
  | (s1, Ret r) =>
      match WriteTo r (sc_conn s1) w with
      | Some (r1, c1, w1, x) => Some (MkStreamConn c1 (Some r1) (sc_w s1), w1, x)
      | None => None
      end
  | (s1, Fail e) => Some (s1, w, Fail e)
  | (s1, Panic) => Some (s1, w, Panic)
  end.

Definition conn_ReadFrom (rnd : res (list Z)) (s : streamConn) (src : conn)
    : option (streamConn * conn * res (nat * option error)) :=
  match get_writer rnd s with
  | (s1, Ret w) =>
      match ReadFrom w (sc_conn s1) src with
      | Some (w1, c1, src1, x) => Some (MkStreamConn c1 (sc_r s1) (Some w1), src1, Ret x)
      | None => None
      end
  | (s1, Fail e) => Some (s1, src, Fail e)
  | (s1, Panic) => Some (s1, src, Panic)
  end.
End Conn.

(** ** Frames *)

Fixpoint frames (a : AEAD) (nonce : list Z) (ps : list (list Z)) : list Z :=
  match ps with
  | [] => []
  | p :: r => seal_frame a nonce p ++ frames a (increment (increment nonce)) r
  end.
Fixpoint nonce_after (nonce : list Z) (ps : list (list Z)) : list Z :=
  match ps with [] => nonce | _ :: r => nonce_after (increment (increment nonce)) r end.

Lemma frames_app a nonce ps qs :
  frames a nonce (ps ++ qs) = frames a nonce ps ++ frames a (nonce_after nonce ps) qs.
Proof. revert nonce. induction ps as [|p ps IH]; intros nonce; simpl; [done|]. by rewrite IH, app_assoc. Qed.
Lemma nonce_after_app nonce ps qs : nonce_after nonce (ps ++ qs) = nonce_after (nonce_after nonce ps) qs.
Proof. revert nonce. induction ps as [|p ps IH]; intros nonce; simpl; [done|]. by rewrite IH. Qed.

(** What a frame may carry. *)
Definition wf_pieces (ps : list (list Z)) : Prop :=
  Forall (λ p, p ≠ [] ∧ (length p ≤ MaxTcpBufferSize)%nat) ps.

Lemma be16_size n : 0 ≤ n < 65536 →
  Z.lor (Z.shiftl (byte_at (be16 n) 0) 8) (Z.land (byte_at (be16 n) 1) 255) = n.
Proof.
  intros Hn. rewrite <-(get_be16_be16 n []) at 3 by done. rewrite app_nil_r. unfold get_be16. f_equal.
  unfold be16, byte_at. simpl. change 255 with (Z.ones 8). rewrite Z.land_ones by lia.
  unfold u8. by rewrite Z.mod_mod.
Qed.

Lemma readFrom_loop_ok fuel : ∀ w c src n,
  (src_size src < fuel)%nat → c_wbudget c = None → c_rerr src = io_EOF →
  ∃ ps src', wf_pieces ps ∧ concat ps = pending src ∧
    readFrom_loop fuel w c src n =
      Some (StreamWriter (w_aead w) (nonce_after (w_nonce w) ps),
            set_out (c_out c ++ frames (w_aead w) (w_nonce w) ps) None c, src',
            ((n + length (pending src))%nat, None)).
Proof.
  induction fuel as [|f IH]; intros w c src n Hf Hw Hr; [lia|]. simpl.
  destruct (conn_read MaxTcpBufferSize src) as [src1 [p|e|]] eqn:E.
  - pose proof (conn_read_pending _ _ _ _ E) as [Hp Hl].
    pose proof (conn_read_progress _ _ _ _ MaxTcp_pos E) as Hlt.
    pose proof (conn_read_rerr _ _ _ _ E) as Hr1.
    destruct p as [|x p].
    + destruct (IH w c src1 n) as (ps & src' & Hwf & Hc & ->); [lia|done|congruence|].
      exists ps, src'. rewrite Hp. done.
    + rewrite conn_write_unbounded by done.
      destruct (IH (StreamWriter (w_aead w) (increment (increment (w_nonce w))))
        (set_out (c_out c ++ seal_frame (w_aead w) (w_nonce w) (x :: p)) None c) src1 (n + length (x :: p))%nat)
        as (ps & src' & Hwf & Hc & ->); [lia|done|congruence|].
      exists ((x :: p) :: ps), src'. split_and!.
      * constructor; [|done]. split; [done|done].
      * simpl. by rewrite Hc, Hp.
      * cbn [w_aead w_nonce nonce_after frames]. rewrite Hp, length_app.
        rewrite Nat.add_assoc. unfold set_out. cbn [c_out c_in c_rerr c_werr]. by rewrite <-app_assoc.
  - apply conn_read_Fail in E as (-> & Hin & ->). rewrite Hr, decide_True by done.
    exists [], src. split_and!; [constructor|by unfold pending; rewrite Hin|].
    simpl. unfold pending. rewrite Hin. simpl. rewrite app_nil_r, Nat.add_0_r.
    destruct w, c; simpl in *; subst. done.
  - by apply conn_read_nopanic in E.
Qed.

Section Frames.
Context (enc dec : AEAD) `{!AEADLaws enc dec}.

Lemma read_frame r c p rest :
  r_aead r = dec → (length p ≤ MaxTcpBufferSize)%nat →
  pending c = seal_frame enc (r_nonce r) p ++ rest →
  ∃ c', read r c = (bump (bump r), c', Ret p) ∧ pending c' = rest ∧ c_rerr c' = c_rerr c ∧ c_out c' = c_out c.
Proof.
  intros Hr Hl Hp. unfold read. rewrite Hr. pose proof MaxTcp_size as HM.
  unfold seal_frame in Hp. rewrite <-app_assoc in Hp.
  destruct (read_full_app (2 + Overhead dec) c _ _ Hp) as (c1 & -> & Hp1 & He1 & Ho1 & _).
  { rewrite aead_length, (aead_overhead (dec := dec)). done. }
  rewrite (aead_open (dec := dec)), be16_size by lia.
  rewrite (proj2 (Z.ltb_ge _ _)), (proj2 (Z.ltb_ge _ _)) by lia. rewrite Nat2Z.id.
  destruct (read_full_app (length p + Overhead dec) c1 _ _ Hp1) as (c2 & -> & Hp2 & He2 & Ho2 & _).
  { by rewrite aead_length, (aead_overhead (dec := dec)). }
  unfold bump at 1. simpl. rewrite Hr, (aead_open (dec := dec)). exists c2.
  rewrite take_ge by lia. split_and!; [done|done|congruence|congruence].
Qed.

Lemma read_end r c : pending c = [] → ∃ c', read r c = (r, c', Fail (c_rerr c)) ∧ pending c' = [].
Proof.
  intros Hp. unfold read. rewrite read_full_short by (rewrite Hp; simpl; lia). rewrite Hp. simpl. eauto.
Qed.

Lemma frames_length_ge nonce ps : (length ps ≤ length (frames enc nonce ps))%nat.
Proof.
  revert nonce. induction ps as [|p ps IH]; intros nonce; simpl; [lia|].
  unfold seal_frame. rewrite !length_app, aead_length. specialize (IH (increment (increment nonce))).
  unfold be16. simpl. lia.
Qed.

Lemma aead_writeTo_loop_ok ps : ∀ fuel r c w n,
  wf_pieces ps → (length ps < fuel)%nat → r_aead r = dec → remainbuf r = [] →
  pending c = frames enc (r_nonce r) ps → c_rerr c = io_EOF → c_wbudget w = None →
  ∃ r' c', writeTo_loop fuel r c w n =
    Some (r', c', set_out (c_out w ++ concat ps) None w, Ret ((n + length (concat ps))%nat, None)).
Proof.
  induction ps as [|p ps IH]; intros [|f] r c w n Hwf Hf Hr Hrem Hp He Hw; try (simpl in Hf; lia).
  - simpl. destruct (read_end r c Hp) as (c' & -> & _). rewrite decide_True by done.
    exists r, c'. rewrite app_nil_r, Nat.add_0_r. destruct w; simpl in *; subst. done.
  - apply Forall_cons in Hwf as [[Hne Hl] Hwf]. simpl in Hp.
    destruct (read_frame r c p _ Hr Hl Hp) as (c1 & E & Hp1 & He1 & _). simpl. rewrite E.
    destruct p as [|x p]; [done|]. rewrite conn_write_unbounded by done.
    destruct (IH f (bump (bump r)) c1 (set_out (c_out w ++ x :: p) None w) (n + length (x :: p))%nat)
      as (r' & c' & ->); try done; [simpl in Hf; lia|congruence|].
    exists r', c'. cbn [concat]. rewrite length_app, Nat.add_assoc.
    unfold set_out. cbn [c_out c_in c_rerr c_werr]. by rewrite <-app_assoc.
Qed.
End Frames.

(** The reader [r] over [c] is about to deliver the bytes [m]. *)
Definition Delivers (enc dec : AEAD) (r : streamReader) (c : conn) (m : list Z) : Prop :=
  r_aead r = dec ∧ ∃ ps, wf_pieces ps ∧ pending c = frames enc (r_nonce r) ps ∧ m = remainbuf r ++ concat ps.

Lemma read_keeps r c r' c' x : read r c = (r', c', x) → ∃ chs, c' = set_in chs c.
Proof.
  unfold read, read_full. destruct (read_loop _ _ _) as [chs acc].
  repeat (case_match; try (intros; simplify_eq; eauto; done)); intros; simplify_eq;
    destruct (read_loop _ _ _) in *; simplify_eq; exists l; done.
Qed.

Lemma Read_keeps n r c r' c' x : Read n r c = (r', c', x) → ∃ chs, c' = set_in chs c.
Proof.
  unfold Read. destruct (remainbuf r).
  - destruct (read r c) as [[r1 c1] y] eqn:E. apply read_keeps in E as (chs & ->).
    destruct y; intros; simplify_eq; eauto.
  - intros; simplify_eq. exists (c_in c'). by destruct c'.
Qed.

(** One [Read] of a reader that is about to deliver a message. *)
Lemma Read_delivers (enc dec : AEAD) (n : nat) r c m :
  AEADLaws enc dec → (0 < n)%nat → Delivers enc dec r c m →
  match Read n r c with
  | (r', c', Ret d) => d ≠ [] ∧ (length d ≤ n)%nat ∧
      (length (pending c') + length (remainbuf r') < length (pending c) + length (remainbuf r))%nat ∧
      ∃ m', m = d ++ m' ∧ Delivers enc dec r' c' m'
  | (r', c', Fail e) => m = [] ∧ e = c_rerr c ∧ Delivers enc dec r' c' []
  | (_, _, Panic) => False
  end.
Proof.
  intros HL Hn (Hr & ps & Hwf & Hp & ->). unfold Read.
  destruct (remainbuf r) as [|x rem] eqn:Er.
  - destruct ps as [|p ps].
    + destruct (read_end r c Hp) as (c' & -> & Hp'). split_and!; [done|done|]. split; [done|].
      exists []. rewrite Er. split_and!; [constructor|done|done].
    + apply Forall_cons in Hwf as [[Hne Hl] Hwf]. simpl in Hp.
      destruct (read_frame enc dec r c p _ Hr Hl Hp) as (c1 & -> & Hp1 & He1 & _).
      split_and!; [destruct p, n; (done || lia)|rewrite length_take; lia| |].
      * rewrite Hp, Hp1. unfold seal_frame. rewrite !length_app, !aead_length.
        case_match; zify_bool; simpl; rewrite ?Er, ?length_drop; simpl; lia.
      * exists (drop n p ++ concat ps). split; [by rewrite app_assoc, take_drop|].
        case_match; zify_bool; (split; [done|]); exists ps; split_and!; try done.
        simpl. rewrite Er, drop_ge by lia. done.
  - split_and!; [by destruct n; [lia|]|rewrite length_take; lia| |].
    { simpl. rewrite length_drop. simpl. lia. }
    exists (drop n (x :: rem) ++ concat ps). split; [by rewrite app_assoc, take_drop|].
    split; [done|]. exists ps. done.
Qed.

(** A reader whose input, however it is chunked, holds the frames of a
    message returns from every [Read] with a non-empty buffer a non-empty piece of
    what is still to come, in order and without loss, and reports the end of the
    connection exactly when the message is used up. *)
Theorem aead_read_delivers (enc dec : AEAD) (n : nat) r c m :
  AEADLaws enc dec → (0 < n)%nat → Delivers enc dec r c m →
  match Read n r c with
  | (r', c', Ret d) => d ≠ [] ∧ (length d ≤ n)%nat ∧ ∃ m', m = d ++ m' ∧ Delivers enc dec r' c' m'
  | (r', c', Fail e) => m = [] ∧ e = c_rerr c
  | (_, _, Panic) => False
  end.
Proof.
  intros HL Hn HD. pose proof (Read_delivers enc dec n r c m HL Hn HD) as H.
  destruct (Read n r c) as [[r' c'] [d|e|]]; naive_solver.
Qed.

(** ** Whole connections *)

(** Successive [Write]s, each reporting its full length. *)
Fixpoint write_all (GE : list Z → res AEAD) (rnd : res (list Z)) (bs : list (list Z)) (s : streamConn)
    : option streamConn :=
  match bs with
  | [] => Some s
  | b :: r =>
      match conn_Write GE rnd b s with
      | Some (s1, Ret (n, None)) => if (n =? length b)%nat then write_all GE rnd r s1 else None
      | _ => None
      end
  end.

Lemma Write_ok b w c :
  c_wbudget c = None →
  ∃ ps, wf_pieces ps ∧ concat ps = b ∧
    Write b w c = Some (StreamWriter (w_aead w) (nonce_after (w_nonce w) ps),
                        set_out (c_out c ++ frames (w_aead w) (w_nonce w) ps) None c, (length b, None)).
Proof.
  intros Hc. unfold Write, ReadFrom.
  destruct (readFrom_loop_ok (S (src_size (bytes_reader b))) w c (bytes_reader b) 0) as (ps & src' & Hwf & Hp & ->);
    [lia|done|done|].
  rewrite pending_bytes_reader in *. by exists ps.
Qed.

Lemma aead_write_all_ok GE rnd bs : ∀ s w,
  sc_w s = Some w → c_wbudget (sc_conn s) = None →
  ∃ ps s', wf_pieces ps ∧ concat ps = concat bs ∧ write_all GE rnd bs s = Some s' ∧
    c_out (sc_conn s') = c_out (sc_conn s) ++ frames (w_aead w) (w_nonce w) ps.
Proof.
  induction bs as [|b bs IH]; intros s w Hs Hc.
  - exists [], s. split_and!; [constructor|done|done|by rewrite app_nil_r].
  - simpl. unfold conn_Write, get_writer. rewrite Hs.
    destruct (Write_ok b w (sc_conn s) Hc) as (ps1 & Hwf1 & Hb & ->). rewrite Nat.eqb_refl.
    set (s1 := MkStreamConn _ _ _).
    destruct (IH s1 (StreamWriter (w_aead w) (nonce_after (w_nonce w) ps1)) eq_refl eq_refl)
      as (ps2 & s' & Hwf2 & Hcc & -> & Ho).
    exists (ps1 ++ ps2), s'. split_and!; [by apply Forall_app|by rewrite concat_app, Hb, Hcc|done|].
    rewrite Ho. simpl. by rewrite frames_app, app_assoc.
Qed.

(** C8 (round trip): whatever byte strings are written to an AEAD connection, and
    however the network chunks the bytes it sends, the peer's [WriteTo] terminates
    at the end of the connection without error, having passed on exactly those
    byte strings, concatenated. *)
Theorem aead_stream_roundtrip SaltSize GE GD salt enc dec (b : list Z) (bs : list (list Z)) (cs : conn) :
  AEADLaws enc dec → length salt = SaltSize → GE salt = Ret enc → GD salt = Ret dec →
  c_wbudget cs = None → c_out cs = [] →
  ∃ s', write_all GE (Ret salt) (b :: bs) (NewStreamConn cs) = Some s' ∧
    ∀ cr w, pending cr = c_out (sc_conn s') → c_rerr cr = io_EOF → c_wbudget w = None →
    ∃ s'', conn_WriteTo SaltSize GD (NewStreamConn cr) w =
      Some (s'', set_out (c_out w ++ concat (b :: bs)) None w, Ret (length (concat (b :: bs)), None)).
Proof.
  intros HL Hsalt HE HD Hw Ho.
  cbn [write_all]. unfold conn_Write, get_writer, initWriter. simpl sc_w. cbv iota.
  rewrite conn_write_unbounded by done. cbv iota beta. rewrite HE. simpl.
  set (c1 := set_out _ None cs).
  destruct (Write_ok b (newStreamWriter enc) c1 eq_refl) as (ps1 & Hwf1 & Hb & ->). rewrite Nat.eqb_refl.
  set (s1 := MkStreamConn _ _ _).
  destruct (aead_write_all_ok GE (Ret salt) bs s1 (StreamWriter enc (nonce_after (replicate (NonceSize enc) 0) ps1))
    eq_refl eq_refl) as (ps2 & s' & Hwf2 & Hc2 & -> & Ho2).
  exists s'. split; [done|]. intros cr w Hp He Hwb.
  rewrite Ho2 in Hp. simpl in Hp. rewrite Ho in Hp. simpl in Hp.
  rewrite <-!app_assoc, <-frames_app in Hp.
  unfold conn_WriteTo, get_reader, initReader. simpl sc_r. simpl sc_conn. cbv iota.
  destruct (read_full_app SaltSize cr salt _ Hp Hsalt) as (c2 & -> & Hp2 & He2 & _). rewrite HD. simpl.
  unfold WriteTo. simpl remainbuf. cbv iota.
  destruct (aead_writeTo_loop_ok enc dec (ps1 ++ ps2) (S (length (pending c2))) (newStreamReader dec) c2 w 0)
    as (r' & c' & ->); try done.
  - by apply Forall_app.
  - rewrite Hp2. pose proof (frames_length_ge enc dec (replicate (NonceSize enc) 0) (ps1 ++ ps2)). lia.
  - rewrite Hp2. simpl. by rewrite (aead_nonce (dec := dec)).
  - congruence.
  - rewrite concat_app, Hb, Hc2. simpl. eauto.
Qed.

(** A toy AEAD: the tag is the nonce's first byte, 16 times. *)
Definition toy_aead : AEAD :=
  MkAEAD 12 16 (λ n p, p ++ replicate 16 (byte_at n 0))
    (λ n ct, if decide (drop (length ct - 16) ct = replicate 16 (byte_at n 0)) then Some (take (length ct - 16) ct) else None).
#[export] Instance toy_laws : AEADLaws toy_aead toy_aead.
Proof.
  split; [done|done| |].
  - intros n p. unfold toy_aead. cbn [Seal Overhead]. by rewrite length_app, length_replicate.
  - intros n p. unfold toy_aead. cbn [Seal Open]. rewrite length_app, length_replicate.
    replace (length p + 16 - 16)%nat with (length p) by lia.
    by rewrite drop_app_length, decide_True, take_app_length.
Qed.

Definition toy_conn : conn :=
  Conn [take 3 (seal_frame toy_aead (replicate 12 0) (str "hello"));
        drop 3 (seal_frame toy_aead (replicate 12 0) (str "hello"))] io_EOF [] None io_EOF.

Lemma aead_read_delivers_witness :
  match Read 2 (newStreamReader toy_aead) toy_conn with
  | (r', c', Ret d) => d ≠ [] ∧ (length d ≤ 2)%nat ∧ ∃ m', str "hello" = d ++ m' ∧ Delivers toy_aead toy_aead r' c' m'
  | (r', c', Fail e) => str "hello" = [] ∧ e = io_EOF
  | (_, _, Panic) => False
  end.
Proof.
  apply (aead_read_delivers toy_aead toy_aead 2 (newStreamReader toy_aead) toy_conn (str "hello") toy_laws); [lia|].
  split; [reflexivity|]. exists [str "hello"]. split_and!; [|vm_compute; reflexivity|reflexivity].
  constructor; [|constructor]. split; [discriminate|]. pose proof MaxTcp_size. simpl. lia.
Defined.

Lemma aead_stream_roundtrip_witness :
  ∃ s', write_all (λ _, Ret toy_aead) (Ret (replicate 16 9)) [str "hello"; []; str "world"]
    (NewStreamConn (Conn [] io_EOF [] None io_EOF)) = Some s'.
Proof.
  destruct (aead_stream_roundtrip 16 (λ _, Ret toy_aead) (λ _, Ret toy_aead) (replicate 16 9) toy_aead toy_aead
    (str "hello") [[]; str "world"] (Conn [] io_EOF [] None io_EOF)) as (s' & H & _);
    [exact toy_laws|reflexivity..|]. exists s'. exact H.
Defined.

(** The size check of [read] lets sizes up to [Overhead] beyond the
    buffer's payload room pass: for any such size a peer that knows the key makes
    the reader panic when it slices its buffer. *)
Theorem aead_oversize_panics (enc dec : AEAD) r c (size : Z) rest :
  AEADLaws enc dec → r_aead r = dec →
  Z.of_nat MaxTcpBufferSize < size → size ≤ Z.of_nat (MaxTcpBufferSize + Overhead dec) → size < 65536 →
  pending c = Seal enc (r_nonce r) (be16 size) ++ rest →
  snd (read r c) = Panic.
Proof.
  intros HL Hr H1 H2 H3 Hp. pose proof MaxTcp_size. unfold read. rewrite Hr.
  destruct (read_full_app (2 + Overhead dec) c _ _ Hp) as (c1 & -> & _).
  { rewrite aead_length, (aead_overhead (dec := dec)). done. }
  rewrite (aead_open (dec := dec)), be16_size by lia.
  rewrite (proj2 (Z.ltb_ge _ _)), (proj2 (Z.ltb_lt _ _)) by lia. done.
Qed.

Lemma aead_oversize_panics_witness :
  snd (read (newStreamReader toy_aead)
    (Conn [Seal toy_aead (replicate 12 0) (be16 16385)] io_EOF [] None io_EOF)) = Panic.
Proof.
  apply (aead_oversize_panics toy_aead toy_aead _ _ 16385 []); pose proof MaxTcp_size.
  - exact toy_laws.
  - reflexivity.
  - lia.
  - simpl. lia.
  - lia.
  - vm_compute. reflexivity.
Defined.

(** *** Nonces *)
Definition le_int (l : list Z) : Z := foldr (λ b acc, b + 256 * acc) 0 l.

Lemma increment_length n : length (increment n) = length n.
Proof. induction n as [|b n IH]; simpl; [done|]. case_match; simpl; congruence. Qed.

Lemma increment_wf n : wf_bytes n → wf_bytes (increment n).
Proof.
  induction 1 as [|b n Hb Hn IH]; simpl; [constructor|]. case_match; constructor; auto; apply u8_range.
Qed.

Lemma le_int_range n : wf_bytes n → 0 ≤ le_int n < 256 ^ Z.of_nat (length n).
Proof.
  induction 1 as [|b n Hb Hn IH]; [simpl; lia|]. cbn [le_int foldr length]. fold (le_int n).
  rewrite Nat2Z.inj_succ, Z.pow_succ_r by lia. unfold is_byte in Hb. lia.
Qed.

Lemma le_int_inj n m : wf_bytes n → wf_bytes m → length n = length m → le_int n = le_int m → n = m.
Proof.
  intros Hn. revert m. induction Hn as [|b n Hb Hn IH]; intros [|c m] Hm Hl He; try done.
  inversion Hm as [|?? Hc Hm']; subst. unfold is_byte in *. cbn [le_int foldr] in He. fold (le_int n) (le_int m) in He.
  f_equal; [lia|]. apply IH; [done|by injection Hl|lia].
Qed.

Lemma le_int_increment n : wf_bytes n →
  le_int (increment n) = (le_int n + 1) mod 256 ^ Z.of_nat (length n).
Proof.
  induction 1 as [|b n Hb Hn IH]; [done|].
  cbn [increment length]. rewrite Nat2Z.inj_succ, Z.pow_succ_r by lia.
  pose proof (le_int_range n Hn) as Hr. unfold is_byte in Hb. unfold u8. change (2 ^ 8) with 256.
  destruct (Z.eqb_spec ((b + 1) mod 256) 0) as [E|E].
  - assert (b = 255) as -> by (destruct (decide (b = 255)); [done|rewrite Z.mod_small in E; lia]).
    cbn [le_int foldr]. fold (le_int n) (le_int (increment n)). rewrite IH.
    change ((255 + 1) mod 256) with 0.
    replace (255 + 256 * le_int n + 1) with (256 * (le_int n + 1)) by lia.
    rewrite Z.mul_mod_distr_l by lia. done.
  - assert (b ≠ 255) by (intros ->; done). cbn [le_int foldr]. fold (le_int n).
    rewrite (Z.mod_small (b + 1)), Z.mod_small by lia. lia.
Qed.

Lemma le_int_iter n k : wf_bytes n →
  le_int (Nat.iter k increment n) = (le_int n + Z.of_nat k) mod 256 ^ Z.of_nat (length n) ∧
  wf_bytes (Nat.iter k increment n) ∧ length (Nat.iter k increment n) = length n.
Proof.
  intros Hn. induction k as [|k (IH & Hw & Hl)].
  - simpl. rewrite Z.add_0_r, Z.mod_small by (by apply le_int_range). done.
  - change (Nat.iter (S k) increment n) with (increment (Nat.iter k increment n)).
    rewrite le_int_increment, increment_length, Hl, IH by done. split_and!; [|by apply increment_wf|done].
    rewrite Zplus_mod_idemp_l. f_equal. lia.
Qed.

(** Starting from the zero nonce, the nonces of successive seals are
    the successive values of a little-endian counter; no nonce is used twice
    within [256^size] seals. *)
Theorem aead_nonce_unique (size i j : nat) :
  Z.of_nat i < 256 ^ Z.of_nat size → Z.of_nat j < 256 ^ Z.of_nat size →
  Nat.iter i increment (replicate size 0) = Nat.iter j increment (replicate size 0) → i = j.
Proof.
  intros Hi Hj He.
  assert (wf_bytes (replicate size 0)) as Hw.
  { apply Forall_replicate. unfold is_byte. lia. }
  assert (le_int (replicate size 0) = 0) as H0.
  { clear. induction size as [|s IH]; [done|]. cbn [replicate le_int foldr]. unfold le_int in IH. rewrite IH. done. }
  destruct (le_int_iter _ i Hw) as (Ei & _), (le_int_iter _ j Hw) as (Ej & _).
  rewrite He, Ej, H0, length_replicate, !Z.add_0_l, !Z.mod_small in Ei by lia. lia.
Qed.

Lemma aead_nonce_unique_witness :
  Nat.iter 256 increment (replicate 12 0) ≠ Nat.iter 0 increment (replicate 12 0).
Proof.
  intros H. assert (256%nat = 0%nat) as Hbad; [|discriminate Hbad].
  apply (aead_nonce_unique 12 256 0); [vm_compute; reflexivity..|exact H].
Defined.

(** ** Packets *)
Section Packet.
Context {A : Type} (SaltSize : nat) (GetEncrypter GetDecrypter : list Z → res AEAD).

Definition zerononce (a : AEAD) : list Z := replicate (NonceSize a) 0.

(** [packetConn.WriteTo(b, addr)] as one step; [rnd] fills the salt. The datagram is made in
    [c.buf], which all callers of the connection share without a lock: its two halves
    are below, and this is what they do when no other call comes between them. *)
Definition packet_WriteTo (rnd : res (list Z)) (b : list Z) (addr : A) (c : pconn A) : pconn A * res nat :=
  match rnd with
  | Fail e => (c, Fail e)
  | Panic => (c, Panic)
  | Ret salt =>
      match GetEncrypter salt with
      | Fail e => (c, Fail e)
      | Panic => (c, Panic)
      | Ret aead =>
          if (MaxUdpBufferSize <? SaltSize + length b + Overhead aead)%nat then (c, Fail io_ErrShortBuffer) else
          match pconn_write (salt ++ Seal aead (zerononce aead) b) addr c with
          | (c1, Ret _) => (c1, Ret (length b))
          | (c1, Fail e) => (c1, Fail e)
          | (c1, Panic) => (c1, Panic)
          end
      end
  end.

(** The halves: the datagram is put at the start of [c.buf], and its length; then it is
    sent from there. *)
Definition packet_fill (rnd : res (list Z)) (b buf : list Z) : res (list Z * nat) :=
  salt ← rnd;
  aead ← GetEncrypter salt;
  if (MaxUdpBufferSize <? SaltSize + length b + Overhead aead)%nat then Fail io_ErrShortBuffer else
  let d := salt ++ Seal aead (zerononce aead) b in Ret (d ++ drop (length d) buf, length d).
Definition packet_send (k n : nat) (addr : A) (buf : list Z) (c : pconn A) : pconn A * res nat :=
  match pconn_write (take n buf) addr c with
  | (c1, Ret _) => (c1, Ret k)
  | (c1, Fail e) => (c1, Fail e)
  | (c1, Panic) => (c1, Panic)
  end.
Lemma aead_WriteTo_halves rnd b addr buf c :
  packet_WriteTo rnd b addr c =
  match packet_fill rnd b buf with Ret (buf', n) => packet_send (length b) n addr buf' c | Fail e => (c, Fail e) | Panic => (c, Panic) end.
Proof.
  unfold packet_WriteTo, packet_fill, packet_send. destruct rnd as [salt|e|]; [|done..]. cbn [mbind res_bind].
  destruct (GetEncrypter salt) as [aead|e|]; [|done..]. cbn [mbind res_bind]. case_match; [done|]. by rewrite take_app_length.
Qed.
(** Two calls whose halves interleave, with datagrams of the same length: the first sends
    the second one's datagram to its own address, and its own data to nobody. On a
    server, whose sessions answer their clients over one such connection, a client gets
    what was meant for another, under the key that they share. *)
Lemma aead_WriteTo_race rnd1 rnd2 b1 b2 a1 a2 buf buf1 buf2 n c :
  packet_fill rnd1 b1 buf = Ret (buf1, n) → packet_fill rnd2 b2 buf1 = Ret (buf2, n) → pk_werr c = None →
  ∃ d, pk_out (packet_WriteTo rnd2 b2 a2 c).1 = pk_out c ++ [(d, a2)] ∧
    pk_out (packet_send (length b2) n a2 buf2 (packet_send (length b1) n a1 buf2 c).1).1 = pk_out c ++ [(d, a1); (d, a2)].
Proof.
  intros _ H2 Hw. exists (take n buf2). rewrite (aead_WriteTo_halves rnd2 b2 a2 buf1 c), H2. unfold packet_send, pconn_write.
  rewrite Hw. cbn. by rewrite <-app_assoc.
Qed.

(** [packetConn.ReadFrom(b)] with [len(b) = n]. *)
Definition packet_ReadFrom (n : nat) (c : pconn A) : pconn A * res (list Z * A) :=
  match pconn_read n c with
  | (c1, Fail e) => (c1, Fail e)
  | (c1, Panic) => (c1, Panic)
  | (c1, Ret (d, addr)) =>
      if (length d <? SaltSize)%nat then (c1, Fail io_ErrShortBuffer) else
      match GetDecrypter (take SaltSize d) with
      | Fail e => (c1, Fail e)
      | Panic => (c1, Panic)
      | Ret aead =>
          let dataLen := Z.of_nat (length d) - Z.of_nat (SaltSize + Overhead aead) in
          if (dataLen <? 0) || (Z.of_nat (n - SaltSize) <? dataLen) then (c1, Fail io_ErrShortBuffer) else
          match Open aead (zerononce aead) (drop SaltSize d) with
          | None => (c1, Fail errOpen)
          | Some res => (c1, Ret (res, addr))
          end
      end
  end.
End Packet.

(** A datagram that fits the buffer is sealed and sent whole, and
    the peer, reading with any buffer that holds the datagram, gets it back with
    its sender; one that does not fit is refused before anything is sent. *)
Theorem aead_packet_roundtrip {A} SaltSize GE GD salt enc dec (b : list Z) (dst from : A) (c : pconn A) (n : nat)
    (later : list (list Z * A)) rerr :
  AEADLaws enc dec → length salt = SaltSize → GE salt = Ret enc → GD salt = Ret dec → pk_werr c = None →
  let '(c1, x) := packet_WriteTo SaltSize GE (Ret salt) b dst c in
  if decide (SaltSize + length b + Overhead enc ≤ MaxUdpBufferSize)%nat then
    x = Ret (length b) ∧ ∃ d, pk_out c1 = pk_out c ++ [(d, dst)] ∧ length d = (SaltSize + length b + Overhead enc)%nat ∧
      ((length d ≤ n)%nat →
        packet_ReadFrom SaltSize GD n (PConn ((d, from) :: later) rerr [] None) =
        (PConn later rerr [] None, Ret (b, from)))
  else x = Fail io_ErrShortBuffer ∧ c1 = c.
Proof.
  intros HL Hs HE HD Hw. unfold packet_WriteTo. rewrite HE.
  destruct (decide (SaltSize + length b + Overhead enc ≤ MaxUdpBufferSize)%nat) as [Hle|Hgt].
  - rewrite (proj2 (Nat.ltb_ge _ _)) by done. unfold pconn_write. rewrite Hw. split; [done|].
    eexists. split; [reflexivity|]. rewrite length_app, aead_length, Hs. split; [lia|]. intros Hn.
    unfold packet_ReadFrom, pconn_read. cbn [pk_in]. rewrite take_ge by (rewrite length_app, aead_length; lia).
    rewrite length_app, aead_length, Hs, (proj2 (Nat.ltb_ge _ _)) by lia.
    rewrite <-Hs, take_app_length, drop_app_length, HD.
    assert (Overhead dec = Overhead enc) as -> by apply aead_overhead.
    rewrite (proj2 (Z.ltb_ge _ _)), (proj2 (Z.ltb_ge _ _)) by lia. simpl.
    unfold zerononce. rewrite (aead_nonce (dec := dec)), aead_open. done.
  - by rewrite (proj2 (Nat.ltb_lt _ _)) by lia.
Qed.

Lemma aead_packet_roundtrip_witness :
  packet_ReadFrom 16 (λ _, Ret toy_aead) 100
    (PConn [(replicate 16 7 ++ Seal toy_aead (replicate 12 0) (str "hi"), 5)] io_EOF [] None) =
  (PConn [] io_EOF [] None, Ret (str "hi", 5)).
Proof.
  pose proof (aead_packet_roundtrip 16 (λ _, Ret toy_aead) (λ _, Ret toy_aead) (replicate 16 7) toy_aead toy_aead
    (str "hi") 4 5 (PConn [] io_EOF [] None) 100 [] io_EOF toy_laws eq_refl eq_refl eq_refl eq_refl) as H.
  pose proof MaxUdp_size as HM. unfold packet_WriteTo in H.
  rewrite (proj2 (Nat.ltb_ge _ _)) in H by (simpl; lia). cbn [pconn_write pk_werr] in H.
  rewrite decide_True in H by (simpl; lia). destruct H as (_ & d & Hd & Hl & H).
  simpl in Hd. injection Hd as <-. exact (H ltac:(vm_compute; lia)).
Defined.
