(* ===== verification/StreamConn.v ===== *)
(** * Package stream: the stream-cipher connections.

    Models [src/ss/stream/stream_conn.go] and [src/ss/stream/packet_conn.go]. The
    state of a [cipher.Stream] is what it has processed ([Cipher.Stream]). *)
From S2P Require Import Prelude GoIO GoNet Cipher.
Local Open Scope Z_scope.

(** A reader or writer: the cipher and what it processed so far. *)
Record streamState := StreamState { st_stream : Stream; st_hist : list Z }.

(** [XORKeyStream] on [src]. *)
Definition xor (s : streamState) (src : list Z) : streamState * list Z :=
  (StreamState (st_stream s) (st_hist s ++ src), st_stream s (st_hist s) src).

(** [streamReader.Read(b)] with [len(b) = n]. *)
Definition Read (n : nat) (r : streamState) (c : conn) : streamState * conn * res (list Z) :=
  match conn_read n c with
  | (c1, Ret d) => let '(r1, p) := xor r d in (r1, c1, Ret p)
  | (c1, Fail e) => (r, c1, Fail e)
  | (c1, Panic) => (r, c1, Panic)
  end.

(** [streamReader.WriteTo(w)]. *)
Fixpoint writeTo_loop (fuel : nat) (r : streamState) (c w : conn) (n : nat)
    : option (streamState * conn * conn * (nat * option error)) :=
  match fuel with
  | O => None
  | S f =>
      match conn_read MaxTcpBufferSize c with
      | (c1, Ret []) => writeTo_loop f r c1 w n
      | (c1, Ret d) =>
          let '(r1, p) := xor r d in
          let '(w1, (nw, ew)) := conn_write p w in
          match ew with
          | Some e => Some (r1, c1, w1, ((n + nw)%nat, Some e))
          | None => writeTo_loop f r1 c1 w1 (n + nw)
          end
      | (c1, Fail er) => Some (r, c1, w, (n, if decide (er = io_EOF) then None else Some er))
      | (c1, Panic) => Some (r, c1, w, (n, None))
      end
  end.
Definition WriteTo (r : streamState) (c w : conn) := writeTo_loop (S (src_size c)) r c w 0.

(** [streamWriter.Write(p)]: pieces of at most the buffer size; [n] bytes of [p]
    were written before. *)
Fixpoint write_loop (fuel : nat) (w : streamState) (c : conn) (p : list Z) (n : nat)
    : option (streamState * conn * (nat * option error)) :=
  if (length p <=? n)%nat then Some (w, c, (n, None)) else
  match fuel with
  | O => None
  | S f =>
      let e := Nat.min (n + MaxTcpBufferSize) (length p) in
      let '(w1, ct) := xor w (take (e - n) (drop n p)) in
      let '(c1, (nw, err)) := conn_write ct c in
      match err with
      | Some er => Some (w1, c1, ((n + nw)%nat, Some er))
      | None => write_loop f w1 c1 p (n + nw)
      end
  end.
Definition Write (p : list Z) (w : streamState) (c : conn) := write_loop (length p) w c p 0.

(** [streamWriter.ReadFrom(r)]: every read is passed on, an empty one too; a
    reader's error ends the loop after its (empty) data was written. *)
Fixpoint readFrom_loop (fuel : nat) (w : streamState) (c src : conn) (n : nat)
    : option (streamState * conn * conn * (nat * option error)) :=
  match fuel with
  | O => None
  | S f =>
      let '(src1, x) := conn_read MaxTcpBufferSize src in
      let '(d, er) := match x with Ret d => (d, None) | Fail e => ([], Some e) | Panic => ([], None) end in
      let '(w1, ct) := xor w d in
      let '(c1, (_, ew)) := conn_write ct c in
      match ew with
      | Some e => Some (w1, c1, src1, ((n + length d)%nat, Some e))
      | None =>
          match er with
          | Some e => Some (w1, c1, src1, ((n + length d)%nat, if decide (e = io_EOF) then None else Some e))
          | None => readFrom_loop f w1 c1 src1 (n + length d)
          end
      end
  end.
Definition ReadFrom (w : streamState) (c src : conn) := readFrom_loop (S (src_size src)) w c src 0.

(** ** The connection: the IV comes first in each direction *)
Section Conn.
Context (IVSize : nat) (GetEncrypter GetDecrypter : list Z → res Stream).

Record StreamConn := MkStreamConn {
  sc_conn : conn;
  sc_r : option streamState;
  sc_w : option streamState;
  readIV : list Z;
  writeIV : list Z;
}.
Definition NewStreamConn (c : conn) : StreamConn := MkStreamConn c None None [] [].

(** [rnd]: what [io.ReadFull(rand.Reader, iv)] gives. *)
Definition ObtainWriteIV (rnd : res (list Z)) (s : StreamConn) : StreamConn * res (list Z) :=
  if (length (writeIV s) =? IVSize)%nat then (s, Ret (writeIV s)) else
  match rnd with
  | Ret iv => (MkStreamConn (sc_conn s) (sc_r s) (sc_w s) (readIV s) iv, Ret iv)
  | Fail e => (s, Fail e)
  | Panic => (s, Panic)
  end.

Definition ObtainReadIV (s : StreamConn) : StreamConn * res (list Z) :=
  if (length (readIV s) =? IVSize)%nat then (s, Ret (readIV s)) else
  match read_full IVSize (sc_conn s) with
  | (c1, Ret iv) => (MkStreamConn c1 (sc_r s) (sc_w s) iv (writeIV s), Ret iv)
  | (c1, Fail e) => (MkStreamConn c1 (sc_r s) (sc_w s) (readIV s) (writeIV s), Fail e)
  | (c1, Panic) => (MkStreamConn c1 (sc_r s) (sc_w s) (readIV s) (writeIV s), Panic)
  end.

Definition initReader (s : StreamConn) : StreamConn * res streamState :=
  match ObtainReadIV s with
  | (s1, Ret iv) =>
      match GetDecrypter iv with
      | Ret cp =>
          let r := StreamState cp [] in
          (MkStreamConn (sc_conn s1) (Some r) (sc_w s1) (readIV s1) (writeIV s1), Ret r)
      | Fail e => (s1, Fail e)
      | Panic => (s1, Panic)
      end
  | (s1, Fail e) => (s1, Fail e)
  | (s1, Panic) => (s1, Panic)
  end.

Definition initWriter (rnd : res (list Z)) (s : StreamConn) : StreamConn * res streamState :=
  match ObtainWriteIV rnd s with
  | (s1, Ret iv) =>
      let '(c1, (_, ew)) := conn_write iv (sc_conn s1) in
      let s2 := MkStreamConn c1 (sc_r s1) (sc_w s1) (readIV s1) (writeIV s1) in
      match ew with
      | Some e => (s2, Fail e)
      | None =>
          match GetEncrypter iv with
          | Ret cp =>
              let w := StreamState cp [] in
              (MkStreamConn c1 (sc_r s1) (Some w) (readIV s1) (writeIV s1), Ret w)
          | Fail e => (s2, Fail e)
          | Panic => (s2, Panic)
          end
      end
  | (s1, Fail e) => (s1, Fail e)
  | (s1, Panic) => (s1, Panic)
  end.

Definition get_reader (s : StreamConn) : StreamConn * res streamState :=
  match sc_r s with Some r => (s, Ret r) | None => initReader s end.
Definition get_writer (rnd : res (list Z)) (s : StreamConn) : StreamConn * res streamState :=
  match sc_w s with Some w => (s, Ret w) | None => initWriter rnd s end.

Definition put_reader (s : StreamConn) (c : conn) (r : streamState) : StreamConn :=
  MkStreamConn c (Some r) (sc_w s) (readIV s) (writeIV s).
Definition put_writer (s : StreamConn) (c : conn) (w : streamState) : StreamConn :=
  MkStreamConn c (sc_r s) (Some w) (readIV s) (writeIV s).

Definition conn_Read (n : nat) (s : StreamConn) : StreamConn * res (list Z) :=
  match get_reader s with
  | (s1, Ret r) => let '(r1, c1, x) := Read n r (sc_conn s1) in (put_reader s1 c1 r1, x)
  | (s1, Fail e) => (s1, Fail e)
  | (s1, Panic) => (s1, Panic)
  end.

Definition conn_Write (rnd : res (list Z)) (b : list Z) (s : StreamConn)
    : option (StreamConn * res (nat * option error)) :=
  match get_writer rnd s with
  | (s1, Ret w) =>
      match Write b w (sc_conn s1) with
      | Some (w1, c1, x) => Some (put_writer s1 c1 w1, Ret x)
      | None => None
      end
  | (s1, Fail e) => Some (s1, Fail e)
  | (s1, Panic) => Some (s1, Panic)
  end.

Definition conn_WriteTo (s : StreamConn) (w : conn)
    : option (StreamConn * conn * res (nat * option error)) :=
  match get_reader s with
  | (s1, Ret r) =>
      match WriteTo r (sc_conn s1) w with
      | Some (r1, c1, w1, x) => Some (put_reader s1 c1 r1, w1, Ret x)
      | None => None
      end
  | (s1, Fail e) => Some (s1, w, Fail e)
  | (s1, Panic) => Some (s1, w, Panic)
  end.

Definition conn_ReadFrom (rnd : res (list Z)) (s : StreamConn) (src : conn)
    : option (StreamConn * conn * res (nat * option error)) :=
  match get_writer rnd s with
  | (s1, Ret w) =>
      match ReadFrom w (sc_conn s1) src with
      | Some (w1, c1, src1, x) => Some (put_writer s1 c1 w1, src1, Ret x)
      | None => None
      end
  | (s1, Fail e) => Some (s1, src, Fail e)
  | (s1, Panic) => Some (s1, src, Panic)
  end.

(** ** Packets *)
Context {A : Type}.

(** [packetConn.WriteTo] as one step: [XORKeyStream] panics when the output buffer, of
    [MaxUdpBufferSize] bytes, is smaller than the input. [WriteTo] and [ReadFrom] both
    work in [c.buf], which all callers of the connection share without a lock: their halves are
    below; this is what a call does when no other comes between its halves. *)
Definition packet_WriteTo (rnd : res (list Z)) (b : list Z) (addr : A) (c : pconn A) : pconn A * res nat :=
  match rnd with
  | Fail e => (c, Fail e)
  | Panic => (c, Panic)
  | Ret iv =>
      match GetEncrypter iv with
      | Fail e => (c, Fail e)
      | Panic => (c, Panic)
      | Ret enc =>
          if (MaxUdpBufferSize <? length b)%nat then (c, Panic) else
          match pconn_write (iv ++ enc [] b) addr c with
          | (c1, Ret _) => (c1, Ret (length b))
          | (c1, Fail e) => (c1, Fail e)
          | (c1, Panic) => (c1, Panic)
          end
      end
  end.

(** [packetConn.ReadFrom(b)] with [len(b) = n]: the length returned is that of the
    decrypted datagram, even when [b] takes less of it; [dataBuf[:n]] panics
    when the datagram is shorter than the IV. [stale]: what the shared buffer
    held, which [GetDecrypter] sees when the datagram is short. *)
Definition packet_ReadFrom (stale : list Z) (n : nat) (c : pconn A) : pconn A * res (Z * list Z * A) :=
  match pconn_read (IVSize + MaxUdpBufferSize) c with
  | (c1, Fail e) => (c1, Fail e)
  | (c1, Panic) => (c1, Panic)
  | (c1, Ret (d, addr)) =>
      let buf := d ++ drop (length d) stale in
      match GetDecrypter (take IVSize buf) with
      | Fail e => (c1, Fail e)
      | Panic => (c1, Panic)
      | Ret dec =>
          if (length d <? IVSize)%nat then (c1, Panic)
          else let pt := dec [] (drop IVSize d) in
               (c1, Ret (Z.of_nat (length d) - Z.of_nat IVSize, take n pt, addr))
      end
  end.

(** The halves: a datagram is made in, or received into, [c.buf]; then it is sent from,
    or decrypted in, there. *)
Definition packet_fill (rnd : res (list Z)) (b buf : list Z) : res (list Z * nat) :=
  iv ← rnd;
  enc ← GetEncrypter iv;
  if (MaxUdpBufferSize <? length b)%nat then Panic else
  let d := iv ++ enc [] b in Ret (d ++ drop (length d) buf, length d).
Definition packet_send (k n : nat) (addr : A) (buf : list Z) (c : pconn A) : pconn A * res nat :=
  match pconn_write (take n buf) addr c with
  | (c1, Ret _) => (c1, Ret k)
  | (c1, Fail e) => (c1, Fail e)
  | (c1, Panic) => (c1, Panic)
  end.
Definition packet_recv (buf : list Z) (c : pconn A) : pconn A * res (list Z * nat * A) :=
  match pconn_read (IVSize + MaxUdpBufferSize) c with
  | (c1, Fail e) => (c1, Fail e)
  | (c1, Panic) => (c1, Panic)
  | (c1, Ret (d, addr)) => (c1, Ret (d ++ drop (length d) buf, length d, addr))
  end.
Definition packet_open (len n : nat) (addr : A) (buf : list Z) : res (Z * list Z * A) :=
  dec ← GetDecrypter (take IVSize buf);
  if (len <? IVSize)%nat then Panic
  else Ret (Z.of_nat len - Z.of_nat IVSize, take n (dec [] (take (len - IVSize) (drop IVSize buf))), addr).
Lemma stream_WriteTo_halves rnd b addr buf c :
  packet_WriteTo rnd b addr c =
  match packet_fill rnd b buf with Ret (buf', n) => packet_send (length b) n addr buf' c | Fail e => (c, Fail e) | Panic => (c, Panic) end.
Proof.
  unfold packet_WriteTo, packet_fill, packet_send. destruct rnd as [iv|e|]; [|done..]. cbn [mbind res_bind].
  destruct (GetEncrypter iv) as [enc|e|]; [|done..]. cbn [mbind res_bind]. case_match; [done|]. by rewrite take_app_length.
Qed.
Lemma stream_ReadFrom_halves buf n c :
  packet_ReadFrom buf n c =
  match packet_recv buf c with
  | (c1, Ret (buf', len, addr)) => (c1, packet_open len n addr buf') | (c1, Fail e) => (c1, Fail e) | (c1, Panic) => (c1, Panic)
  end.
Proof.
  unfold packet_ReadFrom, packet_recv, packet_open. destruct (pconn_read _ c) as [c1 [[d addr]|e|]]; [|done..].
  destruct (GetDecrypter _) as [dec|e|]; [|done..]. cbn [mbind res_bind]. destruct (Nat.ltb_spec (length d) IVSize); [done|].
  rewrite drop_app_le by done. by rewrite take_app_length' by (by rewrite length_drop).
Qed.
(** Calls whose halves interleave: of two writes of the same length the first sends the
    second one's datagram, and a read that a write comes into returns, as coming from
    the sender of what it has received, the start of what the other call is sending. *)
Lemma stream_WriteTo_race rnd1 rnd2 b1 b2 a1 a2 buf buf1 buf2 n c :
  packet_fill rnd1 b1 buf = Ret (buf1, n) → packet_fill rnd2 b2 buf1 = Ret (buf2, n) → pk_werr c = None →
  ∃ d, pk_out (packet_WriteTo rnd2 b2 a2 c).1 = pk_out c ++ [(d, a2)] ∧
    pk_out (packet_send (length b2) n a2 buf2 (packet_send (length b1) n a1 buf2 c).1).1 = pk_out c ++ [(d, a1); (d, a2)].
Proof.
  intros _ H2 Hw. exists (take n buf2). rewrite (stream_WriteTo_halves rnd2 b2 a2 buf1 c), H2. unfold packet_send, pconn_write.
  rewrite Hw. cbn. by rewrite <-app_assoc.
Qed.
Lemma stream_ReadFrom_race iv enc dec b buf buf' len n addr :
  StreamLaws enc dec → length iv = IVSize → GetEncrypter iv = Ret enc → GetDecrypter iv = Ret dec →
  packet_fill (Ret iv) b buf = Ret (buf', len) → packet_open len n addr buf' = Ret (Z.of_nat (length b), take n b, addr).
Proof.
  intros HL Hiv HE HD. unfold packet_fill, packet_open. cbn [mbind res_bind]. rewrite HE. cbn [mbind res_bind]. case_match; [done|]. intros [= <- <-].
  rewrite <-!app_assoc, take_app_length', HD by done. cbn [mbind res_bind]. rewrite length_app, stream_length, Hiv.
  rewrite (proj2 (Nat.ltb_ge _ _)) by lia. rewrite drop_app_length' by done.
  rewrite take_app_length' by (rewrite stream_length; lia). rewrite stream_inverse. repeat f_equal. lia.
Qed.
End Conn.
Arguments MkStreamConn : clear implicits.

(** ** Round trip *)

Lemma write_loop_ok enc fuel : ∀ h c p n,
  (∀ h a b, enc h (a ++ b) = enc h a ++ enc (h ++ a) b) → (∀ h m, length (enc h m) = length m) →
  c_wbudget c = None → (n ≤ length p)%nat → (length p - n ≤ fuel)%nat →
  write_loop fuel (StreamState enc h) c p n =
    Some (StreamState enc (h ++ drop n p), set_out (c_out c ++ enc h (drop n p)) None c, (length p, None)).
Proof.
  induction fuel as [|f IH]; intros h c p n Ha Hl Hw Hn Hf; simpl.
  - rewrite (proj2 (Nat.leb_le _ _)) by lia. rewrite drop_ge by lia.
    assert (enc h [] = []) as -> by (apply nil_length_inv; by rewrite Hl).
    rewrite !app_nil_r. replace n with (length p) by lia. destruct c; simpl in *; by subst.
  - destruct (length p <=? n)%nat eqn:E; zify_bool.
    { rewrite drop_ge by lia. assert (enc h [] = []) as -> by (apply nil_length_inv; by rewrite Hl).
      rewrite !app_nil_r. replace n with (length p) by lia. destruct c; simpl in *; by subst. }
    set (e := Nat.min (n + MaxTcpBufferSize) (length p)). pose proof MaxTcp_pos.
    rewrite conn_write_unbounded by done. rewrite Hl, length_take, length_drop.
    replace (n + Nat.min (e - n) (length p - n))%nat with e by lia.
    rewrite IH; [|done|done|done|lia|lia]. unfold set_out. cbn [c_out c_in c_rerr c_werr].
    assert (drop n p = take (e - n) (drop n p) ++ drop e p) as Hs.
    { rewrite <-(take_drop (e - n) (drop n p)) at 1. rewrite drop_drop. do 2 f_equal. lia. }
    rewrite <-!app_assoc, <-Ha, <-Hs. done.
Qed.

Lemma stream_writeTo_loop_ok dec fuel : ∀ h c w n,
  (∀ h a b, dec h (a ++ b) = dec h a ++ dec (h ++ a) b) → (∀ h m, length (dec h m) = length m) →
  c_wbudget w = None → c_rerr c = io_EOF → (src_size c < fuel)%nat →
  ∃ r' c', writeTo_loop fuel (StreamState dec h) c w n =
    Some (r', c', set_out (c_out w ++ dec h (pending c)) None w, ((n + length (pending c))%nat, None)).
Proof.
  induction fuel as [|f IH]; intros h c w n Ha Hl Hw He Hf; [lia|]. simpl.
  destruct (conn_read MaxTcpBufferSize c) as [c1 [d|e|]] eqn:E.
  - pose proof (conn_read_pending _ _ _ _ E) as [Hp _].
    pose proof (conn_read_progress _ _ _ _ MaxTcp_pos E) as Hlt.
    pose proof (conn_read_rerr _ _ _ _ E) as Hr1.
    destruct d as [|x d].
    + simpl in Hp. rewrite Hp. apply IH; (done || congruence || lia).
    + rewrite conn_write_unbounded by done.
      destruct (IH (h ++ x :: d) c1 (set_out (c_out w ++ dec h (x :: d)) None w) (n + length (dec h (x :: d)))%nat)
        as (r' & c' & ->); [done..|congruence|lia|].
      exists r', c'. rewrite Hp, Ha, Hl, length_app, Nat.add_assoc.
      unfold set_out. cbn [c_out c_in c_rerr c_werr]. by rewrite <-app_assoc.
  - apply conn_read_Fail in E as (-> & Hin & ->). rewrite He, decide_True by done. do 2 eexists.
    unfold pending. rewrite Hin. simpl. assert (dec h [] = []) as -> by (apply nil_length_inv; by rewrite Hl).
    rewrite app_nil_r, Nat.add_0_r. destruct w; simpl in *; by subst.
  - by apply conn_read_nopanic in E.
Qed.

(** Successive [Write]s, each reporting its full length. *)
Fixpoint write_all IVSize (GE : list Z → res Stream) (rnd : res (list Z)) (bs : list (list Z)) (s : StreamConn)
    : option StreamConn :=
  match bs with
  | [] => Some s
  | b :: r =>
      match conn_Write IVSize GE rnd b s with
      | Some (s1, Ret (n, None)) => if (n =? length b)%nat then write_all IVSize GE rnd r s1 else None
      | _ => None
      end
  end.

Lemma stream_write_all_ok IVSize GE rnd enc bs : ∀ s h,
  (∀ h a b, enc h (a ++ b) = enc h a ++ enc (h ++ a) b) → (∀ h m, length (enc h m) = length m) →
  sc_w s = Some (StreamState enc h) → c_wbudget (sc_conn s) = None →
  ∃ s', write_all IVSize GE rnd bs s = Some s' ∧
    c_out (sc_conn s') = c_out (sc_conn s) ++ enc h (concat bs).
Proof.
  induction bs as [|b bs IH]; intros s h Ha Hl Hs Hc.
  - exists s. split; [done|]. simpl.
    assert (enc h [] = []) as -> by (apply nil_length_inv; by rewrite Hl). by rewrite app_nil_r.
  - simpl. unfold conn_Write, get_writer. rewrite Hs. unfold Write.
    rewrite write_loop_ok by (done || lia). rewrite Nat.eqb_refl, drop_0.
    destruct (IH (put_writer s (set_out (c_out (sc_conn s) ++ enc h b) None (sc_conn s)) (StreamState enc (h ++ b))) (h ++ b))
      as (s' & -> & Ho); [done..|].
    exists s'. split; [done|]. rewrite Ho. simpl. by rewrite Ha, app_assoc.
Qed.

(** Whatever byte strings are written to a stream-cipher
    connection, and however the bytes it sends are chunked, the peer's [WriteTo]
    terminates at the end of the connection without error, having passed on
    exactly those byte strings, concatenated. *)
Theorem stream_roundtrip IVSize GE GD iv enc dec (b : list Z) (bs : list (list Z)) (cs : conn) :
  StreamLaws enc dec → length iv = IVSize → (0 < IVSize)%nat → GE iv = Ret enc → GD iv = Ret dec →
  c_wbudget cs = None → c_out cs = [] →
  ∃ s', write_all IVSize GE (Ret iv) (b :: bs) (NewStreamConn cs) = Some s' ∧
    ∀ cr w, pending cr = c_out (sc_conn s') → c_rerr cr = io_EOF → c_wbudget w = None →
    ∃ s'', conn_WriteTo IVSize GD (NewStreamConn cr) w =
      Some (s'', set_out (c_out w ++ concat (b :: bs)) None w, Ret (length (concat (b :: bs)), None)).
Proof.
  intros HL Hiv Hpos HE HD Hw Ho. cbn [write_all].
  unfold conn_Write, get_writer, initWriter, ObtainWriteIV. simpl sc_w. simpl writeIV. cbv iota.
  rewrite (proj2 (Nat.eqb_neq (length []) IVSize)) by (simpl; lia). cbn [sc_conn sc_r sc_w readIV writeIV].
  simpl sc_conn. rewrite conn_write_unbounded by done. cbv iota beta. rewrite HE. cbn [sc_conn].
  unfold Write. rewrite write_loop_ok by (apply stream_app || apply stream_length || done || lia).
  rewrite Nat.eqb_refl, drop_0.
  set (s1 := put_writer _ _ _).
  destruct (stream_write_all_ok IVSize GE (Ret iv) enc bs s1 ([] ++ b)) as (s' & -> & Ho2);
    [apply stream_app|apply stream_length|done..|].
  exists s'. split; [done|]. intros cr w Hp He Hwb.
  rewrite Ho2 in Hp. simpl in Hp. rewrite Ho in Hp. simpl in Hp.
  rewrite <-app_assoc in Hp. change b with ([] ++ b) in Hp at 2. rewrite <-stream_app in Hp.
  unfold conn_WriteTo, get_reader, initReader, ObtainReadIV. simpl sc_r. simpl readIV. cbv iota.
  rewrite (proj2 (Nat.eqb_neq (length []) IVSize)) by (simpl; lia).
  change (sc_conn (NewStreamConn cr)) with cr.
  destruct (read_full_app IVSize cr iv _ Hp Hiv) as (c2 & -> & Hp2 & He2 & _). rewrite HD. cbn [sc_conn sc_r sc_w readIV writeIV].
  unfold WriteTo.
  destruct (stream_writeTo_loop_ok dec (S (src_size c2)) [] c2 w 0) as (r' & c' & ->);
    [apply stream_app_dec|apply stream_length_dec|done|congruence|lia|].
  rewrite Hp2, stream_length, stream_inverse. eauto.
Qed.

(** A toy stream: add the position. *)
Definition toy_enc : Stream := λ h m, imap (λ i b, b + Z.of_nat (length h + i)) m.
Definition toy_dec : Stream := λ h m, imap (λ i b, b - Z.of_nat (length h + i)) m.
#[export] Instance toy_stream_laws : StreamLaws toy_enc toy_dec.
Proof.
  split; unfold toy_enc, toy_dec.
  - intros. apply length_imap.
  - intros. apply length_imap.
  - intros. rewrite imap_app. f_equal. apply imap_ext. intros. cbn. rewrite length_app. lia.
  - intros. rewrite imap_app. f_equal. apply imap_ext. intros. cbn. rewrite length_app. lia.
  - intros m. apply list_eq. intros i. rewrite !list_lookup_imap. destruct (m !! i); simpl; [|done]. f_equal. lia.
Qed.

Lemma stream_roundtrip_witness :
  ∃ s', write_all 8 (λ _, Ret toy_enc) (Ret (replicate 8 3)) [str "hello"; str "world"]
    (NewStreamConn (Conn [] io_EOF [] None io_EOF)) = Some s'.
Proof.
  destruct (stream_roundtrip 8 (λ _, Ret toy_enc) (λ _, Ret toy_dec) (replicate 8 3) toy_enc toy_dec
    (str "hello") [str "world"] (Conn [] io_EOF [] None io_EOF)) as (s' & H & _);
    [exact toy_stream_laws|reflexivity|lia|reflexivity..|]. exists s'. exact H.
Defined.

(** A datagram shorter than the IV makes [packetConn.ReadFrom] panic
    (a negative length reaches the slice expression), whoever sent it. *)
Theorem stream_short_datagram_panics {A} IVSize (GD : list Z → res Stream) stale n (d : list Z) (a : A) later rerr out werr dec :
  (length d < IVSize)%nat → GD (take IVSize (d ++ drop (length d) stale)) = Ret dec →
  snd (packet_ReadFrom IVSize GD stale n (PConn ((d, a) :: later) rerr out werr)) = Panic.
Proof.
  intros Hd HD. unfold packet_ReadFrom, pconn_read. cbn [pk_in]. rewrite (take_ge d) by lia. rewrite HD.
  by rewrite (proj2 (Nat.ltb_lt _ _)) by done.
Qed.

Lemma stream_short_datagram_panics_witness :
  snd (packet_ReadFrom 8 (λ _, Ret toy_dec) (replicate 100 0) 50 (PConn [([1; 2; 3], 5)] io_EOF [] None)) = Panic.
Proof. apply (stream_short_datagram_panics 8 _ _ _ _ _ _ _ _ _ toy_dec); [simpl; lia|reflexivity]. Defined.
