(* ===== verification/SsrAuth.v ===== *)
(** * Package ssr/protocol: the SSR client protocols over byte buffers.

    Models [src/ssr/protocol/base.go], [protocol.go], [origin.go], [stream.go],
    [packet.go], [auth_sha1_v4.go], [auth_aes128_sha1.go], [auth_aes128_md5.go] and
    [src/ssr/tools/crypto.go], [bufPool.go]. Hashes, AES-CBC and base64 are
    parameters; random numbers are drawn from an explicit sequence ([rng]). The two
    authenticated protocols share the shape of their frames: two bytes of length,
    a two-byte check of them, padding, data, a four-byte check of all of it. *)
From S2P Require Import Prelude GoIO GoNet IPPool.
Local Open Scope Z_scope.

(** ** Random numbers *)
Record rng := Rng { draws : nat → Z; rpos : nat }.
(** [rand.Intn(n)] for [n > 0]. *)
Definition Intn (n : Z) (r : rng) : Z * rng := (draws r (rpos r) mod n, Rng (draws r) (S (rpos r))).
(** [rand.Read] of [n] bytes, and [tools.AppendRandBytes]. *)
Definition rand_bytes (n : nat) (r : rng) : list Z * rng :=
  ((λ i, u8 (draws r (rpos r + i))) <$> seq 0 n, Rng (draws r) (rpos r + n)).
Definition AppendRandBytes (b : list Z) (n : Z) (r : rng) : list Z * rng :=
  let '(d, r') := rand_bytes (Z.to_nat n) r in (b ++ d, r').

Lemma Intn_range n r : 0 < n → 0 ≤ (Intn n r).1 < n.
Proof. intros. simpl. by apply Z.mod_pos_bound. Qed.

(** [math/rand.Float64] is uniform in [0,1); with the negative skew the callers
    pass, [trapezoidRandom(max, d)] scales it, so it is some integer of [0,max). *)
Definition trapezoidRandom (max : Z) (r : rng) : Z * rng := Intn max r.

(** ** Base and shared data *)
Record Base := MkBase { Key : list Z; Overhead : Z; Param : gostring }.
Record userData := UserData { userKey : list Z; userID : list Z }.
Record authData := AuthData { clientID : list Z; connectionID : Z }.
Definition newAuthData : authData := AuthData [0; 0; 0; 0] 0.

(** [authData.next]: the shared data advanced, and the copy for a connection. *)
Definition authData_next (a : authData) (r : rng) : authData * authData * rng :=
  let '(a1, r1) :=
    if (4278190080 <? connectionID a) || (connectionID a =? 0) then
      let '(cid, r') := rand_bytes 4 r in
      let '(x, r'') := Intn (2 ^ 32) r' in
      (AuthData cid (Z.land x 16777215), r'')
    else (a, r) in
  let a2 := AuthData (clientID a1) (u32 (connectionID a1 + 1)) in
  (a2, AuthData (clientID a2) (connectionID a2), r1).

(** [putAuthData] at time [now]. *)
Definition putAuthData (a : authData) (now : Z) (buf : list Z) : list Z :=
  buf ++ le32 (u32 now) ++ clientID a ++ le32 (connectionID a).

Definition getHeadSize (b : list Z) (defaultValue : Z) : Z :=
  match b with
  | b0 :: b1 :: _ =>
      let headType := Z.land b0 7 in
      if headType =? 1 then 7 else if headType =? 4 then 19 else if headType =? 3 then 4 + b1 else defaultValue
  | _ => defaultValue
  end.
Definition getDataLength (b : list Z) (r : rng) : nat * rng :=
  let '(x, r') := Intn 32 r in
  let dataLength := getHeadSize b 30 + x in
  (if Z.of_nat (length b) <? dataLength then length b else Z.to_nat dataLength, r').

(** [b[len(b)-n:]], the tail of the buffer that holds the current frame. *)
Definition last_bytes (n : Z) (b : list Z) : list Z := drop (length b - Z.to_nat n) b.
Lemma last_bytes_app n a b : Z.of_nat (length b) = n → last_bytes n (a ++ b) = b.
Proof.
  intros <-. unfold last_bytes. rewrite length_app, Nat2Z.id, drop_app_ge by lia.
  by replace (length a + length b - length b - length a)%nat with 0%nat by lia.
Qed.

(** [hash/crc32.ChecksumIEEE], bit by bit over the reflected polynomial. *)
Definition crc32_bit (c : Z) : Z :=
  if Z.odd c then Z.lxor (Z.shiftr c 1) 3988292384 else Z.shiftr c 1.
Definition crc32 (data : list Z) : Z :=
  Z.lxor (foldl (λ c b, Nat.iter 8 crc32_bit (Z.lxor c b)) 4294967295 data) 4294967295.
Example crc32_check : crc32 (str "123456789") = 3421780262.
Proof. vm_compute. reflexivity. Qed.

(** [bytes.Equal]. *)
Definition bytes_Equal (a b : list Z) : bool := bool_decide (a = b).

(** [packRandData] with the byte order of the protocol. *)
Definition packRandData (put16 : Z → list Z) (buf : list Z) (size : Z) (r : rng) : list Z * rng :=
  if size <? 128 then AppendRandBytes (buf ++ [u8 (size + 1)]) size r
  else AppendRandBytes (buf ++ [255] ++ put16 (u16 (size + 3))) size r.

(** ** The common decoder *)

(** State of an authenticated connection's receiving side. *)
Record recvState := RecvState { rawTrans : bool; recvID : Z }.

Inductive decode_result := DOk | DErr (e : error) | DPanic.

Section Decode.
(** [head_ok id h c]: the check [c] of the length bytes [h]; [tail_ok id body t]:
    the check [t] of the frame without it; [get16]: the byte order. *)
Context (head_ok : Z → list Z → list Z → bool) (tail_ok : Z → list Z → list Z → bool)
        (get16 : list Z → Z) (errHead errLength errTail : error).

(** The loop of [Decode]: decoded data, rest of the source, state. *)
Fixpoint decode_loop (fuel : nat) (st : recvState) (dst src : list Z)
    : recvState * list Z * list Z * decode_result :=
  match fuel with
  | O => (st, dst, src, DOk)
  | S f =>
      if (length src <=? 4)%nat then (st, dst, src, DOk) else
      if negb (head_ok (recvID st) (take 2 src) (take 2 (drop 2 src))) then (st, dst, [], DErr errHead) else
      let len := get16 (take 2 src) in
      if (8192 <=? len) || (len <? 7) then (RecvState true (recvID st), dst, [], DErr errLength) else
      if Z.of_nat (length src) <? len then (st, dst, src, DOk) else
      let n := Z.to_nat len in
      if negb (tail_ok (recvID st) (take (n - 4) src) (take 4 (drop (n - 4) src)))
      then (RecvState true (recvID st), dst, [], DErr errTail) else
      let st1 := RecvState (rawTrans st) (u32 (recvID st + 1)) in
      let b4 := byte_at src 4 in
      let pos := if b4 <? 255 then b4 + 4 else get16 (take 2 (drop 5 src)) + 4 in
      if (len - 4 <? pos) then (st1, dst, src, DPanic) else
      decode_loop f st1 (dst ++ take (n - 4 - Z.to_nat pos) (drop (Z.to_nat pos) src)) (drop n src)
  end.

(** [Decode(dst, src)]; every round uses up at least 7 bytes of [src]. *)
Definition decode (st : recvState) (dst src : list Z) : recvState * list Z * list Z * decode_result :=
  if rawTrans st then (st, dst ++ src, [], DOk)
  else decode_loop (length src) st dst src.
End Decode.

(** ** [Conn]: the protocol over a connection, reading through [Decode] *)
Section Conn.
Context {St : Type} (Decode : St → list Z → list Z → St * list Z * list Z * decode_result).

Definition relayBufferSize : nat := Z.to_nat (20 * 1024).

Record protoConn := ProtoConn {
  pc_conn : conn;
  pc_state : St;
  decoded : list Z;
  underDecoded : list Z;
}.

(** [Conn.Read(b)] with [len(b) = n]: an empty result without error is possible. *)
Definition Conn_Read (n : nat) (c : protoConn) : protoConn * res (list Z) :=
  match decoded c with
  | _ :: _ =>
      (ProtoConn (pc_conn c) (pc_state c) (drop n (decoded c)) (underDecoded c), Ret (take n (decoded c)))
  | [] =>
      match conn_read relayBufferSize (pc_conn c) with
      | (c1, Fail e) => (ProtoConn c1 (pc_state c) (decoded c) (underDecoded c), Fail e)
      | (c1, Panic) => (ProtoConn c1 (pc_state c) (decoded c) (underDecoded c), Panic)
      | (c1, Ret d) =>
          let '(st, dst, src, x) := Decode (pc_state c) (decoded c) (underDecoded c ++ d) in
          match x with
          | DErr e => (ProtoConn c1 st dst src, Fail e)
          | DPanic => (ProtoConn c1 st dst src, Panic)
          | DOk => (ProtoConn c1 st (drop n dst) src, Ret (take n dst))
          end
      end
  end.

(** [Conn.Write(b)]: encode into a fresh buffer, write it out. *)
Context {S : Type} (Encode : S → list Z → list Z → rng → S * list Z * rng).
Definition Conn_Write (b : list Z) (s : S) (c : conn) (r : rng) : S * conn * rng * res nat :=
  let '(s1, buf, r1) := Encode s [] b r in
  match conn_write buf c with
  | (c1, (_, Some e)) => (s1, c1, r1, Fail e)
  | (c1, (_, None)) => (s1, c1, r1, Ret (length b))
  end.

(** A sequence of writes. *)
Fixpoint Conn_Writes (ws : list (list Z)) (s : S) (c : conn) (r : rng) : S * conn * rng :=
  match ws with
  | [] => (s, c, r)
  | w :: ws => let '(s1, c1, r1, _) := Conn_Write w s c r in Conn_Writes ws s1 c1 r1
  end.
End Conn.
Arguments ProtoConn {St} _ _ _ _.
#[global] Opaque relayBufferSize.

(** ** origin *)
Definition origin_Decode (st : unit) (dst src : list Z) : unit * list Z * list Z * decode_result :=
  (st, dst ++ src, [], DOk).
Definition origin_Encode (buf b : list Z) : list Z := buf ++ b.

(** The protocols of [protocolMap] with their overheads. *)
Inductive protocol_kind := Origin | AuthAES128MD5 | AuthAES128SHA1 | AuthChainA | AuthChainB | AuthSHA1V4.
Definition protocolMap : list (gostring * (Z * protocol_kind)) :=
  [ (str "origin", (0, Origin)); (str "auth_aes128_md5", (9, AuthAES128MD5));
    (str "auth_aes128_sha1", (9, AuthAES128SHA1)); (str "auth_chain_a", (4, AuthChainA));
    (str "auth_chain_b", (4, AuthChainB)); (str "auth_sha1_v4", (7, AuthSHA1V4)) ].
Definition GetProtocol (name : gostring) (b : Base) : res (protocol_kind * Base) :=
  match list_find (λ e, e.1 = name) protocolMap with
  | Some (_, (_, (overhead, kind))) => Ret (kind, MkBase (Key b) (Overhead b + overhead) (Param b))
  | None => Fail (errNew "protocol %s not supported")
  end.

(** ** auth_sha1_v4 *)
Module sha1v4.
Section Sha1V4.
Context (HmacSHA1 : list Z → list Z → list Z).

Definition errCRC32 := errNew "auth_sha1_v4 decode data wrong crc32".
Definition errLength := errNew "auth_sha1_v4 decode data wrong length".
Definition errAdler32 := errNew "auth_sha1_v4 decode data wrong adler32".

Definition head_ok (_ : Z) (h c : list Z) : bool := u16 (Z.land (crc32 h) 65535) =? get_le16 c.
Definition tail_ok (_ : Z) (body t : list Z) : bool := adler32 body =? get_le32 t.
Definition Decode (st : recvState) (dst src : list Z) :=
  decode head_ok tail_ok get_be16 errCRC32 errLength errAdler32 st dst src.

Record authSHA1V4 := AuthSHA1V4 {
  base : Base;
  auth : authData;
  iv : list Z;
  hasSentHeader : bool;
}.

(** [StreamConn]: a fresh connection state from the shared data. *)
Definition StreamConn (b : Base) (shared : authData) (iv : list Z) (r : rng) : authSHA1V4 * authData * rng :=
  let '(shared', own, r') := authData_next shared r in (AuthSHA1V4 b own iv false, shared', r').

Definition getRandDataLength (size : Z) (r : rng) : Z * rng :=
  if 1200 <? size then (0, r) else if 400 <? size then Intn 256 r else Intn 512 r.

Definition packData (buf data : list Z) (r : rng) : list Z * rng :=
  let dataLength := Z.of_nat (length data) in
  let '(rl, r1) := getRandDataLength dataLength r in
  let packed := 2 + 2 + 3 + rl + dataLength + 4 - (if rl <? 128 then 2 else 0) in
  let b1 := buf ++ be16 (u16 packed) in
  let b2 := b1 ++ le16 (u16 (Z.land (crc32 (last_bytes 2 b1)) 65535)) in
  let '(b3, r2) := packRandData be16 b2 rl r1 in
  let b4 := b3 ++ data in
  (b4 ++ le32 (adler32 (last_bytes (packed - 4) b4)), r2).

Definition packAuthData (a : authSHA1V4) (now : Z) (buf data : list Z) (r : rng) : list Z * rng :=
  let dataLength := Z.of_nat (length data) in
  let '(rl, r1) := getRandDataLength (12 + dataLength) r in
  let packed := 2 + 4 + 3 + rl + 12 + dataLength + 10 - (if rl <? 128 then 2 else 0) in
  let crcData := be16 (u16 packed) ++ str "auth_sha1_v4" ++ Key (base a) in
  let key := iv a ++ Key (base a) in
  let b1 := buf ++ take 2 crcData ++ le32 (u32 (crc32 crcData)) in
  let '(b2, r2) := packRandData be16 b1 rl r1 in
  let b3 := putAuthData (auth a) now b2 ++ data in
  (b3 ++ take 10 (HmacSHA1 key (last_bytes (packed - 10) b3)), r2).

(** The loop of [Encode] after the header: pieces of 8100 bytes. *)
Fixpoint encode_loop (fuel : nat) (buf b : list Z) (r : rng) : list Z * rng :=
  match fuel with
  | O => (buf, r)
  | S f =>
      if (8100 <? Z.of_nat (length b)) then
        let n := Z.to_nat 8100 in
        let '(buf1, r1) := packData buf (take n b) r in encode_loop f buf1 (drop n b) r1
      else match b with [] => (buf, r) | _ => packData buf b r end
  end.

Definition Encode (a : authSHA1V4) (now : Z) (buf b : list Z) (r : rng) : authSHA1V4 * list Z * rng :=
  if hasSentHeader a then
    let '(buf2, r2) := encode_loop (S (length b)) buf b r in (a, buf2, r2)
  else
    let '(n, r0) := getDataLength b r in
    let '(buf1, r1) := packAuthData a now buf (take n b) r0 in
    let '(buf2, r2) := encode_loop (S (length b)) buf1 (drop n b) r1 in
    (AuthSHA1V4 (base a) (auth a) (iv a) true, buf2, r2).
End Sha1V4.
End sha1v4.

(** ** auth_aes128_md5 and auth_aes128_sha1 *)
Module aes128.
Section Aes128.
(** The HMAC and digest of the variant, its salt, base64, key derivation and
    AES-CBC with a zero IV (an error for a bad key). *)
Context (hmac : list Z → list Z → list Z) (hashDigest : list Z → list Z) (salt : gostring)
        (base64 : list Z → gostring) (kdf16 : gostring → list Z) (aes_cbc : list Z → list Z → res (list Z)).

Definition errMAC := errNew "auth_aes128 decode data wrong mac".
Definition errLength := errNew "auth_aes128 decode data wrong length".
Definition errChksum := errNew "auth_aes128 decode data wrong checksum".

(** [initUserData]: "id:key" in the protocol parameter, or a random id. *)
Definition initUserData (b : Base) (r : rng) : userData * rng :=
  let fallback :=
    let '(id, r') := rand_bytes 4 r in (UserData (Key b) id, r') in
  match split_byte 58 (Param b) with
  | p0 :: p1 :: _ =>
      match parse_uint 32 p0 with
      | (id, true) =>
          match hashDigest p1 with
          | [] => fallback
          | k => (UserData k (le32 id), r)
          end
      | _ => fallback
      end
  | _ => fallback
  end.

Record authAES128 := AuthAES128 {
  base : Base;
  auth : authData;
  user : userData;
  iv : list Z;
  hasSentHeader : bool;
  packID : Z;
}.

Definition StreamConn (b : Base) (u : userData) (shared : authData) (iv : list Z) (r : rng)
    : authAES128 * recvState * authData * rng :=
  let '(shared', own, r') := authData_next shared r in
  (AuthAES128 b own u iv false 1, RecvState false 1, shared', r').

Definition macKey (u : userData) (id : Z) : list Z := userKey u ++ le32 id.
Definition head_ok (u : userData) (id : Z) (h c : list Z) : bool :=
  bytes_Equal (take 2 (hmac (macKey u id) h)) c.
Definition tail_ok (u : userData) (id : Z) (body t : list Z) : bool :=
  bytes_Equal (take 4 (hmac (macKey u id) body)) t.
Definition Decode (u : userData) (st : recvState) (dst src : list Z) :=
  decode (head_ok u) (tail_ok u) get_le16 errMAC errLength errChksum st dst src.

Definition getRandDataLengthForPackData (b : Base) (dataLength fullDataLength : Z) (r : rng) : Z * rng :=
  if 32 * 1024 - Overhead b <=? fullDataLength then (0, r) else
  let revLength := 1460 - dataLength - 9 in
  if revLength =? 0 then (0, r) else
  if revLength <? 0 then
    if -1460 <? revLength then trapezoidRandom (revLength + 1460) r else Intn 32 r
  else if 900 <? dataLength then Intn revLength r
  else trapezoidRandom revLength r.

Definition packData (a : authAES128) (buf data : list Z) (full : Z) (r : rng) : authAES128 * list Z * rng :=
  let dataLength := Z.of_nat (length data) in
  let '(rl, r1) := getRandDataLengthForPackData (base a) dataLength full r in
  let packed := 2 + 2 + 3 + rl + dataLength + 4 - (if rl <? 128 then 2 else 0) in
  let k := macKey (user a) (packID a) in
  let b1 := buf ++ le16 (u16 packed) in
  let b2 := b1 ++ take 2 (hmac k (last_bytes 2 b1)) in
  let '(b3, r2) := packRandData le16 b2 rl r1 in
  let b4 := b3 ++ data in
  (AuthAES128 (base a) (auth a) (user a) (iv a) (hasSentHeader a) (u32 (packID a + 1)),
   b4 ++ take 4 (hmac k (last_bytes (packed - 4) b4)), r2).

Definition getRandDataLengthForPackAuthData (size : Z) (r : rng) : Z * rng :=
  if 400 <? size then Intn 512 r else Intn 1024 r.

(** [putEncryptedData]. *)
Definition putEncryptedData (a : authData) (userKey : list Z) (p0 p1 now : Z) (b : list Z) : res (list Z) :=
  let encrypt := le32 (u32 now) ++ clientID a ++ le32 (connectionID a) ++ le16 (u16 p0) ++ le16 (u16 p1) in
  ct ← aes_cbc (kdf16 (base64 userKey ++ salt)) encrypt;
  Ret (b ++ ct).

(** [packAuthData]; the HMACs cover the buffer from its start, which is empty
    when the header is sent. *)
Definition packAuthData (a : authAES128) (now : Z) (buf data : list Z) (r : rng) : list Z * rng :=
  match data with
  | [] => (buf, r)
  | _ =>
      let dataLength := Z.of_nat (length data) in
      let '(rl, r1) := getRandDataLengthForPackAuthData dataLength r in
      let packed := 7 + 4 + 16 + 4 + rl + dataLength + 4 in
      let k := iv a ++ Key (base a) in
      let '(x, r2) := Intn 256 r1 in
      let b1 := buf ++ [u8 x] in
      let b2 := b1 ++ take 6 (hmac k b1) in
      let b3 := b2 ++ userID (user a) in
      match putEncryptedData (auth a) (userKey (user a)) packed rl now b3 with
      | Ret b4 =>
          let b5 := b4 ++ take 4 (hmac k (drop 7 b4)) in
          let '(b6, r3) := AppendRandBytes b5 rl r2 in
          let b7 := b6 ++ data in
          (b7 ++ take 4 (hmac (userKey (user a)) b7), r3)
      | _ => ([], r2)
      end
  end.

Fixpoint encode_loop (fuel : nat) (a : authAES128) (buf b : list Z) (full : Z) (r : rng)
    : authAES128 * list Z * rng :=
  match fuel with
  | O => (a, buf, r)
  | S f =>
      if (8100 <? Z.of_nat (length b)) then
        let n := Z.to_nat 8100 in
        let '(a1, buf1, r1) := packData a buf (take n b) full r in encode_loop f a1 buf1 (drop n b) full r1
      else match b with [] => (a, buf, r) | _ => packData a buf b full r end
  end.

Definition Encode (a : authAES128) (now : Z) (buf b : list Z) (r : rng) : authAES128 * list Z * rng :=
  let full := Z.of_nat (length b) in
  if hasSentHeader a then encode_loop (S (length b)) a buf b full r
  else
    let '(n, r0) := getDataLength b r in
    let '(buf1, r1) := packAuthData a now buf (take n b) r0 in
    encode_loop (S (length b)) (AuthAES128 (base a) (auth a) (user a) (iv a) true (packID a)) buf1 (drop n b) full r1.

(** [DecodePacket]: [b[:len(b)-4]] panics for fewer than four bytes. *)
Definition DecodePacket (b : Base) (d : list Z) : res (list Z) :=
  if (length d <? 4)%nat then Panic else
  let body := take (length d - 4) d in
  if bytes_Equal (take 4 (hmac (Key b) body)) (drop (length d - 4) d) then Ret body else Fail errChksum.
Definition EncodePacket (u : userData) (buf b : list Z) : list Z :=
  let b1 := buf ++ b ++ userID u in b1 ++ take 4 (hmac (userKey u) b1).
End Aes128.
End aes128.

(** ** [PacketConn]: the protocol over datagrams *)
Section PacketConn.
Context {A : Type} (EncodePacket : list Z → list Z) (DecodePacket : list Z → res (list Z)).

Definition PacketConn_WriteTo (b : list Z) (addr : A) (c : pconn A) : pconn A * res nat :=
  match pconn_write (EncodePacket b) addr c with
  | (c1, Ret _) => (c1, Ret (length b))
  | (c1, Fail e) => (c1, Fail e)
  | (c1, Panic) => (c1, Panic)
  end.
Definition PacketConn_ReadFrom (n : nat) (c : pconn A) : pconn A * res (list Z * A) :=
  match pconn_read n c with
  | (c1, Ret (d, addr)) =>
      match DecodePacket d with
      | Ret x => (c1, Ret (x, addr))
      | Fail e => (c1, Fail e)
      | Panic => (c1, Panic)
      end
  | (c1, Fail e) => (c1, Fail e)
  | (c1, Panic) => (c1, Panic)
  end.
End PacketConn.

(** ** Decoding does not depend on how the bytes arrive *)

Lemma take_prefix {A} (n : nat) (a b : list A) : (n ≤ length a)%nat → take n (a ++ b) = take n a.
Proof. intros. by rewrite take_app_le. Qed.
Lemma slice_prefix {A} (n m : nat) (a b : list A) :
  (n + m ≤ length a)%nat → take m (drop n (a ++ b)) = take m (drop n a).
Proof. intros. rewrite drop_app_le by lia. apply take_prefix. rewrite length_drop. lia. Qed.
Lemma byte_at_app a b i : (i < length a)%nat → byte_at (a ++ b) i = byte_at a i.
Proof. intros. unfold byte_at. by rewrite lookup_app_l. Qed.

(** Two ways to cut the same bytes: the first piece is a part of the other's first
    piece, or extends it. *)
Lemma app_cut {A} (s r f g : list A) : s ++ r = f ++ g →
  (∃ s', s = f ++ s' ∧ s' ++ r = g) ∨ (∃ q, f = s ++ q ∧ q ≠ [] ∧ r = q ++ g).
Proof.
  revert f. induction s as [|x s IH]; intros f H.
  - destruct f as [|y f]; [left; by exists []|right]. by exists (y :: f).
  - destruct f as [|y f]; simpl in H; [left; by exists (x :: s)|]. simplify_eq.
    destruct (IH f) as [(s' & -> & ?)|(q & -> & ? & ?)]; [done|left; by exists s'|right; by exists q].
Qed.

(** Feeding the bytes in chunks to [Decode], as [Conn.Read] does. *)
Section Feed.
Context {St : Type} (Decode : St → list Z → list Z → St * list Z * list Z * decode_result).
Fixpoint feed (st : St) (dst under : list Z) (chunks : list (list Z)) : St * list Z * list Z * decode_result :=
  match chunks with
  | [] => (st, dst, under, DOk)
  | ch :: r =>
      match Decode st dst (under ++ ch) with
      | (st1, dst1, src1, DOk) => feed st1 dst1 src1 r
      | x => x
      end
  end.
End Feed.

(** A protocol as the receiving loop sees it: [sends s d f s'], the sender in state
    [s] turns data [d] into the frame [f]; [agree s t], the receiver's state [t]
    follows the sender's [s]. *)
Class FrameLaws {Sd St : Type} (loop : nat → St → list Z → list Z → St * list Z * list Z * decode_result)
    (sends : Sd → list Z → list Z → Sd → Prop) (agree : Sd → St → Prop) : Prop := {
  fl_nonempty s d f s' : sends s d f s' → f ≠ [];
  fl_nil fuel t dst : loop fuel t dst [] = (t, dst, [], DOk);
  fl_frame s d f s' t : sends s d f s' → agree s t →
    ∃ t', agree s' t' ∧ ∀ fuel dst rest, loop (S fuel) t dst (f ++ rest) = loop fuel t' (dst ++ d) rest;
  fl_partial s d f s' t fuel dst p q : sends s d f s' → agree s t → f = p ++ q → q ≠ [] →
    ∃ t', agree s t' ∧ loop fuel t dst p = (t', dst, p, DOk);
}.

Section Chunks.
Context {Sd St : Type} {loop : nat → St → list Z → list Z → St * list Z * list Z * decode_result}
        {sends : Sd → list Z → list Z → Sd → Prop} {agree : Sd → St → Prop} {FL : FrameLaws loop sends agree}.

(** The pieces [ds] sent as the frames [fs]. *)
Inductive framed : Sd → list (list Z) → list (list Z) → Sd → Prop :=
| framed_nil s : framed s [] [] s
| framed_cons s d f s1 ds fs s2 : sends s d f s1 → framed s1 ds fs s2 → framed s (d :: ds) (f :: fs) s2.

Lemma framed_app s ds fs s' ds2 fs2 s2 :
  framed s ds fs s' → framed s' ds2 fs2 s2 → framed s (ds ++ ds2) (fs ++ fs2) s2.
Proof. induction 1; [done|]. intros. simpl. econstructor; [done|auto]. Qed.

Lemma framed_empty s ds fs s' : framed s ds fs s' → concat fs = [] → ds = [] ∧ s' = s.
Proof.
  intros HF Hc. destruct HF as [|s d f s1 ds fs s2 Hs _]; [done|]. simpl in Hc.
  apply app_nil in Hc as [-> _]. by apply fl_nonempty in Hs.
Qed.

Lemma loop_prefix fs : ∀ fuel s s' t dst src rest ds,
  framed s ds fs s' → agree s t → src ++ rest = concat fs → (length src ≤ fuel)%nat →
  ∃ ds1 ds2 fs2 p s1 t', ds = ds1 ++ ds2 ∧ loop fuel t dst src = (t', dst ++ concat ds1, p, DOk) ∧
    framed s1 ds2 fs2 s' ∧ agree s1 t' ∧ p ++ rest = concat fs2 ∧ (rest = [] → p = []).
Proof.
  induction fs as [|f fs IH]; intros fuel s s' t dst src rest ds HF Ha Hs Hf;
    inversion HF as [|? d ? s1 ds' ? ? Hsend Hrest]; subst.
  - simpl in Hs. apply app_nil in Hs as [-> ->]. exists [], [], [], [], s', t.
    rewrite fl_nil. simpl. rewrite app_nil_r. split_and!; [done|done|constructor|done|done|done].
  - simpl in Hs. destruct (app_cut _ _ _ _ Hs) as [(s0 & -> & Hs')|(q & -> & Hq & Hr)].
    + pose proof (fl_nonempty _ _ _ _ Hsend) as Hne. rewrite length_app in Hf.
      destruct f as [|x f]; [done|]. simpl in Hf. destruct fuel as [|fuel]; [lia|].
      destruct (fl_frame _ _ _ _ _ Hsend Ha) as (t1 & Ha1 & ->).
      destruct (IH fuel s1 s' t1 (dst ++ d) s0 rest ds')
        as (ds1 & ds2 & fs2 & p & s2 & t' & -> & E & HF2 & Ha2 & Hp & He); [done|done|done|lia|].
      exists (d :: ds1), ds2, fs2, p, s2, t'. simpl. rewrite app_assoc. done.
    + destruct (fl_partial _ _ _ _ t fuel dst src q Hsend Ha) as (t' & Ha' & E); [done|done|].
      exists [], (d :: ds'), ((src ++ q) :: fs), src, s, t'. rewrite E. simpl concat at 1. rewrite app_nil_r.
      split_and!; [done|done|done|done|done|]. intros ->. by destruct q.
Qed.

Context (Decode : St → list Z → list Z → St * list Z * list Z * decode_result)
        (Decode_loop : ∀ s t dst src, agree s t → Decode t dst src = loop (length src) t dst src).

Lemma feed_framed chunks : ∀ s s' t dst under ds fs,
  framed s ds fs s' → agree s t → under ++ concat chunks = concat fs → (chunks = [] → under = []) →
  ∃ t', agree s' t' ∧ feed Decode t dst under chunks = (t', dst ++ concat ds, [], DOk).
Proof.
  induction chunks as [|ch chunks IH]; intros s s' t dst under ds fs HF Ha Hc Hnil.
  - rewrite (Hnil eq_refl) in *. simpl in Hc. destruct (framed_empty _ _ _ _ HF) as [-> ->]; [done|].
    exists t. simpl. by rewrite app_nil_r.
  - cbn [feed]. rewrite (Decode_loop s) by done. simpl in Hc. rewrite app_assoc in Hc.
    destruct (loop_prefix fs (length (under ++ ch)) s s' t dst (under ++ ch) (concat chunks) ds HF Ha Hc (le_n _))
      as (ds1 & ds2 & fs2 & p & s1 & t1 & -> & -> & HF2 & Ha1 & Hp & He).
    destruct (IH s1 s' t1 (dst ++ concat ds1) p ds2 fs2) as (t' & Ha' & E); [done|done|done| |].
    { intros ->. by apply He. }
    exists t'. by rewrite E, concat_app, app_assoc.
Qed.
End Chunks.
Arguments framed {Sd} sends _ _ _ _.

(** ** The frames of auth_sha1_v4 and auth_aes128 *)
Section Framing.
Context (head_ok : Z → list Z → list Z → bool) (tail_ok : Z → list Z → list Z → bool)
        (get16 : list Z → Z) (e1 e2 e3 : error).
Abbreviation loop := (decode_loop head_ok tail_ok get16 e1 e2 e3).
Abbreviation decode := (decode head_ok tail_ok get16 e1 e2 e3).

(** Where the data of a frame starts. *)
Definition data_pos (f : list Z) : Z :=
  if byte_at f 4 <? 255 then byte_at f 4 + 4 else get16 (take 2 (drop 5 f)) + 4.

Record good_frame (id : Z) (data f : list Z) : Prop := {
  gf_len : 9 ≤ Z.of_nat (length f) < 8192;
  gf_get : get16 (take 2 f) = Z.of_nat (length f);
  gf_head : head_ok id (take 2 f) (take 2 (drop 2 f)) = true;
  gf_tail : tail_ok id (take (length f - 4) f) (drop (length f - 4) f) = true;
  gf_pos : 0 ≤ data_pos f ≤ Z.of_nat (length f) - 4;
  gf_data : take (length f - 4 - Z.to_nat (data_pos f)) (drop (Z.to_nat (data_pos f)) f) = data;
}.

Lemma data_pos_app f r : (7 ≤ length f)%nat → data_pos (f ++ r) = data_pos f.
Proof. intros. unfold data_pos. by rewrite byte_at_app, slice_prefix by lia. Qed.

(** A frame at the front of the source whose length and checks are right. *)
Record checked_frame (id : Z) (f : list Z) : Prop := {
  cf_len : 7 ≤ Z.of_nat (length f) < 8192;
  cf_get : get16 (take 2 f) = Z.of_nat (length f);
  cf_head : head_ok id (take 2 f) (take 2 (drop 2 f)) = true;
  cf_tail : tail_ok id (take (length f - 4) f) (drop (length f - 4) f) = true;
}.

Lemma loop_checked fuel st dst f rest :
  checked_frame (recvID st) f →
  loop (S fuel) st dst (f ++ rest) =
  if Z.of_nat (length f) - 4 <? data_pos f
  then (RecvState (rawTrans st) (u32 (recvID st + 1)), dst, f ++ rest, DPanic)
  else loop fuel (RecvState (rawTrans st) (u32 (recvID st + 1)))
         (dst ++ take (length f - 4 - Z.to_nat (data_pos f)) (drop (Z.to_nat (data_pos f)) (f ++ rest))) rest.
Proof.
  intros [Hl Hg Hh Ht]. cbn [decode_loop].
  rewrite (proj2 (Nat.leb_gt _ _)) by (rewrite length_app; lia).
  rewrite take_prefix, slice_prefix by lia. rewrite Hh, Hg. simpl negb. cbv iota.
  rewrite (proj2 (Z.leb_gt _ _)), (proj2 (Z.ltb_ge _ 7)) by lia. cbn [orb].
  rewrite (proj2 (Z.ltb_ge (Z.of_nat (length (f ++ rest))) _)) by (rewrite length_app; lia).
  rewrite Nat2Z.id, take_prefix, slice_prefix by lia.
  rewrite (take_ge (drop (length f - 4) f)) by (rewrite length_drop; lia). rewrite Ht. simpl negb. cbv iota.
  fold (data_pos (f ++ rest)). rewrite data_pos_app, drop_app_length by lia. done.
Qed.

(** One complete frame at the front of the source. *)
Lemma loop_frame fuel st dst d f rest :
  good_frame (recvID st) d f →
  loop (S fuel) st dst (f ++ rest) =
  loop fuel (RecvState (rawTrans st) (u32 (recvID st + 1))) (dst ++ d) rest.
Proof.
  intros [Hl Hg Hh Ht Hp Hd]. rewrite loop_checked by (split; [lia|done..]).
  rewrite (proj2 (Z.ltb_ge _ _)), slice_prefix, Hd by lia. done.
Qed.

(** A frame whose padding runs past its data. *)
Lemma loop_overlong fuel st dst f rest :
  checked_frame (recvID st) f → Z.of_nat (length f) - 4 < data_pos f →
  loop (S fuel) st dst (f ++ rest) = (RecvState (rawTrans st) (u32 (recvID st + 1)), dst, f ++ rest, DPanic).
Proof. intros Hf Hp. by rewrite loop_checked, (proj2 (Z.ltb_lt _ _)) by (done || lia). Qed.

(** Nothing happens to a proper prefix of a frame. *)
Lemma loop_partial fuel st dst p q d f :
  good_frame (recvID st) d f → f = p ++ q → q ≠ [] → loop fuel st dst p = (st, dst, p, DOk).
Proof.
  intros [Hl Hg Hh _ _ _] -> Hq. destruct fuel as [|fuel]; [done|]. cbn [decode_loop].
  destruct (length p <=? 4)%nat eqn:E; [done|]. zify_bool.
  rewrite take_prefix, slice_prefix in * by lia. rewrite Hh, Hg. simpl negb. cbv iota.
  rewrite length_app in *. destruct q as [|x q]; [done|]. simpl length in *.
  rewrite (proj2 (Z.leb_gt _ _)), (proj2 (Z.ltb_ge _ 7)) by lia. cbn [orb].
  by rewrite (proj2 (Z.ltb_lt _ _)) by lia.
Qed.

(** The frame numbers are the state of the exchange. *)
Definition sends_frame (id : Z) (d f : list Z) (id' : Z) : Prop := good_frame id d f ∧ id' = u32 (id + 1).
Definition follows (id : Z) (t : recvState) : Prop := t = RecvState false id.

Lemma frame_laws : FrameLaws loop sends_frame follows.
Proof.
  split.
  - intros s d f s' [Hg _] ->. pose proof (gf_len _ _ _ Hg). simpl in *. lia.
  - intros fuel t dst. by destruct fuel.
  - intros s d f s' t [Hg ->] ->. exists (RecvState false (u32 (s + 1))). split; [done|].
    intros fuel dst rest. by rewrite (loop_frame _ _ _ d).
  - intros s d f s' t fuel dst p q [Hg ->] -> Hf Hq. exists (RecvState false s). split; [done|].
    by eapply loop_partial.
Qed.

Lemma decode_is_loop id t dst src : follows id t → decode t dst src = loop (length src) t dst src.
Proof. by intros ->. Qed.

(** *** Building frames *)
Context (put16 : Z → list Z) (put16_len : ∀ v, length (put16 v) = 2%nat)
        (get_put16 : ∀ v k, 0 ≤ v < 65536 → get16 (put16 v ++ k) = v).

Definition pad (rl : Z) : list Z := if rl <? 128 then [u8 (rl + 1)] else 255 :: put16 (u16 (rl + 3)).

Lemma packRandData_shape buf rl r : 0 ≤ rl →
  ∃ rnd r', packRandData put16 buf rl r = (buf ++ pad rl ++ rnd, r') ∧ Z.of_nat (length rnd) = rl.
Proof.
  intros Hrl. exists (rand_bytes (Z.to_nat rl) r).1, (rand_bytes (Z.to_nat rl) r).2.
  split; [|simpl; rewrite length_fmap, length_seq; lia].
  unfold packRandData, AppendRandBytes, pad. destruct (rl <? 128); cbn; by rewrite <-?app_assoc.
Qed.

Lemma good_frame_build id c rl rnd data t :
  0 ≤ rl < 65000 → Z.of_nat (length rnd) = rl → length c = 2%nat → length t = 4%nat →
  let len := 4 + Z.of_nat (length (pad rl)) + rl + Z.of_nat (length data) + 4 in
  let body := put16 len ++ c ++ (pad rl ++ rnd) ++ data in
  len < 8192 → head_ok id (put16 len) c = true → tail_ok id body t = true →
  good_frame id data (body ++ t).
Proof.
  intros Hrl Hrnd Hc Ht len body Hlen Hh Htl.
  assert (length (pad rl) = if rl <? 128 then 1%nat else 3%nat) as Hpad.
  { unfold pad. case_match; simpl; [done|by rewrite put16_len]. }
  assert (Z.of_nat (length body) = len - 4) as Hbody.
  { unfold body. rewrite !length_app, put16_len, Hc. lia. }
  assert (0 ≤ len) by lia.
  assert (take 2 (body ++ t) = put16 len) as E2.
  { unfold body. rewrite <-!app_assoc, take_app_le, take_ge by (rewrite put16_len; lia). done. }
  assert (data_pos (body ++ t) = 4 + Z.of_nat (length (pad rl)) + rl) as Hpos.
  { unfold data_pos, body. rewrite <-!app_assoc. unfold byte_at.
    rewrite lookup_app_r by (rewrite put16_len; lia). rewrite put16_len, lookup_app_r by lia. rewrite Hc.
    unfold pad in *. destruct (rl <? 128) eqn:E; zify_bool; simpl.
    - rewrite u8_id by (unfold is_byte; lia). rewrite (proj2 (Z.ltb_lt _ _)) by lia. lia.
    - rewrite drop_app_ge by (rewrite put16_len; lia). rewrite put16_len, drop_app_ge by lia. rewrite Hc. simpl.
      rewrite drop_0, take_app_le, take_ge by (rewrite put16_len; lia).
      rewrite <-(app_nil_r (put16 (u16 _))), get_put16 by (unfold u16; apply Z.mod_pos_bound; lia).
      unfold u16. rewrite Z.mod_small by lia. rewrite ?length_app, put16_len. simpl. lia. }
  split; rewrite ?Hpos, ?E2, ?length_app, ?Ht.
  - destruct (rl <? 128); lia.
  - rewrite <-(app_nil_r (put16 len)), get_put16 by lia. lia.
  - rewrite <-Hh. f_equal. unfold body. rewrite <-!app_assoc, drop_app_ge by (rewrite put16_len; lia).
    rewrite put16_len. simpl. rewrite drop_0, take_app_le, take_ge by lia. done.
  - replace (length body + 4 - 4)%nat with (length body) by lia. by rewrite take_app_length, drop_app_length.
  - destruct (rl <? 128); lia.
  - rewrite drop_app_le by lia.
    assert (drop (Z.to_nat (4 + Z.of_nat (length (pad rl)) + rl)) body = data) as ->.
    { unfold body. rewrite !app_assoc. rewrite drop_app_ge by (rewrite !length_app, put16_len, Hc; lia).
      rewrite !length_app, put16_len, Hc.
      replace (Z.to_nat _ - _)%nat with 0%nat by lia. done. }
    rewrite take_app_le, take_ge by lia. done.
Qed.
End Framing.

Lemma get_be16_put v k : 0 ≤ v < 65536 → get_be16 (be16 v ++ k) = v.
Proof. apply get_be16_be16. Qed.

Lemma get_le16_put v k : 0 ≤ v < 65536 → get_le16 (le16 v ++ k) = v.
Proof. apply get_le16_le16. Qed.

(** A frame appended to a buffer, in the way both protocols build it. *)
Lemma frame_appended {put16 get16} (head_ok tail_ok : Z → list Z → list Z → bool)
    (put16_len : ∀ v, length (put16 v) = 2%nat) (get_put16 : ∀ v k, 0 ≤ v < 65536 → get16 (put16 v ++ k) = v)
    id buf data rl r (mac2 mac4 : list Z → list Z) :
  0 ≤ rl < 2000 → (∀ x, length (mac2 x) = 2%nat) → (∀ x, length (mac4 x) = 4%nat) →
  (∀ x, length x = 2%nat → head_ok id x (mac2 x) = true) → (∀ x, tail_ok id x (mac4 x) = true) →
  let packed := 2 + 2 + 3 + rl + Z.of_nat (length data) + 4 - (if rl <? 128 then 2 else 0) in
  packed < 8192 →
  let b1 := buf ++ put16 (u16 packed) in
  let b2 := b1 ++ mac2 (last_bytes 2 b1) in
  let '(b3, r2) := packRandData put16 b2 rl r in
  ∃ f, (b3 ++ data) ++ mac4 (last_bytes (packed - 4) (b3 ++ data)) = buf ++ f ∧
       good_frame head_ok tail_ok get16 id data f.
Proof.
  intros Hrl H2 H4 Hh Ht packed Hp b1 b2.
  assert (packed = 4 + Z.of_nat (length (pad put16 rl)) + rl + Z.of_nat (length data) + 4) as Hpk.
  { unfold packed, pad. destruct (rl <? 128); simpl; rewrite ?put16_len; lia. }
  assert (u16 packed = packed) as Hu by (unfold u16; apply Z.mod_small; lia).
  destruct (packRandData_shape put16 b2 rl r) as (rnd & r2 & -> & Hrnd); [lia|].
  assert (b2 = buf ++ put16 packed ++ mac2 (put16 packed)) as ->.
  { unfold b2, b1. rewrite Hu, last_bytes_app by (rewrite put16_len; lia). by rewrite <-app_assoc. }
  set (body := put16 packed ++ mac2 (put16 packed) ++ (pad put16 rl ++ rnd) ++ data).
  assert (((buf ++ put16 packed ++ mac2 (put16 packed)) ++ pad put16 rl ++ rnd) ++ data = buf ++ body) as ->.
  { unfold body. by rewrite <-!app_assoc. }
  rewrite last_bytes_app.
  2:{ unfold body. rewrite !length_app, put16_len, H2. lia. }
  exists (body ++ mac4 body). split; [by rewrite app_assoc|]. unfold body. rewrite Hpk in *.
  apply (good_frame_build _ _ get16 put16 put16_len get_put16); try done; try lia.
  apply Hh, put16_len.
Qed.

Section Sha1V4_roundtrip.
Context (HmacSHA1 : list Z → list Z → list Z).
Abbreviation framed := (framed (sends_frame sha1v4.head_ok sha1v4.tail_ok get_be16)).

Lemma sha1v4_rand_bounds size r rl r1 :
  sha1v4.getRandDataLength size r = (rl, r1) → 0 ≤ rl < 512 ∧ (1200 < size → rl = 0).
Proof.
  unfold sha1v4.getRandDataLength, Intn. intros E. repeat case_match; simplify_eq; zify_bool; [lia| |];
    (pose proof (Z.mod_pos_bound (draws r (rpos r)) 512 ltac:(lia));
     pose proof (Z.mod_pos_bound (draws r (rpos r)) 256 ltac:(lia)); split; lia).
Qed.

Lemma sha1v4_packData_frame id buf data r :
  Z.of_nat (length data) ≤ 8100 →
  ∃ f r', sha1v4.packData buf data r = (buf ++ f, r') ∧
          good_frame sha1v4.head_ok sha1v4.tail_ok get_be16 id data f.
Proof.
  intros Hd. unfold sha1v4.packData. destruct (sha1v4.getRandDataLength _ r) as [rl r1] eqn:E.
  apply sha1v4_rand_bounds in E as [Hrl Hrl0].
  pose proof (frame_appended sha1v4.head_ok sha1v4.tail_ok length_be16 get_be16_put id buf data rl r1
    (λ x, le16 (u16 (Z.land (crc32 x) 65535))) (λ x, le32 (adler32 x))) as H.
  cbn zeta in H. cbv zeta. destruct (packRandData _ _ _ _) as [b3 r2].
  destruct H as (f & -> & Hg); [lia|done|done| | | |by exists f, r2].
  - intros x _. unfold sha1v4.head_ok. rewrite <-(app_nil_r (le16 _)), get_le16_le16; [by apply Z.eqb_refl|].
    unfold u16. apply Z.mod_pos_bound. lia.
  - intros x. unfold sha1v4.tail_ok. rewrite <-(app_nil_r (le32 _)), get_le32_le32 by apply adler32_range.
    by apply Z.eqb_refl.
  - destruct (rl <? 128); lia.
Qed.

Lemma sha1v4_loop_frames fuel : ∀ id buf b r,
  (length b < fuel)%nat →
  ∃ ds fs id' r', sha1v4.encode_loop fuel buf b r = (buf ++ concat fs, r') ∧
                  framed id ds fs id' ∧ concat ds = b.
Proof.
  induction fuel as [|fuel IH]; intros id buf b r Hf; [lia|]. cbn [sha1v4.encode_loop].
  destruct (8100 <? Z.of_nat (length b)) eqn:E; zify_bool.
  - set (n := Z.to_nat 8100). assert (Z.of_nat n = 8100) as Hn by (unfold n; lia). clearbody n.
    destruct (sha1v4_packData_frame id buf (take n b) r) as (f & r1 & -> & Hg); [rewrite length_take; lia|].
    destruct (IH (u32 (id + 1)) (buf ++ f) (drop n b) r1) as (ds & fs & id' & r' & -> & HF & Hc);
      [rewrite length_drop; lia|].
    exists (take n b :: ds), (f :: fs), id', r'. simpl. rewrite <-app_assoc, Hc, take_drop.
    split_and!; [done|by econstructor; [split|]|done].
  - destruct b as [|x b].
    + exists [], [], id, r. simpl. rewrite app_nil_r. split_and!; [done|constructor|done].
    + destruct (sha1v4_packData_frame id buf (x :: b) r) as (f & r1 & -> & Hg); [lia|].
      exists [x :: b], [f], (u32 (id + 1)), r1. simpl. rewrite !app_nil_r.
      split_and!; [done|econstructor; [by split|constructor]|done].
Qed.

Lemma sha1v4_writes_frames a now ws : ∀ id c r,
  sha1v4.hasSentHeader a = true → c_wbudget c = None →
  ∃ ds fs id' c' r', Conn_Writes (λ a, sha1v4.Encode HmacSHA1 a now) ws a c r = (a, c', r') ∧
    c_out c' = c_out c ++ concat fs ∧ framed id ds fs id' ∧ concat ds = concat ws.
Proof.
  induction ws as [|w ws IH]; intros id c r Ha Hb.
  - exists [], [], id, c, r. simpl. rewrite app_nil_r. split_and!; [done|done|constructor|done].
  - cbn [Conn_Writes]. unfold Conn_Write, sha1v4.Encode at 1. rewrite Ha.
    destruct (sha1v4_loop_frames (S (length w)) id [] w r) as (ds & fs & id1 & r1 & -> & HF & Hc); [lia|].
    rewrite conn_write_unbounded by done. cbn [app].
    destruct (IH id1 (set_out (c_out c ++ concat fs) None c) r1 Ha eq_refl)
      as (ds2 & fs2 & id2 & c2 & r2 & -> & Ho & HF2 & Hc2).
    exists (ds ++ ds2), (fs ++ fs2), id2, c2, r2. simpl in *. rewrite Ho, !concat_app, Hc, Hc2, app_assoc.
    split_and!; [done|done|by eapply framed_app|done].
Qed.

(** Once the authentication header is out, whatever a sequence of
    [Write]s of auth_sha1_v4 put on the wire, cut into arbitrary pieces on the way,
    [Decode] turns into exactly the written bytes, without an error and with
    nothing left over, for every choice of the random padding. *)
Theorem sha1v4_roundtrip a now ws c r a' c' r' st chunks :
  sha1v4.hasSentHeader a = true → c_wbudget c = None →
  Conn_Writes (λ a, sha1v4.Encode HmacSHA1 a now) ws a c r = (a', c', r') →
  rawTrans st = false → c_out c' = c_out c ++ concat chunks →
  ∃ id', feed sha1v4.Decode st [] [] chunks = (RecvState false id', concat ws, [], DOk).
Proof.
  intros Ha Hb HW Hr Hc.
  destruct (sha1v4_writes_frames a now ws (recvID st) c r Ha Hb) as (ds & fs & id' & c2 & r2 & E & Ho & HF & Hd).
  rewrite E in HW. simplify_eq. rewrite Ho in Hc. apply app_inv_head in Hc.
  destruct (feed_framed (FL := frame_laws _ _ _ _ _ _) sha1v4.Decode (decode_is_loop _ _ _ _ _ _)
    chunks (recvID st) id' st [] [] ds fs) as (t' & -> & E2); [done|by destruct st; simpl in *; subst|done|by intros ->|].
  exists id'. by rewrite E2, Hd.
Qed.
End Sha1V4_roundtrip.

(** The smallest frame whose checks hold and whose length passes the test of
    [Decode]: no room for the padding byte it reads next. *)
Definition short_frame : list Z :=
  let b := be16 8 ++ le16 (u16 (Z.land (crc32 (be16 8)) 65535)) in b ++ le32 (adler32 b).

(** An eight-byte reply with correct checks passes the length test
    ([length < 7]) of auth_sha1_v4's [Decode], whose data slice then ends before it
    starts: the client panics, whatever it had received and decoded before. *)
Theorem sha1v4_short_frame_panics st dst rest :
  rawTrans st = false → ∃ st' src, sha1v4.Decode st dst (short_frame ++ rest) = (st', dst, src, DPanic).
Proof.
  intros Hr. unfold sha1v4.Decode, decode. rewrite Hr.
  assert (short_frame = [0; 8; 205; 154; 112; 1; 80; 2]) as -> by (vm_compute; reflexivity).
  eexists _, _. rewrite length_app. cbn [length Nat.add]. apply loop_overlong; [split; [simpl; lia|reflexivity..]|].
  vm_compute. reflexivity.
Qed.

Section Aes128_roundtrip.
Context (hmac : list Z → list Z → list Z) (salt : gostring)
        (base64 : list Z → gostring) (kdf16 : gostring → list Z) (aes_cbc : list Z → list Z → res (list Z)).
(** MD5 and SHA-1 digests have 16 and 20 bytes. *)
Context (hmac_len : ∀ k d, (16 ≤ length (hmac k d))%nat).
Abbreviation head_ok := (aes128.head_ok hmac).
Abbreviation tail_ok := (aes128.tail_ok hmac).
Abbreviation framed u := (framed (sends_frame (head_ok u) (tail_ok u) get_le16)).
Abbreviation Encode now := (λ a, aes128.Encode hmac salt base64 kdf16 aes_cbc a now).

Lemma aes128_rand_bounds b dl full r rl r1 :
  0 ≤ dl ≤ 8100 → aes128.getRandDataLengthForPackData b dl full r = (rl, r1) →
  0 ≤ rl < 1460 ∧ dl + rl < 8141.
Proof.
  intros Hd. unfold aes128.getRandDataLengthForPackData, trapezoidRandom, Intn. cbv zeta.
  intros E. repeat case_match; simplify_eq; zify_bool; try lia.
  - pose proof (Z.mod_pos_bound (draws r (rpos r)) (1460 - dl - 9 + 1460) ltac:(lia)). lia.
  - pose proof (Z.mod_pos_bound (draws r (rpos r)) 32 ltac:(lia)). lia.
  - pose proof (Z.mod_pos_bound (draws r (rpos r)) (1460 - dl - 9) ltac:(lia)). lia.
  - pose proof (Z.mod_pos_bound (draws r (rpos r)) (1460 - dl - 9) ltac:(lia)). lia.
Qed.

Lemma aes128_packData_frame a buf data full r :
  Z.of_nat (length data) ≤ 8100 →
  ∃ f r', aes128.packData hmac a buf data full r =
            (aes128.AuthAES128 (aes128.base a) (aes128.auth a) (aes128.user a) (aes128.iv a)
               (aes128.hasSentHeader a) (u32 (aes128.packID a + 1)), buf ++ f, r') ∧
          good_frame (head_ok (aes128.user a)) (tail_ok (aes128.user a)) get_le16 (aes128.packID a) data f.
Proof.
  intros Hd. unfold aes128.packData.
  destruct (aes128.getRandDataLengthForPackData _ _ _ r) as [rl r1] eqn:E.
  apply aes128_rand_bounds in E as [Hrl Hsum]; [|lia].
  set (k := aes128.macKey (aes128.user a) (aes128.packID a)).
  pose proof (frame_appended (head_ok (aes128.user a)) (tail_ok (aes128.user a)) length_le16 get_le16_put
    (aes128.packID a) buf data rl r1 (λ x, take 2 (hmac k x)) (λ x, take 4 (hmac k x))) as H.
  cbn zeta in H. cbv zeta. destruct (packRandData _ _ _ _) as [b3 r2].
  destruct H as (f & -> & Hg); [lia|..|by exists f, r2].
  1-2: intros x; rewrite length_take; pose proof (hmac_len k x); lia.
  1-2: intros x; intros; by apply bool_decide_eq_true.
  destruct (rl <? 128); lia.
Qed.

(** What sending may change: the numbering of the frames. *)
Definition sent_from (a : aes128.authAES128) (id : Z) : aes128.authAES128 :=
  aes128.AuthAES128 (aes128.base a) (aes128.auth a) (aes128.user a) (aes128.iv a) (aes128.hasSentHeader a) id.

Lemma aes128_loop_frames fuel : ∀ a buf b full r,
  (length b < fuel)%nat →
  ∃ ds fs id' r', aes128.encode_loop hmac fuel a buf b full r = (sent_from a id', buf ++ concat fs, r') ∧
                  framed (aes128.user a) (aes128.packID a) ds fs id' ∧ concat ds = b.
Proof.
  induction fuel as [|fuel IH]; intros a buf b full r Hf; [lia|]. cbn [aes128.encode_loop].
  destruct (8100 <? Z.of_nat (length b)) eqn:E; zify_bool.
  - set (n := Z.to_nat 8100). assert (Z.of_nat n = 8100) as Hn by (unfold n; lia). clearbody n.
    destruct (aes128_packData_frame a buf (take n b) full r) as (f & r1 & -> & Hg); [rewrite length_take; lia|].
    fold (sent_from a (u32 (aes128.packID a + 1))).
    destruct (IH (sent_from a (u32 (aes128.packID a + 1))) (buf ++ f) (drop n b) full r1)
      as (ds & fs & id' & r' & -> & HF & Hc); [rewrite length_drop; lia|].
    exists (take n b :: ds), (f :: fs), id', r'. simpl. rewrite <-app_assoc, Hc, take_drop.
    split_and!; [done|by econstructor; [split|]|done].
  - destruct b as [|x b].
    + exists [], [], (aes128.packID a), r. simpl. rewrite app_nil_r. split_and!; [by destruct a|constructor|done].
    + destruct (aes128_packData_frame a buf (x :: b) full r) as (f & r1 & -> & Hg); [lia|].
      exists [x :: b], [f], (u32 (aes128.packID a + 1)), r1. simpl. rewrite !app_nil_r.
      split_and!; [done|econstructor; [by split|constructor]|done].
Qed.

Lemma aes128_writes_frames now ws : ∀ a c r,
  aes128.hasSentHeader a = true → c_wbudget c = None →
  ∃ ds fs id' c' r', Conn_Writes (Encode now) ws a c r = (sent_from a id', c', r') ∧
    c_out c' = c_out c ++ concat fs ∧ framed (aes128.user a) (aes128.packID a) ds fs id' ∧ concat ds = concat ws.
Proof.
  induction ws as [|w ws IH]; intros a c r Ha Hb.
  - exists [], [], (aes128.packID a), c, r. simpl. rewrite app_nil_r.
    split_and!; [by destruct a|done|constructor|done].
  - cbn [Conn_Writes]. unfold Conn_Write, aes128.Encode at 1. rewrite Ha.
    destruct (aes128_loop_frames (S (length w)) a [] w (Z.of_nat (length w)) r)
      as (ds & fs & id1 & r1 & -> & HF & Hc); [lia|].
    rewrite conn_write_unbounded by done. cbn [app].
    destruct (IH (sent_from a id1) (set_out (c_out c ++ concat fs) None c) r1 Ha eq_refl)
      as (ds2 & fs2 & id2 & c2 & r2 & -> & Ho & HF2 & Hc2).
    exists (ds ++ ds2), (fs ++ fs2), id2, c2, r2. simpl in *. rewrite Ho, !concat_app, Hc, Hc2, app_assoc.
    split_and!; [done|done|by eapply framed_app|done].
Qed.

(** Auth_aes128: after the header, a sequence of [Write]s by a
    sender whose next frame number is the receiver's, cut into arbitrary pieces,
    is decoded to exactly the written bytes, and the two frame counters agree
    again at the end; the MAC keys of every frame match on both sides. *)
Theorem aes128_roundtrip now ws a c r a' c' r' chunks :
  aes128.hasSentHeader a = true → c_wbudget c = None →
  Conn_Writes (Encode now) ws a c r = (a', c', r') → c_out c' = c_out c ++ concat chunks →
  feed (aes128.Decode hmac (aes128.user a)) (RecvState false (aes128.packID a)) [] [] chunks =
    (RecvState false (aes128.packID a'), concat ws, [], DOk).
Proof.
  intros Ha Hb HW Hc.
  destruct (aes128_writes_frames now ws a c r Ha Hb) as (ds & fs & id' & c2 & r2 & E & Ho & HF & Hd).
  rewrite E in HW. simplify_eq. rewrite Ho in Hc. apply app_inv_head in Hc.
  destruct (feed_framed (FL := frame_laws _ _ _ _ _ _) (aes128.Decode hmac (aes128.user a))
    (decode_is_loop _ _ _ _ _ _) chunks (aes128.packID a) id' (RecvState false (aes128.packID a)) [] [] ds fs)
    as (t' & -> & E2); [done|done|done|by intros ->|].
  by rewrite E2, Hd.
Qed.
End Aes128_roundtrip.

(** *** Witnesses *)
Definition w_rng : rng := Rng (λ i, Z.of_nat i) 0.
Definition w_base : Base := MkBase [1; 2; 3] 9 [].
Definition w_conn : conn := Conn [] io_EOF [] None io_EOF.
Definition w_sha1 : sha1v4.authSHA1V4 := sha1v4.AuthSHA1V4 w_base newAuthData [7] true.
Definition w_aes : aes128.authAES128 := aes128.AuthAES128 w_base newAuthData (UserData [5] [0; 0; 0; 1]) [7] true 1.
(** Stands for an HMAC: sixteen bytes that depend on key and data. *)
Definition w_hmac (k d : list Z) : list Z := repeat (u8 (foldl Z.add 0 (k ++ d))) 16.
Definition w_writes : list (list Z) := [[10; 11]; [12]].

Lemma sha1v4_roundtrip_witness : ∃ id',
  feed sha1v4.Decode (RecvState false 0) [] []
    ((λ x, [x]) <$> c_out (Conn_Writes (λ a, sha1v4.Encode (λ k _, k) a 0) w_writes w_sha1 w_conn w_rng).1.2) =
  (RecvState false id', [10; 11; 12], [], DOk).
Proof.
  eapply (sha1v4_roundtrip (λ k _, k) w_sha1 0 w_writes w_conn w_rng); try (vm_compute; reflexivity).
Defined.

Lemma sha1v4_short_frame_panics_witness :
  ∃ st' src, sha1v4.Decode (RecvState false 0) [] (short_frame ++ []) = (st', [], src, DPanic).
Proof. apply (sha1v4_short_frame_panics (RecvState false 0) [] []). reflexivity. Defined.

Lemma aes128_roundtrip_witness :
  let '(a', c', _) := Conn_Writes (λ a, aes128.Encode w_hmac [] (λ k, k) (λ k, k) (λ _ d, Ret d) a 0) w_writes w_aes w_conn w_rng in
  feed (aes128.Decode w_hmac (aes128.user w_aes)) (RecvState false 1) [] [] ((λ x, [x]) <$> c_out c') =
  (RecvState false (aes128.packID a'), [10; 11; 12], [], DOk).
Proof.
  destruct (Conn_Writes _ _ _ _ _) as [[a' c'] r'] eqn:E.
  apply (aes128_roundtrip w_hmac [] (λ k, k) (λ k, k) (λ _ d, Ret d)
    (λ k d, eq_ind_r (λ n, (16 ≤ n)%nat) (le_n 16) (repeat_length _ 16)) 0 w_writes w_aes w_conn w_rng a' c' r');
    [reflexivity|reflexivity|exact E|].
  change (c_out w_conn) with (@nil Z). rewrite app_nil_l.
  induction (c_out c') as [|x l IH]; [done|]. rewrite fmap_cons. simpl. f_equal. exact IH.
Defined.
