(* ===== verification/SsrChain.v ===== *)
(** * Package ssr/protocol: auth_chain_a and auth_chain_b.

    Models [src/ssr/protocol/auth_chain_a.go], [auth_chain_b.go] and
    [src/ssr/tools/random.go]. Each frame's length is masked with the previous
    frame's hash, its padding comes from a generator seeded with that hash, and
    the data is RC4-encrypted inside the padding. [InitFromBinAndLength] writes
    the length into the hash it is given (the caller's slice), which is modelled:
    the operations return the changed hash. HMAC-MD5, RC4, AES-CBC and base64
    are parameters. *)
From S2P Require Import Prelude GoIO GoNet Cipher StreamConn SsrAuth.
From stdpp Require Import sorting.
Local Open Scope Z_scope.

(** ** [XorShift128Plus] *)
Definition u64 (z : Z) : Z := z mod 2 ^ 64.

Record XorShift128Plus := XorShift { s0 : Z; s1 : Z }.

Definition Next (r : XorShift128Plus) : Z * XorShift128Plus :=
  let x := s0 r in
  let y := s1 r in
  let x1 := Z.lxor x (u64 (Z.shiftl x 23)) in
  let x2 := Z.lxor x1 (Z.lxor (Z.lxor y (Z.shiftr x1 17)) (Z.shiftr y 26)) in
  (u64 (x2 + y), XorShift y x2).

#[global] Arguments Next : simpl never.

(** [InitFromBin]: for fewer than 16 bytes the padded copy is a new variable and
    [full] stays nil, so slicing it panics. *)
Definition InitFromBin (bin : list Z) : res XorShift128Plus :=
  if (length bin <? 16)%nat then Panic
  else Ret (XorShift (get_le64 bin) (get_le64 (drop 8 bin))).

(** [InitFromBinAndLength]: the seeded generator and [bin] with its first two
    bytes overwritten; a shorter [bin] panics. *)
Definition InitFromBinAndLength (bin : list Z) (len : Z) : res (XorShift128Plus * list Z) :=
  if (length bin <? 16)%nat then Panic
  else
    let full := le16 (u16 len) ++ drop 2 bin in
    let r := XorShift (get_le64 full) (get_le64 (drop 8 full)) in
    Ret (Nat.iter 4 (λ r, (Next r).2) r, full).

(** [getRandStartPos]; the operand of the last [%] is below 2^63. *)
Definition getRandStartPos (len : Z) (r : XorShift128Plus) : Z * XorShift128Plus :=
  if len =? 0 then (0, r)
  else let '(x, r1) := Next r in (x mod 8589934609 mod len, r1).

(** The tail both variants end with. *)
Definition rand_by_size (len : Z) (r : XorShift128Plus) : Z * XorShift128Plus :=
  let '(x, r1) := Next r in
  (if 1300 <? len then x mod 31 else if 900 <? len then x mod 127 else
   if 400 <? len then x mod 521 else x mod 1021, r1).

(** [authChainA.getRandLength]: padding length, the hash, the generator. *)
Definition chainA_getRandLength (len : Z) (hash : list Z) (r : XorShift128Plus) : res (Z * list Z * XorShift128Plus) :=
  if 1440 <? len then Ret (0, hash, r) else
  match InitFromBinAndLength hash len with
  | Ret (r1, hash1) => let '(x, r2) := rand_by_size len r1 in Ret (x, hash1, r2)
  | Fail e => Fail e
  | Panic => Panic
  end.

(** ** auth_chain_b's table of sizes *)

(** [sort.Search(n, f)]: binary search between [lo] and [hi]. *)
Fixpoint search_loop (fuel : nat) (f : nat → bool) (lo hi : nat) : nat :=
  match fuel with
  | O => lo
  | S k =>
      if (lo <? hi)%nat then
        let h := Nat.div2 (lo + hi) in
        if f h then search_loop k f lo h else search_loop k f (S h) hi
      else lo
  end.
Definition sort_Search (n : nat) (f : nat → bool) : nat := search_loop (S n) f 0 n.

Fixpoint draw_sizes (n : nat) (r : XorShift128Plus) : list Z * XorShift128Plus :=
  match n with
  | O => ([], r)
  | S k =>
      let '(x, r1) := Next r in
      let '(l, r2) := draw_sizes k r1 in (x mod 2340 mod 2040 mod 1440 :: l, r2)
  end.

Record dataSizes := DataSizes { dataSizeList : list Z; dataSizeList2 : list Z }.

(** [initDataSize]: the lists and the server's generator. *)
Definition initDataSize (key : list Z) : res (dataSizes * XorShift128Plus) :=
  match InitFromBin key with
  | Ret r =>
      let '(x, r1) := Next r in
      let '(l1, r2) := draw_sizes (Z.to_nat (x mod 8 + 4)) r1 in
      let '(y, r3) := Next r2 in
      let '(l2, r4) := draw_sizes (Z.to_nat (y mod 16 + 8)) r3 in
      Ret (DataSizes (merge_sort Z.le l1) (merge_sort Z.le l2), r4)
  | Fail e => Fail e
  | Panic => Panic
  end.

(** One lookup in a list of sizes: [pos] and [finalPos]. *)
Definition size_pos (l : list Z) (need : Z) (r : XorShift128Plus) : nat * nat * XorShift128Plus :=
  let pos := sort_Search (length l) (λ i, need <=? byte_at l i) in
  let '(x, r1) := Next r in
  (pos, (pos + Z.to_nat (x mod Z.of_nat (length l)))%nat, r1).

Definition chainB_getRandLength (sizes : dataSizes) (overhead len : Z) (hash : list Z) (r : XorShift128Plus)
    : res (Z * list Z * XorShift128Plus) :=
  if 1440 <=? len then Ret (0, hash, r) else
  match InitFromBinAndLength hash len with
  | Ret (r1, hash1) =>
      let '(_, fp, r2) := size_pos (dataSizeList sizes) (len + overhead) r1 in
      if (fp <? length (dataSizeList sizes))%nat
      then Ret (byte_at (dataSizeList sizes) fp - len - overhead, hash1, r2) else
      let '(pos, fp, r3) := size_pos (dataSizeList2 sizes) (len + overhead) r2 in
      if (fp <? length (dataSizeList2 sizes))%nat
      then Ret (byte_at (dataSizeList2 sizes) fp - len - overhead, hash1, r3) else
      if (fp <? pos + length (dataSizeList2 sizes) - 1)%nat then Ret (0, hash1, r3) else
      let '(x, r4) := rand_by_size len r3 in Ret (x, hash1, r4)
  | Fail e => Fail e
  | Panic => Panic
  end.

(** ** The connection *)

Record authChain := AuthChain {
  base : Base;
  auth : authData;
  user : userData;
  iv : list Z;
  salt : gostring;
  hasSentHeader : bool;
  rawTrans : bool;
  lastClientHash : list Z;
  lastServerHash : list Z;
  encrypter : streamState;
  decrypter : streamState;
  randomClient : XorShift128Plus;
  randomServer : XorShift128Plus;
  packID : Z;
  recvID : Z;
}.

(** Updates of one side. *)
Definition set_client (a : authChain) (sent : bool) (h : list Z) (e : streamState) (r : XorShift128Plus) (id : Z) : authChain :=
  AuthChain (base a) (auth a) (user a) (iv a) (salt a) sent (rawTrans a) h (lastServerHash a) e (decrypter a)
    r (randomServer a) id (recvID a).
Definition set_server (a : authChain) (raw : bool) (h : list Z) (d : streamState) (r : XorShift128Plus) (id : Z) : authChain :=
  AuthChain (base a) (auth a) (user a) (iv a) (salt a) (hasSentHeader a) raw (lastClientHash a) h (encrypter a) d
    (randomClient a) r (packID a) id.

Definition errAuthChainLengthError := errNew "auth_chain decode data wrong length".
Definition errAuthChainChksumError := errNew "auth_chain decode data wrong checksum".

Section Chain.
Context (HmacMD5 : list Z → list Z → list Z) (base64 : list Z → gostring) (kdf16 : gostring → list Z)
        (aes_cbc : list Z → list Z → res (list Z)) (rc4 : list Z → Stream).
(** The field [randDataLength]. *)
Context (randDataLength : Z → list Z → XorShift128Plus → res (Z * list Z * XorShift128Plus)).

(** [initUserData]. *)
Definition initUserData (b : Base) (r : rng) : userData * rng :=
  let fallback := let '(id, r') := rand_bytes 4 r in (UserData (Key b) id, r') in
  match split_byte 58 (Param b) with
  | p0 :: p1 :: _ =>
      match parse_uint 32 p0 with
      | (id, true) => match p1 with [] => fallback | k => (UserData k (le32 id), r) end
      | _ => fallback
      end
  | _ => fallback
  end.

Definition nil_stream : streamState := StreamState (λ _ m, m) [].

(** [StreamConn] of either variant; [rnd] is the server's generator
    ([initDataSize] has seeded it for auth_chain_b). *)
Definition StreamConn (b : Base) (u : userData) (salt : gostring) (shared : authData) (iv : list Z)
    (rnd : XorShift128Plus) (r : rng) : authChain * authData * rng :=
  let '(shared', own, r') := authData_next shared r in
  (AuthChain b own u iv salt false false [] [] nil_stream nil_stream (XorShift 0 0) rnd 1 1, shared', r').

Definition macKey (a : authChain) (id : Z) : list Z := userKey (user a) ++ le32 id.

(** What a round of [Decode] finds at the front of the source: not yet a whole
    frame, an error, a slice out of range, or a frame of [n] bytes. *)
Inductive step_result :=
  | SWait (a : authChain) | SErr (a : authChain) (e : error) | SPanic (a : authChain)
  | SNext (a : authChain) (out : list Z) (n : nat).

(** The round once the padding length [rl] is known. *)
Definition decode_frame (a : authChain) (dataLength rl : Z) (hash1 : list Z) (rnd1 : XorShift128Plus) (src : list Z)
    : step_result :=
  let len := dataLength + rl in
  if 4096 <=? len then SErr (set_server a true hash1 (decrypter a) rnd1 (recvID a)) errAuthChainLengthError else
  if Z.of_nat (length src) <? 4 + len then SWait (set_server a (rawTrans a) hash1 (decrypter a) rnd1 (recvID a)) else
  let n := Z.to_nat len in
  let serverHash := HmacMD5 (macKey a (recvID a)) (take (n + 2) src) in
  if negb (bytes_Equal (take 2 serverHash) (take 2 (drop (n + 2) src)))
  then SErr (set_server a true hash1 (decrypter a) rnd1 (recvID a)) errAuthChainChksumError else
  let '(start, rnd2) := if (0 <? dataLength) && (0 <? rl) then getRandStartPos rl rnd1 else (0, rnd1) in
  let wanted := take (Z.to_nat dataLength) (drop (Z.to_nat (2 + start)) src) in
  let '(dec1, plain) := xor (decrypter a) wanted in
  if (recvID a =? 1) && (dataLength <? 2) then SPanic (set_server a (rawTrans a) serverHash dec1 rnd2 (recvID a)) else
  SNext (set_server a (rawTrans a) serverHash dec1 rnd2 (u32 (recvID a + 1)))
    (if recvID a =? 1 then drop 2 plain else plain) (n + 4)%nat.

Definition decode_step (a : authChain) (src : list Z) : step_result :=
  if (length (lastServerHash a) <? 16)%nat then SPanic a else
  let dataLength := Z.lxor (get_le16 (take 2 src)) (get_le16 (drop 14 (lastServerHash a))) in
  match randDataLength dataLength (lastServerHash a) (randomServer a) with
  | Ret (rl, hash1, rnd1) => decode_frame a dataLength rl hash1 rnd1 src
  | _ => SPanic a
  end.

(** The loop of [Decode]. *)
Fixpoint decode_loop (fuel : nat) (a : authChain) (dst src : list Z)
    : authChain * list Z * list Z * decode_result :=
  match fuel with
  | O => (a, dst, src, DOk)
  | S f =>
      if (length src <=? 4)%nat then (a, dst, src, DOk) else
      match decode_step a src with
      | SWait a1 => (a1, dst, src, DOk)
      | SErr a1 e => (a1, dst, [], DErr e)
      | SPanic a1 => (a1, dst, src, DPanic)
      | SNext a1 out n => decode_loop f a1 (dst ++ out) (drop n src)
      end
  end.

Definition Decode (a : authChain) (dst src : list Z) : authChain * list Z * list Z * decode_result :=
  if rawTrans a then (a, dst ++ src, [], DOk) else decode_loop (length src) a dst src.

(** [putMixedRandDataAndData]. *)
Definition putMixedRandDataAndData (a : authChain) (buf data : list Z) (r : rng)
    : res (list Z * list Z * XorShift128Plus * rng) :=
  match randDataLength (Z.of_nat (length data)) (lastClientHash a) (randomClient a) with
  | Ret (rl, hash1, rnd1) =>
      match data with
      | [] => let '(buf1, r1) := AppendRandBytes buf rl r in Ret (buf1, hash1, rnd1, r1)
      | _ =>
          if 0 <? rl then
            let '(start, rnd2) := getRandStartPos rl rnd1 in
            let '(buf1, r1) := AppendRandBytes buf start r in
            let '(buf2, r2) := AppendRandBytes (buf1 ++ data) (rl - start) r1 in
            Ret (buf2, hash1, rnd2, r2)
          else Ret (buf ++ data, hash1, rnd1, r)
      end
  | Fail e => Fail e
  | Panic => Panic
  end.

(** [packData]: the new state and the buffer. [data] is encrypted in the caller's
    slice. *)
Definition packData (a : authChain) (buf data : list Z) (r : rng) : res (authChain * list Z * rng) :=
  let '(enc1, ct) := xor (encrypter a) data in
  let k := macKey a (packID a) in
  if (length (lastClientHash a) <? 16)%nat then Panic else
  let len := Z.lxor (u16 (Z.of_nat (length ct))) (get_le16 (drop 14 (lastClientHash a))) in
  match putMixedRandDataAndData a (buf ++ le16 len) ct r with
  | Ret (buf1, _, rnd1, r1) =>
      let hash := HmacMD5 k (drop (length buf) buf1) in
      Ret (set_client a (hasSentHeader a) hash enc1 rnd1 (u32 (packID a + 1)), buf1 ++ take 2 hash, r1)
  | Fail e => Fail e
  | Panic => Panic
  end.

(** [initRC4Cipher]. *)
Definition initRC4Cipher (a : authChain) (h : list Z) : Stream :=
  rc4 (kdf16 (base64 (userKey (user a)) ++ base64 h)).

(** [packAuthData] into the (empty) buffer of the first write. *)
Definition packAuthData (a : authChain) (now : Z) (buf data : list Z) (r : rng) : res (authChain * list Z * rng) :=
  let k := iv a ++ Key (base a) in
  let '(b1, r1) := AppendRandBytes buf 4 r in
  let h := HmacMD5 k b1 in
  let s := initRC4Cipher a h in
  let a1 := AuthChain (base a) (auth a) (user a) (iv a) (salt a) (hasSentHeader a) (rawTrans a) h (lastServerHash a)
              (StreamState s []) (StreamState s []) (randomClient a) (randomServer a) (packID a) (recvID a) in
  let b2 := b1 ++ take 8 h in
  let b3 := b2 ++ le32 (Z.lxor (get_le32 (userID (user a))) (get_le32 (take 4 (drop 8 h)))) in
  match aes128.putEncryptedData (salt a) base64 kdf16 aes_cbc (auth a) (userKey (user a)) (Overhead (base a)) 0 now b3 with
  | Ret b4 =>
      let sh := HmacMD5 (userKey (user a)) (drop 12 b4) in
      packData (set_server a1 (rawTrans a1) sh (decrypter a1) (randomServer a1) (recvID a1)) (b4 ++ take 4 sh) data r1
  | _ => Ret (a1, [], r1)
  end.

Fixpoint encode_loop (fuel : nat) (a : authChain) (buf b : list Z) (r : rng) : res (authChain * list Z * rng) :=
  match fuel with
  | O => Ret (a, buf, r)
  | S f =>
      if 2800 <? Z.of_nat (length b) then
        let n := Z.to_nat 2800 in
        match packData a buf (take n b) r with
        | Ret (a1, buf1, r1) => encode_loop f a1 buf1 (drop n b) r1
        | Fail e => Fail e
        | Panic => Panic
        end
      else match b with [] => Ret (a, buf, r) | _ => packData a buf b r end
  end.

Definition Encode (a : authChain) (now : Z) (buf b : list Z) (r : rng) : res (authChain * list Z * rng) :=
  if hasSentHeader a then encode_loop (S (length b)) a buf b r
  else
    let '(n, r0) := getDataLength b r in
    match packAuthData a now buf (take n b) r0 with
    | Ret (a1, buf1, r1) =>
        encode_loop (S (length b)) (set_client a1 true (lastClientHash a1) (encrypter a1) (randomClient a1) (packID a1))
          buf1 (drop n b) r1
    | Fail e => Fail e
    | Panic => Panic
    end.

(** Datagrams. *)
Definition udpGetRandLength (hash : list Z) : res (Z * XorShift128Plus) :=
  match InitFromBin hash with
  | Ret r => let '(x, r1) := Next r in Ret (x mod 127, r1)
  | Fail e => Fail e
  | Panic => Panic
  end.
Definition packet_stream (u : userData) (md5Data : list Z) : Stream :=
  rc4 (kdf16 (base64 (userKey u) ++ base64 md5Data)).

Definition DecodePacket (b : Base) (u : userData) (d : list Z) : res (list Z) :=
  if (length d <? 9)%nat then Fail errAuthChainLengthError else
  let body := take (length d - 1) d in
  if negb (bytes_Equal (take 1 (HmacMD5 (userKey u) body)) (drop (length d - 1) d)) then Fail errAuthChainChksumError else
  let md5Data := HmacMD5 (Key b) (drop (length d - 8) body) in
  match udpGetRandLength md5Data with
  | Ret (rl, _) =>
      if Z.of_nat (length d) - 8 - rl <? 0 then Panic else
      Ret (packet_stream u md5Data [] (take (length d - 8 - Z.to_nat rl) d))
  | Fail e => Fail e
  | Panic => Panic
  end.

Definition EncodePacket (b : Base) (u : userData) (buf d : list Z) (r : rng) : res (list Z * rng) :=
  let '(ad, r1) := rand_bytes 3 r in
  let md5Data := HmacMD5 (Key b) ad in
  match udpGetRandLength md5Data with
  | Ret (rl, _) =>
      let b1 := buf ++ packet_stream u md5Data [] d in
      let '(b2, r2) := AppendRandBytes b1 rl r1 in
      let b3 := b2 ++ ad ++ le32 (Z.lxor (get_le32 (userID u)) (get_le32 (take 4 md5Data))) in
      Ret (b3 ++ take 1 (HmacMD5 (userKey u) b3), r2)
  | Fail e => Fail e
  | Panic => Panic
  end.
End Chain.

(** ** The interface of the padding lengths *)

(** What a frame relies on: for frames of legal size the call returns, the padding
    is not negative and keeps the frame below the limit of [Decode]; only the first
    two bytes of the hash change; and the result depends on the rest of the hash
    alone, so the call can be repeated. *)
Class RandLaws (rand_length : Z → list Z → XorShift128Plus → res (Z * list Z * XorShift128Plus)) : Prop := {
  rl_total n h r : 0 ≤ n ≤ 2800 → length h = 16%nat →
    ∃ x h' r', rand_length n h r = Ret (x, h', r') ∧ 0 ≤ x ∧ n + x < 4096 ∧ length h' = 16%nat ∧ drop 2 h' = drop 2 h;
  rl_stable n h1 h2 r1 r2 x h1' r1' : length h1 = length h2 → drop 2 h1 = drop 2 h2 →
    rand_length n h1 r1 = Ret (x, h1', r1') →
    ∃ h2' r2', rand_length n h2 r2 = Ret (x, h2', r2') ∧ (0 < x → r2' = r1');
}.

Lemma init_stable h1 h2 n : length h1 = length h2 → drop 2 h1 = drop 2 h2 →
  InitFromBinAndLength h1 n = InitFromBinAndLength h2 n.
Proof. intros Hl Hd. unfold InitFromBinAndLength. by rewrite Hl, Hd. Qed.

Lemma init_total h n : length h = 16%nat →
  ∃ r h', InitFromBinAndLength h n = Ret (r, h') ∧ length h' = 16%nat ∧ drop 2 h' = drop 2 h.
Proof.
  intros Hl. unfold InitFromBinAndLength. rewrite Hl. eexists _, _. split; [reflexivity|].
  split; [rewrite length_app, length_drop, Hl; done|done].
Qed.

Lemma rand_by_size_range len r : 0 ≤ (rand_by_size len r).1 < 1021.
Proof.
  unfold rand_by_size. destruct (Next r) as [x r1]. simpl. pose proof (Z.mod_pos_bound x 31).
  pose proof (Z.mod_pos_bound x 127). pose proof (Z.mod_pos_bound x 521). pose proof (Z.mod_pos_bound x 1021).
  repeat case_match; lia.
Qed.

#[export] Instance chainA_laws : RandLaws chainA_getRandLength.
Proof.
  split.
  - intros n h r Hn Hl. unfold chainA_getRandLength. destruct (1440 <? n) eqn:E; zify_bool.
    + exists 0, h, r. split_and!; try done; lia.
    + destruct (init_total h n Hl) as (r1 & h' & -> & Hl' & Hd). pose proof (rand_by_size_range n r1).
      destruct (rand_by_size n r1) as [x r2]. simpl in *. exists x, h', r2. split_and!; try done; lia.
  - intros n h1 h2 r1 r2 x h1' r1' Hl Hd. unfold chainA_getRandLength.
    destruct (1440 <? n); intros H; [simplify_eq; by eexists _, _|].
    rewrite <-(init_stable h1 h2) by done. case_match; simplify_eq. case_match; simplify_eq.
    case_match; simplify_eq. by eexists _, _.
Qed.

(** [sort.Search] returns an index where the predicate holds, or the length. *)
Lemma search_loop_spec f n fuel : ∀ lo hi, (lo ≤ hi ≤ n)%nat → (hi - lo < fuel)%nat → ((hi < n)%nat → f hi = true) →
  (search_loop fuel f lo hi < n)%nat → f (search_loop fuel f lo hi) = true.
Proof.
  induction fuel as [|k IH]; intros lo hi Hb Hf Hh; [lia|]. cbn [search_loop].
  destruct (lo <? hi)%nat eqn:E; zify_bool.
  - pose proof (Nat.div2_odd (lo + hi)) as Hd. destruct (Nat.odd (lo + hi)); simpl in Hd;
      (destruct (f (Nat.div2 (lo + hi))) eqn:Ef; apply IH; try lia; auto).
  - intros Hlt. replace lo with hi in * by lia. auto.
Qed.

Lemma StronglySorted_le (l : list Z) i j x y :
  StronglySorted Z.le l → (i ≤ j)%nat → l !! i = Some x → l !! j = Some y → x ≤ y.
Proof.
  intros HS. revert i j. induction HS as [|z l HS IH HF]; intros i j Hij Hi Hj; [done|].
  destruct i as [|i], j as [|j]; simpl in *; simplify_eq; try lia.
  - rewrite Forall_forall in HF. apply HF. by eapply list_elem_of_lookup_2.
  - eapply IH; [|done..]. lia.
Qed.

(** A table of sizes as [initDataSize] leaves it. *)
Record sizes_ok (l : list Z) : Prop := {
  so_sorted : StronglySorted Z.le l;
  so_range : Forall (λ x, 0 ≤ x < 1440) l;
  so_nonempty : l ≠ [];
}.

Lemma size_pos_ok l need r pos fp r' : sizes_ok l → size_pos l need r = (pos, fp, r') → (fp < length l)%nat →
  need ≤ byte_at l fp < 1440.
Proof.
  intros [HS HR _] E Hlt. unfold size_pos in E. destruct (Next r) as [x r1]. simplify_eq.
  set (pos := sort_Search (length l) (λ i, need <=? byte_at l i)) in *.
  set (k := Z.to_nat (x mod Z.of_nat (length l))) in *. clearbody k.
  assert (need ≤ byte_at l pos) as Hp.
  { apply Z.leb_le.
    apply (search_loop_spec (λ i, need <=? byte_at l i) (length l) (S (length l)) 0 (length l)); try lia.
    change (pos < length l)%nat. lia. }
  destruct (lookup_lt_is_Some_2 l pos) as [v Hv]; [lia|]. destruct (lookup_lt_is_Some_2 l (pos + k)) as [w Hw]; [lia|].
  unfold byte_at in *. rewrite Hv in Hp. rewrite Hw. simpl in *.
  pose proof (StronglySorted_le l pos (pos + k) v w HS ltac:(lia) Hv Hw).
  pose proof (Forall_lookup_1 _ _ _ _ HR Hw). simpl in *. lia.
Qed.

Lemma draw_sizes_range n : ∀ r, Forall (λ x, 0 ≤ x < 1440) (draw_sizes n r).1 ∧ length (draw_sizes n r).1 = n.
Proof.
  induction n as [|n IH]; intros r; [done|]. cbn [draw_sizes]. destruct (Next r) as [x r1].
  specialize (IH r1). destruct (draw_sizes n r1) as [l r2]. destruct IH as [IH1 IH2]. cbn [fst length] in *.
  split; [|by f_equal].
  constructor; [apply Z.mod_pos_bound; lia|done].
Qed.

Lemma sorted_sizes_ok n r : (0 < n)%nat → sizes_ok (merge_sort Z.le (draw_sizes n r).1).
Proof.
  intros Hn. destruct (draw_sizes_range n r) as [HR HL]. split.
  - apply StronglySorted_merge_sort; apply _.
  - by rewrite merge_sort_Permutation.
  - intros E%(f_equal length). rewrite (Permutation_length (merge_sort_Permutation Z.le _)) in E.
    simpl in E. lia.
Qed.

Lemma initDataSize_ok key ds r :
  initDataSize key = Ret (ds, r) → sizes_ok (dataSizeList ds) ∧ sizes_ok (dataSizeList2 ds).
Proof.
  unfold initDataSize. destruct (InitFromBin key) as [r0|e|]; intros E; try done.
  destruct (Next r0) as [x r1]. pose proof (sorted_sizes_ok (Z.to_nat (x mod 8 + 4)) r1) as H1.
  destruct (draw_sizes _ r1) as [l1 r2]. destruct (Next r2) as [y r3].
  pose proof (sorted_sizes_ok (Z.to_nat (y mod 16 + 8)) r3) as H2. destruct (draw_sizes _ r3) as [l2 r4]. simplify_eq.
  pose proof (Z.mod_pos_bound x 8). pose proof (Z.mod_pos_bound y 16). split; [apply H1|apply H2]; lia.
Qed.

Section ChainB.
Context (sizes : dataSizes) (overhead : Z) (Ho : 0 ≤ overhead)
        (H1 : sizes_ok (dataSizeList sizes)) (H2 : sizes_ok (dataSizeList2 sizes)).

Lemma chainB_bound n h r x h' r' :
  chainB_getRandLength sizes overhead n h r = Ret (x, h', r') → 0 ≤ n → 0 ≤ x < 1440.
Proof.
  intros E Hn. unfold chainB_getRandLength in E. destruct (1440 <=? n); [simplify_eq; lia|].
  destruct (InitFromBinAndLength h n) as [[r1 h1]|e|]; simplify_eq.
  destruct (size_pos (dataSizeList sizes) _ r1) as [[p1 f1] r2] eqn:E1.
  destruct (f1 <? _)%nat eqn:Ef; zify_bool.
  { pose proof (size_pos_ok _ _ _ _ _ _ H1 E1 Ef). simplify_eq. lia. }
  destruct (size_pos (dataSizeList2 sizes) _ r2) as [[p2 f2] r3] eqn:E2.
  destruct (f2 <? _)%nat eqn:Ef2; zify_bool.
  { pose proof (size_pos_ok _ _ _ _ _ _ H2 E2 Ef2). simplify_eq. lia. }
  destruct (_ <? _)%nat; [simplify_eq; lia|].
  pose proof (rand_by_size_range n r3). destruct (rand_by_size n r3) as [y r4]. simpl in *. simplify_eq. lia.
Qed.

Lemma chainB_total n h r : length h = 16%nat →
  ∃ x h' r', chainB_getRandLength sizes overhead n h r = Ret (x, h', r') ∧ length h' = 16%nat ∧ drop 2 h' = drop 2 h.
Proof.
  intros Hl. unfold chainB_getRandLength. destruct (1440 <=? n); [by eexists _, _, _|].
  destruct (init_total h n Hl) as (r1 & h' & -> & Hl' & Hd). repeat case_match; simplify_eq; by eexists _, _, _.
Qed.

#[local] Instance chainB_laws : RandLaws (chainB_getRandLength sizes overhead).
Proof.
  split.
  - intros n h r Hn Hl. destruct (chainB_total n h r Hl) as (x & h' & r' & E & Hl' & Hd).
    pose proof (chainB_bound _ _ _ _ _ _ E ltac:(lia)) as Hx. exists x, h', r'.
    split_and!; [done|lia| |done|done]. destruct (decide (n < 1440)); [lia|].
    unfold chainB_getRandLength in E. rewrite (proj2 (Z.leb_le _ _)) in E by lia. simplify_eq. lia.
  - intros n h1 h2 r1 r2 x h1' r1' Hl Hd. unfold chainB_getRandLength.
    destruct (1440 <=? n); intros H; [simplify_eq; by eexists _, _|].
    rewrite <-(init_stable h1 h2) by done. repeat (case_match; simplify_eq); by eexists _, _.
Qed.
End ChainB.

(** ** Frames *)

Lemma lxor_u16 a b : 0 ≤ a < 65536 → 0 ≤ b < 65536 → 0 ≤ Z.lxor a b < 65536.
Proof.
  intros Ha Hb. replace (Z.lxor a b) with (Z.lxor a b mod 2 ^ 16); [apply Z.mod_pos_bound; lia|].
  apply Z.bits_inj'. intros i Hi. destruct (Z.ltb_spec i 16); [by rewrite Z.mod_pow2_bits_low by lia|].
  rewrite Z.mod_pow2_bits_high, Z.lxor_spec by lia.
  by rewrite <-(Z.mod_small a (2 ^ 16)), <-(Z.mod_small b (2 ^ 16)), !Z.mod_pow2_bits_high by lia.
Qed.

Lemma get_le16_range l : wf_bytes l → 0 ≤ get_le16 l < 65536.
Proof.
  intros Hl. unfold get_le16. assert (∀ i, 0 ≤ byte_at l i < 256) as H.
  { intros i. unfold byte_at. destruct (l !! i) eqn:E; simpl; [|lia].
    pose proof (Forall_lookup_1 _ _ _ _ Hl E) as Hb. unfold is_byte in Hb. lia. }
  rewrite lor_shiftl_add by (try apply H; lia). pose proof (H 0%nat). pose proof (H 1%nat). lia.
Qed.

Section Frames.
Context (HmacMD5 : list Z → list Z → list Z).
Context (randDataLength : Z → list Z → XorShift128Plus → res (Z * list Z * XorShift128Plus)) `{!RandLaws randDataLength}.
Context (enc dec : Stream) `{!StreamLaws enc dec}.
(** An MD5 digest has sixteen bytes. *)
Context (hmac_len : ∀ k d, length (HmacMD5 k d) = 16%nat) (hmac_wf : ∀ k d, wf_bytes (HmacMD5 k d)).
Abbreviation packData := (packData HmacMD5 randDataLength).
Abbreviation loop := (decode_loop HmacMD5 randDataLength).

(** A sender ready to frame data. *)
Definition ready (s : authChain) : Prop :=
  length (lastClientHash s) = 16%nat ∧ wf_bytes (lastClientHash s) ∧ st_stream (encrypter s) = enc.

(** The start position both sides draw. *)
Definition start_pos (n x : Z) (r : XorShift128Plus) : Z * XorShift128Plus :=
  if (0 <? n) && (0 <? x) then getRandStartPos x r else (0, r).

Lemma start_pos_range n x r : 0 ≤ x → 0 ≤ (start_pos n x r).1 ≤ x.
Proof.
  intros Hx. unfold start_pos. destruct (_ && _) eqn:E; [|simpl; lia]. apply andb_true_iff in E as [_ E]. zify_bool.
  unfold getRandStartPos. rewrite (proj2 (Z.eqb_neq _ _)) by lia. destruct (Next r) as [y r1]. simpl.
  pose proof (Z.mod_pos_bound (y mod 8589934609) x). lia.
Qed.

(** A frame: masked length, padding around the ciphertext, two bytes of hash. *)
Definition frame_body (s : authChain) (data pre post : list Z) : list Z :=
  le16 (Z.lxor (Z.of_nat (length data)) (get_le16 (drop 14 (lastClientHash s)))) ++
  pre ++ enc (st_hist (encrypter s)) data ++ post.
Definition frame_hash (s : authChain) (data pre post : list Z) : list Z :=
  HmacMD5 (macKey s (packID s)) (frame_body s data pre post).
Definition frame_state (s : authChain) (data pre post : list Z) (rnd : XorShift128Plus) : authChain :=
  set_client s (hasSentHeader s) (frame_hash s data pre post) (StreamState enc (st_hist (encrypter s) ++ data))
    rnd (u32 (packID s + 1)).

Inductive frame_of (s : authChain) (data : list Z) : list Z → authChain → Prop :=
| FrameOf x h rnd pre post :
    randDataLength (Z.of_nat (length data)) (lastClientHash s) (randomClient s) = Ret (x, h, rnd) →
    Z.of_nat (length pre) = (start_pos (Z.of_nat (length data)) x rnd).1 →
    Z.of_nat (length pre) + Z.of_nat (length post) = x →
    Z.of_nat (length data) + x < 4096 →
    frame_of s data (frame_body s data pre post ++ take 2 (frame_hash s data pre post))
      (frame_state s data pre post (start_pos (Z.of_nat (length data)) x rnd).2).

Lemma AppendRandBytes_shape n r : 0 ≤ n →
  ∃ d r', Z.of_nat (length d) = n ∧ ∀ b, AppendRandBytes b n r = (b ++ d, r').
Proof.
  intros Hn. exists (rand_bytes (Z.to_nat n) r).1, (rand_bytes (Z.to_nat n) r).2. split; [|done].
  simpl. rewrite length_fmap, length_seq. lia.
Qed.

Lemma putMixed_shape s (data : list Z) r : Z.of_nat (length data) ≤ 2800 → length (lastClientHash s) = 16%nat →
  ∃ x h rnd pre post r',
    randDataLength (Z.of_nat (length data)) (lastClientHash s) (randomClient s) = Ret (x, h, rnd) ∧
    Z.of_nat (length pre) = (start_pos (Z.of_nat (length data)) x rnd).1 ∧
    Z.of_nat (length pre) + Z.of_nat (length post) = x ∧ Z.of_nat (length data) + x < 4096 ∧
    ∀ buf ct, length ct = length data → putMixedRandDataAndData randDataLength s buf ct r =
      Ret (buf ++ pre ++ ct ++ post, h, (start_pos (Z.of_nat (length data)) x rnd).2, r').
Proof.
  intros Hd Hh. destruct (rl_total (Z.of_nat (length data)) (lastClientHash s) (randomClient s))
    as (x & h & rnd & E & Hx & Hsum & _ & _); [lia|done|].
  pose proof (start_pos_range (Z.of_nat (length data)) x rnd Hx) as Hs. unfold start_pos in *.
  destruct data as [|d0 data].
  - destruct (AppendRandBytes_shape x r Hx) as (d & r1 & Hl & A). exists x, h, rnd, [], d, r1.
    split_and!; [done|done|simpl; lia|done|]. intros buf ct Hct%nil_length_inv. subst ct.
    unfold putMixedRandDataAndData. by rewrite E, A.
  - change (0 <? Z.of_nat (length (d0 :: data))) with true in *. cbn [andb] in *.
    destruct (0 <? x) eqn:E1; zify_bool.
    + destruct (getRandStartPos x rnd) as [st rnd2] eqn:E2. cbn [fst snd] in *.
      destruct (AppendRandBytes_shape st r) as (d1 & r1 & Hl1 & A1); [lia|].
      destruct (AppendRandBytes_shape (x - st) r1) as (d2 & r2 & Hl2 & A2); [lia|].
      exists x, h, rnd, d1, d2, r2. rewrite E2, (proj2 (Z.ltb_lt 0 x)) by lia. split_and!; [done|done|lia|done|].
      intros buf ct Hct. unfold putMixedRandDataAndData. destruct ct as [|c0 ct]; [done|].
      rewrite Hct, E, (proj2 (Z.ltb_lt 0 x)), E2, A1, A2 by lia. by rewrite <-!app_assoc.
    + exists x, h, rnd, [], [], r. rewrite (proj2 (Z.ltb_ge 0 x)) by lia.
      split_and!; [done|done|simpl; lia|done|].
      intros buf ct Hct. unfold putMixedRandDataAndData. destruct ct as [|c0 ct]; [done|].
      rewrite Hct, E, (proj2 (Z.ltb_ge 0 x)) by lia. cbn [app]. by rewrite app_nil_r.
Qed.

(** [packData] appends such a frame to its buffer. *)
Lemma packData_frame s data r : ready s → Z.of_nat (length data) ≤ 2800 →
  ∃ f s' r', frame_of s data f s' ∧ ∀ buf, packData s buf data r = Ret (s', buf ++ f, r').
Proof.
  intros (Hl & Hw & He) Hd. destruct (putMixed_shape s data r Hd Hl) as (x & h & rnd & pre & post & r' & E & Hp & Hs & Hb & Hput).
  exists (frame_body s data pre post ++ take 2 (frame_hash s data pre post)),
    (frame_state s data pre post (start_pos (Z.of_nat (length data)) x rnd).2), r'.
  split; [by eapply FrameOf|]. intros buf. unfold SsrChain.packData, xor. rewrite He.
  rewrite (proj2 (Nat.ltb_ge _ _)) by lia. rewrite stream_length.
  assert (u16 (Z.of_nat (length data)) = Z.of_nat (length data)) as -> by (unfold u16; apply Z.mod_small; lia).
  rewrite Hput by apply stream_length. rewrite <-app_assoc, drop_app_length.
  fold (frame_body s data pre post). fold (frame_hash s data pre post). by rewrite app_assoc.
Qed.

Definition visible (s : authChain) (data : list Z) : list Z := if packID s =? 1 then drop 2 data else data.
Definition sends (s : authChain) (d f : list Z) (s' : authChain) : Prop :=
  ∃ data, frame_of s data f s' ∧ d = visible s data ∧ 0 < Z.of_nat (length data) ≤ 2800 ∧
          (packID s = 1 → (2 ≤ length data)%nat).

(** The receiver is at the sender's frame number, hash and cipher position; the
    first two bytes of its hash and its generator may differ. *)
Record agree (s t : authChain) : Prop := {
  ag_ready : ready s;
  ag_raw : rawTrans t = false;
  ag_user : user t = user s;
  ag_id : recvID t = packID s;
  ag_len : length (lastServerHash t) = 16%nat;
  ag_hash : drop 2 (lastServerHash t) = drop 2 (lastClientHash s);
  ag_dec : st_stream (decrypter t) = dec;
  ag_hist : st_hist (decrypter t) = enc [] (st_hist (encrypter s));
}.

Lemma agree_wait s t h rnd : agree s t → length h = 16%nat → drop 2 h = drop 2 (lastServerHash t) →
  agree s (set_server t (rawTrans t) h (decrypter t) rnd (recvID t)).
Proof. intros [] Hl Hd. split; simpl; try done. congruence. Qed.

Lemma dec_enc h d : dec (enc [] h) (enc h d) = d.
Proof.
  pose proof (stream_inverse (h ++ d)) as H. rewrite stream_app, stream_app_dec, stream_inverse in H.
  by apply app_inv_head in H.
Qed.

Lemma agree_next s t data pre post rnd rnd' :
  agree s t → agree (frame_state s data pre post rnd)
    (set_server t (rawTrans t) (frame_hash s data pre post)
       (StreamState dec (st_hist (decrypter t) ++ enc (st_hist (encrypter s)) data)) rnd' (u32 (recvID t + 1))).
Proof.
  intros [(Hl & Hw & He) Hr Hu Hi _ _ Hd Hh]. split; simpl; try done.
  - split_and!; [apply hmac_len|apply hmac_wf|done].
  - by rewrite Hi.
  - apply hmac_len.
  - by rewrite Hh, stream_app.
Qed.

(** The round's view of a frame's first bytes. *)
Lemma step_head s t (data : list Z) x h rnd :
  agree s t → Z.of_nat (length data) ≤ 2800 →
  randDataLength (Z.of_nat (length data)) (lastClientHash s) (randomClient s) = Ret (x, h, rnd) →
  ∃ h' rnd', length h' = 16%nat ∧ drop 2 h' = drop 2 (lastServerHash t) ∧ (0 < x → rnd' = rnd) ∧
    ∀ src, take 2 src = le16 (Z.lxor (Z.of_nat (length data)) (get_le16 (drop 14 (lastClientHash s)))) →
    decode_step HmacMD5 randDataLength t src = decode_frame HmacMD5 t (Z.of_nat (length data)) x h' rnd' src.
Proof.
  intros Ha Hd E. destruct Ha as [(Hl & Hw & _) _ _ _ Hlt Hh _ _].
  assert (drop 14 (lastServerHash t) = drop 14 (lastClientHash s)) as H14.
  { apply (f_equal (drop 12)) in Hh. by rewrite !drop_drop in Hh. }
  destruct (rl_total (Z.of_nat (length data)) (lastServerHash t) (randomServer t))
    as (x' & h' & rnd' & E' & _ & _ & Hl' & Hd'); [lia|done|].
  destruct (rl_stable _ _ (lastServerHash t) _ (randomServer t) _ _ _ (eq_trans Hl (eq_sym Hlt)) (eq_sym Hh) E)
    as (h2 & r2 & E2 & Hr). rewrite E' in E2. simplify_eq. exists h2, r2. split_and!; [done|done|done|].
  intros src Hsrc. unfold decode_step. rewrite (proj2 (Nat.ltb_ge _ _)) by lia.
  pose proof (get_le16_range _ (wf_bytes_drop 14 _ Hw)) as Hg.
  rewrite Hsrc, H14, <-(app_nil_r (le16 _)), get_le16_le16 by (apply lxor_u16; lia).
  rewrite Z.lxor_assoc, Z.lxor_nilpotent, Z.lxor_0_r, E'. done.
Qed.

Lemma frame_body_length s data pre post :
  length (frame_body s data pre post) = (2 + length pre + length data + length post)%nat.
Proof. unfold frame_body. rewrite !length_app, length_le16, stream_length. lia. Qed.

Lemma frame_body_head s data pre post rest :
  take 2 (frame_body s data pre post ++ rest) = le16 (Z.lxor (Z.of_nat (length data)) (get_le16 (drop 14 (lastClientHash s)))).
Proof. done. Qed.

(** The start position only depends on the generator when there is padding. *)
Lemma start_pos_stable n x r r' : (0 < x → r = r') → (start_pos n x r).1 = (start_pos n x r').1.
Proof.
  intros Hr. unfold start_pos. destruct (0 <? n); [|done]. destruct (0 <? x) eqn:E; [|done].
  zify_bool. by rewrite Hr by done.
Qed.

Lemma frame_wanted s data pre post t rest :
  take (length data) (drop (Z.to_nat (2 + Z.of_nat (length pre))) ((frame_body s data pre post ++ t) ++ rest)) =
  enc (st_hist (encrypter s)) data.
Proof.
  unfold frame_body. rewrite <-!app_assoc. rewrite app_assoc, drop_app_ge by (rewrite length_app, length_le16; lia).
  rewrite length_app, length_le16. replace (Z.to_nat _ - _)%nat with 0%nat by lia. rewrite drop_0.
  rewrite <-(stream_length (enc := enc) (dec := dec) (st_hist (encrypter s)) data). apply take_app_length.
Qed.

Lemma step_frame s t data x h rnd pre post :
  agree s t → Z.of_nat (length data) ≤ 2800 → (packID s = 1 → (2 ≤ length data)%nat) →
  randDataLength (Z.of_nat (length data)) (lastClientHash s) (randomClient s) = Ret (x, h, rnd) →
  Z.of_nat (length pre) = (start_pos (Z.of_nat (length data)) x rnd).1 →
  Z.of_nat (length pre) + Z.of_nat (length post) = x → Z.of_nat (length data) + x < 4096 →
  let f := frame_body s data pre post ++ take 2 (frame_hash s data pre post) in
  ∃ t', agree (frame_state s data pre post (start_pos (Z.of_nat (length data)) x rnd).2) t' ∧
    ∀ rest, decode_step HmacMD5 randDataLength t (f ++ rest) = SNext t' (visible s data) (length f).
Proof.
  intros Ha Hd H1 E Hpre Hx Hlim f.
  destruct (step_head s t data x h rnd Ha Hd E) as (h' & rnd' & Hl' & Hd' & Hr & HS).
  rewrite (start_pos_stable _ _ rnd rnd') in Hpre by (intros; symmetry; auto).
  destruct (start_pos (Z.of_nat (length data)) x rnd') as [start rnd2] eqn:Est. cbn [fst] in Hpre. subst start.
  pose proof Ha as [_ _ Hu Hi _ _ Hdec Hhist].
  eexists. split; [exact (agree_next s t data pre post _ rnd2 Ha)|]. intros rest.
  rewrite HS by (unfold f; rewrite <-app_assoc; apply frame_body_head).
  pose proof (frame_body_length s data pre post) as Hb.
  assert (length f = (4 + length pre + length data + length post)%nat) as Hf.
  { unfold f. rewrite length_app, length_take, Hb. unfold frame_hash. rewrite hmac_len. lia. }
  unfold decode_frame. rewrite (proj2 (Z.leb_gt _ _)), (proj2 (Z.ltb_ge _ _)) by (rewrite ?length_app, ?Hf; lia).
  replace (Z.to_nat (Z.of_nat (length data) + x) + 2)%nat with (length (frame_body s data pre post)) by (rewrite Hb; lia).
  assert (take (length (frame_body s data pre post)) (f ++ rest) = frame_body s data pre post) as ->.
  { unfold f. by rewrite <-app_assoc, take_app_length. }
  assert (take 2 (drop (length (frame_body s data pre post)) (f ++ rest)) = take 2 (frame_hash s data pre post)) as ->.
  { unfold f. rewrite <-app_assoc, drop_app_length, take_app_le, take_take by (rewrite length_take; unfold frame_hash; rewrite hmac_len; lia). done. }
  assert (HmacMD5 (macKey t (recvID t)) (frame_body s data pre post) = frame_hash s data pre post) as ->.
  { unfold frame_hash, macKey. by rewrite Hu, Hi. }
  rewrite (bool_decide_eq_true_2 _ eq_refl : bytes_Equal _ _ = true). cbn [negb].
  fold (start_pos (Z.of_nat (length data)) x rnd'). rewrite Est, Nat2Z.id. unfold f at 1. rewrite frame_wanted.
  unfold xor. rewrite Hdec, Hhist, dec_enc.
  assert ((recvID t =? 1) && (Z.of_nat (length data) <? 2) = false) as ->.
  { rewrite Hi. destruct (packID s =? 1) eqn:E1; [|done]. zify_bool. apply Z.ltb_ge. specialize (H1 E1). lia. }
  f_equal; [unfold visible; by rewrite Hi|rewrite Hf; lia].
Qed.

Lemma sends_laws : FrameLaws loop sends agree.
Proof.
  split.
  - intros s d f s' (data & HF & _) ->. by inversion HF.
  - intros fuel t dst. by destruct fuel.
  - intros s d f s' t (data & HF & -> & Hd & H1) Ha. destruct HF as [x h rnd pre post E Hpre Hx Hlim].
    destruct (step_frame s t data x h rnd pre post Ha (proj2 Hd) H1 E Hpre Hx Hlim) as (t' & Ha' & HS).
    exists t'. split; [done|]. intros fuel dst rest. cbn [decode_loop].
    rewrite (proj2 (Nat.leb_gt _ _)).
    2:{ rewrite !length_app, length_take, frame_body_length. unfold frame_hash. rewrite hmac_len.
        lia. }
    by rewrite HS, drop_app_length.
  - intros s d f s' t fuel dst p q (data & HF & -> & Hd & H1) Ha Hf Hq.
    destruct HF as [x h rnd pre post E Hpre Hx Hlim]. destruct fuel as [|fuel]; [by exists t|]. cbn [decode_loop].
    destruct (length p <=? 4)%nat eqn:Ep; [by exists t|]. zify_bool.
    destruct (step_head s t data x h rnd Ha (proj2 Hd) E) as (h' & rnd' & Hl' & Hd' & Hr & HS).
    rewrite HS.
    2:{ etransitivity; [|apply (frame_body_head s data pre post (take 2 (frame_hash s data pre post)))].
      by rewrite Hf, take_prefix by lia. }
    apply (f_equal length) in Hf. rewrite !length_app, length_take, frame_body_length in Hf.
    unfold frame_hash in Hf. rewrite hmac_len in Hf. destruct q as [|q0 q]; [done|]. simpl length in Hf.
    unfold decode_frame. rewrite (proj2 (Z.leb_gt _ _)), (proj2 (Z.ltb_lt _ _)) by lia.
    eexists. split; [|reflexivity]. by apply agree_wait.
Qed.

Lemma frame_of_next s data f s' : frame_of s data f s' → ready s' ∧ packID s' = u32 (packID s + 1).
Proof. destruct 1. split; [|done]. split_and!; simpl; [apply hmac_len|apply hmac_wf|done]. Qed.

Lemma packData_sends s data r : ready s → 0 < Z.of_nat (length data) ≤ 2800 → 1 < packID s → packID s + 1 < 2 ^ 32 →
  ∃ f s' r', sends s data f s' ∧ ready s' ∧ packID s' = packID s + 1 ∧
             ∀ buf, packData s buf data r = Ret (s', buf ++ f, r').
Proof.
  intros Hr Hd Hid Hmax. destruct (packData_frame s data r Hr) as (f & s' & r' & HF & HP); [lia|].
  destruct (frame_of_next _ _ _ _ HF) as [Hr' Hid']. exists f, s', r'. split_and!; [|done|rewrite Hid'; unfold u32; apply Z.mod_small; lia|done].
  exists data. unfold visible. rewrite (proj2 (Z.eqb_neq _ _)) by lia. split_and!; [done|done|lia|lia|lia].
Qed.

Lemma chain_loop_frames fuel : ∀ a buf b r,
  ready a → (length b < fuel)%nat → 1 < packID a → packID a + Z.of_nat (length b) < 2 ^ 32 →
  ∃ a' ds fs r', encode_loop HmacMD5 randDataLength fuel a buf b r = Ret (a', buf ++ concat fs, r') ∧
                 framed sends a ds fs a' ∧ concat ds = b.
Proof.
  induction fuel as [|fuel IH]; intros a buf b r Ha Hf Hid Hmax; [lia|]. cbn [encode_loop].
  destruct (2800 <? Z.of_nat (length b)) eqn:E; zify_bool.
  - set (n := Z.to_nat 2800). assert (Z.of_nat n = 2800) as Hn by (unfold n; lia). clearbody n.
    destruct (packData_sends a (take n b) r) as (f & a1 & r1 & HS & Ha1 & Hid1 & ->);
      [done|rewrite length_take; lia|lia|lia|].
    destruct (IH a1 (buf ++ f) (drop n b) r1) as (a' & ds & fs & r' & -> & HF & Hc);
      [done|rewrite length_drop; lia|lia|rewrite length_drop; lia|].
    exists a', (take n b :: ds), (f :: fs), r'. simpl. rewrite <-app_assoc, Hc, take_drop.
    split_and!; [done|by econstructor|done].
  - destruct b as [|x b].
    + exists a, [], [], r. simpl. rewrite app_nil_r. split_and!; [done|constructor|done].
    + destruct (packData_sends a (x :: b) r) as (f & a1 & r1 & HS & Ha1 & Hid1 & ->); [done|simpl in *; lia..|].
      exists a1, [x :: b], [f], r1. simpl. rewrite !app_nil_r.
      split_and!; [done|econstructor; [done|constructor]|done].
Qed.

Context (base64 : list Z → gostring) (kdf16 : gostring → list Z)
        (aes_cbc : list Z → list Z → res (list Z)) (rc4 : list Z → Stream).

(** C19 (round trip): auth_chain: once the header is out, [Encode] never panics and
    for every choice of padding, a receiver that agrees with the sender decodes
    its output, cut into arbitrary pieces, to exactly the data, and agrees with
    the sender's new state; a frame that arrives in parts has its padding drawn
    again with the same outcome although the draw overwrites part of the stored
    hash. Holds for any padding scheme with the laws [RandLaws], so for both
    variants, before the frame counter wraps around to 1. *)
Theorem chain_roundtrip a t now b r :
  agree a t → hasSentHeader a = true → 1 < packID a → packID a + Z.of_nat (length b) < 2 ^ 32 →
  ∃ a' wire r', Encode HmacMD5 base64 kdf16 aes_cbc rc4 randDataLength a now [] b r = Ret (a', wire, r') ∧
    ∀ chunks, concat chunks = wire →
      ∃ t', agree a' t' ∧ feed (Decode HmacMD5 randDataLength) t [] [] chunks = (t', b, [], DOk).
Proof.
  intros Ha Hs Hid Hmax. unfold Encode. rewrite Hs.
  destruct (chain_loop_frames (S (length b)) a [] b r (ag_ready _ _ Ha)) as (a' & ds & fs & r' & -> & HF & Hc); [lia..|].
  exists a', (concat fs), r'. split; [done|]. intros chunks Hch.
  destruct (feed_framed (FL := sends_laws) (Decode HmacMD5 randDataLength)) with (chunks := chunks) (s := a) (s' := a')
    (t := t) (dst := @nil Z) (under := @nil Z) (ds := ds) (fs := fs) as (t' & Ha' & E); [|done|done|done|by intros ->|].
  - intros s t0 dst src Ha0. unfold Decode. by rewrite (ag_raw _ _ Ha0).
  - exists t'. split; [done|]. by rewrite E, Hc.
Qed.
End Frames.

(** Auth_chain_b: opening a stream panics when the key is shorter than
    16 bytes (the padded copy [InitFromBin] makes is dropped); with any longer key
    the tables of sizes are sorted and in range, so that for every data length,
    hash and generator the padding length is defined, not negative and below 1440,
    and the frame stays below the limit of [Decode]. *)
Theorem chainB_padding key overhead n h rnd :
  0 ≤ overhead → 0 ≤ n ≤ 2800 → length h = 16%nat →
  if (length key <? 16)%nat then initDataSize key = Panic
  else ∃ ds r x h' r', initDataSize key = Ret (ds, r) ∧
         chainB_getRandLength ds overhead n h rnd = Ret (x, h', r') ∧ 0 ≤ x < 1440 ∧ n + x < 4096.
Proof.
  intros Ho Hn Hh. destruct (length key <? 16)%nat eqn:E.
  { unfold initDataSize, InitFromBin. by rewrite E. }
  destruct (initDataSize key) as [[ds r]|e|] eqn:Ei.
  2-3: unfold initDataSize, InitFromBin in Ei; rewrite E in Ei; repeat case_match; simplify_eq.
  destruct (initDataSize_ok _ _ _ Ei) as [H1 H2]. pose proof (chainB_laws ds overhead Ho H1 H2) as HL.
  destruct (rl_total n h rnd Hn Hh) as (x & h' & r' & Ex & Hx & Hs & _). exists ds, r, x, h', r'.
  pose proof (chainB_bound ds overhead Ho H1 H2 _ _ _ _ _ _ Ex ltac:(lia)). split_and!; [done|done|lia|lia|done].
Qed.

(** *** Witnesses *)
Definition demo_hmac (k d : list Z) : list Z := repeat (u8 (foldl Z.add 0 (k ++ d))) 16.
Lemma demo_hmac_len k d : length (demo_hmac k d) = 16%nat.
Proof. apply repeat_length. Qed.
Lemma demo_hmac_wf k d : wf_bytes (demo_hmac k d).
Proof. apply Forall_forall. intros x Hx%list_elem_of_In%repeat_spec. subst. apply u8_range. Qed.
Definition demo_chain (enc dec : Stream) : authChain :=
  AuthChain w_base newAuthData (UserData [5] [0; 0; 0; 1]) [7] (str "auth_chain_a") true false
    (repeat 9 16) (repeat 9 16) (StreamState enc []) (StreamState dec []) (XorShift 0 0) (XorShift 0 0) 2 2.
Lemma demo_agree : agree toy_enc toy_dec (demo_chain toy_enc toy_dec) (demo_chain toy_enc toy_dec).
Proof. split; try reflexivity. split; [reflexivity|]. split; [|reflexivity]. repeat constructor; unfold is_byte; lia. Qed.

Lemma chain_roundtrip_witness :
  ∃ a' wire r',
    Encode demo_hmac (λ k, k) (λ k, k) (λ _ d, Ret d) (λ _, toy_enc) chainA_getRandLength
      (demo_chain toy_enc toy_dec) 0 [] (str "hello") w_rng = Ret (a', wire, r') ∧
    ∃ t', feed (Decode demo_hmac chainA_getRandLength) (demo_chain toy_enc toy_dec) [] [] [wire] = (t', str "hello", [], DOk).
Proof.
  destruct (chain_roundtrip demo_hmac chainA_getRandLength toy_enc toy_dec demo_hmac_len demo_hmac_wf
    (λ k, k) (λ k, k) (λ _ d, Ret d) (λ _, toy_enc) (demo_chain toy_enc toy_dec) (demo_chain toy_enc toy_dec) 0
    (str "hello") w_rng demo_agree eq_refl ltac:(simpl; lia) ltac:(simpl; lia)) as (a' & wire & r' & E & H).
  exists a', wire, r'. split; [exact E|]. destruct (H [wire]) as (t' & _ & Ht); [apply app_nil_r|]. by exists t'.
Defined.

Lemma chainB_padding_witness : ∃ ds r x h' r', initDataSize (repeat 7 16) = Ret (ds, r) ∧
  chainB_getRandLength ds 4 100 (repeat 1 16) (XorShift 0 0) = Ret (x, h', r') ∧ 0 ≤ x < 1440 ∧ 100 + x < 4096.
Proof. apply (chainB_padding (repeat 7 16) 4 100 (repeat 1 16) (XorShift 0 0)); [lia|lia|reflexivity]. Defined.
