(* ===== verification/SsrObfs.v ===== *)
(** * Package ssr/obfs: the obfuscators, and package ssr's connection set-up.

    Models [src/ssr/obfs/obfs.go], [base.go], [plain.go], [random_head.go],
    [http_simple.go], [http_post.go], [tls1.2_ticket_auth.go] and
    [src/ssr/cipher.go]. An obfuscator wraps a connection; its state is a record
    around the connection of GoIO.v. HMAC-SHA1 and the clock are parameters, random
    numbers are drawn from the sequence of SsrAuth.v. *)
From S2P Require Import Prelude GoIO GoNet SsrAuth.
Local Open Scope Z_scope.

(** [obfs.Base]. *)
Record ObfsBase := MkObfsBase {
  o_Host : gostring;
  o_Port : Z;
  o_Key : list Z;
  o_IVSize : nat;
  o_Param : gostring;
}.

(** ** [GetObfs] *)
Inductive obfs_kind := ObPlain | ObHttpSimple | ObHttpPost | ObRandomHead | ObTLS12Ticket.
Definition obfsMap : list (gostring * (Z * obfs_kind)) :=
  [ (str "plain", (0, ObPlain)); (str "http_simple", (0, ObHttpSimple)); (str "http_post", (0, ObHttpPost));
    (str "random_head", (0, ObRandomHead)); (str "tls1.2_ticket_auth", (5, ObTLS12Ticket));
    (str "tls1.2_ticket_fastauth", (5, ObTLS12Ticket)) ].
Definition GetObfs (name : gostring) : res (obfs_kind * Z) :=
  match list_find (λ e, e.1 = name) obfsMap with
  | Some (_, (_, (overhead, k))) => Ret (k, overhead)
  | None => Fail (errNew "Obfs %s not supported")
  end.

(** [NewSSRClientStreamCipher]: the obfuscator with its base and the protocol with
    its base, whose overhead is the sum of both; [cipher] is the key and IV size,
    absent for the method none. *)
Definition NewSSRClientStreamCipher (cipher : option (list Z * nat)) (addr protocolName protocolParam obfsName obfsParam : gostring)
    : res ((obfs_kind * ObfsBase) * (protocol_kind * Base)) :=
  let key := match cipher with Some (k, _) => k | None => [] end in
  let ivSize := match cipher with Some (_, n) => n | None => 0%nat end in
  let '(host, p) := match SplitHostPort addr with inl hp => hp | inr _ => ([], []) end in
  let port := fst (parse_uint 16 p) in
  '(kind, overhead) ← GetObfs obfsName;
  proto ← GetProtocol protocolName (MkBase key overhead protocolParam);
  Ret ((kind, MkObfsBase host port key ivSize obfsParam), proto).

(** ** random_head *)
Record randomHeadConn := RandomHeadConn {
  rh_conn : conn;
  rh_hasSentHeader : bool;
  rh_rawTransSent : bool;
  rh_rawTransRecv : bool;
  rh_buf : list Z;
}.
Definition new_randomHead (c : conn) : randomHeadConn := RandomHeadConn c false false false [].

(** [c.Conn.Write(b)] with its error only. *)
Definition put (b : list Z) (c : conn) : conn * option error :=
  let '(c1, (_, e)) := conn_write b c in (c1, e).
Definition done_or {A} (e : option error) (a : A) : res A := match e with Some e => Fail e | None => Ret a end.

Definition rh_header (r : rng) : list Z * rng :=
  let '(x, r1) := Intn 96 r in
  let '(d, r2) := rand_bytes (Z.to_nat (x + 4)) r1 in
  (d ++ le32 (4294967295 - crc32 d), r2).

Definition rh_Write (b : list Z) (c : randomHeadConn) (r : rng) : randomHeadConn * rng * res nat :=
  if rh_rawTransSent c then
    let '(c1, (n, e)) := conn_write b (rh_conn c) in
    (RandomHeadConn c1 (rh_hasSentHeader c) true (rh_rawTransRecv c) (rh_buf c), r, done_or e n)
  else
    let buf := rh_buf c ++ b in
    if negb (rh_hasSentHeader c) then
      let '(h, r1) := rh_header r in
      let '(c1, e) := put h (rh_conn c) in
      (RandomHeadConn c1 true false (rh_rawTransRecv c) buf, r1, done_or e (length b))
    else if rh_rawTransRecv c then
      let '(c1, e) := put buf (rh_conn c) in
      (RandomHeadConn c1 true true true [], r, done_or e (length b))
    else (RandomHeadConn (rh_conn c) true false false buf, r, Ret (length b)).

(** [Read(b)] with [len(b) = n]: the server's first message is dropped and the
    buffered data sent. *)
Definition rh_Read (n : nat) (c : randomHeadConn) (r : rng) : randomHeadConn * rng * res (list Z) :=
  if rh_rawTransRecv c then
    let '(c1, x) := conn_read n (rh_conn c) in
    (RandomHeadConn c1 (rh_hasSentHeader c) (rh_rawTransSent c) true (rh_buf c), r, x)
  else
    let '(c1, _) := conn_read relayBufferSize (rh_conn c) in
    let '(c2, r2, _) := rh_Write [] (RandomHeadConn c1 (rh_hasSentHeader c) (rh_rawTransSent c) true (rh_buf c)) r in
    (c2, r2, Ret []).

(** ** http_simple and http_post *)
Definition CRLF : list Z := [13; 10].
Definition userAgent : list string := [
  "Mozilla/5.0 (Windows NT 10.0; Win64; x64) AppleWebKit/537.36 (KHTML, like Gecko) Chrome/65.0.3325.162 Safari/537.36";
  "Mozilla/5.0 (Windows NT 6.1; WOW64) AppleWebKit/537.36 (KHTML, like Gecko) Chrome/45.0.2454.85 Safari/537.36";
  "Mozilla/5.0 (Linux; Android 7.0; Moto C Build/NRD90M.059) AppleWebKit/537.36 (KHTML, like Gecko) Chrome/69.0.3497.100 Mobile Safari/537.36";
  "Mozilla/5.0 (Windows NT 6.1) AppleWebKit/537.36 (KHTML, like Gecko) Chrome/68.0.3440.106 Safari/537.36";
  "Mozilla/5.0 (Windows NT 6.1; WOW64) AppleWebKit/537.36 (KHTML, like Gecko) Chrome/70.0.3538.102 Safari/537.36";
  "Mozilla/5.0 (Linux; Android 6.0.1; SM-G532M Build/MMB29T; wv) AppleWebKit/537.36 (KHTML, like Gecko) Version/4.0 Chrome/55.0.2883.91 Mobile Safari/537.36";
  "Mozilla/5.0 (Windows NT 6.2; WOW64) AppleWebKit/537.36 (KHTML, like Gecko) Chrome/46.0.2490.80 Safari/537.36";
  "Mozilla/5.0 (Windows NT 6.1) AppleWebKit/537.36 (KHTML, like Gecko) Chrome/41.0.2272.101 Safari/537.36";
  "Mozilla/5.0 (Windows NT 6.2; Win64; x64) AppleWebKit/537.36 (KHTML, like Gecko) Chrome/70.0.3538.102 Safari/537.36";
  "Mozilla/5.0 (Windows NT 6.1; WOW64) AppleWebKit/537.36 (KHTML, like Gecko) Chrome/40.0.2214.111 Safari/537.36";
  "Mozilla/5.0 (Windows NT 6.3; Win64; x64) AppleWebKit/537.36 (KHTML, like Gecko) Chrome/62.0.3202.94 Safari/537.36";
  "Mozilla/5.0 (Linux; Android 5.1.1; SM-J120M Build/LMY47X) AppleWebKit/537.36 (KHTML, like Gecko) Chrome/69.0.3497.100 Mobile Safari/537.36";
  "Mozilla/5.0 (Windows NT 6.0; WOW64) AppleWebKit/537.36 (KHTML, like Gecko) Chrome/46.0.2490.80 Safari/537.36";
  "Mozilla/5.0 (Linux; Android 7.0; Moto G (5) Build/NPPS25.137-93-14) AppleWebKit/537.36 (KHTML, like Gecko) Chrome/69.0.3497.100 Mobile Safari/537.36";
  "Mozilla/5.0 (Windows NT 6.2; WOW64) AppleWebKit/537.36 (KHTML, like Gecko) Chrome/51.0.2704.106 Safari/537.36";
  "Mozilla/5.0 (Windows NT 6.3; Win64; x64) AppleWebKit/537.36 (KHTML, like Gecko) Chrome/65.0.3325.181 Safari/537.36";
  "Mozilla/5.0 (Linux; Android 7.0; SM-G570M) AppleWebKit/537.36 (KHTML, like Gecko) Chrome/70.0.3538.80 Mobile Safari/537.36";
  "Mozilla/5.0 (Windows NT 5.1; WOW64) AppleWebKit/537.36 (KHTML, like Gecko) Chrome/46.0.2490.80 Safari/537.36";
  "Mozilla/5.0 (Windows NT 10.0) AppleWebKit/537.36 (KHTML, like Gecko) Chrome/70.0.3538.102 Safari/537.36";
  "Mozilla/5.0 (Windows NT 10.0; WOW64) AppleWebKit/537.36 (KHTML, like Gecko) Chrome/49.0.2623.112 Safari/537.36";
  "Mozilla/5.0 (Linux; Android 6.0; CAM-L03 Build/HUAWEICAM-L03) AppleWebKit/537.36 (KHTML, like Gecko) Chrome/69.0.3497.100 Mobile Safari/537.36";
  "Mozilla/5.0 (Windows NT 6.3; WOW64) AppleWebKit/537.36 (KHTML, like Gecko) Chrome/41.0.2272.76 Safari/537.36";
  "Mozilla/5.0 (Windows NT 6.3; Win64; x64) AppleWebKit/537.36 (KHTML, like Gecko) Chrome/66.0.3359.117 Safari/537.36";
  "Mozilla/5.0 (Windows; U; Windows NT 5.1; en-US) AppleWebKit/534.3 (KHTML, like Gecko) Chrome/6.0.472.63 Safari/534.3";
  "Mozilla/5.0 (Windows NT 6.1) AppleWebKit/537.36 (KHTML, like Gecko) Chrome/55.0.2883.87 Safari/537.36";
  "Mozilla/5.0 (Windows NT 6.3; WOW64) AppleWebKit/537.36 (KHTML, like Gecko) Chrome/70.0.3538.102 Safari/537.36";
  "Mozilla/5.0 (Windows NT 10.0; WOW64) AppleWebKit/537.36 (KHTML, like Gecko) Chrome/47.0.2526.106 Safari/537.36";
  "Mozilla/5.0 (Windows; U; Windows NT 6.1; en-US) AppleWebKit/534.7 (KHTML, like Gecko) Chrome/7.0.517.44 Safari/534.7";
  "Mozilla/5.0 (Windows NT 6.3; WOW64) AppleWebKit/537.36 (KHTML, like Gecko) Chrome/52.0.2743.116 Safari/537.36";
  "Mozilla/5.0 (Windows NT 10.0; Win64; x64) AppleWebKit/537.36 (KHTML, like Gecko) Chrome/68.0.3440.75 Safari/537.36";
  "Mozilla/5.0 (Windows NT 6.1; WOW64) AppleWebKit/537.36 (KHTML, like Gecko) Chrome/54.0.2840.71 Safari/537.36";
  "Mozilla/5.0 (Windows; U; Windows NT 6.1; en-US) AppleWebKit/534.3 (KHTML, like Gecko) Chrome/6.0.472.63 Safari/534.3";
  "Mozilla/5.0 (Linux; Android 8.0.0; FIG-LX3) AppleWebKit/537.36 (KHTML, like Gecko) Chrome/70.0.3538.80 Mobile Safari/537.36";
  "Mozilla/5.0 (Windows NT 6.1; WOW64) AppleWebKit/537.36 (KHTML, like Gecko) Chrome/40.0.2214.115 Safari/537.36";
  "Mozilla/5.0 (Windows NT 10.0; Win64; x64) AppleWebKit/537.36 (KHTML, like Gecko) Chrome/52.0.2743.116 Safari/537.36";
  "Mozilla/5.0 (Windows; U; Windows NT 6.1; en-US) AppleWebKit/534.10 (KHTML, like Gecko) Chrome/8.0.552.237 Safari/534.10";
  "Mozilla/5.0 (Windows NT 6.3; Win64; x64) AppleWebKit/537.36 (KHTML, like Gecko) Chrome/60.0.3112.90 Safari/537.36";
  "Mozilla/5.0 (X11; U; Linux x86_64; en-US) AppleWebKit/533.2 (KHTML, like Gecko) Chrome/5.0.342.1 Safari/533.2";
  "Mozilla/5.0 (Windows NT 10.0; WOW64) AppleWebKit/537.36 (KHTML, like Gecko) Chrome/70.0.3538.102 Safari/537.36";
  "Mozilla/5.0 (Windows NT 10.0; WOW64) AppleWebKit/537.36 (KHTML, like Gecko) Chrome/49.0.2623.110 Safari/537.36";
  "Mozilla/5.0 (Windows NT 6.3; Win64; x64) AppleWebKit/537.36 (KHTML, like Gecko) Chrome/62.0.3202.89 Safari/537.36";
  "Mozilla/5.0 (Windows NT 6.1; Win64; x64) AppleWebKit/537.36 (KHTML, like Gecko) Chrome/58.0.3029.81 Safari/537.36";
  "Mozilla/5.0 (X11; Datanyze; Linux x86_64) AppleWebKit/537.36 (KHTML, like Gecko) Chrome/65.0.3325.181 Safari/537.36";
  "Mozilla/5.0 (Windows NT 6.3; Win64; x64) AppleWebKit/537.36 (KHTML, like Gecko) Chrome/63.0.3239.132 Safari/537.36";
  "Mozilla/5.0 (Windows NT 10.0; WOW64) AppleWebKit/537.36 (KHTML, like Gecko) Chrome/54.0.2840.71 Safari/537.36";
  "Mozilla/5.0 (Windows NT 6.1; WOW64) AppleWebKit/537.36 (KHTML, like Gecko) Chrome/35.0.1916.153 Safari/537.36";
  "Mozilla/5.0 (Linux; Android 5.1.1; SM-J111M Build/LMY47V) AppleWebKit/537.36 (KHTML, like Gecko) Chrome/69.0.3497.100 Mobile Safari/537.36";
  "Mozilla/5.0 (Windows NT 6.1) AppleWebKit/537.36 (KHTML, like Gecko) Chrome/57.0.2987.133 Safari/537.36";
  "Mozilla/5.0 (Windows NT 6.0; WOW64) AppleWebKit/537.36 (KHTML, like Gecko) Chrome/51.0.2704.106 Safari/537.36";
  "Mozilla/5.0 (Windows NT 6.1) AppleWebKit/537.36 (KHTML, like Gecko) Chrome/65.0.3325.181 Safari/537.36";
  "Mozilla/5.0 (Windows NT 6.1; WOW64) AppleWebKit/537.36 (KHTML, like Gecko) Chrome/37.0.2062.120 Safari/537.36";
  "Mozilla/5.0 (Macintosh; Intel Mac OS X 10_13_6) AppleWebKit/537.36 (KHTML, like Gecko) Chrome/69.0.3497.100 Safari/537.36";
  "Mozilla/5.0 (Windows NT 6.1; Win64; x64) AppleWebKit/537.36 (KHTML, like Gecko) Chrome/63.0.3239.84 Safari/537.36";
  "Mozilla/5.0 (Windows NT 6.1; WOW64) AppleWebKit/537.36 (KHTML, like Gecko) Chrome/54.0.2840.99 Safari/537.36";
  "Mozilla/5.0 (Windows NT 6.1; WOW64) AppleWebKit/537.36 (KHTML, like Gecko) Chrome/32.0.1700.107 Safari/537.36";
  "Mozilla/5.0 (Windows NT 10.0) AppleWebKit/537.36 (KHTML, like Gecko) Chrome/69.0.3497.100 Safari/537.36";
  "Mozilla/5.0 (Linux; Android 6.0.1; SM-J700M Build/MMB29K) AppleWebKit/537.36 (KHTML, like Gecko) Chrome/69.0.3497.100 Mobile Safari/537.36";
  "Mozilla/5.0 (Windows NT 6.3; WOW64) AppleWebKit/537.36 (KHTML, like Gecko) Chrome/51.0.2704.63 Safari/537.36";
  "Mozilla/5.0 (X11; Linux i686) AppleWebKit/534.30 (KHTML, like Gecko) Slackware/Chrome/12.0.742.100 Safari/534.30";
  "Mozilla/5.0 (Windows NT 6.1; WOW64) AppleWebKit/537.36 (KHTML, like Gecko) Chrome/69.0.3497.100 Safari/537.36";
  "Mozilla/5.0 (Windows NT 6.1; WOW64) AppleWebKit/537.36 (KHTML, like Gecko) Chrome/46.0.2490.86 Safari/537.36";
  "Mozilla/5.0 (Windows NT 10.0; Win64; x64) AppleWebKit/537.36 (KHTML, like Gecko) Chrome/64.0.3282.167 Safari/537.36";
  "Mozilla/5.0 (Windows NT 6.1; WOW64) AppleWebKit/537.36 (KHTML, like Gecko) Chrome/48.0.2564.116 Safari/537.36";
  "Mozilla/5.0 (Windows NT 6.1; WOW64) AppleWebKit/537.36 (KHTML, like Gecko) Chrome/50.0.2661.102 Safari/537.36";
  "Mozilla/5.0 (Windows NT 10.0; WOW64) AppleWebKit/537.36 (KHTML, like Gecko) Chrome/53.0.2785.143 Safari/537.36";
  "Mozilla/5.0 (X11; Linux i686) AppleWebKit/534.30 (KHTML, like Gecko) Chrome/12.0.742.100 Safari/534.30";
  "Mozilla/5.0 (Windows NT 10.0; WOW64) AppleWebKit/537.36 (KHTML, like Gecko) Chrome/69.0.3497.100 Safari/537.36";
  "Mozilla/5.0 (Linux; Android 8.0.0; WAS-LX3 Build/HUAWEIWAS-LX3) AppleWebKit/537.36 (KHTML, like Gecko) Chrome/69.0.3497.100 Mobile Safari/537.36";
  "Mozilla/5.0 (Windows NT 10.0; WOW64) AppleWebKit/537.36 (KHTML, like Gecko) Chrome/54.0.2840.99 Safari/537.36";
  "Mozilla/5.0 (Windows NT 6.1; WOW64) AppleWebKit/537.36 (KHTML, like Gecko) Chrome/57.0.2987.133 Safari/537.36";
  "Mozilla/5.0 (Windows NT 6.1; WOW64) AppleWebKit/537.36 (KHTML, like Gecko) Chrome/49.0.2623.87 Safari/537.36";
  "Mozilla/5.0 (Windows NT 10.0; WOW64) AppleWebKit/537.36 (KHTML, like Gecko) Chrome/50.0.2661.102 Safari/537.36";
  "Mozilla/5.0 (Windows NT 6.1; WOW64) AppleWebKit/537.36 (KHTML, like Gecko) Chrome/31.0.1650.57 Safari/537.36";
  "Mozilla/5.0 (Windows NT 6.3; Win64; x64) AppleWebKit/537.36 (KHTML, like Gecko) Chrome/67.0.3396.99 Safari/537.36";
  "Mozilla/5.0 (Windows NT 10.0; Win64; x64) AppleWebKit/537.36 (KHTML, like Gecko) Chrome/60.0.3112.101 Safari/537.36";
  "Mozilla/5.0 (Windows NT 6.1; WOW64) AppleWebKit/537.36 (KHTML, like Gecko) Chrome/68.0.3440.1805 Safari/537.36 MVisionPlayer/1.0.0.0";
  "Mozilla/5.0 (Linux; Android 7.0; TRT-LX3 Build/HUAWEITRT-LX3) AppleWebKit/537.36 (KHTML, like Gecko) Chrome/69.0.3497.100 Mobile Safari/537.36";
  "Mozilla/5.0 (Macintosh; Intel Mac OS X 10_10_3) AppleWebKit/537.36 (KHTML, like Gecko) Chrome/41.0.2272.89 Safari/537.36";
  "Mozilla/5.0 (Linux; Android 6.0; vivo 1610 Build/MMB29M) AppleWebKit/537.36 (KHTML, like Gecko) Chrome/53.0.2785.124 Mobile Safari/537.36";
  "Mozilla/5.0 (Windows NT 6.2; Win64; x64) AppleWebKit/537.36 (KHTML, like Gecko) Chrome/69.0.3497.100 Safari/537.36";
  "Mozilla/5.0 (Windows NT 6.1; Win64; x64) AppleWebKit/537.36 (KHTML, like Gecko) Chrome/56.0.2924.87 Safari/537.36";
  "Mozilla/5.0 (Windows NT 6.1; Win64; x64) AppleWebKit/537.36 (KHTML, like Gecko) Chrome/67.0.3396.87 Safari/537.36";
  "Mozilla/5.0 (Windows NT 10.0; WOW64) AppleWebKit/537.36 (KHTML, like Gecko) Chrome/57.0.2987.133 Safari/537.36";
  "Mozilla/5.0 (Windows NT 6.1; WOW64) AppleWebKit/537.36 (KHTML, like Gecko) Chrome/47.0.2526.111 Safari/537.36";
  "Mozilla/5.0 (Linux; Android 4.4.2; de-de; SAMSUNG GT-I9195 Build/KOT49H) AppleWebKit/537.36 (KHTML, like Gecko) Version/1.5 Chrome/28.0.1500.94 Mobile Safari/537.36";
  "Mozilla/5.0 (Windows NT 6.1) AppleWebKit/537.36 (KHTML, like Gecko) Chrome/70.0.3538.110 Safari/537.36";
  "Mozilla/5.0 (Windows NT 6.1; WOW64) AppleWebKit/537.36 (KHTML, like Gecko) Chrome/39.0.2171.95 Safari/537.36";
  "Mozilla/5.0 (Macintosh; Intel Mac OS X 10_10_3) AppleWebKit/537.36 (KHTML, like Gecko) Chrome/42.0.2311.90 Safari/537.36";
  "Mozilla/5.0 (Windows NT 6.1; WOW64) AppleWebKit/537.36 (KHTML, like Gecko) Chrome/49.0.2623.110 Safari/537.36";
  "Mozilla/5.0 (Linux; Android 8.0.0; ANE-LX3 Build/HUAWEIANE-LX3) AppleWebKit/537.36 (KHTML, like Gecko) Chrome/69.0.3497.100 Mobile Safari/537.36";
  "Mozilla/5.0 (Windows NT 6.1; WOW64) AppleWebKit/537.36 (KHTML, like Gecko) Chrome/49.0.2623.112 Safari/537.36";
  "Mozilla/5.0 (Windows NT 6.3; WOW64) AppleWebKit/537.36 (KHTML, like Gecko) Chrome/56.0.2924.87 Safari/537.36";
  "Mozilla/5.0 (Windows NT 10.0; WOW64) AppleWebKit/537.36 (KHTML, like Gecko) Chrome/49.0.2623.87 Safari/537.36";
  "Mozilla/5.0 (Windows NT 6.1; WOW64) AppleWebKit/537.36 (KHTML, like Gecko) Chrome/53.0.2785.143 Safari/537.36";
  "Mozilla/5.0 (Windows NT 6.1) AppleWebKit/537.36 (KHTML, like Gecko) Chrome/56.0.2924.87 Safari/537.36";
  "Mozilla/5.0 (X11; U; Linux i586; en-US) AppleWebKit/533.2 (KHTML, like Gecko) Chrome/5.0.342.1 Safari/533.2";
  "Mozilla/5.0 (Windows NT 6.3; WOW64) AppleWebKit/537.36 (KHTML, like Gecko) Chrome/43.0.2357.65 Safari/537.36";
  "Mozilla/5.0 (Linux; Android 7.0; SM-G610M) AppleWebKit/537.36 (KHTML, like Gecko) Chrome/70.0.3538.80 Mobile Safari/537.36";
  "Mozilla/5.0 (Linux; Android 6.0.1; SM-J500M Build/MMB29M) AppleWebKit/537.36 (KHTML, like Gecko) Chrome/69.0.3497.100 Mobile Safari/537.36";
  "Mozilla/5.0 (Windows; U; Windows NT 5.1; en-US) AppleWebKit/534.7 (KHTML, like Gecko) Chrome/7.0.517.44 Safari/534.7";
  "Mozilla/5.0 (Windows NT 6.1) AppleWebKit/537.36 (KHTML, like Gecko) Chrome/41.0.2272.104 Safari/537.36";
  "Mozilla/5.0 (Windows NT 6.1; Win64; x64) AppleWebKit/537.36 (KHTML, like Gecko) Chrome/59.0.3071.115 Safari/537.36";
  "Mozilla/5.0 (Windows NT 10.0; Win64; x64) AppleWebKit/537.36 (KHTML, like Gecko) Chrome/56.0.2924.87 Safari/537.36";
  "Mozilla/5.0 (Linux; Android 6.0; vivo 1606 Build/MMB29M) AppleWebKit/537.36 (KHTML, like Gecko) Chrome/53.0.2785.124 Mobile Safari/537.36";
  "Mozilla/5.0 (Windows NT 6.3; Win64; x64) AppleWebKit/537.36 (KHTML, like Gecko) Chrome/55.0.2883.87 Safari/537.36";
  "Mozilla/5.0 (X11; Linux x86_64) AppleWebKit/537.36 (KHTML, like Gecko) Chrome/42.0.2311.135 Safari/537.36";
  "Mozilla/5.0 (Linux; Android 7.0; SM-G610M Build/NRD90M) AppleWebKit/537.36 (KHTML, like Gecko) Chrome/69.0.3497.100 Mobile Safari/537.36";
  "Mozilla/5.0 (Linux; Android 7.1; vivo 1716 Build/N2G47H) AppleWebKit/537.36 (KHTML, like Gecko) Chrome/61.0.3163.98 Mobile Safari/537.36";
  "Mozilla/5.0 (Windows NT 10.0; WOW64) AppleWebKit/537.36 (KHTML, like Gecko) Chrome/56.0.2924.87 Safari/537.36";
  "Mozilla/5.0 (Windows NT 10.0; WOW64) AppleWebKit/537.36 (KHTML, like Gecko) Chrome/55.0.2883.87 Safari/537.36";
  "Mozilla/5.0 (Windows NT 10.0; WOW64) AppleWebKit/537.36 (KHTML, like Gecko) Chrome/45.0.2454.93 Safari/537.36";
  "Mozilla/5.0 (Linux; Android 7.0; SM-G570M Build/NRD90M) AppleWebKit/537.36 (KHTML, like Gecko) Chrome/69.0.3497.100 Mobile Safari/537.36";
  "Mozilla/5.0 (Windows NT 6.0; Win64; x64) AppleWebKit/537.36 (KHTML, like Gecko) Chrome/60.0.3112.90 Safari/537.36";
  "Mozilla/5.0 (Linux; Android 6.0; MYA-L22 Build/HUAWEIMYA-L22) AppleWebKit/537.36 (KHTML, like Gecko) Chrome/62.0.3202.84 Mobile Safari/537.36";
  "Mozilla/5.0 (Linux; Android 5.1; A1601 Build/LMY47I) AppleWebKit/537.36 (KHTML, like Gecko) Chrome/52.0.2743.98 Mobile Safari/537.36";
  "Mozilla/5.0 (Linux; Android 7.0; TRT-LX2 Build/HUAWEITRT-LX2; wv) AppleWebKit/537.36 (KHTML, like Gecko) Version/4.0 Chrome/59.0.3071.125 Mobile Safari/537.36";
  "Mozilla/5.0 (Windows NT 6.2; Win64; x64) AppleWebKit/537.36 (KHTML, like Gecko) Chrome/55.0.2883.87 Safari/537.36";
  "Mozilla/5.0 (Windows NT 6.0; Win64; x64) AppleWebKit/537.36 (KHTML, like Gecko) Chrome/55.0.2883.87 Safari/537.36";
  "Mozilla/5.0 (Windows NT 5.1; Win64; x64) AppleWebKit/537.36 (KHTML, like Gecko) Chrome/55.0.2883.87 Safari/537.36";
  "Mozilla/5.0 (Windows NT 6.3; Win64; x64) AppleWebKit/537.36 (KHTML, like Gecko) Chrome/70.0.3538.102 Safari/537.36";
  "Mozilla/5.0 (Windows; U; Windows NT 6.1; en-US) AppleWebKit/534.17 (KHTML, like Gecko) Chrome/10.0.649.0 Safari/534.17";
  "Mozilla/5.0 (Linux; Android 6.0; CAM-L21 Build/HUAWEICAM-L21; wv) AppleWebKit/537.36 (KHTML, like Gecko) Version/4.0 Chrome/62.0.3202.84 Mobile Safari/537.36";
  "Mozilla/5.0 (Windows NT 6.1; Win64; x64) AppleWebKit/537.36 (KHTML, like Gecko) Chrome/62.0.3202.94 Safari/537.36";
  "Mozilla/5.0 (X11; Linux x86_64) AppleWebKit/534.24 (KHTML, like Gecko) Chrome/11.0.696.3 Safari/534.24";
  "Mozilla/5.0 (Linux; Android 7.1.2; Redmi 4X Build/N2G47H) AppleWebKit/537.36 (KHTML, like Gecko) Chrome/63.0.3239.111 Mobile Safari/537.36";
  "Mozilla/5.0 (Windows NT 6.3; WOW64) AppleWebKit/537.36 (KHTML, like Gecko) Chrome/51.0.2704.106 Safari/537.36";
  "Mozilla/5.0 (Windows NT 6.1; Win64; x64) AppleWebKit/537.36 (KHTML, like Gecko) Chrome/66.0.3359.181 Safari/537.36";
  "Mozilla/5.0 (Linux; Android 4.4.2; SM-G7102 Build/KOT49H) AppleWebKit/537.36 (KHTML, like Gecko) Chrome/62.0.3202.84 Mobile Safari/537.36";
  "Mozilla/5.0 (Windows NT 6.3; WOW64) AppleWebKit/537.36 (KHTML, like Gecko) Chrome/48.0.2564.109 Safari/537.36";
  "Mozilla/5.0 (Linux; Android 5.1; HUAWEI CUN-L22 Build/HUAWEICUN-L22; wv) AppleWebKit/537.36 (KHTML, like Gecko) Version/4.0 Chrome/62.0.3202.84 Mobile Safari/537.36";
  "Mozilla/5.0 (Linux; Android 5.1.1; A37fw Build/LMY47V) AppleWebKit/537.36 (KHTML, like Gecko) Chrome/62.0.3202.84 Mobile Safari/537.36";
  "Mozilla/5.0 (Linux; Android 7.0; SM-J730GM Build/NRD90M) AppleWebKit/537.36 (KHTML, like Gecko) Chrome/63.0.3239.111 Mobile Safari/537.36";
  "Mozilla/5.0 (Linux; Android 7.0; SM-G610F Build/NRD90M) AppleWebKit/537.36 (KHTML, like Gecko) Chrome/63.0.3239.111 Mobile Safari/537.36";
  "Mozilla/5.0 (Windows NT 6.3; WOW64) AppleWebKit/537.36 (KHTML, like Gecko) Chrome/41.0.2272.101 Safari/537.36";
  "Mozilla/5.0 (Linux; Android 7.1.2; Redmi Note 5A Build/N2G47H; wv) AppleWebKit/537.36 (KHTML, like Gecko) Version/4.0 Chrome/63.0.3239.111 Mobile Safari/537.36";
  "Mozilla/5.0 (Macintosh; Intel Mac OS X 10_14_1) AppleWebKit/537.36 (KHTML, like Gecko) Chrome/70.0.3538.77 Safari/537.36";
  "Mozilla/5.0 (Linux; Android 7.0; Redmi Note 4 Build/NRD90M) AppleWebKit/537.36 (KHTML, like Gecko) Chrome/63.0.3239.111 Mobile Safari/537.36";
  "Mozilla/5.0 (Windows NT 6.1; WOW64) AppleWebKit/537.36 (KHTML, like Gecko) Chrome/47.0.2526.106 Safari/537.36";
  "Mozilla/5.0 (Unknown; Linux) AppleWebKit/538.1 (KHTML, like Gecko) Chrome/v1.0.0 Safari/538.1";
  "Mozilla/5.0 (Linux; Android 7.0; BLL-L22 Build/HUAWEIBLL-L22) AppleWebKit/537.36 (KHTML, like Gecko) Chrome/55.0.2883.91 Mobile Safari/537.36";
  "Mozilla/5.0 (Linux; Android 7.0; SM-J710F Build/NRD90M) AppleWebKit/537.36 (KHTML, like Gecko) Chrome/62.0.3202.84 Mobile Safari/537.36";
  "Mozilla/5.0 (Linux; Android 6.0.1; SM-G532M Build/MMB29T) AppleWebKit/537.36 (KHTML, like Gecko) Chrome/55.0.2883.91 Mobile Safari/537.36";
  "Mozilla/5.0 (Linux; Android 7.1.1; CPH1723 Build/N6F26Q) AppleWebKit/537.36 (KHTML, like Gecko) Chrome/61.0.3163.98 Mobile Safari/537.36";
  "Mozilla/5.0 (Windows NT 6.1; WOW64) AppleWebKit/537.36 (KHTML, like Gecko) Chrome/41.0.2272.118 Safari/537.36";
  "Mozilla/5.0 (Windows NT 10.0; Win64; x64) AppleWebKit/537.36 (KHTML, like Gecko) Chrome/61.0.3163.79 Safari/537.36";
  "Mozilla/5.0 (Windows NT 6.1; WOW64) AppleWebKit/537.36 (KHTML, like Gecko) Chrome/45.0.2454.101 Safari/537.36";
  "Mozilla/5.0 (Windows NT 6.1; WOW64) AppleWebKit/537.36 (KHTML, like Gecko) Chrome/50.0.2661.94 Safari/537.36";
  "Mozilla/5.0 (Windows NT 6.1; Win64; x64) AppleWebKit/537.36 (KHTML, like Gecko) Chrome/66.0.3359.139 Safari/537.36";
  "Mozilla/5.0 (Linux; Android 8.0.0; FIG-LX3 Build/HUAWEIFIG-LX3) AppleWebKit/537.36 (KHTML, like Gecko) Chrome/69.0.3497.100 Mobile Safari/537.36";
  "Mozilla/5.0 (Windows; U; Windows NT 6.1; de-DE) AppleWebKit/534.17 (KHTML, like Gecko) Chrome/10.0.649.0 Safari/534.17";
  "Mozilla/5.0 (Windows NT 6.1; WOW64) AppleWebKit/537.36 (KHTML, like Gecko) Chrome/52.0.2743.116 Safari/537.36";
  "Mozilla/5.0 (Windows NT 6.1; WOW64) AppleWebKit/537.36 (KHTML, like Gecko) Chrome/51.0.2704.63 Safari/537.36";
  "Mozilla/5.0 (Windows NT 6.1) AppleWebKit/537.36 (KHTML, like Gecko) Chrome/41.0.2228.0 Safari/537.36";
  "Mozilla/5.0 (Windows NT 6.3; Win64; x64) AppleWebKit/537.36 (KHTML, like Gecko) Chrome/70.0.3538.67 Safari/537.36";
  "Mozilla/5.0 (Windows NT 10.0; Win64; x64) AppleWebKit/537.36 (KHTML, like Gecko) Chrome/62.0.3202.94 Safari/537.36";
  "Mozilla/5.0 (Windows NT 10.0; Win64; x64) AppleWebKit/537.36 (KHTML, like Gecko) Chrome/70.0.3538.110 Safari/537.36";
  "Mozilla/5.0 (Windows NT 6.1) AppleWebKit/537.36 (KHTML, like Gecko) Chrome/67.0.3396.99 Safari/537.36";
  "Mozilla/5.0 (Windows NT 10.0; Win64; x64) AppleWebKit/537.36 (KHTML, like Gecko) Chrome/54.0.2840.99 Safari/537.36";
  "Mozilla/5.0 (Windows NT 6.1; WOW64) AppleWebKit/537.36 (KHTML, like Gecko) Chrome/70.0.3538.67 Safari/537.36";
  "Mozilla/5.0 (Windows NT 10.0; Win64; x64) AppleWebKit/537.36 (KHTML, like Gecko) Chrome/58.0.3029.110 Safari/537.36";
  "Mozilla/5.0 (Windows NT 10.0) AppleWebKit/537.36 (KHTML, like Gecko) Chrome/70.0.3538.67 Safari/537.36";
  "Mozilla/5.0 (Windows NT 6.1) AppleWebKit/537.36 (KHTML, like Gecko) Chrome/70.0.3538.77 Safari/537.36";
  "Mozilla/5.0 (Windows NT 10.0; WOW64) AppleWebKit/537.36 (KHTML, like Gecko) Chrome/70.0.3538.67 Safari/537.36";
  "Mozilla/5.0 (Windows NT 6.1; WOW64) AppleWebKit/537.36 (KHTML, like Gecko) Chrome/43.0.2357.65 Safari/537.36";
  "Mozilla/5.0 (Linux; Android 7.1; Mi A1 Build/N2G47H) AppleWebKit/537.36 (KHTML, like Gecko) Chrome/58.0.3029.83 Mobile Safari/537.36";
  "Mozilla/5.0 (Windows NT 6.1; Win64; x64) AppleWebKit/537.36 (KHTML, like Gecko) Chrome/66.0.3359.117 Safari/537.36";
  "Mozilla/5.0 (Windows NT 6.3; Win64; x64) AppleWebKit/537.36 (KHTML, like Gecko) Chrome/57.0.2987.133 Safari/537.36";
  "Mozilla/5.0 (Windows NT 6.1; Win64; x64) AppleWebKit/537.36 (KHTML, like Gecko) Chrome/65.0.3325.181 Safari/537.36";
  "Mozilla/5.0 (Windows; U; Windows NT 5.1; en-US) AppleWebKit/533.4 (KHTML, like Gecko) Chrome/5.0.375.99 Safari/533.4";
  "Mozilla/5.0 (Windows NT 6.1; WOW64) AppleWebKit/537.36 (KHTML, like Gecko) Chrome/36.0.1985.125 Safari/537.36";
  "Mozilla/5.0 (Windows NT 6.1; Win64; x64) AppleWebKit/537.36 (KHTML, like Gecko) Chrome/62.0.3202.89 Safari/537.36";
  "Mozilla/5.0 (Windows NT 6.1; WOW64) AppleWebKit/537.36 (KHTML, like Gecko) Chrome/47.0.2526.111 Safari/537.36 MVisionPlayer/1.0.0.0";
  "Mozilla/5.0 (Windows NT 10.0; WOW64) AppleWebKit/537.36 (KHTML, like Gecko) Chrome/51.0.2704.103 Safari/537.36";
  "Mozilla/5.0 (Linux; Android 5.1; A37f Build/LMY47V) AppleWebKit/537.36 (KHTML, like Gecko) Chrome/43.0.2357.93 Mobile Safari/537.36";
  "Mozilla/5.0 (Windows NT 6.1; Win64; x64) AppleWebKit/537.36 (KHTML, like Gecko) Chrome/63.0.3239.132 Safari/537.36";
  "Mozilla/5.0 (Windows NT 6.1; WOW64) AppleWebKit/537.36 (KHTML, like Gecko) Chrome/56.0.2924.87 Safari/537.36";
  "Mozilla/5.0 (Windows NT 6.0; Win64; x64) AppleWebKit/537.36 (KHTML, like Gecko) Chrome/57.0.2987.133 Safari/537.36";
  "Mozilla/5.0 (Windows NT 6.1; Win64; x64) AppleWebKit/537.36 (KHTML, like Gecko) Chrome/60.0.3112.113 Safari/537.36";
  "Mozilla/5.0 (Windows NT 6.2; Win64; x64) AppleWebKit/537.36 (KHTML, like Gecko) Chrome/57.0.2987.133 Safari/537.36";
  "Mozilla/5.0 (Windows NT 6.1; Win64; x64) AppleWebKit/537.36 (KHTML, like Gecko) Chrome/61.0.3163.100 Safari/537.36";
  "Mozilla/5.0 (Windows NT 10.0; WOW64) AppleWebKit/537.36 (KHTML, like Gecko) Chrome/46.0.2490.86 Safari/537.36";
  "Mozilla/5.0 (Windows NT 6.1; Win64; x64) AppleWebKit/537.36 (KHTML, like Gecko) Chrome/70.0.3538.110 Safari/537.36";
  "Mozilla/5.0 (Windows NT 6.1; WOW64) AppleWebKit/537.36 (KHTML, like Gecko) Chrome/41.0.2272.76 Safari/537.36";
  "Mozilla/5.0 (Windows NT 6.1; WOW64) AppleWebKit/537.36 (KHTML, like Gecko) Chrome/55.0.2883.87 Safari/537.36";
  "Mozilla/5.0 (Windows NT 5.1; Win64; x64) AppleWebKit/537.36 (KHTML, like Gecko) Chrome/57.0.2987.133 Safari/537.36";
  "Mozilla/5.0 (Windows NT 6.3; Win64; x64) AppleWebKit/537.36 (KHTML, like Gecko) Chrome/70.0.3538.77 Safari/537.36";
  "Mozilla/5.0 (Windows NT 6.1) AppleWebKit/537.36 (KHTML, like Gecko) Chrome/70.0.3538.102 Safari/537.36";
  "Mozilla/5.0 (Windows NT 6.3; WOW64) AppleWebKit/537.36 (KHTML, like Gecko) Chrome/46.0.2490.80 Safari/537.36";
  "Mozilla/5.0 (Linux; Android 6.0.1; CPH1607 Build/MMB29M; wv) AppleWebKit/537.36 (KHTML, like Gecko) Version/4.0 Chrome/63.0.3239.111 Mobile Safari/537.36";
  "Mozilla/5.0 (Windows NT 6.1; Win64; x64) AppleWebKit/537.36 (KHTML, like Gecko) Chrome/54.0.2840.99 Safari/537.36";
  "Mozilla/5.0 (Windows NT 6.1) AppleWebKit/537.36 (KHTML, like Gecko) Chrome/39.0.2171.95 Safari/537.36";
  "Mozilla/5.0 (Macintosh; Intel Mac OS X 10_12_6) AppleWebKit/537.36 (KHTML, like Gecko) Chrome/61.0.3163.100 Safari/537.36";
  "Mozilla/5.0 (Linux; Android 6.0.1; vivo 1603 Build/MMB29M) AppleWebKit/537.36 (KHTML, like Gecko) Chrome/58.0.3029.83 Mobile Safari/537.36";
  "Mozilla/5.0 (Windows NT 6.1; Win64; x64) AppleWebKit/537.36 (KHTML, like Gecko) Chrome/64.0.3282.186 Safari/537.36";
  "Mozilla/5.0 (Linux; Android 6.0.1; SM-G532M Build/MMB29T) AppleWebKit/537.36 (KHTML, like Gecko) Chrome/69.0.3497.100 Mobile Safari/537.36";
  "Mozilla/5.0 (Windows NT 6.1; Win64; x64) AppleWebKit/537.36 (KHTML, like Gecko) Chrome/58.0.3029.110 Safari/537.36";
  "Mozilla/5.0 (Windows NT 10.0; Win64; x64) AppleWebKit/537.36 (KHTML, like Gecko) Chrome/67.0.3396.87 Safari/537.36";
  "Mozilla/5.0 (Linux; Android 6.0.1; Redmi 4A Build/MMB29M; wv) AppleWebKit/537.36 (KHTML, like Gecko) Version/4.0 Chrome/60.0.3112.116 Mobile Safari/537.36";
  "Mozilla/5.0 (Windows NT 6.1; WOW64) AppleWebKit/537.36 (KHTML, like Gecko) Chrome/51.0.2704.103 Safari/537.36";
  "Mozilla/5.0 (Windows NT 6.0) AppleWebKit/537.36 (KHTML, like Gecko) Chrome/49.0.2623.112 Safari/537.36";
  "Mozilla/5.0 (Windows NT 10.0; Win64; x64) AppleWebKit/537.36 (KHTML, like Gecko) Chrome/60.0.3112.113 Safari/537.36";
  "Mozilla/5.0 (Windows NT 6.1; Win64; x64) AppleWebKit/537.36 (KHTML, like Gecko) Chrome/60.0.3112.90 Safari/537.36";
  "Mozilla/5.0 (X11; Linux x86_64) AppleWebKit/537.36 (KHTML, like Gecko) Chrome/44.0.2403.157 Safari/537.36";
  "Mozilla/5.0 (Windows NT 5.1) AppleWebKit/537.36 (KHTML, like Gecko) Chrome/46.0.2490.71 Safari/537.36";
  "Mozilla/5.0 (Windows NT 5.1; Win64; x64) AppleWebKit/537.36 (KHTML, like Gecko) Chrome/60.0.3112.90 Safari/537.36";
  "Mozilla/5.0 (Windows NT 6.2; Win64; x64) AppleWebKit/537.36 (KHTML, like Gecko) Chrome/60.0.3112.90 Safari/537.36";
  "Mozilla/5.0 (Windows NT 10.0; Win64; x64) AppleWebKit/537.36 (KHTML, like Gecko) Chrome/69.0.3497.100 Safari/537.36";
  "Mozilla/5.0 (Windows NT 6.3; Win64; x64) AppleWebKit/537.36 (KHTML, like Gecko) Chrome/60.0.3112.113 Safari/537.36";
  "Mozilla/5.0 (Windows NT 6.2; WOW64) AppleWebKit/537.36 (KHTML, like Gecko) Chrome/42.0.2311.90 Safari/537.36";
  "Mozilla/5.0 (Windows NT 10.0; Win64; x64) AppleWebKit/537.36 (KHTML, like Gecko) Chrome/63.0.3239.132 Safari/537.36";
  "Mozilla/5.0 (Windows NT 10.0; Win64; x64) AppleWebKit/537.36 (KHTML, like Gecko) Chrome/57.0.2987.133 Safari/537.36";
  "Mozilla/5.0 (Windows NT 10.0; Win64; x64) AppleWebKit/537.36 (KHTML, like Gecko) Chrome/60.0.3112.90 Safari/537.36";
  "Mozilla/5.0 (Windows NT 10.0; Win64; x64) AppleWebKit/537.36 (KHTML, like Gecko) Chrome/70.0.3538.77 Safari/537.36";
  "Mozilla/5.0 (Windows NT 6.1; Win64; x64) AppleWebKit/537.36 (KHTML, like Gecko) Chrome/69.0.3497.100 Safari/537.36";
  "Mozilla/5.0 (Windows NT 10.0; Win64; x64) AppleWebKit/537.36 (KHTML, like Gecko) Chrome/67.0.3396.99 Safari/537.36";
  "Mozilla/5.0 (Windows NT 10.0; Win64; x64) AppleWebKit/537.36 (KHTML, like Gecko) Chrome/61.0.3163.100 Safari/537.36";
  "Mozilla/5.0 (Windows NT 6.1; Win64; x64) AppleWebKit/537.36 (KHTML, like Gecko) Chrome/70.0.3538.77 Safari/537.36";
  "Mozilla/5.0 (Windows NT 10.0; Win64; x64) AppleWebKit/537.36 (KHTML, like Gecko) Chrome/70.0.3538.102 Safari/537.36";
  "Mozilla/5.0 (Windows NT 6.1; WOW64) AppleWebKit/537.31 (KHTML, like Gecko) Chrome/26.0.1410.64 Safari/537.31";
  "Mozilla/5.0 (Windows NT 10.0; Win64; x64) AppleWebKit/537.36 (KHTML, like Gecko) Chrome/63.0.3239.84 Safari/537.36";
  "Mozilla/5.0 (Windows NT 10.0; Win64; x64) AppleWebKit/537.36 (KHTML, like Gecko) Chrome/55.0.2883.87 Safari/537.36";
  "Mozilla/5.0 (Windows NT 6.1; Win64; x64) AppleWebKit/537.36 (KHTML, like Gecko) Chrome/57.0.2987.133 Safari/537.36";
  "Mozilla/5.0 (Windows NT 10.0; Win64; x64) AppleWebKit/537.36 (KHTML, like Gecko) Chrome/64.0.3282.186 Safari/537.36";
  "Mozilla/5.0 (Windows NT 10.0; Win64; x64) AppleWebKit/537.36 (KHTML, like Gecko) Chrome/59.0.3071.115 Safari/537.36";
  "Mozilla/5.0 (Windows NT 10.0; Win64; x64) AppleWebKit/537.36 (KHTML, like Gecko) Chrome/68.0.3440.106 Safari/537.36";
  "Mozilla/5.0 (Windows NT 6.1) AppleWebKit/537.36 (KHTML, like Gecko) Chrome/69.0.3497.100 Safari/537.36";
  "Mozilla/5.0 (Windows NT 6.1; Win64; x64) AppleWebKit/537.36 (KHTML, like Gecko) Chrome/55.0.2883.87 Safari/537.36";
  "Mozilla/5.0 (Windows NT 6.1; WOW64) AppleWebKit/537.36 (KHTML, like Gecko) Chrome/46.0.2490.80 Safari/537.36";
  "Mozilla/5.0 (Windows NT 6.1; WOW64) AppleWebKit/537.36 (KHTML, like Gecko) Chrome/36.0.1985.143 Safari/537.36";
  "Mozilla/5.0 (Windows NT 5.1) AppleWebKit/537.36 (KHTML, like Gecko) Chrome/49.0.2623.112 Safari/537.36";
  "Mozilla/5.0 (Windows NT 10.0; Win64; x64) AppleWebKit/537.36 (KHTML, like Gecko) Chrome/70.0.3538.67 Safari/537.36";
  "Mozilla/5.0 (Windows NT 10.0; Win64; x64) AppleWebKit/537.36 (KHTML, like Gecko) Chrome/65.0.3325.181 Safari/537.36";
  "Mozilla/5.0 (Windows NT 10.0; Win64; x64) AppleWebKit/537.36 (KHTML, like Gecko) Chrome/66.0.3359.181 Safari/537.36";
  "Mozilla/5.0 (Windows NT 6.1; Win64; x64) AppleWebKit/537.36 (KHTML, like Gecko) Chrome/67.0.3396.99 Safari/537.36";
  "Mozilla/5.0 (Windows NT 10.0; WOW64) AppleWebKit/537.36 (KHTML, like Gecko) Chrome/52.0.2743.116 Safari/537.36";
  "Mozilla/5.0 (Windows NT 6.1; WOW64) AppleWebKit/537.36 (KHTML, like Gecko) Chrome/51.0.2704.106 Safari/537.36";
  "Mozilla/5.0 (Windows NT 6.3; Win64; x64) AppleWebKit/537.36 (KHTML, like Gecko) Chrome/69.0.3497.100 Safari/537.36";
  "Mozilla/5.0 (Linux; Android 6.0.1; SM-G532G Build/MMB29T) AppleWebKit/537.36 (KHTML, like Gecko) Chrome/63.0.3239.83 Mobile Safari/537.36";
  "Mozilla/5.0 (Windows NT 6.1; WOW64) AppleWebKit/537.36 (KHTML, like Gecko) Chrome/48.0.2564.109 Safari/537.36";
  "Mozilla/5.0 (Windows NT 10.0; Win64; x64) AppleWebKit/537.36 (KHTML, like Gecko) Chrome/66.0.3359.117 Safari/537.36";
  "Mozilla/5.0 (Windows NT 10.0; Win64; x64) AppleWebKit/537.36 (KHTML, like Gecko) Chrome/66.0.3359.139 Safari/537.36";
  "Mozilla/5.0 (Windows NT 6.1; Win64; x64) AppleWebKit/537.36 (KHTML, like Gecko) Chrome/70.0.3538.102 Safari/537.36";
  "Mozilla/5.0 (Windows NT 6.1; Win64; x64) AppleWebKit/537.36 (KHTML, like Gecko) Chrome/70.0.3538.67 Safari/537.36";
  "Mozilla/5.0 (Windows NT 6.1; WOW64) AppleWebKit/537.36 (KHTML, like Gecko) Chrome/34.0.1847.131 Safari/537.36";
  "Mozilla/5.0 (Linux; Android 6.0; vivo 1713 Build/MRA58K) AppleWebKit/537.36 (KHTML, like Gecko) Chrome/53.0.2785.124 Mobile Safari/537.36";
  "Mozilla/5.0 (Windows NT 10.0; Win64; x64) AppleWebKit/537.36 (KHTML, like Gecko) Chrome/62.0.3202.89 Safari/537.36";
  "Mozilla/5.0 (Windows NT 10.0; WOW64) AppleWebKit/537.36 (KHTML, like Gecko) Chrome/46.0.2490.80 Safari/537.36";
  "Mozilla/5.0 (Windows NT 6.1; WOW64) AppleWebKit/537.36 (KHTML, like Gecko) Chrome/41.0.2272.101 Safari/537.36";
  "Mozilla/5.0 (Windows NT 6.1) AppleWebKit/537.36 (KHTML, like Gecko) Chrome/70.0.3538.67 Safari/537.36";
  "Mozilla/5.0 (Windows NT 6.1; Win64; x64) AppleWebKit/537.36 (KHTML, like Gecko) Chrome/68.0.3440.106 Safari/537.36" ]%string.

Definition hex_digit (v : Z) : Z := if v <? 10 then 48 + v else 87 + v.
(** [hex.EncodeToString] of one byte. *)
Definition hex2 (b : Z) : list Z := [hex_digit (Z.shiftr b 4); hex_digit (Z.land b 15)].
Definition packURLEncodedHeadData (data : list Z) : list Z := concat ((λ b, 37 :: hex2 b) <$> data).

Fixpoint boundary_chars (n : nat) (r : rng) : list Z * rng :=
  match n with
  | O => ([], r)
  | S k =>
      let set := str "ABCDEFGHIJKLMNOPQRSTUVWXYZabcdefghijklmnopqrstuvwxyz0123456789" in
      let '(x, r1) := Intn 62 r in
      let '(l, r2) := boundary_chars k r1 in (byte_at set (Z.to_nat x) :: l, r2)
  end.
Definition packBoundary (r : rng) : list Z * rng :=
  let '(l, r1) := boundary_chars 32 r in
  (str "Content-Type: multipart/form-data; boundary=" ++ l ++ CRLF, r1).

(** [strings.ReplaceAll(s, old, new)] for a non-empty [old]. *)
Fixpoint ReplaceAll_loop (fuel : nat) (s old new : list Z) : list Z :=
  match fuel, s with
  | O, _ => s
  | _, [] => []
  | S f, x :: s' =>
      if bool_decide (take (length old) s = old) then new ++ ReplaceAll_loop f (drop (length old) s) old new
      else x :: ReplaceAll_loop f s' old new
  end.
Definition ReplaceAll (s old new : list Z) : list Z := ReplaceAll_loop (length s) s old new.

(** Host and body of the parameter. *)
Definition http_param (b : ObfsBase) : gostring * gostring :=
  match o_Param b with
  | [] => (o_Host b, [])
  | p =>
      match index_byte 35 p with
      | Some pos => (take pos p, ReplaceAll (ReplaceAll (drop (S pos) p) [10] CRLF) [92; 110] CRLF)
      | None => (p, [])
      end
  end.
Definition choose (l : list gostring) (r : rng) : gostring * rng :=
  let '(x, r1) := Intn (Z.of_nat (length l)) r in (default [] (l !! Z.to_nat x), r1).

Record httpConn := HttpConn {
  h_conn : conn;
  h_hasSentHeader : bool;
  h_hasRecvHeader : bool;
  h_buf : option (list Z);
}.
Definition new_http (c : conn) : httpConn := HttpConn c false false None.

(** The request head for the head data, up to the empty line. *)
Definition http_head (post : bool) (b : ObfsBase) (headData : list Z) (r : rng) : list Z * rng :=
  let '(host0, body) := http_param b in
  let '(host, r1) := choose (split_byte 44 host0) r in
  let start := (if post then str "POST /" else str "GET /") ++ packURLEncodedHeadData headData ++
               str " HTTP/1.1" ++ CRLF ++ str "Host: " ++ host ++
               (if o_Port b =? 80 then [] else str ":" ++ itoa (o_Port b)) ++ CRLF in
  match body with
  | _ :: _ => (start ++ body ++ CRLF ++ CRLF, r1)
  | [] =>
      let '(ua, r2) := choose (str <$> userAgent) r1 in
      let accept := CRLF ++ str "Accept: text/html,application/xhtml+xml,application/xml;q=0.9,*/*;q=0.8" ++ CRLF ++
                    str "Accept-Language: en-US,en;q=0.8" ++ CRLF ++ str "Accept-Encoding: gzip, deflate" ++ CRLF in
      let '(bd, r3) := if post then packBoundary r2 else ([], r2) in
      (start ++ str "User-Agent: " ++ ua ++ accept ++ bd ++
       str "DNT: 1" ++ CRLF ++ str "Connection: keep-alive" ++ CRLF ++ CRLF, r3)
  end.

Definition http_Write (post : bool) (b : ObfsBase) (d : list Z) (c : httpConn) (r : rng) : httpConn * rng * res nat :=
  if h_hasSentHeader c then
    let '(c1, (n, e)) := conn_write d (h_conn c) in
    (HttpConn c1 true (h_hasRecvHeader c) (h_buf c), r, done_or e n)
  else
    let headLength := Z.of_nat (o_IVSize b) + 30 in
    let '(n, r1) :=
      if 64 <? Z.of_nat (length d) - headLength
      then let '(x, r1) := Intn 65 r in (Z.to_nat (headLength + x), r1) else (length d, r) in
    let '(head, r2) := http_head post b (take n d) r1 in
    let '(c1, e) := put (head ++ drop n d) (h_conn c) in
    match e with
    | Some _ => (HttpConn c1 false (h_hasRecvHeader c) (h_buf c), r2, Ret 0%nat)
    | None => (HttpConn c1 true (h_hasRecvHeader c) (h_buf c), r2, Ret (length d))
    end.

(** [bytes.Index(b, sep)]. *)
Fixpoint bytes_Index (sep b : list Z) : option nat :=
  if bool_decide (take (length sep) b = sep) then Some 0%nat
  else match b with [] => None | _ :: b' => S <$> bytes_Index sep b' end.

Definition http_Read (n : nat) (c : httpConn) : httpConn * res (list Z) :=
  match h_buf c with
  | Some buf =>
      (HttpConn (h_conn c) (h_hasSentHeader c) (h_hasRecvHeader c)
         (if (length buf <=? n)%nat then None else Some (drop n buf)), Ret (take n buf))
  | None =>
      if h_hasRecvHeader c then
        let '(c1, x) := conn_read n (h_conn c) in (HttpConn c1 (h_hasSentHeader c) true None, x)
      else
        match conn_read relayBufferSize (h_conn c) with
        | (c1, Ret d) =>
            match bytes_Index (CRLF ++ CRLF) d with
            | None => (HttpConn c1 (h_hasSentHeader c) false None, Fail io_EOF)
            | Some pos =>
                let data := drop (pos + 4) d in
                (HttpConn c1 (h_hasSentHeader c) true
                   (if (n <? length data)%nat then Some (drop n data) else None), Ret (take n data))
            end
        | (c1, Fail e) => (HttpConn c1 (h_hasSentHeader c) false None, Fail e)
        | (c1, Panic) => (HttpConn c1 (h_hasSentHeader c) false None, Panic)
        end
  end.

(** ** tls1.2_ticket_auth *)
Section TLS.
Context (HmacSHA1 : list Z → list Z → list Z).

Definition errMagic := errNew "tls1.2_ticket_auth incorrect magic number".
Definition errTooShort := errNew "tls1.2_ticket_auth too short data".
Definition errHMAC := errNew "tls1.2_ticket_auth hmac verifying failed".

Record tls12TicketConn := Tls12TicketConn {
  t_conn : conn;
  t_status : Z;
  t_decoded : list Z;
  t_underDecoded : list Z;
  t_sendBuf : list Z;
}.
Definition new_tls (c : conn) : tls12TicketConn := Tls12TicketConn c 0 [] [] [].

(** The obfuscator: its base and the client id drawn when it is made. *)
Context (b : ObfsBase) (clientID : list Z).

Definition tls_hmac (data : list Z) : list Z := take 10 (HmacSHA1 (o_Key b ++ clientID) data).

Definition tls_packData (buf data : list Z) : list Z :=
  buf ++ [23; 3; 3] ++ be16 (u16 (Z.of_nat (length data))) ++ data.
Definition tls_packAuthData (now : Z) (buf : list Z) (r : rng) : list Z * rng :=
  let '(b1, r1) := AppendRandBytes (buf ++ be32 (u32 now)) 18 r in
  (b1 ++ tls_hmac (last_bytes 22 b1), r1).
Definition packSNIData (buf u : list Z) : list Z :=
  let len := u16 (Z.of_nat (length u)) in
  buf ++ [0; 0] ++ be16 (u16 (len + 5)) ++ be16 (u16 (len + 3)) ++ [0] ++ be16 len ++ u.
Definition packTicketBuf (buf : list Z) (r : rng) : list Z * rng :=
  let '(x, r1) := Intn 17 r in
  let len := 16 * (x + 8) in
  AppendRandBytes (buf ++ [0; 35] ++ be16 (u16 len)) len r1.
Definition getHost (r : rng) : gostring * rng :=
  let host := match o_Param b with [] => o_Host b | p => p end in
  let digit := match list.last host with Some c => (48 <=? c) && (c <=? 57) | None => false end in
  choose (split_byte 44 (if (digit : bool) then [] else host)) r.

(** The client hello. *)
Definition tls_hello (now : Z) (r : rng) : list Z * rng :=
  let '(d1, r1) := tls_packAuthData now [3; 3] r in
  let d2 := d1 ++ [32] ++ clientID ++
    [0; 28; 192; 43; 192; 47; 204; 169; 204; 168; 204; 20; 204; 19; 192; 10; 192; 20; 192; 9; 192; 19; 0; 156; 0; 53; 0; 47; 0; 10] ++ [1; 0] in
  let '(host, r2) := getHost r1 in
  let e1 := packSNIData [255; 1; 0; 1; 0] host ++ [0; 23; 0; 0] in
  let '(e2, r3) := packTicketBuf e1 r2 in
  let ext := e2 ++
    [0; 13; 0; 22; 0; 20; 6; 1; 6; 3; 5; 1; 5; 3; 4; 1; 4; 3; 3; 1; 3; 3; 2; 1; 2; 3] ++
    [0; 5; 0; 5; 1; 0; 0; 0; 0] ++ [0; 18; 0; 0] ++ [117; 80; 0; 0] ++ [0; 11; 0; 2; 1; 0] ++
    [0; 10; 0; 6; 0; 4; 0; 23; 0; 24] in
  let data := d2 ++ be16 (u16 (Z.of_nat (length ext))) ++ ext in
  ([22; 3; 1] ++ be16 (u16 (Z.of_nat (length data) + 4)) ++ [1; 0] ++ be16 (u16 (Z.of_nat (length data))) ++ data, r3).

(** The client's second flight, before the buffered data. *)
Definition tls_finish (r : rng) : list Z * rng :=
  let '(b1, r1) := AppendRandBytes [20; 3; 3; 0; 1; 1; 22; 3; 3; 0; 32] 22 r in
  (b1 ++ take 10 (tls_hmac b1), r1).

(** The loop of [Write] after the handshake: records of random size. *)
Fixpoint tls_write_loop (fuel : nat) (buf d : list Z) (r : rng) : list Z * rng :=
  match fuel with
  | O => (buf, r)
  | S f =>
      if 2048 <? Z.of_nat (length d) then
        let '(x, r1) := Intn 4096 r in
        let size := Nat.min (length d) (Z.to_nat (x + 100)) in
        tls_write_loop f (tls_packData buf (take size d)) (drop size d) r1
      else match d with [] => (buf, r) | _ => (tls_packData buf d, r) end
  end.

Definition tls_Write (now : Z) (d : list Z) (c : tls12TicketConn) (r : rng) : tls12TicketConn * rng * res nat :=
  if t_status c =? 8 then
    let '(buf, r1) := tls_write_loop (S (length d)) [] d r in
    let '(c1, e) := put buf (t_conn c) in
    (Tls12TicketConn c1 8 (t_decoded c) (t_underDecoded c) (t_sendBuf c), r1, done_or e (length d))
  else
    let sendBuf := match d with [] => t_sendBuf c | _ => tls_packData (t_sendBuf c) d end in
    if t_status c =? 0 then
      let '(hello, r1) := tls_hello now r in
      let '(c1, e) := put hello (t_conn c) in
      (Tls12TicketConn c1 1 (t_decoded c) (t_underDecoded c) sendBuf, r1, done_or e (length d))
    else if (t_status c =? 1) && (length d =? 0)%nat then
      let '(fin, r1) := tls_finish r in
      let '(c1, e) := put (fin ++ sendBuf) (t_conn c) in
      (Tls12TicketConn c1 8 (t_decoded c) (t_underDecoded c) [], r1, done_or e 0%nat)
    else (Tls12TicketConn (t_conn c) (t_status c) (t_decoded c) (t_underDecoded c) sendBuf, r, Ret (length d)).

(** The record loop of [Read]. *)
Fixpoint tls_loop (fuel : nat) (st : unit) (dst src : list Z) : unit * list Z * list Z * decode_result :=
  match fuel with
  | O => (st, dst, src, DOk)
  | S f =>
      if (length src <=? 5)%nat then (st, dst, src, DOk) else
      if negb (bytes_Equal (take 3 src) [23; 3; 3]) then (st, dst, [], DErr errMagic) else
      let size := Z.to_nat (get_be16 (take 2 (drop 3 src))) in
      if (length src <? 5 + size)%nat then (st, dst, src, DOk) else
      tls_loop f st (dst ++ take size (drop 5 src)) (drop (5 + size) src)
  end.
Definition tls_decode (st : unit) (dst src : list Z) := tls_loop (length src) st dst src.

(** The checks of the server's hello, of which [d] was read. *)
Definition tls_server_hello (d : list Z) : option error :=
  let n := length d in
  if (n <? 11 + 32 + 1 + 32)%nat then Some errTooShort else
  if negb (bytes_Equal (take 10 (drop 33 d)) (take 10 (tls_hmac (take 22 (drop 11 d))))) ||
     negb (bytes_Equal (drop (n - 10) d) (take 10 (tls_hmac (take (n - 10) d)))) then Some errHMAC else None.

Definition tls_Read (now : Z) (n : nat) (c : tls12TicketConn) (r : rng) : tls12TicketConn * rng * res (list Z) :=
  match t_decoded c with
  | _ :: _ =>
      (Tls12TicketConn (t_conn c) (t_status c) (drop n (t_decoded c)) (t_underDecoded c) (t_sendBuf c), r,
       Ret (take n (t_decoded c)))
  | [] =>
      match conn_read relayBufferSize (t_conn c) with
      | (c1, Ret d) =>
          if t_status c =? 8 then
            match tls_decode tt (t_decoded c) (t_underDecoded c ++ d) with
            | (_, dst, src, DErr e) => (Tls12TicketConn c1 8 dst src (t_sendBuf c), r, Fail e)
            | (_, dst, src, _) => (Tls12TicketConn c1 8 (drop n dst) src (t_sendBuf c), r, Ret (take n dst))
            end
          else
            let c' := Tls12TicketConn c1 (t_status c) (t_decoded c) (t_underDecoded c) (t_sendBuf c) in
            match tls_server_hello d with
            | Some e => (c', r, Fail e)
            | None => let '(c2, r2, _) := tls_Write now [] c' r in (c2, r2, Ret [])
            end
      | (c1, Fail e) => (Tls12TicketConn c1 (t_status c) (t_decoded c) (t_underDecoded c) (t_sendBuf c), r, Fail e)
      | (c1, Panic) => (Tls12TicketConn c1 (t_status c) (t_decoded c) (t_underDecoded c) (t_sendBuf c), r, Panic)
      end
  end.
End TLS.

(** ** random_head: the data follows the header *)
Lemma put_unbounded b c : c_wbudget c = None → put b c = (set_out (c_out c ++ b) None c, None).
Proof. intros H. unfold put. by rewrite conn_write_unbounded. Qed.

Fixpoint rh_Writes (ws : list (list Z)) (c : randomHeadConn) (r : rng) : randomHeadConn * rng :=
  match ws with
  | [] => (c, r)
  | w :: ws => let '(c1, r1, _) := rh_Write w c r in rh_Writes ws c1 r1
  end.

(** The phases of a connection: nothing sent, only the header sent and the data
    kept back, everything sent. *)
Inductive rh_phase (out0 : list Z) : randomHeadConn → list Z → Prop :=
| rh_start c : c_wbudget c = None → c_out c = out0 → rh_phase out0 (RandomHeadConn c false false false []) []
| rh_started c : c_wbudget c = None → c_out c = out0 → rh_phase out0 (RandomHeadConn c false false true []) []
| rh_held c h recv data : c_wbudget c = None → c_out c = out0 ++ h → length h ≠ 0%nat →
    rh_phase out0 (RandomHeadConn c true false recv data) data
| rh_raw c h data : c_wbudget c = None → c_out c = out0 ++ h ++ data → length h ≠ 0%nat →
    rh_phase out0 (RandomHeadConn c true true true []) data.

Lemma rh_header_nonempty r : length (rh_header r).1 ≠ 0%nat.
Proof. unfold rh_header. destruct (Intn 96 r) as [x r1]. cbn. rewrite length_app. cbn. lia. Qed.

Lemma rh_Write_phase out0 c data w r : rh_phase out0 c data →
  rh_phase out0 (rh_Write w c r).1.1 (data ++ w).
Proof.
  intros H. destruct H as [c Hb Ho|c Hb Ho|c h recv data Hb Ho Hh|c h data Hb Ho Hh]; unfold rh_Write; cbn -[put conn_write rh_header].
  1-2: pose proof (rh_header_nonempty r) as Hne; destruct (rh_header r) as [h r1]; rewrite put_unbounded by done;
       cbn -[put] in *; eapply rh_held; [done|simpl; by rewrite Ho|exact Hne].
  - destruct recv; [|by eapply rh_held]. rewrite put_unbounded by done. cbn.
    eapply (rh_raw _ _ h); [done|simpl; by rewrite Ho, <-app_assoc|done].
  - rewrite conn_write_unbounded by done. cbn.
    eapply (rh_raw _ _ h); [done|simpl; by rewrite Ho, <-!app_assoc|done].
Qed.

Lemma rh_Writes_recv ws : ∀ c r, rh_rawTransRecv (rh_Writes ws c r).1 = rh_rawTransRecv c.
Proof.
  induction ws as [|w ws IH]; intros c r; [done|]. cbn [rh_Writes].
  assert (rh_rawTransRecv (rh_Write w c r).1.1 = rh_rawTransRecv c) as H.
  { unfold rh_Write. repeat case_match; simplify_eq; done. }
  destruct (rh_Write w c r) as [[c1 r1] x]. simpl in *. by rewrite IH.
Qed.
Lemma rh_Writes_sent ws : ∀ c r, rh_rawTransSent c = true → rh_rawTransSent (rh_Writes ws c r).1 = true.
Proof.
  induction ws as [|w ws IH]; intros c r H; [done|]. cbn [rh_Writes]. unfold rh_Write. rewrite H.
  destruct (conn_write w (rh_conn c)) as [c1 [n e]]. by apply IH.
Qed.
Lemma rh_Writes_phase out0 ws : ∀ c data r, rh_phase out0 c data →
  rh_phase out0 (rh_Writes ws c r).1 (data ++ concat ws).
Proof.
  induction ws as [|w ws IH]; intros c data r H; [simpl; by rewrite app_nil_r|].
  cbn [rh_Writes]. pose proof (rh_Write_phase out0 c data w r H) as H1. destruct (rh_Write w c r) as [[c1 r1] x].
  simpl in H1. simpl. rewrite app_assoc. by apply IH.
Qed.

(** Random_head: whatever is written before the first [Read] is kept
    back while the header goes out, and that [Read] (which drops the server's
    first message) sends it; then everything written is on the wire in order behind
    one header, and later reads and writes pass through unchanged. *)
Theorem random_head_delivers c r ws ws2 n :
  c_wbudget c = None → concat ws ≠ [] →
  ∃ h, let '(c1, r1) := rh_Writes ws (new_randomHead c) r in
       let '(c2, r2, x) := rh_Read n c1 r1 in
       let '(c3, r3) := rh_Writes ws2 c2 r2 in
       x = Ret [] ∧ c_out (rh_conn c3) = c_out c ++ h ++ concat ws ++ concat ws2 ∧ length h ≠ 0%nat ∧
       ∀ m, rh_Read m c3 r3 =
         (RandomHeadConn (conn_read m (rh_conn c3)).1 true true true [], r3, (conn_read m (rh_conn c3)).2).
Proof.
  intros Hb Hne. pose proof (rh_Writes_phase (c_out c) ws _ [] r (rh_start _ c Hb eq_refl)) as H1.
  fold (new_randomHead c) in H1. destruct (rh_Writes ws (new_randomHead c) r) as [c1 r1] eqn:E1. cbn [fst app] in H1.
  assert (rh_rawTransRecv c1 = false) as Hrecv.
  { pose proof (rh_Writes_recv ws (new_randomHead c) r) as H. by rewrite E1 in H. }
  inversion H1 as [| |c0 h recv d Hb0 Ho0 Hh|]; subst; simpl in Hrecv; try congruence. subst recv.
  unfold rh_Read at 1. cbn [rh_rawTransRecv rh_conn].
  destruct (conn_read relayBufferSize c0) as [c0' x0] eqn:Er.
  assert (c_wbudget c0' = None ∧ c_out c0' = c_out c0) as [Hb0' Ho0'].
  { unfold conn_read in Er. destruct (c_in c0); [by simplify_eq|]. by case_match; simplify_eq. }
  unfold rh_Write. cbn -[put]. rewrite app_nil_r, put_unbounded by done. cbn -[put rh_Writes].
  set (c2 := RandomHeadConn _ true true true []).
  assert (rh_phase (c_out c) c2 (concat ws)) as H2.
  { apply (rh_raw _ _ h); [done|simpl; by rewrite Ho0', Ho0, <-app_assoc|done]. }
  pose proof (rh_Writes_phase (c_out c) ws2 c2 (concat ws) r1 H2) as H3.
  assert (rh_rawTransSent (rh_Writes ws2 c2 r1).1 = true) as Hs by (apply rh_Writes_sent; done).
  destruct (rh_Writes ws2 c2 r1) as [c3 r3]. cbn [fst] in *.
  inversion H3 as [| | |c4 h' d Hb4 Ho4 Hh' Hc Hd]; subst; simpl in Hs; try congruence.
  exists h'. split_and!; [done|done|done|]. intros m. unfold rh_Read. cbn. by destruct (conn_read m c4).
Qed.

(** ** tls1.2_ticket_auth: the records carry the data *)
Section TLS_roundtrip.
Context (HmacSHA1 : list Z → list Z → list Z) (b : ObfsBase) (clientID : list Z).
Abbreviation tls_Write := (tls_Write HmacSHA1 b clientID).
Abbreviation tls_Read := (tls_Read HmacSHA1 b clientID).

Definition tls_sends (_ : unit) (d f : list Z) (_ : unit) : Prop :=
  f = tls_packData [] d ∧ 0 < Z.of_nat (length d) < 65536.
Definition always (_ _ : unit) : Prop := True.

Lemma tls_record_length d : length (tls_packData [] d) = (5 + length d)%nat.
Proof. unfold tls_packData. rewrite !length_app, length_be16. done. Qed.
Lemma tls_record_size d rest : 0 < Z.of_nat (length d) < 65536 →
  Z.to_nat (get_be16 (take 2 (drop 3 (tls_packData [] d ++ rest)))) = length d.
Proof.
  intros Hd. assert (u16 (Z.of_nat (length d)) = Z.of_nat (length d)) as E by (unfold u16; apply Z.mod_small; lia).
  change (take 2 (drop 3 (tls_packData [] d ++ rest))) with (be16 (u16 (Z.of_nat (length d)))).
  rewrite E, <-(app_nil_r (be16 _)), get_be16_be16 by lia. lia.
Qed.

Lemma tls_laws : FrameLaws tls_loop tls_sends always.
Proof.
  split.
  - intros s d f s' [-> _]. done.
  - intros fuel t dst. by destruct fuel.
  - intros s d f s' t [-> Hd] _. exists t. split; [done|]. intros fuel dst rest. cbn [tls_loop].
    rewrite (proj2 (Nat.leb_gt _ _)) by (rewrite length_app, tls_record_length; lia).
    rewrite tls_record_size by done. change (take 3 (tls_packData [] d ++ rest)) with [23; 3; 3].
    rewrite (bool_decide_eq_true_2 _ eq_refl : bytes_Equal _ _ = true). cbn [negb].
    rewrite (proj2 (Nat.ltb_ge _ _)) by (rewrite length_app, tls_record_length; lia).
    rewrite <-(tls_record_length d), drop_app_length.
    change (drop 5 (tls_packData [] d ++ rest)) with (d ++ rest). by rewrite take_app_length.
  - intros s d f s' t fuel dst p q [-> Hd] _ Hf Hq. exists t. split; [done|]. destruct fuel as [|fuel]; [done|].
    cbn [tls_loop]. destruct (length p <=? 5)%nat eqn:E; [done|]. zify_bool.
    assert (take 3 p = [23; 3; 3]) as -> by (by rewrite <-(take_prefix 3 p q), <-Hf by lia).
    rewrite (bool_decide_eq_true_2 _ eq_refl : bytes_Equal _ _ = true). cbn [negb].
    assert (Z.to_nat (get_be16 (take 2 (drop 3 p))) = length d) as ->.
    { rewrite <-(slice_prefix 3 2 p q), <-Hf by lia. rewrite <-(app_nil_r (tls_packData [] d)). by apply tls_record_size. }
    rewrite (proj2 (Nat.ltb_lt _ _)); [done|]. apply (f_equal length) in Hf. rewrite tls_record_length, length_app in Hf.
    destruct q; [done|]. simpl in Hf. lia.
Qed.

Lemma tls_pack_app buf d : tls_packData buf d = buf ++ tls_packData [] d.
Proof. done. Qed.

(** What [Write] puts on the wire after the handshake. *)
Lemma tls_write_frames fuel : ∀ buf d r, (length d < fuel)%nat →
  ∃ ds fs r', tls_write_loop fuel buf d r = (buf ++ concat fs, r') ∧ framed tls_sends tt ds fs tt ∧ concat ds = d.
Proof.
  induction fuel as [|fuel IH]; intros buf d r Hf; [lia|]. cbn [tls_write_loop].
  destruct (2048 <? Z.of_nat (length d)) eqn:E; zify_bool.
  - pose proof (Intn_range 4096 r ltac:(lia)) as Hx. destruct (Intn 4096 r) as [x r1]. cbn [fst] in Hx.
    set (n := Nat.min (length d) (Z.to_nat (x + 100))).
    destruct (IH (tls_packData buf (take n d)) (drop n d) r1) as (ds & fs & r' & -> & HF & Hc);
      [rewrite length_drop; lia|].
    exists (take n d :: ds), (tls_packData [] (take n d) :: fs), r'. simpl concat. rewrite Hc, take_drop, tls_pack_app, <-app_assoc.
    split_and!; [done| |done]. econstructor; [|exact HF]. split; [done|]. rewrite length_take. lia.
  - destruct d as [|y d]; [exists [], [], r; rewrite app_nil_r; split_and!; [done|constructor|done]|].
    exists [y :: d], [tls_packData [] (y :: d)], r. rewrite tls_pack_app. simpl concat. rewrite !app_nil_r.
    split_and!; [done| |done]. econstructor; [split; [done|simpl length in *; lia]|constructor].
Qed.

Fixpoint tls_Writes (now : Z) (ws : list (list Z)) (c : tls12TicketConn) (r : rng) : tls12TicketConn * rng :=
  match ws with
  | [] => (c, r)
  | w :: ws => let '(c1, r1, _) := tls_Write now w c r in tls_Writes now ws c1 r1
  end.

(** While the handshake is under way, writes only fill the buffer. *)
Lemma tls_writes_held now ws : ∀ c r, t_status c = 1 → Forall (λ w, 0 < Z.of_nat (length w) < 65536) ws →
  ∃ fs, tls_Writes now ws c r =
    (Tls12TicketConn (t_conn c) 1 (t_decoded c) (t_underDecoded c) (t_sendBuf c ++ concat fs), r) ∧
    framed tls_sends tt ws fs tt.
Proof.
  induction ws as [|w ws IH]; intros c r Hs HF; [exists []; simpl; rewrite app_nil_r; split; [destruct c; simpl in *; by subst|constructor]|].
  apply Forall_cons in HF as [Hw HF]. destruct w as [|y w]; [simpl in Hw; lia|].
  cbn [tls_Writes]. unfold SsrObfs.tls_Write. rewrite Hs. cbn -[tls_packData tls_Writes].
  destruct (IH (Tls12TicketConn (t_conn c) 1 (t_decoded c) (t_underDecoded c) (tls_packData (t_sendBuf c) (y :: w))) r eq_refl HF)
    as (fs & E & HFs).
  exists (tls_packData [] (y :: w) :: fs). split; [|by econstructor]. etransitivity; [exact E|]. cbn [t_conn t_decoded t_underDecoded t_sendBuf].
  rewrite tls_pack_app, <-app_assoc. done.
Qed.

Lemma tls_writes_sent now ws : ∀ c r, t_status c = 8 → c_wbudget (t_conn c) = None →
  ∃ c' r' ds fs, tls_Writes now ws c r = (c', r') ∧ c_out (t_conn c') = c_out (t_conn c) ++ concat fs ∧
    framed tls_sends tt ds fs tt ∧ concat ds = concat ws.
Proof.
  induction ws as [|w ws IH]; intros c r Hs Hb.
  - exists c, r, [], []. simpl. rewrite app_nil_r. split_and!; [done|done|constructor|done].
  - cbn [tls_Writes]. unfold SsrObfs.tls_Write. rewrite Hs. cbn -[tls_write_loop tls_Writes put].
    destruct (tls_write_frames (S (length w)) [] w r) as (ds & fs & r1 & -> & HF & Hc); [lia|].
    rewrite put_unbounded by done.
    destruct (IH (Tls12TicketConn (set_out (c_out (t_conn c) ++ [] ++ concat fs) None (t_conn c)) 8 (t_decoded c) (t_underDecoded c) (t_sendBuf c)) r1 eq_refl eq_refl)
      as (c' & r' & ds2 & fs2 & E & Ho & HF2 & Hc2).
    exists c', r', (ds ++ ds2), (fs ++ fs2). split; [exact E|]. simpl in Ho. rewrite Ho, !concat_app, Hc, Hc2, app_assoc.
    split_and!; [done|by eapply framed_app|done].
Qed.

(** C23 (round trip): tls1.2_ticket, over a connection whose writes do not fail, where every
    write before the handshake is over has between 1 and 65535 bytes: the first
    write sends a client hello, further writes are buffered, a read that gets the whole
    server hello, with valid MACs, sends the second flight with the buffer behind it, and
    later writes, of any size, go out in records of random sizes; all that follows the two
    flights, cut into arbitrary pieces, the record reader turns back into exactly
    the bytes written, in order. *)
Theorem tls_session now c0 r w ws d rest n ws2 :
  c_wbudget c0 = None → c_in c0 = d :: rest → (length d ≤ relayBufferSize)%nat →
  tls_server_hello HmacSHA1 b clientID d = None →
  Forall (λ w, 0 < Z.of_nat (length w) < 65536) (w :: ws) →
  let '(c1, r1) := tls_Writes now (w :: ws) (new_tls c0) r in
  let '(c2, r2, x) := tls_Read now n c1 r1 in
  let '(c3, r3) := tls_Writes now ws2 c2 r2 in
  x = Ret [] ∧ ∃ wire,
    c_out (t_conn c3) = c_out c0 ++ (tls_hello HmacSHA1 b clientID now r).1 ++ (tls_finish HmacSHA1 b clientID r1).1 ++ wire ∧
    ∀ chunks, concat chunks = wire →
      feed tls_decode tt [] [] chunks = (tt, concat (w :: ws) ++ concat ws2, [], DOk).
Proof.
  intros Hb Hin Hd Hsh HF. apply Forall_cons in HF as [Hw HF]. destruct w as [|y w]; [simpl in Hw; lia|].
  cbn [tls_Writes]. unfold SsrObfs.tls_Write at 1. cbn -[tls_packData tls_Writes put tls_hello tls_Read tls_finish].
  destruct (tls_hello HmacSHA1 b clientID now r) as [hello rh] eqn:Eh. rewrite put_unbounded by done. cbn [fst].
  destruct (tls_writes_held now ws (Tls12TicketConn (set_out (c_out c0 ++ hello) None c0) 1 [] [] (tls_packData [] (y :: w))) rh eq_refl HF)
    as (fs & -> & HFs). cbn [t_conn t_decoded t_underDecoded t_sendBuf].
  unfold SsrObfs.tls_Read. cbn [t_decoded t_conn t_status t_sendBuf t_underDecoded].
  unfold conn_read. cbn [c_in set_out]. rewrite Hin, (proj2 (Nat.leb_le _ _)) by done.
  change (1 =? 8) with false. cbv iota. rewrite Hsh. unfold SsrObfs.tls_Write at 1. cbn -[tls_packData tls_Writes put tls_finish].
  destruct (tls_finish HmacSHA1 b clientID rh) as [fin rf] eqn:Ef. rewrite put_unbounded by done. cbn [fst].
  set (c2 := Tls12TicketConn _ 8 [] [] []).
  destruct (tls_writes_sent now ws2 c2 rf eq_refl eq_refl) as (c3 & r3 & ds & fs2 & -> & Ho & HF2 & Hc).
  split; [done|]. exists ((tls_packData [] (y :: w) ++ concat fs) ++ concat fs2). split.
  { rewrite Ho. unfold c2. cbn [t_conn c_out set_out set_in]. by rewrite <-!app_assoc. }
  intros chunks Hch.
  destruct (feed_framed (FL := tls_laws) tls_decode) with (chunks := chunks) (s := tt) (s' := tt) (t := tt)
    (dst := @nil Z) (under := @nil Z) (ds := ((y :: w) :: ws) ++ ds) (fs := (tls_packData [] (y :: w) :: fs) ++ fs2)
    as ([] & _ & E); [done| |done|rewrite app_nil_l, Hch, concat_app; reflexivity|by intros ->|].
  - eapply framed_app; [|exact HF2]. econstructor; [|exact HFs]. by split.
  - by rewrite E, concat_app, Hc.
Qed.
End TLS_roundtrip.

(** *** Witnesses *)
Definition demo_obfs : ObfsBase := MkObfsBase (str "example.org") 443 [1; 2; 3] 16 [].
Definition demo_sha1 (k d : list Z) : list Z := replicate 20 7.
Definition demo_hello : list Z := replicate 33 0 ++ replicate 10 7 ++ replicate 33 0 ++ replicate 10 7.

Lemma random_head_delivers_witness :
  ∃ h, c_out (rh_conn (rh_Writes [[3]] (rh_Read 9 (rh_Writes [[1]; [2]] (new_randomHead w_conn) w_rng).1
         (rh_Writes [[1]; [2]] (new_randomHead w_conn) w_rng).2).1.1
         (rh_Read 9 (rh_Writes [[1]; [2]] (new_randomHead w_conn) w_rng).1
         (rh_Writes [[1]; [2]] (new_randomHead w_conn) w_rng).2).1.2).1) = h ++ [1; 2; 3].
Proof.
  destruct (random_head_delivers w_conn w_rng [[1]; [2]] [[3]] 9) as (h & H); [reflexivity|discriminate|]. exists h.
  destruct (rh_Writes [[1]; [2]] (new_randomHead w_conn) w_rng) as [c1 r1]. cbn [fst snd].
  destruct (rh_Read 9 c1 r1) as [[c2 r2] x]. cbn [fst snd]. destruct (rh_Writes [[3]] c2 r2) as [c3 r3]. cbn [fst snd].
  destruct H as (_ & -> & _). reflexivity.
Defined.

Lemma tls_session_witness :
  let '(c1, r1) := tls_Writes demo_sha1 demo_obfs (replicate 32 0) 0 [[1]; [2; 3]] (new_tls (Conn [demo_hello] io_EOF [] None io_EOF)) w_rng in
  let '(c2, r2, x) := tls_Read demo_sha1 demo_obfs (replicate 32 0) 0 9 c1 r1 in
  let '(c3, r3) := tls_Writes demo_sha1 demo_obfs (replicate 32 0) 0 [[4]] c2 r2 in x = Ret [].
Proof.
  pose proof (tls_session demo_sha1 demo_obfs (replicate 32 0) 0 (Conn [demo_hello] io_EOF [] None io_EOF) w_rng [1] [[2; 3]]
    demo_hello [] 9 [[4]] eq_refl eq_refl) as H.
  destruct (tls_Writes _ _ _ _ _ _ _) as [c1 r1]. destruct (tls_Read _ _ _ _ _ _ _) as [[c2 r2] x].
  destruct (tls_Writes _ _ _ _ _ _ _) as [c3 r3]. apply H.
  - apply Nat2Z.inj_le. Transparent relayBufferSize. unfold relayBufferSize. rewrite Z2Nat.id; vm_compute; discriminate.
  - reflexivity.
  - repeat constructor; simpl; lia.
Defined.
