(* ===== verification/GoStream.v ===== *)
(** * Byte-stream connections as an interface.

    What the relays rely on of a [net.Conn], whatever it is made of: a plain
    connection, or one of the cipher connections over it. [NetConn] are the
    operations, [NetConnLaws] what they promise: reads deliver the incoming bytes
    in order and then the final error, writes append to the outgoing bytes, the
    two directions do not disturb each other, and what one end wrote is what the
    other end reads. Over the interface: [io.ReadFull], the copying loop of
    [io.CopyBuffer], and the bidirectional copy of [src/relay/tcp.go]
    ([IoCopyBidirectionalForStream]) as a step relation. *)
From S2P Require Import Prelude GoIO GoNet.

Class NetConn (T : Type) := {
  (** [Read(b)] with [len(b) = n]. *)
  nc_Read : nat → T → T * res (list Z);
  (** [Write(b)]; the count is dropped when there is an error. *)
  nc_Write : list Z → T → T * res nat;
  (** The connection over a plain one, which will draw the given random bytes,
      and that plain one. *)
  nc_new : list Z → conn → T;
  nc_under : T → conn;
}.

Class NetConnLaws (T : Type) `{!NetConn T} := {
  (** The bytes still to be delivered, and the error after them. *)
  nc_in : T → list Z → error → Prop;
  (** The bytes written so far. *)
  nc_out : T → list Z → Prop;
  (** Bounds the number of successful reads. *)
  nc_size : T → nat;
  nc_read_law n s m e :
    0 < n → nc_in s m e →
    match nc_Read n s with
    | (s', Ret d) => length d ≤ n ∧ nc_size s' < nc_size s ∧ (∃ m', m = d ++ m' ∧ nc_in s' m' e) ∧
                     (∀ o, nc_out s o → nc_out s' o)
    | (s', Fail e') => m = [] ∧ e' = e ∧ nc_in s' [] e ∧ (∀ o, nc_out s o → nc_out s' o)
    | (_, Panic) => False
    end;
  nc_write_law b s o :
    nc_out s o →
    ∃ s', nc_Write b s = (s', Ret (length b)) ∧ nc_out s' (o ++ b) ∧ nc_size s' = nc_size s ∧
          (∀ m e, nc_in s m e → nc_in s' m e);
  (** Random bytes of the right length. *)
  nc_rnd : list Z → Prop;
  nc_new_law rnd c : nc_rnd rnd → c_wbudget c = None → c_out c = [] → nc_out (nc_new rnd c) [];
  (** What one end wrote, the other end delivers. *)
  nc_link s o rnd c :
    nc_out s o → pending c = c_out (nc_under s) → nc_in (nc_new rnd c) o (c_rerr c);
}.

(** A plain connection. *)
#[export] Instance plain_conn : NetConn conn := {
  nc_Read := conn_read;
  nc_Write b c := match conn_write b c with
                  | (c1, (_, Some e)) => (c1, Fail e)
                  | (c1, (n, None)) => (c1, Ret n)
                  end;
  nc_new _ c := c;
  nc_under c := c;
}.
#[export] Program Instance plain_laws : NetConnLaws conn := {
  nc_in c m e := pending c = m ∧ c_rerr c = e;
  nc_out c o := c_wbudget c = None ∧ c_out c = o;
  nc_size := src_size;
  nc_rnd _ := True;
}.
Next Obligation.
  intros n c m e Hn [Hp He]. simpl. destruct (conn_read n c) as [c' [d|e'|]] eqn:E.
  - destruct (conn_read_pending _ _ _ _ E) as [Hd Hl]. pose proof (conn_read_progress _ _ _ _ Hn E).
    pose proof (conn_read_rerr _ _ _ _ E). split_and!; [done|done| |].
    + exists (pending c'). rewrite <-Hp. split; [done|]. split; [done|congruence].
    + intros o [Hw Ho]. unfold conn_read in E. destruct (c_in c); [done|].
      by case_match; injection E as <- <-.
  - apply conn_read_Fail in E as (-> & Hin & ->). assert (pending c = []) as H0 by (unfold pending; by rewrite Hin).
    split_and!; congruence || done.
  - by apply conn_read_nopanic in E.
Qed.
Next Obligation.
  intros b c o [Hw Ho]. simpl. rewrite conn_write_unbounded by done. eexists. split; [done|].
  cbn [set_out c_wbudget c_out]. rewrite Ho. split_and!; done.
Qed.
Next Obligation. done. Qed.
Next Obligation. intros s o rnd c [_ <-] Hp. done. Qed.

Section Stream.
Context {T : Type} `{!NetConn T}.

(** The loop of [io.ReadAtLeast(r, buf, len(buf))]; the fuel bounds the reads. *)
Fixpoint ReadFull_loop (fuel want : nat) (acc : list Z) (s : T) : T * res (list Z) :=
  if want <=? length acc then (s, Ret acc) else
  match fuel with
  | O => (s, Panic)
  | S f =>
      match nc_Read (want - length acc) s with
      | (s1, Ret d) => ReadFull_loop f want (acc ++ d) s1
      | (s1, Fail e) =>
          (s1, Fail (if (0 <? length acc) && bool_decide (e = io_EOF) then io_ErrUnexpectedEOF else e))
      | (s1, Panic) => (s1, Panic)
      end
  end.

(** [io.CopyBuffer(dst, src, buf)] by its loop, with [len(buf) = n]: [Some] error
    unless the source ended with [io.EOF]. *)
Fixpoint copy_loop {U} `{!NetConn U} (fuel n : nat) (dst : U) (src : T) : U * T * res (option error) :=
  match fuel with
  | O => (dst, src, Panic)
  | S f =>
      match nc_Read n src with
      | (src1, Ret d) =>
          match d with
          | [] => copy_loop f n dst src1
          | _ =>
              match nc_Write d dst with
              | (dst1, Ret _) => copy_loop f n dst1 src1
              | (dst1, Fail e) => (dst1, src1, Ret (Some e))
              | (dst1, Panic) => (dst1, src1, Panic)
              end
          end
      | (src1, Fail e) => (dst, src1, Ret (if decide (e = io_EOF) then None else Some e))
      | (src1, Panic) => (dst, src1, Panic)
      end
  end.

Context `{!NetConnLaws T}.
Definition io_ReadFull (n : nat) : M T (list Z) := λ s, ReadFull_loop (S (nc_size s)) n [] s.

Lemma ReadFull_loop_ok fuel : ∀ want acc p q e s,
  nc_in s (p ++ q) e → length acc + length p = want → nc_size s < fuel →
  ∃ s', ReadFull_loop fuel want acc s = (s', Ret (acc ++ p)) ∧ nc_in s' q e ∧ (∀ o, nc_out s o → nc_out s' o).
Proof.
  induction fuel as [|f IH]; intros want acc p q e s Hin Hl Hf; [lia|]. simpl.
  destruct (Nat.leb_spec want (length acc)) as [Hle|Hgt].
  { assert (p = []) as -> by (apply nil_length_inv; lia). exists s. by rewrite app_nil_r. }
  pose proof (nc_read_law (want - length acc) s _ _ ltac:(lia) Hin) as H.
  destruct (nc_Read (want - length acc) s) as [s1 [d|e1|]]; [|destruct H as (H & _)|done].
  - destruct H as (Hd & Hs & (m' & Hm & Hin') & Ho).
    assert (p = d ++ drop (length d) p) as Hp.
    { apply (f_equal (take (length p))) in Hm. rewrite take_app_length in Hm. rewrite take_app_ge in Hm by lia.
      rewrite Hm at 2. by rewrite drop_app_length. }
    rewrite Hp, <-app_assoc in Hm. apply app_inv_head in Hm. rewrite <-Hm in Hin'.
    destruct (IH want (acc ++ d) (drop (length d) p) q e s1) as (s' & E & Hq & Ho'); [done| |lia|].
    { rewrite length_app, length_drop. apply (f_equal length) in Hp. rewrite length_app, length_drop in Hp. lia. }
    exists s'. rewrite E, <-app_assoc, <-Hp. split_and!; auto.
  - apply app_eq_nil in H as [-> _]. simpl in Hl. lia.
Qed.

Lemma io_ReadFull_ok n p q e s :
  nc_in s (p ++ q) e → length p = n →
  ∃ s', io_ReadFull n s = (s', Ret p) ∧ nc_in s' q e ∧ (∀ o, nc_out s o → nc_out s' o).
Proof. intros Hin Hl. apply (ReadFull_loop_ok (S (nc_size s)) n [] p q e s); [done|done|lia]. Qed.

(** The copying loop moves everything, whatever the buffer size. *)
Lemma copy_loop_ok {U} `{!NetConn U, !NetConnLaws U} fuel : ∀ n (dst : U) (src : T) m e o,
  0 < n → nc_in src m e → nc_out dst o → nc_size src < fuel →
  ∃ dst' src', copy_loop fuel n dst src = (dst', src', Ret (if decide (e = io_EOF) then None else Some e)) ∧
    nc_out dst' (o ++ m) ∧ nc_in src' [] e ∧
    (∀ m' e', nc_in dst m' e' → nc_in dst' m' e') ∧ (∀ o', nc_out src o' → nc_out src' o').
Proof.
  induction fuel as [|f IH]; intros n dst src m e o Hn Hin Ho Hf; [lia|]. simpl.
  pose proof (nc_read_law n src m e Hn Hin) as H. destruct (nc_Read n src) as [src1 [d|e1|]]; [| |done].
  - destruct H as (_ & Hs & (m' & -> & Hin') & Hso). destruct d as [|x d].
    + destruct (IH n dst src1 m' e o) as (dst' & src' & E & H1 & H2 & H3 & H4); [done|done|done|lia|].
      exists dst', src'. split_and!; auto.
    + destruct (nc_write_law (x :: d) dst o Ho) as (dst1 & -> & Ho1 & _ & Hdi).
      destruct (IH n dst1 src1 m' e (o ++ x :: d)) as (dst' & src' & E & H1 & H2 & H3 & H4); [done|done|done|lia|].
      rewrite <-app_assoc in H1. exists dst', src'. split_and!; auto.
  - destruct H as (-> & -> & Hin' & Hso). exists dst, src1. rewrite app_nil_r. split_and!; auto.
Qed.
End Stream.

(** ** [IoCopyBidirectionalForStream(dst, src)] *)
Definition io_ErrShortWrite := errNew "short write".
Definition errNetClosed := errNew "use of closed network connection".
Definition end_error (e : error) : option error := if decide (e = io_EOF) then None else Some e.

(** Where a copying goroutine is: about to read, about to write what it has read, or gone. *)
Inductive copier := CRead | CWrite (d : list Z) | CGone.
#[export] Instance copier_eq_dec : EqDecision copier.
Proof. solve_decision. Defined.
Definition after_read (d : list Z) : copier := match d with [] => CRead | _ => CWrite d end.
Definition held (c : copier) : list Z := match c with CWrite d => d | _ => [] end.

(** *** One goroutine: [io.CopyBuffer] from [a] to [b], a call at a time

    A read, and a write if it gave any bytes. [ao], [bo]: whether the connections are open. The last
    component is the error it sends on the channel when it ends. *)
Section Goroutine.
Context {A B : Type} `{!NetConn A, !NetConn B} (ao bo : bool).
Inductive copy_step : A → B → copier → A → B → copier → option (option error) → Prop :=
| cp_read n a b d a1 : ao = true → 0 < n → nc_Read n a = (a1, Ret d) → copy_step a b CRead a1 b (after_read d) None
| cp_end n a b a1 e : ao = true → 0 < n → nc_Read n a = (a1, Fail e) → copy_step a b CRead a1 b CGone (Some (end_error e))
| cp_read_closed a b : ao = false → copy_step a b CRead a b CGone (Some (Some errNetClosed))
| cp_write a b d b1 : bo = true → nc_Write d b = (b1, Ret (length d)) → copy_step a b (CWrite d) a b1 CRead None
| cp_short_write a b d b1 k : bo = true → nc_Write d b = (b1, Ret k) → k ≠ length d → copy_step a b (CWrite d) a b1 CGone (Some (Some io_ErrShortWrite))
| cp_write_error a b d b1 e : bo = true → nc_Write d b = (b1, Fail e) → copy_step a b (CWrite d) a b1 CGone (Some (Some e))
| cp_write_closed a b d : bo = false → copy_step a b (CWrite d) a b CGone (Some (Some errNetClosed)).

Context `{!NetConnLaws A, !NetConnLaws B}.
(** [m] is what [a] delivers, [e] the error after it; [o ++ u] has been sent to [b], and a goroutine at work holds what is
    between that and what is still to be read. *)
Definition passed (m : list Z) (e : error) (o : list Z) (c : copier) (a : A) (b : B) : Prop :=
  ∃ u u', nc_out b (o ++ u) ∧ nc_in a u' e ∧ u `prefix_of` m ∧ (c ≠ CGone → m = u ++ held c ++ u').
Definition copy_size (c : copier) (a : A) : nat :=
  match c with CRead => 2 * nc_size a + 2 | CWrite _ => 2 * nc_size a + 3 | CGone => 0 end.

Lemma held_after_read d : held (after_read d) = d.
Proof. by destruct d. Qed.
Lemma copy_step_law m e o c a b c' a' b' r : passed m e o c a b → copy_step a b c a' b' c' r →
  passed m e o c' a' b' ∧ copy_size c' a' < copy_size c a ∧ nc_size b' = nc_size b ∧
  (∀ x, nc_out a x → nc_out a' x) ∧ (∀ x y, nc_in b x y → nc_in b' x y) ∧
  (c' = CGone ↔ r ≠ None) ∧ (ao = true → bo = true → ∀ x, r = Some x → x = end_error e ∧ nc_out b' (o ++ m)).
Proof.
  intros (u & u' & Hou & Hin & Hpre & Hm) Hs.
  destruct Hs as [n a b d a1 Ho Hn Hr|n a b a1 e1 Ho Hn Hr|a b Ho|a b d b1 Ho Hw|a b d b1 k Ho Hw Hk|a b d b1 e1 Ho Hw|a b d Ho]; specialize (Hm ltac:(done)); cbn [held app] in Hm.
  - pose proof (nc_read_law n a _ _ Hn Hin) as H. rewrite Hr in H. destruct H as (_ & Hsz & (m' & -> & Hi) & Hk).
    split_and!; [|destruct d; simpl; lia|done|done|done|by destruct d|done].
    exists u, m'. split_and!; [done|done|done|]. intros _. by rewrite held_after_read.
  - pose proof (nc_read_law n a _ _ Hn Hin) as H. rewrite Hr in H. destruct H as (-> & -> & Hi & Hk). rewrite app_nil_r in Hm. subst m.
    split_and!; [by exists u, []|simpl; lia|done|done|done|done|]. by intros _ _ x [= <-].
  - split_and!; [by exists u, u'|simpl; lia|done|done|done|done|]. congruence.
  - destruct (nc_write_law d b _ Hou) as (b2 & E & Ho2 & Hz & Hk). rewrite Hw in E. injection E as <-.
    split_and!; [|simpl; lia|done|done|done|done|done]. exists (u ++ d), u'. rewrite <-!app_assoc in *. split_and!; [done|done| |done].
    rewrite Hm, app_assoc. by eexists.
  - destruct (nc_write_law d b _ Hou) as (b2 & E & _). congruence.
  - destruct (nc_write_law d b _ Hou) as (b2 & E & _). congruence.
  - split_and!; [by exists u, u'|simpl; lia|done|done|done|done|]. congruence.
Qed.
Lemma copy_progress m e o c a b : passed m e o c a b → c ≠ CGone → ∃ a' b' c' r, copy_step a b c a' b' c' r.
Proof.
  intros (u & u' & Hou & Hin & _) Hc. destruct c as [|d|]; [| |done].
  - destruct ao eqn:Ea; [|by eexists _, _, _, _; eapply cp_read_closed]. pose proof (nc_read_law 1 a _ _ ltac:(lia) Hin) as H.
    destruct (nc_Read 1 a) as [a1 [d|e1|]] eqn:Er; [| |done]; eexists _, _, _, _; [eapply (cp_read 1)|eapply (cp_end 1)]; eauto.
  - destruct bo eqn:Eb; [|by eexists _, _, _, _; eapply cp_write_closed].
    destruct (nc_write_law d b _ Hou) as (b1 & E & _). eexists _, _, _, _. by eapply cp_write.
Qed.
End Goroutine.

(** *** The two of them

    Their calls interleave in any order. [b_done]: the first error sent on the channel, which is returned; the deferred calls
    then close the source and the destination, and the goroutine that is left goes on until it fails. *)
Section Bidirectional.
Context {T U : Type} `{!NetConn T, !NetConn U}.

Record bistate := MkBi {
  b_dst : T; b_src : U;
  b_up : copier;      (** from [b_src] to [b_dst] *)
  b_down : copier;
  b_done : option (option error);
  b_src_open : bool; b_dst_open : bool;
}.
(** The relay as it starts. *)
Definition Bi (dst : T) (src : U) : bistate := MkBi dst src CRead CRead None true true.
(** [errCh <- err] and [<-errCh]: the first one counts. *)
Definition report (o r : option (option error)) : option (option error) := match o with Some _ => o | None => r end.

Inductive bi_step : bistate → bistate → Prop :=
| up_step dst src u w o so dp dst' src' u' r :
    copy_step so dp src dst u src' dst' u' r → bi_step (MkBi dst src u w o so dp) (MkBi dst' src' u' w (report o r) so dp)
| down_step dst src u w o so dp dst' src' w' r :
    copy_step dp so dst src w dst' src' w' r → bi_step (MkBi dst src u w o so dp) (MkBi dst' src' u w' (report o r) so dp)
| close_src dst src u w x : bi_step (MkBi dst src u w (Some x) true true) (MkBi dst src u w (Some x) false true)
| close_dst dst src u w x : bi_step (MkBi dst src u w (Some x) false true) (MkBi dst src u w (Some x) false false).

(** Returned, both connections closed, both goroutines gone. *)
Definition bi_over (s : bistate) : Prop :=
  b_done s ≠ None ∧ b_up s = CGone ∧ b_down s = CGone ∧ b_src_open s = false ∧ b_dst_open s = false.

Context `{!NetConnLaws T, !NetConnLaws U}.
(** Each side has been sent a prefix of what the other side delivers; the error returned is that of a
    direction that was passed on completely. *)
Record BiInv (mu md : list Z) (eu ed : error) (ou od : list Z) (s : bistate) : Prop := {
  bi_up : passed mu eu ou (b_up s) (b_src s) (b_dst s);
  bi_down : passed md ed od (b_down s) (b_dst s) (b_src s);
  bi_open : b_done s = None → b_up s ≠ CGone ∧ b_down s ≠ CGone ∧ b_src_open s = true ∧ b_dst_open s = true;
  bi_closed : b_dst_open s = false → b_src_open s = false;
  bi_end x : b_done s = Some x →
    (x = end_error eu ∧ b_up s = CGone ∧ nc_out (b_dst s) (ou ++ mu)) ∨ (x = end_error ed ∧ b_down s = CGone ∧ nc_out (b_src s) (od ++ md));
}.
Definition bi_size (s : bistate) : nat :=
  copy_size (b_up s) (b_src s) + copy_size (b_down s) (b_dst s) + Nat.b2n (b_src_open s) + Nat.b2n (b_dst_open s).

Lemma bi_start mu md eu ed ou od dst src :
  nc_in src mu eu → nc_out dst ou → nc_in dst md ed → nc_out src od → BiInv mu md eu ed ou od (Bi dst src).
Proof.
  intros H1 H2 H3 H4. split; cbn; [|..|done|done]; [exists [], mu|exists [], md|done]; rewrite app_nil_r; split_and!; try done; apply prefix_nil.
Qed.
(** What one direction's step leaves of the other direction. *)
Lemma passed_frame {A B} `{!NetConn A, !NetConnLaws A, !NetConn B, !NetConnLaws B} m e o c (a a' : A) (b b' : B) :
  passed m e o c a b → (∀ x y, nc_in a x y → nc_in a' x y) → (∀ x, nc_out b x → nc_out b' x) → passed m e o c a' b'.
Proof. intros (u & u' & H1 & H2 & H3) Ha Hb. exists u, u'. split_and!; [by apply Hb|by apply Ha|apply H3|apply H3]. Qed.

Lemma bi_step_inv mu md eu ed ou od s s' : BiInv mu md eu ed ou od s → bi_step s s' → BiInv mu md eu ed ou od s' ∧ bi_size s' < bi_size s.
Proof.
  intros [Hu Hd Ho Hc He] Hs. destruct Hs as [dst src u w o so dp dst' src' u' r Hst|dst src u w o so dp dst' src' w' r Hst|dst src u w x|dst src u w x]; cbn in *.
  - destruct (copy_step_law so dp _ _ _ _ _ _ _ _ _ _ Hu Hst) as (Hu' & Hsz & Hz & Hka & Hkb & Hg & Hx). split.
    2:{ unfold bi_size. cbn. enough (copy_size w dst' = copy_size w dst) by lia. destruct w; simpl; by rewrite ?Hz. }
    split; cbn; [done|by eapply passed_frame|..|done|].
    + intros E. destruct o; [done|]. destruct (Ho eq_refl) as (_ & ? & ? & ?). split_and!; [|done..]. cbn in E. rewrite Hg. by intros ?.
    + intros x E. destruct o as [y|]; cbn in E.
      * destruct (He x E) as [(-> & -> & _)|(-> & -> & H3)]; [inversion Hst|]. right. split_and!; [done|done|by apply Hka].
      * destruct (Ho eq_refl) as (_ & _ & -> & ->). destruct (Hx eq_refl eq_refl x E). left. split_and!; [done|by apply Hg; rewrite E|done].
  - destruct (copy_step_law dp so _ _ _ _ _ _ _ _ _ _ Hd Hst) as (Hd' & Hsz & Hz & Hka & Hkb & Hg & Hx). split.
    2:{ unfold bi_size. cbn. enough (copy_size u src' = copy_size u src) by lia. destruct u; simpl; by rewrite ?Hz. }
    split; cbn; [by eapply passed_frame|done|..|done|].
    + intros E. destruct o; [done|]. destruct (Ho eq_refl) as (? & _ & ? & ?). split_and!; [done| |done..]. cbn in E. rewrite Hg. by intros ?.
    + intros x E. destruct o as [y|]; cbn in E.
      * destruct (He x E) as [(-> & -> & H3)|(-> & -> & _)]; [|inversion Hst]. left. split_and!; [done|done|by apply Hka].
      * destruct (Ho eq_refl) as (_ & _ & -> & ->). destruct (Hx eq_refl eq_refl x E). right. split_and!; [done|by apply Hg; rewrite E|done].
  - split; [by split|]. unfold bi_size. cbn. lia.
  - split; [by split|]. unfold bi_size. cbn. lia.
Qed.
Lemma bi_steps_inv mu md eu ed ou od s s' :
  BiInv mu md eu ed ou od s → rtc bi_step s s' → BiInv mu md eu ed ou od s'.
Proof. intros H Hs. induction Hs as [|x y z Hxy _ IH]; [done|]. apply IH. by eapply bi_step_inv. Qed.

(** The relay goes on until it is over. *)
Lemma bi_progress mu md eu ed ou od s : BiInv mu md eu ed ou od s → ¬ bi_over s → ∃ s', bi_step s s'.
Proof.
  intros [Hu Hd Ho Hc _] Hn. destruct s as [dst src u w o so dp]; cbn in *.
  assert (u ≠ CGone → ∃ s', bi_step (MkBi dst src u w o so dp) s') as HU.
  { intros Hg. destruct (copy_progress so dp _ _ _ _ _ _ Hu Hg) as (? & ? & ? & ? & Hst). eexists. by apply up_step. }
  destruct (decide (u = CGone)) as [->|]; [|by apply HU]. destruct (decide (w = CGone)) as [->|Hw].
  - destruct o as [x|]; [|by destruct (Ho eq_refl)]. destruct so, dp; [eexists; apply close_src|by specialize (Hc eq_refl)|eexists; apply close_dst|].
    by destruct Hn.
  - destruct (copy_progress dp so _ _ _ _ _ _ Hd Hw) as (? & ? & ? & ? & Hst). eexists. by apply down_step.
Qed.
End Bidirectional.
Arguments bistate : clear implicits.
