(* ===== verification/TcpRelay.v ===== *)
(** * Package relay: the TCP relays, over every cipher.

    Models [src/relay/tcp.go] (the direct relayer and both sides of the proxy
    relayer) over the interface of GoStream.v, and the connections of
    [src/ss/conn.go]: the AEAD and stream-cipher connections are shown to be
    instances of that interface, so that the end-to-end theorem holds for each.
    Dialling is a parameter; logging and deadlines are left out. *)
From S2P Require Import Prelude GoIO GoNet GoStream Address Cipher.
From S2P Require AeadConn StreamConn.

(** ** The AEAD connection is a [net.Conn] *)

(** A cipher that works for every salt. *)
Class AeadScheme (SaltSize : nat) (GE GD : list Z → res AEAD) := {
  scheme_pos : 0 < SaltSize;
  scheme_ok salt : length salt = SaltSize → ∃ enc dec, GE salt = Ret enc ∧ GD salt = Ret dec ∧ AEADLaws enc dec;
}.

Section Aead.
Import AeadConn.
Context (SaltSize : nat) (GE GD : list Z → res AEAD).

(** The connection with the salt its [initWriter] will draw. *)
#[local] Instance aead_conn : NetConn (list Z * streamConn) := {
  nc_Read n '(salt, s) := let '(s1, x) := conn_Read SaltSize GD n s in ((salt, s1), x);
  nc_Write b '(salt, s) := match conn_Write GE (Ret salt) b s with
                  | Some (s1, Ret (n, None)) => ((salt, s1), Ret n)
                  | Some (s1, Ret (_, Some e)) => ((salt, s1), Fail e)
                  | Some (s1, Fail e) => ((salt, s1), Fail e)
                  | Some (s1, Panic) => ((salt, s1), Panic)
                  | None => ((salt, s), Panic)
                  end;
  nc_new salt c := (salt, NewStreamConn c);
  nc_under s := sc_conn s.2;
}.

Context `{!AeadScheme SaltSize GE GD}.

(** The bytes [w] on the wire carry [m]. *)
Definition aead_wire (w m : list Z) : Prop :=
  (w = [] ∧ m = []) ∨
  ∃ salt enc dec ps, length salt = SaltSize ∧ GE salt = Ret enc ∧ GD salt = Ret dec ∧ AEADLaws enc dec ∧
    wf_pieces ps ∧ w = salt ++ frames enc (replicate (NonceSize enc) 0%Z) ps ∧ m = concat ps.

Definition aead_in (s : streamConn) (m : list Z) (e : error) : Prop :=
  c_rerr (sc_conn s) = e ∧
  match sc_r s with
  | None => aead_wire (pending (sc_conn s)) m
  | Some r => ∃ enc dec, AEADLaws enc dec ∧ Delivers enc dec r (sc_conn s) m
  end.
Definition aead_out (salt : list Z) (s : streamConn) (o : list Z) : Prop :=
  length salt = SaltSize ∧ c_wbudget (sc_conn s) = None ∧
  match sc_w s with
  | None => c_out (sc_conn s) = [] ∧ o = []
  | Some w => ∃ enc dec ps, GE salt = Ret enc ∧ GD salt = Ret dec ∧ AEADLaws enc dec ∧ wf_pieces ps ∧
      c_out (sc_conn s) = salt ++ frames enc (replicate (NonceSize enc) 0%Z) ps ∧
      w = StreamWriter enc (nonce_after (replicate (NonceSize enc) 0%Z) ps) ∧ o = concat ps
  end.
Definition aead_size (s : streamConn) : nat :=
  length (pending (sc_conn s)) + match sc_r s with Some r => length (remainbuf r) | None => 0 end.

(** A [Read] once the reader is there. *)
Lemma aead_read_some n r c w m e :
  0 < n → aead_in (MkStreamConn c (Some r) w) m e →
  match Read n r c with
  | (r', c', Ret d) => let s' := MkStreamConn c' (Some r') w in
      length d ≤ n ∧ aead_size s' < aead_size (MkStreamConn c (Some r) w) ∧
      (∃ m', m = d ++ m' ∧ aead_in s' m' e) ∧ (∀ salt o, aead_out salt (MkStreamConn c (Some r) w) o → aead_out salt s' o)
  | (r', c', Fail e') => let s' := MkStreamConn c' (Some r') w in
      m = [] ∧ e' = e ∧ aead_in s' [] e ∧ (∀ salt o, aead_out salt (MkStreamConn c (Some r) w) o → aead_out salt s' o)
  | (_, _, Panic) => False
  end.
Proof.
  intros Hn [He (enc & dec & HL & HD)]. simpl in He, HD. pose proof (Read_delivers enc dec n r c m HL Hn HD) as H.
  destruct (Read n r c) as [[r' c'] x] eqn:E. destruct (Read_keeps _ _ _ _ _ _ E) as [chs ->].
  destruct x as [d|e'|]; [| |done].
  - destruct H as (_ & Hl & Hs & m' & -> & HD'). split_and!; [done|done| |done].
    exists m'. split; [done|]. split; [done|]. by exists enc, dec.
  - destruct H as (-> & -> & HD'). split_and!; [done|done| |done]. split; [done|]. by exists enc, dec.
Qed.

Lemma aead_read_law n s m e :
  0 < n → aead_in s m e →
  match conn_Read SaltSize GD n s with
  | (s', Ret d) => length d ≤ n ∧ aead_size s' < aead_size s ∧ (∃ m', m = d ++ m' ∧ aead_in s' m' e) ∧
                   (∀ salt o, aead_out salt s o → aead_out salt s' o)
  | (s', Fail e') => m = [] ∧ e' = e ∧ aead_in s' [] e ∧ (∀ salt o, aead_out salt s o → aead_out salt s' o)
  | (_, Panic) => False
  end.
Proof.
  intros Hn Hin. destruct s as [c [r|] w]; unfold conn_Read, get_reader; cbn [sc_r sc_conn sc_w].
  - pose proof (aead_read_some n r c w m e Hn Hin) as H. destruct (Read n r c) as [[r' c'] [d|e'|]]; exact H.
  - destruct Hin as [He [[Hp ->]|(sl & enc & dec & ps & Hl & HE & HD & HL & Hwf & Hp & ->)]]; simpl in *.
    + pose proof scheme_pos. unfold initReader. cbn [sc_conn]. rewrite read_full_short by (rewrite Hp; simpl; lia).
      rewrite Hp. simpl. split_and!; [done|done| |done]. split; [done|]. by left.
    + unfold initReader. cbn [sc_conn]. destruct (read_full_app SaltSize c sl _ Hp Hl) as (c1 & E & Hp1 & He1 & _).
      assert (∃ chs, c1 = set_in chs c) as [chs ->].
      { unfold read_full in E. destruct (read_loop _ _ _). injection E as <- _. eauto. }
      rewrite E, HD. cbn [sc_conn sc_w].
      assert (aead_in (MkStreamConn (set_in chs c) (Some (newStreamReader dec)) w) (concat ps) e) as Hin0.
      { split; [done|]. exists enc, dec. split; [done|]. split; [done|]. exists ps.
        split_and!; [done| |done]. cbn [sc_conn]. rewrite Hp1. simpl. by rewrite (aead_nonce (dec := dec)). }
      pose proof (aead_read_some n (newStreamReader dec) (set_in chs c) w (concat ps) e Hn Hin0) as H.
      destruct (Read n (newStreamReader dec) (set_in chs c)) as [[r' c'] [d|e'|]]; [| |done].
      * destruct H as (H1 & H2 & H3 & H4). split_and!; [done| |done|done].
        unfold aead_size in *. cbn [sc_conn sc_r] in *. simpl remainbuf in H2. rewrite Hp1 in H2. rewrite Hp, length_app.
        simpl in *. lia.
      * done.
Qed.

Lemma aead_write_law salt b s o :
  aead_out salt s o →
  ∃ s', conn_Write GE (Ret salt) b s = Some (s', Ret (length b, None)) ∧ aead_out salt s' (o ++ b) ∧
        aead_size s' = aead_size s ∧ (∀ m e, aead_in s m e → aead_in s' m e).
Proof.
  intros (Hsalt & Hb & Ho). destruct s as [c r [w|]]; cbn [sc_conn sc_w] in *;
    unfold conn_Write, get_writer; cbn [sc_w sc_conn sc_r].
  - destruct Ho as (enc & dec & ps & HE & HD & HL & Hwf & Ho & -> & ->).
    destruct (Write_ok b (StreamWriter enc (nonce_after (replicate (NonceSize enc) 0%Z) ps)) c Hb) as (qs & Hwq & <- & ->).
    eexists. split; [done|]. split; [|done]. split; [done|]. split; [done|]. cbn [sc_w sc_conn w_aead w_nonce].
    exists enc, dec, (ps ++ qs). cbn [set_out c_out]. rewrite Ho, <-!app_assoc, frames_app, nonce_after_app, concat_app.
    split_and!; try done. by apply Forall_app.
  - destruct Ho as [Ho ->]. destruct (scheme_ok salt Hsalt) as (enc & dec & HE & HD & HL).
    unfold initWriter. cbn [sc_conn sc_r]. rewrite conn_write_unbounded, HE by done. cbn [sc_conn sc_r].
    destruct (Write_ok b (newStreamWriter enc) (set_out (c_out c ++ salt) None c) eq_refl) as (qs & Hwq & <- & ->).
    eexists. split; [done|]. split; [|done]. split; [done|]. split; [done|]. cbn [sc_w sc_conn].
    exists enc, dec, qs. cbn [set_out c_out]. rewrite Ho. split_and!; done.
Qed.

#[local] Instance aead_conn_laws : NetConnLaws (list Z * streamConn).
Proof.
  refine {| nc_in s := aead_in s.2; nc_out s := aead_out s.1 s.2; nc_size s := aead_size s.2;
            nc_rnd salt := length salt = SaltSize |}.
  - intros n [salt s] m e Hn Hin. simpl. pose proof (aead_read_law n s m e Hn Hin) as H.
    destruct (conn_Read SaltSize GD n s) as [s' [d|e'|]]; naive_solver.
  - intros b [salt s] o Ho. simpl. destruct (aead_write_law salt b s o Ho) as (s' & -> & H). eexists. split; [done|]. exact H.
  - intros salt c Hs Hb Ho. by split.
  - intros [salt s] o rnd c (Hs & Hb & Ho) Hp. split; [done|]. simpl in *. rewrite Hp.
    destruct (sc_w s) as [w|].
    + destruct Ho as (enc & dec & ps & HE & HD & HL & Hwf & Ho & _ & ->). right. exists salt, enc, dec, ps. done.
    + destruct Ho as [-> ->]. by left.
Defined.
End Aead.

(** ** The stream-cipher connection is a [net.Conn] *)
Class StreamScheme (IVSize : nat) (GE GD : list Z → res Stream) := {
  stream_pos : 0 < IVSize;
  stream_ok iv : length iv = IVSize → ∃ enc dec, GE iv = Ret enc ∧ GD iv = Ret dec ∧ StreamLaws enc dec;
}.

Section StreamCipher.
Import StreamConn.
Context (IVSize : nat) (GE GD : list Z → res Stream).

(** The connection with the IV its [ObtainWriteIV] will draw. *)
#[local] Instance stream_conn : NetConn (list Z * StreamConn) := {
  nc_Read n '(iv, s) := let '(s1, x) := conn_Read IVSize GD n s in ((iv, s1), x);
  nc_Write b '(iv, s) := match conn_Write IVSize GE (Ret iv) b s with
                  | Some (s1, Ret (n, None)) => ((iv, s1), Ret n)
                  | Some (s1, Ret (_, Some e)) => ((iv, s1), Fail e)
                  | Some (s1, Fail e) => ((iv, s1), Fail e)
                  | Some (s1, Panic) => ((iv, s1), Panic)
                  | None => ((iv, s), Panic)
                  end;
  nc_new iv c := (iv, NewStreamConn c);
  nc_under s := sc_conn s.2;
}.

Context `{!StreamScheme IVSize GE GD}.

Definition stream_wire (w m : list Z) : Prop :=
  (w = [] ∧ m = []) ∨
  ∃ iv enc dec, length iv = IVSize ∧ GE iv = Ret enc ∧ GD iv = Ret dec ∧ StreamLaws enc dec ∧ w = iv ++ enc [] m.

Definition stream_in (s : StreamConn) (m : list Z) (e : error) : Prop :=
  c_rerr (sc_conn s) = e ∧
  match sc_r s with
  | None => readIV s = [] ∧ stream_wire (pending (sc_conn s)) m
  | Some r => ∃ enc dec h, StreamLaws enc dec ∧ r = StreamState dec h ∧ m = dec h (pending (sc_conn s))
  end.
Definition stream_out (iv : list Z) (s : StreamConn) (o : list Z) : Prop :=
  length iv = IVSize ∧ c_wbudget (sc_conn s) = None ∧
  match sc_w s with
  | None => c_out (sc_conn s) = [] ∧ o = [] ∧ (writeIV s = [] ∨ writeIV s = iv)
  | Some w => ∃ enc dec, GE iv = Ret enc ∧ GD iv = Ret dec ∧ StreamLaws enc dec ∧
      c_out (sc_conn s) = iv ++ enc [] o ∧ w = StreamState enc o
  end.
Definition stream_size (s : StreamConn) : nat := src_size (sc_conn s).

Lemma dec_nil {enc dec} `{!StreamLaws enc dec} h : dec h [] = [].
Proof. apply nil_length_inv. by rewrite stream_length_dec. Qed.

Lemma conn_read_keeps n c c' x : conn_read n c = (c', x) → ∃ chs, c' = set_in chs c.
Proof.
  unfold conn_read. destruct (c_in c) eqn:E; [|case_match]; intros [= <- _]; eauto.
  exists (c_in c). by destruct c.
Qed.

Lemma stream_read_some n r c w ri wi m e :
  0 < n → stream_in (MkStreamConn c (Some r) w ri wi) m e →
  match Read n r c with
  | (r', c', Ret d) => let s' := MkStreamConn c' (Some r') w ri wi in
      length d ≤ n ∧ src_size c' < src_size c ∧
      (∃ m', m = d ++ m' ∧ stream_in s' m' e) ∧ (∀ iv o, stream_out iv (MkStreamConn c (Some r) w ri wi) o → stream_out iv s' o)
  | (r', c', Fail e') => let s' := MkStreamConn c' (Some r') w ri wi in
      m = [] ∧ e' = e ∧ stream_in s' [] e ∧ (∀ iv o, stream_out iv (MkStreamConn c (Some r) w ri wi) o → stream_out iv s' o)
  | (_, _, Panic) => False
  end.
Proof.
  intros Hn [He (enc & dec & h & HL & -> & ->)]. simpl in He. unfold Read.
  destruct (conn_read n c) as [c' [d|e'|]] eqn:E; [| |by apply conn_read_nopanic in E].
  - destruct (conn_read_pending _ _ _ _ E) as [Hd Hl]. pose proof (conn_read_progress _ _ _ _ Hn E).
    destruct (conn_read_keeps _ _ _ _ E) as [chs ->]. cbn [xor st_stream st_hist sc_conn]. cbv zeta.
    split_and!; [by rewrite stream_length_dec|done| |done].
    exists (dec (h ++ d) (pending (set_in chs c))). rewrite Hd, stream_app_dec. split; [done|]. split; [done|].
    exists enc, dec, (h ++ d). done.
  - apply conn_read_Fail in E as (-> & Hin & ->). cbn [sc_conn] in *.
    assert (pending c = []) as H0 by (unfold pending; by rewrite Hin). rewrite H0.
    split_and!; [apply dec_nil|done| |done]. split; [done|]. exists enc, dec, h. cbn [sc_conn]. rewrite H0, dec_nil. done.
Qed.

Lemma stream_read_law n s m e :
  0 < n → stream_in s m e →
  match conn_Read IVSize GD n s with
  | (s', Ret d) => length d ≤ n ∧ stream_size s' < stream_size s ∧ (∃ m', m = d ++ m' ∧ stream_in s' m' e) ∧
                   (∀ iv o, stream_out iv s o → stream_out iv s' o)
  | (s', Fail e') => m = [] ∧ e' = e ∧ stream_in s' [] e ∧ (∀ iv o, stream_out iv s o → stream_out iv s' o)
  | (_, Panic) => False
  end.
Proof.
  intros Hn Hin. destruct s as [c [r|] w ri wi]; unfold conn_Read, get_reader;
    cbn [sc_r sc_conn sc_w readIV writeIV].
  - pose proof (stream_read_some n r c w ri wi m e Hn Hin) as H. destruct (Read n r c) as [[r' c'] [d|e'|]]; exact H.
  - destruct Hin as [He [Hri Hw]]. simpl in He, Hri, Hw. subst ri. pose proof stream_pos.
    unfold initReader, ObtainReadIV. cbn [readIV sc_conn].
    rewrite (proj2 (Nat.eqb_neq (length []) IVSize)) by (simpl; lia).
    destruct Hw as [[Hp ->]|(iv' & enc & dec & Hl & HE & HD & HL & Hp)].
    + rewrite read_full_short by (rewrite Hp; simpl; lia). rewrite Hp. simpl. split_and!; [done|done| |done].
      split; [done|]. split; [done|]. by left.
    + destruct (read_full_app IVSize c iv' _ Hp Hl) as (c1 & E & Hp1 & He1 & _).
      assert (∃ chs, c1 = set_in chs c ∧ length chs ≤ length (c_in c)) as (chs & -> & Hch).
      { unfold read_full in E. destruct (read_loop _ _ _) as [chs acc] eqn:El. injection E as <- _. exists chs.
        split; [done|]. pose proof (read_loop_chunks (c_in c) IVSize []) as Hlc. by rewrite El in Hlc. }
      rewrite E. cbn [sc_conn sc_r sc_w readIV writeIV]. rewrite HD. cbn [sc_conn sc_r sc_w readIV writeIV].
      assert (stream_in (MkStreamConn (set_in chs c) (Some (StreamState dec [])) w iv' wi) m e) as Hin0.
      { split; [done|]. exists enc, dec, []. cbn [sc_conn]. rewrite Hp1, stream_inverse. done. }
      pose proof (stream_read_some n _ _ w iv' wi m e Hn Hin0) as H0.
      unfold put_reader. cbn [sc_conn sc_r sc_w readIV writeIV].
      destruct (Read n (StreamState dec []) (set_in chs c)) as [[r' c'] [d|e'|]]; [| |done].
      * destruct H0 as (H1 & H2 & H3 & H4). split_and!; [done| |done|done].
        unfold stream_size. cbn [sc_conn]. unfold src_size in *. rewrite Hp, length_app. cbn [set_in c_in] in H2.
        rewrite Hp1 in H2. lia.
      * done.
Qed.

Lemma stream_write_law iv b s o :
  stream_out iv s o →
  ∃ s', conn_Write IVSize GE (Ret iv) b s = Some (s', Ret (length b, None)) ∧ stream_out iv s' (o ++ b) ∧
        stream_size s' = stream_size s ∧ (∀ m e, stream_in s m e → stream_in s' m e).
Proof.
  intros (Hiv & Hb & Ho). destruct s as [c r [w|] ri wi]; cbn [sc_conn sc_w] in *;
    unfold conn_Write, get_writer; cbn [sc_w sc_conn sc_r].
  - destruct Ho as (enc & dec & HE & HD & HL & Ho & ->). unfold Write.
    rewrite write_loop_ok by (apply stream_app || apply stream_length || done || lia).
    eexists. split; [done|]. split; [|done]. split; [done|]. split; [done|]. cbn [sc_w sc_conn put_writer set_out c_out].
    exists enc, dec. rewrite drop_0, Ho, stream_app, <-app_assoc. done.
  - destruct Ho as (Ho & -> & Hwi). destruct (stream_ok iv Hiv) as (enc & dec & HE & HD & HL).
    assert (ObtainWriteIV IVSize (Ret iv) (MkStreamConn c r None ri wi) = (MkStreamConn c r None ri iv, Ret iv)) as Hob.
    { cbn [writeIV] in Hwi. unfold ObtainWriteIV. cbn [writeIV]. pose proof stream_pos. destruct Hwi as [-> | ->].
      - by rewrite (proj2 (Nat.eqb_neq (length []) IVSize)) by (simpl; lia).
      - by rewrite (proj2 (Nat.eqb_eq _ _)) by done. }
    unfold initWriter. rewrite Hob. cbn [sc_conn sc_r sc_w readIV writeIV].
    rewrite conn_write_unbounded, HE by done. cbn [sc_conn sc_r sc_w]. unfold Write.
    rewrite write_loop_ok by (apply stream_app || apply stream_length || done || lia).
    eexists. split; [done|]. split; [|done]. split; [done|]. split; [done|]. cbn [sc_w sc_conn put_writer set_out c_out].
    exists enc, dec. rewrite drop_0, Ho. done.
Qed.

#[local] Instance stream_conn_laws : NetConnLaws (list Z * StreamConn).
Proof.
  refine {| nc_in s := stream_in s.2; nc_out s := stream_out s.1 s.2; nc_size s := stream_size s.2;
            nc_rnd iv := length iv = IVSize |}.
  - intros n [iv s] m e Hn Hin. simpl. pose proof (stream_read_law n s m e Hn Hin) as H.
    destruct (conn_Read IVSize GD n s) as [s' [d|e'|]]; naive_solver.
  - intros b [iv s] o Ho. simpl. destruct (stream_write_law iv b s o Ho) as (s' & -> & H). eexists. split; [done|]. exact H.
  - intros iv c Hs Hb Ho. split; [done|]. split; [done|]. simpl. auto.
  - intros [iv s] o rnd c (Hs & Hb & Ho) Hp. split; [done|]. split; [done|]. simpl in *. rewrite Hp.
    destruct (sc_w s) as [w|].
    + destruct Ho as (enc & dec & HE & HD & HL & Ho & _). right. exists iv, enc, dec. done.
    + destruct Ho as (-> & -> & _). by left.
Defined.
End StreamCipher.

(** ** [makeStreamConn]: the connection the configured ciphers give *)

(** A cipher's nonce size and its constructors. *)
Record stream_cipher := StreamCipher { sIVSize : nat; sGetEncrypter : list Z → res Stream; sGetDecrypter : list Z → res Stream }.
Record aead_cipher := AeadCipher { aSaltSize : nat; aGetEncrypter : list Z → res AEAD; aGetDecrypter : list Z → res AEAD }.

Inductive boundConn :=
| BStream (x : stream_cipher) (s : list Z * StreamConn.StreamConn)
| BAead (x : aead_cipher) (s : list Z * AeadConn.streamConn)
| BPlain (c : conn).

Definition str_ops (x : stream_cipher) := stream_conn (sIVSize x) (sGetEncrypter x) (sGetDecrypter x).
Definition aead_ops (x : aead_cipher) := aead_conn (aSaltSize x) (aGetEncrypter x) (aGetDecrypter x).

Section Bound.
Context (scipher : option stream_cipher) (acipher : option aead_cipher).

Definition makeStreamConn (rnd : list Z) (c : conn) : boundConn :=
  match scipher, acipher with
  | Some x, _ => BStream x (rnd, StreamConn.NewStreamConn c)
  | None, Some x => BAead x (rnd, AeadConn.NewStreamConn c)
  | None, None => BPlain c
  end.

#[local] Instance bound_conn : NetConn boundConn := {
  nc_Read n b := match b with
    | BStream x s => let '(s1, r) := @nc_Read _ (str_ops x) n s in (BStream x s1, r)
    | BAead x s => let '(s1, r) := @nc_Read _ (aead_ops x) n s in (BAead x s1, r)
    | BPlain c => let '(c1, r) := nc_Read n c in (BPlain c1, r)
    end;
  nc_Write d b := match b with
    | BStream x s => let '(s1, r) := @nc_Write _ (str_ops x) d s in (BStream x s1, r)
    | BAead x s => let '(s1, r) := @nc_Write _ (aead_ops x) d s in (BAead x s1, r)
    | BPlain c => let '(c1, r) := nc_Write d c in (BPlain c1, r)
    end;
  nc_new := makeStreamConn;
  nc_under b := match b with
    | BStream x s => @nc_under _ (str_ops x) s
    | BAead x s => @nc_under _ (aead_ops x) s
    | BPlain c => c
    end;
}.

(** The configured ciphers work. *)
Class Ciphers := {
  ciphers_stream x : scipher = Some x → StreamScheme (sIVSize x) (sGetEncrypter x) (sGetDecrypter x);
  ciphers_aead x : acipher = Some x → AeadScheme (aSaltSize x) (aGetEncrypter x) (aGetDecrypter x);
}.
Context {HC : Ciphers}.

Definition bound_in (b : boundConn) (m : list Z) (e : error) : Prop :=
  match b with
  | BStream x s => scipher = Some x ∧ stream_in (sIVSize x) (sGetEncrypter x) (sGetDecrypter x) s.2 m e
  | BAead x s => acipher = Some x ∧ aead_in (aSaltSize x) (aGetEncrypter x) (aGetDecrypter x) s.2 m e
  | BPlain c => nc_in c m e
  end.
Definition bound_out (b : boundConn) (o : list Z) : Prop :=
  match b with
  | BStream x s => scipher = Some x ∧ stream_out (sIVSize x) (sGetEncrypter x) (sGetDecrypter x) s.1 s.2 o
  | BAead x s => scipher = None ∧ acipher = Some x ∧ aead_out (aSaltSize x) (aGetEncrypter x) (aGetDecrypter x) s.1 s.2 o
  | BPlain c => scipher = None ∧ acipher = None ∧ nc_out c o
  end.
Definition bound_size (b : boundConn) : nat :=
  match b with
  | BStream _ s => stream_size s.2
  | BAead _ s => aead_size s.2
  | BPlain c => nc_size c
  end.

#[local] Instance bound_conn_laws : NetConnLaws boundConn.
Proof.
  refine {| nc_in := bound_in; nc_out := bound_out; nc_size := bound_size;
            nc_rnd rnd := match scipher, acipher with
                          | Some x, _ => length rnd = sIVSize x
                          | None, Some x => length rnd = aSaltSize x
                          | None, None => True
                          end |}.
  - intros n [x s|x s|c] m e Hn Hin; cbn [nc_Read bound_conn].
    + destruct Hin as [Hx Hin]. pose proof (ciphers_stream x Hx) as HS.
      pose proof (@nc_read_law _ _ (stream_conn_laws (sIVSize x) (sGetEncrypter x) (sGetDecrypter x)) n s m e Hn Hin) as H.
      unfold str_ops. destruct (@nc_Read _ _ n s) as [s' [d|e'|]]; cbn in *; naive_solver.
    + destruct Hin as [Hx Hin]. pose proof (ciphers_aead x Hx) as HS.
      pose proof (@nc_read_law _ _ (aead_conn_laws (aSaltSize x) (aGetEncrypter x) (aGetDecrypter x)) n s m e Hn Hin) as H.
      unfold aead_ops. destruct (@nc_Read _ _ n s) as [s' [d|e'|]]; cbn in *; naive_solver.
    + pose proof (nc_read_law n c m e Hn Hin) as H.
      destruct (@nc_Read conn _ n c) as [c' [d|e'|]]; cbn in *; naive_solver.
  - intros b [x s|x s|c] o Ho; cbn [nc_Write bound_conn].
    + destruct Ho as [Hx Ho]. pose proof (ciphers_stream x Hx) as HS.
      destruct (@nc_write_law _ _ (stream_conn_laws (sIVSize x) (sGetEncrypter x) (sGetDecrypter x)) b s o Ho)
        as (s' & E & H1 & H2 & H3). unfold str_ops. rewrite E. eexists. split; [done|]. cbn in *. naive_solver.
    + destruct Ho as (Hs & Hx & Ho). pose proof (ciphers_aead x Hx) as HS.
      destruct (@nc_write_law _ _ (aead_conn_laws (aSaltSize x) (aGetEncrypter x) (aGetDecrypter x)) b s o Ho)
        as (s' & E & H1 & H2 & H3). unfold aead_ops. rewrite E. eexists. split; [done|]. cbn in *. naive_solver.
    + destruct Ho as (Hs & Hx & Ho). destruct (nc_write_law b c o Ho) as (c' & -> & H1 & H2 & H3).
      eexists. split; [done|]. cbn in *. naive_solver.
  - intros rnd c Hr Hb Ho. cbn [nc_new bound_conn]. unfold makeStreamConn.
    destruct scipher as [x|] eqn:E1; [|destruct acipher as [x|] eqn:E2]; cbn.
    + split; [done|]. split; [done|]. split; [done|]. simpl. auto.
    + split; [done|]. split; [done|]. by split.
    + done.
  - intros b o rnd c Ho Hp. cbn [nc_new nc_under bound_conn] in *. unfold makeStreamConn.
    destruct b as [x s|x s|c0]; cbn in Ho.
    + destruct Ho as [Hx Ho]. rewrite Hx. pose proof (ciphers_stream x Hx) as HS. split; [done|].
      exact (@nc_link _ _ (stream_conn_laws (sIVSize x) (sGetEncrypter x) (sGetDecrypter x)) s o rnd c Ho Hp).
    + destruct Ho as (Hs & Hx & Ho). rewrite Hs, Hx. pose proof (ciphers_aead x Hx) as HS. split; [done|].
      exact (@nc_link _ _ (aead_conn_laws (aSaltSize x) (aGetEncrypter x) (aGetDecrypter x)) s o rnd c Ho Hp).
    + destruct Ho as (Hs & Hx & Ho). rewrite Hs, Hx. exact (nc_link c0 o rnd c Ho Hp).
Defined.
End Bound.

(** ** The relayers *)
Section Relay.
Context {T : Type} `{!NetConn T, !NetConnLaws T}.
(** [Dialer.Dial(ctx, addr)]. *)
Context (Dial : gostring → res conn).

(** [ioCopyWithBuffer]; [n]: the size of the buffer the copy ends up using. *)
Definition ioCopyWithBuffer {A B} `{!NetConn A, !NetConn B, !NetConnLaws B} (n : nat) (dst : A) (src : B)
    : A * B * res (option error) := copy_loop (S (nc_size src)) n dst src.

(** Each relayer, up to the bidirectional copy it ends with. *)
Definition TCPDirectRelayer_RelayToServer (c : conn) (remoteServerAddr : gostring) : res (bistate conn conn) :=
  dstConn ← Dial remoteServerAddr;
  Ret (Bi dstConn c).

Definition RelayToProxyServer (proxyServerAddr remoteServerAddr : gostring) (rnd buf : list Z) (c : conn)
    : res (bistate T conn) :=
  d ← Dial proxyServerAddr;
  let dstConn := nc_new rnd d in
  addr ← ParseAddress remoteServerAddr buf;
  match nc_Write addr dstConn with
  | (_, Panic) => Panic
  | (dstConn, _) => Ret (Bi dstConn c)
  end.

Definition RelayToServer (rnd buf : list Z) (c : conn) : res (bistate conn T) :=
  match ParseAddressFrom io_ReadFull buf (nc_new rnd c) with
  | (s, Ret addr) => dstConn ← Dial (Address.String addr); Ret (Bi dstConn s)
  | (_, Fail e) => Fail e
  | (_, Panic) => Panic
  end.

Lemma read_from_ok b i j (p q : list Z) e (s : T) :
  i ≤ j → j ≤ length b → length p = j - i → nc_in s (p ++ q) e →
  ∃ s', read_from io_ReadFull b i j s = (s', Ret p) ∧ nc_in s' q e ∧ (∀ o, nc_out s o → nc_out s' o).
Proof.
  intros Hi Hj Hp Hin. unfold read_from, mbind, M_bind, mlift. rewrite slice_ok by done.
  by apply (io_ReadFull_ok (j - i) p q e).
Qed.

(** The parser reads exactly the address off any connection. *)
Lemma ParseAddressFrom_wf a q e buf (s : T) :
  wf_addr a → MaxAddressBufferSize ≤ length buf → nc_in s (a ++ q) e →
  ∃ s', ParseAddressFrom io_ReadFull buf s = (s', Ret a) ∧ nc_in s' q e ∧ (∀ o, nc_out s o → nc_out s' o).
Proof.
  unfold MaxAddressBufferSize. intros Ha Hb Hin. unfold ParseAddressFrom. rewrite (proj2 (Nat.ltb_ge _ _)) by lia.
  destruct Ha as [ip p Hl _ _|ip p Hl _ _|h p Hl _ _]; cbn [app] in Hin.
  - destruct (read_from_ok buf 0 1 [1%Z] ((ip ++ be16 p) ++ q) e s) as (s1 & E1 & H1 & O1); [lia|lia|done|done|].
    rewrite (bind_Ret _ _ _ _ _ E1). cbn [byte_at nth default].
    destruct (read_from_ok buf 1 7 (ip ++ be16 p) q e s1) as (s2 & E2 & H2 & O2);
      [lia|lia|rewrite length_app, Hl; done|done|].
    exists s2. change (byte_at [1%Z] 0) with 1%Z. cbv iota. rewrite (bind_Ret _ _ _ _ _ E2). split_and!; auto.
  - destruct (read_from_ok buf 0 1 [4%Z] ((ip ++ be16 p) ++ q) e s) as (s1 & E1 & H1 & O1); [lia|lia|done|done|].
    rewrite (bind_Ret _ _ _ _ _ E1).
    destruct (read_from_ok buf 1 19 (ip ++ be16 p) q e s1) as (s2 & E2 & H2 & O2);
      [lia|lia|rewrite length_app, Hl; done|done|].
    exists s2. change (byte_at [4%Z] 0) with 4%Z. cbv iota. rewrite (bind_Ret _ _ _ _ _ E2). split_and!; auto.
  - destruct (read_from_ok buf 0 1 [3%Z] (Z.of_nat (length h) :: (h ++ be16 p) ++ q) e s) as (s1 & E1 & H1 & O1);
      [lia|lia|done|done|].
    rewrite (bind_Ret _ _ _ _ _ E1). change (byte_at [3%Z] 0) with 3%Z. cbv iota.
    destruct (read_from_ok buf 1 2 [Z.of_nat (length h)] ((h ++ be16 p) ++ q) e s1) as (s2 & E2 & H2 & O2);
      [lia|lia|done|done|].
    rewrite (bind_Ret _ _ _ _ _ E2). change (byte_at [Z.of_nat (length h)] 0) with (Z.of_nat (length h)). cbv zeta.
    rewrite Nat2Z.id.
    destruct (read_from_ok buf 2 (2 + length h + 2) (h ++ be16 p) q e s2) as (s3 & E3 & H3 & O3);
      [lia|lia|rewrite length_app; unfold be16; simpl; lia|done|].
    exists s3. rewrite (bind_Ret _ _ _ _ _ E3). split_and!; auto.
Qed.

(** The client's side: after the address, everything the client sends. *)
Lemma proxy_request proxyServerAddr remote rnd buf a d (c : conn) :
  Dial proxyServerAddr = Ret d → c_wbudget d = None → c_out d = [] → nc_rnd rnd → ParseAddress remote buf = Ret a →
  ∃ s, RelayToProxyServer proxyServerAddr remote rnd buf c = Ret (Bi s c) ∧ nc_out s a.
Proof.
  intros HD Hb Ho Hr Ha. unfold RelayToProxyServer, mbind, res_bind. rewrite HD, Ha.
  destruct (nc_write_law a (nc_new rnd d) [] (nc_new_law rnd d Hr Hb Ho)) as (s & -> & H & _). eauto.
Qed.

(** The server's side: the address is dialled and what follows it is the payload. *)
Lemma server_request rnd buf a q e t (cs : conn) :
  wf_addr a → MaxAddressBufferSize ≤ length buf → nc_in (nc_new rnd cs) (a ++ q) e → Dial (Address.String a) = Ret t →
  ∃ s, RelayToServer rnd buf cs = Ret (Bi t s) ∧ nc_in s q e ∧ (∀ o, nc_out (nc_new rnd cs) o → nc_out s o).
Proof.
  intros Ha Hb Hin HD. destruct (ParseAddressFrom_wf a q e buf _ Ha Hb Hin) as (s & E & Hs & Ho).
  exists s. unfold RelayToServer. rewrite E. unfold mbind, res_bind. rewrite HD. done.
Qed.
End Relay.

(** ** End to end *)
Section EndToEnd.
Context (scipher : option stream_cipher) (acipher : option aead_cipher) {HC : Ciphers scipher acipher}.
#[local] Instance ops : NetConn boundConn := bound_conn scipher acipher.
#[local] Instance laws : NetConnLaws boundConn := bound_conn_laws scipher acipher.

(** What the server dials for the address text [remote]. *)
Definition dialled (remote : gostring) : option gostring :=
  match SplitHostPort remote with
  | inl (host, p) =>
      Some (JoinHostPort (match net_ParseIP host with Some ip => IP_String ip | None => host end) (itoa (fst (atoi p))))
  | inr _ => None
  end.

Lemma ParseAddress_dialled remote buf a :
  (∀ host p, SplitHostPort remote = inl (host, p) → wf_bytes host) → ParseAddress remote buf = Ret a →
  wf_addr a ∧ dialled remote = Some (Address.String a).
Proof.
  intros Hw H. unfold ParseAddress, dialled in *. destruct (SplitHostPort remote) as [[host p]|]; [|done].
  specialize (Hw host p eq_refl). split; [by eapply HostPort_wf|].
  destruct (HostPort_fields _ _ _ _ Hw H) as [<- <-]. done.
Qed.

(** Sending over a proxy connection, from the client's relay to the target. *)
Lemma tcp_transfer Dial DialS proxy remote rnd rnd' buf buf' a (cc d : conn) (n n' : nat) :
  Dial proxy = Ret d → c_wbudget d = None → c_out d = [] → nc_rnd (T := boundConn) rnd →
  (∀ host p, SplitHostPort remote = inl (host, p) → wf_bytes host) → ParseAddress remote buf = Ret a →
  c_rerr cc = io_EOF → 0 < n → 0 < n' → MaxAddressBufferSize ≤ length buf' →
  ∃ b s cc', RelayToProxyServer (T := boundConn) Dial proxy remote rnd buf cc = Ret b ∧
    ioCopyWithBuffer n (b_dst b) (b_src b) = (s, cc', Ret None) ∧
    ∀ cs addr t, pending cs = c_out (nc_under s) → c_rerr cs = io_EOF →
      dialled remote = Some addr → DialS addr = Ret t → c_wbudget t = None → c_out t = [] →
      ∃ b' t' s', RelayToServer (T := boundConn) DialS rnd' buf' cs = Ret b' ∧
        ioCopyWithBuffer n' (b_dst b') (b_src b') = (t', s', Ret None) ∧ c_out t' = pending cc.
Proof.
  intros HD Hb Ho Hr Hw Ha He Hn Hn' Hbuf. destruct (ParseAddress_dialled _ _ _ Hw Ha) as [Hwa Hdial].
  destruct (proxy_request Dial proxy remote rnd buf a d cc HD Hb Ho Hr Ha) as (s0 & E0 & Ho0).
  assert (nc_in cc (pending cc) io_EOF) as Hcc by (by split).
  destruct (copy_loop_ok (S (nc_size cc)) n s0 cc (pending cc) io_EOF a Hn Hcc Ho0) as (s & cc' & E1 & Ho1 & _); [lia|].
  exists (Bi s0 cc), s, cc'. split_and!; [done|done|].
  intros cs addr t Hp Hcs Hda HDt Htb Hto. rewrite Hdial in Hda. injection Hda as <-.
  pose proof (nc_link s (a ++ pending cc) rnd' cs Ho1 Hp) as Hin. rewrite Hcs in Hin.
  destruct (server_request DialS rnd' buf' a (pending cc) io_EOF t cs Hwa Hbuf Hin HDt) as (s2 & E2 & Hin2 & _).
  assert (nc_out t []) as Ht by (by split).
  destruct (copy_loop_ok (S (nc_size s2)) n' t s2 (pending cc) io_EOF [] Hn' Hin2 Ht) as (t' & s' & E3 & [_ Ho3] & _); [lia|].
  exists (Bi t s2), t', s'. split_and!; [done|done|exact Ho3].
Qed.

(** TCP end to end, for every configured cipher, AEAD, stream or
    none. The client's relay opens the proxy connection, sends the target address
    and then copies the client's bytes; whatever the server's relay gets of it,
    in whatever chunks, it dials the target the client named and copies to it
    exactly the client's bytes, and both copies end without error when the
    client closes. *)
Theorem tcp_end_to_end Dial DialS proxy remote rnd rnd' buf buf' a (cc d : conn) (n n' : nat) :
  Dial proxy = Ret d → c_wbudget d = None → c_out d = [] → nc_rnd (T := boundConn) rnd →
  (∀ host p, SplitHostPort remote = inl (host, p) → wf_bytes host) → ParseAddress remote buf = Ret a →
  c_rerr cc = io_EOF → 0 < n → 0 < n' → MaxAddressBufferSize ≤ length buf' →
  ∃ b s cc', RelayToProxyServer (T := boundConn) Dial proxy remote rnd buf cc = Ret b ∧
    ioCopyWithBuffer n (b_dst b) (b_src b) = (s, cc', Ret None) ∧
    ∀ cs addr t, pending cs = c_out (nc_under s) → c_rerr cs = io_EOF →
      dialled remote = Some addr → DialS addr = Ret t → c_wbudget t = None → c_out t = [] →
      ∃ b' t' s', RelayToServer (T := boundConn) DialS rnd' buf' cs = Ret b' ∧
        ioCopyWithBuffer n' (b_dst b') (b_src b') = (t', s', Ret None) ∧ c_out t' = pending cc.
Proof. apply tcp_transfer. Qed.

(** C4 (liveness): the bidirectional copy between a client and a cipher connection, whose two goroutines interleave at every
    read and every write. Provided that no write to a connection that is still open fails (reads may fail, and writes after
    the relay has closed the connections do): at every moment each side has been sent a prefix of what the other side
    delivers; when an error is returned (none for the end of a stream) it is the one that ended a direction of which every
    byte was passed on; until the call has returned, both connections are closed and both goroutines are gone, something
    can happen; and this does not go on forever. *)
Theorem tcp_relay_live (dst : boundConn) (src : conn) (mu md : list Z) eu ed ou od :
  nc_in src mu eu → nc_out dst ou → nc_in dst md ed → nc_out src od →
  (∀ s, rtc bi_step (Bi dst src) s →
     (∃ u, u `prefix_of` mu ∧ nc_out (b_dst s) (ou ++ u)) ∧
     (∃ x, x `prefix_of` md ∧ c_out (b_src s) = od ++ x) ∧
     (∀ x, b_done s = Some x →
        (x = end_error eu ∧ nc_out (b_dst s) (ou ++ mu)) ∨ (x = end_error ed ∧ c_out (b_src s) = od ++ md)) ∧
     (¬ bi_over s → ∃ s', bi_step s s')) ∧
  (∀ f : nat → bistate boundConn conn, f 0 = Bi dst src → ¬ ∀ i, bi_step (f i) (f (S i))).
Proof.
  intros Hu Ho Hd Hs. pose proof (bi_start mu md eu ed ou od dst src Hu Ho Hd Hs) as HI. split.
  - intros s Hr. pose proof (bi_steps_inv _ _ _ _ _ _ _ _ HI Hr) as HI'.
    destruct (bi_up _ _ _ _ _ _ _ HI') as (u & u' & Hu1 & _ & Hu2 & _), (bi_down _ _ _ _ _ _ _ HI') as (x & x' & [_ Hx1] & _ & Hx2 & _).
    split_and!; [by exists u|by exists x| |by eapply bi_progress].
    intros y Hy. destruct (bi_end _ _ _ _ _ _ _ HI' y Hy) as [(? & _ & ?)|(? & _ & _ & ?)]; auto.
  - intros f H0. apply (no_infinite_run bi_step bi_size (BiInv mu md eu ed ou od)); [by rewrite H0|].
    intros s s' HIs Hst. by eapply bi_step_inv.
Qed.
End EndToEnd.

(** *** Witnesses *)
Definition toy_aead_cipher : aead_cipher := AeadCipher 16 (λ _, Ret AeadConn.toy_aead) (λ _, Ret AeadConn.toy_aead).
#[export] Instance toy_ciphers : Ciphers None (Some toy_aead_cipher).
Proof.
  split; [done|]. intros x [= <-]. split; [simpl; lia|].
  intros salt _. exists AeadConn.toy_aead, AeadConn.toy_aead. split_and!; [done|done|exact AeadConn.toy_laws].
Qed.
Definition demo_conn : conn := Conn [] io_EOF [] None io_EOF.
Definition demo_client : conn := Conn [str "GET "; str "/"] io_EOF [] None io_EOF.

Lemma tcp_end_to_end_witness :
  ∃ b s cc', @RelayToProxyServer _ (ops None (Some toy_aead_cipher)) (λ _, Ret demo_conn) (str "proxy:1") (str "1.2.3.4:80")
      (replicate 16 7%Z) (replicate 259 0%Z) demo_client = Ret b ∧
    @ioCopyWithBuffer _ _ (ops None (Some toy_aead_cipher)) _ _ 9 (b_dst b) (b_src b) = (s, cc', Ret None) ∧
    ∀ cs, pending cs = c_out (@nc_under _ (ops None (Some toy_aead_cipher)) s) → c_rerr cs = io_EOF →
      ∃ b' t' s', @RelayToServer _ (ops None (Some toy_aead_cipher)) (laws None (Some toy_aead_cipher))
          (λ _, Ret demo_conn) (replicate 16 8%Z) (replicate 259 0%Z) cs = Ret b' ∧
        @ioCopyWithBuffer _ _ _ (ops None (Some toy_aead_cipher)) (laws None (Some toy_aead_cipher)) 5
          (b_dst b') (b_src b') = (t', s', Ret None) ∧ c_out t' = str "GET /".
Proof.
  destruct (tcp_end_to_end None (Some toy_aead_cipher) (λ _, Ret demo_conn) (λ _, Ret demo_conn) (str "proxy:1") (str "1.2.3.4:80")
    (replicate 16 7%Z) (replicate 16 8%Z) (replicate 259 0%Z) (replicate 259 0%Z) [1; 1; 2; 3; 4; 0; 80]%Z demo_client demo_conn 9 5)
    as (b & s & cc' & H1 & H2 & H3); [reflexivity|reflexivity|reflexivity|reflexivity| |vm_compute; reflexivity|reflexivity|lia|lia|vm_compute; lia|].
  { intros host p E. vm_compute in E. injection E as <- _. repeat constructor; unfold is_byte; lia. }
  exists b, s, cc'. split; [exact H1|]. split; [exact H2|]. intros cs Hp He.
  apply (H3 cs (str "1.2.3.4:80") demo_conn Hp He); vm_compute; reflexivity.
Defined.

(** After one read by the first goroutine: it holds what it read, and the relay goes on. *)
Lemma tcp_relay_live_witness :
  let s := MkBi (BPlain demo_conn) (Conn [str "/"] io_EOF [] None io_EOF) (CWrite (str "GET ")) CRead None true true in
  rtc (@bi_step boundConn conn (ops None None) _) (Bi (BPlain demo_conn) demo_client) s ∧
  (∃ s', @bi_step boundConn conn (ops None None) _ s s') ∧
  ¬ ∃ f, f 0 = Bi (BPlain demo_conn) demo_client ∧ ∀ i, @bi_step boundConn conn (ops None None) _ (f i) (f (S i)).
Proof.
  intros s.
  assert (rtc (@bi_step boundConn conn (ops None None) _) (Bi (BPlain demo_conn) demo_client) s) as Hr.
  { eapply rtc_l; [|apply rtc_refl]. refine (up_step _ _ _ _ _ _ _ _ _ _ None _).
    refine (cp_read true true 9 demo_client _ (str "GET ") _ _ _ _); [done|lia|vm_compute; reflexivity]. }
  destruct (tcp_relay_live None None (HC := ltac:(by split)) (BPlain demo_conn) demo_client (str "GET /") []
    io_EOF io_EOF [] [] (conj eq_refl eq_refl) (conj eq_refl (conj eq_refl (conj eq_refl eq_refl))) (conj eq_refl eq_refl)
    (conj eq_refl eq_refl)) as [H1 H2].
  split; [exact Hr|]. split.
  - apply (H1 s Hr). intros (? & _). done.
  - intros (f & H0 & Hf). by apply (H2 f H0).
Defined.
