(* ===== verification/UdpRelay.v ===== *)
(** * Package relay: UDP relaying, and the UDP client of package client.

    Models [src/relay/udp.go], [src/relay/udp_natmap.go] and the datagram side of
    [src/client/conn_wrapper.go]: the functions that strip and prepend addresses in
    the shared read buffer, the two directions of
    [IoCopyBidirectionalForPacket] as interleaved steps, and the table of sockets of
    [NatmapUDPRelayer]. Addresses of package net are a type with their [String]
    and a resolver as parameters. *)
From S2P Require Import Prelude GoIO GoNet Address Cipher.
Local Open Scope Z_scope.

Section Handlers.
Context {A : Type} (addr_string : A → gostring) (ResolveUDPAddr : gostring → res A).

(** The pools of address buffers and of datagram buffers. *)
Definition addr_buf : list Z := replicate 259 0.

(** [{data}] both ways: the direct relayer with a fixed target. *)
Definition plain_read (target : A) (buf : list Z) (n : nat) : res (list Z * A) :=
  b ← slice buf 0 n; Ret (b, target).
Definition plain_write (_ : A) (buf : list Z) (n : nat) : res (list Z) := slice buf 0 n.

(** SOCKS5 datagrams at the direct relayer: [{0,0,0} {address} {data}]. *)
Definition direct_read (buf : list Z) (n : nat) : res (list Z * A) :=
  if (n <? 3)%nat then Fail io_ErrShortBuffer else
  d ← slice buf 3 n;
  addr ← ParseAddressFromBuffer d;
  target ← ResolveUDPAddr (String addr);
  b ← slice buf (3 + length addr) n;
  Ret (b, target).
Definition direct_write (src : A) (buf : list Z) (n : nat) : res (list Z) :=
  addr ← ParseAddress (addr_string src) addr_buf;
  d ← slice buf 0 n;
  let b1 := copy_at buf (3 + length addr) d in
  let b2 := copy_at b1 3 addr in
  let b3 := copy_at b2 0 [0; 0; 0] in
  slice b3 0 (3 + length addr + n).

(** Shadowsocks client with a fixed remote address. *)
Definition remote_read (remote : gostring) (server : A) (buf : list Z) (n : nat) : res (list Z * A) :=
  addr ← ParseAddress remote addr_buf;
  d ← slice buf 0 n;
  let b1 := copy_at buf (length addr) d in
  let b2 := copy_at b1 0 addr in
  b ← slice b2 0 (n + length addr);
  Ret (b, server).
Definition remote_write (src : A) (buf : list Z) (n : nat) : res (list Z) :=
  addr ← ParseAddress (addr_string src) addr_buf;
  slice buf (length addr) n.

(** Shadowsocks client behind a SOCKS5 server. *)
Definition socks_read (server : A) (buf : list Z) (n : nat) : res (list Z * A) :=
  if (n <? 3)%nat then Fail io_ErrShortBuffer else
  b ← slice buf 3 n; Ret (b, server).
Definition socks_write (_ : A) (buf : list Z) (n : nat) : res (list Z) :=
  if (n <? 3)%nat then Fail io_ErrShortBuffer else
  d ← slice buf 0 n;
  let b1 := copy_at buf 3 d in
  let b2 := copy_at b1 0 [0; 0; 0] in
  slice b2 0 (3 + n).

(** Shadowsocks server. *)
Definition natmap_read (buf : list Z) (n : nat) : res (list Z * A) :=
  d ← slice buf 0 n;
  addr ← ParseAddressFromBuffer d;
  target ← ResolveUDPAddr (String addr);
  b ← slice buf (length addr) n;
  Ret (b, target).
Definition natmap_write (src : A) (buf : list Z) (n : nat) : res (list Z) :=
  addr ← ParseAddress (addr_string src) addr_buf;
  d ← slice buf 0 n;
  let b1 := copy_at buf (length addr) d in
  let b2 := copy_at b1 0 addr in
  slice b2 0 (length addr + n).

(** [udpConnWrapper.Write(b)] and [Read(b)] with [len(b) = k]. *)
Definition wrapper_Write (remote : A) (dest : A) (buf b : list Z) (c : pconn A) : pconn A * res nat :=
  match ParseAddress (addr_string remote) addr_buf with
  | Ret addr =>
      let b1 := copy_at buf 0 [0; 0; 0] in
      let b2 := copy_at b1 3 addr in
      let b3 := copy_at b2 (3 + length addr) b in
      match slice b3 0 (3 + length addr + length b) with
      | Ret d => pconn_write d dest c
      | Fail e => (c, Fail e)
      | Panic => (c, Panic)
      end
  | Fail e => (c, Fail e)
  | Panic => (c, Panic)
  end.
Definition wrapper_Read (k : nat) (buf : list Z) (c : pconn A) : pconn A * res (list Z) :=
  match pconn_read (length buf) c with
  | (c1, Ret (d, _)) =>
      let buf1 := copy_at buf 0 d in
      let n := length d in
      (c1, x ← slice buf1 3 n;
           addr ← ParseAddressFromBuffer x;
           y ← slice buf1 (3 + length addr) n;
           Ret (take k y))
  | (c1, Fail e) => (c1, Fail e)
  | (c1, Panic) => (c1, Panic)
  end.
End Handlers.
Lemma length_addr_buf : length addr_buf = 259%nat.
Proof. apply length_replicate. Qed.
#[global] Opaque addr_buf.

(** ** Addresses in address buffers

    [ParseAddress] writes over what an earlier user of the buffer left. *)
Lemma HostPort_any host port : ∃ r, (∀ b, (259 ≤ length b)%nat → ParseAddressFromHostPort host port b = r) ∧ r ≠ Panic ∧ (∀ a, r = Ret a → (length a ≤ 259)%nat).
Proof.
  destruct ((length host =? 0)%nat || (port <? 0)%Z || (65535 <? port)%Z) eqn:E; [by exists (Fail errInvalidHostOrPort); split_and!; [intros b _; unfold ParseAddressFromHostPort; rewrite E|..]|].
  assert ((0 < length host)%nat ∧ (0 ≤ port ≤ 65535)%Z) as [Hh Hp] by (apply orb_false_iff in E as [[E1 E2]%orb_false_iff E3]; zify_bool; lia).
  destruct (net_ParseIP host) as [ip|] eqn:Eip; [pose proof (net_ParseIP_wf _ _ Eip) as [Hil Hiw]; destruct (To4 ip) as [ip4|] eqn:E4|].
  - destruct (To4_wf _ _ Hiw E4) as [Hl _]. eexists. split_and!; [intros b Hb; apply (HostPort_v4 host port b ip ip4); done || lia|done|].
    intros a [= <-]. cbn [length]. rewrite !length_app, length_be16, Hl. cbn. lia.
  - eexists. split_and!; [intros b Hb; apply (HostPort_v6 host port b ip); done || lia|done|]. intros a [= <-]. cbn [length]. rewrite !length_app, length_be16, Hil. cbn. lia.
  - destruct (255 <? length host)%nat eqn:El.
    + exists (Fail errDomainLengthToLong). split_and!; [intros b _; unfold ParseAddressFromHostPort; by rewrite E, Eip, El|done|done].
    + apply Nat.ltb_ge in El. eexists. split_and!; [intros b Hb; apply HostPort_domain; done || lia|done|]. intros a [= <-].
      cbn [length]. rewrite !length_app, length_be16. cbn. lia.
Qed.
Lemma ParseAddress_any a b : length b = 259%nat → ParseAddress a b = ParseAddress a addr_buf.
Proof.
  intros Hb. unfold ParseAddress. destruct (SplitHostPort a) as [[host port]|]; [|done].
  destruct (HostPort_any host (atoi port).1) as (r & Hr & _). rewrite !Hr; [done| |by rewrite Hb]. by rewrite length_addr_buf.
Qed.
Lemma ParseAddress_fits a : ParseAddress a addr_buf ≠ Panic ∧ ∀ x, ParseAddress a addr_buf = Ret x → (length x ≤ 259)%nat.
Proof.
  unfold ParseAddress. destruct (SplitHostPort a) as [[host port]|]; [|done].
  destruct (HostPort_any host (atoi port).1) as (r & Hr & H). rewrite Hr; [exact H|]. by rewrite length_addr_buf.
Qed.

(** ** Datagrams in the shared buffer *)

(** The first [length d] bytes of the buffer hold the datagram [d]. *)
Definition holds (buf d : list Z) : Prop := length buf = MaxUdpBufferSize ∧ ∃ r, buf = d ++ r.

Lemma holds_slice buf d a b : holds buf d → d = a ++ b → slice buf (length a) (length d) = Ret b.
Proof.
  intros [_ [r ->]] ->. rewrite slice_ok by (rewrite ?length_app; lia).
  rewrite <-app_assoc, drop_app_length, length_app. replace (length a + length b - length a)%nat with (length b) by lia.
  by rewrite take_app_length.
Qed.

Lemma holds_all buf d : holds buf d → slice buf 0 (length d) = Ret d.
Proof. intros H. by apply (holds_slice _ _ []). Qed.

(** Moving the datagram up and writing a header of the same length before it. *)
Lemma prepend_ok (buf d hd : list Z) : holds buf d → (length hd + length d ≤ MaxUdpBufferSize)%nat →
  slice (copy_at (copy_at buf (length hd) d) 0 hd) 0 (length hd + length d) = Ret (hd ++ d).
Proof.
  intros [Hl _] Hf. rewrite slice_ok by (rewrite ?length_copy_at; lia). f_equal. rewrite drop_0, Nat.sub_0_r.
  rewrite copy_at_0 by (rewrite length_copy_at; lia).
  rewrite take_app_ge by lia. f_equal. rewrite Nat.add_comm, Nat.add_sub.
  unfold copy_at. rewrite (take_ge d) by lia.
  rewrite drop_app_ge, length_take by (rewrite length_take; lia). rewrite Nat.min_l, Nat.sub_diag, drop_0 by lia.
  by rewrite take_app_length.
Qed.

(** Too much for the buffer. *)
Lemma prepend_panic (buf d hd : list Z) : length buf = MaxUdpBufferSize → (length hd ≤ MaxUdpBufferSize)%nat →
  (MaxUdpBufferSize < length hd + length d)%nat →
  slice (copy_at (copy_at buf (length hd) d) 0 hd) 0 (length hd + length d) = Panic.
Proof. intros Hl Hh Hf. apply slice_panic. rewrite !length_copy_at by (rewrite ?length_copy_at; lia). lia. Qed.

(** The relayers write the header in two pieces; it is the same. *)
Lemma copy_header (buf h1 h2 : list Z) : (length h1 + length h2 ≤ length buf)%nat →
  copy_at (copy_at buf (length h1) h2) 0 h1 = copy_at buf 0 (h1 ++ h2).
Proof.
  intros Hl. rewrite (copy_at_0 buf), copy_at_0 by (rewrite ?length_copy_at, ?length_app; lia).
  unfold copy_at. rewrite (take_ge h2) by lia.
  rewrite drop_app_ge, length_take by (rewrite length_take; lia). rewrite Nat.min_l, Nat.sub_diag, drop_0 by lia.
  by rewrite length_app, <-app_assoc.
Qed.

Section Forwarding.
Context {A : Type} (addr_string : A → gostring) (ResolveUDPAddr : gostring → res A).

Lemma socks_read_ok server buf d : holds buf ([0; 0; 0] ++ d) →
  socks_read (A := A) server buf (3 + length d) = Ret (d, server).
Proof. intros H. unfold socks_read. pose proof (holds_slice buf ([0; 0; 0] ++ d) [0; 0; 0] d H eq_refl) as E. simpl in *. by rewrite E. Qed.

Lemma socks_write_ok (src : A) buf d : holds buf d → (3 ≤ length d)%nat → (3 + length d ≤ MaxUdpBufferSize)%nat →
  socks_write src buf (length d) = Ret ([0; 0; 0] ++ d).
Proof.
  intros H H3 Hf. unfold socks_write. rewrite (proj2 (Nat.ltb_ge _ _)) by lia. rewrite holds_all by done.
  exact (prepend_ok buf d [0; 0; 0] H Hf).
Qed.

Lemma natmap_read_ok target buf a d : wf_addr a → ResolveUDPAddr (String a) = Ret target → holds buf (a ++ d) →
  natmap_read ResolveUDPAddr buf (length (a ++ d)) = Ret (d, target).
Proof.
  intros Ha Hr H. unfold natmap_read. rewrite holds_all by done. simpl. rewrite FromBuffer_wf by done. simpl.
  rewrite Hr. simpl. by rewrite (holds_slice buf (a ++ d) a d).
Qed.

Lemma natmap_write_ok src buf a d : ParseAddress (addr_string src) addr_buf = Ret a → holds buf d →
  (length a + length d ≤ MaxUdpBufferSize)%nat → natmap_write addr_string src buf (length d) = Ret (a ++ d).
Proof. intros Ha H Hf. unfold natmap_write. rewrite Ha. simpl. rewrite holds_all by done. by apply prepend_ok. Qed.

Lemma direct_read_ok target buf a d : wf_addr a → ResolveUDPAddr (String a) = Ret target → holds buf ([0; 0; 0] ++ a ++ d) →
  direct_read ResolveUDPAddr buf (3 + length (a ++ d)) = Ret (d, target).
Proof.
  intros Ha Hr H. unfold direct_read. cbn [Nat.ltb Nat.leb Nat.add].
  pose proof (holds_slice buf ([0; 0; 0] ++ a ++ d) [0; 0; 0] (a ++ d) H eq_refl) as E1.
  pose proof (holds_slice buf ([0; 0; 0] ++ a ++ d) ([0; 0; 0] ++ a) d H (app_assoc _ _ _)) as E2.
  cbn [app length] in E1, E2. rewrite E1. simpl. rewrite FromBuffer_wf by done. simpl. rewrite Hr. simpl. by rewrite E2.
Qed.

Lemma direct_write_eq src buf a d : ParseAddress (addr_string src) addr_buf = Ret a → holds buf d →
  (3 + length a ≤ MaxUdpBufferSize)%nat →
  direct_write addr_string src buf (length d) =
    slice (copy_at (copy_at buf (length ([0; 0; 0] ++ a)) d) 0 ([0; 0; 0] ++ a)) 0 (length ([0; 0; 0] ++ a) + length d).
Proof.
  intros Ha H Hf. unfold direct_write. rewrite Ha. simpl. rewrite holds_all by done. simpl.
  destruct H as [Hl _]. rewrite <-(copy_header _ [0; 0; 0] a) by (rewrite length_copy_at; simpl; lia). done.
Qed.

(** A UDP client behind SOCKS5 and Shadowsocks. What
    [udpConnWrapper.Write] sends to the SOCKS5 relay reaches the Shadowsocks
    server with the target address in front, and the target with nothing but
    the data; the target's answer comes back through the server and the relay,
    and [udpConnWrapper.Read] returns it, cut to the caller's buffer. *)
Theorem udp_end_to_end (target local server : A) a d e k buf0 buf1 buf2 buf3 buf4 c c' :
  ParseAddress (addr_string target) addr_buf = Ret a → wf_addr a → ResolveUDPAddr (String a) = Ret target →
  (3 + length (a ++ d) ≤ MaxUdpBufferSize)%nat → (3 + length (a ++ e) ≤ MaxUdpBufferSize)%nat →
  length buf0 = MaxUdpBufferSize → pk_werr c = None →
  holds buf1 ([0; 0; 0] ++ a ++ d) → holds buf2 (a ++ d) → holds buf3 e → holds buf4 (a ++ e) →
  pk_in c' = ([0; 0; 0] ++ a ++ e, local) :: [] →
  pk_out (wrapper_Write addr_string target local buf0 d c).1 = pk_out c ++ [([0; 0; 0] ++ a ++ d, local)] ∧
  socks_read server buf1 (3 + length (a ++ d)) = Ret (a ++ d, server) ∧
  natmap_read ResolveUDPAddr buf2 (length (a ++ d)) = Ret (d, target) ∧
  natmap_write addr_string target buf3 (length e) = Ret (a ++ e) ∧
  socks_write server buf4 (length (a ++ e)) = Ret ([0; 0; 0] ++ a ++ e) ∧
  (wrapper_Read k buf0 c').2 = Ret (take k e).
Proof.
  intros Hp Ha Hr Hd He Hb Hw H1 H2 H3 H4 Hin. rewrite !length_app in Hd, He.
  assert (3 ≤ length a)%nat by (destruct Ha; simpl; rewrite length_app; simpl; lia).
  split_and!.
  - unfold wrapper_Write. rewrite Hp.
    set (b1 := copy_at buf0 0 [0; 0; 0]). assert (length b1 = length buf0) as E1 by (apply length_copy_at; lia).
    set (b2 := copy_at b1 3 a). assert (length b2 = length buf0) as E2 by (unfold b2; rewrite length_copy_at; lia).
    set (b3 := copy_at b2 (3 + length a) d).
    assert (length b3 = length buf0) as E3 by (unfold b3; rewrite length_copy_at; lia).
    rewrite slice_ok by lia. unfold pconn_write. rewrite Hw. cbn [fst pk_out]. do 3 f_equal. rewrite drop_0, Nat.sub_0_r.
    unfold b3. rewrite take_copy_at by lia. unfold b2. rewrite take_copy_at by lia.
    unfold b1. rewrite take_copy_at by (simpl; lia). by rewrite take_0, <-app_assoc.
  - by apply socks_read_ok.
  - by apply natmap_read_ok.
  - apply natmap_write_ok; [done|done|lia].
  - apply socks_write_ok; [done|rewrite length_app; lia|rewrite length_app; lia].
  - unfold wrapper_Read, pconn_read. rewrite Hin, take_ge by (rewrite !length_app; simpl; lia). cbn [snd].
    assert (holds (copy_at buf0 0 ([0; 0; 0] ++ a ++ e)) ([0; 0; 0] ++ a ++ e)) as HH.
    { split; [rewrite length_copy_at; lia|]. rewrite copy_at_0 by (rewrite !length_app; simpl; lia). by eexists. }
    pose proof (holds_slice _ _ [0; 0; 0] (a ++ e) HH eq_refl) as E1.
    pose proof (holds_slice _ _ ([0; 0; 0] ++ a) e HH (app_assoc _ _ _)) as E2.
    cbn [length app Nat.add] in *. rewrite E1. simpl. rewrite FromBuffer_wf by done. simpl. by rewrite E2.
Qed.

(** An answer that does not fit the 16 KiB buffer together with the
    SOCKS5 header makes the direct relayer panic: the slice it returns ends
    past the buffer it was read into. *)
Theorem udp_large_reply_panics src buf a d :
  ParseAddress (addr_string src) addr_buf = Ret a → (length a ≤ MaxAddressBufferSize)%nat → holds buf d →
  (MaxUdpBufferSize < 3 + length a + length d)%nat → direct_write addr_string src buf (length d) = Panic.
Proof.
  intros Hp Ha H Hf. pose proof MaxUdp_size. unfold MaxAddressBufferSize in Ha.
  rewrite (direct_write_eq src buf a d Hp H) by lia. apply prepend_panic; [apply H|simpl; lia|simpl; lia].
Qed.

(** The Shadowsocks client with a fixed remote address drops as
    many bytes of an answer as the proxy server's own address is long. The
    client gets the data exactly when that is also the length of the address
    the answer carries. *)
Theorem remote_reply_data server buf a s d :
  ParseAddress (addr_string server) addr_buf = Ret s → holds buf (a ++ d) →
  remote_write addr_string server buf (length (a ++ d)) = Ret d ↔ length s = length a.
Proof.
  intros Hs H. unfold remote_write. rewrite Hs. simpl. split.
  - unfold slice. destruct (_ && _) eqn:E; [|done]. intros Hd. apply andb_true_iff in E as [E1 E2]. zify_bool.
    simplify_eq. apply (f_equal length) in Hd. rewrite length_take, length_drop in Hd. rewrite length_app in *. lia.
  - intros Hl. rewrite Hl. by apply (holds_slice buf (a ++ d) a d).
Qed.
End Forwarding.

(** ** [IoCopyBidirectionalForPacket] *)

(** A buffer that holds the datagram and nothing else. *)
Definition fill (d : list Z) : list Z := d ++ replicate (MaxUdpBufferSize - length d) 0.
Lemma holds_fill d : (length d ≤ MaxUdpBufferSize)%nat → holds (fill d) d.
Proof. intros. split; [|by eexists]. unfold fill. rewrite length_app, length_replicate. lia. Qed.

(** What a pair of functions has to promise to the relay: their results depend on
    the datagram in the buffer only, not on what earlier datagrams left behind it. *)
Class Handlers {A : Type} (readFromSrc : list Z → nat → res (list Z * A))
    (writeToSrc : A → list Z → nat → res (list Z)) : Prop := {
  h_read buf d : holds buf d → readFromSrc buf (length d) = readFromSrc (fill d) (length d);
  h_write a buf d : holds buf d → writeToSrc a buf (length d) = writeToSrc a (fill d) (length d);
}.

Section Bidirectional.
Context {A : Type} (addr_string : A → gostring) (serverAddr : gostring).
Context (readFromSrc : list Z → nat → res (list Z * A)) (writeToSrc : A → list Z → nat → res (list Z)).

Record relayState := RelayState {
  r_src : pconn A;
  r_dst : pconn A;
  (** the value sent once on [srcAddrCh] *)
  r_srcAddr : option A;
  (** an error on [errCh]: the relay is over *)
  r_err : option error;
}.

(** The filter against datagrams from other hosts. The source also tests that the address
    is not nil; a [ReadFrom] without an error gives one, so that [A] has no nil. *)
Definition illegal (a : A) : bool :=
  negb (bool_decide (serverAddr = [])) && negb (bool_decide (addr_string a = serverAddr)).

Definition once (o : option A) (a : A) : option A := match o with Some _ => o | None => Some a end.
Definition drop_in (c : pconn A) (r : list (list Z * A)) : pconn A := PConn r (pk_rerr c) (pk_out c) (pk_werr c).
Definition emit (b : list Z) (a : A) (c : pconn A) : pconn A := (pconn_write b a c).1.

(** One iteration of either goroutine, in any order; [buf] is the goroutine's
    buffer, which holds the datagram just read. *)
Inductive relay_step : relayState → relayState → Prop :=
| up_forward src dst o d0 a r buf b t :
    pk_in src = (d0, a) :: r → holds buf (take MaxUdpBufferSize d0) →
    readFromSrc buf (length (take MaxUdpBufferSize d0)) = Ret (b, t) →
    relay_step (RelayState src dst o None) (RelayState (drop_in src r) (emit b t dst) (once o a) None)
| up_skip src dst o d0 a r buf e :
    pk_in src = (d0, a) :: r → holds buf (take MaxUdpBufferSize d0) →
    readFromSrc buf (length (take MaxUdpBufferSize d0)) = Fail e →
    relay_step (RelayState src dst o None) (RelayState (drop_in src r) dst (once o a) None)
| up_error src dst o :
    pk_in src = [] → relay_step (RelayState src dst o None) (RelayState src dst o (Some (pk_rerr src)))
| down_forward src dst client d0 a r buf b :
    pk_in dst = (d0, a) :: r → illegal a = false → holds buf (take MaxUdpBufferSize d0) →
    writeToSrc a buf (length (take MaxUdpBufferSize d0)) = Ret b →
    relay_step (RelayState src dst (Some client) None) (RelayState (emit b client src) (drop_in dst r) (Some client) None)
| down_illegal src dst client d0 a r :
    pk_in dst = (d0, a) :: r → illegal a = true →
    relay_step (RelayState src dst (Some client) None) (RelayState src (drop_in dst r) (Some client) None)
| down_skip src dst client d0 a r buf e :
    pk_in dst = (d0, a) :: r → illegal a = false → holds buf (take MaxUdpBufferSize d0) →
    writeToSrc a buf (length (take MaxUdpBufferSize d0)) = Fail e →
    relay_step (RelayState src dst (Some client) None) (RelayState src (drop_in dst r) (Some client) None)
| down_error src dst client :
    pk_in dst = [] → relay_step (RelayState src dst (Some client) None) (RelayState src dst (Some client) (Some (pk_rerr dst))).

(** What each direction should do to a datagram. *)
Definition upstream (p : list Z * A) : option (list Z * A) :=
  let d := take MaxUdpBufferSize p.1 in
  match readFromSrc (fill d) (length d) with Ret x => Some x | _ => None end.
Definition downstream (p : list Z * A) : option (list Z) :=
  if illegal p.2 then None else
  let d := take MaxUdpBufferSize p.1 in
  match writeToSrc p.2 (fill d) (length d) with Ret x => Some x | _ => None end.

Context `{!Handlers readFromSrc writeToSrc}.

(** Relaying is transparent: what was sent upstream is the image of what was read
    from the client side, in order, and what was sent back is the image of what
    was read from the other side, in order, to the first client. *)
Record transparent (src0 dst0 : pconn A) (s : relayState) (up down : list (list Z * A)) : Prop := {
  tr_src : pk_in src0 = up ++ pk_in (r_src s);
  tr_dst : pk_in dst0 = down ++ pk_in (r_dst s);
  tr_client : r_srcAddr s = snd <$> head up;
  tr_up : pk_out (r_dst s) = pk_out dst0 ++ omap upstream up;
  tr_down : pk_out (r_src s) = pk_out src0 ++
    match head up with Some (_, client) => (λ b, (b, client)) <$> omap downstream down | None => [] end;
  tr_wait : up = [] → down = [];
  tr_werr : pk_werr (r_src s) = None ∧ pk_werr (r_dst s) = None;
}.

Lemma once_head o (up : list (list Z * A)) d a : o = snd <$> head up → once o a = snd <$> head (up ++ [(d, a)]).
Proof. intros ->. by destruct up. Qed.

Lemma upstream_eq d0 a buf : holds buf (take MaxUdpBufferSize d0) →
  upstream (d0, a) = match readFromSrc buf (length (take MaxUdpBufferSize d0)) with Ret x => Some x | _ => None end.
Proof. intros H. unfold upstream. simpl. by rewrite (h_read buf) by done. Qed.
Lemma downstream_eq d0 a buf : holds buf (take MaxUdpBufferSize d0) → illegal a = false →
  downstream (d0, a) = match writeToSrc a buf (length (take MaxUdpBufferSize d0)) with Ret x => Some x | _ => None end.
Proof. intros H Hi. unfold downstream. simpl. by rewrite Hi, (h_write a buf) by done. Qed.

(** One more datagram of the client side. *)
Lemma transparent_up src0 dst0 src dst o up down d0 a r x :
  transparent src0 dst0 (RelayState src dst o None) up down → pk_in src = (d0, a) :: r → upstream (d0, a) = x →
  transparent src0 dst0
    (RelayState (drop_in src r) (match x with Some (b, t) => emit b t dst | None => dst end) (once o a) None)
    (up ++ [(d0, a)]) down.
Proof.
  intros [H1 H2 H3 H4 H5 H6 [H7 H8]] Hin Hx. simpl in *.
  assert (down = [] ∨ ∃ d c l, up = (d, c) :: l) as Hc by (destruct up as [|[d c] l]; [left; auto|right; eauto]).
  split; simpl.
  - by rewrite H1, Hin, <-app_assoc.
  - rewrite H2. destruct x as [[b t]|]; [|done]. unfold emit, pconn_write. by rewrite H8.
  - by apply once_head.
  - rewrite omap_app. cbn. rewrite Hx. destruct x as [[b t]|]; simpl; [|by rewrite H4, app_nil_r].
    unfold emit, pconn_write. rewrite H8. simpl. by rewrite H4, <-app_assoc.
  - rewrite H5. f_equal. destruct Hc as [->|(d & c & l & ->)]; [|done]. destruct up as [|[]]; done.
  - by destruct up.
  - split; [done|]. destruct x as [[b t]|]; [|done]. unfold emit, pconn_write. by rewrite H8.
Qed.

(** One more datagram of the other side. *)
Lemma transparent_down src0 dst0 src dst client up down d0 a r x :
  transparent src0 dst0 (RelayState src dst (Some client) None) up down → pk_in dst = (d0, a) :: r →
  downstream (d0, a) = x →
  transparent src0 dst0
    (RelayState (match x with Some b => emit b client src | None => src end) (drop_in dst r) (Some client) None)
    up (down ++ [(d0, a)]).
Proof.
  intros [H1 H2 H3 H4 H5 H6 [H7 H8]] Hin Hx. simpl in *.
  destruct up as [|[d c] up]; [done|]. simpl in *. injection H3 as ->.
  assert (pk_in (match x with Some b => emit b c src | None => src end) = pk_in src) as Ei.
  { destruct x; [|done]. unfold emit, pconn_write. by rewrite H7. }
  split; simpl; [by rewrite Ei|by rewrite H2, Hin, <-app_assoc|done|done| |done|].
  - rewrite omap_app. cbn. rewrite Hx. destruct x as [b|]; simpl; [|by rewrite H5, app_nil_r].
    unfold emit, pconn_write. rewrite H7. simpl. by rewrite H5, fmap_app, <-app_assoc.
  - split; [|done]. destruct x; [|done]. unfold emit, pconn_write. by rewrite H7.
Qed.

Lemma transparent_step src0 dst0 s s' up down :
  transparent src0 dst0 s up down → relay_step s s' → ∃ up' down', transparent src0 dst0 s' up' down'.
Proof.
  intros HT Hs. destruct Hs as [src dst o d0 a r buf b t Hin Hh E|src dst o d0 a r buf e Hin Hh E|
    |src dst c d0 a r buf b Hin Hi Hh E|src dst c d0 a r Hin Hi|src dst c d0 a r buf e Hin Hi Hh E|].
  - exists (up ++ [(d0, a)]), down. apply (transparent_up _ _ _ _ _ _ _ _ _ _ (Some (b, t)) HT Hin).
    by rewrite (upstream_eq _ _ buf), E.
  - exists (up ++ [(d0, a)]), down. apply (transparent_up _ _ _ _ _ _ _ _ _ _ None HT Hin).
    by rewrite (upstream_eq _ _ buf), E.
  - exists up, down. by destruct HT.
  - exists up, (down ++ [(d0, a)]). apply (transparent_down _ _ _ _ _ _ _ _ _ _ (Some b) HT Hin).
    by rewrite (downstream_eq _ _ buf), E.
  - exists up, (down ++ [(d0, a)]). apply (transparent_down _ _ _ _ _ _ _ _ _ _ None HT Hin).
    unfold downstream. simpl. by rewrite Hi.
  - exists up, (down ++ [(d0, a)]). apply (transparent_down _ _ _ _ _ _ _ _ _ _ None HT Hin).
    by rewrite (downstream_eq _ _ buf), E.
  - exists up, down. by destruct HT.
Qed.

(** C21 (invariant): however the two goroutines of the relay interleave and
    whatever the read buffers still hold from earlier datagrams, the datagrams
    sent to the other side are, in order, those read from the client side as
    [udpReadFromSrc] rewrites them, and the datagrams sent back are, in order,
    those that pass the filter as [udpWriteToSrc] rewrites them, all to the
    sender of the first datagram. *)
Theorem relay_transparent src0 dst0 s :
  pk_werr src0 = None → pk_werr dst0 = None →
  rtc relay_step (RelayState src0 dst0 None None) s → ∃ up down, transparent src0 dst0 s up down.
Proof.
  intros H1 H2 Hs. assert (∃ up down, transparent src0 dst0 (RelayState src0 dst0 None None) up down) as HT.
  { exists [], []. split; simpl; rewrite ?app_nil_r; done. }
  revert HT. induction Hs as [|x y z Hxy _ IH]; intros HT; [done|]. apply IH.
  destruct HT as (up & down & HT). by eapply transparent_step.
Qed.
End Bidirectional.

(** The functions of the relayers qualify. *)
Lemma holds_fits buf d : holds buf d → (length d ≤ MaxUdpBufferSize)%nat.
Proof. intros [<- [r ->]]. rewrite length_app. lia. Qed.
Lemma slice_fill buf d lo : holds buf d → slice buf lo (length d) = slice (fill d) lo (length d).
Proof.
  intros H. pose proof (holds_fits _ _ H) as Hf. pose proof (holds_fill d Hf) as H'. destruct (decide (lo ≤ length d)%nat) as [Hlo|Hlo].
  - assert (length (take lo d) = lo) as Hl by (rewrite length_take; lia). pose proof (take_drop lo d) as Hd.
    pose proof (holds_slice _ _ _ _ H (eq_sym Hd)) as E1. pose proof (holds_slice _ _ _ _ H' (eq_sym Hd)) as E2. rewrite Hl in E1, E2. congruence.
  - unfold slice. by rewrite (proj2 (Nat.leb_gt lo _)) by lia.
Qed.
Lemma prepend_fill buf d hd : holds buf d → (length hd ≤ 300)%nat →
  slice (copy_at (copy_at buf (length hd) d) 0 hd) 0 (length hd + length d) = slice (copy_at (copy_at (fill d) (length hd) d) 0 hd) 0 (length hd + length d).
Proof.
  intros H Hl. pose proof (holds_fill d (holds_fits _ _ H)) as H'. pose proof MaxUdp_size. destruct (decide (length hd + length d ≤ MaxUdpBufferSize)%nat).
  - by rewrite !prepend_ok.
  - by rewrite !prepend_panic by (apply H || apply H' || lia).
Qed.
#[export] Instance socks_handlers {A} (server : A) : Handlers (socks_read server) socks_write.
Proof.
  split.
  - intros buf d H. unfold socks_read. destruct (length d <? 3)%nat; [done|]. by rewrite (slice_fill buf d 3 H).
  - intros a buf d H. unfold socks_write. destruct (length d <? 3)%nat; [done|]. rewrite !holds_all by (done || apply holds_fill; by eapply holds_fits).
    exact (prepend_fill buf d [0; 0; 0] H ltac:(simpl; lia)).
Qed.
#[export] Instance plain_handlers {A} (target : A) : Handlers (plain_read target) plain_write.
Proof. split; intros; unfold plain_read, plain_write; by rewrite (slice_fill buf d 0). Qed.
#[export] Instance direct_handlers {A} (addr_string : A → gostring) (ResolveUDPAddr : gostring → res A) : Handlers (direct_read ResolveUDPAddr) (direct_write addr_string).
Proof.
  split.
  - intros buf d H. unfold direct_read. destruct (length d <? 3)%nat; [done|]. rewrite (slice_fill buf d 3 H).
    destruct (slice (fill d) 3 (length d)) as [x|e|]; [|done..]. cbn. destruct (ParseAddressFromBuffer x) as [a|e|]; [|done..]. cbn.
    destruct (ResolveUDPAddr (String a)); [|done..]. cbn [mbind res_bind]. by rewrite (slice_fill buf d _ H).
  - intros a buf d H. pose proof (holds_fill d (holds_fits _ _ H)) as H'. pose proof MaxUdp_size.
    destruct (ParseAddress (addr_string a) addr_buf) as [x|e|] eqn:E; [|unfold direct_write; by rewrite E..].
    destruct (ParseAddress_fits (addr_string a)) as [_ Hf]. specialize (Hf x E).
    rewrite !(direct_write_eq _ _ _ x d E) by (done || lia). apply prepend_fill; [done|]. simpl. lia.
Qed.
#[export] Instance remote_handlers {A} (addr_string : A → gostring) remote (server : A) : Handlers (remote_read remote server) (remote_write addr_string).
Proof.
  split.
  - intros buf d H. pose proof (holds_fill d (holds_fits _ _ H)) as H'. unfold remote_read.
    destruct (ParseAddress remote addr_buf) as [x|e|] eqn:E; [|done..]. destruct (ParseAddress_fits remote) as [_ Hf]. specialize (Hf x E).
    cbn [mbind res_bind]. rewrite !holds_all by done. cbn [mbind res_bind]. rewrite (Nat.add_comm (length d)). by rewrite (prepend_fill buf d x H) by lia.
  - intros a buf d H. unfold remote_write. destruct (ParseAddress (addr_string a) addr_buf); [|done..]. cbn [mbind res_bind]. by rewrite (slice_fill buf d _ H).
Qed.
#[export] Instance natmap_handlers {A} (addr_string : A → gostring) (ResolveUDPAddr : gostring → res A) : Handlers (natmap_read ResolveUDPAddr) (natmap_write addr_string).
Proof.
  split.
  - intros buf d H. unfold natmap_read. rewrite (slice_fill buf d 0 H).
    destruct (slice (fill d) 0 (length d)) as [x|e|]; [|done..]. cbn. destruct (ParseAddressFromBuffer x) as [a|e|]; [|done..]. cbn.
    destruct (ResolveUDPAddr (String a)); [|done..]. cbn [mbind res_bind]. by rewrite (slice_fill buf d _ H).
  - intros a buf d H. pose proof (holds_fill d (holds_fits _ _ H)) as H'. unfold natmap_write.
    destruct (ParseAddress (addr_string a) addr_buf) as [x|e|] eqn:E; [|done..]. destruct (ParseAddress_fits (addr_string a)) as [_ Hf]. specialize (Hf x E).
    cbn [mbind res_bind]. rewrite !holds_all by done. cbn [mbind res_bind]. by rewrite (prepend_fill buf d x H) by lia.
Qed.

(** ** [NatmapUDPRelayer.relayUDP] *)
Section Natmap.
Context {A : Type} (addr_string : A → gostring).
Context (readFromSrc : list Z → nat → res (list Z * A)) (writeToSrc : A → list Z → nat → res (list Z)).

(** A goroutine [handleDstToRelayer]: its client, its filter and whether its
    socket is still open. *)
Record session := Session { se_src : A; se_target : gostring; se_open : bool }.
(** The loop that reads the clients' datagrams: between two of them, with one of client [src] rewritten to [b] for [target] and what the
    look-up gave, or about to send it through a socket. *)
Inductive nat_loop := LIdle | LLooked (src : A) (b : list Z) (target : A) (o : option nat) | LSend (src : A) (b : list Z) (target : A) (i : nat).

(** [cache] by the client's address. Sockets are numbered, in the order they are opened; [opened]: the clients they were opened for.
    What was sent through which socket for which client, and what that came in on which socket was returned to which client. *)
Record natState := NatState {
  loop : nat_loop;
  cache : gmap gostring nat;
  sessions : gmap nat session;
  opened : list A;
  sent : list (nat * A * list Z * A);
  returned : list (nat * list Z * A);
}.

Definition nat_init : natState := NatState LIdle ∅ ∅ [] [] [].

(** Look the socket of the client up. *)
Definition nat_lookup (src : A) (b : list Z) (target : A) (s : natState) : natState :=
  NatState (LLooked src b target (cache s !! addr_string src)) (cache s) (sessions s) (opened s) (sent s) (returned s).
(** Open one, put it in the table and start its goroutine. *)
Definition nat_open (src : A) (b : list Z) (target : A) (s : natState) : natState :=
  let i := length (opened s) in
  NatState (LSend src b target i) (<[addr_string src := i]> (cache s))
    (<[i := Session src (addr_string target) true]> (sessions s)) (opened s ++ [src]) (sent s) (returned s).
Definition set_loop (l : nat_loop) (s : natState) : natState := NatState l (cache s) (sessions s) (opened s) (sent s) (returned s).

(** The filter of a session. ([ReadFrom] gives an address when it gives no error, so [addr != nil] holds.) *)
Definition nat_illegal (se : session) (from : A) : bool :=
  negb (bool_decide (se_target se = [])) && negb (bool_decide (addr_string from = se_target se)).

Inductive nat_step : natState → natState → Prop :=
| nat_client s buf d src b target :
    loop s = LIdle → holds buf d → readFromSrc buf (length d) = Ret (b, target) → nat_step s (nat_lookup src b target s)
| nat_client_skip s buf d e :
    loop s = LIdle → holds buf d → readFromSrc buf (length d) = Fail e → nat_step s s
| nat_found s src b target i : loop s = LLooked src b target (Some i) → nat_step s (set_loop (LSend src b target i) s)
| nat_listen s src b target : loop s = LLooked src b target None → nat_step s (nat_open src b target s)
| nat_listen_fails s src b target : loop s = LLooked src b target None → nat_step s (set_loop LIdle s)
| nat_send s src b target i : loop s = LSend src b target i →
    nat_step s (NatState LIdle (cache s) (sessions s) (opened s) (sent s ++ [(i, src, b, target)]) (returned s))
| nat_send_fails s src b target i : loop s = LSend src b target i → nat_step s (set_loop LIdle s)
| nat_reply s i se buf d from b :
    sessions s !! i = Some se → se_open se = true → holds buf d → nat_illegal se from = false →
    writeToSrc from buf (length d) = Ret b →
    nat_step s (NatState (loop s) (cache s) (sessions s) (opened s) (sent s) (returned s ++ [(i, b, se_src se)]))
| nat_reply_illegal s i se from :
    sessions s !! i = Some se → nat_illegal se from = true → nat_step s s
| nat_reply_skip s i se buf d from e :
    sessions s !! i = Some se → holds buf d → writeToSrc from buf (length d) = Fail e → nat_step s s
| nat_close s i se :
    (** a read error: the socket is closed first *)
    sessions s !! i = Some se → se_open se = true →
    nat_step s (NatState (loop s) (cache s) (<[i := Session (se_src se) (se_target se) false]> (sessions s))
                  (opened s) (sent s) (returned s))
| nat_forget s i se :
    (** then the entry of its client is deleted *)
    sessions s !! i = Some se → se_open se = false →
    nat_step s (NatState (loop s) (delete (addr_string (se_src se)) (cache s)) (delete i (sessions s))
                  (opened s) (sent s) (returned s)).

(** Socket [i] was opened for a client with the address of [src]. *)
Definition opened_for (s : natState) (i : nat) (src : A) : Prop := ∃ c, opened s !! i = Some c ∧ addr_string c = addr_string src.
(** Every entry of the table leads to a session of that very client, every session is in the table and serves the client its
    socket was opened for; datagrams go out only through sockets of their client, and come back only to it. *)
Record NatInv (s : natState) : Prop := {
  ni_cache k i : cache s !! k = Some i → ∃ se, sessions s !! i = Some se ∧ addr_string (se_src se) = k;
  ni_sessions i se : sessions s !! i = Some se → cache s !! addr_string (se_src se) = Some i ∧ opened s !! i = Some (se_src se);
  ni_loop : match loop s with
            | LIdle => True
            | LLooked src _ _ None => cache s !! addr_string src = None
            | LLooked src _ _ (Some i) | LSend src _ _ i => opened_for s i src
            end;
  ni_sent i src b t : (i, src, b, t) ∈ sent s → opened_for s i src;
  ni_returned i b a : (i, b, a) ∈ returned s → opened s !! i = Some a;
}.

Lemma opened_grows s s' i src c : opened s' = opened s ++ c → opened_for s i src → opened_for s' i src.
Proof. intros E (x & Hx & Hs). exists x. split; [|done]. rewrite E. by apply lookup_app_l_Some. Qed.

Lemma nat_open_inv src b t s : NatInv s → cache s !! addr_string src = None → NatInv (nat_open src b t s).
Proof.
  intros [H1 H2 H3 H4 H5] E.
  assert (∀ i se, sessions s !! i = Some se → i < length (opened s))%nat as Hlt by (intros i se [_ Ho]%H2; by eapply lookup_lt_Some).
  assert (∀ i x, opened_for s i x → opened_for (nat_open src b t s) i x) as Hg by (intros i x; by apply (opened_grows _ _ _ _ [src])).
  split; cbn.
  - intros k j. destruct (decide (k = addr_string src)) as [->|Hk].
    + rewrite lookup_insert_eq. intros [= <-]. eexists. by rewrite lookup_insert_eq.
    + rewrite lookup_insert_ne by done. intros Hj. destruct (H1 _ _ Hj) as (se & Hse & Hs).
      exists se. split; [|done]. rewrite lookup_insert_ne; [done|]. apply Hlt in Hse. lia.
  - intros j se. destruct (decide (j = length (opened s))) as [->|Hj].
    + rewrite lookup_insert_eq. intros [= <-]. cbn. by rewrite lookup_insert_eq, lookup_app_r, Nat.sub_diag by lia.
    + rewrite lookup_insert_ne by done. intros Hse. destruct (H2 _ _ Hse) as [Hc Ho]. split; [|by apply lookup_app_l_Some].
      rewrite lookup_insert_ne; [done|]. intros Heq. congruence.
  - exists src. split; [|done]. cbn. by rewrite lookup_app_r, Nat.sub_diag by lia.
  - intros i x b' t' Hin. by eapply Hg, H4.
  - intros i b' a Hin. apply lookup_app_l_Some. by eapply H5.
Qed.

Lemma nat_step_inv s s' : NatInv s → nat_step s s' → NatInv s'.
Proof.
  intros HI Hs. destruct Hs as [s buf d src b t Hl _ _|s buf d e Hl _ _|s src b t i Hl|s src b t Hl|s src b t Hl|s src b t i Hl|s src b t i Hl
    |s i se buf d from b Hse Ho _ _ _|s i se from _ _|s i se buf d from e _ _ _|s i se Hse Ho|s i se Hse Ho].
  - destruct HI as [H1 H2 H3 H4 H5]. split; try done. cbn. destruct (cache s !! addr_string src) as [i|] eqn:E; [|done].
    destruct (H1 _ _ E) as (se & Hse & Hk). destruct (H2 _ _ Hse) as [_ Ho]. by exists (se_src se).
  - done.
  - pose proof (ni_loop _ HI) as Hlo. rewrite Hl in Hlo. by destruct HI.
  - pose proof (ni_loop _ HI) as Hlo. rewrite Hl in Hlo. by apply nat_open_inv.
  - by destruct HI.
  - pose proof (ni_loop _ HI) as Hlo. rewrite Hl in Hlo. destruct HI as [H1 H2 H3 H4 H5]. split; try done. cbn.
    intros j x b' t' [Hin|Hin]%elem_of_app; [by eapply H4|]. apply list_elem_of_singleton in Hin. by simplify_eq.
  - by destruct HI.
  - destruct HI as [H1 H2 H3 H4 H5]. split; try done. cbn.
    intros j b' a [Hin|Hin]%elem_of_app; [by eapply H5|]. apply list_elem_of_singleton in Hin. simplify_eq. by apply H2.
  - done.
  - done.
  - destruct HI as [H1 H2 H3 H4 H5]. split; try done; cbn.
    + intros k j Hj. destruct (H1 _ _ Hj) as (se' & Hse' & Hk). destruct (decide (j = i)) as [->|Hij].
      * simplify_eq. eexists. by rewrite lookup_insert_eq.
      * exists se'. by rewrite lookup_insert_ne.
    + intros j se'. destruct (decide (j = i)) as [->|Hij]; [|rewrite lookup_insert_ne by done; apply H2].
      rewrite lookup_insert_eq. intros [= <-]. exact (H2 _ _ Hse).
  - destruct HI as [H1 H2 H3 H4 H5]. split; try done; cbn.
    + intros k j [Hk Hj]%lookup_delete_Some. destruct (H1 _ _ Hj) as (se' & Hse' & Hk'). exists se'. split; [|done].
      rewrite lookup_delete_ne; [done|]. intros ->. simplify_eq.
    + intros j se' [Hij Hse']%lookup_delete_Some. destruct (H2 _ _ Hse') as [Hc Hop]. split; [|done]. rewrite lookup_delete_ne; [done|].
      intros Heq. apply H2 in Hse as [Hse _]. congruence.
    + destruct (loop s) as [|src b t [j|]|]; try done. by apply lookup_delete_None; right.
Qed.

Definition nat_reachable (s : natState) : Prop := rtc nat_step nat_init s.

Lemma nat_reachable_inv s : nat_reachable s → NatInv s.
Proof.
  intros Hr. assert (NatInv nat_init) as H0.
  { split; unfold nat_init; cbn; try done; [intros *; rewrite lookup_empty; done..|by intros * ?%elem_of_nil|by intros * ?%elem_of_nil]. }
  unfold nat_reachable in Hr. revert H0. generalize nat_init Hr. clear. intros s0 Hr.
  induction Hr as [|x y z Hxy _ IH]; [done|]. intros HI. apply IH. by eapply nat_step_inv.
Qed.


(** A client that talks to a second target through its open
    socket gets no answer from it: the datagram goes out through the socket of
    the first target, whose filter discards everything the second one sends. *)
Theorem natmap_second_target_filtered s src b t1 t2 i se :
  cache s !! addr_string src = Some i → sessions s !! i = Some se → se_target se = addr_string t1 →
  addr_string t1 ≠ [] → addr_string t2 ≠ addr_string t1 →
  loop (nat_lookup src b t2 s) = LLooked src b t2 (Some i) ∧ nat_illegal se t2 = true.
Proof.
  intros E Hse Ht Hne Hd. unfold nat_lookup, nat_illegal. rewrite E, Ht. simpl.
  rewrite !bool_decide_eq_false_2 by done. done.
Qed.
End Natmap.

(** *** Witnesses *)
(** Addresses as strings. *)
Definition demo_string (a : gostring) : gostring := a.
Definition demo_resolve (s : gostring) : res gostring := Ret s.
Definition demo_target : gostring := str "1.2.3.4:53".
Definition demo_server : gostring := str "[2001:db8::1]:8388".
Definition demo_addr : list Z := [1; 1; 2; 3; 4; 0; 53].

Lemma demo_addr_ok : ParseAddress (demo_string demo_target) addr_buf = Ret demo_addr.
Proof. Transparent addr_buf. vm_compute. reflexivity. Opaque addr_buf. Qed.
Lemma demo_addr_wf : wf_addr demo_addr.
Proof. apply (wf_v4 [1; 2; 3; 4] 53); [done|repeat constructor; unfold is_byte; lia|lia]. Qed.
Lemma demo_fits n : (n ≤ 100)%nat → (n ≤ MaxUdpBufferSize)%nat.
Proof. pose proof MaxUdp_size. lia. Qed.
Lemma demo_holds d : (length d ≤ 100)%nat → holds (fill d) d.
Proof. intros. by apply holds_fill, demo_fits. Qed.

Lemma udp_end_to_end_witness :
  let c := PConn [([0; 0; 0] ++ demo_addr ++ [9; 9], str "local")] io_EOF [] None in
  (wrapper_Read 100 (fill []) c).2 = Ret [9; 9].
Proof.
  apply (udp_end_to_end demo_string demo_resolve demo_target (str "local") demo_server demo_addr [7] [9; 9] 100
    (fill []) (fill ([0; 0; 0] ++ demo_addr ++ [7])) (fill (demo_addr ++ [7])) (fill [9; 9]) (fill (demo_addr ++ [9; 9]))
    (PConn [] io_EOF [] None)); try reflexivity; try (apply demo_holds; simpl; lia); try (apply demo_fits; simpl; lia).
  exact demo_addr_wf.
Defined.

Lemma udp_large_reply_panics_witness :
  direct_write demo_string demo_target (replicate MaxUdpBufferSize 0) (length (replicate MaxUdpBufferSize 0)) = Panic.
Proof.
  apply (udp_large_reply_panics demo_string demo_target _ demo_addr).
  - exact demo_addr_ok.
  - unfold MaxAddressBufferSize. simpl. lia.
  - split; [apply length_replicate|]. exists []. by rewrite app_nil_r.
  - rewrite length_replicate. lia.
Defined.

Lemma remote_reply_data_witness :
  remote_write demo_string demo_server (fill (demo_addr ++ [9; 9])) (length (demo_addr ++ [9; 9])) ≠ Ret [9; 9].
Proof.
  intros H. apply (remote_reply_data demo_string demo_server (fill (demo_addr ++ [9; 9])) demo_addr
    ([4; 32; 1; 13; 184; 0; 0; 0; 0; 0; 0; 0; 0; 0; 0; 0; 1; 32; 196]) [9; 9]) in H; [done| |].
  - Transparent addr_buf. vm_compute. reflexivity.
  - apply demo_holds. simpl. lia.
Defined.

Lemma relay_transparent_witness :
  let src := PConn [([0; 0; 0] ++ demo_addr ++ [7], str "client")] io_EOF [] None in
  let dst := PConn [] io_EOF [] None in
  ∃ s, rtc (relay_step demo_string [] (socks_read demo_server) socks_write) (RelayState src dst None None) s ∧
       pk_out (r_dst s) = [(demo_addr ++ [7], demo_server)] ∧
       ∃ up down, transparent demo_string [] (socks_read demo_server) socks_write src dst s up down.
Proof.
  intros src dst. set (d := [0; 0; 0] ++ demo_addr ++ [7]).
  assert (take MaxUdpBufferSize d = d) as Ht by (apply take_ge, demo_fits; simpl; lia).
  set (s := RelayState (drop_in src []) (emit (demo_addr ++ [7]) demo_server dst) (Some (str "client")) None).
  assert (rtc (relay_step demo_string [] (socks_read demo_server) socks_write) (RelayState src dst None None) s) as Hs.
  { apply rtc_once. apply (up_forward demo_string [] _ _ src dst None d (str "client") [] (fill d)); [done|..]; rewrite Ht.
    - apply demo_holds. simpl. lia.
    - apply (socks_read_ok demo_server (fill d) (demo_addr ++ [7])). apply demo_holds. simpl. lia. }
  exists s. split; [exact Hs|]. split; [reflexivity|].
  apply (relay_transparent demo_string [] (socks_read demo_server) socks_write src dst s); [reflexivity|reflexivity|exact Hs].
Defined.

(** One client's datagram has gone out through the first socket and the answer has come back. *)
Definition demo_nat : natState :=
  NatState LIdle {[str "client" := 0%nat]} {[0%nat := Session (str "client") demo_target true]} [str "client"]
    [(0%nat, str "client", [7], demo_target)] [(0%nat, [9], str "client")].

Lemma natmap_second_target_filtered_witness :
  nat_illegal demo_string (Session (str "client") demo_target true) demo_server = true.
Proof.
  apply (proj2 (natmap_second_target_filtered demo_string demo_nat (str "client") [8] demo_target demo_server 0
    (Session (str "client") demo_target true) ltac:(vm_compute; reflexivity) ltac:(vm_compute; reflexivity) eq_refl ltac:(discriminate) ltac:(discriminate))).
Defined.
