(* ===== verification/Pools.v ===== *)
(** * Package bufferpool, and the goroutines that share its buffers.

    Models [src/bufferpool/pool.go] and the code of [src/relay] that takes its buffers from the
    pools: buffers are cells of a shared store, a pool is the list of the cells that were put
    back, and a goroutine is a program over the commands [Get], [Put], loads and stores of a
    cell, and the calls on its connections. The other files give every operation a
    buffer of its own; the theorems here show that the pools can not be told from that. *)
From S2P Require Import Prelude GoIO GoNet Address Cipher UdpRelay.
Local Open Scope nat_scope.

(** ** Pools *)

(** The pools of package relay and of the SOCKS5 server. *)
Inductive poolName := tcpPool | addrPool | udpPool | socksPool.
#[export] Instance poolName_eq_dec : EqDecision poolName.
Proof. solve_decision. Defined.

(** [NewBufferPool(size)]: what [New] allocates, and the items that were put. A [sync.Pool] hands out any of its
    items or a new one, and may forget items at any time. *)
Record BufferPool := MkPool { bp_size : nat; bp_items : list nat }.
Definition NewBufferPool (size : nat) : BufferPool := MkPool size [].
Definition bp_new (bp : BufferPool) : list Z := replicate (bp_size bp) 0%Z.
Definition bp_Put (i : nat) (bp : BufferPool) : BufferPool := MkPool (bp_size bp) (i :: bp_items bp).
Definition pool_size (p : poolName) : nat :=
  match p with
  | tcpPool => MaxTcpBufferSize
  | addrPool => MaxAddressBufferSize
  | udpPool => MaxUdpBufferSize
  | socksPool => MaxSocksBufferSize
  end.
Definition pools0 (p : poolName) : BufferPool := NewBufferPool (pool_size p).

(** ** Goroutines *)
Section Goroutines.
Context {A : Type}.

Inductive prog {X : Type} :=
| Done (x : X)
| Get (p : poolName) (k : nat → prog)
| Put (p : poolName) (i : nat) (k : prog)
| Load (i : nat) (k : list Z → prog)
(** [copy(b[off:], d)] for the buffer [b] *)
| Store (i off : nat) (d : list Z) (k : prog)
(** a datagram or an error; the code ignores what [WriteTo] returns *)
| ReadFrom (k : res (list Z * A) → prog)
| WriteTo (b : list Z) (to : A) (k : prog)
(** a piece of a stream of at most [n] bytes or an error, and the error of a write *)
| Read (n : nat) (k : res (list Z) → prog)
| Write (b : list Z) (k : option error → prog).
Arguments prog : clear implicits.

Fixpoint pbind {X Y} (f : X → prog Y) (m : prog X) : prog Y :=
  match m with
  | Done x => f x
  | Get p k => Get p (λ i, pbind f (k i))
  | Put p i k => Put p i (pbind f k)
  | Load i k => Load i (λ c, pbind f (k c))
  | Store i off d k => Store i off d (pbind f k)
  | ReadFrom k => ReadFrom (λ r, pbind f (k r))
  | WriteTo b to k => WriteTo b to (pbind f k)
  | Read n k => Read n (λ r, pbind f (k r))
  | Write b k => Write b (λ r, pbind f (k r))
  end.
#[export] Instance prog_bind : MBind prog := λ X Y f m, pbind f m.
#[export] Instance prog_ret : MRet prog := λ X x, Done x.

(** What a goroutine did to the outside. *)
Inductive event := EReadFrom (r : res (list Z * A)) | EWriteTo (b : list Z) (to : A) | ERead (n : nat) (r : res (list Z)) | EWrite (b : list Z) (r : option error).

(** ** The reference: alone, with buffers of its own

    A buffer is new at every [Get]: nobody else knows it, and nothing is known of its contents. *)
Abbreviation store := (gmap nat (list Z)).
Inductive priv {X} : store → prog X → list event → store → X → Prop :=
| p_done h x : priv h (Done x) [] h x
| p_get h p k i b es h' x : h !! i = None → length b = pool_size p → priv (<[i:=b]> h) (k i) es h' x → priv h (Get p k) es h' x
| p_put h p i k b es h' x : h !! i = Some b → priv (delete i h) k es h' x → priv h (Put p i k) es h' x
| p_load h i k b es h' x : h !! i = Some b → priv h (k b) es h' x → priv h (Load i k) es h' x
| p_store h i off d k b es h' x : h !! i = Some b → priv (<[i:=copy_at b off d]> h) k es h' x → priv h (Store i off d k) es h' x
| p_readfrom h k r es h' x : priv h (k r) es h' x → priv h (ReadFrom k) (EReadFrom r :: es) h' x
| p_writeto h b to k es h' x : priv h k es h' x → priv h (WriteTo b to k) (EWriteTo b to :: es) h' x
| p_read h n k r es h' x : priv h (k r) es h' x → priv h (Read n k) (ERead n r :: es) h' x
| p_write h b k r es h' x : priv h (k r) es h' x → priv h (Write b k) (EWrite b r :: es) h' x.

(** ** The process: all goroutines on one store and the same pools *)
Context {X : Type}.
Record thread := Thread { t_prog : prog X; t_log : list event }.
Record process := Process { ps_store : store; ps_pools : poolName → BufferPool; ps_threads : list thread }.
Definition set_pool (p : poolName) (bp : BufferPool) (f : poolName → BufferPool) : poolName → BufferPool := λ q, if decide (q = p) then bp else f q.

(** A step of one goroutine on the store and the pools, and the event it makes. *)
Inductive tstep : store → (poolName → BufferPool) → prog X → store → (poolName → BufferPool) → prog X → list event → Prop :=
| t_get_item h P p k i l1 l2 : bp_items (P p) = l1 ++ i :: l2 → tstep h P (Get p k) h (set_pool p (MkPool (bp_size (P p)) (l1 ++ l2)) P) (k i) []
| t_get_new h P p k i : h !! i = None → tstep h P (Get p k) (<[i := bp_new (P p)]> h) P (k i) []
| t_put h P p i k : tstep h P (Put p i k) h (set_pool p (bp_Put i (P p)) P) k []
| t_load h P i k b : h !! i = Some b → tstep h P (Load i k) h P (k b) []
| t_store h P i off d k b : h !! i = Some b → tstep h P (Store i off d k) (<[i := copy_at b off d]> h) P k []
| t_readfrom h P k r : tstep h P (ReadFrom k) h P (k r) [EReadFrom r]
| t_writeto h P b to k : tstep h P (WriteTo b to k) h P k [EWriteTo b to]
| t_read h P n k r : tstep h P (Read n k) h P (k r) [ERead n r]
| t_write h P b k r : tstep h P (Write b k) h P (k r) [EWrite b r].
Inductive pstep : process → process → Prop :=
| s_thread h P ts j m l h' P' m' es :
    ts !! j = Some (Thread m l) → tstep h P m h' P' m' es → pstep (Process h P ts) (Process h' P' (<[j := Thread m' (l ++ es)]> ts))
| s_forget h P ts p i l1 l2 :
    bp_items (P p) = l1 ++ i :: l2 → pstep (Process h P ts) (Process h (set_pool p (MkPool (bp_size (P p)) (l1 ++ l2)) P) ts).
Definition start (ms : list (prog X)) : process := Process ∅ pools0 ((λ m, Thread m []) <$> ms).
End Goroutines.
Arguments prog : clear implicits.
Arguments event : clear implicits.
Arguments thread : clear implicits.
Arguments process : clear implicits.

(** ** The discipline

    A program touches only buffers it got and has not put back. It may keep a buffer for
    good: the garbage collector takes it. *)
Section Discipline.
Context {A X : Type}.
Abbreviation prog := (prog A X).
Inductive disciplined : (nat → poolName → Prop) → prog → Prop :=
| d_done H x : disciplined H (Done x)
| d_get (H : nat → poolName → Prop) p k : (∀ i, (∀ q, ¬ H i q) → disciplined (λ i' q, H i' q ∨ i' = i ∧ q = p) (k i)) → disciplined H (Get p k)
| d_put (H : nat → poolName → Prop) p i k : H i p → disciplined (λ i' q, H i' q ∧ i' ≠ i) k → disciplined H (Put p i k)
| d_load (H : nat → poolName → Prop) p i k : H i p → (∀ b, length b = pool_size p → disciplined H (k b)) → disciplined H (Load i k)
| d_store (H : nat → poolName → Prop) p i off d k : H i p → off ≤ pool_size p → disciplined H k → disciplined H (Store i off d k)
| d_readfrom H k : (∀ r, disciplined H (k r)) → disciplined H (ReadFrom k)
| d_writeto H b to k : disciplined H k → disciplined H (WriteTo b to k)
| d_read H n k : (∀ r, disciplined H (k r)) → disciplined H (Read n k)
| d_write H b k : (∀ r, disciplined H (k r)) → disciplined H (Write b k).

Lemma disciplined_mono H m : disciplined H m → ∀ H' : nat → poolName → Prop, (∀ i q, H i q → H' i q) → disciplined H' m.
Proof.
  induction 1 as [| H p k _ IH | H p i k Hi _ IH | H p i k Hi _ IH | H p i off d k Hi Ho _ IH | | | |]; intros H' Hsub; econstructor; eauto.
  - intros i Hi. apply IH; naive_solver.
  - apply IH. naive_solver.
Qed.

(** *** The invariant: every buffer has one owner *)
Inductive owner := InPool (p : poolName) | HeldBy (j : nat) (p : poolName).
Definition owner_pool (o : owner) : poolName := match o with InPool p | HeldBy _ p => p end.
Abbreviation owners := (gmap nat owner).
Abbreviation store := (gmap nat (list Z)).
Definition held (O : owners) (j : nat) : nat → poolName → Prop := λ i p, O !! i = Some (HeldBy j p).
(** What goroutine [j] sees of the store. *)
Definition view (O : owners) (h : store) (j : nat) (L : store) : Prop :=
  ∀ i b, L !! i = Some b ↔ h !! i = Some b ∧ ∃ p, held O j i p.
Definition pools_ok (O : owners) (h : store) (P : poolName → BufferPool) : Prop :=
  (∀ p, bp_size (P p) = pool_size p ∧ NoDup (bp_items (P p)) ∧ ∀ i, i ∈ bp_items (P p) → O !! i = Some (InPool p)) ∧
  (∀ i o, O !! i = Some o → ∃ b, h !! i = Some b ∧ length b = pool_size (owner_pool o)).
(** Where the others see something, nothing changes. *)
Definition others_keep (j : nat) (O O' : owners) (h h' : store) : Prop :=
  ∀ j' i p, j' ≠ j → (held O j' i p ↔ held O' j' i p) ∧ (held O j' i p → h' !! i = h !! i).

Lemma others_view j j' O O' h h' L : others_keep j O O' h h' → j' ≠ j → view O h j' L → view O' h' j' L.
Proof.
  intros Hk Hj Hv i b. rewrite (Hv i b). split; intros [Hb [p Hp]].
  - destruct (Hk j' i p Hj) as [H1 H2]. rewrite (H2 Hp). split; [done|]. exists p. by apply H1.
  - destruct (Hk j' i p Hj) as [H1 H2]. apply H1 in Hp. rewrite <-(H2 Hp). eauto.
Qed.
Lemma others_ok j j' O O' h h' m : others_keep j O O' h h' → j' ≠ j → disciplined (held O j') m → disciplined (held O' j') m.
Proof. intros Hk Hj Hd. apply (disciplined_mono _ _ Hd). intros i p. by apply (Hk j' i p Hj). Qed.
Lemma others_refl j O h : others_keep j O O h h.
Proof. done. Qed.

Lemma set_pool_items p bp P q : set_pool p bp P q = if decide (q = p) then bp else P q.
Proof. done. Qed.

(** An item that leaves a pool. *)
Lemma pools_take O h P p i l1 l2 : pools_ok O h P → bp_items (P p) = l1 ++ i :: l2 →
  pools_ok O h (set_pool p (MkPool (bp_size (P p)) (l1 ++ l2)) P) ∧ O !! i = Some (InPool p) ∧ ∀ q, i ∉ bp_items (set_pool p (MkPool (bp_size (P p)) (l1 ++ l2)) P q).
Proof.
  intros [HP HO] E. destruct (HP p) as (Hs & Hn & Hi). rewrite E in Hn, Hi.
  assert (O !! i = Some (InPool p)) as Hip by (apply Hi; set_solver).
  rewrite <-Permutation_middle in Hn. apply NoDup_cons in Hn as [Hni Hn].
  split_and!; [split; [|done]|done|].
  - intros q. rewrite set_pool_items. destruct (decide (q = p)) as [->|]; [|apply HP]. cbn. split_and!; [done|done|]. intros i' Hi'. apply Hi. set_solver.
  - intros q. rewrite set_pool_items. destruct (decide (q = p)) as [->|Hq]; [done|]. intros H. apply (HP q) in H. congruence.
Qed.
(** A buffer outside the pools gets a new owner, or new contents. *)
Lemma pools_own O h h' P i o b : pools_ok O h P → (∀ q, i ∉ bp_items (P q)) → h' !! i = Some b → length b = pool_size (owner_pool o) →
  (∀ i', i' ≠ i → h' !! i' = h !! i') → pools_ok (<[i := o]> O) h' P.
Proof.
  intros [HP HO] Hni Hb Hl Hh. split.
  - intros q. destruct (HP q) as (Hs & Hn & Hi). split_and!; [done|done|]. intros i' Hi'. rewrite lookup_insert_ne; [by apply Hi|]. intros <-. by apply (Hni q).
  - intros i' o'. destruct (decide (i' = i)) as [->|Hne]; [rewrite lookup_insert_eq; intros [= <-]; by exists b|].
    rewrite lookup_insert_ne, Hh by done. apply HO.
Qed.
(** A buffer that is put back. *)
Lemma pools_put O h P j p i : pools_ok O h P → held O j i p → pools_ok (<[i := InPool p]> O) h (set_pool p (bp_Put i (P p)) P).
Proof.
  intros HP Hi. assert (∀ q, i ∉ bp_items (P q)) as Hni by (intros q H; apply HP in H; unfold held in Hi; congruence).
  destruct (proj2 HP i _ Hi) as (b & Hb & Hl). destruct (pools_own O h h P i (InPool p) b HP Hni Hb Hl ltac:(done)) as [H1 H2]. split; [|exact H2].
  intros q. rewrite set_pool_items. destruct (decide (q = p)) as [->|]; [|apply H1]. destruct (H1 p) as (Hs & Hn & Hin). cbn. split_and!; [done|by apply NoDup_cons|].
  intros i' [->|Hi']%elem_of_cons; [apply lookup_insert_eq|by apply Hin].
Qed.

(** A goroutine that gets buffer [i]. *)
Lemma acquire j O h h' L p i b k : (∀ j' q, O !! i ≠ Some (HeldBy j' q)) → h' !! i = Some b → length b = pool_size p →
  (∀ i', i' ≠ i → h' !! i' = h !! i') → view O h j L → disciplined (held O j) (Get p k) →
  let O' := <[i := HeldBy j p]> O in
  view O' h' j (<[i := b]> L) ∧ disciplined (held O' j) (k i) ∧ others_keep j O O' h h' ∧
  (∀ es h'' x, priv (<[i := b]> L) (k i) es h'' x → priv L (Get p k) es h'' x).
Proof.
  intros Hfree Hb Hl Hh Hv Hd O'. split_and!.
  - intros i' b'. unfold held, O'. destruct (decide (i' = i)) as [->|Hne].
    + rewrite !lookup_insert_eq, Hb. split; [intros [= ->]; eauto|]. by intros [[= ->] _].
    + rewrite !lookup_insert_ne by done. rewrite Hh by done. apply Hv.
  - inversion Hd as [|? ? ? H| | | | | | |]; subst. apply (disciplined_mono _ _ (H i ltac:(intros q; apply Hfree))).
    intros i' q [Hq|[-> ->]]; unfold held, O'; [|by rewrite lookup_insert_eq]. rewrite lookup_insert_ne; [done|]. intros ->. by apply (Hfree j q).
  - intros j' i' q Hj. unfold held, O'. destruct (decide (i' = i)) as [->|Hne].
    + rewrite lookup_insert_eq. specialize (Hfree j' q). naive_solver.
    + rewrite lookup_insert_ne by done. split; [done|]. intros _. by apply Hh.
  - intros es h'' x Hp. apply p_get with i b; [|done|done]. destruct (L !! i) eqn:E; [|done]. apply Hv in E as [_ [q Hq]]. by apply Hfree in Hq.
Qed.
Lemma release j O h L p i k : view O h j L → disciplined (held O j) (Put p i k) → (∃ b, h !! i = Some b) →
  let O' := <[i := InPool p]> O in
  O !! i = Some (HeldBy j p) ∧ view O' h j (delete i L) ∧ disciplined (held O' j) k ∧ others_keep j O O' h h ∧
  (∀ es h'' x, priv (delete i L) k es h'' x → priv L (Put p i k) es h'' x).
Proof.
  intros Hv Hd [b Hb] O'. inversion Hd as [| |? ? ? ? Hi Hk| | | | | |]; subst. split_and!.
  - exact Hi.
  - intros i' b'. unfold held, O'. destruct (decide (i' = i)) as [->|Hne].
    + rewrite lookup_delete_eq, lookup_insert_eq. naive_solver.
    + rewrite lookup_delete_ne, lookup_insert_ne by done. apply Hv.
  - apply (disciplined_mono _ _ Hk). intros i' q [Hq Hne]. unfold held, O'. by rewrite lookup_insert_ne.
  - intros j' i' q Hj. unfold held, O'. split; [|done]. destruct (decide (i' = i)) as [->|Hne]; [|by rewrite lookup_insert_ne].
    rewrite lookup_insert_eq. unfold held in Hi. naive_solver.
  - intros es h'' x Hp. apply p_put with b; [|done]. apply Hv. split; [done|]. by exists p.
Qed.
Lemma overwrite j O h L p i off d b (k : prog) : view O h j L → held O j i p → h !! i = Some b →
  let h' := <[i := copy_at b off d]> h in let L' := <[i := copy_at b off d]> L in
  view O h' j L' ∧ others_keep j O O h h' ∧ (∀ es h'' x, priv L' k es h'' x → priv L (Store i off d k) es h'' x).
Proof.
  intros Hv Hi Hb h' L'. split_and!.
  - intros i' b'. unfold h', L'. destruct (decide (i' = i)) as [->|Hne]; [|rewrite !lookup_insert_ne by done; apply Hv].
    rewrite !lookup_insert_eq. naive_solver.
  - intros j' i' q Hj. split; [done|]. intros Hq. unfold h'. rewrite lookup_insert_ne; [done|]. intros ->. unfold held in *. congruence.
  - intros es h'' x Hp. apply p_store with b; [|done]. apply Hv. split; [done|]. by exists p.
Qed.

(** A step of goroutine [j] is a step of it alone, and nobody else notices. *)
Lemma tstep_private j O h P m h' P' m' es L : tstep h P m h' P' m' es → pools_ok O h P → view O h j L → disciplined (held O j) m →
  ∃ O' L', pools_ok O' h' P' ∧ view O' h' j L' ∧ disciplined (held O' j) m' ∧ others_keep j O O' h h' ∧
    ∀ es' h'' x, priv L' m' es' h'' x → priv L m (es ++ es') h'' x.
Proof.
  intros Hs HP Hv Hd. destruct Hs as [h P p k i l1 l2 E|h P p k i Hi|h P p i k|h P i k b Hb|h P i off d k b Hb|h P k r|h P b to k|h P n k r|h P b k r].
  - destruct (pools_take O h P p i l1 l2 HP E) as (HP1 & Hip & Hni). destruct (proj2 HP i _ Hip) as (b & Hb & Hl).
    destruct (acquire j O h h L p i b k) as (H1 & H2 & H3 & H4); [congruence|done|done|done|done|done|].
    exists (<[i := HeldBy j p]> O), (<[i := b]> L). split_and!; [by eapply pools_own|exact H1|exact H2|exact H3|exact H4].
  - assert (O !! i = None) as Hoi by (destruct (O !! i) eqn:E; [destruct (proj2 HP i _ E) as (? & ? & _); congruence|done]).
    assert (length (bp_new (P p)) = pool_size p) as Hl by (unfold bp_new; rewrite length_replicate; apply HP).
    assert (∀ i', i' ≠ i → <[i := bp_new (P p)]> h !! i' = h !! i') as Hh by (intros; by apply lookup_insert_ne).
    destruct (acquire j O h (<[i := bp_new (P p)]> h) L p i (bp_new (P p)) k) as (H1 & H2 & H3 & H4); [congruence|apply lookup_insert_eq|done..|].
    eexists _, _. split_and!; [|exact H1|exact H2|exact H3|exact H4]. eapply pools_own; [done| |apply lookup_insert_eq|done|done].
    intros q H. apply HP in H. congruence.
  - inversion Hd as [| |? ? ? ? Hi Hk| | | | | |]; subst. destruct (proj2 HP i _ Hi) as (b & Hb & Hl).
    destruct (release j O h L p i k Hv Hd) as (H1 & H2 & H3 & H4 & H5); [by exists b|].
    eexists _, _. split_and!; [by eapply pools_put|exact H2|exact H3|exact H4|exact H5].
  - inversion Hd as [| | |? p ? ? Hi Hk| | | | |]; subst. destruct (proj2 HP i _ Hi) as (b' & Hb' & Hl). rewrite Hb in Hb'. injection Hb' as <-.
    exists O, L. split_and!; [done|done|by apply Hk|done|]. intros es' h'' x Hp. apply p_load with b; [|done]. apply Hv. eauto.
  - inversion Hd as [| | | |? p ? ? ? ? Hi Hoff Hk| | | |]; subst. destruct (overwrite j O h L p i off d b k) as (H1 & H2 & H3); [done|done|done|].
    destruct (proj2 HP i _ Hi) as (b' & Hb' & Hl). rewrite Hb in Hb'. injection Hb' as <-.
    eexists O, _. split_and!; [|exact H1|exact Hk|exact H2|exact H3]. rewrite <-(insert_id O i _ Hi).
    eapply pools_own; [done| |apply lookup_insert_eq|rewrite length_copy_at; cbn in *; lia|intros; by apply lookup_insert_ne].
    intros q H. apply HP in H. unfold held in Hi. congruence.
  - inversion Hd; subst. exists O, L. split_and!; [done..|]. intros. by constructor.
  - inversion Hd; subst. exists O, L. split_and!; [done..|]. intros. by constructor.
  - inversion Hd; subst. exists O, L. split_and!; [done..|]. intros. by constructor.
  - inversion Hd; subst. exists O, L. split_and!; [done..|]. intros. by constructor.
Qed.

(** *** The invariant of the process *)
Definition pool_inv (ms : list prog) (s : process A X) : Prop :=
  ∃ O : owners, pools_ok O (ps_store s) (ps_pools s) ∧
    ∀ j t, ps_threads s !! j = Some t → ∃ m L, ms !! j = Some m ∧ view O (ps_store s) j L ∧ disciplined (held O j) (t_prog t) ∧
      ∀ es h' x, priv L (t_prog t) es h' x → priv ∅ m (t_log t ++ es) h' x.
Lemma pool_inv_start ms : Forall (disciplined (λ _ _, False)) ms → pool_inv ms (start ms).
Proof.
  intros Hms. exists ∅. split; [split|].
  - intros p. split_and!; [done|constructor|]. intros i Hi. inversion Hi.
  - done.
  - intros j t Ht. cbn in Ht. rewrite list_lookup_fmap in Ht. destruct (ms !! j) as [m|] eqn:E; [|done]. injection Ht as <-.
    exists m, ∅. split_and!; [done| |by eapply disciplined_mono; [eapply Forall_lookup_1|]|done]. intros i b. split; [done|]. by intros [? [? ?]].
Qed.
Lemma pool_inv_step ms s s' : pool_inv ms s → pstep s s' → pool_inv ms s'.
Proof.
  intros (O & HP & HT) Hs. destruct Hs as [h P ts j m l h' P' m' es Hj Hstep|h P ts p i l1 l2 E]; cbn in *.
  - destruct (HT j _ Hj) as (m0 & L & Hm & Hv & Hd & Hrun). cbn in *.
    destruct (tstep_private _ _ _ _ _ _ _ _ _ _ Hstep HP Hv Hd) as (O' & L' & HP' & Hv' & Hd' & Hk & Hrun').
    exists O'. split; [done|]. intros j' t'. cbn. destruct (decide (j' = j)) as [->|Hne].
    + rewrite list_lookup_insert_eq by (by eapply lookup_lt_Some). intros [= <-]. exists m0, L'. split_and!; [done..|].
      intros es' h'' x Hp. cbn. rewrite <-app_assoc. by apply Hrun, Hrun'.
    + rewrite list_lookup_insert_ne by done. intros Ht. destruct (HT j' t' Ht) as (m1 & L1 & ? & ? & ? & ?).
      exists m1, L1. split_and!; [done|by eapply others_view|by eapply others_ok|done].
  - exists O. split; [|done]. by apply (pools_take O h P p i l1 l2).
Qed.
Lemma pool_inv_reachable ms s : Forall (disciplined (λ _ _, False)) ms → rtc pstep (start ms) s → pool_inv ms s.
Proof. intros Hms Hs. pose proof (pool_inv_start ms Hms) as Hi. induction Hs as [|x y z Hxy _ IH]; [done|]. apply IH. by eapply pool_inv_step. Qed.

(** What a goroutine that is over did, it could have done alone. *)
Lemma pooled_alone ms s j t x : Forall (disciplined (λ _ _, False)) ms → rtc pstep (start ms) s → ps_threads s !! j = Some t → t_prog t = Done x →
  ∃ m h, ms !! j = Some m ∧ priv ∅ m (t_log t) h x.
Proof.
  intros Hms Hs Ht Hx. destruct (pool_inv_reachable ms s Hms Hs) as (O & _ & HT). destruct (HT j t Ht) as (m & L & Hm & _ & _ & Hrun).
  exists m, L. split; [done|]. rewrite <-(app_nil_r (t_log t)). apply Hrun. rewrite Hx. constructor.
Qed.
(** And no goroutine ever waits for a buffer or has lost one. *)
Lemma pooled_progress ms s j t : Forall (disciplined (λ _ _, False)) ms → rtc pstep (start ms) s → ps_threads s !! j = Some t →
  (∃ x, t_prog t = Done x) ∨ ∃ h' P' m' es, tstep (ps_store s) (ps_pools s) (t_prog t) h' P' m' es.
Proof.
  intros Hms Hs Ht. destruct (pool_inv_reachable ms s Hms Hs) as (O & [_ HO] & HT). destruct (HT j t Ht) as (m & L & _ & _ & Hd & _).
  destruct t as [m' l]. cbn in *. inversion Hd as [|H p k|H p i k|H p i k Hi|H p i off d k Hi| | | |]; subst; [by left; eauto|right..].
  - do 4 eexists. apply (t_get_new _ _ _ _ (fresh (dom (ps_store s)))). apply not_elem_of_dom, is_fresh.
  - do 4 eexists. apply t_put.
  - destruct (HO i _ Hi) as (b & Hb & _). do 4 eexists. by apply t_load.
  - destruct (HO i _ Hi) as (b & Hb & _). do 4 eexists. by apply t_store.
  - do 4 eexists. apply (t_readfrom _ _ _ Panic).
  - do 4 eexists. apply t_writeto.
  - do 4 eexists. apply (t_read _ _ _ _ Panic).
  - do 4 eexists. apply (t_write _ _ _ _ None).
Qed.
End Discipline.

(** ** The code that uses the pools *)
Section Users.
Context {A : Type} (addr_string : A → gostring) (ResolveUDPAddr : gostring → res A).
Abbreviation prog := (prog A).
Definition get (p : poolName) : prog nat := Get p Done.
Definition put (p : poolName) (i : nat) : prog unit := Put p i (Done tt).
Definition load (i : nat) : prog (list Z) := Load i Done.
Definition copy (i off : nat) (d : list Z) : prog unit := Store i off d (Done tt).

(** [address.ParseAddress(a, b)] for the buffer [b]: the address is its first bytes. *)
Definition parse_in (a : gostring) (b : nat) : prog (res nat) :=
  c ← load b;
  match ParseAddress a c with
  | Ret addr => _ ← copy b 0 addr; mret (Ret (length addr))
  | Fail e => mret (Fail e)
  | Panic => mret Panic
  end.

(** The functions that rewrite a datagram in the buffer [buf]: the bounds of the slice that
    they return, and its target. *)
Abbreviation rewritten T := (prog (res (nat * nat * T))).
Definition of_res {T} (r : res (nat * nat * T)) : rewritten T := mret r.

(** Direct, with a fixed target. *)
Definition plain_read_p (target : A) (buf n : nat) : rewritten A := of_res (Ret (0, n, target)).
Definition plain_write_p (buf n : nat) : rewritten unit := of_res (Ret (0, n, tt)).
(** Direct, for SOCKS5. *)
Definition direct_read_p (buf n : nat) : rewritten A :=
  if n <? 3 then of_res (Fail io_ErrShortBuffer) else
  c ← load buf;
  of_res (d ← slice c 3 n; addr ← ParseAddressFromBuffer d; target ← ResolveUDPAddr (String addr); Ret (3 + length addr, n, target)).
Definition direct_write_p (src : A) (buf n : nat) : rewritten unit :=
  b ← get addrPool; r ← parse_in (addr_string src) b;
  match r with
  | Ret l =>
      c ← load buf;
      match slice c 0 n with
      | Ret d =>
          _ ← copy buf (3 + l) d; a ← load b; _ ← copy buf 3 (take l a); _ ← copy buf 0 [0; 0; 0]%Z;
          _ ← put addrPool b; of_res (Ret (0, 3 + l + n, tt))
      | _ => of_res Panic
      end
  | Fail e => _ ← put addrPool b; of_res (Fail e)
  | Panic => of_res Panic
  end.
(** A Shadowsocks client with a fixed remote address: the buffer of the address is not put back. *)
Definition remote_read_p (remote : gostring) (server : A) (buf n : nat) : rewritten A :=
  b ← get addrPool; r ← parse_in remote b;
  match r with
  | Ret l =>
      c ← load buf;
      match slice c 0 n with
      | Ret d => _ ← copy buf l d; a ← load b; _ ← copy buf 0 (take l a); of_res (Ret (0, n + l, server))
      | _ => of_res Panic
      end
  | Fail e => _ ← put addrPool b; of_res (Fail e)
  | Panic => of_res Panic
  end.
Definition remote_write_p (src : A) (buf n : nat) : rewritten unit :=
  b ← get addrPool; r ← parse_in (addr_string src) b;
  match r with
  | Ret l => of_res (Ret (l, n, tt))
  | Fail e => _ ← put addrPool b; of_res (Fail e)
  | Panic => of_res Panic
  end.
(** A Shadowsocks client behind SOCKS5. *)
Definition socks_read_p (server : A) (buf n : nat) : rewritten A :=
  if n <? 3 then of_res (Fail io_ErrShortBuffer) else of_res (Ret (3, n, server)).
Definition socks_write_p (buf n : nat) : rewritten unit :=
  if n <? 3 then of_res (Fail io_ErrShortBuffer) else
  c ← load buf;
  match slice c 0 n with
  | Ret d => _ ← copy buf 3 d; _ ← copy buf 0 [0; 0; 0]%Z; of_res (Ret (0, 3 + n, tt))
  | _ => of_res Panic
  end.
(** The Shadowsocks server. *)
Definition natmap_read_p (buf n : nat) : rewritten A :=
  c ← load buf;
  of_res (d ← slice c 0 n; addr ← ParseAddressFromBuffer d; target ← ResolveUDPAddr (String addr); Ret (length addr, n, target)).
Definition natmap_write_p (src : A) (buf n : nat) : rewritten unit :=
  b ← get addrPool; r ← parse_in (addr_string src) b;
  match r with
  | Ret l =>
      c ← load buf;
      match slice c 0 n with
      | Ret d => _ ← copy buf l d; a ← load b; _ ← copy buf 0 (take l a); _ ← put addrPool b; of_res (Ret (0, l + n, tt))
      | _ => of_res Panic
      end
  | Fail e => _ ← put addrPool b; of_res (Fail e)
  | Panic => of_res Panic
  end.

(** A goroutine that relays datagrams: [fuel] of them, or until the socket fails, when the
    deferred call puts the buffer back. [skip] is the filter of the replies. *)
Fixpoint relay_loop {T} (skip : A → bool) (fn : A → nat → nat → rewritten T) (to : T → A) (buf fuel : nat) : prog (res unit) :=
  match fuel with
  | 0 => mret (Ret tt)
  | S fuel =>
      ReadFrom (λ r,
        match r with
        | Ret (d, a) =>
            c ← load buf; _ ← copy buf 0 d;
            if skip a then relay_loop skip fn to buf fuel else
            x ← fn a buf (length (take (length c) d));
            match x with
            | Ret (lo, hi, t) =>
                c ← load buf;
                match slice c lo hi with
                | Ret b => WriteTo b (to t) (relay_loop skip fn to buf fuel)
                | _ => mret Panic
                end
            | Fail _ => relay_loop skip fn to buf fuel
            | Panic => mret Panic
            end
        | Fail e => _ ← put udpPool buf; mret (Fail e)
        | Panic => mret Panic
        end)
  end.
Definition relay_goroutine {T} (skip : A → bool) (fn : A → nat → nat → rewritten T) (to : T → A) (fuel : nat) : prog (res unit) :=
  buf ← get udpPool; relay_loop skip fn to buf fuel.

(** [RelayToProxyServer] up to the relay of the bytes: the address in front of them. *)
Definition connect_header (remote : gostring) : prog (res unit) :=
  b ← get addrPool; r ← parse_in remote b;
  match r with
  | Ret l => a ← load b; Write (take l a) (λ _, _ ← put addrPool b; mret (Ret tt))
  | Fail e => _ ← put addrPool b; mret (Fail e)
  | Panic => mret Panic
  end.
(** [ioCopyWithBuffer] with a buffer of the pool: [io.CopyBuffer], [fuel] rounds of it. *)
Fixpoint copy_loop (buf fuel : nat) : prog (res unit) :=
  match fuel with
  | 0 => mret (Ret tt)
  | S fuel =>
      c0 ← load buf;
      Read (length c0) (λ r,
        match r with
        | Ret d =>
            let d := take (length c0) d in
            _ ← copy buf 0 d;
            if decide (d = []) then copy_loop buf fuel else
            c ← load buf;
            Write (take (length d) c) (λ e,
              match e with None => copy_loop buf fuel | Some e => _ ← put tcpPool buf; mret (Fail e) end)
        | Fail e => _ ← put tcpPool buf; mret (if bool_decide (e = io_EOF) then Ret tt else Fail e)
        | Panic => mret Panic
        end)
  end.
Definition copy_goroutine (fuel : nat) : prog (res unit) := buf ← get tcpPool; copy_loop buf fuel.

(** *** Running a program alone *)
Lemma priv_bind {X Y} (k : X → prog Y) m : ∀ L es h y, priv L (m ≫= k) es h y →
  ∃ es1 es2 h1 x, es = es1 ++ es2 ∧ priv L m es1 h1 x ∧ priv h1 (k x) es2 h y.
Proof.
  unfold mbind, prog_bind. induction m as [x|p q IH|p i q IH|i q IH|i off d q IH|q IH|b to q IH|n q IH|b q IH]; intros L es h y H; cbn in H.
  { exists [], es, L, x. split_and!; [done|constructor|done]. }
  all: inversion H; subst; match goal with Hp : priv _ _ _ _ _ |- _ => apply IH in Hp as (es1 & es2 & h1 & z & -> & Hm & Hk) end.
  1-4: exists es1, es2, h1, z; split_and!; [done|by econstructor|done].
  all: eexists (_ :: es1), es2, h1, z; split_and!; [done|by econstructor|done].
Qed.
Lemma ret_run {X} L (x : X) es h y : priv L (mret x : prog X) es h y → es = [] ∧ h = L ∧ y = x.
Proof. by inversion 1. Qed.
Section Commands.
Context {X : Type} (L : gmap nat (list Z)) (es : list (event A)) (h : gmap nat (list Z)) (x : X).
Lemma get_run p (k : nat → prog X) : priv L (get p ≫= k) es h x → ∃ i b, L !! i = None ∧ length b = pool_size p ∧ priv (<[i := b]> L) (k i) es h x.
Proof. inversion 1; subst; eauto. Qed.
Lemma put_run p i (k : unit → prog X) : priv L (put p i ≫= k) es h x → priv (delete i L) (k tt) es h x.
Proof. by inversion 1. Qed.
Lemma load_run i (k : list Z → prog X) : priv L (load i ≫= k) es h x → ∃ b, L !! i = Some b ∧ priv L (k b) es h x.
Proof. inversion 1; subst; eauto. Qed.
Lemma store_run i off d (k : prog X) : priv L (Store i off d k) es h x → ∃ b, L !! i = Some b ∧ priv (<[i := copy_at b off d]> L) k es h x.
Proof. inversion 1; subst; eauto. Qed.
Lemma copy_run i off d (k : unit → prog X) : priv L (copy i off d ≫= k) es h x → ∃ b, L !! i = Some b ∧ priv (<[i := copy_at b off d]> L) (k tt) es h x.
Proof. inversion 1; subst; eauto. Qed.
End Commands.

(** The next load or store of a program, whose buffer is known. *)
Ltac run_cell H :=
  let c := fresh "c" in let Hc := fresh "Hc" in
  first [apply load_run in H as (c & Hc & H) | apply copy_run in H as (c & Hc & H)];
  rewrite ?lookup_insert_eq, ?lookup_insert_ne in Hc by done; 
  lazymatch type of Hc with
  | ?L !! ?i = _ => match goal with E : L !! i = Some _ |- _ => tryif constr_eq E Hc then fail else rewrite E in Hc end
  | _ => idtac
  end; injection Hc as <-.

Lemma parse_in_run L a b c es h x : L !! b = Some c → length c = 259 → priv L (parse_in a b) es h x →
  es = [] ∧ match ParseAddress a addr_buf with
            | Ret addr => x = Ret (length addr) ∧ ∃ c', h = <[b := c']> L ∧ take (length addr) c' = addr
            | Fail e => x = Fail e ∧ h = L
            | Panic => False
            end.
Proof.
  intros Hb Hc H. unfold parse_in in H. run_cell H.
  rewrite (ParseAddress_any a c Hc) in H. destruct (ParseAddress_fits a) as [Hp Hf]. destruct (ParseAddress a addr_buf) as [addr|e|]; [| |done].
  - specialize (Hf addr eq_refl). run_cell H. apply ret_run in H as (-> & -> & ->).
    split; [done|]. split; [done|]. eexists. split; [done|]. rewrite copy_at_0 by lia. apply take_app_length.
  - apply ret_run in H as (-> & -> & ->). done.
Qed.
(** *** What the relays need of the functions

    They keep the discipline, and what they return is what the functions of UdpRelay.v
    return for the contents of the buffer. *)
Class PoolHandler {T} (fn : A → nat → nat → rewritten T) (f : A → list Z → nat → res (list Z * T)) : Prop := {
  ph_ok (H : nat → poolName → Prop) a buf n (k : res (nat * nat * T) → prog (res unit)) : H buf udpPool → n ≤ MaxUdpBufferSize →
    (∀ x (H' : nat → poolName → Prop), (∀ i p, H i p → H' i p) → disciplined H' (k x)) → disciplined H (fn a buf n ≫= k);
  ph_run L a buf n c es h x : L !! buf = Some c → length c = MaxUdpBufferSize → n ≤ MaxUdpBufferSize → priv L (fn a buf n) es h x →
    es = [] ∧ ∃ c', h !! buf = Some c' ∧ length c' = MaxUdpBufferSize ∧
      match x with
      | Ret (lo, hi, t) => (b ← slice c' lo hi; Ret (b, t)) = f a c n
      | Fail e => f a c n = Fail e
      | Panic => f a c n = Panic
      end;
}.
Definition with_unit {T} (f : A → list Z → nat → res T) : A → list Z → nat → res (T * unit) := λ a c n, b ← f a c n; Ret (b, tt).

#[export] Instance plain_read_pool target : PoolHandler (λ _, plain_read_p target) (λ _, plain_read target).
Proof.
  split; [intros H a buf n k Hb Hn Hk; by apply Hk|].
  intros L a buf n c es h x Hc Hl Hn H. apply ret_run in H as (-> & -> & ->). split; [done|]. by exists c.
Qed.
#[export] Instance plain_write_pool : PoolHandler (λ _, plain_write_p) (with_unit plain_write).
Proof.
  split; [intros H a buf n k Hb Hn Hk; by apply Hk|].
  intros L a buf n c es h x Hc Hl Hn H. apply ret_run in H as (-> & -> & ->). split; [done|]. by exists c.
Qed.
#[export] Instance socks_read_pool server : PoolHandler (λ _, socks_read_p server) (λ _, socks_read server).
Proof.
  split; [intros H a buf n k Hb Hn Hk; unfold socks_read_p; case_match; by apply Hk|].
  intros L a buf n c es h x Hc Hl Hn H. unfold socks_read_p in H. unfold socks_read.
  destruct (n <? 3); apply ret_run in H as (-> & -> & ->); (split; [done|]); by exists c.
Qed.
#[export] Instance direct_read_pool : PoolHandler (λ _, direct_read_p) (λ _, direct_read ResolveUDPAddr).
Proof.
  split.
  - intros H a buf n k Hb Hn Hk. unfold direct_read_p. case_match; [by apply Hk|]. cbn. apply d_load with udpPool; [done|]. intros c _. by apply Hk.
  - intros L a buf n c es h x Hc Hl Hn H. unfold direct_read_p in H. unfold direct_read. destruct (n <? 3).
    + apply ret_run in H as (-> & -> & ->). split; [done|]. by exists c.
    + run_cell H. apply ret_run in H as (-> & -> & ->).
      split; [done|]. exists c. split_and!; [done..|]. cbn. destruct (slice c 3 n) as [d|e|]; cbn; [|done..].
      destruct (ParseAddressFromBuffer d); cbn; [|done..]. by destruct (ResolveUDPAddr _).
Qed.
#[export] Instance natmap_read_pool : PoolHandler (λ _, natmap_read_p) (λ _, natmap_read ResolveUDPAddr).
Proof.
  split.
  - intros H a buf n k Hb Hn Hk. cbn. apply d_load with udpPool; [done|]. intros c _. by apply Hk.
  - intros L a buf n c es h x Hc Hl Hn H. unfold natmap_read.
    run_cell H. apply ret_run in H as (-> & -> & ->).
    split; [done|]. exists c. split_and!; [done..|]. cbn. destruct (slice c 0 n) as [d|e|]; cbn; [|done..].
    destruct (ParseAddressFromBuffer d); cbn; [|done..]. by destruct (ResolveUDPAddr _).
Qed.
#[export] Instance socks_write_pool : PoolHandler (λ _, socks_write_p) (with_unit socks_write).
Proof.
  pose proof MaxUdp_size as HM. split.
  - intros H a buf n k Hb Hn Hk. unfold socks_write_p. case_match; [by apply Hk|]. cbn. apply d_load with udpPool; [done|]. intros c _. cbn.
    case_match; [|by apply Hk..]. cbn. apply d_store with udpPool; [done|cbn; lia|]. apply d_store with udpPool; [done|lia|]. by apply Hk.
  - intros L a buf n c es h x Hc Hl Hn H. unfold with_unit, socks_write. unfold socks_write_p in H. destruct (n <? 3).
    + apply ret_run in H as (-> & -> & ->). split; [done|]. by exists c.
    + run_cell H. rewrite slice_ok in H |- * by lia. run_cell H. run_cell H. apply ret_run in H as (-> & -> & ->).
      split; [done|]. eexists. split; [apply lookup_insert_eq|]. split; [|done]. rewrite !length_copy_at; rewrite ?length_copy_at; lia.
Qed.

(** An address in a buffer of its own, beside the buffer [buf]. *)
Lemma with_address_ok {X Y} (H : nat → poolName → Prop) s (k : nat → res nat → prog X) (k' : X → prog Y) :
  (∀ b r, (∀ q, ¬ H b q) → (∀ l, r = Ret l → l ≤ 259) → disciplined (λ i q, H i q ∨ i = b ∧ q = addrPool) (k b r ≫= k')) →
  disciplined H ((b ← get addrPool; r ← parse_in s b; k b r) ≫= k').
Proof.
  intros Hk. cbn. apply d_get. intros b Hb. apply d_load with addrPool; [by right|]. intros c Hc. cbn. rewrite (ParseAddress_any s c Hc).
  destruct (ParseAddress_fits s) as [_ Hf]. destruct (ParseAddress s addr_buf) as [addr|e|]; cbn.
  - apply d_store with addrPool; [by right|lia|]. apply Hk; [done|]. intros l [= <-]. by apply Hf.
  - by apply Hk.
  - by apply Hk.
Qed.
Lemma with_address_run {X} L s (k : nat → res nat → prog X) buf c es h x : L !! buf = Some c → priv L (b ← get addrPool; r ← parse_in s b; k b r) es h x →
  ∃ b L', b ≠ buf ∧ L' !! buf = Some c ∧
    match ParseAddress s addr_buf with
    | Ret addr => (∃ c', L' !! b = Some c' ∧ take (length addr) c' = addr) ∧ priv L' (k b (Ret (length addr))) es h x
    | Fail e => priv L' (k b (Fail e)) es h x
    | Panic => False
    end.
Proof.
  intros Hc H. apply get_run in H as (b & c0 & Hb & Hl & H). assert (b ≠ buf) as Hne by congruence.
  apply priv_bind in H as (es1 & es2 & h1 & r & -> & H1 & H2).
  destruct (parse_in_run _ s b c0 es1 h1 r (lookup_insert_eq _ _ _) Hl H1) as [-> Hr]. exists b. destruct (ParseAddress s addr_buf) as [addr|e|]; [| |done].
  - destruct Hr as (-> & c' & -> & Ht). exists (<[b := c']> (<[b := c0]> L)). split; [done|]. split; [rewrite !lookup_insert_ne by done; exact Hc|]. split; [|exact H2].
    exists c'. by rewrite lookup_insert_eq.
  - destruct Hr as [-> ->]. exists (<[b := c0]> L). split; [done|]. split; [rewrite lookup_insert_ne by done; exact Hc|]. exact H2.
Qed.
Lemma put_address_ok {X} (H : nat → poolName → Prop) b (k : unit → prog X) : (∀ q, ¬ H b q) →
  (∀ H' : nat → poolName → Prop, (∀ i p, H i p → H' i p) → disciplined H' (k tt)) → disciplined (λ i q, H i q ∨ i = b ∧ q = addrPool) (put addrPool b ≫= k).
Proof. intros Hb Hk. cbn. apply d_put; [by right|]. apply Hk. intros i p Hi. split; [by left|]. intros ->. by apply (Hb p). Qed.
#[export] Instance remote_write_pool : PoolHandler remote_write_p (with_unit (remote_write addr_string)).
Proof.
  split.
  - intros H a buf n k Hb Hn Hk. apply with_address_ok. intros b [l|e|] Hbb Hl; [apply Hk; by left| |apply Hk; by left].
    by apply (put_address_ok H b (λ _, k (Fail e))); [|intros H' Hsub; apply Hk].
  - intros L a buf n c es h x Hc Hl Hn H. apply (with_address_run _ _ _ buf c) in H as (b & L' & Hne & Hc' & H); [|done].
    unfold with_unit, remote_write. destruct (ParseAddress (addr_string a) addr_buf) as [addr|e|]; [| |done].
    + destruct H as [_ H]. apply ret_run in H as (-> & -> & ->). split; [done|]. by exists c.
    + apply put_run, ret_run in H as (-> & -> & ->). split; [done|]. exists c. by rewrite lookup_delete_ne.
Qed.
#[export] Instance remote_read_pool remote server : PoolHandler (λ _, remote_read_p remote server) (λ _, remote_read remote server).
Proof.
  pose proof MaxUdp_size as HM. split.
  - intros H a buf n k Hb Hn Hk. apply with_address_ok. intros b [l|e|] Hbb Hl; [| |apply Hk; by left].
    + cbn. apply d_load with udpPool; [by left|]. intros c _. cbn. case_match; [|apply Hk; by left..]. cbn. specialize (Hl l eq_refl).
      apply d_store with udpPool; [by left|cbn; lia|]. apply d_load with addrPool; [by right|]. intros c' _. apply d_store with udpPool; [by left|lia|]. apply Hk. by left.
    + by apply (put_address_ok H b (λ _, k (Fail e))); [|intros H' Hsub; apply Hk].
  - intros L a buf n c es h x Hc Hl Hn H. apply (with_address_run _ _ _ buf c) in H as (b & L' & Hne & Hc' & H); [|done].
    unfold remote_read. destruct (ParseAddress remote addr_buf) as [addr|e|] eqn:Ea; [| |done].
    + destruct H as [(ca & Hca & Ht) H]. pose proof (proj2 (ParseAddress_fits remote) addr Ea) as Hf. cbn [mbind].
      run_cell H. rewrite slice_ok in H |- * by lia. run_cell H. run_cell H. rewrite Ht in H. run_cell H. apply ret_run in H as (-> & -> & ->).
      split; [done|]. eexists. split; [apply lookup_insert_eq|]. split; [|done]. rewrite !length_copy_at; rewrite ?length_copy_at; lia.
    + apply put_run, ret_run in H as (-> & -> & ->). split; [done|]. exists c. by rewrite lookup_delete_ne.
Qed.
#[export] Instance natmap_write_pool : PoolHandler natmap_write_p (with_unit (natmap_write addr_string)).
Proof.
  pose proof MaxUdp_size as HM. split.
  - intros H a buf n k Hb Hn Hk. apply with_address_ok. intros b [l|e|] Hbb Hl; [| |apply Hk; by left].
    + cbn. apply d_load with udpPool; [by left|]. intros c _. cbn. case_match; [|apply Hk; by left..]. cbn. specialize (Hl l eq_refl).
      apply d_store with udpPool; [by left|cbn; lia|]. apply d_load with addrPool; [by right|]. intros c' _. apply d_store with udpPool; [by left|lia|].
      by apply (put_address_ok H b (λ _, k _)); [|intros H' Hsub; apply Hk].
    + by apply (put_address_ok H b (λ _, k (Fail e))); [|intros H' Hsub; apply Hk].
  - intros L a buf n c es h x Hc Hl Hn H. apply (with_address_run _ _ _ buf c) in H as (b & L' & Hne & Hc' & H); [|done].
    unfold with_unit, natmap_write. destruct (ParseAddress (addr_string a) addr_buf) as [addr|e|] eqn:Ea; [| |done].
    + destruct H as [(ca & Hca & Ht) H]. pose proof (proj2 (ParseAddress_fits _) addr Ea) as Hf. cbn [mbind].
      run_cell H. rewrite slice_ok in H |- * by lia. run_cell H. run_cell H. rewrite Ht in H. run_cell H. apply put_run, ret_run in H as (-> & -> & ->).
      split; [done|]. eexists. split; [rewrite lookup_delete_ne by done; apply lookup_insert_eq|]. split; [|done]. rewrite !length_copy_at; rewrite ?length_copy_at; lia.
    + apply put_run, ret_run in H as (-> & -> & ->). split; [done|]. exists c. by rewrite lookup_delete_ne.
Qed.
#[export] Instance direct_write_pool : PoolHandler direct_write_p (with_unit (direct_write addr_string)).
Proof.
  pose proof MaxUdp_size as HM. split.
  - intros H a buf n k Hb Hn Hk. apply with_address_ok. intros b [l|e|] Hbb Hl; [| |apply Hk; by left].
    + cbn. apply d_load with udpPool; [by left|]. intros c _. cbn. case_match; [|apply Hk; by left..]. cbn. specialize (Hl l eq_refl).
      apply d_store with udpPool; [by left|cbn; lia|]. apply d_load with addrPool; [by right|]. intros c' _.
      apply d_store with udpPool; [by left|cbn; lia|]. apply d_store with udpPool; [by left|lia|].
      by apply (put_address_ok H b (λ _, k _)); [|intros H' Hsub; apply Hk].
    + by apply (put_address_ok H b (λ _, k (Fail e))); [|intros H' Hsub; apply Hk].
  - intros L a buf n c es h x Hc Hl Hn H. apply (with_address_run _ _ _ buf c) in H as (b & L' & Hne & Hc' & H); [|done].
    unfold with_unit, direct_write. destruct (ParseAddress (addr_string a) addr_buf) as [addr|e|] eqn:Ea; [| |done].
    + destruct H as [(ca & Hca & Ht) H]. pose proof (proj2 (ParseAddress_fits _) addr Ea) as Hf. cbn [mbind].
      run_cell H. rewrite slice_ok in H |- * by lia. run_cell H. run_cell H. rewrite Ht in H. run_cell H. run_cell H. apply put_run, ret_run in H as (-> & -> & ->).
      split; [done|]. eexists. split; [rewrite lookup_delete_ne by done; apply lookup_insert_eq|]. split; [|done].
      rewrite !length_copy_at; rewrite ?length_copy_at; rewrite ?length_copy_at; lia.
    + apply put_run, ret_run in H as (-> & -> & ->). split; [done|]. exists c. by rewrite lookup_delete_ne.
Qed.

(** *** The relays *)
Definition received (es : list (event A)) : list (list Z * A) := omap (λ e, match e with EReadFrom (Ret p) => Some p | _ => None end) es.
Definition sent (es : list (event A)) : list (list Z * A) := omap (λ e, match e with EWriteTo b to => Some (b, to) | _ => None end) es.

Section Relay.
Context {T : Type} (skip : A → bool) (fn : A → nat → nat → rewritten T) (f : A → list Z → nat → res (list Z * T)) `{!PoolHandler fn f} (to : T → A).
Lemma relay_loop_ok fuel : ∀ (H : nat → poolName → Prop) buf, H buf udpPool → disciplined H (relay_loop skip fn to buf fuel).
Proof.
  induction fuel as [|fuel IH]; intros H buf Hb; [constructor|]. cbn. apply d_readfrom. intros [[d a]|e|]; cbn; [|apply d_put; [done|constructor]|constructor].
  apply d_load with udpPool; [done|]. intros c Hc. apply d_store with udpPool; [done|lia|]. destruct (skip a); [by apply IH|].
  apply ph_ok; [done|rewrite length_take; cbn in Hc; lia|]. intros x H' Hsub. destruct x as [[[lo hi] t]|e|]; [|by apply IH; apply Hsub|constructor].
  apply d_load with udpPool; [by apply Hsub|]. intros c' _. destruct (slice c' lo hi); [|constructor..]. apply d_writeto. apply IH. by apply Hsub.
Qed.
Lemma relay_goroutine_ok fuel : disciplined (λ _ _, False) (relay_goroutine skip fn to fuel).
Proof. apply d_get. intros i _. apply relay_loop_ok. by right. Qed.

Context (f_datagram : ∀ a buf d, holds buf d → f a buf (length d) = f a (fill d) (length d)).
(** What the relay makes of a datagram. *)
Definition forwarded (p : list Z * A) : option (list Z * A) :=
  if skip p.2 then None else
  let d := take MaxUdpBufferSize p.1 in
  match f p.2 (fill d) (length d) with Ret (b, t) => Some (b, to t) | _ => None end.
Lemma relay_loop_run fuel : ∀ L buf c es h x, L !! buf = Some c → length c = MaxUdpBufferSize → priv L (relay_loop skip fn to buf fuel) es h x → x ≠ Panic →
  sent es = omap forwarded (received es).
Proof.
  induction fuel as [|fuel IH]; intros L buf c es h x Hc Hl H Hx; cbn [relay_loop] in H; [by apply ret_run in H as (-> & _)|].
  inversion H as [| | | | |? ? r es' ? ? H'| | |]; subst. clear H. destruct r as [[d a]|e|]; [|by apply (put_run _ _ _ _ udpPool buf (λ _, mret (Fail e))), ret_run in H' as (-> & _)|by apply ret_run in H' as (_ & _ & ->)].
  run_cell H'. apply store_run in H' as (c1 & Hc1 & H'). rewrite Hc in Hc1. injection Hc1 as <-. rewrite Hl in H'.
  set (d1 := take MaxUdpBufferSize d) in *.
  assert (holds (copy_at c 0 d) d1) as Hh.
  { split; [rewrite length_copy_at; lia|]. unfold copy_at, d1. rewrite take_0, Hl, Nat.sub_0_r. cbn. by eexists. }
  assert (length d1 ≤ MaxUdpBufferSize) as Hd1 by (unfold d1; rewrite length_take; lia).
  cbn [received sent omap list_omap]. fold (received es') (sent es'). unfold forwarded at 1. cbn [snd fst]. fold d1.
  destruct (skip a); [eapply IH; [apply lookup_insert_eq|exact (proj1 Hh)|exact H'|done]|].
  apply priv_bind in H' as (es1 & es2 & h1 & y & -> & H1 & H2).
  destruct (ph_run _ a buf _ _ es1 h1 y (lookup_insert_eq _ _ _) (proj1 Hh) Hd1 H1) as (-> & c' & Hc' & Hl' & Hy).
  rewrite f_datagram in Hy by done. destruct y as [[[lo hi] t]|e|]; [| |by apply ret_run in H2 as (_ & _ & ->)].
  - apply load_run in H2 as (c2 & Hc2 & H2). rewrite Hc' in Hc2. injection Hc2 as <-. destruct (slice c' lo hi) as [b|e|]; [|by apply ret_run in H2 as (_ & _ & ->)..].
    cbn in Hy. rewrite <-Hy. inversion H2 as [| | | | | |? ? ? ? es3 ? ? H3| |]; subst. cbn. f_equal. by eapply IH.
  - rewrite Hy. cbn. by eapply IH.
Qed.
Lemma relay_goroutine_run fuel es h x : priv ∅ (relay_goroutine skip fn to fuel) es h x → x ≠ Panic → sent es = omap forwarded (received es).
Proof. intros H. apply get_run in H as (i & b & _ & Hb & H). eapply relay_loop_run; [apply lookup_insert_eq|done|exact H]. Qed.
End Relay.

(** *** The streams *)
(** What the reads delivered, those that delivered something. *)
Definition stream_read (es : list (event A)) : list (list Z) :=
  omap (λ e, match e with ERead n (Ret d) => if decide (take n d = []) then None else Some (take n d) | _ => None end) es.
Definition stream_written (es : list (event A)) : list (list Z) := omap (λ e, match e with EWrite b _ => Some b | _ => None end) es.
Lemma connect_header_ok remote : disciplined (λ _ _, False) (connect_header remote).
Proof.
  cbn. apply d_get. intros b _. apply d_load with addrPool; [by right|]. intros c Hc. cbn. destruct (ParseAddress remote c); cbn.
  - apply d_store with addrPool; [by right|lia|]. apply d_load with addrPool; [by right|]. intros c' _. apply d_write. intros e. apply d_put; [by right|constructor].
  - apply d_put; [by right|constructor].
  - constructor.
Qed.
Lemma connect_header_run remote es h x : priv ∅ (connect_header remote) es h x →
  match ParseAddress remote addr_buf with Ret a => x = Ret tt ∧ stream_written es = [a] | Fail e => x = Fail e ∧ es = [] | Panic => False end.
Proof.
  intros H. apply get_run in H as (b & c0 & _ & Hl & H). apply priv_bind in H as (es1 & es2 & h1 & r & -> & H1 & H2).
  destruct (parse_in_run _ remote b c0 es1 h1 r (lookup_insert_eq _ _ _) Hl H1) as [-> Hr]. destruct (ParseAddress remote addr_buf) as [a|e|]; [| |done].
  - destruct Hr as (-> & c' & -> & Ht). run_cell H2. rewrite Ht in H2. inversion H2 as [| | | | | | | |? ? ? e es3 ? ? H3]; subst.
    apply (put_run _ _ _ _ addrPool b (λ _, mret (Ret tt))), ret_run in H3 as (-> & _ & ->). done.
  - destruct Hr as [-> ->]. by apply put_run, ret_run in H2 as (-> & _ & ->).
Qed.
Lemma tcp_copy_ok (H : nat → poolName → Prop) buf fuel : H buf tcpPool → disciplined H (copy_loop buf fuel).
Proof.
  intros Hb. induction fuel as [|fuel IH]; [constructor|]. cbn. apply d_load with tcpPool; [done|]. intros c0 _. apply d_read.
  intros [d|e|]; cbn; [|by apply d_put; [|apply d_done]|apply d_done].
  apply d_store with tcpPool; [done|lia|]. cbn. destruct (decide (take (length c0) d = [])); [done|].
  apply d_load with tcpPool; [done|]. intros c _. apply d_write. intros [e|]; [by apply d_put; [|apply d_done]|done].
Qed.
Lemma copy_goroutine_ok fuel : disciplined (λ _ _, False) (copy_goroutine fuel).
Proof. apply d_get. intros buf _. apply tcp_copy_ok. by right. Qed.
Lemma copy_loop_run fuel : ∀ L buf c es h x, L !! buf = Some c → length c = MaxTcpBufferSize → priv L (copy_loop buf fuel) es h x → stream_written es = stream_read es.
Proof.
  induction fuel as [|fuel IH]; intros L buf c es h x Hc Hl H; cbn [copy_loop] in H; [by apply ret_run in H as (-> & _)|].
  run_cell H. inversion H as [| | | | | | |? ? ? r es1 ? ? H1|]; subst. destruct r as [d|e|];
    [|by apply (put_run _ _ _ _ tcpPool buf (λ _, mret _)), ret_run in H1 as (-> & _)|by apply ret_run in H1 as (-> & _)].
  apply store_run in H1 as (c1 & Hc1 & H1). rewrite Hc in Hc1. injection Hc1 as <-. cbn. destruct (decide (take (length c) d = [])) as [E|E].
  { eapply IH; [apply lookup_insert_eq| |exact H1]. rewrite copy_at_0, length_app, length_drop, length_take by (rewrite length_take; lia). lia. }
  apply load_run in H1 as (c1 & Hc1 & H1). rewrite lookup_insert_eq in Hc1. injection Hc1 as <-.
  rewrite copy_at_0, take_app_length in H1 by (rewrite length_take; lia). inversion H1 as [| | | | | | | |? ? ? e es3 ? ? H3]; subst. cbn. f_equal.
  destruct e as [e|]; [by apply (put_run _ _ _ _ tcpPool buf (λ _, mret _)), ret_run in H3 as (-> & _)|].
  eapply IH; [apply lookup_insert_eq| |exact H3]. rewrite length_app, length_drop, length_take. lia.
Qed.
Lemma copy_goroutine_run fuel es h x : priv ∅ (copy_goroutine fuel) es h x → stream_written es = stream_read es.
Proof. intros H. apply get_run in H as (i & b & _ & Hb & H). eapply copy_loop_run; [apply lookup_insert_eq|done|exact H]. Qed.

(** ** The relays of a process *)

(** The pairs of functions of [UDPDirectRelayer], [ProxyUDPRelayer] and [NatmapUDPRelayer]. *)
Inductive relayer := RPlain (target : A) | RDirect | RRemote (remote : gostring) (server : A) | RSocks (server : A) | RNatmap.
Definition read_p (r : relayer) : A → nat → nat → rewritten A := λ _,
  match r with
  | RPlain target => plain_read_p target
  | RDirect => direct_read_p
  | RRemote remote server => remote_read_p remote server
  | RSocks server => socks_read_p server
  | RNatmap => natmap_read_p
  end.
Definition write_p (r : relayer) : A → nat → nat → rewritten unit :=
  match r with
  | RPlain _ => λ _, plain_write_p
  | RDirect => direct_write_p
  | RRemote _ _ => remote_write_p
  | RSocks _ => λ _, socks_write_p
  | RNatmap => natmap_write_p
  end.
(** The same on a buffer of their own (UdpRelay.v). *)
Definition read_f (r : relayer) : list Z → nat → res (list Z * A) :=
  match r with
  | RPlain target => plain_read target
  | RDirect => direct_read ResolveUDPAddr
  | RRemote remote server => remote_read remote server
  | RSocks server => socks_read server
  | RNatmap => natmap_read ResolveUDPAddr
  end.
Definition write_f (r : relayer) : A → list Z → nat → res (list Z) :=
  match r with
  | RPlain _ => plain_write
  | RDirect => direct_write addr_string
  | RRemote _ _ => remote_write addr_string
  | RSocks _ => socks_write
  | RNatmap => natmap_write addr_string
  end.
#[export] Instance read_pool r : PoolHandler (read_p r) (λ _, read_f r).
Proof. destruct r; apply _. Qed.
#[export] Instance write_pool r : PoolHandler (write_p r) (with_unit (write_f r)).
Proof. destruct r; apply _. Qed.
#[export] Instance relayer_handlers r : Handlers (read_f r) (write_f r).
Proof. destruct r; apply _. Qed.

(** The goroutines: either direction of a UDP relay, the header of a TCP connection, and
    either direction of it. *)
Inductive goroutine :=
| GUp (r : relayer) (fuel : nat)
| GDown (r : relayer) (serverAddr : gostring) (client : A) (fuel : nat)
| GHeader (remote : gostring)
| GCopy (fuel : nat).
Definition code (g : goroutine) : prog (res unit) :=
  match g with
  | GUp r fuel => relay_goroutine (λ _, false) (read_p r) id fuel
  | GDown r serverAddr client fuel => relay_goroutine (illegal addr_string serverAddr) (write_p r) (λ _, client) fuel
  | GHeader remote => connect_header remote
  | GCopy fuel => copy_goroutine fuel
  end.
(** What it should do, in terms of UdpRelay.v and Address.v. *)
Definition promised (g : goroutine) (es : list (event A)) : Prop :=
  match g with
  | GUp r _ => sent es = omap (upstream (read_f r)) (received es)
  | GDown r serverAddr client _ => sent es = (λ b, (b, client)) <$> omap (downstream addr_string serverAddr (write_f r)) (received es)
  | GHeader remote => stream_written es = match ParseAddress remote addr_buf with Ret a => [a] | _ => [] end
  | GCopy _ => stream_written es = stream_read es
  end.
Lemma code_ok g : disciplined (λ _ _, False) (code g).
Proof. destruct g; [eapply relay_goroutine_ok, _..|apply connect_header_ok|apply copy_goroutine_ok]. Qed.
Lemma code_run g es h x : priv ∅ (code g) es h x → x ≠ Panic → promised g es.
Proof.
  destruct g as [r fuel|r serverAddr client fuel|remote|fuel]; cbn [code promised]; intros H Hx.
  - rewrite (relay_goroutine_run _ _ (λ _, read_f r) _ (λ a buf d, h_read buf d) _ _ _ _ H Hx). apply list_omap_ext, Forall_Forall2_diag, Forall_forall.
    intros [d a] _. unfold forwarded, upstream. cbn. by destruct (read_f r _ _) as [[b t]|e|].
  - rewrite (relay_goroutine_run _ _ (with_unit (write_f r)) _ ltac:(intros a buf d Hd; unfold with_unit; by rewrite (h_write a buf d Hd)) _ _ _ _ H Hx).
    induction (received es) as [|[d a] l IH]; [done|]. cbn. unfold forwarded at 1, downstream at 1. cbn. destruct (illegal addr_string serverAddr a); [done|].
    unfold with_unit at 1. destruct (write_f r a _ _); cbn; [by f_equal|done..].
  - apply connect_header_run in H. destruct (ParseAddress remote addr_buf); [|by destruct H as [_ ->]|done]. by destruct H.
  - by apply copy_goroutine_run in H.
Qed.

(** C5 (refinement): the shared buffers can not be noticed. Run any number of relays at once, UDP relays of
    every kind in both directions and TCP connections, all of them taking their
    buffers from the pools of the process and putting them back as the code does, interleaved at every
    load and store, with the pools handing out old buffers in any order and forgetting
    them at any time. Each goroutine that is looked at after any number of datagrams, and has not
    panicked, has sent exactly what the functions of the relay make of the datagrams it received, on
    buffers of its own; the header it wrote is the address; what it copied is what it read.
    None ever waits for a buffer. *)
Theorem pooled_relays gs s j g t :
  rtc pstep (start (code <$> gs)) s → gs !! j = Some g → ps_threads s !! j = Some t →
  match t_prog t with
  | Done x => x ≠ Panic → promised g (t_log t)
  | m => ∃ h' P' m' es, tstep (ps_store s) (ps_pools s) m h' P' m' es
  end.
Proof.
  intros Hs Hg Ht. assert (Forall (disciplined (λ _ _, False)) (code <$> gs)) as Hok by (apply Forall_fmap, Forall_forall; intros; apply code_ok).
  destruct (pooled_progress _ _ _ _ Hok Hs Ht) as [[x Hx]|Hp].
  - rewrite Hx. destruct (pooled_alone _ _ _ _ _ Hok Hs Ht Hx) as (m & h & Hm & H). rewrite list_lookup_fmap, Hg in Hm. injection Hm as <-. by apply (code_run g _ h x).
  - destruct (t_prog t); try exact Hp. destruct Hp as (? & ? & ? & ? & Hp). inversion Hp.
Qed.
End Users.

(** *** Witness: two connections, the second with the buffer of the first *)

(** Several steps of one goroutine. *)
Inductive tsteps {A X} : gmap nat (list Z) → (poolName → BufferPool) → prog A X → gmap nat (list Z) → (poolName → BufferPool) → prog A X → list (event A) → Prop :=
| ts_refl h P m : tsteps h P m h P m []
| ts_step h P m h1 P1 m1 es1 h2 P2 m2 es2 : tstep h P m h1 P1 m1 es1 → tsteps h1 P1 m1 h2 P2 m2 es2 → tsteps h P m h2 P2 m2 (es1 ++ es2).
Lemma tsteps_process {A X} h P (m : prog A X) h' P' m' es ts j l : tsteps h P m h' P' m' es → ts !! j = Some (Thread m l) →
  rtc pstep (Process h P ts) (Process h' P' (<[j := Thread m' (l ++ es)]> ts)).
Proof.
  intros Hs. revert l ts. induction Hs as [h P m|h P m h1 P1 m1 es1 h2 P2 m2 es2 Ht _ IH]; intros l ts Hj.
  - rewrite app_nil_r, list_insert_id by done. constructor.
  - eapply rtc_l; [by eapply s_thread|]. rewrite app_assoc. specialize (IH (l ++ es1) (<[j := Thread m1 (l ++ es1)]> ts)).
    rewrite list_insert_insert_eq in IH. apply IH. apply list_lookup_insert_eq. by eapply lookup_lt_Some.
Qed.
(** The header of a connection, written with buffer [i]. *)
Lemma header_steps {A} h P h1 P1 i c remote a : (∀ k : nat → prog A (res unit), tstep h P (Get addrPool k) h1 P1 (k i) []) →
  h1 !! i = Some c → length c = 259 → ParseAddress remote addr_buf = Ret a →
  tsteps h P (connect_header (A := A) remote) (<[i := copy_at c 0 a]> h1) (set_pool addrPool (bp_Put i (P1 addrPool)) P1) (Done (Ret tt)) [EWrite a None].
Proof.
  intros Hg Hi Hc Ha. pose proof (proj2 (ParseAddress_fits remote) a Ha) as Hf.
  eapply (ts_step _ _ _ _ _ _ []); [apply Hg|]. eapply (ts_step _ _ _ _ _ _ []); [by apply t_load|]. rewrite (ParseAddress_any remote c Hc), Ha.
  eapply (ts_step _ _ _ _ _ _ []); [by apply t_store|]. eapply (ts_step _ _ _ _ _ _ []); [apply t_load, lookup_insert_eq|].
  rewrite copy_at_0, take_app_length by lia. eapply (ts_step _ _ _ _ _ _ [_]); [apply (t_write _ _ _ _ None)|]. eapply (ts_step _ _ _ _ _ _ []); [apply t_put|]. constructor.
Qed.
Module PoolDemo.
Definition headers : list (list Z) := [[1; 1; 2; 3; 4; 0; 80]; [4; 0; 0; 0; 0; 0; 0; 0; 0; 0; 0; 0; 0; 0; 0; 0; 1; 0; 53]]%Z.
Definition gs : list (goroutine (A := unit)) := [GHeader (str "1.2.3.4:80"); GHeader (str "[::1]:53")].
Definition code : goroutine → prog unit (res unit) := code (λ _, []) (λ _, Panic).
(** Both wrote their headers, and there is one buffer in all. *)
Lemma run : ∃ s, rtc pstep (start (code <$> gs)) s ∧ ps_threads s = (λ a, Thread (Done (Ret tt)) [EWrite a None]) <$> headers ∧
  bp_items (ps_pools s addrPool) = [0].
Proof.
  eexists. split.
  - etrans.
    + eapply (tsteps_process _ _ _ _ _ _ _ _ 0); [|reflexivity]. eapply (header_steps _ _ _ _ 0); [intros k; by apply t_get_new|apply lookup_insert_eq|apply length_replicate|].
      rewrite <-(ParseAddress_any _ (replicate 259 0%Z)) by apply length_replicate. vm_compute. reflexivity.
    + eapply (tsteps_process _ _ _ _ _ _ _ _ 1); [|reflexivity]. eapply (header_steps _ _ _ _ 0); [intros k; by apply (t_get_item _ _ _ _ _ [] [])|apply lookup_insert_eq| |].
      * by rewrite length_copy_at; [apply length_replicate|lia].
      * rewrite <-(ParseAddress_any _ (replicate 259 0%Z)) by apply length_replicate. vm_compute. reflexivity.
  - by split.
Qed.
End PoolDemo.
Lemma pooled_relays_witness : ∃ s : process unit (res unit), ps_threads s = (λ a, Thread (Done (Ret tt)) [EWrite a None]) <$> PoolDemo.headers ∧
  promised (λ _, []) (λ _, Panic) (GHeader (A := unit) (str "[::1]:53")) [EWrite [4; 0; 0; 0; 0; 0; 0; 0; 0; 0; 0; 0; 0; 0; 0; 0; 1; 0; 53]%Z None].
Proof.
  destruct PoolDemo.run as (s & Hs & Ht & _). exists s. split; [exact Ht|].
  pose proof (pooled_relays (λ _, []) (λ _, Panic) PoolDemo.gs s 1 (GHeader (str "[::1]:53"))
    (Thread (Done (Ret tt)) [EWrite [4; 0; 0; 0; 0; 0; 0; 0; 0; 0; 0; 0; 0; 0; 0; 0; 1; 0; 53]%Z None]) Hs eq_refl ltac:(rewrite Ht; reflexivity)) as H.
  apply H. discriminate.
Defined.
