(* ===== verification/Socks.v ===== *)
(** * Package ss: the SOCKS5 front end.

    Models [src/ss/auth.go] and [src/ss/socks.go]: method negotiation, user/password
    authentication, the request with its address, the look-up of fake IPs, the rule
    match and the replies. The state is the client connection, the resolver of
    fake IPs (behind the interface [EnhancerOps], with the model of FakeIP.v as
    instance) and the shared ruler of Rule.v. *)
From S2P Require Import Prelude GoIO GoNet Address Rule Cache FakeIP.
Local Open Scope Z_scope.

(** ** [Auth] *)

(** [url.Userinfo]: the password may be unset. *)
Record Auth := MkAuth { Username : gostring; Password_ : option gostring }.

Definition NewAuth (username password : gostring) : option Auth :=
  match username, password with
  | [], _ => None
  | u, [] => Some (MkAuth u None)
  | u, p => Some (MkAuth u (Some p))
  end.
Definition Password (a : Auth) : gostring := default [] (Password_ a).
Definition Validate (a : Auth) (username password : gostring) : bool :=
  match Password_ a with
  | Some p => bool_decide (username = Username a) && bool_decide (password = p)
  | None => bool_decide (username = Username a)
  end.

Definition errVersion5Invalid := errNew "socks version not 0x05".
Definition errVersion1Invalid := errNew "socks version not 0x01".
Definition errUnsupportedMethod := errNew "socks unsupported method".
Definition errUnsupportedReqCmd := errNew "socks unsupported request cmd".
Definition errAuthFailure := errNew "socks authentication failure".
Definition errAuthUserShortLength := errNew "socks authentication user short length".
Definition errAuthPasswordShortLength := errNew "socks authentication password short length".

Definition CONNECT : Z := 1.
Definition UDP : Z := 3.

(** [bufferpool.MaxSocksBufferSize]. *)
Definition socks_buf : list Z := replicate 515 0.

(** ** Negotiation *)

(** [io.ReadFull] whose error is replaced by [e]. *)
Definition read_or (e : error) (n : nat) : M conn (list Z) := λ c,
  match read_full n c with
  | (c1, Fail _) => (c1, Fail e)
  | x => x
  end.
(** [conn.Write(b)], results unused. *)
Definition write_ (b : list Z) : M conn unit := λ c, (conn_write_ b c, Ret tt).

Definition auth (a : Auth) : M conn unit :=
  v ← read_or errVersion1Invalid 1;
  if negb (byte_at v 0 =? 1) then mfail errVersion1Invalid else
  ul ← read_full 1;
  if byte_at ul 0 <=? 0 then mfail errAuthUserShortLength else
  username ← read_full (Z.to_nat (byte_at ul 0));
  pl ← read_full 1;
  if byte_at pl 0 <=? 0 then mfail errAuthPasswordShortLength else
  password ← read_full (Z.to_nat (byte_at pl 0));
  if Validate a username password then write_ [1; 0]
  else (_ ← write_ [1; 1]; mfail errAuthFailure).

Definition negotiate (socksAuth : option Auth) : M conn unit :=
  v ← read_or errVersion5Invalid 1;
  if negb (byte_at v 0 =? 5) then mfail errVersion5Invalid else
  k ← read_or errUnsupportedMethod 1;
  if byte_at k 0 <=? 0 then mfail errUnsupportedMethod else
  _ ← read_full (Z.to_nat (byte_at k 0));
  _ ← write_ [5; match socksAuth with Some _ => 2 | None => 0 end];
  match socksAuth with Some a => auth a | None => mret tt end.

(** ** The request *)

(** A connection goes to the relay of a proxy, with the destination, or to the interceptor, with the
    host, port and address of its [ReqContext]. *)
Inductive handed := ToProxy (proxy dst : gostring) | ToMitm (host port addr : gostring).
Definition handed_mitm (addr : gostring) : handed :=
  match SplitHostPort addr with inl (host, port) => ToMitm host port addr | inr _ => ToMitm [] [] addr end.

(** What the server asks of [resolver.DefaultResolver]. *)
Class EnhancerOps (R : Type) := {
  IsEnhancerMode : R → bool;
  en_IsFakeIP : R → Addr → res bool;
  (** [FindByIP(ip)]: the record's domain. *)
  en_FindByIP : Addr → R → R * res gostring;
}.

Section Request.
Context {R : Type} `{!EnhancerOps R}.
Context (LookupHost : gostring → Addr) (db_Country : Addr → option gostring).
(** [transport.ListenLocalUDP] (the local port) and the packet proxy's [Invoke]. *)
Context (ListenLocalUDP : res gostring) (InvokePacket : gostring → res unit).

Record world := World { w_conn : conn; w_res : R; w_ruler : Ruler }.

Definition on_conn {T} (m : M conn T) : M world T := λ w,
  let '(c, x) := m (w_conn w) in (World c (w_res w) (w_ruler w), x).

(** The domain behind a fake IP, in enhancer mode. *)
Definition target_host (host : gostring) (r : R) : R * res gostring :=
  if IsEnhancerMode r then
    match ParseAddr host with
    | Some ip =>
        match en_IsFakeIP r ip with
        | Ret true => en_FindByIP ip r
        | Ret false => (r, Ret host)
        | Fail e => (r, Fail e)
        | Panic => (r, Panic)
        end
    | None => (r, Ret host)
    end
  else (r, Ret host).
Definition resolve_host (host : gostring) : M world gostring := λ w,
  let '(r, x) := target_host host (w_res w) in (World (w_conn w) r (w_ruler w), x).

(** [rule.MatchRuler.Match(&host)]: whether to go on, and the host. *)
Definition match_host (host : gostring) : M world (gostring * bool) := λ w,
  let '(ru, host', x) := Ruler_Match LookupHost db_Country host (w_ruler w) in
  (World (w_conn w) (w_res w) ru, b ← x; Ret (host', b)).
Definition select_proxy : M world gostring := λ w, (w, Rule.Select (w_ruler w)).

Definition handleFail (errno : Z) : M conn unit := write_ [5; errno; 0].

Definition handleCmdConnect : M conn unit :=
  bindAddr ← mlift (ParseAddressFromHostPort (str "0.0.0.0") 0 (replicate 7 0));
  write_ ([5; 0; 0] ++ bindAddr).

Definition handleCmdUdpAssociate : M world unit :=
  port ← mlift ListenLocalUDP;
  bindAddr ← mlift (match ParseAddress (JoinHostPort (str "127.0.0.1") port) (replicate 7 0) with
                    | Fail _ => Ret [] | x => x end);
  _ ← on_conn (write_ ([5; 0; 0] ++ bindAddr));
  proxy ← select_proxy;
  mlift (InvokePacket proxy).

Definition request : M world (gostring * Z) :=
  v ← on_conn (read_or errVersion5Invalid 1);
  if negb (byte_at v 0 =? 5) then mfail errVersion5Invalid else
  b ← on_conn (read_full 2);
  let cmd := byte_at b 0 in
  dstAddr ← on_conn (ParseAddressFromReader socks_buf);
  host ← resolve_host (Host dstAddr);
  '(host', ok) ← match_host host;
  if negb ok then (_ ← on_conn (handleFail 2); mfail ErrRuleMatchDropped) else
  let addr := JoinHostPort host' (itoa (Port dstAddr)) in
  if cmd =? CONNECT then (_ ← on_conn handleCmdConnect; mret (addr, cmd)) else
  if cmd =? UDP then (_ ← handleCmdUdpAssociate; mret (addr, cmd)) else
  (_ ← on_conn (handleFail 7); mfail errUnsupportedReqCmd).

Definition handshake (socksAuth : option Auth) : M world (gostring * Z) :=
  _ ← on_conn (negotiate socksAuth);
  request.

(** [ServeTCP]: what the connection is handed to, if it comes to that. [mitm]: whether there is a
    [mitmHandler]. (The tracker that may be put around the connection is in Tracked.v.) *)
Definition ServeTCP (mitm : bool) (socksAuth : option Auth) : M world (option handed) :=
  '(dstAddr, cmd) ← handshake socksAuth;
  if cmd =? CONNECT then
    if mitm then mret (Some (handed_mitm dstAddr))
    else (proxy ← select_proxy; mret (Some (ToProxy proxy dstAddr)))
  else mret None.
End Request.

(** ** Conversations *)

(** [m] consumes exactly [i] from the client and answers exactly [o], however the
    input is cut into chunks. *)
Definition runs {T} (m : M conn T) (i o : list Z) (x : T) : Prop := ∀ c rest,
  pending c = i ++ rest → c_wbudget c = None →
  ∃ c', m c = (c', Ret x) ∧ pending c' = rest ∧ c_out c' = c_out c ++ o ∧ c_wbudget c' = None.

Lemma runs_bind {T U} (m : M conn T) (f : T → M conn U) i1 o1 x i2 o2 y :
  runs m i1 o1 x → runs (f x) i2 o2 y → runs (m ≫= f) (i1 ++ i2) (o1 ++ o2) y.
Proof.
  intros H1 H2 c rest Hp Hb. rewrite <-app_assoc in Hp.
  destruct (H1 c _ Hp Hb) as (c1 & E1 & Hp1 & Ho1 & Hb1). destruct (H2 c1 _ Hp1 Hb1) as (c2 & E2 & Hp2 & Ho2 & Hb2).
  exists c2. unfold mbind, M_bind. rewrite E1, E2, Ho2, Ho1, <-app_assoc. done.
Qed.

Lemma runs_read n d : length d = n → runs (read_full n) d [] d.
Proof.
  intros Hl c rest Hp Hb. destruct (read_full_app n c d rest Hp Hl) as (c' & -> & Hp' & _ & Ho & Hb' & _).
  exists c'. rewrite app_nil_r. split_and!; congruence.
Qed.
Lemma runs_read_or e n d : length d = n → runs (read_or e n) d [] d.
Proof. intros Hl c rest Hp Hb. destruct (runs_read n d Hl c rest Hp Hb) as (c' & E & H). exists c'. unfold read_or. by rewrite E. Qed.
Lemma runs_write b : runs (write_ b) [] b tt.
Proof.
  intros c rest Hp Hb. unfold write_, conn_write_. rewrite conn_write_unbounded by done.
  eexists. split; [done|]. split_and!; done.
Qed.
Lemma runs_ret {T} (x : T) : runs (mret x) [] [] x.
Proof. intros c rest Hp Hb. exists c. rewrite app_nil_r. split_and!; done. Qed.

Lemma byte_at_0 x l : byte_at (x :: l) 0 = x.
Proof. done. Qed.

Lemma runs_into b i j d : (i ≤ j)%nat → (j ≤ length b)%nat → length d = (j - i)%nat → runs (read_into b i j) d [] d.
Proof.
  intros Hij Hj Hl. unfold read_from. intros c rest Hp Hb. unfold mbind, M_bind, mlift.
  rewrite slice_ok by done. by apply runs_read.
Qed.

(** A step that only reads, and the last such step. *)
Lemma runs_in {T U} (m : M conn T) (f : T → M conn U) i1 x i2 o y :
  runs m i1 [] x → runs (f x) i2 o y → runs (m ≫= f) (i1 ++ i2) o y.
Proof. apply runs_bind. Qed.
Lemma runs_last {T U} (m : M conn T) (f : T → M conn U) i x o y :
  runs m i [] x → runs (f x) [] o y → runs (m ≫= f) i o y.
Proof. intros H1 H2. rewrite <-(app_nil_r i). by eapply runs_in. Qed.

Lemma runs_address a b : wf_addr a → (259 ≤ length b)%nat → runs (ParseAddressFromReader b) a [] a.
Proof.
  intros Ha Hb. unfold ParseAddressFromReader, ParseAddressFrom. rewrite (proj2 (Nat.ltb_ge _ _)) by lia.
  destruct Ha as [ip p Hl Hw Hp|ip p Hl Hw Hp|h p Hl Hw Hp]; unfold IPv4len, IPv6len in *.
  - eapply runs_in; [apply runs_into; simpl; lia|]. cbn.
    eapply runs_last; [apply runs_into; rewrite ?length_app, ?Hl; simpl; lia|]. apply runs_ret.
  - eapply runs_in; [apply runs_into; simpl; lia|]. cbn.
    eapply runs_last; [apply runs_into; rewrite ?length_app, ?Hl; simpl; lia|]. apply runs_ret.
  - eapply (runs_in _ _ [3] _ (Z.of_nat (length h) :: h ++ be16 p)); [apply runs_into; simpl; lia|]. cbn.
    eapply (runs_in _ _ [Z.of_nat (length h)]); [apply runs_into; simpl; lia|]. rewrite !byte_at_0.
    eapply runs_last; [apply runs_into; rewrite ?length_app, ?Nat2Z.id; simpl; lia|]. apply runs_ret.
Qed.

(** The client's side. *)
Definition greeting (methods : list Z) : list Z := [5; Z.of_nat (length methods)] ++ methods.
Definition credentials (u p : gostring) : list Z := [1; Z.of_nat (length u)] ++ u ++ [Z.of_nat (length p)] ++ p.

Lemma runs_auth a u p : (0 < length u)%nat → (0 < length p)%nat → Validate a u p = true →
  runs (auth a) (credentials u p) [1; 0] tt.
Proof.
  intros Hu Hp Hv. unfold auth, credentials.
  eapply (runs_in _ _ [1] _ (Z.of_nat (length u) :: u ++ [Z.of_nat (length p)] ++ p)); [by apply runs_read_or|]. cbn.
  eapply (runs_in _ _ [Z.of_nat (length u)]); [by apply runs_read|]. rewrite !byte_at_0.
  rewrite (proj2 (Z.leb_gt _ _)) by lia. eapply runs_in; [apply runs_read; lia|].
  eapply (runs_in _ _ [Z.of_nat (length p)]); [by apply runs_read|]. rewrite !byte_at_0.
  rewrite (proj2 (Z.leb_gt _ _)) by lia. eapply runs_last; [apply runs_read; lia|]. rewrite Hv. apply runs_write.
Qed.

Definition method_of (au : option Auth) : Z := match au with Some _ => 2 | None => 0 end.
(** What a client sends after the greeting, and the answer. *)
Definition login (au : option Auth) (u p : gostring) : list Z := match au with Some _ => credentials u p | None => [] end.
Definition login_reply (au : option Auth) : list Z := match au with Some _ => [1; 0] | None => [] end.
Definition login_ok (au : option Auth) (u p : gostring) : Prop :=
  match au with Some a => (0 < length u)%nat ∧ (0 < length p)%nat ∧ Validate a u p = true | None => True end.

Lemma runs_negotiate au methods u p : (0 < length methods)%nat → login_ok au u p →
  runs (negotiate au) (greeting methods ++ login au u p) ([5; method_of au] ++ login_reply au) tt.
Proof.
  intros Hm Hl. unfold negotiate, greeting.
  eapply (runs_in _ _ [5] _ ((Z.of_nat (length methods) :: methods) ++ login au u p)); [by apply runs_read_or|]. cbn.
  eapply (runs_in _ _ [Z.of_nat (length methods)]); [by apply runs_read_or|]. rewrite !byte_at_0.
  rewrite (proj2 (Z.leb_gt _ _)) by lia. eapply runs_in; [apply runs_read; lia|].
  change (login au u p) with ([] ++ login au u p).
  change (5 :: method_of au :: login_reply au) with ([5; method_of au] ++ login_reply au).
  eapply runs_bind; [apply runs_write|]. destruct au as [a|]; [|apply runs_ret].
  destruct Hl as (? & ? & ?). by apply runs_auth.
Qed.

Section Served.
Context {R : Type} `{!EnhancerOps R}.
Context (LookupHost : gostring → Addr) (db_Country : Addr → option gostring).
Context (ListenLocalUDP : res gostring) (InvokePacket : gostring → res unit).
Abbreviation request := (request LookupHost db_Country ListenLocalUDP InvokePacket).
Abbreviation ServeTCP := (ServeTCP LookupHost db_Country ListenLocalUDP InvokePacket).

(** Where a run ends: the state, what is left to read, what was written, the result. *)
Definition ends {T} (r : R) (ru : Ruler) (rest out : list Z) (x : res T) (y : world (R := R) * res T) : Prop :=
  ∃ c', y = (World c' r ru, x) ∧ pending c' = rest ∧ c_out c' = out ∧ c_wbudget c' = None.

(** A step on the connection inside the whole state. *)
Lemma on_conn_step {T U} (m : M conn T) (f : T → M (world (R := R)) U) i o x c r ru rest (P : world (R := R) * res U → Prop) :
  runs m i o x → pending c = i ++ rest → c_wbudget c = None →
  (∀ c', pending c' = rest → c_out c' = c_out c ++ o → c_wbudget c' = None → P (f x (World c' r ru))) →
  P ((on_conn m ≫= f) (World c r ru)).
Proof.
  intros Hm Hp Hb HP. destruct (Hm _ _ Hp Hb) as (c' & E & Hp' & Ho & Hb'). unfold mbind, M_bind, on_conn. simpl.
  rewrite E. by apply HP.
Qed.
Lemma on_conn_end {T} (m : M conn T) (x : T) o {U} (z : res U) (f : T → M (world (R := R)) U) c r ru rest out :
  runs m [] o x → pending c = rest → c_wbudget c = None → c_out c ++ o = out → (∀ w, f x w = (w, z)) →
  ends r ru rest out z ((on_conn m ≫= f) (World c r ru)).
Proof.
  intros Hm Hp Hb Ho Hf. eapply on_conn_step; [done|done|done|]. intros c' Hp' Ho' Hb'. rewrite Hf.
  exists c'. split_and!; congruence.
Qed.

(** The reply to the request: dropped by the rules, connected, or unsupported. *)
Definition connect_reply : list Z := [5; 0; 0; 1; 0; 0; 0; 0; 0; 0].
Lemma runs_handleCmdConnect : runs handleCmdConnect [] connect_reply tt.
Proof.
  intros c rest Hp Hb. unfold handleCmdConnect, mbind, M_bind, mlift.
  assert (ParseAddressFromHostPort (str "0.0.0.0") 0 (replicate 7 0) = Ret [1; 0; 0; 0; 0; 0; 0]) as -> by (vm_compute; reflexivity).
  by apply runs_write.
Qed.

(** The state after the request and what it returns, when the address is read, its
    host resolved to [h] and the rules have answered. *)
Definition request_result (a : list Z) (cmd : Z) (h' : gostring) (ok : bool) : list Z * res (gostring * Z) :=
  if negb ok then ([5; 2; 0], Fail ErrRuleMatchDropped)
  else if cmd =? CONNECT then (connect_reply, Ret (JoinHostPort h' (itoa (Port a)), cmd))
  else ([5; 7; 0], Fail errUnsupportedReqCmd).

Lemma request_run c r ru cmd rsv a rest r' h ru' h' ok :
  pending c = [5; cmd; rsv] ++ a ++ rest → c_wbudget c = None → wf_addr a →
  target_host (Host a) r = (r', Ret h) →
  Ruler_Match LookupHost db_Country h ru = (ru', h', Ret ok) → (ok = true → cmd ≠ UDP) →
  ends r' ru' rest (c_out c ++ (request_result a cmd h' ok).1) (request_result a cmd h' ok).2 (request (World c r ru)).
Proof.
  intros Hp Hb Ha Hh Hm Hu. unfold Socks.request.
  eapply (on_conn_step _ _ [5] [] [5]); [by apply runs_read_or|exact Hp|done|]. intros c1 Hp1 Ho1 Hb1.
  rewrite byte_at_0. change (negb (5 =? 5)) with false. cbv iota zeta.
  eapply (on_conn_step _ _ [cmd; rsv] [] [cmd; rsv]); [by apply runs_read|exact Hp1|done|]. intros c2 Hp2 Ho2 Hb2.
  rewrite byte_at_0. cbv zeta.
  eapply (on_conn_step _ _ a [] a); [apply runs_address; [done|unfold socks_buf; rewrite length_replicate; lia]|exact Hp2|done|].
  intros c3 Hp3 Ho3 Hb3. rewrite !app_nil_r in *.
  unfold mbind at 1, M_bind at 1, resolve_host. cbn [w_res w_conn w_ruler]. rewrite Hh.
  unfold mbind at 1, M_bind at 1, match_host. cbn [w_res w_conn w_ruler]. rewrite Hm. cbn [mbind res_bind].
  unfold request_result. destruct ok; cbn [negb].
  - destruct (cmd =? CONNECT) eqn:E; zify_bool.
    + cbn [fst snd]. eapply on_conn_end; [apply runs_handleCmdConnect|done|done|congruence|done].
    + rewrite (proj2 (Z.eqb_neq _ _)) by auto. cbn [fst snd].
      eapply on_conn_end; [apply runs_write|done|done|congruence|done].
  - cbn [fst snd]. eapply on_conn_end; [apply runs_write|done|done|congruence|done].
Qed.

Lemma connect_run_served mitm au methods u p rsv a c r ru rest r' h ru' h' proxy :
  (0 < length methods)%nat → login_ok au u p → wf_addr a → c_wbudget c = None →
  pending c = (greeting methods ++ login au u p) ++ [5; CONNECT; rsv] ++ a ++ rest →
  target_host (Host a) r = (r', Ret h) →
  Ruler_Match LookupHost db_Country h ru = (ru', h', Ret true) → (mitm = false → Rule.Select ru' = Ret proxy) →
  let addr := JoinHostPort h' (itoa (Port a)) in
  ends r' ru' rest (c_out c ++ ([5; method_of au] ++ login_reply au) ++ connect_reply)
    (Ret (Some (if mitm then handed_mitm addr else ToProxy proxy addr))) (ServeTCP mitm au (World c r ru)).
Proof.
  intros Hm Hl Ha Hb Hp Hh Hr Hs addr.
  assert (ends r' ru' rest (c_out c ++ ([5; method_of au] ++ login_reply au) ++ connect_reply)
    (Ret (JoinHostPort h' (itoa (Port a)), CONNECT)) (handshake LookupHost db_Country ListenLocalUDP InvokePacket au (World c r ru)))
    as (c' & E & Hp' & Ho & Hb').
  { unfold handshake. eapply on_conn_step; [by apply runs_negotiate|exact Hp|done|]. intros c1 Hp1 Ho1 Hb1.
    rewrite app_assoc, <-Ho1. by apply (request_run c1 r ru CONNECT rsv a rest r' h ru' h' true). }
  exists c'. split_and!; [|done..]. unfold Socks.ServeTCP. unfold mbind at 1, M_bind at 1. rewrite E. cbn.
  destruct mitm; [done|]. unfold mbind, M_bind, select_proxy. simpl. by rewrite Hs.
Qed.

(** C10 (functional): a CONNECT conversation, in whatever pieces it arrives. Take a client that sends a greeting with
    at least one method, then, if the server has credentials, a non-empty user name and password that they accept, and a CONNECT
    request with a well-formed address; whose host (the domain behind it, for a fake IP) the rules accept; for which
    they then select a proxy, unless interception is on; and to whom writes do not fail. The server answers the greeting
    with method 2 if it has credentials and 0 if not, also when the client has not offered that method; a login with
    success; and the request with success and the address 0.0.0.0:0. It consumes exactly the conversation and hands the
    rest of the stream to that proxy with the address [host:port], or, with interception on, to the interceptor with
    that address. *)
Theorem socks_connect_served mitm au methods u p rsv a c r ru rest r' h ru' h' proxy :
  (0 < length methods)%nat → login_ok au u p → wf_addr a → c_wbudget c = None →
  pending c = (greeting methods ++ login au u p) ++ [5; CONNECT; rsv] ++ a ++ rest →
  target_host (Host a) r = (r', Ret h) →
  Ruler_Match LookupHost db_Country h ru = (ru', h', Ret true) → (mitm = false → Rule.Select ru' = Ret proxy) →
  let addr := JoinHostPort h' (itoa (Port a)) in
  ends r' ru' rest (c_out c ++ ([5; method_of au] ++ login_reply au) ++ connect_reply)
    (Ret (Some (if mitm then handed_mitm addr else ToProxy proxy addr))) (ServeTCP mitm au (World c r ru)).
Proof. apply connect_run_served. Qed.

(** C26 (error): refused requests. After a negotiation as in C10, with interception or without: a request with a well-formed
    address whose host the rules drop, whatever its command, UDP ASSOCIATE included, is answered with reply 2; one whose host they
    accept but whose command is neither CONNECT nor UDP ASSOCIATE with reply 7; exactly the conversation is consumed and
    the connection is handed to nobody. *)
Theorem socks_request_refused mitm au methods u p cmd rsv a c r ru rest r' h ru' h' ok :
  (0 < length methods)%nat → login_ok au u p → wf_addr a → c_wbudget c = None →
  pending c = (greeting methods ++ login au u p) ++ [5; cmd; rsv] ++ a ++ rest →
  target_host (Host a) r = (r', Ret h) →
  Ruler_Match LookupHost db_Country h ru = (ru', h', Ret ok) →
  ok = false ∨ (cmd ≠ CONNECT ∧ cmd ≠ UDP) →
  ends r' ru' rest (c_out c ++ ([5; method_of au] ++ login_reply au) ++ [5; if ok then 7 else 2; 0])
    (Fail (if ok then errUnsupportedReqCmd else ErrRuleMatchDropped)) (ServeTCP mitm au (World c r ru)).
Proof.
  intros Hm Hl Ha Hb Hp Hh Hr Hc. assert (ok = true → cmd ≠ UDP) as Hu by (destruct Hc as [->|[_ ?]]; done).
  assert (ends r' ru' rest (c_out c ++ ([5; method_of au] ++ login_reply au) ++ [5; if ok then 7 else 2; 0])
    (Fail (if ok then errUnsupportedReqCmd else ErrRuleMatchDropped))
    (handshake LookupHost db_Country ListenLocalUDP InvokePacket au (World c r ru))) as (c' & E & Hp' & Ho & Hb').
  { unfold handshake. eapply on_conn_step; [by apply runs_negotiate|exact Hp|done|]. intros c1 Hp1 Ho1 Hb1.
    rewrite app_assoc, <-Ho1.
    pose proof (request_run c1 r ru cmd rsv a rest r' h ru' h' ok Hp1 Hb1 Ha Hh Hr Hu) as H. unfold request_result in H.
    destruct ok; [|exact H]. destruct Hc as [|[Hc _]]; [done|]. by rewrite (proj2 (Z.eqb_neq _ _)) in H by done. }
  exists c'. split_and!; [|done..]. unfold Socks.ServeTCP. unfold mbind at 1, M_bind at 1. by rewrite E.
Qed.
End Served.

(** ** Who gets past the negotiation *)

Lemma read_full_inv n c c' d : read_full n c = (c', Ret d) → length d = n ∧ pending c = d ++ pending c'.
Proof.
  intros H. destruct (decide (n ≤ length (pending c))%nat) as [Hn|Hn].
  - destruct (read_full_ok n c Hn) as (chs & E & Hc). rewrite E in H. simplify_eq.
    rewrite length_take. split; [lia|]. unfold pending at 3. simpl. by rewrite Hc, take_drop.
  - rewrite read_full_short in H by lia. done.
Qed.
Lemma read_or_inv e n c c' d : read_or e n c = (c', Ret d) → length d = n ∧ pending c = d ++ pending c'.
Proof. unfold read_or. destruct (read_full n c) as [c1 [x|x|]] eqn:E; intros H; simplify_eq. by apply read_full_inv. Qed.

Lemma pending_write b c : pending (conn_write_ b c) = pending c.
Proof. unfold conn_write_, conn_write. destruct (c_wbudget c); [case_match|]; done. Qed.

Lemma byte_list d : length d = 1%nat → d = [byte_at d 0].
Proof. destruct d as [|x [|]]; done. Qed.

Lemma auth_inv a c c' : auth a c = (c', Ret tt) →
  ∃ u p, pending c = credentials u p ++ pending c' ∧ (0 < length u)%nat ∧ (0 < length p)%nat ∧ Validate a u p = true.
Proof.
  unfold auth. intros (c1 & v & [L1 P1]%read_or_inv & H)%bind_inv.
  destruct (byte_at v 0 =? 1) eqn:E1; [|done]. cbn [negb] in H. zify_bool.
  apply bind_inv in H as (c2 & ul & [L2 P2]%read_full_inv & H).
  destruct (byte_at ul 0 <=? 0) eqn:E2; [done|]. zify_bool.
  apply bind_inv in H as (c3 & u & [L3 P3]%read_full_inv & H).
  apply bind_inv in H as (c4 & pl & [L4 P4]%read_full_inv & H).
  destruct (byte_at pl 0 <=? 0) eqn:E3; [done|]. zify_bool.
  apply bind_inv in H as (c5 & p & [L5 P5]%read_full_inv & H).
  destruct (Validate a u p) eqn:Ev; [|done]. exists u, p. split_and!; [|lia|lia|done].
  unfold write_ in H. simplify_eq. rewrite pending_write, P1, P2, P3, P4, P5. unfold credentials.
  rewrite (byte_list v), (byte_list ul), (byte_list pl), E1 by done.
  replace (Z.of_nat (length u)) with (byte_at ul 0) by lia. replace (Z.of_nat (length p)) with (byte_at pl 0) by lia.
  by rewrite <-!app_assoc.
Qed.

(** C9 (safety): a server with credentials configured lets nobody past the
    negotiation whose input does not begin with a greeting and user and password
    that [Validate] accepts, whatever authentication methods were offered. *)
Theorem socks_auth_required a c c' :
  negotiate (Some a) c = (c', Ret tt) →
  ∃ methods u p, pending c = greeting methods ++ credentials u p ++ pending c' ∧ Validate a u p = true.
Proof.
  unfold negotiate. intros (c1 & v & [L1 P1]%read_or_inv & H)%bind_inv.
  destruct (byte_at v 0 =? 5) eqn:E1; [|done]. cbn [negb] in H. zify_bool.
  apply bind_inv in H as (c2 & k & [L2 P2]%read_or_inv & H).
  destruct (byte_at k 0 <=? 0) eqn:E2; [done|]. zify_bool.
  apply bind_inv in H as (c3 & ms & [L3 P3]%read_full_inv & H).
  apply bind_inv in H as (c4 & [] & Hw & H). unfold write_ in Hw. simplify_eq.
  apply auth_inv in H as (u & p & P4 & _ & _ & Hv). exists ms, u, p. split; [|done].
  rewrite pending_write in P4. rewrite P1, P2, P3, P4. unfold greeting.
  rewrite (byte_list v), (byte_list k), E1 by done.
  replace (Z.of_nat (length ms)) with (byte_at k 0) by lia. done.
Qed.

(** ** The fake-IP resolver behind the interface *)
Section FakeEnhancer.
Context {Msg C1 C2 : Type} `{!CacheOps gostring nat C1, !CacheOps Addr nat C2} (now : Z).
Abbreviation resolver := (fakeIPResolver Msg C1 C2).

(** A resolver that is not in enhancer mode has no fake-IP resolver. *)
#[export] Instance fake_enhancer : EnhancerOps (option resolver) := {
  IsEnhancerMode r := match r with Some _ => true | None => false end;
  en_IsFakeIP r ip := match r with Some f => FakeIP.IsFakeIP f ip | None => Panic end;
  en_FindByIP ip r :=
    match r with
    | Some f => let '(f', x) := FakeIP.FindByIP ip now f in
                (Some f', i ← x; rec ← deref f' i; Ret (Domain rec))
    | None => (None, Panic)
    end;
}.
End FakeEnhancer.

(** *** Witnesses *)
#[export] Instance no_enhancer : EnhancerOps unit := {
  IsEnhancerMode _ := false; en_IsFakeIP _ _ := Ret false; en_FindByIP _ r := (r, Ret []) }.
Definition demo_direct : Ruler := MkRuler Direct None [] (str "direct-out") [].
Definition demo_auth : Auth := MkAuth (str "user") (Some (str "pass")).
Definition demo_dst : list Z := [3; 7] ++ str "a.b.com" ++ be16 443.
Definition demo_in : list Z := (greeting [0; 2] ++ login (Some demo_auth) (str "user") (str "pass")) ++ [5; CONNECT; 0] ++ demo_dst ++ [22; 3; 1].
Definition demo_client : conn := Conn ((λ x, [x]) <$> demo_in) io_EOF [] None io_EOF.
Definition demo_refused : Z → conn := λ cmd,
  Conn [(greeting [0] ++ login None [] []) ++ [5; cmd; 0] ++ demo_dst ++ []] io_EOF [] None io_EOF.

Lemma demo_dst_wf : wf_addr demo_dst.
Proof.
  apply (wf_dom (str "a.b.com") 443); [vm_compute; lia|unfold str; apply bytes_of_string_wf|lia].
Qed.

Lemma socks_connect_served_witness :
  ends (R := unit) tt (MkRuler Direct (Some (auto_item Direct)) [] (str "direct-out") []) [22; 3; 1]
    [5; 2; 1; 0; 5; 0; 0; 1; 0; 0; 0; 0; 0; 0] (Ret (Some (ToProxy (str "direct-out") (str "a.b.com:443"))))
    (ServeTCP no_lookup no_country (Fail io_EOF) (λ _, Ret tt) false (Some demo_auth) (World demo_client tt demo_direct)).
Proof.
  apply (socks_connect_served no_lookup no_country (Fail io_EOF) (λ _, Ret tt) false (Some demo_auth) [0; 2] (str "user") (str "pass") 0
    demo_dst demo_client tt demo_direct [22; 3; 1] tt (str "a.b.com") _ (str "a.b.com") (str "direct-out"));
    try reflexivity; try (vm_compute; lia).
  exact demo_dst_wf.
Defined.

(** A UDP ASSOCIATE for a host that no rule accepts. *)
Definition demo_norules : Ruler := MkRuler Match None [] (str "direct-out") [].
Lemma socks_request_refused_witness :
  ends (R := unit) tt demo_norules [] [5; 0; 5; 2; 0] (Fail ErrRuleMatchDropped)
    (ServeTCP no_lookup no_country (Fail io_EOF) (λ _, Ret tt) false None (World (demo_refused UDP) tt demo_norules)).
Proof.
  apply (socks_request_refused no_lookup no_country (Fail io_EOF) (λ _, Ret tt) false None [0] [] [] UDP 0
    demo_dst (demo_refused UDP) tt demo_norules [] tt (str "a.b.com") _ (str "a.b.com") false);
    try reflexivity; try (vm_compute; lia).
  exact demo_dst_wf.
Defined.

Lemma socks_auth_required_witness :
  ∃ methods u p, demo_in = greeting methods ++ credentials u p ++ pending (fst (negotiate (Some demo_auth) demo_client)) ∧
    Validate demo_auth u p = true.
Proof.
  apply (socks_auth_required demo_auth demo_client (fst (negotiate (Some demo_auth) demo_client))). reflexivity.
Defined.
