(* ===== verification/SocksClient.v ===== *)
(** * Package client: the SOCKS5 client, and its conversation with the server.

    Models [src/client/client.go]: method negotiation, authentication and request, each
    a message written from and an answer read into the client's one buffer. What an
    answer is too short to overwrite stays in the buffer and is looked at, which
    is modelled. Dialling is a parameter: the connection is given. *)
From S2P Require Import Prelude GoIO GoNet Address Rule Cache FakeIP Socks.
Local Open Scope Z_scope.

Definition errClientVersion5 := errNew "socks version not 0x05".
Definition errClientVersion1 := errNew "socks version not 0x01".
Definition errAuthentication := errNew "socks authentication failure".
Definition errRequest := errNew "socks request failure".
Definition MaxSocksBufferSize : nat := 515.
Definition defaultSupportMethods : list Z := [0; 2].

(** [authInfo]: user name and password; a nil [Userinfo] has empty ones. *)
Record Socks5Client := SClient { k_conn : conn; k_buf : list Z; authMethod : Z; authInfo : option (gostring * gostring) }.
Definition NewSocks5Client (c : conn) : Socks5Client := SClient c (replicate MaxSocksBufferSize 0) 0 None.
Definition SetSocksAuth (u p : gostring) (k : Socks5Client) : Socks5Client := SClient (k_conn k) (k_buf k) 2 (Some (u, p)).

(** [conn.Write(buf[:n])] after the buffer has been filled; the error is ignored. *)
Definition send (buf : list Z) (n : nat) : M Socks5Client unit := λ k,
  (SClient (conn_write_ (take n buf) (k_conn k)) buf (authMethod k) (authInfo k), Ret tt).
(** [conn.Read(buf)]: the buffer afterwards. *)
Definition receive : M Socks5Client (list Z) := λ k,
  match conn_read (length (k_buf k)) (k_conn k) with
  | (c, Ret d) => let buf := copy_at (k_buf k) 0 d in (SClient c buf (authMethod k) (authInfo k), Ret buf)
  | (c, Fail e) => (SClient c (k_buf k) (authMethod k) (authInfo k), Fail e)
  | (c, Panic) => (SClient c (k_buf k) (authMethod k) (authInfo k), Panic)
  end.
Definition set_method (m : Z) : M Socks5Client unit := λ k, (SClient (k_conn k) (k_buf k) m (authInfo k), Ret tt).

Definition client_negotiate : M Socks5Client unit := λ k,
  (let buf := copy_at (<[1%nat := u8 (Z.of_nat (length defaultSupportMethods))]> (<[0%nat := 5]> (k_buf k))) 2 defaultSupportMethods in
   _ ← send buf (2 + length defaultSupportMethods);
   b ← receive;
   if negb (byte_at b 0 =? 5) then mfail errClientVersion5 else set_method (byte_at b 1)) k.

Definition authentication : M Socks5Client unit := λ k,
  (if negb (authMethod k =? 2) then mret tt else
   let '(u, p) := default ([], []) (authInfo k) in
   let size := length (k_buf k) in
   let buf1 := copy_at (<[1%nat := u8 (Z.of_nat (length u))]> (<[0%nat := 1]> (k_buf k))) 2 u in
   let nu := (length u `min` (size - 2))%nat in
   _ ← mlift (index buf1 (2 + nu));
   let buf2 := copy_at (<[(2 + nu)%nat := u8 (Z.of_nat (length p))]> buf1) (3 + nu) p in
   let np := (length p `min` (size - (3 + nu)))%nat in
   _ ← send buf2 (3 + nu + np);
   b ← receive;
   if negb (byte_at b 0 =? 1) then mfail errClientVersion1 else
   if negb (byte_at b 1 =? 0) then mfail errAuthentication else mret tt) k.

(** The target, split at colons: what [request] takes for host and port. *)
Definition client_target (target : gostring) : gostring * Z :=
  match split_byte 58 target with
  | [] => ([], 80)
  | [h] => (h, 80)
  | h :: p :: _ => (h, fst (atoi p))
  end.
Definition client_request (target : gostring) (cmd : Z) : M Socks5Client gostring := λ k,
  (let '(host, port) := client_target target in
   dstAddr ← mlift (ParseAddressFromHostPort host port (replicate 259 0));
   let buf := copy_at (<[2%nat := 0]> (<[1%nat := cmd]> (<[0%nat := 5]> (k_buf k)))) 3 dstAddr in
   _ ← send buf (3 + length dstAddr);
   b ← receive;
   if negb (byte_at b 1 =? 0) then mfail errRequest else
   bindAddr ← mlift (ParseAddressFromBuffer (drop 3 b));
   mret (Address.String bindAddr)) k.

(** [handshake] once the connection is there; the caller closes it on an error. *)
Definition client_handshake (target : gostring) (cmd : Z) : M Socks5Client gostring :=
  _ ← client_negotiate;
  _ ← authentication;
  client_request target cmd.

(** ** [Dial], [DialUDP] and [Close] *)

(** What an interface-typed field holds: nothing, a nil pointer to a wrapper, the
    dialled connection, or a wrapper with the address it shows as remote. *)
Inductive conn_field := NoConn | NilWrapper | PlainConn | WrapperOf (remote : gostring).
Record Client := MkClient {
  cl_sock : Socks5Client;      (** the TCP connection, buffer and credentials *)
  cl_conn : conn_field;        (** [c.conn] *)
  cl_udpConn : conn_field;     (** [c.udpConn] *)
  cl_open : bool;              (** the dialled TCP connection is open *)
  cl_udp_open : bool;          (** the local UDP socket is open *)
}.

Section Dialing.
(** [c.dialer.Dial(ctx, c.Addr)]: the connection; [net.ResolveTCPAddr] and [net.ResolveUDPAddr], which
    ask the local resolver; [transport.ListenLocalUDP]. *)
Context (dialer_Dial : res conn) (ResolveTCPAddr ResolveUDPAddr : gostring → gostring + error) (ListenLocalUDP : res unit).

Definition set_conn (f : conn_field) (cl : Client) : Client := MkClient (cl_sock cl) f (cl_udpConn cl) (cl_open cl) (cl_udp_open cl).

(** [handshake]: a failure closes the connection, which [c.conn] still holds. *)
Definition dial_handshake (address : gostring) (cmd : Z) : M Client gostring := λ cl,
  match dialer_Dial with
  | Fail e => (cl, Fail e)
  | Panic => (cl, Panic)
  | Ret c =>
      let k0 := SClient c (k_buf (cl_sock cl)) (authMethod (cl_sock cl)) (authInfo (cl_sock cl)) in
      let '(k, x) := client_handshake address cmd k0 in
      (MkClient k PlainConn (cl_udpConn cl) (match x with Fail _ => false | _ => true end) (cl_udp_open cl), x)
  end.

(** [newTcpConnWrapper]: nil with an error when the target does not resolve here. *)
Definition newTcpConnWrapper (target : gostring) : conn_field * option error :=
  match ResolveTCPAddr target with inl a => (WrapperOf a, None) | inr e => (NilWrapper, Some e) end.
Definition newUdpConnWrapper (destAddr target : gostring) : conn_field * option error :=
  match ResolveUDPAddr target, ResolveUDPAddr destAddr with
  | inr e, _ => (NilWrapper, Some e)
  | _, inr e => (NilWrapper, Some e)
  | inl a, inl _ => (WrapperOf a, None)
  end.
(** [return tcw, err]. *)
Definition wrapped (p : conn_field * option error) : res conn_field :=
  match p with (f, None) => Ret f | (_, Some e) => Fail e end.
Definition keep_tcp (p : conn_field * option error) : M Client conn_field := λ cl,
  (set_conn (fst p) cl, wrapped p).
Definition keep_udp (p : conn_field * option error) : M Client conn_field := λ cl,
  (MkClient (cl_sock cl) (cl_conn cl) (fst p) (cl_open cl) true, wrapped p).

Definition Dial (addr : gostring) : M Client conn_field :=
  _ ← dial_handshake addr CONNECT;
  keep_tcp (newTcpConnWrapper addr).
Definition DialUDP (addr : gostring) : M Client conn_field :=
  bindAddr ← dial_handshake addr UDP;
  _ ← mlift ListenLocalUDP;
  keep_udp (newUdpConnWrapper bindAddr addr).
End Dialing.

(** [Close] of a field: closing through a nil wrapper reads its embedded
    connection. *)
Definition field_Close (f : conn_field) : res bool :=
  match f with NoConn => Ret false | NilWrapper => Panic | PlainConn | WrapperOf _ => Ret true end.
Definition Close (cl : Client) : Client * res unit :=
  match field_Close (cl_conn cl) with
  | Ret b =>
      let cl1 := MkClient (cl_sock cl) (cl_conn cl) (cl_udpConn cl) (cl_open cl && negb b) (cl_udp_open cl) in
      match field_Close (cl_udpConn cl) with
      | Ret b' => (MkClient (cl_sock cl) (cl_conn cl) (cl_udpConn cl) (cl_open cl && negb b) (cl_udp_open cl && negb b'), Ret tt)
      | Fail e => (cl1, Fail e)
      | Panic => (cl1, Panic)
      end
  | Fail e => (cl, Fail e)
  | Panic => (cl, Panic)
  end.

(** ** The messages of the handshake *)

Lemma byte_at_app_l (a b : list Z) i : (i < length a)%nat → byte_at (a ++ b) i = byte_at a i.
Proof. intros. unfold byte_at. by rewrite lookup_app_l. Qed.

(** The answer [ch] arrives in one piece: it covers the front of the buffer. *)
Lemma receive_chunk k ch rest : c_in (k_conn k) = ch :: rest → (length ch ≤ length (k_buf k))%nat →
  receive k = (SClient (set_in rest (k_conn k)) (ch ++ drop (length ch) (k_buf k)) (authMethod k) (authInfo k),
               Ret (ch ++ drop (length ch) (k_buf k))).
Proof.
  intros Hc Hl. unfold receive, conn_read. rewrite Hc, (proj2 (Nat.leb_le _ _) Hl).
  by rewrite copy_at_0.
Qed.

(** One exchange: [msg] is written, [ch] is read, and [f] goes on with the buffer. *)
Lemma exchange_step {T} (f : list Z → M Socks5Client T) k buf n msg ch rest :
  take n buf = msg → c_in (k_conn k) = ch :: rest → c_wbudget (k_conn k) = None → (length ch ≤ length buf)%nat →
  (_ ← send buf n; b ← receive; f b) k =
  f (ch ++ drop (length ch) buf)
    (SClient (Conn rest (c_rerr (k_conn k)) (c_out (k_conn k) ++ msg) None (c_werr (k_conn k)))
       (ch ++ drop (length ch) buf) (authMethod k) (authInfo k)).
Proof.
  intros Hm Hc Hw Hl. unfold mbind at 1, M_bind at 1, send. rewrite Hm. unfold conn_write_.
  rewrite conn_write_unbounded by done. unfold mbind, M_bind. cbn [fst].
  rewrite (receive_chunk _ ch rest) by done. done.
Qed.

Section Handshake.
Context (k : Socks5Client) (rest : list (list Z)).
Hypothesis Hbuf : length (k_buf k) = MaxSocksBufferSize.
Hypothesis Hw : c_wbudget (k_conn k) = None.

(** [k] after an exchange: [msg] is sent, the input is [rest], the buffer kept its size. *)
Definition after (msg : list Z) (m : Z) (k' : Socks5Client) : Prop :=
  c_in (k_conn k') = rest ∧ c_out (k_conn k') = c_out (k_conn k) ++ msg ∧ c_wbudget (k_conn k') = None ∧
  length (k_buf k') = MaxSocksBufferSize ∧ authMethod k' = m ∧ authInfo k' = authInfo k.

Lemma after_reply ch msg m buf : (length ch ≤ MaxSocksBufferSize)%nat → length buf = MaxSocksBufferSize →
  after msg m (SClient (Conn rest (c_rerr (k_conn k)) (c_out (k_conn k) ++ msg) None (c_werr (k_conn k)))
    (ch ++ drop (length ch) buf) m (authInfo k)).
Proof. intros H1 H2. unfold after. simpl. rewrite length_app, length_drop. split_and!; try done. lia. Qed.

Lemma negotiate_ok m : c_in (k_conn k) = [5; m] :: rest →
  ∃ k', client_negotiate k = (k', Ret tt) ∧ after (greeting defaultSupportMethods) m k'.
Proof.
  intros Hc. unfold client_negotiate. set (buf := copy_at _ _ _).
  assert (length buf = MaxSocksBufferSize) as Hl
    by (unfold buf; rewrite length_copy_at; rewrite !length_insert; [done|rewrite Hbuf; unfold MaxSocksBufferSize; lia]).
  rewrite (exchange_step _ _ _ _ (greeting defaultSupportMethods) [5; m] rest); [|..|done|done|].
  - eexists. split; [cbn; reflexivity|]. by apply (after_reply [5; m]); [unfold MaxSocksBufferSize; simpl; lia|].
  - unfold buf. rewrite take_copy_at; [|rewrite !length_insert, Hbuf; unfold MaxSocksBufferSize; simpl; lia|done].
    destruct (k_buf k) as [|x0 [|x1 l]]; done.
  - rewrite Hl. unfold MaxSocksBufferSize. simpl. lia.
Qed.

(** What [authentication] writes fits: two lengths of a byte each. *)
Lemma authentication_ok u p : authMethod k = 2 → authInfo k = Some (u, p) → (length u ≤ 255)%nat → (length p ≤ 255)%nat →
  c_in (k_conn k) = [1; 0] :: rest →
  ∃ k', authentication k = (k', Ret tt) ∧ after (credentials u p) 2 k'.
Proof.
  intros Hm Hi Hu Hp Hc. unfold authentication. rewrite Hm, Hi. cbn [Z.eqb Pos.eqb negb from_option id]. cbv zeta.
  rewrite Hbuf. unfold MaxSocksBufferSize. rewrite !Nat.min_l by lia.
  set (buf1 := copy_at _ _ u). set (buf2 := copy_at _ _ p).
  assert (length buf1 = MaxSocksBufferSize) as Hl1
    by (unfold buf1; rewrite length_copy_at; rewrite !length_insert, Hbuf; [done|unfold MaxSocksBufferSize; lia]).
  assert (length buf2 = MaxSocksBufferSize) as Hl2
    by (unfold buf2; rewrite length_copy_at; rewrite length_insert, Hl1; [done|unfold MaxSocksBufferSize; lia]).
  assert (take (2 + length u) buf1 = [1; Z.of_nat (length u)] ++ u) as Ht1.
  { unfold buf1. rewrite take_copy_at by (rewrite ?length_insert, ?Hbuf; unfold MaxSocksBufferSize; lia).
    f_equal. rewrite u8_id by (unfold is_byte; lia). by destruct (k_buf k) as [|x0 [|x1 l]]. }
  unfold mbind at 1, M_bind at 1, mlift. destruct (lookup_lt_is_Some_2 buf1 (2 + length u)) as [x Hx];
    [rewrite Hl1; unfold MaxSocksBufferSize; lia|]. unfold index. rewrite Hx.
  rewrite (exchange_step _ _ _ _ (credentials u p) [1; 0] rest); [|..|done|done|].
  - eexists. split; [cbn; rewrite Hm; reflexivity|].
    by apply (after_reply [1; 0]); [unfold MaxSocksBufferSize; simpl; lia|].
  - unfold buf2. rewrite take_copy_at by (rewrite ?length_insert, ?Hl1; unfold MaxSocksBufferSize; lia).
    replace (3 + length u)%nat with (S (2 + length u)) by lia.
    rewrite (take_S_r _ _ (u8 (Z.of_nat (length p)))) by (apply list_lookup_insert_eq; rewrite Hl1; unfold MaxSocksBufferSize; lia).
    rewrite take_insert_ge, Ht1 by lia. unfold credentials.
    rewrite u8_id by (unfold is_byte; lia). by rewrite <-!app_assoc.
  - rewrite Hl2. unfold MaxSocksBufferSize. simpl. lia.
Qed.

Lemma request_ok target cmd host port a : wf_bytes host → client_target target = (host, port) →
  ParseAddressFromHostPort host port (replicate 259 0) = Ret a → c_in (k_conn k) = connect_reply :: rest →
  ∃ k', client_request target cmd k = (k', Ret (str "0.0.0.0:0")) ∧ after ([5; cmd; 0] ++ a) (authMethod k) k'.
Proof.
  intros Hh Ht Ha Hc. pose proof (wf_addr_length a (HostPort_wf _ _ _ _ Hh Ha)) as Hla. unfold MaxAddressBufferSize in Hla.
  unfold client_request. rewrite Ht, Ha. unfold mbind at 1, M_bind at 1, mlift at 1. set (buf := copy_at _ _ a).
  assert (length buf = MaxSocksBufferSize) as Hl
    by (unfold buf; rewrite length_copy_at; rewrite !length_insert, Hbuf; [done|unfold MaxSocksBufferSize; lia]).
  rewrite (exchange_step _ _ _ _ ([5; cmd; 0] ++ a) connect_reply rest); [|..|done|done|].
  - eexists. split; [|by apply (after_reply connect_reply); [unfold MaxSocksBufferSize; simpl; lia|]].
    unfold connect_reply. cbn [length app]. unfold mbind, M_bind, mlift. cbn [drop].
    change (1 :: 0 :: 0 :: 0 :: 0 :: 0 :: 0 :: ?l) with ([1; 0; 0; 0; 0; 0; 0] ++ l).
    rewrite FromBuffer_wf; [by vm_compute|]. apply (wf_v4 [0; 0; 0; 0] 0); [done|repeat constructor; unfold is_byte; lia|lia].
  - unfold buf. rewrite take_copy_at by (rewrite ?length_insert, ?Hbuf; unfold MaxSocksBufferSize; lia).
    by destruct (k_buf k) as [|x0 [|x1 [|x2 l]]].
  - rewrite Hl. unfold MaxSocksBufferSize. simpl. lia.
Qed.
End Handshake.

Definition reply_chunks (au : option Auth) : list (list Z) :=
  [[5; method_of au]] ++ match au with Some _ => [[1; 0]] | None => [] end ++ [connect_reply].
(** The client's whole conversation for a CONNECT to the address [a]. *)
Definition conversation (au : option Auth) (u p : gostring) (a : list Z) : list Z :=
  (greeting defaultSupportMethods ++ login au u p) ++ [5; CONNECT; 0] ++ a.

Lemma handshake_ok au u p target host port a k later :
  (au ≠ None → authInfo k = Some (u, p) ∧ (length u ≤ 255)%nat ∧ (length p ≤ 255)%nat) → length (k_buf k) = MaxSocksBufferSize →
  c_wbudget (k_conn k) = None → c_in (k_conn k) = reply_chunks au ++ later →
  wf_bytes host → client_target target = (host, port) → ParseAddressFromHostPort host port (replicate 259 0) = Ret a →
  ∃ k', client_handshake target CONNECT k = (k', Ret (str "0.0.0.0:0")) ∧
    c_in (k_conn k') = later ∧ c_out (k_conn k') = c_out (k_conn k) ++ conversation au u p a.
Proof.
  intros Hau Hb Hw Hc Hh Ht Ha. unfold client_handshake, conversation.
  destruct (negotiate_ok k _ Hb Hw (method_of au) Hc) as (k1 & E1 & Hc1 & Ho1 & Hw1 & Hb1 & Hm1 & Hi1).
  unfold mbind at 1, M_bind at 1. rewrite E1.
  assert (∃ k2, authentication k1 = (k2, Ret tt) ∧ after k1 (connect_reply :: later) (login au u p) (method_of au) k2)
    as (k2 & E2 & Hc2 & Ho2 & Hw2 & Hb2 & Hm2 & Hi2).
  { destruct au as [au|]; [destruct (Hau ltac:(done)) as (Hi & Hu & Hp); apply authentication_ok; simpl in *; try done; congruence|].
    exists k1. unfold authentication. rewrite Hm1. split; [done|]. unfold after. simpl. rewrite app_nil_r. done. }
  unfold mbind at 1, M_bind at 1. rewrite E2.
  destruct (request_ok k2 later Hb2 Hw2 target CONNECT host port a Hh Ht Ha Hc2) as (k3 & E3 & Hc3 & Ho3 & _).
  exists k3. split_and!; [done|done|]. by rewrite Ho3, Ho2, Ho1, <-!app_assoc.
Qed.

(** The host the server reads: the canonical text of an IP address, or the domain. *)
Definition wire_host (host : gostring) : gostring := match net_ParseIP host with Some ip => IP_String ip | None => host end.

(** What is asked for is what the target says, when it is a host without colons and a port. *)
Lemma client_target_ok host port : 58 ∉ host → 0 ≤ port ≤ 65535 → client_target (host ++ str ":" ++ itoa port) = (host, port).
Proof.
  intros Hh Hp. unfold client_target. change (host ++ str ":" ++ itoa port) with (host ++ 58 :: itoa port).
  assert (58 ∉ itoa port) as Hi.
  { intros Hin. unfold itoa in Hin. rewrite (proj2 (Z.ltb_ge _ _)) in Hin by lia. pose proof (dec_digits port ltac:(lia)) as Hd.
    rewrite Forall_forall in Hd. by apply Hd in Hin. }
  rewrite split_byte_app, !split_byte_nosep by done. cbn [app]. rewrite atoi_itoa; [done|]. unfold max_int. lia.
Qed.

(** C11 (functional): the two ends of a SOCKS5 conversation agree on a target [host:port], where the host has no colon (a domain or an
    IPv4 address; an IPv6 target is cut at its first colon, [target_ipv6_cut]) and the port is at most 65535. A client
    that has the credentials (each at most 255 bytes) if the server asks for them, and any client if not, and to which the
    server's answers arrive message by message, sends exactly one conversation and returns the bound address; and a server that
    reads this conversation, in whatever pieces, without interception, with rules that accept the host (in canonical
    form, for an IP address) and select a proxy, answers exactly those messages and hands what follows to that proxy with
    the host the rules give and the target's port. Writes do not fail. *)
Theorem socks_client_served {R} `{!EnhancerOps R} LookupHost db_Country ListenLocalUDP InvokePacket
    au u p host port a k later c r ru rest r' h ru' h' proxy :
  login_ok au u p → (au ≠ None → authInfo k = Some (u, p) ∧ (length u ≤ 255)%nat ∧ (length p ≤ 255)%nat) →
  length (k_buf k) = MaxSocksBufferSize → c_wbudget (k_conn k) = None → c_in (k_conn k) = reply_chunks au ++ later →
  wf_bytes host → 58 ∉ host → 0 ≤ port ≤ 65535 → ParseAddressFromHostPort host port (replicate 259 0) = Ret a →
  c_wbudget c = None → pending c = conversation au u p a ++ rest →
  target_host (wire_host host) r = (r', Ret h) →
  Ruler_Match LookupHost db_Country h ru = (ru', h', Ret true) → Rule.Select ru' = Ret proxy →
  (∃ k', client_handshake (host ++ str ":" ++ itoa port) CONNECT k = (k', Ret (str "0.0.0.0:0")) ∧
     c_in (k_conn k') = later ∧ c_out (k_conn k') = c_out (k_conn k) ++ conversation au u p a) ∧
  ends (R := R) r' ru' rest (c_out c ++ concat (reply_chunks au)) (Ret (Some (ToProxy proxy (JoinHostPort h' (itoa port)))))
    (ServeTCP LookupHost db_Country ListenLocalUDP InvokePacket false au (World c r ru)).
Proof.
  intros Hl Hau Hb Hw Hc Hh Hcol Hport Ha Hwc Hpc Hth Hm Hs. pose proof (client_target_ok host port Hcol Hport) as Ht. split.
  - eapply handshake_ok; done.
  - destruct (HostPort_fields _ _ _ _ Hh Ha) as [<- Hha]. unfold wire_host in Hth. rewrite <-Hha in Hth.
    replace (concat (reply_chunks au)) with (([5; method_of au] ++ login_reply au) ++ connect_reply) by (by destruct au).
    eapply (connect_run_served _ _ _ _ false au defaultSupportMethods); try done; [unfold defaultSupportMethods; simpl; lia|by eapply HostPort_wf|].
    rewrite Hpc. unfold conversation. rewrite <-!(assoc_L (++)). done.
Qed.

(** *** Where the client is not a SOCKS5 client *)

(** An answer of which the first byte arrives alone: the method is taken from what
    the client itself wrote there, the number of its methods. *)
Lemma negotiate_split_answer k rest : length (k_buf k) = MaxSocksBufferSize → c_wbudget (k_conn k) = None →
  c_in (k_conn k) = [5] :: rest →
  ∃ k', client_negotiate k = (k', Ret tt) ∧ authMethod k' = 2 ∧ c_in (k_conn k') = rest.
Proof.
  intros Hb Hw Hc. unfold client_negotiate.
  rewrite (exchange_step _ _ _ _ (greeting defaultSupportMethods) [5] rest); [|..|done|done|].
  - destruct (k_buf k) as [|x0 [|x1 l]]; [done..|]. eexists. split; [cbn; reflexivity|]. done.
  - rewrite take_copy_at; [|rewrite !length_insert, Hb; unfold MaxSocksBufferSize; simpl; lia|done].
    destruct (k_buf k) as [|x0 [|x1 l]]; done.
  - rewrite length_copy_at; rewrite !length_insert, Hb; unfold MaxSocksBufferSize; simpl; lia.
Qed.

(** The answer "no acceptable methods" (0xFF) is taken for a method without
    authentication, and the request is sent. *)
Lemma no_acceptable_ignored k rest : length (k_buf k) = MaxSocksBufferSize → c_wbudget (k_conn k) = None →
  c_in (k_conn k) = [5; 255] :: rest →
  ∃ k', (client_negotiate ≫= λ _, authentication) k = (k', Ret tt) ∧ c_in (k_conn k') = rest.
Proof.
  intros Hb Hw Hc. destruct (negotiate_ok k rest Hb Hw 255 Hc) as (k1 & E1 & Hc1 & Ho1 & Hw1 & Hb1 & Hm1 & Hi1).
  exists k1. split; [|done]. unfold mbind, M_bind. rewrite E1. unfold authentication. by rewrite Hm1.
Qed.

(** An IPv6 target is cut at its first colon. *)
Lemma target_ipv6_cut : client_target (str "[2001:db8::1]:443") = (str "[2001", 0).
Proof. vm_compute. reflexivity. Qed.

(** A target that does not resolve locally: the handshake has succeeded, [Dial] fails
    with the connection open, and [Close] then panics. *)
Lemma dial_unresolved cl c addr k' ba e ResolveTCP :
  client_handshake addr CONNECT (SClient c (k_buf (cl_sock cl)) (authMethod (cl_sock cl)) (authInfo (cl_sock cl))) = (k', Ret ba) →
  ResolveTCP addr = inr e →
  let '(cl', x) := Dial (Ret c) ResolveTCP addr cl in
  x = Fail e ∧ cl_open cl' = true ∧ snd (Close cl') = Panic ∧ cl_open (fst (Close cl')) = true.
Proof.
  intros E He. unfold Dial, mbind, M_bind, dial_handshake. rewrite E. unfold keep_tcp, newTcpConnWrapper. rewrite He. done.
Qed.

(** [Close] after a [Dial] that worked, or whose handshake failed, leaves nothing open. *)
Lemma dial_close_closed dial ResolveTCP addr cl cl' x : cl_udpConn cl = NoConn → cl_udp_open cl = false → cl_open cl = false → cl_conn cl = NoConn →
  (∀ t, ∃ a, ResolveTCP t = inl a) → Dial dial ResolveTCP addr cl = (cl', x) →
  snd (Close cl') = Ret tt ∧ cl_open (fst (Close cl')) = false ∧ cl_udp_open (fst (Close cl')) = false.
Proof.
  intros Hu Huo Ho Hcn HR. unfold Dial, mbind, M_bind, dial_handshake. destruct dial as [c|e|].
  - destruct (client_handshake _ _ _) as [k [b|e|]]; unfold keep_tcp, newTcpConnWrapper; [destruct (HR addr) as [a ->]|..];
      intros [= <- <-]; unfold Close; simpl; rewrite Hu, Huo; simpl; done.
  - intros [= <- <-]. unfold Close. rewrite Hu, Huo, Ho, Hcn. done.
  - intros [= <- <-]. unfold Close. rewrite Hu, Huo, Ho, Hcn. done.
Qed.

(** *** Witnesses *)

Definition demo_sclient : Socks5Client :=
  SetSocksAuth (str "user") (str "pass") (NewSocks5Client (Conn (reply_chunks (Some demo_auth)) io_EOF [] None io_EOF)).
Definition demo_sserver : conn :=
  Conn ((λ x, [x]) <$> (conversation (Some demo_auth) (str "user") (str "pass") demo_dst ++ [22; 3; 1])) io_EOF [] None io_EOF.

Lemma socks_client_served_witness :
  ends (R := unit) tt (MkRuler Direct (Some (auto_item Direct)) [] (str "direct-out") []) [22; 3; 1]
    ([5; 2; 1; 0] ++ connect_reply) (Ret (Some (ToProxy (str "direct-out") (str "a.b.com:443"))))
    (ServeTCP no_lookup no_country (Fail io_EOF) (λ _, Ret tt) false (Some demo_auth) (World demo_sserver tt demo_direct)).
Proof.
  refine (proj2 (socks_client_served no_lookup no_country (Fail io_EOF) (λ _, Ret tt) (Some demo_auth) (str "user") (str "pass")
    (str "a.b.com") 443 demo_dst demo_sclient [] demo_sserver tt demo_direct [22; 3; 1] tt (str "a.b.com")
    _ (str "a.b.com") (str "direct-out") _ _ _ _ _ _ _ _ _ _ _ _ _ _)); try reflexivity; try (vm_compute; lia).
  - intros _. split_and!; [reflexivity|vm_compute; lia..].
  - unfold str. apply bytes_of_string_wf.
  - apply contains_byte_false. reflexivity.
  - lia.
Defined.
