(* ===== verification/Enhancer.v ===== *)
(** * Package enhancer: connections that arrive on the TUN device.

    Models [src/enhancer/handler.go] (both connection handlers and the DNS
    hijacking, over TCP and UDP) and [src/enhancer/enhancer.go] (starting and
    stopping), on top of Resolver.v, FakeIP.v and Rule.v. The user-space network
    stack, the DNS message codec and the proxies are parameters. A handler's panic
    is recovered at its top, where it is logged and no error is returned. *)
From S2P Require Import Prelude GoIO GoNet Cache IPPool FakeIP Resolver Rule.
Local Open Scope Z_scope.

Abbreviation AddrPort := (Addr * Z)%type.

(** [netip.Addr.IsLoopback] (an IPv4-mapped address is unmapped first) and
    [IsUnspecified]. *)
Definition IsLoopback (a : Addr) : bool :=
  match a with
  | Addr4 b => byte_at b 0 =? 127
  | Addr6 b _ => if bool_decide (take 12 b = v4_in_v6_prefix) then byte_at b 12 =? 127
                 else bool_decide (b = replicate 15 0 ++ [1])
  | AddrNone => false
  end.
Definition IsUnspecified (a : Addr) : bool :=
  bool_decide (a = Addr4 [0; 0; 0; 0]) || bool_decide (a = Addr6 (replicate 16 0) []).

(** [netip.AddrPort.String]. *)
Definition AddrPort_String (ap : AddrPort) : gostring :=
  match ap.1 with
  | AddrNone => str "invalid AddrPort"
  | Addr4 _ => Addr_String ap.1 ++ str ":" ++ itoa ap.2
  | Addr6 _ _ => str "[" ++ Addr_String ap.1 ++ str "]:" ++ itoa ap.2
  end.

(** [bufferpool.NewBufferPool(4096 * 2)]. *)
Definition dnsBufferSize : nat := Z.to_nat (4096 * 2).
#[global] Opaque dnsBufferSize.

Section Handler.
Context {Msg : Type}
  (question : Msg → option (gostring * Z * Z)) (Answer : Msg → list RR)
  (emptyMsg : Msg) (SetReply : Msg → Msg → Msg) (Fqdn : gostring → gostring)
  (appendA appendAAAA : Msg → gostring → Z → list Z → Msg)
  (** [Msg.Unpack] and [Msg.PackBuffer]. *)
  (Unpack : list Z → res Msg) (PackBuffer : Msg → res (list Z)).
Context {C1 C2 : Type} `{!CacheOps gostring nat C1, !CacheOps Addr nat C2}.
Context (hostsMap : gmap gostring (list Addr)) (lookupIPWithMsg : Msg → res Msg) (DefaultDomainFilter : list gostring).
Context (LookupHost : gostring → Addr) (db_Country : Addr → option gostring).

(** The state a handler works on: the default resolver and the shared ruler. *)
Record tunWorld := TunWorld { tw_res : Resolver Msg C1 C2; tw_ruler : Ruler }.
Definition set_res (r : Resolver Msg C1 C2) (w : tunWorld) : tunWorld := TunWorld r (tw_ruler w).

(** The owner's configuration the handler reads. *)
Record tunConfig := TunConfig { dnsAddress : Addr; fakeDnsPort : Z; DnsHijack : list AddrPort }.

Definition isNeedHijackDNS (c : tunConfig) (addr : AddrPort) : bool :=
  if IsLoopback addr.1 && (addr.2 =? 53) then true else
  if (addr.2 =? u16 (fakeDnsPort c)) && bool_decide (addr.1 = dnsAddress c) then true else
  existsb (λ dns, bool_decide (addr = dns) || (IsUnspecified dns.1 && (addr.2 =? 53))) (DnsHijack c).

(** [resolver.DefaultResolver.Query(&req)]. *)
Definition ask (req : Msg) (now : Z) : M tunWorld Msg := λ w,
  let '(r, x) := Query question emptyMsg SetReply Fqdn appendA appendAAAA hostsMap lookupIPWithMsg DefaultDomainFilter
                   req now (tw_res w) in (set_res r w, x).

(** [hijackDNSForTCP(conn)]: a message with a length in front, answered alike. *)
Definition hijackDNSForTCP (now : Z) (c : conn) (w : tunWorld) : conn * tunWorld * res unit :=
  match read_full 2 c with
  | (c1, Ret h) =>
      let n := Z.to_nat (get_be16 h) in
      if (dnsBufferSize <? n)%nat then (c1, w, Panic) else
      match read_full n c1 with
      | (c2, Ret d) =>
          match (req ← mlift (Unpack d); reply ← ask req now; mlift (PackBuffer reply)) w with
          | (w1, Ret data) =>
              let n := Z.of_nat (length data) in
              match conn_write [u8 (Z.shiftr n 8); u8 n] c2 with
              | (c3, (_, Some e)) => (c3, w1, Fail e)
              | (c3, (_, None)) => (conn_write_ data c3, w1, Ret tt)
              end
          | (w1, Fail e) => (c2, w1, Fail e)
          | (w1, Panic) => (c2, w1, Panic)
          end
      | (c2, Fail e) => (c2, w, Fail e)
      | (c2, Panic) => (c2, w, Panic)
      end
  | (c1, Fail e) => (c1, w, Fail e)
  | (c1, Panic) => (c1, w, Panic)
  end.

(** [hijackDNSForUDP(conn)]: one datagram. *)
Definition hijackDNSForUDP {A} (now : Z) (c : pconn A) (w : tunWorld) : pconn A * tunWorld * res unit :=
  match pconn_read dnsBufferSize c with
  | (c1, Ret (d, srcAddr)) =>
      match (req ← mlift (Unpack d); reply ← ask req now; mlift (PackBuffer reply)) w with
      | (w1, Ret data) => ((pconn_write data srcAddr c1).1, w1, Ret tt)
      | (w1, Fail e) => (c1, w1, Fail e)
      | (w1, Panic) => (c1, w1, Panic)
      end
  | (c1, Fail e) => (c1, w, Fail e)
  | (c1, Panic) => (c1, w, Panic)
  end.

(** [IsFakeIP] and [FindByIP] of the embedded fake-IP resolver; the domain. *)
Definition IsFakeIP_ (ip : Addr) : M tunWorld bool := λ w,
  (w, match fakeip (tw_res w) with Some f => IsFakeIP f ip | None => Panic end).
Definition find_domain (ip : Addr) (now : Z) : M tunWorld gostring := λ w,
  let r := tw_res w in
  match fakeip r with
  | None => (w, Panic)
  | Some f =>
      let '(f1, x) := FindByIP ip now f in
      (set_res (with_fakeip (Some f1) r) w,
       i ← x; rec ← deref f1 i; Ret (Domain rec))
  end.
Definition match_rule (remote : gostring) : M tunWorld gostring := λ w,
  let '(ru, remote', x) := Ruler_Match LookupHost db_Country remote (tw_ruler w) in
  (TunWorld (tw_res w) ru,
   ok ← x; if (ok : bool) then Ret remote' else Fail ErrRuleMatchDropped).
Definition select_rule : M tunWorld gostring := λ w, (w, Select (tw_ruler w)).

(** [HandleTCPConnection] for a destination that is not hijacked: the proxy the
    connection is handed to and the remote address. *)
Definition route_tcp (dst : AddrPort) (now : Z) : M tunWorld (gostring * gostring) :=
  fake ← IsFakeIP_ dst.1;
  remote0 ← (if (fake : bool) then find_domain dst.1 now else mret (Addr_String dst.1));
  remote ← match_rule remote0;
  proxy ← select_rule;
  mret (proxy, JoinHostPort remote (itoa dst.2)).

(** [HandleUDPConnection] likewise; a datagram to a fake address is dropped. *)
Definition route_udp (dst : AddrPort) : M tunWorld (option (gostring * gostring)) :=
  fake ← IsFakeIP_ dst.1;
  if (fake : bool) then mret None else
  _ ← match_rule (Addr_String dst.1);
  proxy ← select_rule;
  mret (Some (proxy, AddrPort_String dst)).

(** What a handler comes to. *)
Inductive handled := Hijacked | Routed (proxy addr : gostring) | Ignored | Recovered.

(** The deferred [recover]: a panic is swallowed and no error returned. *)
Definition recovering {S} (x : S * res handled) : S * res handled :=
  match x with (s, Panic) => (s, Ret Recovered) | _ => x end.

Definition HandleTCPConnection (cfg : tunConfig) (dst : AddrPort) (now : Z) (c : conn) (w : tunWorld)
    : (conn * tunWorld) * res handled :=
  recovering
    (if isNeedHijackDNS cfg dst then
       let '(c1, w1, x) := hijackDNSForTCP now c w in ((c1, w1), _ ← x; Ret Hijacked)
     else
       let '(w1, x) := route_tcp dst now w in ((c, w1), '(proxy, addr) ← x; Ret (Routed proxy addr))).

Definition HandleUDPConnection {A} (cfg : tunConfig) (dst : AddrPort) (now : Z) (c : pconn A) (w : tunWorld)
    : (pconn A * tunWorld) * res handled :=
  recovering
    (if isNeedHijackDNS cfg dst then
       let '(c1, w1, x) := hijackDNSForUDP now c w in ((c1, w1), _ ← x; Ret Hijacked)
     else
       let '(w1, x) := route_udp dst w in
       ((c, w1), o ← x; Ret (match o with Some (proxy, addr) => Routed proxy addr | None => Ignored end))).

(** ** [Start] and [Close] *)

(** What happens to the device, the stack and the DNS server. *)
Inductive tunEvent :=
| DeviceCreated (p : Prefix) | StackStarted | DnsServing (port : Z) | DnsSetUp (a : Addr)
| DnsTornDown | DnsStopped | StackClosed.

Record Enhancer := MkEnhancer {
  eh_dnsAddress : Addr;
  Inet4Address : list (option Prefix);
  DisableRewrite : bool;
  eh_fakeDnsPort : Z;
  eh_DnsHijack : list AddrPort;
  running : bool;
}.
Definition NewEnhancer (inet4 : list (option Prefix)) (FakeDNS : gostring) (disableRewrite : bool) (dnsHijack : list AddrPort) : Enhancer :=
  MkEnhancer AddrNone inet4 disableRewrite (NewDnsServer_port FakeDNS) dnsHijack false.
(** The owner as the handler sees it. *)
Definition eh_config (eh : Enhancer) : tunConfig := TunConfig (eh_dnsAddress eh) (eh_fakeDnsPort eh) (eh_DnsHijack eh).
Definition set_inet4 (l : list (option Prefix)) (eh : Enhancer) : Enhancer :=
  MkEnhancer (eh_dnsAddress eh) l (DisableRewrite eh) (eh_fakeDnsPort eh) (eh_DnsHijack eh) (running eh).
Definition set_running (a : Addr) (b : bool) (eh : Enhancer) : Enhancer :=
  MkEnhancer a (Inet4Address eh) (DisableRewrite eh) (eh_fakeDnsPort eh) (eh_DnsHijack eh) b.

(** The outcomes of the device and of the network stack. *)
Record tunDriver := TunDriver {
  NewTunDevice : Prefix → option error; NewStack : option error; StackStart : option error; StackClose : option error }.

Record ehState := EhState { es_eh : Enhancer; es_world : tunWorld; es_log : list tunEvent }.

Definition Start (d : tunDriver) (s : ehState) : ehState * res unit :=
  let '(EhState eh w log) := s in
  if running eh then (s, Ret tt) else
  match Inet4Address eh with
  | [] => (s, Panic)
  | cidr :: rest =>
      match EnableEnhancerMode cidr (tw_res w) with
      | (r, Panic) => (EhState eh (set_res r w) log, Panic)
      | (r, Fail e) => (EhState eh (set_res r w) log, Fail e)
      | (r, Ret _) =>
          match fakeip r with
          | None => (s, Panic)
          | Some f =>
              let w1 := set_res r w in
              let prefix := GetAllocatedTunPrefix f in
              let eh1 := set_inet4 (Some prefix :: rest) eh in
              match NewTunDevice d prefix with
              | Some e => (EhState eh1 w1 log, Fail e)
              | None =>
                  let log1 := log ++ [DeviceCreated prefix] in
                  match NewStack d with
                  | Some e => (EhState eh1 w1 log1, Fail e)
                  | None =>
                      match StackStart d with
                      | Some e => (EhState eh1 w1 log1, Fail e)
                      | None =>
                          let dns := GetAllocatedDnsIP f in
                          let setup := if negb (DisableRewrite eh) && IsValid dns then [DnsSetUp dns] else [] in
                          (EhState (set_running dns true eh1) w1
                             (log1 ++ [StackStarted; DnsServing (eh_fakeDnsPort eh)] ++ setup), Ret tt)
                      end
                  end
              end
          end
      end
  end.

Definition Close (d : tunDriver) (s : ehState) : ehState * option error :=
  let '(EhState eh w log) := s in
  if negb (running eh) then (s, None) else
  let teardown := if DisableRewrite eh then [] else [DnsTornDown] in
  (EhState (set_running (eh_dnsAddress eh) false eh) w (log ++ teardown ++ [DnsStopped; StackClosed]), StackClose d).
End Handler.
Arguments tunWorld : clear implicits.
Arguments ehState : clear implicits.


Section Proofs.
Context {Msg : Type} (question : Msg → option (gostring * Z * Z)) (emptyMsg : Msg) (SetReply : Msg → Msg → Msg)
  (Fqdn : gostring → gostring) (appendA appendAAAA : Msg → gostring → Z → list Z → Msg)
  (Unpack : list Z → res Msg) (PackBuffer : Msg → res (list Z)).
Context {C1 C2 : Type} `{!CacheOps gostring nat C1, !CacheOps Addr nat C2} `{!CacheLaws gostring nat C1, !CacheLaws Addr nat C2}.
Context (hostsMap : gmap gostring (list Addr)) (lookupIPWithMsg : Msg → res Msg) (DefaultDomainFilter : list gostring).
Context (LookupHost : gostring → Addr) (db_Country : Addr → option gostring).
Abbreviation HandleTCP := (HandleTCPConnection question emptyMsg SetReply Fqdn appendA appendAAAA Unpack PackBuffer
  hostsMap lookupIPWithMsg DefaultDomainFilter LookupHost db_Country).
Abbreviation HandleUDP := (HandleUDPConnection question emptyMsg SetReply Fqdn appendA appendAAAA Unpack PackBuffer
  hostsMap lookupIPWithMsg DefaultDomainFilter LookupHost db_Country).
Abbreviation ask_ := (ask question emptyMsg SetReply Fqdn appendA appendAAAA hostsMap lookupIPWithMsg DefaultDomainFilter).
Implicit Types (w : tunWorld Msg C1 C2) (f : fakeIPResolver Msg C1 C2).

(** Matching and selecting. *)
Lemma match_select target w :
  ∃ ru, same_rules ru (tw_ruler w) ∧
    (remote ← match_rule LookupHost db_Country target; proxy ← select_rule; mret (proxy, remote)) w =
    (TunWorld (tw_res w) ru, routed LookupHost db_Country (tw_ruler w) target).
Proof.
  unfold mbind, M_bind, match_rule, select_rule, mret, M_ret, routed.
  destruct (Ruler_Match LookupHost db_Country target (tw_ruler w)) as [[ru t] ok] eqn:E.
  pose proof (Ruler_Match_same _ _ _ _ _ _ _ E) as Hs. apply Ruler_Match_decision in E. exists ru. split; [done|].
  destruct (decision LookupHost db_Country (tw_ruler w) target) as [h [[ri|]|e|]].
  - destruct E as (-> & Hm & ->). cbn [mbind res_bind]. destruct (Accept ri); [|done]. simpl.
    rewrite (Select_same _ _ _ Hs Hm). by destruct (Select _).
  - destruct E as (-> & _ & ->). done.
  - destruct E as (-> & _ & ->). done.
  - destruct E as (-> & _ & ->). done.
Qed.

(** A query the hosts file and the filter leave to the fake-IP resolver. *)
Lemma ask_fake req name now w f f1 m :
  fakeip (tw_res w) = Some f → question req = Some (name, TypeA, ClassINET) →
  IsValid (hosts_LookupIP hostsMap (TrimDomain name)) = false → matchDomainFilter DefaultDomainFilter name = false →
  query (question_name question) emptyMsg SetReply Fqdn appendA req now f = (f1, m) →
  ask_ req now w = (set_res (with_fakeip (Some f1) (tw_res w)) w, m).
Proof.
  intros Hf Hq Hh Hd HQ. unfold ask, Query, lookupHostsFile. unfold question_name at 1. rewrite Hq. simpl. rewrite Hh. simpl.
  by rewrite Hd, Hf, HQ.
Qed.

(** A connection to the address of a record the resolver knows. *)
Lemma route_fake f f2 i rec ip port now w :
  fakeip (tw_res w) = Some f → IsFakeIP f ip = Ret true → FindByIP ip now f = (f2, Ret i) → records f2 !! i = Some rec →
  ∃ w2, route_tcp LookupHost db_Country (ip, port) now w =
    (w2, '(p, h) ← routed LookupHost db_Country (tw_ruler w) (Domain rec); Ret (p, JoinHostPort h (itoa port))).
Proof.
  intros Hf Hi Hfd Hrec. unfold route_tcp. unfold mbind at 1, M_bind. unfold IsFakeIP_. cbn [fst snd].
  rewrite Hf, Hi. unfold mbind at 1, M_bind. unfold find_domain. rewrite Hf, Hfd. unfold deref. cbn [mbind res_bind].
  rewrite Hrec. cbn [mbind res_bind].
  set (w1 := set_res _ w). destruct (match_select (Domain rec) w1) as (ru & _ & H). exists (TunWorld (tw_res w1) ru).
  change (tw_ruler w1) with (tw_ruler w) in H. revert H. unfold mbind, M_bind.
  destruct (match_rule LookupHost db_Country (Domain rec) w1) as [w2 [h|e|]].
  - unfold select_rule. unfold mret, M_ret. destruct (Select (tw_ruler w2)) as [p|e|]; intros [= -> <-]; done.
  - intros [= -> <-]. done.
  - intros [= -> <-]. done.
Qed.

(** A name resolved through the TUN device is reached by that name. When a
    hijacked datagram asks for the A record of a name that is neither in the hosts
    file nor filtered nor already cached, and the pool has a free address, exactly
    one datagram goes back to its sender, with an address of the pool that no other
    name has; and for as long as the record lives, a TCP connection to this address
    is handled as the rules say for the NAME: it is dropped, or handed to the proxy
    they select, with that name and the connection's port as the remote address. *)
Lemma tun_named {A} b n w f cfg dns port now now' d rest (src : A) rerr outs req name data :
  length b = 4%nat → wf_bytes b → 0 ≤ n ≤ 31 → be_int b < 2 ^ 32 - 1 → fakeip (tw_res w) = Some f →
  reachable (question_name question) emptyMsg SetReply Fqdn appendA (Addr4 b, n) f →
  isNeedHijackDNS cfg dns = true → (∀ a, isNeedHijackDNS cfg (a, port) = false) →
  Unpack (take dnsBufferSize d) = Ret req → question req = Some (name, TypeA, ClassINET) →
  IsValid (hosts_LookupIP hostsMap (TrimDomain name)) = false → matchDomainFilter DefaultDomainFilter name = false →
  TrimDomain name ∉ (hosts f).*1 → (0 < Available (pool f))%nat →
  (∀ ip, PackBuffer (fake_reply emptyMsg SetReply Fqdn appendA (TrimDomain name) req ip) = Ret (data ip)) →
  now' < now + DefaultFakeIPDnsRecordTTL →
  ∃ ip w1 w2,
    HandleUDP cfg dns now (PConn ((d, src) :: rest) rerr outs None) w =
      ((PConn rest rerr (outs ++ [(data ip, src)]) None, w1), Ret Hijacked) ∧
    IsAvailable (pool f) ip = Ret true ∧
    ∀ c, HandleTCP cfg (ip, port) now' c w1 =
      recovering ((c, w2), '(p, h) ← routed LookupHost db_Country (tw_ruler w) (TrimDomain name);
                           Ret (Routed p (JoinHostPort h (itoa port)))).
Proof.
  intros Hl Hw Hn Hmax Hf Hreach Hdns Hport Hun Hq Hhosts Hfilter Habs Hav Hpack Hnow.
  destruct (query (question_name question) emptyMsg SetReply Fqdn appendA req now f) as [f1 m] eqn:HQ.
  destruct (query_finds (question_name question) emptyMsg SetReply Fqdn appendA b n f req name now now' f1 m)
    as (i & rec & f2 & -> & Hrep & Hfree & Hfind & Hrec & Hdom & Hfake); try done.
  { unfold question_name. by rewrite Hq. }
  set (w1 := set_res (with_fakeip (Some f1) (tw_res w)) w).
  destruct (route_fake f1 f2 i rec (FakeIP rec) port now' w1) as [w2 Hroute]; try done.
  exists (FakeIP rec), w1, w2. split_and!; [|done|].
  - unfold HandleUDPConnection. rewrite Hdns. unfold hijackDNSForUDP, pconn_read. cbn [pk_in pk_rerr pk_out pk_werr].
    unfold mbind at 1, M_bind. unfold mlift at 1. rewrite Hun. unfold mbind at 1, M_bind.
    rewrite (ask_fake req name now w f f1 (Ret (Reply rec))) by done. unfold mlift. rewrite Hrep, Hpack. done.
  - intros c. unfold HandleTCPConnection. rewrite Hport, Hroute, Hdom. change (tw_ruler w1) with (tw_ruler w).
    by destruct (routed LookupHost db_Country (tw_ruler w) (TrimDomain name)) as [[p h]|e|].
Qed.

(** (error): a DNS message over TCP longer than the handler's buffer, which its two
    length bytes allow, makes the handler panic before it reads the message; the panic is
    recovered and the query gets no answer. *)
Theorem hijack_tcp_too_long cfg dns now h l rest c w :
  isNeedHijackDNS cfg dns = true → pending c = h :: l :: rest → Z.of_nat dnsBufferSize < get_be16 [h; l] →
  ∃ c1, HandleTCP cfg dns now c w = ((c1, w), Ret Recovered) ∧ pending c1 = rest ∧ c_out c1 = c_out c.
Proof.
  intros Hd Hp Hlen. unfold HandleTCPConnection. rewrite Hd. unfold hijackDNSForTCP.
  destruct (read_full_app 2 c [h; l] rest) as (c1 & -> & Hq & _ & Ho & _); [done|done|].
  rewrite (proj2 (Nat.ltb_lt _ _)) by lia. exists c1. done.
Qed.

(** ** Starting and stopping *)
Abbreviation Start_ := (Start (Msg := Msg) (C1 := C1) (C2 := C2)).
Abbreviation Close_ := (Close (Msg := Msg) (C1 := C1) (C2 := C2)).

(** (invariant): the life cycle. Starting a stopped enhancer on an IPv4 prefix, with a
    device and a stack that come up, makes it run with the resolver's tun prefix on
    the device and the resolver's DNS address as the one whose queries it hijacks; starting it
    again changes nothing; closing and starting again puts the same prefix and DNS
    address in use, with a resolver as new; closing twice is closing once. *)
Theorem enhancer_life_cycle d d' eh w log b n rest :
  length b = 4%nat → wf_bytes b → 0 ≤ n ≤ 31 → be_int b < 2 ^ 32 - 1 →
  running eh = false → Inet4Address eh = Some (Addr4 b, n) :: rest →
  (∀ p, NewTunDevice d p = None) → NewStack d = None → StackStart d = None →
  ∃ s f, Start_ d (EhState eh w log) = (s, Ret tt) ∧
    fakeip (tw_res (es_world s)) = Some f ∧ hosts f = [] ∧ running (es_eh s) = true ∧
    Inet4Address (es_eh s) = Some (tunPrefix f) :: rest ∧ dnsAddress (eh_config (es_eh s)) = dnsIP f ∧
    isNeedHijackDNS (eh_config (es_eh s)) (dnsIP f, u16 (eh_fakeDnsPort eh)) = true ∧
    Start_ d' s = (s, Ret tt) ∧
    ∃ s1 s2, Close_ d' s = (s1, StackClose d') ∧ running (es_eh s1) = false ∧ Close_ d' s1 = (s1, None) ∧
      Start_ d s1 = (s2, Ret tt) ∧ es_eh s2 = es_eh s ∧ es_world s2 = es_world s.
Proof.
  intros Hl Hw Hn Hmax Hrun Hin Hdev Hst Hss.
  destruct (newFakeIPResolver_ok (Msg := Msg) (C1 := C1) (C2 := C2) b n Hl Hw Hn Hmax) as (f & tunv & dnsv & E & HF & _ & Hh & _).
  pose proof (newFakeIPResolver_again b n f Hl Hw Hn Hmax E) as E2.
  destruct eh as [a in4 dis port hij run]. cbn [running Inet4Address eh_fakeDnsPort] in *. subst run in4.
  do 2 eexists. split.
  { unfold Start. cbn [running Inet4Address]. unfold EnableEnhancerMode. rewrite E. cbn [fakeip with_fakeip].
    rewrite Hdev, Hst, Hss. reflexivity. }
  cbn [es_world es_eh]. split; [reflexivity|]. split_and!; try done.
  - unfold isNeedHijackDNS. cbn. case_match; [done|]. by rewrite Z.eqb_refl, bool_decide_true.
  - do 2 eexists. split; [reflexivity|]. split; [done|]. split; [done|]. split.
    { unfold Start. cbn [running set_running set_inet4 Inet4Address negb]. unfold EnableEnhancerMode, GetAllocatedTunPrefix.
      rewrite E2. cbn [fakeip with_fakeip]. rewrite Hdev, Hst, Hss. reflexivity. }
    done.
Qed.
End Proofs.

(** ** A concrete world: a DNS message is a name; every datagram is one *)
Module TunDemo.
Definition question_ (m : gostring) : option (gostring * Z * Z) := Some (m, TypeA, ClassINET).
Definition world : tunWorld gostring Demo.C1 Demo.C2 := TunWorld (MkResolver_ (Some Demo.r1) [] ∅ true) demo_ruler.
Definition cfg : tunConfig := TunConfig (Addr4 [198; 18; 0; 2]) 53 [(Addr4 [0; 0; 0; 0], 53)].
Definition drv : tunDriver := TunDriver (λ _, None) None None None.
Definition eh : Enhancer := NewEnhancer [Some (Addr4 [198; 18; 0; 0], 16)] (str ":10053") false [].
End TunDemo.

Lemma demo_port a : isNeedHijackDNS TunDemo.cfg (a, 443) = false.
Proof. unfold isNeedHijackDNS. simpl. rewrite !andb_false_r. by rewrite bool_decide_false by congruence. Qed.
Lemma demo_routed : routed no_lookup no_country demo_ruler (str "www.google.com") = Ret (str "proxy-g", str "www.google.com").
Proof. vm_compute. reflexivity. Qed.

Lemma hijack_tcp_too_long_witness :
  ∃ c1, HandleTCPConnection TunDemo.question_ [] Demo.set_reply Demo.fqdn Demo.append_a Demo.append_a Ret Ret ∅ Ret []
    no_lookup no_country TunDemo.cfg (Addr4 [8; 8; 8; 8], 53) 0 (Conn [[32; 1; 5]] io_EOF [] None io_EOF) TunDemo.world =
    ((c1, TunDemo.world), Ret Recovered).
Proof.
  edestruct (hijack_tcp_too_long TunDemo.question_ [] Demo.set_reply Demo.fqdn Demo.append_a Demo.append_a Ret Ret ∅ Ret []
    no_lookup no_country TunDemo.cfg (Addr4 [8; 8; 8; 8], 53) 0 32 1 [5] (Conn [[32; 1; 5]] io_EOF [] None io_EOF) TunDemo.world)
    as (c1 & H & _).
  - vm_compute. reflexivity.
  - reflexivity.
  - vm_compute. reflexivity.
  - exists c1. exact H.
Defined.

Lemma enhancer_life_cycle_witness :
  ∃ s, Start TunDemo.drv (EhState TunDemo.eh TunDemo.world []) = (s, Ret tt) ∧ running (es_eh s) = true.
Proof.
  edestruct (enhancer_life_cycle (Msg := gostring) (C1 := Demo.C1) (C2 := Demo.C2) TunDemo.drv TunDemo.drv TunDemo.eh TunDemo.world []
    [198; 18; 0; 0] 16 []) as (s & f & H & _ & _ & Hr & _).
  - reflexivity.
  - repeat constructor; unfold is_byte; lia.
  - lia.
  - vm_compute. reflexivity.
  - reflexivity.
  - reflexivity.
  - reflexivity.
  - reflexivity.
  - reflexivity.
  - exists s. split; [exact H|exact Hr].
Defined.
