(* ===== verification/Statistic.v ===== *)
(** * Package statistic: traffic counters.

    Models [src/statistic/manager.go] and [src/statistic/tracker.go]. A tracker is
    an object shared by the connection that counts in it and by the manager's map;
    counters are atomic 64-bit integers. A call of a tracker is the list of atomic
    operations it performs, and calls of different goroutines and the manager's
    ticker interleave at these operations. *)
From S2P Require Import Prelude GoIO.
Local Open Scope Z_scope.

Record TrackerInfo := MkInfo { t_udp : bool; t_upload : Z; t_download : Z }.

Record Counters := MkCounters {
  downloadPerSec : Z; uploadPerSec : Z;
  downloadPerSecDelta : Z; uploadPerSecDelta : Z;
  downloadTotal : Z; uploadTotal : Z;
}.

(** The counters, the tracker objects, and the manager's map of those in use. *)
Record Manager := MkManager { counters : Counters; objects : gmap nat TrackerInfo; trackers : gset nat }.

Definition zero_counters : Counters := MkCounters 0 0 0 0 0 0.
Definition NewTrackerManager : Manager := MkManager zero_counters ∅ ∅.

(** ** Atomic operations *)
Inductive dir := Up | Down.
Inductive atom :=
| AddTracker (id : nat) (d : dir) (n : Z)
| AddTotal (d : dir) (n : Z)
| AddDelta (d : dir) (n : Z)
| Unregister (id : nat).

Definition add_info (d : dir) (n : Z) (t : TrackerInfo) : TrackerInfo :=
  match d with
  | Up => MkInfo (t_udp t) (i64 (t_upload t + n)) (t_download t)
  | Down => MkInfo (t_udp t) (t_upload t) (i64 (t_download t + n))
  end.
Definition add_total (d : dir) (n : Z) (c : Counters) : Counters :=
  let '(MkCounters dp up dd ud dt ut) := c in
  match d with Up => MkCounters dp up dd ud dt (i64 (ut + n)) | Down => MkCounters dp up dd ud (i64 (dt + n)) ut end.
Definition add_delta (d : dir) (n : Z) (c : Counters) : Counters :=
  let '(MkCounters dp up dd ud dt ut) := c in
  match d with Up => MkCounters dp up dd (i64 (ud + n)) dt ut | Down => MkCounters dp up (i64 (dd + n)) ud dt ut end.
Definition store_zero (i : nat) (c : Counters) : Counters :=
  let '(MkCounters dp up dd ud dt ut) := c in
  match i with
  | 0 => MkCounters 0 up dd ud dt ut | 1 => MkCounters dp 0 dd ud dt ut
  | 2 => MkCounters dp up 0 ud dt ut | 3 => MkCounters dp up dd 0 dt ut
  | 4 => MkCounters dp up dd ud 0 ut | _ => MkCounters dp up dd ud dt 0
  end%nat.
Definition on_counters (f : Counters → Counters) (m : Manager) : Manager := MkManager (f (counters m)) (objects m) (trackers m).

Definition exec (a : atom) (m : Manager) : Manager :=
  match a with
  | AddTracker id d n => MkManager (counters m) (alter (add_info d n) id (objects m)) (trackers m)
  | AddTotal d n => on_counters (add_total d n) m
  | AddDelta d n => on_counters (add_delta d n) m
  | Unregister id => MkManager (counters m) (objects m) (trackers m ∖ {[id]})
  end.

(** ** The calls, as the operations they perform

    [n]: what the read or write of the underlying connection returned. *)
Definition tcp_Read (id : nat) (n : Z) : list atom := [AddTracker id Up n; AddTotal Up n; AddDelta Up n].
Definition tcp_Write (id : nat) (n : Z) : list atom := [AddTracker id Down n; AddTotal Down n; AddDelta Down n].
Definition udp_ReadFrom (id : nat) (n : Z) : list atom := [AddTracker id Up n; AddTotal Up n; AddDelta Up n].
Definition udp_WriteTo (id : nat) (n : Z) : list atom := [AddTracker id Down n; AddDelta Up n; AddTotal Up n].
Definition tracker_Close (id : nat) : list atom := [Unregister id].
(** [Reset]: six stores. *)
Definition Reset (m : Manager) : Manager := foldl (λ m i, on_counters (store_zero i) m) m (seq 0 6).

(** [DumpSnapshot] with nothing running. *)
Record Snapshot := MkSnapshot { s_download : Z; s_upload : Z; Connections : list TrackerInfo }.
Definition DumpSnapshot (m : Manager) : Snapshot :=
  MkSnapshot (downloadTotal (counters m)) (uploadTotal (counters m)) (omap (λ id, objects m !! id) (elements (trackers m))).
Definition TrafficSpeed (m : Manager) : Z * Z := (downloadPerSec (counters m), uploadPerSec (counters m)).

(** ** The ticker goroutine [listen] and [CloseAll]

    [LStoreD x], [LStoreU x]: a delta is loaded and still to be stored; [LClearD],
    [LClearU]: it is still to be cleared. *)
Inductive lpc := LSelect | LLoadD | LStoreD (x : Z) | LClearD | LLoadU | LStoreU (x : Z) | LClearU | LStopped.

(** The traffic so far: each call of a tracker with what its connection moved. *)
Record moved := Moved { mv_id : nat; mv_udp : bool; mv_dir : dir; mv_n : Z }.

(** [threads]: what running calls have still to do; [closing]: callers of
    [CloseAll] that wait to hand over the stop signal; [traffic]: the history. *)
Record world := World {
  mgr : Manager; threads : list (list atom); listening : lpc; closing : nat; traffic : list moved }.

Definition set_dps (x : Z) (c : Counters) : Counters :=
  let '(MkCounters _ up dd ud dt ut) := c in MkCounters x up dd ud dt ut.
Definition set_ups (x : Z) (c : Counters) : Counters :=
  let '(MkCounters dp _ dd ud dt ut) := c in MkCounters dp x dd ud dt ut.

(** [NewTCPTracker] and [NewUDPTracker]: a new object, in the map before it is used. *)
Definition NewTracker (id : nat) (udp : bool) (m : Manager) : Manager :=
  MkManager (counters m) (<[id := MkInfo udp 0 0]> (objects m)) ({[id]} ∪ trackers m).

(** What a call does. *)
Definition call (id : nat) (udp : bool) (d : dir) (n : Z) : list atom :=
  match udp, d with
  | false, Up => tcp_Read id n | false, Down => tcp_Write id n
  | true, Up => udp_ReadFrom id n | true, Down => udp_WriteTo id n
  end.

Inductive step : world → world → Prop :=
| st_new m ts l k h id udp :
    objects m !! id = None → step (World m ts l k h) (World (NewTracker id udp m) ts l k h)
| st_call m ts l k h id t n d :
    objects m !! id = Some t → 0 ≤ n →
    step (World m ts l k h) (World m (call id (t_udp t) d n :: ts) l k (Moved id (t_udp t) d n :: h))
| st_close m ts l k h id t : objects m !! id = Some t → step (World m ts l k h) (World m (tracker_Close id :: ts) l k h)
| st_atom m t1 a r t2 l k h : step (World m (t1 ++ (a :: r) :: t2) l k h) (World (exec a m) (t1 ++ r :: t2) l k h)
| st_end m t1 t2 l k h : step (World m (t1 ++ [] :: t2) l k h) (World m (t1 ++ t2) l k h)
| st_tick m ts k h : step (World m ts LSelect k h) (World m ts LLoadD k h)
| st_loadD m ts k h : step (World m ts LLoadD k h) (World m ts (LStoreD (downloadPerSecDelta (counters m))) k h)
| st_storeD m ts k x h : step (World m ts (LStoreD x) k h) (World (on_counters (set_dps x) m) ts LClearD k h)
| st_clearD m ts k h : step (World m ts LClearD k h) (World (on_counters (store_zero 2) m) ts LLoadU k h)
| st_loadU m ts k h : step (World m ts LLoadU k h) (World m ts (LStoreU (uploadPerSecDelta (counters m))) k h)
| st_storeU m ts k x h : step (World m ts (LStoreU x) k h) (World (on_counters (set_ups x) m) ts LClearU k h)
| st_clearU m ts k h : step (World m ts LClearU k h) (World (on_counters (store_zero 3) m) ts LSelect k h)
| st_closeall m ts l k h : step (World m ts l k h) (World m ts l (S k) h)
| st_stop m ts k h : (** the send meets the receive; then every tracker in the map is closed *)
    step (World m ts LSelect (S k) h) (World m ((tracker_Close <$> elements (trackers m)) ++ ts) LStopped k h).

Definition winit : world := World NewTrackerManager [] LSelect 0 [].

(** ** Counting modulo 2^64 *)
Definition eq64 (x y : Z) : Prop := (2 ^ 64 | x - y).

#[export] Instance eq64_equiv : Equivalence eq64.
Proof.
  unfold eq64. split.
  - intros x. exists 0. lia.
  - intros x y [k H]. exists (- k). lia.
  - intros x y z [k H] [k' H']. exists (k + k'). lia.
Qed.
#[export] Instance eq64_add : Proper (eq64 ==> eq64 ==> eq64) Z.add.
Proof. intros x x' [k H] y y' [k' H']. exists (k + k'). lia. Qed.

Lemma eq64_eq x y : x = y → eq64 x y.
Proof. by intros ->. Qed.
Lemma i64_eq64 x : eq64 (i64 x) x.
Proof. unfold i64. exists (- ((x + 2 ^ 63) / 2 ^ 64)). pose proof (Z.div_mod (x + 2 ^ 63) (2 ^ 64)). lia. Qed.
Lemma i64_unique x y : i64 x = x → eq64 x y → x = i64 y.
Proof.
  intros Hx [k Hk]. rewrite <-Hx. unfold i64. f_equal. replace (x + 2 ^ 63) with (y + 2 ^ 63 + k * 2 ^ 64) by lia.
  by rewrite Z.mod_add.
Qed.
Lemma i64_i64 x : i64 (i64 x) = i64 x.
Proof. unfold i64 at 1 3. f_equal. unfold i64. rewrite Z.sub_add. by rewrite Z.mod_mod. Qed.

(** What is still to be added, and what has been moved, by a weight. *)
Definition pending_sum (f : atom → Z) (ts : list (list atom)) : Z := foldr (λ a s, f a + s) 0 (concat ts).
Definition moved_sum (g : moved → Z) (h : list moved) : Z := foldr (λ e s, g e + s) 0 h.

Lemma pending_app f t1 t2 : pending_sum f (t1 ++ t2) = pending_sum f t1 + pending_sum f t2.
Proof.
  unfold pending_sum. rewrite concat_app. induction (concat t1) as [|a l IH]; simpl; lia.
Qed.
Lemma pending_cons f t ts : pending_sum f (t :: ts) = foldr (λ a s, f a + s) 0 t + pending_sum f ts.
Proof.
  unfold pending_sum. simpl. induction t as [|a l IH]; simpl; lia.
Qed.

#[export] Instance dir_eq_dec : EqDecision dir.
Proof. solve_decision. Defined.

(** The weights: an atom for a counter, a movement for a counter. *)
Definition total_w (d : dir) (a : atom) : Z := match a with AddTotal d' n => if decide (d = d') then n else 0 | _ => 0 end.
Definition tracker_w (id : nat) (d : dir) (a : atom) : Z :=
  match a with AddTracker id' d' n => if decide ((id, d) = (id', d')) then n else 0 | _ => 0 end.
(** Where a movement is counted in the totals: what UDP sends to the client is
    counted as upload. *)
Definition counted (e : moved) : dir := match mv_dir e with Up => Up | Down => if mv_udp e then Up else Down end.
Definition total_of (d : dir) (e : moved) : Z := if decide (d = counted e) then mv_n e else 0.
Definition tracker_of (id : nat) (d : dir) (e : moved) : Z := if decide ((id, d) = (mv_id e, mv_dir e)) then mv_n e else 0.

Definition get_total (d : dir) (m : Manager) : Z := match d with Up => uploadTotal (counters m) | Down => downloadTotal (counters m) end.
Definition get_info (d : dir) (t : TrackerInfo) : Z := match d with Up => t_upload t | Down => t_download t end.

Lemma foldr_zero {A} (f : A → Z) l : (∀ a, a ∈ l → f a = 0) → foldr (λ a s, f a + s) 0 l = 0.
Proof. induction l as [|a l IH]; intros H; simpl; [done|]. rewrite H, IH by set_solver. done. Qed.

Record Inv (w : world) : Prop := {
  inv_total d : eq64 (get_total d (mgr w) + pending_sum (total_w d) (threads w)) (moved_sum (total_of d) (traffic w)) ∧
    i64 (get_total d (mgr w)) = get_total d (mgr w);
  inv_tracker id d t : objects (mgr w) !! id = Some t →
    eq64 (get_info d t + pending_sum (tracker_w id d) (threads w)) (moved_sum (tracker_of id d) (traffic w)) ∧
    i64 (get_info d t) = get_info d t;
  inv_atoms id d n : AddTracker id d n ∈ concat (threads w) → is_Some (objects (mgr w) !! id);
  inv_traffic e : e ∈ traffic w → is_Some (objects (mgr w) !! mv_id e);
}.

(** Only the threads, only the manager's other fields change. *)
Lemma Inv_same m ts ts' l l' k k' h m' :
  Inv (World m ts l k h) → objects m' = objects m → (∀ d, get_total d m' = get_total d m) →
  (∀ a, a ∈ concat ts' → a ∈ concat ts ∨ ∃ id, a = Unregister id) →
  (∀ d, pending_sum (total_w d) ts' = pending_sum (total_w d) ts) →
  (∀ id d, pending_sum (tracker_w id d) ts' = pending_sum (tracker_w id d) ts) →
  Inv (World m' ts' l' k' h).
Proof.
  intros [H1 H2 H3 H4] Ho Ht Hin Hp Hq. split; simpl in *.
  - intros d. rewrite Ht, Hp. apply H1.
  - intros id d t. rewrite Ho, Hq. apply H2.
  - intros id d n Ha. rewrite Ho. apply Hin in Ha as [Ha|[? ?]]; [by eapply H3|done].
  - intros e He. rewrite Ho. by apply H4.
Qed.

Lemma add_total_get d d' n m : get_total d (on_counters (add_total d' n) m) =
  if decide (d = d') then i64 (get_total d m + n) else get_total d m.
Proof. destruct m as [[] ? ?], d, d'; done. Qed.
Lemma add_delta_get d d' n m : get_total d (on_counters (add_delta d' n) m) = get_total d m.
Proof. destruct m as [[] ? ?], d, d'; done. Qed.
Lemma add_info_get d d' n t : get_info d (add_info d' n t) = if decide (d = d') then i64 (get_info d t + n) else get_info d t.
Proof. destruct t, d, d'; done. Qed.

Lemma call_total id udp d n d' :
  foldr (λ a s, total_w d' a + s) 0 (call id udp d n) = total_of d' (Moved id udp d n).
Proof. unfold total_of, counted. destruct udp, d, d'; simpl; repeat case_decide; try done; lia. Qed.
Lemma call_tracker id udp d n id' d' :
  foldr (λ a s, tracker_w id' d' a + s) 0 (call id udp d n) = tracker_of id' d' (Moved id udp d n).
Proof. unfold tracker_of. destruct udp, d; simpl; repeat case_decide; simplify_eq; lia. Qed.

Lemma pending_atom f t1 a r t2 : pending_sum f (t1 ++ (a :: r) :: t2) = f a + pending_sum f (t1 ++ r :: t2).
Proof. rewrite !pending_app, !pending_cons. simpl. lia. Qed.
Lemma pending_done f t1 t2 : pending_sum f (t1 ++ [] :: t2) = pending_sum f (t1 ++ t2).
Proof. rewrite !pending_app, !pending_cons. done. Qed.

(** One atomic operation. *)
Lemma Inv_atom m t1 a r t2 l k h : Inv (World m (t1 ++ (a :: r) :: t2) l k h) → Inv (World (exec a m) (t1 ++ r :: t2) l k h).
Proof.
  intros [H1 H2 H3 H4].
  assert (∀ x, x ∈ concat (t1 ++ r :: t2) → x ∈ concat (t1 ++ (a :: r) :: t2)) as Hsub.
  { intros x. rewrite !concat_app. simpl. set_solver. }
  assert (∀ id, is_Some (objects m !! id) → is_Some (objects (exec a m) !! id)) as Hsome.
  { intros id Hid. destruct a as [id' d' n| | |]; simpl; try done.
    destruct (decide (id = id')) as [->|]; [rewrite lookup_alter_eq|rewrite lookup_alter_ne by done; done].
    destruct Hid as [t ->]. by eexists. }
  split; simpl in *.
  - intros d. destruct (H1 d) as [H1a H1b]. rewrite pending_atom in H1a.
    destruct a as [id' d' n|d' n|d' n|id']; simpl in *.
    + split; [exact H1a|exact H1b].
    + rewrite add_total_get. case_decide; [|done]. split; [|apply i64_i64]. rewrite i64_eq64, <-H1a. apply eq64_eq. lia.
    + rewrite add_delta_get. done.
    + done.
  - intros id d t Ht. destruct a as [id' d' n|d' n|d' n|id']; simpl in Ht;
      [|destruct (H2 id d t Ht) as [H2a H2b]; rewrite pending_atom in H2a; done..].
    destruct (decide (id = id')) as [->|Hne].
    + rewrite lookup_alter_eq in Ht. apply fmap_Some in Ht as (t0 & Ht0 & ->).
      destruct (H2 id' d t0 Ht0) as [H2a H2b]. rewrite pending_atom in H2a. simpl in H2a. rewrite add_info_get.
      destruct (decide (d = d')) as [->|Hd].
      * rewrite decide_True in H2a by done. split; [|apply i64_i64]. rewrite i64_eq64, <-H2a. apply eq64_eq. lia.
      * rewrite decide_False in H2a by congruence. done.
    + rewrite lookup_alter_ne in Ht by done. destruct (H2 id d t Ht) as [H2a H2b]. rewrite pending_atom in H2a. simpl in H2a.
      rewrite decide_False in H2a by congruence. done.
  - intros id d n Ha%Hsub. apply Hsome. by eapply H3.
  - intros e He. apply Hsome. by apply H4.
Qed.

Lemma closes_atoms l ts a : a ∈ concat ((tracker_Close <$> l) ++ ts) → a ∈ concat ts ∨ ∃ id, a = Unregister id.
Proof.
  rewrite concat_app. intros [H|H]%elem_of_app; [|by left]. right. induction l as [|x l IH]; simpl in H; set_solver.
Qed.
Lemma closes_pending f l ts : (∀ id, f (Unregister id) = 0) → pending_sum f ((tracker_Close <$> l) ++ ts) = pending_sum f ts.
Proof.
  intros Hf. induction l as [|x l IH]; [done|].
  change ((tracker_Close <$> x :: l) ++ ts) with (tracker_Close x :: ((tracker_Close <$> l) ++ ts)).
  rewrite pending_cons, IH. simpl. rewrite Hf. lia.
Qed.

Lemma Inv_step w w' : Inv w → step w w' → Inv w'.
Proof.
  intros HI Hs. destruct Hs as [m ts l k h id udp Hn|m ts l k h id t n d Ht Hnn|m ts l k h id t Ht|m t1 a r t2 l k h|m t1 t2 l k h
    |m ts k h|m ts k h|m ts k x h|m ts k h|m ts k h|m ts k x h|m ts k h|m ts l k h|m ts k h].
  - destruct HI as [H1 H2 H3 H4]. split; simpl in *.
    + apply H1.
    + intros id' d t. destruct (decide (id' = id)) as [->|Hne].
      * rewrite lookup_insert_eq. intros [= <-]. unfold pending_sum, moved_sum. rewrite !foldr_zero; [by destruct d| |].
        -- intros e He. unfold tracker_of. case_decide; [|done]. simplify_eq. apply H4 in He as [? ?]. congruence.
        -- intros a Ha. destruct a as [id' d' n'| | |]; try done. simpl. case_decide; [|done]. simplify_eq.
           apply H3 in Ha as [? ?]. congruence.
      * rewrite lookup_insert_ne by done. apply H2.
    + intros id' d n Ha. destruct (decide (id' = id)) as [->|Hne]; [rewrite lookup_insert_eq; eauto|].
      rewrite lookup_insert_ne by done. by eapply H3.
    + intros e He. destruct (decide (mv_id e = id)) as [->|Hne]; [rewrite lookup_insert_eq; eauto|].
      rewrite lookup_insert_ne by done. by apply H4.
  - destruct HI as [H1 H2 H3 H4]. split; simpl in *.
    + intros d'. destruct (H1 d') as [H1a H1b]. split; [|done]. rewrite pending_cons, call_total, <-H1a. apply eq64_eq. lia.
    + intros id' d' t' Ht'. destruct (H2 id' d' t' Ht') as [H2a H2b]. split; [|done].
      rewrite pending_cons, call_tracker, <-H2a. apply eq64_eq. lia.
    + intros id' d' n' [Ha|Ha]%elem_of_app; [|by eapply H3]. exists t.
      unfold call in Ha. destruct (t_udp t), d; set_solver.
    + intros e [->|He]%elem_of_cons; [by exists t|by apply H4].
  - eapply Inv_same; [exact HI|done|done|..]; [apply (closes_atoms [id])|intros; by apply (closes_pending _ [id])..].
  - by apply Inv_atom.
  - eapply Inv_same; [exact HI|done|done|..]; [|intros; by rewrite pending_done..].
    intros a. rewrite !concat_app. by left.
  - by eapply Inv_same; [exact HI|..]; auto.
  - by eapply Inv_same; [exact HI|..]; auto.
  - eapply Inv_same; [exact HI|..]; auto. intros []; by destruct m as [[] ? ?].
  - eapply Inv_same; [exact HI|..]; auto. intros []; by destruct m as [[] ? ?].
  - by eapply Inv_same; [exact HI|..]; auto.
  - eapply Inv_same; [exact HI|..]; auto. intros []; by destruct m as [[] ? ?].
  - eapply Inv_same; [exact HI|..]; auto. intros []; by destruct m as [[] ? ?].
  - by eapply Inv_same; [exact HI|..]; auto.
  - eapply Inv_same; [exact HI|done|done|..]; [apply closes_atoms|intros; by apply closes_pending..].
Qed.

Lemma Inv_reachable w : rtc step winit w → Inv w.
Proof.
  intros H. assert (Inv winit) as H0.
  { split; simpl; try done; [intros []; done|set_solver..]. }
  revert H0. induction H as [|x y z Hxy _ IH]; [done|]. eauto using Inv_step.
Qed.

(** C28 (invariant): whatever calls, registrations, closes and ticks interleave, and however: when no
    call is running, every tracker shows exactly what its connection moved each way,
    and the totals are exact: all uploads, and, with the downloads of UDP trackers
    counted as uploads, all downloads; all as 64-bit integers. *)
Theorem traffic_exact w :
  rtc step winit w → threads w = [] →
  uploadTotal (counters (mgr w)) = i64 (moved_sum (total_of Up) (traffic w)) ∧
  downloadTotal (counters (mgr w)) = i64 (moved_sum (total_of Down) (traffic w)) ∧
  ∀ id t, objects (mgr w) !! id = Some t →
    t_upload t = i64 (moved_sum (tracker_of id Up) (traffic w)) ∧
    t_download t = i64 (moved_sum (tracker_of id Down) (traffic w)).
Proof.
  intros [H1 H2 _ _]%Inv_reachable Ht.
  assert (∀ f, pending_sum f (threads w) = 0) as Hp by (intros f; by rewrite Ht).
  split_and!.
  - destruct (H1 Up) as [Ha Hb]. rewrite Hp, Z.add_0_r in Ha. by apply i64_unique.
  - destruct (H1 Down) as [Ha Hb]. rewrite Hp, Z.add_0_r in Ha. by apply i64_unique.
  - intros id t Hid. destruct (H2 id Up t Hid) as [Ha Hb], (H2 id Down t Hid) as [Hc Hd].
    rewrite Hp, Z.add_0_r in Ha, Hc. split; by apply i64_unique.
Qed.

(** The stop signal is received once. After a [CloseAll] has stopped
    the ticker, a further call of [CloseAll] never returns and closes nothing. *)
Theorem close_all_once w w' :
  listening w = LStopped → rtc step w w' → listening w' = LStopped ∧ (closing w ≤ closing w')%nat.
Proof.
  intros Hl Hs. induction Hs as [|x y z Hxy _ IH]; [done|].
  destruct Hxy; simpl in *; try done; try (apply IH; done). destruct (IH Hl) as [? ?]. split; [done|lia].
Qed.

(** The rates are not exact: what is moved between the load of a delta and the store
    that clears it is in no rate. *)
Lemma tick_loses :
  ∃ w, rtc step (World (NewTracker 0 false NewTrackerManager) [] LSelect 0 []) w ∧ threads w = [] ∧ listening w = LSelect ∧
    moved_sum mv_n (traffic w) = 100 ∧ TrafficSpeed (mgr w) = (0, 0) ∧ uploadPerSecDelta (counters (mgr w)) = 0.
Proof.
  eexists. split.
  - eapply rtc_l; [apply st_tick|]. eapply rtc_l; [apply st_loadD|]. eapply rtc_l; [apply st_storeD|].
    eapply rtc_l; [apply st_clearD|]. eapply rtc_l; [apply st_loadU|].
    eapply rtc_l; [apply (st_call _ _ _ _ _ 0%nat (MkInfo false 0 0) 100 Up); [reflexivity|lia]|].
    do 3 (eapply rtc_l; [apply (st_atom _ [])|]). eapply rtc_l; [apply (st_end _ [])|].
    eapply rtc_l; [apply st_storeU|]. eapply rtc_l; [apply st_clearU|]. apply rtc_refl.
  - split_and!; vm_compute; reflexivity.
Qed.

(** *** Witnesses *)
Definition demo_world : world :=
  World (exec (AddDelta Down 5) (exec (AddTotal Down 5) (exec (AddTracker 0 Down 5) (NewTracker 0 false NewTrackerManager))))
    [] LSelect 0 [Moved 0 false Down 5].
Lemma demo_reachable : rtc step winit demo_world.
Proof.
  eapply rtc_l; [by apply (st_new _ _ _ _ _ 0%nat false)|].
  eapply rtc_l; [apply (st_call _ _ _ _ _ 0%nat (MkInfo false 0 0) 5 Down); [reflexivity|lia]|].
  do 3 (eapply rtc_l; [apply (st_atom _ [])|]). eapply rtc_l; [apply (st_end _ [])|]. apply rtc_refl.
Qed.

Lemma traffic_exact_witness : downloadTotal (counters (mgr demo_world)) = i64 5.
Proof. exact (proj1 (proj2 (traffic_exact demo_world demo_reachable eq_refl))). Defined.

Lemma close_all_once_witness : (1 ≤ closing (World NewTrackerManager [] LStopped 1 []))%nat.
Proof. exact (proj2 (close_all_once (World NewTrackerManager [] LStopped 1 []) _ eq_refl (rtc_refl _ _))). Defined.
