(* ===== verification/ConnPool.v ===== *)
(** * Package transport: the pool of connections and the dialers that share it.

    Models [src/transport/conn_pool.go] and the calls of it in
    [src/transport/quic_dialer.go] and [src/transport/ssh_dialer.go]: one QUIC or SSH
    connection per slot, over which streams are opened, and one retry when a stream
    cannot be opened. First the calls one after the other, as functions; then
    concurrent callers, as a step relation whose steps are the critical sections.
    Dialling and opening a stream are parameters. *)
From S2P Require Import Prelude GoIO.

Inductive poolPolicy := roundrobin | random.

Section Pool.
Context {T : Type}.

Record connSlot := Slot { s_conn : T; has : bool }.
Record connPool := Pool { index : nat; size : nat; policy : poolPolicy; conns : list (option connSlot) }.

Definition newConnPool (n : Z) : connPool :=
  let size := if (n <=? 0)%Z then 3 else Z.to_nat n in Pool 0 size roundrobin (replicate size None).

(** [selIndex]; [pick]: what [rdIdx.Intn] draws. *)
Definition selIndex (i pick : nat) (p : connPool) : connPool :=
  Pool (match policy p with roundrobin => S i mod size p | random => pick mod size p end) (size p) (policy p) (conns p).
Definition set_slot (i : nat) (s : connSlot) (p : connPool) : connPool :=
  Pool (index p) (size p) (policy p) (<[i := Some s]> (conns p)).

(** [close(index, closeFn)]: the connection [closeFn] is called with, if any. *)
Definition close (i : Z) (p : connPool) : connPool * option T :=
  if ((i <? 0) || (Z.of_nat (size p) <=? i))%Z then (p, None) else
  match conns p !! Z.to_nat i with
  | Some (Some s) => (set_slot (Z.to_nat i) (Slot (s_conn s) false) p, Some (s_conn s))
  | _ => (p, None)
  end.

(** The first critical section of [getConn]: a connection, or the slot to dial for. *)
Definition getConn_fast (pick : nat) (p : connPool) : connPool * (T + nat) :=
  let i := index p in
  match conns p !! i with
  | Some (Some (Slot c true)) => (selIndex i pick p, inl c)
  | _ => (p, inr i)
  end.

(** The critical section after a dial. *)
Definition dialled (i pick : nat) (reselect : bool) (c : T) (p : connPool) : connPool :=
  let p1 := set_slot i (Slot c true) p in if reselect then selIndex i pick p1 else p1.

(** *** One caller at a time

    [S]: what dialling and opening streams change; [dial]: [dialFn(ctx, addr, index)]. *)
Section Sequential.
Context {S Stream : Type} (pick : nat) (dial : nat → M S T).

Definition getConnWithIndex (i : nat) (reselect : bool) : M (connPool * S) T := λ ps,
  match dial i ps.2 with
  | (s, Ret c) => ((dialled i pick reselect c ps.1, s), Ret c)
  | (s, Fail e) => ((ps.1, s), Fail e)
  | (s, Panic) => ((ps.1, s), Panic)
  end.

Definition getConn : M (connPool * S) T := λ ps,
  match getConn_fast pick ps.1 with
  | (p, inl c) => ((p, ps.2), Ret c)
  | (p, inr i) => getConnWithIndex i true (p, ps.2)
  end.

(** [openStreamConn] of the QUIC dialer and [dial] of the SSH dialer: [idx] is the
    slot a connection belongs to, [openStream] opens a stream on it, [closeFn] is
    called with the connection of the caller and that of the slot. *)
Context (idx : T → nat) (openStream : T → M S Stream) (closeFn : T → T → S → S).

Fixpoint openStreamConn (retries : nat) (conn : T) : M (connPool * S) Stream := λ ps,
  match openStream conn ps.2 with
  | (s, Ret x) => ((ps.1, s), Ret x)
  | (s, Panic) => ((ps.1, s), Panic)
  | (s, Fail e) =>
      match retries with
      | 0 => ((ps.1, s), Fail e)
      | Datatypes.S r =>
          let '(p1, c) := close (Z.of_nat (idx conn)) ps.1 in
          let s1 := match c with Some c => closeFn conn c s | None => s end in
          match getConnWithIndex (idx conn) false (p1, s1) with
          | (ps2, Ret conn2) => openStreamConn r conn2 ps2
          | (ps2, Fail e) => (ps2, Fail e)
          | (ps2, Panic) => (ps2, Panic)
          end
      end
  end.

Definition Dial : M (connPool * S) Stream := c ← getConn; openStreamConn 1 c.
End Sequential.
End Pool.
Arguments connSlot : clear implicits.
Arguments connPool : clear implicits.

(** ** Well-formed pools *)
Record PoolInv {T} (idx : T → nat) (p : connPool T) : Prop := {
  pi_size : 0 < size p;
  pi_len : length (conns p) = size p;
  pi_index : index p < size p;
  (** a slot holds connections that were dialled for it *)
  pi_slots i s : conns p !! i = Some (Some s) → idx (s_conn s) = i;
}.

Section PoolLemmas.
Context {T : Type} (idx : T → nat).
Implicit Types (p : connPool T).

Lemma newConnPool_size n : 0 < size (newConnPool (T := T) n).
Proof. unfold newConnPool. simpl. case_match; zify_bool; lia. Qed.
Lemma newConnPool_inv n : PoolInv idx (newConnPool n).
Proof.
  pose proof (newConnPool_size n) as Hs. unfold newConnPool in *. cbn [size] in Hs.
  split; cbn [size conns index]; [exact Hs| |exact Hs|].
  - by rewrite length_replicate.
  - intros i s [? ?]%lookup_replicate. done.
Qed.
Lemma selIndex_inv i pick p : PoolInv idx p → PoolInv idx (selIndex i pick p).
Proof.
  intros [H1 H2 H3 H4]. split; simpl; [done|done| |done]. case_match; apply Nat.mod_upper_bound; lia.
Qed.
Lemma set_slot_inv i s p : PoolInv idx p → idx (s_conn s) = i → PoolInv idx (set_slot i s p).
Proof.
  intros [H1 H2 H3 H4] Hi. split; simpl; [done|by rewrite length_insert|done|].
  intros j s' Hj. destruct (decide (i = j)) as [->|Hne].
  - assert (j < length (conns p)) as Hlt.
    { apply lookup_lt_Some in Hj. by rewrite length_insert in Hj. }
    rewrite list_lookup_insert_eq in Hj by done. congruence.
  - rewrite list_lookup_insert_ne in Hj by done. by apply H4.
Qed.
Lemma dialled_inv i pick rs c p : PoolInv idx p → idx c = i → PoolInv idx (dialled i pick rs c p).
Proof. intros HI Hi. unfold dialled. destruct rs; [apply selIndex_inv|]; by apply set_slot_inv. Qed.
Lemma close_inv i p p' o : PoolInv idx p → close i p = (p', o) → PoolInv idx p'.
Proof.
  intros HI. unfold close. case_match; [by intros [= <- _]|].
  destruct (conns p !! Z.to_nat i) as [[s|]|] eqn:E; [|by intros [= <- _]..]. intros [= <- _].
  apply set_slot_inv; [done|]. exact (pi_slots _ _ HI _ s E).
Qed.
Lemma getConn_fast_inv pick p p' r : PoolInv idx p → getConn_fast pick p = (p', r) →
  PoolInv idx p' ∧ match r with inl c => idx c < size p | inr i => i < size p end.
Proof.
  intros HI. unfold getConn_fast.
  destruct (conns p !! index p) as [[[c [|]]|]|] eqn:E; intros [= <- <-]; (split; [by try apply selIndex_inv|]); try apply HI.
  pose proof (pi_slots _ _ HI _ _ E) as Hc. simpl in Hc. rewrite Hc. apply HI.
Qed.
Lemma close_size i p p' o : close i p = (p', o) → size p' = size p.
Proof. unfold close. repeat case_match; by intros [= <- _]. Qed.
Lemma getConn_fast_size pick p p' r : getConn_fast pick p = (p', r) → size p' = size p.
Proof. unfold getConn_fast. repeat case_match; by intros [= <- _]. Qed.
Lemma dialled_size i pick rs c p : size (dialled i pick rs c p) = size p.
Proof. unfold dialled. by destruct rs. Qed.
End PoolLemmas.

(** ** Round robin *)
Section RoundRobin.
Context {T : Type} (pick : nat) (name : nat → nat → T).

(** Dialling logs the slot; the [k]-th dial gives a connection of its own. *)
Definition log_dial (i : nat) : M (list nat) T := λ log, (log ++ [i], Ret (name (length log) i)).

Fixpoint get_many (k : nat) (ps : connPool T * list nat) : (connPool T * list nat) * list (res T) :=
  match k with
  | 0 => (ps, [])
  | S k => let '(ps1, x) := getConn pick log_dial ps in let '(ps2, l) := get_many k ps1 in (ps2, x :: l)
  end.

(** The pool after [j] calls. *)
Definition after (N j : nat) : connPool T * list nat :=
  (Pool (j mod N) N roundrobin
     (((λ i, Some (Slot (name i i) true)) <$> seq 0 (j `min` N)) ++ replicate (N - j `min` N) None),
   seq 0 (j `min` N)).

Lemma getConn_after N j : 0 < N →
  getConn pick log_dial (after N j) = (after N (S j), Ret (name (j mod N) (j mod N))).
Proof.
  intros HN. unfold getConn, getConn_fast, after. cbn [index conns fst snd].
  assert (S (j mod N) mod N = S j mod N) as Hmod.
  { rewrite <-!Nat.add_1_l. by rewrite Nat.Div0.add_mod_idemp_r. }
  destruct (decide (j < N)) as [Hlt|Hge].
  - rewrite Nat.mod_small by done. rewrite (Nat.min_l j N) by lia.
    rewrite lookup_app_r by (rewrite length_fmap, length_seq; lia). rewrite length_fmap, length_seq, Nat.sub_diag.
    rewrite (lookup_replicate_2 (N - j) None 0) by lia. unfold getConnWithIndex, log_dial. cbn [fst snd].
    rewrite length_seq. f_equal. rewrite Nat.min_l by lia. f_equal; [|by rewrite seq_S].
    unfold dialled, set_slot, selIndex. cbn [size policy conns index]. f_equal.
    replace (N - j) with (S (N - S j)) by lia. cbn [replicate].
    rewrite seq_S, fmap_app, <-(app_assoc _ _ (replicate _ _)). simpl.
    rewrite insert_app_r_alt by (rewrite length_fmap, length_seq; lia). rewrite length_fmap, length_seq, Nat.sub_diag. done.
  - rewrite (Nat.min_r j N), (Nat.min_r (S j) N) by lia. pose proof (Nat.mod_upper_bound j N ltac:(lia)) as Hb.
    rewrite lookup_app_l by (rewrite length_fmap, length_seq; lia).
    rewrite list_lookup_fmap, lookup_seq_lt by done. cbn [fmap option_fmap option_map]. unfold selIndex. cbn [size policy conns].
    by rewrite Hmod.
Qed.

Lemma get_many_after N k : 0 < N → ∀ j,
  get_many k (after N j) = (after N (j + k), (λ i, Ret (name (i mod N) (i mod N))) <$> seq j k).
Proof.
  intros HN. induction k as [|k IH]; intros j; cbn [get_many].
  - by rewrite Nat.add_0_r.
  - rewrite getConn_after by done. rewrite IH. cbn [seq fmap list_fmap]. by rewrite Nat.add_succ_comm.
Qed.

(** Connections are used in turn. Of [k] calls of [getConn] on a new pool,
    only the first as many as there are slots dial, each for its own slot; every
    later call gets, without dialling, the connection of the slot whose turn it
    is. A size that is not positive means three slots. *)
Theorem pool_round_robin n k :
  let N := if (n <=? 0)%Z then 3 else Z.to_nat n in
  ∃ p, get_many k (newConnPool n, []) =
    ((p, seq 0 (k `min` N)), (λ j, Ret (name (j mod N) (j mod N))) <$> seq 0 k).
Proof.
  intros N. assert (0 < N) as HN by (apply (newConnPool_size (T := T) n)).
  assert ((newConnPool n, []) = after N 0) as ->.
  { unfold newConnPool, after. fold N. rewrite Nat.min_l by lia. simpl. by rewrite Nat.Div0.mod_0_l, Nat.sub_0_r. }
  rewrite get_many_after by done. eexists. reflexivity.
Qed.
End RoundRobin.

(** ** One retry *)
Section Retry.
Context {T S Stream : Type} (pick : nat) (dial : nat → M S T) (idx : T → nat) (openStream : T → M S Stream) (closeFn : T → T → S → S).
Implicit Types (p : connPool T).

Lemma set_slot_twice i a b p : set_slot i a (set_slot i b p) = set_slot i a p.
Proof. unfold set_slot. simpl. by rewrite list_insert_insert_eq. Qed.

(** A connection on which no stream can be opened is closed and
    replaced, once. When the caller's connection is the one in its slot, a failed
    stream closes exactly that connection and dials for the same slot; the new
    connection takes the slot, the turn and all other slots are as before, and the
    stream is opened on the new connection or the error of this second attempt is
    returned. If the dial fails, its error is returned and the slot is free. *)
Theorem stream_retry_once conn b p s s1 e :
  PoolInv idx p → conns p !! idx conn = Some (Some (Slot conn b)) → openStream conn s = (s1, Fail e) →
  openStreamConn pick dial idx openStream closeFn 1 conn (p, s) =
  match dial (idx conn) (closeFn conn conn s1) with
  | (s2, Ret c2) =>
      let '(s3, x) := openStream c2 s2 in ((set_slot (idx conn) (Slot c2 true) p, s3), x)
  | (s2, Fail e2) => ((set_slot (idx conn) (Slot conn false) p, s2), Fail e2)
  | (s2, Panic) => ((set_slot (idx conn) (Slot conn false) p, s2), Panic)
  end.
Proof.
  intros HI Hc Ho. assert (idx conn < size p) as Hlt.
  { rewrite <-(pi_len _ _ HI). by eapply lookup_lt_Some. }
  cbn [openStreamConn]. cbn [fst snd]. rewrite Ho. unfold close.
  rewrite (proj2 (Z.ltb_ge _ _)), (proj2 (Z.leb_gt _ _)) by lia. cbn [orb]. rewrite Nat2Z.id, Hc. cbn [s_conn].
  unfold getConnWithIndex. cbn [fst snd].
  destruct (dial (idx conn) (closeFn conn conn s1)) as [s2 [c2|e2|]]; [|done|done].
  unfold dialled. rewrite set_slot_twice. cbn [fst snd]. destruct (openStream c2 s2) as [s3 [x|e3|]]; done.
Qed.
End Retry.

(** ** Concurrent callers

    Connections are numbers: the slot and a serial number. A caller waits for a dial
    ([CWait]: slot, whether the index moves on, failures so far), has a connection and
    opens a stream on it, or is done, with the connection that carries its stream. A
    dial may be shared by the callers that wait for the same slot. [own]: which
    connection the retry closes, the caller's (QUIC) or the slot's (SSH). *)
Section Concurrent.
Context (own : bool).
Abbreviation cid := (nat * nat)%type.

Inductive caller := CWait (i : nat) (reselect : bool) (fails : nat) | CHave (c : cid) (fails : nat) | CDone (c : option cid).
Record pstate := PS { ps_pool : connPool cid; ps_closed : list cid; ps_next : nat; ps_callers : list caller }.

Inductive pstep : pstate → pstate → Prop :=
| p_call pick p p1 r cl n cs :
    getConn_fast pick p = (p1, r) →
    pstep (PS p cl n cs) (PS p1 cl n ((match r with inl c => CHave c 0 | inr i => CWait i true 0 end) :: cs))
| p_dialled pick p cl n c1 i rs f c2 :
    pstep (PS p cl n (c1 ++ CWait i rs f :: c2))
          (PS (dialled i pick rs (i, n) p) cl (S n) (c1 ++ CHave (i, n) f :: c2))
| p_shared p cl n c1 i rs f c2 k :
    k < n → pstep (PS p cl n (c1 ++ CWait i rs f :: c2)) (PS p cl n (c1 ++ CHave (i, k) f :: c2))
| p_dial_failed p cl n c1 i rs f c2 :
    pstep (PS p cl n (c1 ++ CWait i rs f :: c2)) (PS p cl n (c1 ++ CDone None :: c2))
| p_opened p cl n c1 c f c2 :
    c ∉ cl → pstep (PS p cl n (c1 ++ CHave c f :: c2)) (PS p cl n (c1 ++ CDone (Some c) :: c2))
| p_retry p p1 o cl n c1 c c2 :
    close (Z.of_nat c.1) p = (p1, o) →
    pstep (PS p cl n (c1 ++ CHave c 0 :: c2))
          (PS p1 (match o with Some x => [if own then c else x] | None => [] end ++ cl) n (c1 ++ CWait c.1 false 1 :: c2))
| p_gave_up p cl n c1 c f c2 :
    0 < f → pstep (PS p cl n (c1 ++ CHave c f :: c2)) (PS p cl n (c1 ++ CDone None :: c2)).

Definition pinit (n : Z) : pstate := PS (newConnPool n) [] 0 [].

Record PsInv (n : Z) (s : pstate) : Prop := {
  psi_pool : PoolInv fst (ps_pool s);
  psi_size : size (ps_pool s) = size (newConnPool (T := nat * nat) n);
  psi_callers c : c ∈ ps_callers s →
    match c with CWait i _ f => i < size (ps_pool s) ∧ f ≤ 1 | CHave x f => x.1 < size (ps_pool s) ∧ f ≤ 1 | CDone _ => True end;
}.

Lemma PsInv_step n s s' : PsInv n s → pstep s s' → PsInv n s'.
Proof.
  intros [HP Hn Hc] Hs.
  destruct Hs as [pick p p1 r cl nx cs E|pick p cl nx c1 i rs f c2|p cl nx c1 i rs f c2 k Hk|p cl nx c1 i rs f c2
    |p cl nx c1 c f c2 Hncl|p p1 o cl nx c1 c c2 E|p cl nx c1 c f c2 Hf]; simpl in *.
  - destruct (getConn_fast_inv _ _ _ _ _ HP E) as [HP1 Hr]. pose proof (getConn_fast_size _ _ _ _ E) as Hsz.
    split; simpl; [done|congruence|]. rewrite Hsz. intros x [->|Hx]%elem_of_cons; [|by apply Hc]. by destruct r; split; auto.
  - assert (i < size p ∧ f ≤ 1) as [Hi Hf] by (apply (Hc (CWait i rs f)); set_solver).
    split; simpl; rewrite ?dialled_size; [by apply dialled_inv|done|].
    intros x [Hx|[->|Hx]%elem_of_cons]%elem_of_app; [|done|]; apply Hc; set_solver.
  - assert (i < size p ∧ f ≤ 1) as [Hi Hf] by (apply (Hc (CWait i rs f)); set_solver).
    split; simpl; [done|done|]. intros x [Hx|[->|Hx]%elem_of_cons]%elem_of_app; [|done|]; apply Hc; set_solver.
  - split; simpl; [done|done|]. intros x [Hx|[->|Hx]%elem_of_cons]%elem_of_app; [|done|]; apply Hc; set_solver.
  - split; simpl; [done|done|]. intros x [Hx|[->|Hx]%elem_of_cons]%elem_of_app; [|done|]; apply Hc; set_solver.
  - assert (c.1 < size p ∧ 0 ≤ 1) as [Hi _] by (apply (Hc (CHave c 0)); set_solver).
    pose proof (close_size _ _ _ _ E) as Hsz. split; simpl; rewrite ?Hsz; [by eapply close_inv|done|].
    intros x [Hx|[->|Hx]%elem_of_cons]%elem_of_app; [|by split|]; apply Hc; set_solver.
  - split; simpl; [done|done|]. intros x [Hx|[->|Hx]%elem_of_cons]%elem_of_app; [|done|]; apply Hc; set_solver.
Qed.

(** However callers, dials, failures and retries interleave, the index
    stays inside the pool, the pool keeps its size, and every slot, and every
    caller, has a connection that was dialled for a slot of the pool, the slot
    itself in the first case. No caller fails more than once before it retries. *)
Theorem pool_invariant n s :
  rtc pstep (pinit n) s →
  index (ps_pool s) < size (ps_pool s) ∧ length (conns (ps_pool s)) = size (newConnPool (T := nat * nat) n) ∧
  (∀ i c h, conns (ps_pool s) !! i = Some (Some (Slot c h)) → c.1 = i) ∧
  (∀ c f, CHave c f ∈ ps_callers s → is_Some (conns (ps_pool s) !! c.1) ∧ f ≤ 1).
Proof.
  intros Hr. assert (PsInv n s) as [HP Hn Hc].
  { assert (PsInv n (pinit n)) as H0 by (split; simpl; [apply newConnPool_inv|done|set_solver]).
    revert H0. induction Hr as [|x y z Hxy _ IH]; [done|]. eauto using PsInv_step. }
  split_and!.
  - apply HP.
  - by rewrite (pi_len _ _ HP).
  - intros i c h Hi. exact (pi_slots _ _ HP i (Slot c h) Hi).
  - intros c f Hin. destruct (Hc _ Hin) as [? ?]. split; [|done]. apply lookup_lt_is_Some. by rewrite (pi_len _ _ HP).
Qed.
End Concurrent.

(** Over SSH a retry can close a connection others use. Two callers hold
    the same connection when it breaks; the first replaces it and opens its stream
    on the new one; the second, whose own connection is the broken one, then closes
    the connection of the slot, which is the new one. *)
Theorem ssh_retry_closes_other :
  ∃ s, rtc (pstep false) (pinit 1) s ∧
    ps_callers s = [CWait 0 false 1; CDone (Some (0, 1))] ∧ ps_closed s = [(0, 1); (0, 0)].
Proof.
  eexists. split.
  - eapply rtc_l; [by apply (p_call false 0)|]. cbn.
    eapply rtc_l; [apply (p_dialled false 0 _ _ _ [] 0 true 0 [])|]. cbn.
    eapply rtc_l; [by apply (p_call false 0)|]. cbn.
    eapply rtc_l; [by eapply (p_retry false _ _ _ _ _ [CHave (0, 0) 0] (0, 0) [])|]. cbn.
    eapply rtc_l; [apply (p_dialled false 0 _ _ _ [CHave (0, 0) 0] 0 false 1 [])|]. cbn.
    eapply rtc_l; [apply (p_opened false _ _ _ [CHave (0, 0) 0] (0, 1) 1 []); set_solver|]. cbn.
    eapply rtc_l; [by eapply (p_retry false _ _ _ _ _ [] (0, 0) [CDone (Some (0, 1))])|]. cbn.
    apply rtc_refl.
  - done.
Qed.

(** *** Witnesses *)
Lemma pool_invariant_witness : length (conns (ps_pool (pinit 5))) = 5.
Proof. exact (proj1 (proj2 (pool_invariant true 5 (pinit 5) (rtc_refl _ _)))). Defined.

Lemma stream_retry_once_witness :
  openStreamConn 0 (λ i (s : nat), (s, Ret (i, 7))) (fst : nat * nat → nat)
    (λ c s, if decide (c = (0, 7)) then (s, Ret c) else (s, Fail io_EOF)) (λ _ _ s, s) 1 (0, 3)
    (Pool 1 2 roundrobin [Some (Slot (0, 3) true); None], 0) =
  ((Pool 1 2 roundrobin [Some (Slot (0, 7) true); None], 0), Ret (0, 7)).
Proof.
  refine (stream_retry_once 0 (λ i (s : nat), (s, Ret (i, 7))) (fst : nat * nat → nat)
    (λ c s, if decide (c = (0, 7)) then (s, Ret c) else (s, Fail io_EOF)) (λ _ _ s, s) (0, 3) true
    (Pool 1 2 roundrobin [Some (Slot (0, 3) true); None]) 0 0 io_EOF _ _ _).
  - split; simpl; try lia. intros [|[|i]] s H; simpl in H; try discriminate H. injection H as <-. reflexivity.
  - reflexivity.
  - reflexivity.
Defined.
