(* ===== verification/GoBufio.v ===== *)
(** * The Go standard library: buffered reading.

    The part of packages bufio and net/textproto that the HTTP code needs: a
    [bufio.Reader] of the default size over a connection, filled one read at a time,
    its [ReadSlice], [ReadString], [Peek] and [Read], and the line reader of textproto.
    What is left in the buffer afterwards matters to the callers and is kept exactly. *)
From S2P Require Import Prelude GoIO GoNet.
Local Open Scope nat_scope.

(** [defaultBufSize]. *)
Definition bufSize : nat := Z.to_nat 4096.
Lemma bufSize_pos : 2 < bufSize.
Proof. unfold bufSize. lia. Qed.
Lemma bufSize_16 : 16 ≤ bufSize.
Proof. unfold bufSize. lia. Qed.
#[global] Opaque bufSize.

Record breader := BR { b_buf : list Z; b_err : option error; b_conn : conn }.
Definition NewReader (c : conn) : breader := BR [] None c.

Definition errNoProgress := errNew "multiple Read calls return no data or error".

(** [fill]: one read that returns something, of at most 100 attempts. *)
Fixpoint fill_loop (tries : nat) (b : breader) : breader :=
  match tries with
  | 0 => BR (b_buf b) (Some errNoProgress) (b_conn b)
  | S t =>
      match conn_read (bufSize - length (b_buf b)) (b_conn b) with
      | (c, Ret []) => fill_loop t (BR (b_buf b) (b_err b) c)
      | (c, Ret d) => BR (b_buf b ++ d) (b_err b) c
      | (c, Fail e) => BR (b_buf b) (Some e) c
      | (c, Panic) => BR (b_buf b) (b_err b) c
      end
  end.
Definition fill (b : breader) : breader := fill_loop 100 b.

(** How a [ReadSlice] ends: with the delimiter, with a full buffer or with an error. *)
Inductive slice_end := Found | BufferFull | Failed (e : error).

Fixpoint ReadSlice_loop (fuel : nat) (delim : Z) (b : breader) : breader * list Z * slice_end :=
  match index_byte delim (b_buf b) with
  | Some i => (BR (drop (S i) (b_buf b)) (b_err b) (b_conn b), take (S i) (b_buf b), Found)
  | None =>
      match b_err b with
      | Some e => (BR [] None (b_conn b), b_buf b, Failed e)
      | None =>
          if bufSize <=? length (b_buf b) then (BR [] None (b_conn b), b_buf b, BufferFull)
          else match fuel with 0 => (b, [], BufferFull) | S f => ReadSlice_loop f delim (fill b) end
      end
  end.
Definition ReadSlice (delim : Z) (b : breader) : breader * list Z * slice_end :=
  ReadSlice_loop (S (S (src_size (b_conn b)))) delim b.

(** Bytes a reader has still to deliver, a bound for loops. *)
Definition br_pending (b : breader) : list Z := b_buf b ++ pending (b_conn b).
Definition br_size (b : breader) : nat := length (b_buf b) + src_size (b_conn b).

(** [ReadString(delim)]. *)
Fixpoint ReadString_loop (fuel : nat) (delim : Z) (acc : list Z) (b : breader) : breader * res (list Z) :=
  match ReadSlice delim b with
  | (b1, l, Found) => (b1, Ret (acc ++ l))
  | (b1, l, Failed e) => (b1, Fail e)
  | (b1, l, BufferFull) => match fuel with 0 => (b1, Panic) | S f => ReadString_loop f delim (acc ++ l) b1 end
  end.
Definition ReadString (delim : Z) (b : breader) : breader * res (list Z) := ReadString_loop (S (br_size b)) delim [] b.

(** [textproto.Reader.ReadLine] over [bufio.Reader.ReadLine]: a line without its
    end; a carriage return at the end of a full buffer is put back. *)
Definition chomp (l : list Z) : list Z :=
  match reverse l with
  | 10%Z :: 13%Z :: r => reverse r
  | 10%Z :: r => reverse r
  | _ => l
  end.
Fixpoint ReadLine_loop (fuel : nat) (acc : list Z) (b : breader) : breader * res (list Z) :=
  match ReadSlice 10 b with
  | (b1, l, Found) => (b1, Ret (acc ++ chomp l))
  | (b1, l, Failed e) => (b1, match l with [] => Fail e | _ => Ret (acc ++ l) end)
  | (b1, l, BufferFull) =>
      match fuel with
      | 0 => (b1, Panic)
      | S f =>
          match reverse l with
          | 13%Z :: r => ReadLine_loop f (acc ++ reverse r) (BR (13%Z :: b_buf b1) (b_err b1) (b_conn b1))
          | _ => ReadLine_loop f (acc ++ l) b1
          end
      end
  end.
Definition ReadLine (b : breader) : breader * res (list Z) := ReadLine_loop (S (br_size b)) [] b.

(** [Peek(1)]: the next byte, or the error. *)
Definition Peek1 (b : breader) : breader * res Z :=
  match b_buf b with
  | x :: _ => (b, Ret x)
  | [] =>
      match b_err b with
      | Some e => (BR [] None (b_conn b), Fail e)
      | None =>
          let b1 := fill b in
          match b_buf b1 with
          | x :: _ => (b1, Ret x)
          | [] => (BR [] None (b_conn b1), Fail (default io_EOF (b_err b1)))
          end
      end
  end.
Definition discard1 (b : breader) : breader := BR (drop 1 (b_buf b)) (b_err b) (b_conn b).

(** [Read(p)] with [len(p) = n > 0]: from the buffer, which is filled by one read
    first when it is empty; a large [p] is read into directly. *)
Definition br_Read (n : nat) (b : breader) : breader * res (list Z) :=
  match b_buf b with
  | _ :: _ => (BR (drop n (b_buf b)) (b_err b) (b_conn b), Ret (take n (b_buf b)))
  | [] =>
      match b_err b with
      | Some e => (BR [] None (b_conn b), Fail e)
      | None =>
          if bufSize <=? n then
            let '(c, x) := conn_read n (b_conn b) in (BR [] None c, x)
          else
            match conn_read bufSize (b_conn b) with
            | (c, Ret d) => (BR (drop n d) None c, Ret (take n d))
            | (c, Fail e) => (BR [] None c, Fail e)
            | (c, Panic) => (BR [] None c, Panic)
            end
      end
  end.

(** ** Reading what is there *)

(** No read returns nothing. *)
Definition full_chunks (c : conn) : Prop := Forall (λ ch, ch ≠ []) (c_in c).
Record br_ok (b : breader) : Prop := {
  bo_err : b_err b = None;
  bo_len : length (b_buf b) ≤ bufSize;
  bo_chunks : full_chunks (b_conn b);
}.
(** Everything else of the connection stays as it is. *)
Definition same_conn (c c' : conn) : Prop :=
  c_rerr c' = c_rerr c ∧ c_out c' = c_out c ∧ c_wbudget c' = c_wbudget c ∧ c_werr c' = c_werr c.
#[export] Instance same_conn_preorder : PreOrder same_conn.
Proof. split; [by intros c|]. intros c1 c2 c3 (?&?&?&?) (?&?&?&?). unfold same_conn. split_and!; congruence. Qed.

Lemma conn_read_full n c : 0 < n → full_chunks c → pending c ≠ [] →
  ∃ c' d, conn_read n c = (c', Ret d) ∧ d ≠ [] ∧ length d ≤ n ∧ pending c = d ++ pending c' ∧ full_chunks c' ∧ same_conn c c' ∧
    src_size c' < src_size c ∧ length (c_in c') ≤ length (c_in c).
Proof.
  intros Hn Hf Hp. unfold full_chunks in Hf. destruct (conn_read n c) as [c' [d|e|]] eqn:E.
  - exists c', d. pose proof (conn_read_progress _ _ _ _ Hn E). destruct (conn_read_pending _ _ _ _ E) as [Hd Hl].
    assert (d ≠ [] ∧ full_chunks c' ∧ same_conn c c' ∧ length (c_in c') ≤ length (c_in c)) as (? & ? & ? & ?); [|done].
    clear Hp Hd H Hl. unfold conn_read in E. destruct (c_in c) as [|ch rest] eqn:Ec; [done|].
    apply Forall_cons in Hf as [Hch Hrest].
    case_match; injection E as <- <-; zify_bool; unfold full_chunks; simpl; [split_and!; (done || lia)|].
    split_and!; [|constructor; [|done]|done|lia].
    + destruct ch, n; simpl in *; (lia || done).
    + intros H0. apply (f_equal length) in H0. rewrite length_drop in H0. simpl in H0. lia.
  - apply conn_read_Fail in E as (-> & Hi & _). unfold pending in Hp. by rewrite Hi in Hp.
  - by apply conn_read_nopanic in E.
Qed.

Lemma fill_loop_step t b c d : d ≠ [] →
  conn_read (bufSize - length (b_buf b)) (b_conn b) = (c, Ret d) → fill_loop (S t) b = BR (b_buf b ++ d) (b_err b) c.
Proof. intros Hd E. cbn [fill_loop]. rewrite E. by destruct d. Qed.

Lemma fill_ok b : br_ok b → length (b_buf b) < bufSize → pending (b_conn b) ≠ [] →
  ∃ d, d ≠ [] ∧ b_buf (fill b) = b_buf b ++ d ∧ pending (b_conn b) = d ++ pending (b_conn (fill b)) ∧ br_ok (fill b) ∧
    same_conn (b_conn b) (b_conn (fill b)) ∧ src_size (b_conn (fill b)) < src_size (b_conn b) ∧ br_size (fill b) ≤ br_size b.
Proof.
  intros [He Hl Hc] Hlt Hp.
  destruct (conn_read_full (bufSize - length (b_buf b)) (b_conn b)) as (c' & d & E & Hd & Hdl & Hpd & Hf & Hs & Hsz & Hch); [lia|done|done|].
  assert (fill b = BR (b_buf b ++ d) (b_err b) c') as ->.
  { unfold fill. by apply (fill_loop_step 99). }
  exists d. cbn [b_buf b_conn]. split_and!; [done|done|done| |done|done|].
  - split; cbn [b_buf b_err b_conn]; [done| |done]. rewrite length_app. lia.
  - unfold br_size, src_size. cbn [b_buf b_conn]. rewrite Hpd, !length_app. lia.
Qed.

Lemma index_byte_Some c s i : index_byte c s = Some i → ∃ u v, s = u ++ c :: v ∧ length u = i ∧ c ∉ u.
Proof.
  revert i. induction s as [|x s IH]; intros i; simpl; [done|]. case_match; zify_bool.
  - intros [= <-]. exists [], s. subst. split_and!; [done|done|set_solver].
  - intros (j & Hj & ->)%fmap_Some. destruct (IH j Hj) as (u & v & -> & Hl & Hn). exists (x :: u), v.
    split_and!; [done|simpl; lia|set_solver].
Qed.

(** Where the first delimiter is. *)
Lemma split_first (c : Z) u : ∀ v l rest, u ++ c :: v = l ++ c :: rest → c ∉ u → c ∉ l → u = l ∧ v = rest.
Proof.
  induction u as [|x u IH]; intros v [|y l] rest Hp Hu Hl; simpl in Hp; injection Hp.
  - by intros ->.
  - intros _ <-. set_solver.
  - intros _ ->. set_solver.
  - intros Hp' ->. destruct (IH v l rest Hp') as [-> ->]; [set_solver..|done].
Qed.
Lemma prefix_no_delim (c : Z) u : ∀ q l rest, u ++ q = l ++ c :: rest → c ∉ u → ∃ l2, l = u ++ l2.
Proof.
  induction u as [|x u IH]; intros q l rest Hp Hu; [by exists l|].
  destruct l as [|y l]; simpl in Hp; injection Hp; [intros _ ->; set_solver|].
  intros Hp' ->. destruct (IH q l rest Hp') as [l2 ->]; [set_solver|]. by exists l2.
Qed.

(** What a slice gives when the delimiter is going to come. *)
Definition slice_post (delim : Z) (l rest : list Z) (b : breader) (r : breader * list Z * slice_end) : Prop :=
  let '(b1, s, e) := r in
  br_ok b1 ∧ same_conn (b_conn b) (b_conn b1) ∧
  match e with
  | Found => s = l ++ [delim] ∧ br_pending b1 = rest
  | BufferFull => ∃ l2, l = s ++ l2 ∧ length s = bufSize ∧ br_pending b1 = l2 ++ delim :: rest ∧ b_buf b1 = [] ∧
                        br_size b1 + bufSize ≤ br_size b
  | Failed _ => False
  end.

Lemma pending_size c : length (pending c) ≤ src_size c.
Proof. unfold src_size. lia. Qed.

Lemma ReadSlice_loop_ok delim l rest fuel : ∀ b,
  src_size (b_conn b) < fuel → br_ok b → br_pending b = l ++ delim :: rest → delim ∉ l →
  slice_post delim l rest b (ReadSlice_loop fuel delim b).
Proof.
  induction fuel as [|fuel IH]; intros b Hf Hok Hp Hd; [lia|]. cbn [ReadSlice_loop]. pose proof Hok as [He Hl Hc].
  unfold br_pending in Hp. destruct (index_byte delim (b_buf b)) as [i|] eqn:Ei.
  - apply index_byte_Some in Ei as (u & v & Hb & Hi & Hu).
    rewrite Hb, <-app_assoc in Hp. simpl in Hp. apply split_first in Hp as [-> Hr]; [|done|done].
    unfold slice_post, br_pending. cbn [b_buf b_conn].
    rewrite Hb, <-Hi. rewrite (cons_middle delim l v), app_assoc.
    rewrite drop_app_length', take_app_length' by (rewrite length_app; simpl; lia).
    split; [|split; [done|split; [done|by rewrite Hr]]]. split; cbn [b_err b_buf b_conn]; [done| |done].
    rewrite Hb, length_app in Hl. simpl in Hl. lia.
  - apply index_byte_None in Ei. assert (∃ l2, l = b_buf b ++ l2) as [l2 ->].
    { by eapply prefix_no_delim. }
    rewrite <-app_assoc in Hp. apply app_inv_head in Hp. rewrite He. case_match eqn:E; zify_bool.
    + split_and!; [split; cbn; [done|lia|done]|done|]. exists l2. unfold br_pending, br_size. cbn [b_buf b_conn app length].
      split_and!; [done|lia|done|done|lia].
    + destruct (fill_ok b Hok) as (d & Hdn & Hbf & Hpf & Hokf & Hsf & Hlt & Hbs); [lia|rewrite Hp; by destruct l2|].
      specialize (IH (fill b) ltac:(lia) Hokf). unfold slice_post in *.
      destruct (ReadSlice_loop fuel delim (fill b)) as [[b1 s] e].
      destruct IH as (H1 & H2 & H3); [|done|].
      { unfold br_pending. rewrite Hbf, <-!app_assoc. f_equal. by rewrite <-Hpf, Hp. }
      split; [done|]. split; [by etrans|]. destruct e; [done| |done]. destruct H3 as (l3 & ? & ? & ? & ? & ?). exists l3.
      split_and!; [done|done|done|done|lia].
Qed.

Lemma ReadSlice_ok delim l rest b :
  br_ok b → br_pending b = l ++ delim :: rest → delim ∉ l → slice_post delim l rest b (ReadSlice delim b).
Proof. intros. apply ReadSlice_loop_ok; [lia|done..]. Qed.

Lemma ReadString_ok delim l rest b :
  br_ok b → br_pending b = l ++ delim :: rest → delim ∉ l →
  ∃ b1, ReadString delim b = (b1, Ret (l ++ [delim])) ∧ br_pending b1 = rest ∧ br_ok b1 ∧ same_conn (b_conn b) (b_conn b1).
Proof.
  intros Hok Hp Hd. unfold ReadString.
  cut (∀ fuel l b acc, br_size b < fuel → br_ok b → br_pending b = l ++ delim :: rest → delim ∉ l →
    ∃ b1, ReadString_loop fuel delim acc b = (b1, Ret (acc ++ l ++ [delim])) ∧ br_pending b1 = rest ∧ br_ok b1 ∧
          same_conn (b_conn b) (b_conn b1)).
  { intros H. apply (H (S (br_size b)) l b []); [lia|done..]. }
  clear l b Hok Hp Hd. induction fuel as [|fuel IH]; intros l b acc Hf Hok Hp Hd; [lia|]. cbn [ReadString_loop].
  pose proof (ReadSlice_ok delim l rest b Hok Hp Hd) as Hs. unfold slice_post in Hs.
  destruct (ReadSlice delim b) as [[b1 s] [| |e]]; [| |naive_solver].
  - destruct Hs as (H1 & H2 & -> & H3). by exists b1.
  - destruct Hs as (H1 & H2 & l2 & -> & Hl & H3 & _ & Hsz). pose proof bufSize_pos.
    destruct (IH l2 b1 (acc ++ s)) as (b2 & -> & H4 & H5 & H6); [lia|done|done|set_solver|].
    exists b2. rewrite <-!app_assoc. split_and!; [done|done|done|by etrans].
Qed.

Lemma chomp_crlf l : chomp (l ++ [13%Z; 10%Z]) = l.
Proof. unfold chomp. rewrite reverse_app. simpl. by rewrite reverse_involutive. Qed.

(** A line that ends with CR LF. *)
Lemma ReadLine_ok l rest b :
  br_ok b → br_pending b = l ++ 13%Z :: 10%Z :: rest → 10%Z ∉ l →
  ∃ b1, ReadLine b = (b1, Ret l) ∧ br_pending b1 = rest ∧ br_ok b1 ∧ same_conn (b_conn b) (b_conn b1).
Proof.
  intros Hok Hp Hd. unfold ReadLine.
  cut (∀ fuel l b acc, br_size b < fuel → br_ok b → br_pending b = l ++ 13%Z :: 10%Z :: rest → 10%Z ∉ l →
    ∃ b1, ReadLine_loop fuel acc b = (b1, Ret (acc ++ l)) ∧ br_pending b1 = rest ∧ br_ok b1 ∧
          same_conn (b_conn b) (b_conn b1)).
  { intros H. apply (H (S (br_size b)) l b []); [lia|done..]. }
  clear l b Hok Hp Hd. induction fuel as [|fuel IH]; intros l b acc Hf Hok Hp Hd; [lia|]. cbn [ReadLine_loop].
  assert (10%Z ∉ l ++ [13%Z]) as Hd' by set_solver.
  assert (br_pending b = (l ++ [13%Z]) ++ 10%Z :: rest) as Hp' by (by rewrite <-app_assoc).
  pose proof (ReadSlice_ok 10 _ rest b Hok Hp' Hd') as Hs. unfold slice_post in Hs.
  destruct (ReadSlice 10 b) as [[b1 s] [| |e]]; [| |naive_solver].
  - destruct Hs as (H1 & H2 & -> & H3). exists b1. rewrite <-app_assoc. change ([13%Z] ++ [10%Z]) with [13%Z; 10%Z].
    by rewrite chomp_crlf.
  - destruct Hs as (H1 & H2 & l2 & El & Hl & H3 & Hb & Hsz). pose proof bufSize_pos as Hpos.
    destruct (decide (l2 = [])) as [->|Hl2].
    + (** the buffer ended just before the line feed *)
      rewrite app_nil_r in El. subst s. rewrite reverse_app. simpl. rewrite reverse_involutive.
      destruct (IH [] (BR (13%Z :: b_buf b1) (b_err b1) (b_conn b1)) (acc ++ l)) as (b2 & -> & H4 & H5 & H6).
      * unfold br_size in *. cbn [b_buf b_conn length]. lia.
      * destruct H1 as [? ? ?]. split; cbn [b_buf b_err b_conn]; [done| |done]. rewrite Hb. simpl. lia.
      * unfold br_pending in *. cbn [b_buf b_conn]. simpl. by rewrite H3.
      * set_solver.
      * exists b2. rewrite app_nil_r. split_and!; [done|done|done|]. by etrans.
    + assert (∃ l3, l2 = l3 ++ [13%Z] ∧ l = s ++ l3) as (l3 & -> & ->).
      { destruct (exists_last Hl2) as (l3 & x & ->). rewrite app_assoc in El. apply app_inj_tail in El as [-> <-]. by exists l3. }
      assert (∃ x s', s = s' ++ [x]) as (x & s' & Es).
      { destruct (exists_last (l := s)) as (s' & x & ->); [|by eauto]. intros ->. simpl in Hl. lia. }
      rewrite <-app_assoc in H3. simpl in H3.
      assert (10%Z ∉ l3) by set_solver.
      assert (∃ b2, ReadLine_loop fuel (acc ++ s) b1 = (b2, Ret (acc ++ s ++ l3)) ∧ br_pending b2 = rest ∧ br_ok b2 ∧
                    same_conn (b_conn b) (b_conn b2)) as Hplain.
      { destruct (IH l3 b1 (acc ++ s)) as (b2 & -> & ? & ? & ?); [lia|done|done|done|]. exists b2. rewrite <-app_assoc.
        split_and!; [done|done|done|by etrans]. }
      assert (∃ b2, ReadLine_loop fuel (acc ++ s') (BR (13%Z :: b_buf b1) (b_err b1) (b_conn b1)) =
                    (b2, Ret (acc ++ s' ++ [13%Z] ++ l3)) ∧ br_pending b2 = rest ∧ br_ok b2 ∧ same_conn (b_conn b) (b_conn b2)) as Hback.
      { destruct (IH (13%Z :: l3) (BR (13%Z :: b_buf b1) (b_err b1) (b_conn b1)) (acc ++ s')) as (b2 & -> & H4 & H5 & H6).
        * unfold br_size in *. cbn [b_buf b_conn length]. lia.
        * destruct H1 as [? ? ?]. split; cbn [b_buf b_err b_conn]; [done| |done]. rewrite Hb. simpl. lia.
        * unfold br_pending in *. cbn [b_buf b_conn]. simpl. by rewrite H3.
        * set_solver.
        * exists b2. rewrite <-app_assoc. split_and!; [done|done|done|]. by etrans. }
      assert (reverse s = x :: reverse s') as -> by (by rewrite Es, reverse_app).
      destruct (decide (x = 13%Z)) as [->|Hx].
      * rewrite reverse_involutive. destruct Hback as (b2 & -> & ?). exists b2. by rewrite Es, <-!app_assoc.
      * destruct Hplain as (b2 & Hb2 & ?). exists b2. rewrite <-Hb2. split; [|done]. repeat case_match; simplify_eq; done.
Qed.

(** ** Reading changes nothing else of the connection *)
Lemma conn_read_same n c c' x : conn_read n c = (c', x) → same_conn c c'.
Proof. unfold conn_read. destruct (c_in c); [by intros [= <- _]|]. by case_match; intros [= <- _]. Qed.

Lemma fill_loop_same t : ∀ b, same_conn (b_conn b) (b_conn (fill_loop t b)).
Proof.
  induction t as [|t IH]; intros b; cbn [fill_loop]; [done|].
  destruct (conn_read _ (b_conn b)) as [c x] eqn:E. apply conn_read_same in E.
  destruct x as [[|y d]|e|]; [|done..]. etrans; [exact E|]. apply (IH (BR (b_buf b) (b_err b) c)).
Qed.

Lemma ReadSlice_loop_same fuel delim : ∀ b, same_conn (b_conn b) (b_conn (ReadSlice_loop fuel delim b).1.1).
Proof.
  induction fuel as [|fuel IH]; intros b; cbn [ReadSlice_loop]; repeat case_match; try done.
  etrans; [|apply IH]. apply fill_loop_same.
Qed.

Lemma ReadString_same delim b b' x : ReadString delim b = (b', x) → same_conn (b_conn b) (b_conn b').
Proof.
  unfold ReadString. generalize (S (br_size b)) as fuel, (@nil Z) as acc. intros fuel. revert b.
  induction fuel as [|fuel IH]; intros b acc; cbn [ReadString_loop]; pose proof (ReadSlice_loop_same (S (S (src_size (b_conn b)))) delim b) as Hs;
    fold (ReadSlice delim b) in Hs; destruct (ReadSlice delim b) as [[b1 l] [| |e]]; simpl in Hs; try by intros [= <- _].
  intros H%IH. by etrans.
Qed.
