(* ===== verification/GoHTTP.v ===== *)
(** * The Go standard library: HTTP/1 requests.

    [http.ReadRequest] on a buffered reader (request line, header, the length of the
    body), [http.Header], [Request.Write] of a request without a body, and
    [encoding/base64]. The body stays in the reader. *)
From S2P Require Import Prelude GoIO GoNet GoURL GoBufio.
Local Open Scope Z_scope.

(** ** [encoding/base64], standard alphabet *)
Definition b64_char (v : Z) : Z :=
  if v <? 26 then 65 + v else if v <? 52 then 71 + v else if v <? 62 then v - 4 else if v =? 62 then 43 else 47.
Definition b64_val (c : Z) : option Z :=
  if (65 <=? c) && (c <=? 90) then Some (c - 65) else if (97 <=? c) && (c <=? 122) then Some (c - 71)
  else if is_digit c then Some (c + 4) else if c =? 43 then Some 62 else if c =? 47 then Some 63 else None.
Fixpoint b64_encode (l : list Z) : list Z :=
  match l with
  | a :: b :: c :: r =>
      b64_char (Z.shiftr a 2) :: b64_char (Z.lor (Z.shiftl (Z.land a 3) 4) (Z.shiftr b 4)) ::
      b64_char (Z.lor (Z.shiftl (Z.land b 15) 2) (Z.shiftr c 6)) :: b64_char (Z.land c 63) :: b64_encode r
  | [a; b] => [b64_char (Z.shiftr a 2); b64_char (Z.lor (Z.shiftl (Z.land a 3) 4) (Z.shiftr b 4));
               b64_char (Z.shiftl (Z.land b 15) 2); 61]
  | [a] => [b64_char (Z.shiftr a 2); b64_char (Z.shiftl (Z.land a 3) 4); 61; 61]
  | [] => []
  end.
(** [DecodeString]: line ends are skipped, padding is required and ends the input. *)
Fixpoint b64_decode_ (l : list Z) : option (list Z) :=
  match l with
  | [] => Some []
  | [a; b; 61; 61] => x ← b64_val a; y ← b64_val b; Some [Z.lor (Z.shiftl x 2) (Z.shiftr y 4)]
  | [a; b; c; 61] =>
      x ← b64_val a; y ← b64_val b; z ← b64_val c;
      Some [Z.lor (Z.shiftl x 2) (Z.shiftr y 4); Z.lor (Z.shiftl (Z.land y 15) 4) (Z.shiftr z 2)]
  | a :: b :: c :: d :: r =>
      x ← b64_val a; y ← b64_val b; z ← b64_val c; w ← b64_val d; t ← b64_decode_ r;
      Some (Z.lor (Z.shiftl x 2) (Z.shiftr y 4) :: Z.lor (Z.shiftl (Z.land y 15) 4) (Z.shiftr z 2) ::
            Z.lor (Z.shiftl (Z.land z 3) 6) w :: t)
  | _ => None
  end.
Definition b64_decode (s : list Z) : option (list Z) := b64_decode_ (filter (λ c, c ≠ 13 ∧ c ≠ 10) s).

(** ** Tokens and headers *)
Definition is_token (c : Z) : bool := is_alpha c || is_digit c || mem c "!#$%&'*+-.^_`|~".

(** [canonicalMIMEHeaderKey]: [None] for a key that is refused. *)
Fixpoint canon_loop (upper : bool) (a : list Z) : list Z :=
  match a with
  | [] => []
  | c :: r =>
      let c' := if upper && ((97 <=? c) && (c <=? 122)) then c - 32
                else if negb upper && ((65 <=? c) && (c <=? 90)) then c + 32 else c in
      c' :: canon_loop (c' =? 45) r
  end.
Definition canonicalMIMEHeaderKey (a : list Z) : option (list Z) :=
  if forallb (λ c, is_token c || (c =? 32)) a then
    if contains_byte 32 a then Some a else Some (canon_loop true a)
  else None.

Abbreviation Header := (gmap gostring (list gostring)).
Definition canon (key : gostring) : gostring := default key (canonicalMIMEHeaderKey key).
Definition Header_Get (h : Header) (key : gostring) : gostring :=
  match h !! canon key with Some (v :: _) => v | _ => [] end.
Definition Header_Set (key value : gostring) (h : Header) : Header := <[canon key := [value]]> h.
Definition Header_Add (key value : gostring) (h : Header) : Header := <[canon key := default [] (h !! canon key) ++ [value]]> h.
Definition Header_Del (key : gostring) (h : Header) : Header := delete (canon key) h.

Fixpoint trim_left (s : list Z) : list Z :=
  match s with c :: r => if (c =? 32) || (c =? 9) then trim_left r else s | [] => [] end.
Definition trim_space (s : list Z) : list Z := reverse (trim_left (reverse (trim_left s))).

Definition validHeaderValueByte (c : Z) : bool := (c =? 9) || ((32 <=? c) && (c <=? 126)) || (128 <=? c).

Definition errMIME := errNew "malformed MIME header line: ".

(** [skipSpace], then continuation lines: leading blanks of the next line continue
    this one. *)
Fixpoint skipSpace (fuel : nat) (b : breader) : breader * bool :=
  match fuel with
  | O => (b, false)
  | S f =>
      match Peek1 b with
      | (b1, Ret c) => if (c =? 32) || (c =? 9) then let '(b2, _) := skipSpace f (discard1 b1) in (b2, true) else (b1, false)
      | (b1, _) => (b1, false)
      end
  end.
Fixpoint continued (fuel : nat) (acc : list Z) (b : breader) : breader * list Z :=
  match fuel with
  | O => (b, acc)
  | S f =>
      match skipSpace (S (br_size b)) b with
      | (b1, false) => (b1, acc)
      | (b1, true) =>
          match ReadLine b1 with
          | (b2, Ret l) => continued f (acc ++ [32] ++ trim_space l) b2
          | (b2, _) => (b2, acc ++ [32])
          end
      end
  end.

(** [ReadMIMEHeader]. *)
Fixpoint mime_loop (fuel : nat) (h : Header) (b : breader) : breader * res Header :=
  match fuel with
  | O => (b, Panic)
  | S f =>
      match ReadLine b with
      | (b1, Fail e) => (b1, Fail e)
      | (b1, Panic) => (b1, Panic)
      | (b1, Ret []) => (b1, Ret h)
      | (b1, Ret line) =>
          if negb (contains_byte 58 line) then (b1, Fail errMIME) else
          let '(b2, kv) := continued (S (br_size b1)) (trim_space line) b1 in
          match kv with
          | [] => (b2, Ret h)
          | _ =>
              match cut_byte 58 kv with
              | (_, _, false) => (b2, Fail errMIME)
              | (k, v, true) =>
                  match canonicalMIMEHeaderKey k with
                  | None => (b2, Fail errMIME)
                  | Some key =>
                      if negb (forallb validHeaderValueByte v) then (b2, Fail errMIME) else
                      mime_loop f (match key with [] => h | _ => <[key := default [] (h !! key) ++ [trim_left v]]> h end) b2
                  end
              end
          end
      end
  end.
Definition ReadMIMEHeader (b : breader) : breader * res Header :=
  match Peek1 b with
  | (b1, Ret c) =>
      if (c =? 32) || (c =? 9) then
        match ReadLine b1 with
        | (b2, Ret _) => (b2, Fail (errNew "malformed MIME header initial line: "))
        | (b2, Fail e) => (b2, Fail e)
        | (b2, Panic) => (b2, Panic)
        end
      else mime_loop (S (br_size b1)) ∅ b1
  | (b1, _) => mime_loop (S (br_size b1)) ∅ b1
  end.

(** ** Requests *)
Record Request := MkRequest {
  Method : gostring;
  RequestURI : gostring;
  ReqURL : URL;
  ReqHeader : Header;
  ReqHost : gostring;
  (** [-1]: chunked. *)
  ContentLength : Z;
}.

(** [ParseHTTPVersion]. *)
Definition ParseHTTPVersion (v : list Z) : option (Z * Z) :=
  if has_prefix (str "HTTP/") v && (length v =? 8)%nat && (byte_at v 6 =? 46) && is_digit (byte_at v 5) && is_digit (byte_at v 7)
  then Some (byte_at v 5 - 48, byte_at v 7 - 48) else None.

(** [fixTrailer] of a chunked message. *)
Definition bad_trailer (v : gostring) : bool :=
  existsb (λ f, bool_decide (canon (trim_space f) ∈ [str "Transfer-Encoding"; str "Trailer"; str "Content-Length"])) (split_byte 44 v).

(** [parseTransferEncoding], [fixLength] and [fixTrailer] of a request: the header
    left and the length of the body. *)
Definition readTransfer (major minor : Z) (h : Header) : option (Header * Z) :=
  let te := h !! str "Transfer-Encoding" in
  let h1 := delete (str "Transfer-Encoding") h in
  chunked ← match te with
            | None => Some false
            | Some raw => if (major <? 1) || ((major =? 1) && (minor <? 1)) then Some false else
                match raw with
                | [v] => if decide (to_lower v = str "chunked") then Some true else None
                | _ => None
                end
            end;
  let cl := default [] (h1 !! str "Content-Length") in
  n ← match cl with
      | [] => Some 0
      | v :: r =>
          if negb (forallb (λ x, bool_decide (trim_space x = trim_space v)) r) then None else
          match trim_space v with
          | [] => None
          | t => match parse_uint 63 t with (n, true) => Some n | _ => None end
          end
      end;
  if (chunked : bool) then
    if existsb bad_trailer (default [] (h1 !! str "Trailer")) then None
    else Some (delete (str "Trailer") (delete (str "Content-Length") h1), -1)
  else Some (h1, n).

(** [fixPragmaCacheControl]. *)
Definition fixPragma (h : Header) : Header :=
  match h !! str "Pragma", h !! str "Cache-Control" with
  | Some (p :: _), None => if decide (p = str "no-cache") then <[str "Cache-Control" := [str "no-cache"]]> h else h
  | _, _ => h
  end.

Definition errRequest := errNew "malformed HTTP request".

(** The request line: method, URI, protocol and version, URL. *)
Definition parse_request_line (s : list Z) : res (gostring * gostring * gostring * (Z * Z) * URL) :=
  let '(method, rest, ok1) := cut_byte 32 s in
  let '(uri, proto, ok2) := cut_byte 32 rest in
  if negb (ok1 && ok2) then Fail errRequest else
  if bool_decide (method = []) || negb (forallb is_token method) then Fail (errNew "invalid method") else
  match ParseHTTPVersion proto with
  | None => Fail (errNew "malformed HTTP version")
  | Some v =>
      let justAuthority := bool_decide (method = str "CONNECT") && negb (has_prefix (str "/") uri) in
      match url_ParseRequestURI (if justAuthority then str "http://" ++ uri else uri) with
      | None => Fail (errNew "invalid URL")
      | Some u => Ret (method, uri, proto, v,
                       if justAuthority then MkURL [] (Opaque_ u) (User u) (UHost u) (Path u) else u)
      end
  end.

(** What is made of the request line and the header. *)
Definition make_request (l : gostring * gostring * gostring * (Z * Z) * URL) (h : Header) : res Request :=
  let '(method, uri, proto, (major, minor), u) := l in
  match h !! str "Host" with
  | Some (_ :: _ :: _) => Fail (errNew "too many Host headers")
  | _ =>
      let host := match UHost u with [] => Header_Get h (str "Host") | x => x end in
      match readTransfer major minor (fixPragma h) with
      | None => Fail (errNew "bad transfer header")
      | Some (h2, n) =>
          let h2upgrade := bool_decide (method = str "PRI") && bool_decide (h2 = ∅) &&
                           bool_decide (Path u = str "*") && bool_decide (proto = str "HTTP/2.0") in
          Ret (MkRequest method uri u (delete (str "Host") h2) host (if h2upgrade then -1 else n))
      end
  end.

(** [http.ReadRequest(b)]. *)
Definition ReadRequest (b : breader) : breader * res Request :=
  match ReadLine b with
  | (b1, Fail e) => (b1, Fail e)
  | (b1, Panic) => (b1, Panic)
  | (b1, Ret s) =>
      match parse_request_line s with
      | Fail e => (b1, Fail e)
      | Panic => (b1, Panic)
      | Ret l =>
          match ReadMIMEHeader b1 with
          | (b2, Fail e) => (b2, Fail (if decide (e = io_EOF) then io_ErrUnexpectedEOF else e))
          | (b2, Panic) => (b2, Panic)
          | (b2, Ret h) => (b2, make_request l h)
          end
      end
  end.

Example read_connect :
  let '(b, r) := ReadRequest (NewReader (Conn [str "CONNECT a.b:443 HTTP/1.1" ++ [13; 10] ++ str "host: a.b" ++ [13; 10];
                                               str "proxy-Authorization:  Basic dTpw " ++ [13; 10; 13; 10] ++ str "xyz"] io_EOF [] None io_EOF)) in
  b_buf b = str "xyz" ∧
  match r with
  | Ret q => ReqHost q = str "a.b:443" ∧ Header_Get (ReqHeader q) (str "Proxy-Authorization") = str "Basic dTpw" ∧ ContentLength q = 0
  | _ => False
  end.
Proof. vm_compute. done. Qed.
Example b64_roundtrip : b64_decode (b64_encode (str "user:pass")) = Some (str "user:pass").
Proof. reflexivity. Qed.

(** ** Well-formed headers *)
Definition crlf : list Z := [13; 10].

Record hdr_ok (kv : gostring * gostring) : Prop := {
  ho_key : kv.1 ≠ [] ∧ Forall (λ c, is_token c = true) kv.1;
  ho_val : Forall (λ c, validHeaderValueByte c = true) kv.2;
  (** neither end is blank *)
  ho_first : ∃ c r, kv.2 = c :: r ∧ c ≠ 32 ∧ c ≠ 9;
  ho_last : ∃ r c, kv.2 = r ++ [c] ∧ c ≠ 32 ∧ c ≠ 9;
}.
Definition hdr_line (kv : gostring * gostring) : list Z := kv.1 ++ str ": " ++ kv.2.
Definition hdr_bytes (hs : list (gostring * gostring)) : list Z := concat ((λ kv, hdr_line kv ++ crlf) <$> hs).
Definition add_hdr (h : Header) (kv : gostring * gostring) : Header :=
  let key := canon_loop true kv.1 in <[key := default [] (h !! key) ++ [kv.2]]> h.

Lemma token_props c : is_token c = true → c ≠ 32 ∧ c ≠ 9 ∧ c ≠ 10 ∧ c ≠ 13 ∧ c ≠ 58.
Proof. intros H. split_and!; intros ->; vm_compute in H; discriminate. Qed.
Lemma value_props c : validHeaderValueByte c = true → c ≠ 10 ∧ c ≠ 13.
Proof. intros H. split; intros ->; vm_compute in H; discriminate. Qed.

Lemma trim_left_id c r : c ≠ 32 → c ≠ 9 → trim_left (c :: r) = c :: r.
Proof. intros H1 H2. simpl. by rewrite (proj2 (Z.eqb_neq c 32)), (proj2 (Z.eqb_neq c 9)). Qed.
Lemma trim_space_id c r r' c' : c :: r = r' ++ [c'] → c ≠ 32 → c ≠ 9 → c' ≠ 32 → c' ≠ 9 → trim_space (c :: r) = c :: r.
Proof.
  intros E H1 H2 H3 H4. unfold trim_space. rewrite trim_left_id by done. rewrite E, reverse_app. simpl (reverse [c'] ++ _).
  rewrite trim_left_id by done. change (c' :: reverse r') with (reverse [c'] ++ reverse r').
  by rewrite <-reverse_app, reverse_involutive.
Qed.

Lemma Peek1_ok b x r : br_ok b → br_pending b = x :: r →
  ∃ b1, Peek1 b = (b1, Ret x) ∧ br_pending b1 = x :: r ∧ br_ok b1 ∧ same_conn (b_conn b) (b_conn b1) ∧ (br_size b1 ≤ br_size b)%nat.
Proof.
  intros Hok Hp. unfold Peek1. pose proof Hok as [He Hl Hc]. destruct (b_buf b) as [|y l] eqn:Eb.
  - rewrite He. unfold br_pending in Hp. rewrite Eb in Hp. simpl in Hp.
    destruct (fill_ok b Hok) as (d & Hd & Hb & Hpd & Hokf & Hs & _ & Hsz); [rewrite Eb; pose proof bufSize_pos; simpl; lia|by rewrite Hp|].
    rewrite Eb in Hb. simpl in Hb. rewrite Hb. destruct d as [|z d]; [done|].
    assert (z = x) as -> by (rewrite Hpd in Hp; simpl in Hp; congruence).
    exists (fill b). split_and!; [done| |done|done|done]. unfold br_pending. by rewrite Hb, <-Hpd, Hp.
  - unfold br_pending in *. rewrite Eb in *. simpl in Hp. injection Hp as -> Hp. exists b. rewrite Eb.
    split_and!; [done|simpl; congruence|done|done|done].
Qed.

Lemma skipSpace_none fuel b x r : br_ok b → br_pending b = x :: r → x ≠ 32 → x ≠ 9 →
  ∃ b1, skipSpace (S fuel) b = (b1, false) ∧ br_pending b1 = x :: r ∧ br_ok b1 ∧ same_conn (b_conn b) (b_conn b1) ∧ (br_size b1 ≤ br_size b)%nat.
Proof.
  intros Hok Hp H1 H2. destruct (Peek1_ok b x r Hok Hp) as (b1 & E & ?). exists b1. cbn [skipSpace]. rewrite E.
  by rewrite (proj2 (Z.eqb_neq x 32)), (proj2 (Z.eqb_neq x 9)).
Qed.

Lemma continued_none acc b x r : br_ok b → br_pending b = x :: r → x ≠ 32 → x ≠ 9 →
  ∃ b1, continued (S (br_size b)) acc b = (b1, acc) ∧ br_pending b1 = x :: r ∧ br_ok b1 ∧ same_conn (b_conn b) (b_conn b1).
Proof.
  intros Hok Hp H1 H2. cbn [continued]. destruct (skipSpace_none (br_size b) b x r) as (b1 & -> & ? & ? & ? & _); [done..|].
  by exists b1.
Qed.

(** The first byte after a header line: a token character or a carriage return. *)
Lemma hdr_bytes_head hs rest : Forall hdr_ok hs → ∃ x r, hdr_bytes hs ++ crlf ++ rest = x :: r ∧ x ≠ 32 ∧ x ≠ 9.
Proof.
  destruct hs as [|[k v] hs]; intros HF; [by exists 13, (10 :: rest)|].
  apply Forall_cons in HF as [[[Hk1 Hk2] _ _ _] _]. simpl in *. destruct k as [|c k]; [done|].
  apply Forall_cons in Hk2 as [Hc _]. apply token_props in Hc. do 2 eexists. split; [reflexivity|tauto].
Qed.

Lemma canonical_token k : Forall (λ c, is_token c = true) k → canonicalMIMEHeaderKey k = Some (canon_loop true k).
Proof.
  intros H. unfold canonicalMIMEHeaderKey. rewrite (proj2 (forallb_forall _ _)).
  - rewrite (proj2 (contains_byte_false 32 k)); [done|]. intros Hin. rewrite Forall_forall in H. apply H, token_props in Hin. tauto.
  - intros c Hc%list_elem_of_In. rewrite Forall_forall in H. by rewrite H.
Qed.

Lemma forallb_Forall_true {A} (f : A → bool) l : Forall (λ x, f x = true) l → forallb f l = true.
Proof. rewrite Forall_forall. intros H. apply forallb_forall. intros x Hx%list_elem_of_In. by apply H. Qed.

(** What the loop computes of a line. *)
Lemma hdr_line_facts kv : hdr_ok kv →
  (10 ∉ hdr_line kv) ∧ contains_byte 58 (hdr_line kv) = true ∧ trim_space (hdr_line kv) = hdr_line kv ∧
  cut_byte 58 (hdr_line kv) = (kv.1, 32 :: kv.2, true) ∧ hdr_line kv ≠ [] ∧
  forallb validHeaderValueByte (32 :: kv.2) = true ∧ trim_left (32 :: kv.2) = kv.2.
Proof.
  intros [[Hk1 Hk2] Hv (c & r & Ec & Hc1 & Hc2) (r' & c' & Ec' & Hc3 & Hc4)]. destruct kv as [k v]. simpl in *. unfold hdr_line. simpl.
  assert (∀ x, x ∈ k → x ≠ 32 ∧ x ≠ 9 ∧ x ≠ 10 ∧ x ≠ 13 ∧ x ≠ 58) as Hkk.
  { intros x Hx. rewrite Forall_forall in Hk2. by apply token_props, Hk2. }
  assert (58 ∉ k) as H58 by (intros Hin%Hkk; tauto).
  split_and!.
  - rewrite not_elem_of_app, !not_elem_of_cons. split_and!; [intros Hin%Hkk; tauto|done|done|].
    intros Hin. rewrite Forall_forall in Hv. apply Hv, value_props in Hin. tauto.
  - unfold contains_byte. by rewrite index_byte_app.
  - destruct k as [|x k]; [done|]. simpl. eapply (trim_space_id x _ (x :: k ++ 58 :: 32 :: r') c'); [|apply Hkk; set_solver..|done|done].
    rewrite Ec'. simpl. by rewrite <-app_assoc.
  - unfold cut_byte. rewrite index_byte_app by done. rewrite take_app_length.
    rewrite (cons_middle 58 k), app_assoc, drop_app_length' by (rewrite length_app; simpl; lia). done.
  - by destruct k.
  - by apply forallb_Forall_true.
  - subst v. by apply trim_left_id.
Qed.

Lemma mime_loop_ok hs : ∀ fuel h b rest, Forall hdr_ok hs → (length hs < fuel)%nat → br_ok b →
  br_pending b = hdr_bytes hs ++ crlf ++ rest →
  ∃ b1, mime_loop fuel h b = (b1, Ret (foldl add_hdr h hs)) ∧ br_pending b1 = rest ∧ br_ok b1 ∧ same_conn (b_conn b) (b_conn b1).
Proof.
  induction hs as [|kv hs IH]; intros fuel h b rest HF Hf Hok Hp; (destruct fuel as [|fuel]; [simpl in Hf; lia|]); cbn [mime_loop].
  - destruct (ReadLine_ok [] rest b) as (b1 & -> & ?); [done|done|set_solver|]. by exists b1.
  - apply Forall_cons in HF as [Hkv HF].
    destruct (hdr_line_facts kv Hkv) as (Hn & Hcb & Htr & Hcut & Hne & Hvv & Htl).
    destruct (ReadLine_ok (hdr_line kv) (hdr_bytes hs ++ crlf ++ rest) b) as (b1 & -> & Hp1 & Hok1 & Hs1); [done| |done|].
    { rewrite Hp. unfold hdr_bytes. simpl. by rewrite <-!app_assoc. }
    destruct (hdr_line kv) as [|x0 l0] eqn:El; [done|]. rewrite <-El in *. rewrite Hcb. cbn [negb].
    rewrite Htr. destruct (hdr_bytes_head hs rest HF) as (x & r & Hx & Hx1 & Hx2). rewrite Hx in Hp1.
    destruct (continued_none (hdr_line kv) b1 x r Hok1 Hp1 Hx1 Hx2) as (b2 & -> & Hp2 & Hok2 & Hs2).
    rewrite Hcut, (canonical_token kv.1), Hvv by (destruct Hkv as [[_ Hk2] _ _ _]; exact Hk2). cbn [negb].
    rewrite El. rewrite Htl. destruct (IH fuel (add_hdr h kv) b2 rest HF) as (b3 & E3 & ? & ? & ?); [simpl in Hf; lia|done|by rewrite Hp2, Hx|].
    exists b3. assert (canon_loop true kv.1 ≠ []) as Hcn by (destruct Hkv as [[Hk1 _] _ _ _]; by destruct kv.1).
    change (foldl add_hdr h (kv :: hs)) with (foldl add_hdr (add_hdr h kv) hs). rewrite <-E3.
    split_and!; [|done|done|by etrans; [|etrans]]. f_equal. unfold add_hdr. by destruct (canon_loop true kv.1).
Qed.

Lemma hdr_bytes_length hs : (length hs ≤ length (hdr_bytes hs))%nat.
Proof.
  unfold hdr_bytes. induction hs as [|kv hs IH]; [simpl; lia|]. cbn [fmap list_fmap concat length]. rewrite !length_app.
  change (length crlf) with 2%nat. cbn [fmap] in IH. lia.
Qed.

(** Reading a request that is well formed: what is left is what follows it. *)
Lemma ReadRequest_ok line hs rest l b :
  Forall hdr_ok hs → 10 ∉ line → parse_request_line line = Ret l → br_ok b →
  br_pending b = line ++ crlf ++ hdr_bytes hs ++ crlf ++ rest →
  ∃ b1, ReadRequest b = (b1, make_request l (foldl add_hdr ∅ hs)) ∧ br_pending b1 = rest ∧ br_ok b1 ∧
        same_conn (b_conn b) (b_conn b1).
Proof.
  intros HF Hn Hl Hok Hp. unfold ReadRequest.
  destruct (ReadLine_ok line (hdr_bytes hs ++ crlf ++ rest) b) as (b1 & -> & Hp1 & Hok1 & Hs1); [done|by rewrite Hp|done|].
  rewrite Hl. unfold ReadMIMEHeader. destruct (hdr_bytes_head hs rest HF) as (x & r & Hx & Hx1 & Hx2).
  rewrite Hx in Hp1. destruct (Peek1_ok b1 x r Hok1 Hp1) as (b2 & -> & Hp2 & Hok2 & Hs2 & _).
  rewrite (proj2 (Z.eqb_neq x 32)), (proj2 (Z.eqb_neq x 9)) by done. cbn [orb].
  destruct (mime_loop_ok hs (S (br_size b2)) ∅ b2 rest HF) as (b3 & -> & Hp3 & Hok3 & Hs3); [|done|by rewrite Hp2, Hx|].
  - pose proof (hdr_bytes_length hs). rewrite <-Hx in Hp2. apply (f_equal length) in Hp2. rewrite !length_app in Hp2.
    unfold br_pending in Hp2. rewrite length_app in Hp2. unfold br_size. pose proof (pending_size (b_conn b2)). lia.
  - exists b3. split_and!; [done|done|done|]. by etrans; [|etrans].
Qed.

(** ** Looking a header up *)
Lemma add_hdr_ne h kv k : canon_loop true kv.1 ≠ k → add_hdr h kv !! k = h !! k.
Proof. intros H. unfold add_hdr. by rewrite lookup_insert_ne. Qed.
Lemma foldl_add_hdr_ne hs k : ∀ h, Forall (λ kv, canon_loop true kv.1 ≠ k) hs → foldl add_hdr h hs !! k = h !! k.
Proof.
  induction hs as [|kv hs IH]; intros h HF; [done|]. apply Forall_cons in HF as [Hk HF]. simpl. rewrite IH by done. by apply add_hdr_ne.
Qed.
Lemma fixPragma_ne h k : k ≠ str "Cache-Control" → fixPragma h !! k = h !! k.
Proof.
  intros H. unfold fixPragma. destruct (h !! str "Pragma") as [[|p l]|], (h !! str "Cache-Control"); try done.
  case_decide; [|done]. by rewrite lookup_insert_ne.
Qed.

(** A request without a body. *)
Lemma readTransfer_none major minor h :
  h !! str "Transfer-Encoding" = None → h !! str "Content-Length" = None → readTransfer major minor h = Some (h, 0).
Proof.
  intros H1 H2. unfold readTransfer. rewrite H1. cbn [mbind option_bind].
  rewrite delete_id by done. by rewrite H2.
Qed.

(** ** base64 decodes what it encoded *)
Lemma b64_val_char v : 0 ≤ v < 64 → b64_val (b64_char v) = Some v ∧ b64_char v ≠ 61 ∧ b64_char v ≠ 13 ∧ b64_char v ≠ 10.
Proof.
  intros Hv. assert (forallb (λ v, bool_decide (b64_val (b64_char v) = Some v ∧ b64_char v ≠ 61 ∧ b64_char v ≠ 13 ∧ b64_char v ≠ 10))
    (seqZ 0 64) = true) as H by (vm_compute; reflexivity).
  rewrite forallb_forall in H. specialize (H v). rewrite bool_decide_eq_true in H. apply H. apply list_elem_of_In, elem_of_seqZ. lia.
Qed.

(** Linear arithmetic with quotients and remainders of constants. *)
Ltac dlia := unfold is_byte in *; Z.to_euclidean_division_equations; lia.

(** The four six-bit groups of three bytes, as numbers. *)
Lemma b64_groups a b c : is_byte a → is_byte b → is_byte c →
  Z.shiftr a 2 = a / 4 ∧ Z.lor (Z.shiftl (Z.land a 3) 4) (Z.shiftr b 4) = a mod 4 * 16 + b / 16 ∧
  Z.lor (Z.shiftl (Z.land b 15) 2) (Z.shiftr c 6) = b mod 16 * 4 + c / 64 ∧ Z.land c 63 = c mod 64 ∧
  Z.shiftl (Z.land a 3) 4 = a mod 4 * 16 ∧ Z.shiftl (Z.land b 15) 2 = b mod 16 * 4.
Proof.
  unfold is_byte. intros Ha Hb Hc. change 3 with (Z.ones 2). change 15 with (Z.ones 4). change 63 with (Z.ones 6).
  rewrite !Z.land_ones by lia. rewrite !Z.shiftr_div_pow2 by lia.
  change (2 ^ 2) with 4. change (2 ^ 4) with 16. change (2 ^ 6) with 64.
  rewrite (Z.lor_comm (Z.shiftl (a mod 4) 4)), (Z.lor_comm (Z.shiftl (b mod 16) 2)).
  rewrite !lor_shiftl_add.
  - rewrite !Z.shiftl_mul_pow2 by lia. change (2 ^ 2) with 4. change (2 ^ 4) with 16. lia.
  - lia.
  - change (2 ^ 2) with 4. split; [apply Z.div_pos; lia|apply Z.div_lt_upper_bound; lia].
  - lia.
  - change (2 ^ 4) with 16. split; [apply Z.div_pos; lia|apply Z.div_lt_upper_bound; lia].
Qed.
(** And back. *)
Lemma b64_bytes x y z w : 0 ≤ x < 64 → 0 ≤ y < 64 → 0 ≤ z < 64 → 0 ≤ w < 64 →
  Z.lor (Z.shiftl x 2) (Z.shiftr y 4) = x * 4 + y / 16 ∧ Z.lor (Z.shiftl (Z.land y 15) 4) (Z.shiftr z 2) = y mod 16 * 16 + z / 4 ∧
  Z.lor (Z.shiftl (Z.land z 3) 6) w = z mod 4 * 64 + w.
Proof.
  intros Hx Hy Hz Hw. change 15 with (Z.ones 4). change 3 with (Z.ones 2).
  rewrite !Z.land_ones by lia. rewrite !Z.shiftr_div_pow2 by lia. change (2 ^ 2) with 4. change (2 ^ 4) with 16.
  rewrite (Z.lor_comm (Z.shiftl x 2)), (Z.lor_comm (Z.shiftl (y mod 16) 4)), (Z.lor_comm (Z.shiftl (z mod 4) 6)).
  rewrite !lor_shiftl_add; [change (2 ^ 2) with 4; change (2 ^ 4) with 16; change (2 ^ 6) with 64; lia|..]; try lia;
    (split; [apply Z.div_pos; lia|apply Z.div_lt_upper_bound; simpl; lia]).
Qed.

Lemma b64_encode_chars l : wf_bytes l → Forall (λ c, c ≠ 13 ∧ c ≠ 10) (b64_encode l).
Proof.
  assert (∀ v, 0 ≤ v < 64 → b64_char v ≠ 13 ∧ b64_char v ≠ 10) as Hc by (intros v Hv; apply b64_val_char in Hv; tauto).
  revert l. fix IH 1. intros l Hw. destruct l as [|a [|b [|c r]]]; simpl; unfold wf_bytes in Hw; rewrite ?Forall_cons in Hw.
  - constructor.
  - destruct Hw as [Ha _]. destruct (b64_groups a a a Ha Ha Ha) as (-> & _ & _ & _ & -> & _). unfold is_byte in *.
    constructor; [apply Hc; dlia|]. constructor; [apply Hc; dlia|]. by repeat constructor.
  - destruct Hw as (Ha & Hb & _). destruct (b64_groups a b b Ha Hb Hb) as (-> & -> & _ & _ & _ & ->). unfold is_byte in *.
    do 3 (constructor; [apply Hc; dlia|]). by repeat constructor.
  - destruct Hw as (Ha & Hb & Hcc & Hr). destruct (b64_groups a b c Ha Hb Hcc) as (-> & -> & -> & -> & _). unfold is_byte in *.
    do 4 (constructor; [apply Hc; dlia|]). by apply IH.
Qed.

Lemma filter_id {A} (P : A → Prop) `{!∀ x, Decision (P x)} l : Forall P l → filter P l = l.
Proof. induction 1 as [|x l Hx _ IH]; [done|]. rewrite filter_cons, decide_True by done. by rewrite IH. Qed.

Lemma b64_val_ok v : 0 ≤ v < 64 → b64_val (b64_char v) = Some v.
Proof. intros Hv. by apply b64_val_char. Qed.

(** The cases of the decoder. *)
Lemma b64_decode_4 a b c d r : c ≠ 61 → d ≠ 61 →
  b64_decode_ (a :: b :: c :: d :: r) =
  (x ← b64_val a; y ← b64_val b; z ← b64_val c; w ← b64_val d; t ← b64_decode_ r;
   Some (Z.lor (Z.shiftl x 2) (Z.shiftr y 4) :: Z.lor (Z.shiftl (Z.land y 15) 4) (Z.shiftr z 2) ::
         Z.lor (Z.shiftl (Z.land z 3) 6) w :: t)).
Proof. intros Hc Hd. cbn [b64_decode_]. repeat case_match; simplify_eq; done. Qed.
Lemma b64_decode_3 a b c : c ≠ 61 →
  b64_decode_ [a; b; c; 61] =
  (x ← b64_val a; y ← b64_val b; z ← b64_val c;
   Some [Z.lor (Z.shiftl x 2) (Z.shiftr y 4); Z.lor (Z.shiftl (Z.land y 15) 4) (Z.shiftr z 2)]).
Proof. intros Hc. cbn [b64_decode_]. repeat case_match; simplify_eq; done. Qed.

Lemma b64_decode_encode l : wf_bytes l → b64_decode (b64_encode l) = Some l.
Proof.
  intros Hw. unfold b64_decode. rewrite filter_id by (by apply b64_encode_chars).
  revert l Hw. fix IH 1. intros l Hw. destruct l as [|a [|b [|c r]]]; cbn [b64_encode]; unfold wf_bytes in Hw; rewrite ?Forall_cons in Hw.
  - done.
  - destruct Hw as [Ha _]. destruct (b64_groups a a a Ha Ha Ha) as (-> & _ & _ & _ & -> & _). cbn [b64_decode_].
    rewrite !b64_val_ok by dlia. cbn [mbind option_bind].
    destruct (b64_bytes (a / 4) (a mod 4 * 16) 0 0) as (-> & _); [dlia..|]. do 2 f_equal. dlia.
  - destruct Hw as (Ha & Hb & _). destruct (b64_groups a b b Ha Hb Hb) as (-> & -> & _ & _ & _ & ->).
    rewrite b64_decode_3 by (apply b64_val_char; dlia). rewrite !b64_val_ok by dlia. cbn [mbind option_bind].
    destruct (b64_bytes (a / 4) (a mod 4 * 16 + b / 16) (b mod 16 * 4) 0) as (-> & -> & _); [dlia..|].
    do 2 f_equal; [dlia|f_equal; dlia].
  - destruct Hw as (Ha & Hb & Hc & Hr). destruct (b64_groups a b c Ha Hb Hc) as (-> & -> & -> & -> & _).
    rewrite b64_decode_4 by (apply b64_val_char; dlia). rewrite !b64_val_ok by dlia. cbn [mbind option_bind].
    rewrite IH by exact Hr. cbn [mbind option_bind].
    destruct (b64_bytes (a / 4) (a mod 4 * 16 + b / 16) (b mod 16 * 4 + c / 64) (c mod 64)) as (-> & -> & ->); [dlia..|].
    do 2 f_equal; [dlia|f_equal; [dlia|f_equal; dlia]].
Qed.
