(* ===== verification/HttpObfs.v ===== *)
(** * Package connection: HTTP obfuscation.

    Models [src/connection/obfs.go]: a connection whose first bytes look like the
    opening of a WebSocket. The client's request leaves with its first write; the
    server answers with the first write, or at once when no payload came with the
    request. SHA-1, the date and the encoding of international host names are
    parameters. *)
From S2P Require Import Prelude GoIO GoNet GoURL GoBufio GoHTTP.
Local Open Scope Z_scope.

(** ** [Request.Write] of a request without a body *)

(** [headerNewlineToSpace] and [TrimString] of a value. *)
Definition header_value (v : list Z) : list Z :=
  trim_space ((λ c, if (c =? 10) || (c =? 13) then 32 else c) <$> v).

(** Keys in byte order. *)
Fixpoint key_le (a b : list Z) : bool :=
  match a, b with
  | [], _ => true
  | _ :: _, [] => false
  | x :: a', y :: b' => if x <? y then true else if y <? x then false else key_le a' b'
  end.
Fixpoint insert_key (kv : gostring * list gostring) (l : list (gostring * list gostring)) : list (gostring * list gostring) :=
  match l with
  | [] => [kv]
  | x :: r => if key_le kv.1 x.1 then kv :: l else x :: insert_key kv r
  end.
Definition sort_keys (l : list (gostring * list gostring)) : list (gostring * list gostring) := foldr insert_key [] l.

(** [Header.writeSubset] with the headers that [Request.Write] writes itself left out. *)
Definition reqWriteExcludeHeader : list gostring :=
  [str "Host"; str "User-Agent"; str "Content-Length"; str "Transfer-Encoding"; str "Trailer"].
Definition header_bytes (h : Header) : list Z :=
  concat ((λ kv, concat ((λ v, kv.1 ++ str ": " ++ header_value v ++ crlf) <$> kv.2)) <$>
          sort_keys (filter (λ kv, kv.1 ∉ reqWriteExcludeHeader) (map_to_list h))).

(** [httpguts.ValidHostHeader] and [removeZone]. *)
Definition ValidHostHeader (h : gostring) : bool :=
  forallb (λ c, is_alpha c || is_digit c || mem c "!$%&()*+,-.:;=[']_~") h.
Definition removeZone (host : gostring) : gostring :=
  match host with
  | 91 :: _ =>
      match last_index_byte 93 host with
      | None => host
      | Some i => match last_index_byte 37 (take i host) with Some j => take j host ++ drop i host | None => host end
      end
  | _ => host
  end.

Definition Mozilla : gostring :=
  str "Mozilla/5.0 (Macintosh; Intel Mac OS X 10_15_7) AppleWebKit/537.36 (KHTML, like Gecko) Chrome/106.0.0.0 Safari/537.36".
Definition errBadRequest := errNew "bad request".

Section Obfs.
(** [idna.Lookup.ToASCII] of a host name with non-ASCII characters; SHA-1; the date. *)
Context (idna : gostring → option gostring) (sha1 : list Z → list Z) (Date : list Z).

(** [httpguts.PunycodeHostPort]. *)
Definition PunycodeHostPort (v : gostring) : option gostring :=
  if forallb (λ c, c <? 128) v then Some v else
  match SplitHostPort v with
  | inl (host, port) => h ← idna host; Some (JoinHostPort h port)
  | inr _ => idna v
  end.

(** [Request.Write] of a GET request for [/] of a host, directly to it. *)
Definition Request_Write (host : gostring) (h : Header) : res (list Z) :=
  match host with
  | [] => Fail (errNew "http: Request.Write on Request with no Host or URL set")
  | _ =>
      match PunycodeHostPort host with
      | None => Fail (errNew "idna")
      | Some h1 =>
          let h2 := removeZone (if ValidHostHeader h1 then h1 else []) in
          let ua := match h !! str "User-Agent" with Some (v :: _) => header_value v | _ => str "Go-http-client/1.1" end in
          Ret (str "GET / HTTP/1.1" ++ crlf ++ str "Host: " ++ h2 ++ crlf ++
               match ua with [] => [] | _ => str "User-Agent: " ++ ua ++ crlf end ++ header_bytes h ++ crlf)
      end
  end.

(** ** The connection *)
Record ObfsConn := MkObfs {
  o_conn : conn;
  o_host : gostring;
  o_rbuf : list Z;
  o_wbuf : list Z;
  isServer : bool;
  headerDrained : bool;
  handshaked : bool;
}.
Definition NewObfsConn (c : conn) (host : gostring) (server : bool) : ObfsConn := MkObfs c host [] [] server false false.

Definition keyGUID : list Z := str "258EAFA5-E914-47DA-95CA-C5AB0DC85B11".
Definition computeAcceptKey (challengeKey : gostring) : gostring := b64_encode (sha1 (challengeKey ++ keyGUID)).

Definition refusal : list Z :=
  str "HTTP/1.1 503 Service Unavailable" ++ crlf ++ str "Content-Length: 0" ++ crlf ++ str "Date: " ++ Date ++ crlf ++ crlf.
Definition switching (key : gostring) : list Z :=
  str "HTTP/1.1 101 Switching Protocols" ++ crlf ++ str "Server: nginx/1.10.0" ++ crlf ++ str "Date: " ++ Date ++ crlf ++
  str "Connection: Upgrade" ++ crlf ++ str "Upgrade: websocket" ++ crlf ++
  str "Sec-WebSocket-Accept: " ++ computeAcceptKey key ++ crlf ++ crlf.

(** [io.Copy(&c.rbuf, r.Body)] of a body of [n] bytes. *)
Fixpoint copy_body (fuel n : nat) (acc : list Z) (b : breader) : breader * list Z * option error :=
  match n, fuel with
  | O, _ => (b, acc, None)
  | _, O => (b, acc, Some io_ErrUnexpectedEOF)
  | _, S f =>
      match br_Read (n `min` 512) b with
      | (b1, Ret d) => copy_body f (n - length d) (acc ++ d) b1
      | (b1, Fail e) => (b1, acc, Some (if decide (e = io_EOF) then io_ErrUnexpectedEOF else e))
      | (b1, Panic) => (b1, acc, Some io_ErrUnexpectedEOF)
      end
  end.

Definition with_bufs (c : conn) (rbuf wbuf : list Z) (s : ObfsConn) : ObfsConn :=
  MkObfs c (o_host s) rbuf wbuf (isServer s) (headerDrained s) (handshaked s).
Definition set_handshaked (s : ObfsConn) : ObfsConn :=
  MkObfs (o_conn s) (o_host s) (o_rbuf s) (o_wbuf s) (isServer s) (headerDrained s) true.

Definition serverHandshake : M ObfsConn unit := λ s,
  match ReadRequest (NewReader (o_conn s)) with
  | (b, Fail e) => (with_bufs (b_conn b) (o_rbuf s) (o_wbuf s) s, Fail e)
  | (b, Panic) => (with_bufs (b_conn b) (o_rbuf s) (o_wbuf s) s, Panic)
  | (b, Ret r) =>
      let '(b1, rbuf, err) :=
        if 0 <? ContentLength r then copy_body (S (br_size b)) (Z.to_nat (ContentLength r)) (o_rbuf s) b
        else (b, o_rbuf s ++ b_buf b, None) in
      let s1 := with_bufs (b_conn b1) rbuf (o_wbuf s) s in
      match err with
      | Some e => (s1, Fail e)
      | None =>
          let host := match ReqHost r with [] => UHost (ReqURL r) | h => h end in
          if negb (bool_decide (Method r = str "GET")) || negb (bool_decide (Header_Get (ReqHeader r) (str "Upgrade") = str "websocket"))
             || negb (bool_decide (host = o_host s))
          then (with_bufs (conn_write_ refusal (o_conn s1)) rbuf (o_wbuf s) s, Fail errBadRequest)
          else
            let reply := switching (Header_Get (ReqHeader r) (str "Sec-WebSocket-Key")) in
            match rbuf with
            | [] => match conn_write reply (o_conn s1) with
                    | (c, (_, Some e)) => (with_bufs c rbuf (o_wbuf s) s, Fail e)
                    | (c, (_, None)) => (with_bufs c rbuf (o_wbuf s) s, Ret tt)
                    end
            | _ => (with_bufs (o_conn s1) rbuf reply s, Ret tt)
            end
      end
  end.

(** [clientHandshake]; [rnd]: the 16 random bytes of the key. *)
Definition client_header (rnd : list Z) : Header :=
  Header_Set (str "Sec-WebSocket-Key") (b64_encode rnd)
    (Header_Set (str "Upgrade") (str "websocket")
       (Header_Set (str "Connection") (str "Upgrade") (Header_Set (str "User-Agent") Mozilla ∅))).
Definition clientHandshake (rnd : list Z) : M ObfsConn unit := λ s,
  match Request_Write (o_host s) (client_header rnd) with
  | Ret b => (with_bufs (o_conn s) (o_rbuf s) (o_wbuf s ++ b) s, Ret tt)
  | Fail e => (s, Fail e)
  | Panic => (s, Panic)
  end.

Definition Handshake (rnd : list Z) : M ObfsConn unit := λ s,
  if handshaked s then (s, Ret tt) else
  match (if isServer s then serverHandshake else clientHandshake rnd) s with
  | (s1, Ret _) => (set_handshaked s1, Ret tt)
  | r => r
  end.

(** The loop of [drainHeader]. *)
Fixpoint drain_loop (fuel : nat) (b : breader) : breader * res unit :=
  match fuel with
  | O => (b, Panic)
  | S f =>
      match ReadString 10 b with
      | (b1, Ret l) => if decide (l = crlf) then (b1, Ret tt) else drain_loop f b1
      | (b1, Fail e) => (b1, Fail e)
      | (b1, Panic) => (b1, Panic)
      end
  end.
Definition drainHeader : M ObfsConn unit := λ s,
  if headerDrained s then (s, Ret tt) else
  let s0 := MkObfs (o_conn s) (o_host s) (o_rbuf s) (o_wbuf s) (isServer s) true (handshaked s) in
  match drain_loop (S (br_size (NewReader (o_conn s)))) (NewReader (o_conn s)) with
  | (b, Ret _) => (with_bufs (b_conn b) (o_rbuf s ++ b_buf b) (o_wbuf s) s0, Ret tt)
  | (b, Fail e) => (with_bufs (b_conn b) (o_rbuf s) (o_wbuf s) s0, Fail e)
  | (b, Panic) => (with_bufs (b_conn b) (o_rbuf s) (o_wbuf s) s0, Panic)
  end.

Definition drain_client : M ObfsConn unit := λ s, if isServer s then (s, Ret tt) else drainHeader s.
Definition read_data (n : nat) : M ObfsConn (list Z) := λ s,
  match o_rbuf s with
  | [] => let '(c, x) := conn_read n (o_conn s) in (with_bufs c [] (o_wbuf s) s, x)
  | b => (with_bufs (o_conn s) (drop n b) (o_wbuf s) s, Ret (take n b))
  end.
Definition obfs_Read (rnd : list Z) (n : nat) : M ObfsConn (list Z) :=
  _ ← Handshake rnd; _ ← drain_client; read_data n.

(** [Write]: the count is [len(b)] also when the buffer could not be written out. *)
Definition write_data (b : list Z) : M ObfsConn nat := λ s,
  match o_wbuf s with
  | [] => match conn_write b (o_conn s) with
          | (c, (n, None)) => (with_bufs c (o_rbuf s) [] s, Ret n)
          | (c, (n, Some e)) => (with_bufs c (o_rbuf s) [] s, Fail e)
          end
  | w => match conn_write (w ++ b) (o_conn s) with
         | (c, (_, None)) => (with_bufs c (o_rbuf s) [] s, Ret (length b))
         | (c, (n, Some e)) => (with_bufs c (o_rbuf s) (drop n (w ++ b)) s, Fail e)
         end
  end.
Definition obfs_Write (rnd : list Z) (b : list Z) : M ObfsConn nat := _ ← Handshake rnd; write_data b.
End Obfs.

(** Calls one after the other: what the reads returned and how they ended. *)
Section Calls.
Context (idna : gostring → option gostring) (sha1 : list Z → list Z) (Date : list Z) (rnd : list Z).
Fixpoint obfs_writes (ds : list (list Z)) : M ObfsConn unit :=
  match ds with [] => mret tt | d :: r => _ ← obfs_Write idna sha1 Date rnd d; obfs_writes r end.
Fixpoint obfs_reads (ns : list nat) (s : ObfsConn) : ObfsConn * list (list Z) * res unit :=
  match ns with
  | [] => (s, [], Ret tt)
  | n :: r =>
      match obfs_Read idna sha1 Date rnd n s with
      | (s1, Ret d) => let '(s2, l, x) := obfs_reads r s1 in (s2, d :: l, x)
      | (s1, Fail e) => (s1, [], Fail e)
      | (s1, Panic) => (s1, [], Panic)
      end
  end.
End Calls.

(** ** The request of the client *)
Definition obfs_host_char (c : Z) : bool := is_alpha c || is_digit c || mem c "-._~:".

Lemma client_keys (k : gostring) :
  sort_keys (filter (λ kv, kv.1 ∉ reqWriteExcludeHeader) (map_to_list
    (Header_Set (str "Sec-WebSocket-Key") k
      (Header_Set (str "Upgrade") (str "websocket")
         (Header_Set (str "Connection") (str "Upgrade") (Header_Set (str "User-Agent") Mozilla ∅)))))) =
  [(str "Connection", [str "Upgrade"]); (str "Sec-Websocket-Key", [k]); (str "Upgrade", [str "websocket"])].
Proof. vm_compute. reflexivity. Qed.

(** A checker for headers. *)
Definition hdr_okb (kv : gostring * gostring) : bool :=
  negb (bool_decide (kv.1 = [])) && forallb is_token kv.1 && forallb validHeaderValueByte kv.2 &&
  match kv.2 with c :: _ => negb (c =? 32) && negb (c =? 9) | [] => false end &&
  match reverse kv.2 with c :: _ => negb (c =? 32) && negb (c =? 9) | [] => false end.
Lemma hdr_okb_ok kv : hdr_okb kv = true → hdr_ok kv.
Proof.
  unfold hdr_okb. rewrite !andb_true_iff. intros [[[[H1 H2] H3] H4] H5].
  apply negb_true_iff, bool_decide_eq_false in H1.
  assert (∀ A (f : A → bool) l, forallb f l = true → Forall (λ x, f x = true) l) as Hfa.
  { intros A f l Hf. apply Forall_forall. intros x Hx. rewrite forallb_forall in Hf. by apply Hf, list_elem_of_In. }
  split; [split; auto|auto| |].
  - destruct kv.2 as [|c r]; [done|]. exists c, r. apply andb_true_iff in H4 as [? ?]. zify_bool. split_and!; [done|lia..].
  - destruct (reverse kv.2) as [|c r] eqn:E; [done|]. exists (reverse r), c. apply andb_true_iff in H5 as [? ?]. zify_bool.
    split_and!; [|lia..]. rewrite <-(reverse_involutive kv.2), E. by rewrite reverse_cons.
Qed.

(** All of a value is made of visible characters. *)
Definition visible (c : Z) : bool := (33 <=? c) && (c <=? 126).
Lemma hdr_visible k v : k ≠ [] → Forall (λ c, is_token c = true) k → v ≠ [] → Forall (λ c, visible c = true) v → hdr_ok (k, v).
Proof.
  intros Hk1 Hk2 Hv1 Hv2. assert (∀ c, visible c = true → c ≠ 32 ∧ c ≠ 9 ∧ validHeaderValueByte c = true) as Hvis.
  { unfold visible, validHeaderValueByte. intros c [Ha Hb]%andb_true_iff. zify_bool. split_and!; [lia..|].
    rewrite (proj2 (Z.leb_le 32 c)), (proj2 (Z.leb_le c 126)) by lia. by rewrite orb_true_r. }
  split; simpl; [done| | |].
  - eapply Forall_impl; [exact Hv2|]. intros c Hc. apply Hvis, Hc.
  - destruct v as [|c r]; [done|]. apply Forall_cons in Hv2 as [Hc _]. apply Hvis in Hc as (? & ? & _). eauto.
  - destruct (exists_last Hv1) as (r & c & ->). apply Forall_app in Hv2 as [_ Hv2]. apply Forall_cons in Hv2 as [Hc _].
    apply Hvis in Hc as (? & ? & _). eauto.
Qed.

Lemma b64_char_visible v : 0 ≤ v < 64 → visible (b64_char v) = true.
Proof. intros Hv. unfold b64_char, visible. repeat case_match; zify_bool; apply andb_true_iff; split; apply Z.leb_le; lia. Qed.
Lemma lor_bound x y n : 0 ≤ n → 0 ≤ x < 2 ^ n → 0 ≤ y < 2 ^ n → 0 ≤ Z.lor x y < 2 ^ n.
Proof.
  intros Hn Hx Hy. split; [apply Z.lor_nonneg; lia|].
  rewrite <-(Z.mod_small x (2 ^ n)), <-(Z.mod_small y (2 ^ n)), <-!Z.land_ones, <-Z.land_lor_distr_l, Z.land_ones by done.
  apply Z.mod_pos_bound. lia.
Qed.
Lemma land_bound x n : 0 ≤ n → 0 ≤ Z.land x (Z.ones n) < 2 ^ n.
Proof. intros Hn. rewrite Z.land_ones by done. apply Z.mod_pos_bound. lia. Qed.
Lemma shr_bound x k n : 0 ≤ k → 0 ≤ n → 0 ≤ x < 2 ^ (n + k) → 0 ≤ Z.shiftr x k < 2 ^ n.
Proof.
  intros Hk Hn Hx. rewrite Z.shiftr_div_pow2 by done. split; [apply Z.div_pos; lia|].
  apply Z.div_lt_upper_bound; [lia|]. rewrite <-Z.pow_add_r by done. rewrite (Z.add_comm k). lia.
Qed.
Lemma shl_bound x k n : 0 ≤ k → 0 ≤ n → 0 ≤ x < 2 ^ n → 0 ≤ Z.shiftl x k < 2 ^ (n + k).
Proof. intros Hk Hn Hx. rewrite Z.shiftl_mul_pow2, Z.pow_add_r by done. nia. Qed.

Lemma b64_encode_visible l : wf_bytes l → Forall (λ c, visible c = true) (b64_encode l).
Proof.
  assert (∀ a, is_byte a → 0 ≤ Z.shiftr a 2 < 2 ^ 6) as H2 by (intros a Ha; apply shr_bound; [lia..|exact Ha]).
  assert (∀ a, is_byte a → 0 ≤ Z.shiftr a 4 < 2 ^ 6) as H4.
  { intros a Ha. pose proof (shr_bound a 4 4 ltac:(lia) ltac:(lia) Ha). lia. }
  assert (∀ a, is_byte a → 0 ≤ Z.shiftr a 6 < 2 ^ 6) as H6.
  { intros a Ha. pose proof (shr_bound a 6 2 ltac:(lia) ltac:(lia) Ha). lia. }
  assert (∀ a, 0 ≤ Z.shiftl (Z.land a 3) 4 < 2 ^ 6) as L3.
  { intros a. apply (shl_bound _ 4 2); [lia..|]. apply (land_bound a 2). lia. }
  assert (∀ a, 0 ≤ Z.shiftl (Z.land a 15) 2 < 2 ^ 6) as L15.
  { intros a. apply (shl_bound _ 2 4); [lia..|]. apply (land_bound a 4). lia. }
  assert (∀ a, 0 ≤ Z.land a 63 < 2 ^ 6) as L63 by (intros a; apply (land_bound a 6); lia).
  assert (∀ v, 0 ≤ v < 2 ^ 6 → visible (b64_char v) = true) as Hc by (intros v Hv; apply b64_char_visible, Hv).
  assert (∀ x y, 0 ≤ x < 2 ^ 6 → 0 ≤ y < 2 ^ 6 → 0 ≤ Z.lor x y < 2 ^ 6) as HL by (intros x y Hx Hy; by apply lor_bound).
  revert l. fix IH 1. intros l Hw. destruct l as [|a [|b [|c r]]]; simpl; unfold wf_bytes in Hw; rewrite ?Forall_cons in Hw.
  - constructor.
  - destruct Hw as [Ha _]. repeat constructor; apply Hc; auto.
  - destruct Hw as (Ha & Hb & _). repeat constructor; apply Hc; auto.
  - destruct Hw as (Ha & Hb & Hcb & Hr). do 4 (constructor; [apply Hc; auto|]). by apply IH.
Qed.

Lemma header_value_id kv : hdr_ok kv → header_value kv.2 = kv.2.
Proof.
  intros [_ Hv (c & r & Ec & Hc1 & Hc2) (r' & c' & Ec' & Hc3 & Hc4)]. unfold header_value.
  assert ((λ c, if (c =? 10) || (c =? 13) then 32 else c) <$> kv.2 = kv.2) as ->.
  { clear -Hv. induction kv.2 as [|x l IH]; [done|]. apply Forall_cons in Hv as [Hx Hl]. apply value_props in Hx as [? ?].
    rewrite fmap_cons, IH by done. by rewrite (proj2 (Z.eqb_neq x 10)), (proj2 (Z.eqb_neq x 13)). }
  rewrite Ec. apply (trim_space_id c r r' c'); congruence || done.
Qed.

(** The headers of the request. *)
Definition client_hdrs (host key : gostring) : list (gostring * gostring) :=
  [(str "Host", host); (str "User-Agent", Mozilla); (str "Connection", str "Upgrade");
   (str "Sec-Websocket-Key", key); (str "Upgrade", str "websocket")].
Definition client_request (host key : gostring) : list Z :=
  str "GET / HTTP/1.1" ++ crlf ++ hdr_bytes (client_hdrs host key) ++ crlf.

Section Handshakes.
Context (idna : gostring → option gostring) (sha1 : list Z → list Z) (Date : list Z).
Context (host : gostring) (Hne : host ≠ []) (Hhost : Forall (λ c, obfs_host_char c = true) host).
Context (rnd : list Z) (Hrnd : wf_bytes rnd) (Hrlen : length rnd = 16%nat).
Abbreviation key := (b64_encode rnd).

Lemma host_visible : Forall (λ c, visible c = true) host.
Proof.
  eapply Forall_impl; [exact Hhost|]. intros c. unfold obfs_host_char, visible, is_alpha, is_digit.
  rewrite !orb_true_iff, !andb_true_iff, !Z.leb_le. intros [[[[? ?]|[? ?]]|[? ?]]|Hm]; try lia.
  unfold mem in Hm. apply not_false_iff_true in Hm.
  destruct (decide (33 ≤ c ∧ c ≤ 126)) as [|Hn]; [done|]. exfalso. apply Hm. apply contains_byte_false.
  intros Hin. apply Hn. clear -Hin. unfold str, bytes_of_string in Hin. simpl in Hin.
  repeat (apply elem_of_cons in Hin as [->|Hin]; [unfold byte_of_ascii; simpl; lia|]). by apply elem_of_nil in Hin.
Qed.
Lemma key_ne : key ≠ [].
Proof. by destruct rnd as [|a [|b [|c r]]]. Qed.

Lemma client_hdrs_ok : Forall hdr_ok (client_hdrs host key).
Proof.
  unfold client_hdrs. repeat (apply Forall_cons; split); [|apply hdr_okb_ok; vm_compute; reflexivity
    |apply hdr_okb_ok; vm_compute; reflexivity| |apply hdr_okb_ok; vm_compute; reflexivity|constructor].
  - apply hdr_visible; [done|repeat constructor|done|apply host_visible].
  - apply hdr_visible; [done|repeat constructor|apply key_ne|by apply b64_encode_visible].
Qed.

Lemma Request_Write_client : Request_Write idna host (client_header rnd) = Ret (client_request host key).
Proof.
  pose proof client_hdrs_ok as HF. unfold client_hdrs in HF. rewrite !Forall_cons in HF.
  destruct HF as (H1 & H2 & H3 & H4 & H5 & _).
  apply header_value_id in H2, H3, H4, H5. simpl in H2, H3, H4, H5.
  assert (Forall (λ c, (c <? 128) = true) host) as Hasc.
  { eapply Forall_impl; [exact host_visible|]. intros c. unfold visible. rewrite andb_true_iff, !Z.leb_le, Z.ltb_lt. lia. }
  assert (ValidHostHeader host = true) as Hvalid.
  { apply forallb_Forall_true. eapply Forall_impl; [exact Hhost|]. intros c. unfold obfs_host_char. rewrite !orb_true_iff.
    intros [[?|?]|Hm]; [tauto|tauto|]. right. unfold mem in *. apply not_false_iff_true. intros Hf%contains_byte_false.
    apply not_false_iff_true in Hm. apply Hm, contains_byte_false. intros Hin. apply Hf. clear -Hin.
    unfold str, bytes_of_string in *. simpl in *. set_solver. }
  unfold Request_Write. destruct host as [|h0 ht] eqn:Eh; [done|]. rewrite <-Eh in *.
  unfold PunycodeHostPort. rewrite (forallb_Forall_true _ _ Hasc), Hvalid.
  assert (removeZone host = host) as ->.
  { rewrite Eh. unfold removeZone. rewrite Eh in Hhost. apply Forall_cons in Hhost as [Hc _].
    repeat case_match; try done; exfalso; by vm_compute in Hc. }
  assert (client_header rnd !! str "User-Agent" = Some [Mozilla]) as -> by (vm_compute; reflexivity).
  rewrite H2. unfold header_bytes, client_header. rewrite client_keys. cbn [fmap list_fmap concat fst snd].
  rewrite H3, H4, H5. unfold client_request, hdr_bytes, client_hdrs, hdr_line. cbn [fmap list_fmap concat fst snd].
  f_equal. rewrite !app_nil_r. unfold Mozilla at 1. rewrite <-?app_assoc. reflexivity.
Qed.

(** *** The server reads the client's request *)
Lemma client_request_parsed :
  ∃ r, make_request (str "GET", str "/", str "HTTP/1.1", (1, 1), MkURL [] [] None [] (str "/"))
         (foldl add_hdr ∅ (client_hdrs host key)) = Ret r ∧
    Method r = str "GET" ∧ ReqHost r = host ∧ ContentLength r = 0 ∧
    Header_Get (ReqHeader r) (str "Upgrade") = str "websocket" ∧ Header_Get (ReqHeader r) (str "Sec-WebSocket-Key") = key.
Proof.
  clear. generalize (b64_encode rnd) as k. intros k. eexists. split; [vm_compute; reflexivity|]. split_and!; vm_compute; reflexivity.
Qed.

Abbreviation reply := (switching sha1 Date key).

Lemma serverHandshake_ok c m :
  full_chunks c → pending c = client_request host key ++ m → c_wbudget c = None →
  ∃ c1 rbuf wbuf, serverHandshake sha1 Date (NewObfsConn c host true) = (MkObfs c1 host rbuf wbuf true false false, Ret tt) ∧
    rbuf ++ pending c1 = m ∧ c_rerr c1 = c_rerr c ∧ c_wbudget c1 = None ∧ c_out c1 ++ wbuf = c_out c ++ reply ∧
    (wbuf = [] ∨ wbuf = reply).
Proof.
  intros Hf Hp Hw. unfold serverHandshake. cbn [o_conn NewObfsConn].
  destruct (ReadRequest_ok (str "GET / HTTP/1.1") (client_hdrs host key) m
    (str "GET", str "/", str "HTTP/1.1", (1, 1), MkURL [] [] None [] (str "/")) (NewReader c)) as (b & -> & Hb & Hok & Hs).
  - exact client_hdrs_ok.
  - apply contains_byte_false. vm_compute. reflexivity.
  - vm_compute. reflexivity.
  - split; simpl; [done|lia|done].
  - change (br_pending (NewReader c)) with (pending c). rewrite Hp. unfold client_request. by rewrite <-!app_assoc.
  - destruct client_request_parsed as (r & -> & HM & HH & HC & HU & HK). destruct Hs as (Hs1 & Hs2 & Hs3 & Hs4). simpl in Hs1, Hs2, Hs3.
    rewrite HC. cbn [Z.ltb Z.compare]. rewrite HM, HU, HH, HK. cbn [o_rbuf o_wbuf o_host NewObfsConn app].
    assert (match host with [] => UHost (ReqURL r) | z :: l => z :: l end = host) as -> by (by destruct host).
    rewrite !bool_decide_true by done. cbn [negb orb]. unfold br_pending in Hb.
    destruct (b_buf b) as [|x buf] eqn:Eb; cbn [o_conn with_bufs].
    + rewrite conn_write_unbounded by congruence. eexists _, [], []. split; [reflexivity|].
      cbn [set_out c_out c_rerr c_wbudget app pending c_in]. split_and!; [done|congruence|done|by rewrite app_nil_r, Hs2|by left].
    + eexists _, (x :: buf), reply. split; [reflexivity|]. split_and!; [done|congruence|congruence|congruence|by right].
Qed.

(** *** The client skips the server's reply *)
Lemma drain_lines ls m : ∀ fuel b, Forall (λ l, (10 ∉ l) ∧ l ≠ []) ls → (length ls < fuel)%nat → br_ok b →
  br_pending b = concat ((λ l, l ++ crlf) <$> ls) ++ crlf ++ m →
  ∃ b1, drain_loop fuel b = (b1, Ret tt) ∧ br_pending b1 = m ∧ br_ok b1 ∧ same_conn (b_conn b) (b_conn b1).
Proof.
  induction ls as [|l ls IH]; intros fuel b HF Hfu Hok Hp; (destruct fuel as [|fuel]; [simpl in Hfu; lia|]); cbn [drain_loop].
  - destruct (ReadString_ok 10 [13] m b) as (b1 & -> & ?); [done|done|set_solver|]. rewrite decide_True by done. by exists b1.
  - apply Forall_cons in HF as [[Hl1 Hl2] HF]. cbn [fmap list_fmap concat] in Hp.
    destruct (ReadString_ok 10 (l ++ [13]) (concat ((λ l, l ++ crlf) <$> ls) ++ crlf ++ m) b) as (b1 & -> & Hp1 & Hok1 & Hs1); [done| |set_solver|].
    { rewrite Hp. unfold crlf at 1. by rewrite <-!app_assoc. }
    rewrite decide_False.
    2: { intros H. apply (f_equal length) in H. rewrite !length_app in H. destruct l; simpl in H; [done|lia]. }
    destruct (IH fuel b1 HF) as (b2 & -> & ? & ? & ?); [simpl in Hfu; lia|done|done|]. exists b2. split_and!; [done..|by etrans].
Qed.

Context (Hsha : ∀ x, wf_bytes (sha1 x)) (HDate : 10 ∉ Date).

Definition reply_lines : list (list Z) :=
  [str "HTTP/1.1 101 Switching Protocols"; str "Server: nginx/1.10.0"; str "Date: " ++ Date; str "Connection: Upgrade";
   str "Upgrade: websocket"; str "Sec-WebSocket-Accept: " ++ computeAcceptKey sha1 key].
Lemma reply_split : reply = concat ((λ l, l ++ crlf) <$> reply_lines) ++ crlf.
Proof. unfold switching, reply_lines. cbn [fmap list_fmap concat]. rewrite app_nil_r. rewrite <-!app_assoc. reflexivity. Qed.
Lemma reply_lines_ok : Forall (λ l, (10 ∉ l) ∧ l ≠ []) reply_lines.
Proof.
  unfold reply_lines. repeat (apply Forall_cons; split); [..|constructor]; (split; [|discriminate]);
    try (apply contains_byte_false; vm_compute; reflexivity).
  - apply not_elem_of_app. split; [apply contains_byte_false; vm_compute; reflexivity|done].
  - apply not_elem_of_app. split; [apply contains_byte_false; vm_compute; reflexivity|]. intros Hin.
    pose proof (b64_encode_visible _ (Hsha (key ++ keyGUID))) as Hv. rewrite Forall_forall in Hv. apply Hv in Hin. by vm_compute in Hin.
Qed.

Lemma drain_reply c m : full_chunks c → pending c = reply ++ m →
  ∃ b, drain_loop (S (br_size (NewReader c))) (NewReader c) = (b, Ret tt) ∧ b_buf b ++ pending (b_conn b) = m ∧ same_conn c (b_conn b).
Proof.
  intros Hf Hp. destruct (drain_lines reply_lines m (S (br_size (NewReader c))) (NewReader c)) as (b & E & Hb & _ & Hs).
  - exact reply_lines_ok.
  - unfold br_size. cbn [b_buf b_conn NewReader length]. pose proof (pending_size c) as Hps. rewrite Hp, length_app in Hps.
    assert (6 ≤ length reply)%nat; [|simpl; lia]. unfold switching. rewrite length_app. simpl. lia.
  - split; simpl; [done|lia|done].
  - change (br_pending (NewReader c)) with (pending c). by rewrite Hp, reply_split, <-!app_assoc.
  - by exists b.
Qed.

Lemma drain_loop_same fuel : ∀ b b' x, drain_loop fuel b = (b', x) → same_conn (b_conn b) (b_conn b').
Proof.
  induction fuel as [|fuel IH]; intros b b' x; cbn [drain_loop]; [by intros [= <- _]|].
  destruct (ReadString 10 b) as [b1 y] eqn:E. apply ReadString_same in E. destruct y as [l|e|]; [|by intros [= <- _]..].
  case_decide; [by intros [= <- _]|]. intros Hrec%IH. by etrans.
Qed.

(** *** What each end has sent and will deliver *)
Abbreviation obfs_Read_ := (obfs_Read idna sha1 Date).
Abbreviation obfs_Write_ := (obfs_Write idna sha1 Date).

Record SrvIn (m : list Z) (e : error) (s : ObfsConn) : Prop := {
  si_role : isServer s = true;
  si_err : c_rerr (o_conn s) = e;
  si_data : if handshaked s then o_rbuf s ++ pending (o_conn s) = m
            else s = NewObfsConn (o_conn s) host true ∧ full_chunks (o_conn s) ∧ c_wbudget (o_conn s) = None ∧
                 pending (o_conn s) = client_request host key ++ m;
}.
Record CliIn (m : list Z) (e : error) (s : ObfsConn) : Prop := {
  ci_role : isServer s = false;
  ci_hand : handshaked s = true;
  ci_err : c_rerr (o_conn s) = e;
  ci_data : if headerDrained s then o_rbuf s ++ pending (o_conn s) = m
            else o_rbuf s = [] ∧ full_chunks (o_conn s) ∧ pending (o_conn s) = reply ++ m;
}.
(** [hdr]: the header in front of the payload [o]. *)
Record Out (server : bool) (hdr o : list Z) (s : ObfsConn) : Prop := {
  out_role : isServer s = server;
  out_hand : handshaked s = true;
  out_budget : c_wbudget (o_conn s) = None;
  out_data : c_out (o_conn s) ++ o_wbuf s = hdr ++ o;
  out_wbuf : o_wbuf s = [] ∨ (o = [] ∧ o_wbuf s = hdr);
}.

Lemma read_data_ok n s m : (0 < n)%nat → o_rbuf s ++ pending (o_conn s) = m →
  match read_data n s with
  | (s', Ret d) => (length d ≤ n)%nat ∧ m = d ++ o_rbuf s' ++ pending (o_conn s') ∧ s' = with_bufs (o_conn s') (o_rbuf s') (o_wbuf s) s ∧
                   same_conn (o_conn s) (o_conn s')
  | (s', Fail e) => m = [] ∧ e = c_rerr (o_conn s) ∧ s' = s
  | (_, Panic) => False
  end.
Proof.
  intros Hn Hm. unfold read_data. destruct (o_rbuf s) as [|x r] eqn:Er.
  - destruct (conn_read n (o_conn s)) as [c [d|e|]] eqn:E; cbn [o_conn o_rbuf with_bufs].
    + destruct (conn_read_pending _ _ _ _ E) as [Hd Hl]. split_and!; [done|simpl in *; congruence|done|].
      unfold conn_read in E. destruct (c_in (o_conn s)); [done|]. by case_match; injection E as <- <-.
    + apply conn_read_Fail in E as (-> & Hi & ->). simpl in Hm. unfold pending in Hm. rewrite Hi in Hm.
      split_and!; [done|done|]. destruct s. simpl in *. by subst.
    + by apply conn_read_nopanic in E.
  - cbn [o_conn o_rbuf with_bufs]. split_and!; [rewrite length_take; lia|by rewrite app_assoc, take_drop|done|done].
Qed.

Lemma srv_read n rnd' s m e : (0 < n)%nat → SrvIn m e s →
  match obfs_Read_ rnd' n s with
  | (s', Ret d) => (∃ m', m = d ++ m' ∧ SrvIn m' e s') ∧ handshaked s' = true
  | (s', Fail e') => m = [] ∧ e' = e ∧ SrvIn [] e s' ∧ handshaked s' = true
  | (_, Panic) => False
  end.
Proof.
  intros Hn [Hr He Hd].
  cut (∃ s1, Handshake idna sha1 Date rnd' s = (s1, Ret tt) ∧ isServer s1 = true ∧ handshaked s1 = true ∧ c_rerr (o_conn s1) = e ∧
             o_rbuf s1 ++ pending (o_conn s1) = m).
  { intros (s1 & E1 & Hr1 & Hh1 & He1 & Hd1). unfold obfs_Read, mbind, M_bind. rewrite E1. unfold drain_client. rewrite Hr1.
    pose proof (read_data_ok n s1 m Hn Hd1) as H. destruct (read_data n s1) as [s' [d|e'|]]; [| |done].
    - destruct H as (Hl & Hm & Hs' & Hsame). split; [exists (o_rbuf s' ++ pending (o_conn s'))|].
      + split; [done|]. split; [by rewrite Hs'|destruct Hsame; congruence|]. by rewrite Hs'; simpl; rewrite Hh1.
      + by rewrite Hs'.
    - destruct H as (-> & -> & ->). split_and!; [done|done| |done]. split; [done|done|]. by rewrite Hh1. }
  unfold Handshake. destruct (handshaked s) eqn:Hh; [by exists s|]. destruct Hd as (Hs & Hf & Hw & Hp). rewrite Hr, Hs.
  destruct (serverHandshake_ok (o_conn s) m Hf Hp Hw) as (c1 & rbuf & wbuf & -> & Hm & Hre & _).
  eexists. split; [reflexivity|]. simpl. split_and!; [done|done|congruence|done].
Qed.

Lemma cli_read n rnd' s m e : (0 < n)%nat → CliIn m e s →
  match obfs_Read_ rnd' n s with
  | (s', Ret d) => ∃ m', m = d ++ m' ∧ CliIn m' e s'
  | (s', Fail e') => m = [] ∧ e' = e ∧ CliIn [] e s'
  | (_, Panic) => False
  end.
Proof.
  intros Hn [Hr Hh He Hd]. unfold obfs_Read, mbind, M_bind, Handshake. rewrite Hh. unfold drain_client. rewrite Hr.
  cut (∃ s1, drainHeader s = (s1, Ret tt) ∧ isServer s1 = false ∧ handshaked s1 = true ∧ headerDrained s1 = true ∧
             c_rerr (o_conn s1) = e ∧ o_rbuf s1 ++ pending (o_conn s1) = m).
  { intros (s1 & E1 & Hr1 & Hh1 & Hd1 & He1 & Hm1). rewrite E1.
    pose proof (read_data_ok n s1 m Hn Hm1) as H. destruct (read_data n s1) as [s' [d|e'|]]; [| |done].
    - destruct H as (Hl & Hm & Hs' & Hsame). exists (o_rbuf s' ++ pending (o_conn s')). split; [done|].
      split; [by rewrite Hs'|by rewrite Hs'|destruct Hsame; congruence|]. by rewrite Hs'; simpl; rewrite Hd1.
    - destruct H as (-> & -> & ->). split_and!; [done|done|]. split; [done|done|done|]. by rewrite Hd1. }
  unfold drainHeader. destruct (headerDrained s) eqn:Hdr; [by exists s|]. destruct Hd as (Hrb & Hf & Hp).
  destruct (drain_reply (o_conn s) m Hf Hp) as (b & -> & Hb & Hsame). eexists. split; [reflexivity|]. simpl. rewrite Hrb.
  destruct Hsame. split_and!; [done|done|done|congruence|done].
Qed.

(** Writing once the handshake is done. *)
Lemma out_write b rnd' server hdr o s : hdr ≠ [] → Out server hdr o s →
  ∃ s', obfs_Write_ rnd' b s = (s', Ret (length b)) ∧ Out server hdr (o ++ b) s' ∧ o_wbuf s' = [] ∧
        pending (o_conn s') = pending (o_conn s) ∧ c_in (o_conn s') = c_in (o_conn s) ∧ c_rerr (o_conn s') = c_rerr (o_conn s) ∧
        o_rbuf s' = o_rbuf s ∧ headerDrained s' = headerDrained s.
Proof.
  intros Hhdr [Hr Hh Hb Hd Hw]. unfold obfs_Write, mbind, M_bind, Handshake. rewrite Hh. unfold write_data.
  destruct (o_wbuf s) as [|x w] eqn:Ew.
  - rewrite conn_write_unbounded by done. eexists. split; [reflexivity|]. rewrite app_nil_r in Hd.
    cbn [o_wbuf with_bufs o_conn o_rbuf headerDrained set_out c_in c_rerr pending].
    split_and!; try done. split; try done; [|by left]. cbn [o_conn with_bufs set_out c_out o_wbuf]. by rewrite app_nil_r, Hd, <-app_assoc.
  - rewrite conn_write_unbounded by done. eexists. split; [reflexivity|].
    cbn [o_wbuf with_bufs o_conn o_rbuf headerDrained set_out c_in c_rerr pending].
    split_and!; try done. split; try done; [|by left]. cbn [o_conn with_bufs set_out c_out o_wbuf].
    by rewrite app_nil_r, !app_assoc, Hd.
Qed.

Lemma out_writes rnd' server hdr ds : ∀ o s, hdr ≠ [] → Out server hdr o s →
  ∃ s', obfs_writes idna sha1 Date rnd' ds s = (s', Ret tt) ∧ Out server hdr (o ++ concat ds) s' ∧ (ds ≠ [] → o_wbuf s' = []) ∧
        c_in (o_conn s') = c_in (o_conn s) ∧ c_rerr (o_conn s') = c_rerr (o_conn s) ∧
        o_rbuf s' = o_rbuf s ∧ headerDrained s' = headerDrained s.
Proof.
  induction ds as [|d ds IH]; intros o s Hh HO; cbn [obfs_writes concat].
  - exists s. rewrite app_nil_r. done.
  - destruct (out_write d rnd' server hdr o s Hh HO) as (s1 & E & HO1 & Hw & _ & Hi & He & Hr & Hd).
    destruct (IH (o ++ d) s1 Hh HO1) as (s2 & E2 & HO2 & Hw2 & Hi2 & He2 & Hr2 & Hd2).
    exists s2. unfold mbind, M_bind. rewrite E, E2, app_assoc. split_and!; try done; try congruence.
    intros _. destruct ds; [|by apply Hw2]. injection E2 as <-. done.
Qed.

Lemma reads_keep_out rnd' ns : ∀ server hdr o s s' l x,
  Out server hdr o s → obfs_reads idna sha1 Date rnd' ns s = (s', l, x) → Out server hdr o s'.
Proof.
  induction ns as [|n ns IH]; intros server hdr o s s' l x HO H; cbn [obfs_reads] in H; [by simplify_eq|].
  destruct (obfs_Read_ rnd' n s) as [s1 r] eqn:E.
  assert (Out server hdr o s1) as HO1.
  { destruct HO as [Hr Hh Hb Hd Hw]. unfold obfs_Read, mbind, M_bind, Handshake in E. rewrite Hh in E.
    assert (∀ s0 y s2, c_out (o_conn s0) = c_out (o_conn s) → c_wbudget (o_conn s0) = None → o_wbuf s0 = o_wbuf s →
      isServer s0 = server → handshaked s0 = true → read_data n s0 = (s2, y) → Out server hdr o s2) as Hread.
    { intros s0 y s2 H1 H2 H3 H4 H5 HR. unfold read_data in HR. destruct (o_rbuf s0) eqn:Er.
      - destruct (conn_read n (o_conn s0)) as [c z] eqn:Ec. injection HR as <- <-.
        assert (c_out c = c_out (o_conn s0) ∧ c_wbudget c = c_wbudget (o_conn s0)) as [? ?].
        { unfold conn_read in Ec. destruct (c_in (o_conn s0)); [by injection Ec as <- _|]. by case_match; injection Ec as <- _. }
        split; simpl; congruence.
      - injection HR as <- <-. split; simpl; congruence. }
    unfold drain_client in E. destruct (isServer s) eqn:Ei; [eapply Hread; [..|exact E]; congruence|].
    unfold drainHeader in E. destruct (headerDrained s); [eapply Hread; [..|exact E]; congruence|].
    destruct (drain_loop _ (NewReader (o_conn s))) as [b y] eqn:Ed. apply drain_loop_same in Ed as (_ & Ho & Hbg & _). simpl in Ho, Hbg.
    destruct y as [u|e|]; [eapply Hread; [..|exact E]; simpl; congruence| |]; injection E as <- _; split; simpl; congruence. }
  destruct r as [d|e|]; [|by simplify_eq..]. destruct (obfs_reads idna sha1 Date rnd' ns s1) as [[s2 l2] x2] eqn:E2. simplify_eq.
  by eapply IH.
Qed.

Lemma client_request_ne : client_request host key ≠ [].
Proof. discriminate. Qed.
Lemma reply_ne : reply ≠ [].
Proof. discriminate. Qed.

(** A new client writes. *)
Lemma client_writes cc ds : c_wbudget cc = None → c_out cc = [] → ds ≠ [] →
  ∃ s, obfs_writes idna sha1 Date rnd ds (NewObfsConn cc host false) = (s, Ret tt) ∧
       Out false (client_request host key) (concat ds) s ∧ o_wbuf s = [] ∧ c_in (o_conn s) = c_in cc ∧
       c_rerr (o_conn s) = c_rerr cc ∧ o_rbuf s = [] ∧ headerDrained s = false.
Proof.
  intros Hb Ho Hds. destruct ds as [|d ds]; [done|]. cbn [obfs_writes concat].
  set (s1 := MkObfs cc host [] (client_request host key) false false true).
  assert (Handshake idna sha1 Date rnd (NewObfsConn cc host false) = (s1, Ret tt)) as Eh.
  { unfold Handshake. cbn [handshaked NewObfsConn isServer]. unfold clientHandshake. cbn [o_host NewObfsConn].
    rewrite Request_Write_client. done. }
  assert (Out false (client_request host key) [] s1) as HO.
  { split; try done; simpl; [|by right]. by rewrite Ho, app_nil_r. }
  destruct (out_writes rnd false _ (d :: ds) [] s1 client_request_ne HO) as (s & E & HOs & Hw & Hi & He & Hr & Hd).
  exists s. split_and!; try done; [|by apply Hw]. rewrite <-E. cbn [obfs_writes]. unfold mbind, M_bind.
  unfold obfs_Write, mbind, M_bind. rewrite Eh. unfold Handshake. done.
Qed.

(** What reads return: the data in order, and the error after it. *)
Definition delivered (m : list Z) (e : error) (got : list (list Z)) (x : res unit) : Prop :=
  match x with Ret _ => concat got `prefix_of` m | Fail e' => concat got = m ∧ e' = e | Panic => False end.

Lemma reads_delivered {P : list Z → ObfsConn → Prop} rnd' e :
  (∀ n s m, (0 < n)%nat → P m s → match obfs_Read_ rnd' n s with
     | (s', Ret d) => ∃ m', m = d ++ m' ∧ P m' s' | (_, Fail e') => m = [] ∧ e' = e | (_, Panic) => False end) →
  ∀ ns m s s' got x, Forall (λ n, 0 < n)%nat ns → P m s → obfs_reads idna sha1 Date rnd' ns s = (s', got, x) → delivered m e got x.
Proof.
  intros Hlaw. induction ns as [|n ns IH]; intros m s s' got x HF HP H; cbn [obfs_reads] in H.
  - injection H as <- <- <-. apply prefix_nil.
  - apply Forall_cons in HF as [Hn HF]. pose proof (Hlaw n s m Hn HP) as HL.
    destruct (obfs_Read_ rnd' n s) as [s1 [d|e'|]]; [| |done].
    + destruct HL as (m' & -> & HP'). destruct (obfs_reads idna sha1 Date rnd' ns s1) as [[s2 l] y] eqn:E. injection H as <- <- <-.
      specialize (IH m' s1 s2 l y HF HP' E). unfold delivered in *. destruct y as [u|e''|]; [|destruct IH as [<- ->]; done|done].
      simpl. by apply prefix_app.
    + destruct HL as [-> ->]. injection H as <- <- <-. done.
Qed.

(** The server's first read completes its handshake. *)
Lemma server_reads cs m ns rnd' t got x : full_chunks cs → pending cs = client_request host key ++ m → c_wbudget cs = None → c_out cs = [] →
  Forall (λ n, 0 < n)%nat ns → ns ≠ [] → obfs_reads idna sha1 Date rnd' ns (NewObfsConn cs host true) = (t, got, x) →
  delivered m (c_rerr cs) got x ∧ Out true reply [] t.
Proof.
  intros Hf Hp Hb Ho HF Hns H. split.
  - eapply (reads_delivered (P := λ m s, SrvIn m (c_rerr cs) s)); [|exact HF| |exact H]; [|by split].
    intros n s m0 Hn HP. pose proof (srv_read n rnd' s m0 _ Hn HP) as HL. destruct (obfs_Read_ rnd' n s) as [s1 [d|e|]]; [|tauto|done].
    by destruct HL as [? _].
  - destruct ns as [|n ns]; [done|].
    destruct (serverHandshake_ok cs m Hf Hp Hb) as (c1 & rbuf & wbuf & E & _ & _ & Hw1 & Hout & Hwb). rewrite Ho in Hout. simpl in Hout.
    assert (Out true reply [] (MkObfs c1 host rbuf wbuf true false true)) as HO.
    { split; try done; simpl; [by rewrite app_nil_r|tauto]. }
    eapply (reads_keep_out rnd' (n :: ns)); [exact HO|]. rewrite <-H. cbn [obfs_reads].
    assert (obfs_Read_ rnd' n (MkObfs c1 host rbuf wbuf true false true) = obfs_Read_ rnd' n (NewObfsConn cs host true)) as ->; [|done].
    unfold obfs_Read, mbind, M_bind, Handshake. cbn [handshaked NewObfsConn isServer].
    change (serverHandshake sha1 Date (MkObfs cs host [] [] true false false)) with (serverHandshake sha1 Date (NewObfsConn cs host true)).
    rewrite E. done.
Qed.

(** C27 (round trip): HTTP obfuscation is transparent for a host that is a plain ASCII name
    or address (letters, digits and -._~: only; an international name is sent in another
    form and refused), over connections whose writes do not fail and whose reads give at
    least a byte. Whatever the client writes, in whatever pieces, follows one request; a
    server for the same host that gets these bytes, in whatever chunks, delivers exactly
    the client's data, in order and up to the connection's own error; and once it
    has started to read, what it writes, after one reply, is what the client
    reads, likewise. *)
Theorem obfs_transparent cc cs ds ns rnd' s es ns' :
  c_wbudget cc = None → c_out cc = [] → ds ≠ [] → obfs_writes idna sha1 Date rnd ds (NewObfsConn cc host false) = (s, Ret tt) →
  full_chunks cs → pending cs = c_out (o_conn s) → c_wbudget cs = None → c_out cs = [] →
  Forall (λ n, 0 < n)%nat ns → ns ≠ [] → es ≠ [] → Forall (λ n, 0 < n)%nat ns' →
  let '(t, got, x) := obfs_reads idna sha1 Date rnd' ns (NewObfsConn cs host true) in
  delivered (concat ds) (c_rerr cs) got x ∧
  ∃ t', obfs_writes idna sha1 Date rnd' es t = (t', Ret tt) ∧
    (full_chunks cc → pending cc = c_out (o_conn t') →
     let '(_, got', x') := obfs_reads idna sha1 Date rnd ns' s in delivered (concat es) (c_rerr cc) got' x').
Proof.
  intros Hb Ho Hds E Hfs Hps Hbs Hos HF Hns Hes HF'.
  destruct (client_writes cc ds Hb Ho Hds) as (s0 & E0 & HO & Hw & Hi & He & Hr & Hd). rewrite E in E0. injection E0 as <-.
  pose proof (out_data _ _ _ _ HO) as Hout. rewrite Hw, app_nil_r in Hout.
  destruct (obfs_reads idna sha1 Date rnd' ns (NewObfsConn cs host true)) as [[t got] x] eqn:Er.
  destruct (server_reads cs (concat ds) ns rnd' t got x) as [Hdel HOt]; try done; [by rewrite Hps|]. split; [done|].
  destruct (out_writes rnd' true reply es [] t reply_ne HOt) as (t' & Et & HOt' & Hwt & _). exists t'. split; [done|].
  intros Hfc Hpc. pose proof (out_data _ _ _ _ HOt') as Hout'. rewrite (Hwt Hes), app_nil_r in Hout'.
  destruct (obfs_reads idna sha1 Date rnd ns' s) as [[s' got'] x'] eqn:Er'.
  eapply (reads_delivered (P := λ m s, CliIn m (c_rerr cc) s)); [|exact HF'| |exact Er'].
  - intros n s1 m0 Hn HP. pose proof (cli_read n rnd s1 m0 _ Hn HP) as HL.
    destruct (obfs_Read_ rnd n s1) as [s2 [d|e|]]; [done|tauto|done].
  - split; [apply HO|apply HO|done|]. rewrite Hd. unfold full_chunks in *. rewrite Hi. split_and!; [done|done|].
    unfold pending in *. rewrite Hi. by rewrite Hpc, Hout'.
Qed.
End Handshakes.

(** A client that reads before it writes: the request is only prepared, the server
    gets nothing and the client gets what an unanswered connection gives. *)
Lemma obfs_read_first_sends_nothing idna sha1 Date host rnd n c :
  c_in c = [] → ∃ s e, obfs_Read idna sha1 Date rnd n (NewObfsConn c host false) = (s, Fail e) ∧ c_out (o_conn s) = c_out c.
Proof.
  intros Hi. unfold obfs_Read, mbind, M_bind, Handshake. cbn [handshaked NewObfsConn isServer]. unfold clientHandshake.
  destruct (Request_Write idna (o_host (NewObfsConn c host false)) (client_header rnd)) as [b|e|] eqn:E; [| |].
  - unfold drain_client, drainHeader. cbn [isServer headerDrained set_handshaked with_bufs NewObfsConn o_conn].
    destruct (drain_loop (S (br_size (NewReader c))) (NewReader c)) as [b1 y] eqn:Ed.
    pose proof (drain_loop_same _ _ _ _ Ed) as (_ & Ho & _). simpl in Ho.
    assert (∃ e, y = Fail e) as [e ->]; [|by do 2 eexists].
    cbn [drain_loop] in Ed. unfold ReadString in Ed. cbn [ReadString_loop] in Ed. unfold ReadSlice in Ed.
    cbn [ReadSlice_loop b_buf NewReader index_byte b_err length b_conn] in Ed.
    assert ((bufSize <=? 0)%nat = false) as Hbs by (apply Nat.leb_gt; pose proof bufSize_pos; lia). rewrite Hbs in Ed.
    assert (fill (BR [] None c) = BR [] (Some (c_rerr c)) c) as Hfill.
    { assert (∀ t, fill_loop (S t) (BR [] None c) = BR [] (Some (c_rerr c)) c) as H; [|exact (H 99%nat)].
      intros t. cbn [fill_loop b_buf b_conn b_err]. unfold conn_read. by rewrite Hi. }
    change (BR [] None c) with (NewReader c) in Hfill. rewrite Hfill in Ed. cbn in Ed. injection Ed as <- <-. eauto.
  - by do 2 eexists.
  - exfalso. unfold Request_Write in E. repeat case_match; simplify_eq.
Qed.

(** *** Witness *)
Definition demo_sha1 : list Z → list Z := λ _, replicate 20 1.
Definition demo_cc : conn := Conn [] io_EOF [] None io_EOF.
Definition demo_s : ObfsConn :=
  fst (obfs_writes (λ _, None) demo_sha1 (str "now") (replicate 16 7) [str "hello "; str "world"] (NewObfsConn demo_cc (str "a.com") false)).
Definition demo_cs : conn := Conn [c_out (o_conn demo_s)] io_EOF [] None io_EOF.

Lemma obfs_transparent_witness :
  let '(_, got, x) := obfs_reads (λ _, None) demo_sha1 (str "now") [] [4%nat; 100%nat; 1%nat] (NewObfsConn demo_cs (str "a.com") true) in
  delivered (str "hello world") io_EOF got x.
Proof.
  pose proof (obfs_transparent (λ _, None) demo_sha1 (str "now") (str "a.com") ltac:(discriminate) ltac:(repeat constructor)
    (replicate 16 7) ltac:(repeat constructor; unfold is_byte; lia) eq_refl
    ltac:(intros x; repeat constructor; unfold is_byte; lia) ltac:(apply contains_byte_false; vm_compute; reflexivity)
    demo_cc demo_cs [str "hello "; str "world"] [4%nat; 100%nat; 1%nat] [] demo_s [str "x"] []
    eq_refl eq_refl ltac:(discriminate) ltac:(vm_compute; reflexivity)
    ltac:(constructor; [vm_compute; discriminate|constructor]) ltac:(vm_compute; reflexivity) eq_refl eq_refl
    ltac:(repeat constructor; lia) ltac:(discriminate) ltac:(discriminate) ltac:(constructor)) as H.
  destruct (obfs_reads (λ _, None) demo_sha1 (str "now") [] [4%nat; 100%nat; 1%nat] (NewObfsConn demo_cs (str "a.com") true)) as [[t got] x].
  exact (proj1 H).
Defined.
