(* ===== verification/HttpProxy.v ===== *)
(** * Package ss: the HTTP, mixed and port-forwarding front ends.

    Models [src/ss/http.go], [src/ss/mixed.go], [src/ss/tcptun.go], the
    buffered connection of [src/connection/connection.go] and the hop-by-hop headers of
    [src/proxy/header.go]. Requests are read by the model of net/http in GoHTTP.v;
    writing a request with its body again is a parameter. A front end ends with the
    proxy it selects, the remote address, and the bytes the proxy reads first, or, with
    interception, with the context the interceptor (Mitm.v) is called with. *)
From S2P Require Import Prelude GoIO GoNet GoURL GoBufio GoHTTP Cache FakeIP Rule Address Socks Resolver HttpObfs.
Local Open Scope Z_scope.

Definition errAuthFailed := errNew "http-proxy: user authentication failed".
Definition errHomeAccessed := errNew "http-proxy: home accessed".
Definition errCACertFileAccessed := errNew "http-proxy: ca cert file accessed".
Definition caCertFileRequestUrl : gostring := str "/cacert".

Definition proxyAgent : gostring := str "mini-ss/1.0".
Definition connectionEstablished : list Z :=
  str "HTTP/1.1 200 Connection Established" ++ crlf ++ str "Proxy-agent: " ++ proxyAgent ++ crlf ++ crlf.

(** [Response.Write] of a response without a body. *)
Definition Response_Write (status : gostring) (h : Header) : list Z :=
  str "HTTP/1.1 " ++ status ++ crlf ++ header_bytes h ++ str "Content-Length: 0" ++ crlf ++ crlf.
Definition homeResponse : list Z := Response_Write (str "200 OK") (Header_Add (str "Connection") (str "close") ∅).
Definition authResponse : list Z :=
  Response_Write (str "407 Proxy Authentication Required")
    (Header_Add (str "Proxy-Connection") (str "close") (Header_Add (str "Connection") (str "close")
       (Header_Add (str "Proxy-Authenticate") (str "Basic realm=" ++ [34] ++ str "mini-ss" ++ [34])
          (Header_Add (str "Proxy-Agent") proxyAgent ∅)))).

(** [proxy.RemoveHopByHopRequestHeaders]. *)
Definition hopByHopHeaders : list gostring :=
  [str "Connection"; str "Keep-Alive"; str "Proxy-Authenticate"; str "Proxy-Authorization"; str "Te"; str "Trailers";
   str "Transfer-Encoding"; str "Upgrade"; str "Proxy-Connection"].
Definition RemoveHopByHopRequestHeaders (h : Header) : Header := foldl (λ h k, Header_Del k h) h hopByHopHeaders.

(** [parseHostPort]; an empty target panics, and so does a lone bracket. *)
Definition parseHostPort (r : Request) : res (gostring * gostring) :=
  let connect := bool_decide (Method r = str "CONNECT") in
  let target := if connect then RequestURI r else ReqHost r in
  match SplitHostPort target with
  | inl (host, x :: port) => Ret (host, x :: port)
  | _ =>
      let port := if connect then [] else str "80" in
      match target with
      | [] => Panic
      | 91 :: _ => h ← slice target 1 (length target - 1); Ret (h, port)
      | _ => Ret (target, port)
      end
  end.

(** [handleHomeAccess]: whether the request is for the proxy itself. *)
Definition home_access (r : Request) : bool :=
  negb (bool_decide (Method r = str "CONNECT") ||
        negb (bool_decide (Header_Get (ReqHeader r) (str "Proxy-Connection") = [])) ||
        negb (bool_decide (Scheme (ReqURL r) = []))).

(** The credentials of a request; [None]: they do not decode. *)
Definition credentials (r : Request) : option (gostring * gostring) :=
  let proxyAuth := Header_Get (ReqHeader r) (str "Proxy-Authorization") in
  if negb (bool_decide (proxyAuth = [])) && contains proxyAuth (str "Basic") && (6 <=? length proxyAuth)%nat then
    data ← b64_decode (trim_prefix proxyAuth (str "Basic "));
    let '(u, p, _) := cut_byte 58 data in Some (u, p)
  else Some ([], []).

Record ReqContext := MkReqContext { ConnMethod : bool; rc_Host : gostring; rc_Port : gostring; rc_Addr : gostring; rc_Request : option Request }.

Section Http.
Context (LookupHost : gostring → Addr) (db_Country : Addr → option gostring).

(** The connection and the ruler. *)
Record hworld := HWorld { h_conn : conn; h_ruler : Ruler }.
Definition h_write (b : list Z) : M hworld unit := λ w, (HWorld (conn_write_ b (h_conn w)) (h_ruler w), Ret tt).
Definition h_match (host : gostring) : M hworld (gostring * bool) := λ w,
  let '(ru, host', x) := Ruler_Match LookupHost db_Country host (h_ruler w) in
  (HWorld (h_conn w) ru, b ← x; Ret (host', b)).
Definition h_select : M hworld gostring := λ w, (w, Select (h_ruler w)).

(** The [mitmHandler] as far as reading a request is concerned: [Some], if there is one, with the outcome of
    reading its CA file; and the response with that file. *)
Context (mitm : option (res (list Z))) (ca_response : list Z → list Z).

Definition handleHomeAccess (r : Request) : M hworld unit :=
  if negb (home_access r) then mret tt else
  match mitm with
  | Some caFile =>
      if bool_decide (Method r = str "GET") && has_prefix caCertFileRequestUrl (Path (ReqURL r)) then
        (ca ← mlift caFile; _ ← h_write (ca_response ca); mfail errCACertFileAccessed)
      else (_ ← h_write homeResponse; mfail errHomeAccessed)
  | None => _ ← h_write homeResponse; mfail errHomeAccessed
  end.

(** [readRequest]: with interception the rules are not asked. *)
Definition readRequest (httpAuth : option Auth) (r : Request) : M hworld ReqContext :=
  _ ← handleHomeAccess r;
  '(host0, port) ← mlift (parseHostPort r);
  '(host, ok) ← match mitm with None => h_match host0 | Some _ => mret (host0, true) end;
  if negb ok then mfail ErrRuleMatchDropped else
  '(username, password) ← mlift (match credentials r with Some x => Ret x | None => Fail (errNew "illegal base64 data") end);
  if match httpAuth with Some a => negb (Validate a username password) | None => false end
  then (_ ← h_write authResponse; mfail errAuthFailed) else
  let connect := bool_decide (Method r = str "CONNECT") in
  let ctx := MkReqContext connect host port (JoinHostPort host port) in
  if connect then (_ ← h_write connectionEstablished; mret (ctx None))
  else mret (ctx (Some (MkRequest (Method r) (RequestURI r) (ReqURL r) (RemoveHopByHopRequestHeaders (ReqHeader r)) (ReqHost r) (ContentLength r)))).

(** [Request.Write(rbuf)] with the body still in the reader. *)
Context (Request_WriteBody : Request → breader → breader * list Z).

(** What becomes of a connection: the proxy invoked, the remote address, and what the proxied connection
    reads before the client's further bytes; or the interceptor, with the context and the reader
    the body of the request is read from. *)
Inductive http_handed := HttpInvoke (proxy addr : gostring) (first : list Z) | HttpMitm (ctx : ReqContext) (body : breader).
(** [httpProxyServer.ServeTCP]. What the reader has buffered beyond the request is dropped. (The tracker
    that may be put around the connection is in Tracked.v.) *)
Definition http_ServeTCP (httpAuth : option Auth) (w : hworld) : hworld * res http_handed :=
  match ReadRequest (NewReader (h_conn w)) with
  | (b, Fail e) => (HWorld (b_conn b) (h_ruler w), Fail e)
  | (b, Panic) => (HWorld (b_conn b) (h_ruler w), Panic)
  | (b, Ret r) =>
      match readRequest httpAuth r (HWorld (b_conn b) (h_ruler w)) with
      | (w1, Fail e) => (w1, Fail e)
      | (w1, Panic) => (w1, Panic)
      | (w1, Ret ctx) =>
          match mitm with
          | Some _ => (w1, Ret (HttpMitm ctx (BR (b_buf b) (b_err b) (h_conn w1))))
          | None =>
          let '(w2, first) :=
            match rc_Request ctx with
            | Some r' => let '(b2, d) := Request_WriteBody r' (BR (b_buf b) (b_err b) (h_conn w1)) in (HWorld (b_conn b2) (h_ruler w1), d)
            | None => (w1, [])
            end in
          (proxy ← h_select; mret (HttpInvoke proxy (rc_Addr ctx) first)) w2
          end
      end
  end.

(** [tcpTunServer.ServeTCP]: everything goes to the one remote address. *)
Definition tcptun_ServeTCP (RemoteAddr : gostring) : M hworld (gostring * gostring) :=
  let host := match SplitHostPort RemoteAddr with inl (h, _) => h | inr _ => [] end in
  '(_, ok) ← h_match host;
  if negb ok then mfail ErrRuleMatchDropped else
  proxy ← h_select;
  mret (proxy, RemoteAddr).

(** ** [mixedServer.handleTCPConn]

    A [BufioConn] seen as a connection: the buffer comes first. (Later reads of it go
    through the same buffer, which can move the boundaries between the pieces but not
    the bytes.) *)
Definition unbuffer (b : breader) : conn :=
  match b_buf b with [] => b_conn b | l => set_in (l :: c_in (b_conn b)) (b_conn b) end.

Context {R : Type} `{!EnhancerOps R} (ListenLocalUDP : res gostring) (InvokePacket : gostring → res unit).

Inductive mixed := MixedSocks (x : option handed) | MixedHttp (x : http_handed) | MixedNothing.

Definition handleTCPConn (httpAuth socksAuth : option Auth) (w : world (R := R)) : world (R := R) * res mixed :=
  match Peek1 (NewReader (w_conn w)) with
  | (b, Ret 5) =>
      let '(w1, x) := ServeTCP LookupHost db_Country ListenLocalUDP InvokePacket (match mitm with Some _ => true | None => false end) socksAuth (World (unbuffer b) (w_res w) (w_ruler w)) in
      (w1, y ← x; Ret (MixedSocks y))
  | (b, Ret _) =>
      let '(w1, x) := http_ServeTCP httpAuth (HWorld (unbuffer b) (w_ruler w)) in
      (World (h_conn w1) (w_res w) (h_ruler w1), y ← x; Ret (MixedHttp y))
  | (b, _) => (World (unbuffer b) (w_res w) (w_ruler w), Ret MixedNothing)
  end.
End Http.

(** ** A CONNECT request *)
Definition reserved : list gostring := [str "Host"; str "Transfer-Encoding"; str "Content-Length"; str "Proxy-Authorization"].
Definition connect_target (host port : gostring) : gostring := host ++ str ":" ++ port.
Definition basic (user pass : gostring) : gostring := str "Basic " ++ b64_encode (user ++ str ":" ++ pass).
Definition connect_hdrs (host port user pass : gostring) (extra : list (gostring * gostring)) : list (gostring * gostring) :=
  (str "Host", connect_target host port) :: (str "Proxy-Authorization", basic user pass) :: extra.
Definition connect_line (host port : gostring) : list Z := str "CONNECT " ++ connect_target host port ++ str " HTTP/1.1".
Definition connect_request (host port user pass : gostring) (extra : list (gostring * gostring)) : list Z :=
  connect_line host port ++ crlf ++ hdr_bytes (connect_hdrs host port user pass extra) ++ crlf.

Lemma basic_credentials r user pass : wf_bytes user → wf_bytes pass → 58 ∉ user →
  Header_Get (ReqHeader r) (str "Proxy-Authorization") = basic user pass → credentials r = Some (user, pass).
Proof.
  intros Hu Hp Hc HG. unfold credentials. rewrite HG. unfold basic.
  assert (wf_bytes (user ++ str ":" ++ pass)) as Hw.
  { apply Forall_app. split; [done|]. change (str ":" ++ pass) with (58 :: pass). constructor; [unfold is_byte; lia|done]. }
  rewrite bool_decide_false by discriminate. cbn [negb andb].
  assert (contains (str "Basic " ++ b64_encode (user ++ str ":" ++ pass)) (str "Basic") = true) as ->.
  { apply contains_spec. exists [], (str " " ++ b64_encode (user ++ str ":" ++ pass)). reflexivity. }
  rewrite (proj2 (Nat.leb_le _ _)) by (rewrite length_app; simpl; lia). cbn [andb].
  assert (trim_prefix (str "Basic " ++ b64_encode (user ++ str ":" ++ pass)) (str "Basic ") = b64_encode (user ++ str ":" ++ pass)) as ->.
  { unfold trim_prefix. reflexivity. }
  rewrite b64_decode_encode by done. cbn [mbind option_bind]. unfold cut_byte. change (str ":" ++ pass) with (58 :: pass).
  rewrite index_byte_app by done. rewrite take_app_length, (cons_middle 58 user), app_assoc, drop_app_length' by (rewrite length_app; simpl; lia).
  done.
Qed.

Section Connect.
Context (host port user pass : gostring) (extra : list (gostring * gostring)).
Context (Hhne : host ≠ []) (Hhc : Forall (λ c, name_char c = true) host).
Context (Hpne : port ≠ []) (Hpd : Forall (λ c, is_digit c = true) port).
Context (Hu : wf_bytes user) (Hp : wf_bytes pass) (Hcol : 58 ∉ user).
Context (Hex : Forall hdr_ok extra) (Hres : Forall (λ kv, canon_loop true kv.1 ∉ reserved) extra).

Lemma target_visible : Forall (λ c, visible c = true) (connect_target host port).
Proof.
  assert (∀ c, name_char c = true → visible c = true) as Hn.
  { intros c Hc. apply name_char_host in Hc as (Hc & _). apply host_char_bounds in Hc. unfold visible.
    apply andb_true_iff. rewrite !Z.leb_le. lia. }
  assert (∀ c, is_digit c = true → visible c = true) as Hd.
  { intros c. unfold is_digit, visible. rewrite !andb_true_iff, !Z.leb_le. lia. }
  unfold connect_target. apply Forall_app. split; [by eapply Forall_impl|]. apply Forall_app. split; [|by eapply Forall_impl].
  by repeat constructor.
Qed.
Lemma target_no c : c ∈ [32; 10; 13] → c ∉ connect_target host port.
Proof. intros Hc Hin. pose proof target_visible as HF. rewrite Forall_forall in HF. apply HF in Hin. unfold visible in Hin.
  apply andb_true_iff in Hin as [H1 H2]. zify_bool. repeat (apply elem_of_cons in Hc as [->|Hc]; [lia|]). by apply elem_of_nil in Hc. Qed.

Lemma connect_hdrs_ok : Forall hdr_ok (connect_hdrs host port user pass extra).
Proof.
  unfold connect_hdrs. apply Forall_cons. split; [|apply Forall_cons; split; [|done]].
  - apply hdr_visible; [done|repeat constructor| |apply target_visible]. unfold connect_target. by destruct host.
  - assert (wf_bytes (user ++ str ":" ++ pass)) as Hw.
    { apply Forall_app. split; [done|]. change (str ":" ++ pass) with (58 :: pass). constructor; [unfold is_byte; lia|done]. }
    pose proof (b64_encode_visible _ Hw) as Hv.
    assert (hdr_ok (str "Proxy-Authorization", b64_encode (user ++ str ":" ++ pass))) as Hb.
    { apply hdr_visible; [done|repeat constructor| |done]. by destruct user as [|a [|b [|c u]]], pass as [|x [|y [|z q]]]. }
    destruct Hb as [Hk Hvv _ (r & c & Hlast & Hc)]. simpl in *. unfold basic. split; simpl; [done| | |].
    + do 6 (constructor; [reflexivity|]). exact Hvv.
    + exists 66, (str "asic " ++ b64_encode (user ++ str ":" ++ pass)). split_and!; [reflexivity|lia|lia].
    + exists (str "Basic " ++ r), c. split; [|done]. rewrite Hlast. reflexivity.
Qed.

(** What the request line and the header parse to. *)
Lemma connect_line_parsed :
  parse_request_line (connect_line host port) =
  Ret (str "CONNECT", connect_target host port, str "HTTP/1.1", (1, 1), MkURL [] [] None (connect_target host port) []).
Proof.
  unfold parse_request_line, connect_line.
  assert (cut_byte 32 (str "CONNECT " ++ connect_target host port ++ str " HTTP/1.1") =
          (str "CONNECT", connect_target host port ++ str " HTTP/1.1", true)) as -> by reflexivity.
  assert (cut_byte 32 (connect_target host port ++ str " HTTP/1.1") = (connect_target host port, str "HTTP/1.1", true)) as ->.
  { unfold cut_byte. change (str " HTTP/1.1") with (32 :: str "HTTP/1.1").
    rewrite index_byte_app by (apply target_no; set_solver). rewrite take_app_length.
    rewrite (cons_middle 32 (connect_target host port)), app_assoc, drop_app_length' by (rewrite length_app; simpl; lia). done. }
  cbn [andb negb]. assert (bool_decide (str "CONNECT" = []) || negb (forallb is_token (str "CONNECT")) = false) as -> by reflexivity.
  assert (ParseHTTPVersion (str "HTTP/1.1") = Some (1, 1)) as -> by reflexivity.
  assert (bool_decide (str "CONNECT" = str "CONNECT") && negb (has_prefix (str "/") (connect_target host port)) = true) as ->.
  { unfold connect_target. destruct host as [|c h] eqn:Eh; [done|]. apply Forall_cons in Hhc as [Hc _].
    rewrite bool_decide_true by done. cbn [andb app has_prefix str]. apply negb_true_iff.
    change (has_prefix (str "/") (c :: h ++ str ":" ++ port)) with ((47 =? c) && true). rewrite andb_true_r. apply Z.eqb_neq. intros <-. by vm_compute in Hc. }
  unfold url_ParseRequestURI. change (str "http://" ++ connect_target host port) with (str "http" ++ str "://" ++ connect_target host port).
  rewrite url_parse_simple; [|done|repeat constructor|].
  - unfold connect_target. change (str ":" ++ port) with (58 :: port). rewrite parseHost_name_port by done. reflexivity.
  - unfold connect_target. apply Forall_app. split; [by apply name_host_chars|]. apply Forall_app. split; [by repeat constructor|].
    eapply Forall_impl; [exact Hpd|]. intros c Hd. unfold host_char. rewrite Hd. by rewrite orb_true_r.
Qed.

Lemma connect_parsed :
  ∃ r, make_request (str "CONNECT", connect_target host port, str "HTTP/1.1", (1, 1), MkURL [] [] None (connect_target host port) [])
         (foldl add_hdr ∅ (connect_hdrs host port user pass extra)) = Ret r ∧
    Method r = str "CONNECT" ∧ RequestURI r = connect_target host port ∧
    Header_Get (ReqHeader r) (str "Proxy-Authorization") = basic user pass.
Proof.
  set (h := foldl add_hdr ∅ (connect_hdrs host port user pass extra)).
  set (h0 := add_hdr (add_hdr ∅ (str "Host", connect_target host port)) (str "Proxy-Authorization", basic user pass)).
  assert (∀ k, k ∈ reserved → h !! k = h0 !! k) as Hk.
  { intros k Hk. unfold h, connect_hdrs. cbn [foldl]. apply foldl_add_hdr_ne. eapply Forall_impl; [exact Hres|].
    intros kv Hn Heq. apply Hn. by rewrite Heq. }
  assert (h !! str "Host" = Some [connect_target host port]) as H1.
  { rewrite Hk by (by apply (bool_decide_eq_true_1 _); vm_compute). unfold h0. rewrite add_hdr_ne by discriminate. reflexivity. }
  assert (h !! str "Transfer-Encoding" = None) as H2.
  { rewrite Hk by (by apply (bool_decide_eq_true_1 _); vm_compute). unfold h0. rewrite !add_hdr_ne by discriminate. reflexivity. }
  assert (h !! str "Content-Length" = None) as H3.
  { rewrite Hk by (by apply (bool_decide_eq_true_1 _); vm_compute). unfold h0. rewrite !add_hdr_ne by discriminate. reflexivity. }
  assert (h !! str "Proxy-Authorization" = Some [basic user pass]) as H4.
  { rewrite Hk by (by apply (bool_decide_eq_true_1 _); vm_compute). reflexivity. }
  unfold make_request. rewrite H1. cbn [UHost].
  rewrite readTransfer_none by (rewrite fixPragma_ne by discriminate; done).
  eexists. split; [reflexivity|]. cbn [Method RequestURI ReqHeader]. split_and!; [done|done|].
  unfold Header_Get. change (canon (str "Proxy-Authorization")) with (str "Proxy-Authorization").
  rewrite lookup_delete_ne by discriminate. by rewrite fixPragma_ne, H4 by discriminate.
Qed.

(** Reading the request off a connection. *)
Lemma connect_read c rest : full_chunks c → pending c = connect_request host port user pass extra ++ rest →
  ∃ b r, ReadRequest (NewReader c) = (b, Ret r) ∧ b_buf b ++ pending (b_conn b) = rest ∧ same_conn c (b_conn b) ∧
    Method r = str "CONNECT" ∧ RequestURI r = connect_target host port ∧ credentials r = Some (user, pass).
Proof.
  intros Hf Hpc. destruct connect_parsed as (r & Er & Hm & Hr & Hg).
  assert (10 ∉ connect_line host port) as Hnl.
  { unfold connect_line. rewrite !not_elem_of_app.
    split_and!; [apply contains_byte_false; reflexivity|apply target_no; set_solver|apply contains_byte_false; reflexivity]. }
  destruct (ReadRequest_ok (connect_line host port) (connect_hdrs host port user pass extra) rest _ (NewReader c)
    connect_hdrs_ok Hnl connect_line_parsed) as (b & E & Hb & _ & Hs).
  - split; simpl; [done|lia|done].
  - change (br_pending (NewReader c)) with (pending c). rewrite Hpc. unfold connect_request. by rewrite <-!app_assoc.
  - exists b, r. rewrite E, Er. split_and!; try done. by apply basic_credentials.
Qed.

(** What a CONNECT request must lead to, as a function of the rules and the
    credentials alone: the answer and the outcome. *)
Section Outcome.
Context (LookupHost : gostring → Addr) (db_Country : Addr → option gostring).
Definition auth_ok (httpAuth : option Auth) : bool :=
  match httpAuth with Some a => Validate a user pass | None => true end.
Definition connect_outcome (httpAuth : option Auth) (ru : Ruler) : list Z * res http_handed :=
  match decision LookupHost db_Country ru host with
  | (h, Ret (Some ri)) =>
      if negb (Accept ri) then ([], Fail ErrRuleMatchDropped)
      else if auth_ok httpAuth
      then (connectionEstablished, p ← Select (with_matched ri ru); Ret (HttpInvoke p (JoinHostPort h port) []))
      else (authResponse, Fail errAuthFailed)
  | (_, Ret None) => ([], Fail ErrRuleMatchDropped)
  | (_, Fail e) => ([], Fail e)
  | (_, Panic) => ([], Panic)
  end.

Lemma connect_parseHostPort r : Method r = str "CONNECT" → RequestURI r = connect_target host port →
  parseHostPort r = Ret (host, port).
Proof.
  intros Hm Hr. unfold parseHostPort. rewrite Hm, Hr, bool_decide_true by done. unfold connect_target.
  assert (∀ x, x ∈ [58; 91; 93; 37] → x ∉ port) as Hd.
  { intros x Hx Hin. rewrite Forall_forall in Hpd. apply Hpd in Hin. unfold is_digit in Hin. zify_bool. repeat (apply elem_of_cons in Hx as [->|Hx]; [lia|]). by apply elem_of_nil in Hx. }
  replace (host ++ str ":" ++ port) with (JoinHostPort host port).
  - rewrite SplitHostPort_JoinHostPort by (apply Hd || apply (name_no host Hhne Hhc); set_solver). by destruct port.
  - unfold JoinHostPort. rewrite (proj2 (contains_byte_false _ _)); [done|]. apply (name_no host Hhne Hhc). set_solver.
Qed.

Lemma connect_not_home r : Method r = str "CONNECT" → home_access r = false.
Proof. intros Hm. unfold home_access. by rewrite Hm, bool_decide_true. Qed.

Lemma connect_readRequest ca_response httpAuth r c ru : Method r = str "CONNECT" → RequestURI r = connect_target host port →
  credentials r = Some (user, pass) → c_wbudget c = None →
  ∃ w x, readRequest LookupHost db_Country None ca_response httpAuth r (HWorld c ru) = (w, x) ∧
    c_in (h_conn w) = c_in c ∧ c_out (h_conn w) = c_out c ++ (connect_outcome httpAuth ru).1 ∧
    (connect_outcome httpAuth ru).2 =
      (ctx ← x; p ← Select (h_ruler w); Ret (HttpInvoke p (rc_Addr ctx) [])) ∧
    ∀ ctx, x = Ret ctx → rc_Request ctx = None.
Proof.
  intros Hm Hr Hc Hb. unfold readRequest, handleHomeAccess. rewrite connect_not_home by done. cbn [negb].
  unfold mbind at 1, M_bind at 1, mret at 1, M_ret at 1. unfold mbind at 1, M_bind at 1, mlift at 1. rewrite connect_parseHostPort by done.
  unfold mbind at 1, M_bind at 1, h_match. cbn [h_conn h_ruler].
  destruct (Ruler_Match LookupHost db_Country host ru) as [[ru' h] x] eqn:E.
  pose proof (Ruler_Match_same _ _ _ _ _ _ _ E) as Hs. apply Ruler_Match_decision in E. unfold connect_outcome.
  destruct (decision LookupHost db_Country ru host) as [h' [[ri|]|e|]]; destruct E as (-> & Hma & ->); cbn [mbind res_bind].
  2-4: eexists _, _; split; [reflexivity|]; cbn; by rewrite app_nil_r.
  destruct (Accept ri); cbn [negb]; [|eexists _, _; split; [reflexivity|]; cbn; by rewrite app_nil_r].
  rewrite Hc, Hm, bool_decide_true by done. unfold mbind, M_bind, mlift, h_write, auth_ok. cbn [fst snd].
  assert (∀ d, c_in (conn_write_ d c) = c_in c ∧ c_out (conn_write_ d c) = c_out c ++ d) as Hw.
  { intros d. unfold conn_write_, conn_write. by rewrite Hb. }
  destruct httpAuth as [a|]; [destruct (Validate a user pass)|]; cbn [negb];
    eexists _, _; (split; [reflexivity|]); cbn [h_conn h_ruler fst snd]; destruct (Hw connectionEstablished), (Hw authResponse);
    split_and!; try done; try (by intros ? [= <-]).
  all: cbn; by rewrite (Select_same ru ru' ri).
Qed.
End Outcome.
End Connect.

(** ** What the HTTP proxy does *)
Section Served.
Context (LookupHost : gostring → Addr) (db_Country : Addr → option gostring).
Context (ca_response : list Z → list Z) (Request_WriteBody : Request → breader → breader * list Z).
Abbreviation http_ServeTCP := (http_ServeTCP LookupHost db_Country None ca_response Request_WriteBody).

Lemma connect_run httpAuth host port user pass extra rest c ru :
  host ≠ [] → Forall (λ c, name_char c = true) host → port ≠ [] → Forall (λ c, is_digit c = true) port →
  wf_bytes user → wf_bytes pass → 58 ∉ user →
  Forall hdr_ok extra → Forall (λ kv, canon_loop true kv.1 ∉ reserved) extra →
  full_chunks c → c_wbudget c = None → pending c = connect_request host port user pass extra ++ rest →
  ∃ w lost, http_ServeTCP httpAuth (HWorld c ru) = (w, (connect_outcome host port user pass LookupHost db_Country httpAuth ru).2) ∧
    c_out (h_conn w) = c_out c ++ (connect_outcome host port user pass LookupHost db_Country httpAuth ru).1 ∧
    rest = lost ++ pending (h_conn w).
Proof.
  intros Hh1 Hh2 Hp1 Hp2 Hu Hp Hcol Hex Hres Hf Hb Hpc.
  edestruct (connect_read host port user pass extra) as (b & r & E & Hrest & Hs & Hm & Hr & Hc); try done.
  destruct Hs as (_ & Ho & Hwb & _).
  edestruct (connect_readRequest host port user pass extra) with (LookupHost := LookupHost) (db_Country := db_Country) (ca_response := ca_response) (httpAuth := httpAuth)
    (r := r) (c := b_conn b) (ru := ru) as (w & x & E2 & Hin & Hout & Hx & Hn); [try done; congruence..|].
  exists w, (b_buf b). unfold HttpProxy.http_ServeTCP. cbn [h_conn h_ruler]. rewrite E, E2, Hx, Hout.
  unfold pending. rewrite Hin. split_and!; [|congruence|done].
  destruct x as [ctx|e|]; [|done..]. rewrite (Hn ctx) by done. unfold mbind, M_bind, h_select. simpl. by destruct (Select (h_ruler w)).
Qed.

(** C24 (functional): a CONNECT request, with interception off, in whatever non-empty pieces it arrives. It asks for a host of
    plain name characters (letters, digits, dot, hyphen, underscore, tilde) and a port of digits, has one Host and one Basic
    Proxy-Authorization header, the user name without a colon, and any further well-formed headers other than these
    two, Transfer-Encoding and Content-Length. Its outcome is the one the rules and the credentials prescribe: when the
    rules drop the host the connection is closed without a word; bad credentials are answered with 407; otherwise the 200
    answer is written and the proxy that the matched rule names is invoked with [host:port]. Of what follows the request
    a prefix, what was read along with it, is lost; the proxy reads the rest. Writes to the client do not fail. *)
Theorem http_connect_served httpAuth host port user pass extra rest c ru :
  host ≠ [] → Forall (λ c, name_char c = true) host → port ≠ [] → Forall (λ c, is_digit c = true) port →
  wf_bytes user → wf_bytes pass → 58 ∉ user →
  Forall hdr_ok extra → Forall (λ kv, canon_loop true kv.1 ∉ reserved) extra →
  full_chunks c → c_wbudget c = None → pending c = connect_request host port user pass extra ++ rest →
  ∃ w lost, http_ServeTCP httpAuth (HWorld c ru) = (w, (connect_outcome host port user pass LookupHost db_Country httpAuth ru).2) ∧
    c_out (h_conn w) = c_out c ++ (connect_outcome host port user pass LookupHost db_Country httpAuth ru).1 ∧
    rest = lost ++ pending (h_conn w).
Proof. apply connect_run. Qed.

(** The mixed server's first look at a connection takes nothing away. *)
Lemma unbuffer_peek c x rest : full_chunks c → pending c = x :: rest →
  ∃ b, Peek1 (NewReader c) = (b, Ret x) ∧ pending (unbuffer b) = pending c ∧ full_chunks (unbuffer b) ∧ same_conn c (unbuffer b).
Proof.
  intros Hf Hp. destruct (Peek1_ok (NewReader c) x rest) as (b & E & Hpb & Hok & Hs & _);
    [by split; simpl; [done|lia|done]|done|].
  exists b. destruct Hok as [_ _ Hc]. split_and!; [done|..].
  all: unfold unbuffer; destruct (b_buf b) eqn:Eb; try done.
  - unfold br_pending in Hpb. rewrite Eb in Hpb. by rewrite Hp.
  - unfold br_pending in Hpb. rewrite Eb in Hpb. by rewrite Hp, <-Hpb.
  - by constructor.
Qed.

(** On the mixed port a CONNECT request has exactly the outcome it
    has on the HTTP port, credentials asked for included: looking at the first byte
    takes nothing of the request. *)
Theorem mixed_connect_as_http {R : Type} `{!EnhancerOps R} ListenLocalUDP InvokePacket httpAuth socksAuth
    host port user pass extra rest c (r : R) ru :
  host ≠ [] → Forall (λ c, name_char c = true) host → port ≠ [] → Forall (λ c, is_digit c = true) port →
  wf_bytes user → wf_bytes pass → 58 ∉ user →
  Forall hdr_ok extra → Forall (λ kv, canon_loop true kv.1 ∉ reserved) extra →
  full_chunks c → c_wbudget c = None → pending c = connect_request host port user pass extra ++ rest →
  ∃ w lost x, handleTCPConn LookupHost db_Country None ca_response Request_WriteBody ListenLocalUDP InvokePacket httpAuth socksAuth (World c r ru) =
      (w, y ← (connect_outcome host port user pass LookupHost db_Country httpAuth ru).2; Ret (MixedHttp y)) ∧
    (http_ServeTCP httpAuth (HWorld c ru)).2 = x ∧ x = (connect_outcome host port user pass LookupHost db_Country httpAuth ru).2 ∧
    c_out (w_conn w) = c_out c ++ (connect_outcome host port user pass LookupHost db_Country httpAuth ru).1 ∧
    rest = lost ++ pending (w_conn w).
Proof.
  intros Hh1 Hh2 Hp1 Hp2 Hu Hp Hcol Hex Hres Hf Hb Hpc.
  destruct (unbuffer_peek c 67 (drop 1 (pending c))) as (b & E & Hpb & Hfb & _ & Ho & Hbb & _); [done|by rewrite Hpc|].
  edestruct (connect_run httpAuth host port user pass extra rest (unbuffer b) ru) as (w & lost & Er & Hout & Hrest); [done..|congruence|congruence|].
  edestruct (connect_run httpAuth host port user pass extra rest c ru) as (w0 & lost0 & Er0 & _); [done..|].
  unfold handleTCPConn. cbn [w_conn w_res w_ruler]. rewrite E, Er, Er0.
  eexists _, lost, _. split_and!; [reflexivity|done|done|cbn [w_conn]; congruence|done].
Qed.

(** With credentials configured, no input whatever makes the server
    invoke a proxy or the interceptor unless the request it read carries credentials that are valid. *)
Theorem http_auth_required mitm a w w' x :
  HttpProxy.http_ServeTCP LookupHost db_Country mitm ca_response Request_WriteBody (Some a) w = (w', Ret x) →
  ∃ b r u p, ReadRequest (NewReader (h_conn w)) = (b, Ret r) ∧ credentials r = Some (u, p) ∧ Validate a u p = true.
Proof.
  unfold HttpProxy.http_ServeTCP. destruct (ReadRequest (NewReader (h_conn w))) as [b [r|e|]]; [|done..].
  intros H. exists b, r. destruct (readRequest _ _ _ _ _ r _) as [w1 [ctx|e|]] eqn:E; [|done..]. clear H.
  unfold readRequest, mbind, M_bind, mlift in E. destruct (handleHomeAccess mitm ca_response r _) as [w0 [[]|e|]]; [|done..].
  destruct (parseHostPort r) as [[h p]|e|]; [|done..].
  set (q := match mitm with Some _ => mret (h, true) | None => h_match LookupHost db_Country h end : M hworld (gostring * bool)) in E.
  destruct (q w0) as [w2 [[h' ok]|e|]]; [|done..]. destruct ok; [|done]. cbn [negb] in E. destruct (credentials r) as [[u pw]|]; [|done].
  destruct (Validate a u pw) eqn:Ev; [|done]. by exists u, pw.
Qed.
End Served.

(** A request without a host panics in [parseHostPort]; [serve] of the server
    recovers, and the client gets no answer. *)
Definition demo_conn (b : list Z) : conn := Conn [b] io_EOF [] None io_EOF.
Definition no_body : Request → breader → breader * list Z := λ _ b, (b, []).
Lemma http_no_host_panics :
  Forall (λ b, let '(w, x) := http_ServeTCP no_lookup no_country None id no_body None (HWorld (demo_conn b) demo_direct) in
               x = Panic ∧ c_out (h_conn w) = [])
    [str "GET http:/// HTTP/1.1" ++ crlf ++ crlf;
     str "GET / HTTP/1.0" ++ crlf ++ str "Proxy-Connection: close" ++ crlf ++ crlf].
Proof.
  apply Forall_cons_2; [vm_compute; by split|]. apply Forall_cons_2; [vm_compute; by split|]. apply Forall_nil_2.
Qed.

(** What a client sends right behind its CONNECT request is read into the buffer
    of [http.ReadRequest] and never reaches the proxy. *)
Definition demo_connect : list Z := connect_request (str "a.b.com") (str "443") (str "user") (str "pass") [].
Lemma http_connect_early_data_lost :
  let '(w, x) := http_ServeTCP no_lookup no_country None id no_body (Some demo_auth)
                   (HWorld (demo_conn (demo_connect ++ [22; 3; 1])) demo_direct) in
  x = Ret (HttpInvoke (str "direct-out") (str "a.b.com:443") []) ∧ c_out (h_conn w) = connectionEstablished ∧ pending (h_conn w) = [].
Proof. by vm_compute. Qed.

Definition demo_pieces : conn := Conn ((λ x, [x]) <$> demo_connect ++ [22; 3; 1]) io_EOF [] None io_EOF.
Lemma demo_pieces_full : full_chunks demo_pieces.
Proof. unfold full_chunks, demo_pieces. cbn [c_in]. apply Forall_fmap, Forall_forall. by intros. Qed.

Lemma http_connect_served_witness :
  ∃ w lost, http_ServeTCP no_lookup no_country None id no_body (Some demo_auth) (HWorld demo_pieces demo_direct) =
      (w, Ret (HttpInvoke (str "direct-out") (str "a.b.com:443") [])) ∧
    c_out (h_conn w) = connectionEstablished ∧ [22; 3; 1] = lost ++ pending (h_conn w).
Proof.
  apply (http_connect_served no_lookup no_country id no_body (Some demo_auth) (str "a.b.com") (str "443") (str "user") (str "pass") []
    [22; 3; 1] demo_pieces demo_direct); try done.
  - repeat constructor.
  - repeat constructor.
  - apply bytes_of_string_wf.
  - apply bytes_of_string_wf.
  - apply contains_byte_false. reflexivity.
  - exact demo_pieces_full.
Defined.

Lemma mixed_connect_as_http_witness :
  ∃ w lost x, handleTCPConn no_lookup no_country None id no_body (Fail io_EOF) (λ _, Ret tt) (Some demo_auth) None (World demo_pieces tt demo_direct) =
      (w, Ret (MixedHttp (HttpInvoke (str "direct-out") (str "a.b.com:443") []))) ∧
    (http_ServeTCP no_lookup no_country None id no_body (Some demo_auth) (HWorld demo_pieces demo_direct)).2 = x ∧
    x = Ret (HttpInvoke (str "direct-out") (str "a.b.com:443") []) ∧
    c_out (w_conn w) = connectionEstablished ∧ [22; 3; 1] = lost ++ pending (w_conn w).
Proof.
  apply (mixed_connect_as_http no_lookup no_country id no_body (Fail io_EOF) (λ _, Ret tt) (Some demo_auth) None
    (str "a.b.com") (str "443") (str "user") (str "pass") [] [22; 3; 1] demo_pieces tt demo_direct); try done.
  - repeat constructor.
  - repeat constructor.
  - apply bytes_of_string_wf.
  - apply bytes_of_string_wf.
  - apply contains_byte_false. reflexivity.
  - exact demo_pieces_full.
Defined.

Lemma http_auth_required_witness :
  ∃ b r u p, ReadRequest (NewReader demo_pieces) = (b, Ret r) ∧ credentials r = Some (u, p) ∧ Validate demo_auth u p = true.
Proof.
  eapply (http_auth_required no_lookup no_country id no_body None demo_auth (HWorld demo_pieces demo_direct)).
  vm_compute. reflexivity.
Defined.
