(* ===== verification/HttpRelay.v ===== *)
(** * Forwarding plain HTTP requests.

    The end of [httpProxyServer.ServeTCP] of [src/ss/http.go] for a request that is not a
    CONNECT: the rewritten request in a [bytes.Buffer] of the pool ([NewBytesBufferPool] of
    [src/bufferpool]), read before the client's further bytes through a [ConnWithReader]
    ([src/connection/connection.go]), and the pool shared by all such connections. *)
From S2P Require Import Prelude GoIO GoNet GoStream.
Local Open Scope nat_scope.

(** ** [ConnWithReader]

    The connection behind the contents of some buffers, as [io.MultiReader] reads them: an empty buffer is at its
    end and is left for the next reader. *)
Section WithReader.
Context {T : Type} `{!NetConn T}.
Record ConnWithReader := MkWithReader { cr_Conn : T; cr_readers : list (list Z) }.
Definition NewConnWithReader (c : T) (readers : list (list Z)) : ConnWithReader := MkWithReader c readers.
Fixpoint multi_Read (n : nat) (c : T) (readers : list (list Z)) : T * list (list Z) * res (list Z) :=
  match readers with
  | [] => let '(c1, r) := nc_Read n c in (c1, [], r)
  | [] :: rest => multi_Read n c rest
  | b :: rest => (c, drop n b :: rest, Ret (take n b))
  end.
Definition with_Read (n : nat) (s : ConnWithReader) : ConnWithReader * res (list Z) :=
  let '(c, l, r) := multi_Read n (cr_Conn s) (cr_readers s) in (MkWithReader c l, r).
Definition with_Write (b : list Z) (s : ConnWithReader) : ConnWithReader * res nat :=
  let '(c, r) := nc_Write b (cr_Conn s) in (MkWithReader c (cr_readers s), r).

#[export] Instance with_conn : NetConn ConnWithReader := {
  nc_Read := with_Read;
  nc_Write := with_Write;
  nc_new rnd c := NewConnWithReader (nc_new rnd c) [];
  nc_under s := nc_under (cr_Conn s);
}.
Context `{!NetConnLaws T}.
Definition with_in (s : ConnWithReader) (m : list Z) (e : error) : Prop := ∃ m', m = concat (cr_readers s) ++ m' ∧ nc_in (cr_Conn s) m' e.
Lemma multi_Read_law n c readers m e : 0 < n → nc_in c m e →
  match multi_Read n c readers with
  | (c', l, Ret d) => length d ≤ n ∧ length (concat l) + nc_size c' < length (concat readers) + nc_size c ∧
      (∃ m', concat readers ++ m = d ++ concat l ++ m' ∧ nc_in c' m' e) ∧ (∀ o, nc_out c o → nc_out c' o)
  | (c', l, Fail e') => concat readers ++ m = [] ∧ l = [] ∧ e' = e ∧ nc_in c' [] e ∧ (∀ o, nc_out c o → nc_out c' o)
  | (_, _, Panic) => False
  end.
Proof.
  intros Hn Hin. induction readers as [|[|x b] rest IH]; cbn [multi_Read].
  - pose proof (nc_read_law n c m e Hn Hin) as H. destruct (nc_Read n c) as [c' [d|e'|]]; [| |done].
    + destruct H as (H1 & H2 & (m' & -> & H3) & H4). cbn. split_and!; [done|lia|by exists m'|done].
    + destruct H as (-> & -> & H3 & H4). by split_and!.
  - exact IH.
  - rewrite length_take. cbn [concat]. rewrite !length_app, length_drop. cbn [length]. split_and!; [lia|lia| |done].
    exists m. split; [|done]. by rewrite !app_assoc, take_drop.
Qed.
#[export] Instance with_laws : NetConnLaws ConnWithReader.
Proof.
  refine {| nc_in := with_in; nc_out s o := nc_out (cr_Conn s) o; nc_size s := length (concat (cr_readers s)) + nc_size (cr_Conn s);
            nc_rnd := nc_rnd (T := T) |}.
  - intros n s m e Hn (m' & -> & Hin). pose proof (multi_Read_law n (cr_Conn s) (cr_readers s) m' e Hn Hin) as H. cbn [nc_Read with_conn]. unfold with_Read.
    destruct (multi_Read n (cr_Conn s) (cr_readers s)) as [[c l] [d|e'|]]; [| |done].
    + destruct H as (H1 & H2 & (m1 & H3 & H4) & H5). split_and!; [done|exact H2| |exact H5]. exists (concat l ++ m1). split; [done|]. by exists m1.
    + destruct H as (H1 & -> & -> & H3 & H4). split_and!; [done|done|by exists []|exact H4].
  - intros b s o Ho. destruct (nc_write_law b (cr_Conn s) o Ho) as (c & E & H1 & H2 & H3). cbn [nc_Write with_conn]. unfold with_Write. rewrite E.
    eexists. split; [done|]. cbn. split_and!; [done|lia|]. intros m e (m' & -> & Hin). exists m'. split; [done|]. by apply H3.
  - intros rnd c Hr Hb Ho. by apply nc_new_law.
  - intros s o rnd c Ho Hp. exists o. split; [done|]. by apply (nc_link (cr_Conn s)).
Defined.
End WithReader.
Arguments ConnWithReader : clear implicits.

(** The target of the connection gets the request and then what the client goes on to send. *)
Lemma request_first {T U} `{!NetConn T, !NetConnLaws T, !NetConn U, !NetConnLaws U} n (dst : U) (c : T) request m e o :
  0 < n → nc_in c m e → nc_out dst o →
  ∃ dst' c', copy_loop (S (length request + nc_size c)) n dst (NewConnWithReader c [request]) = (dst', c', Ret (if decide (e = io_EOF) then None else Some e)) ∧
    nc_out dst' (o ++ request ++ m).
Proof.
  intros Hn Hin Ho. destruct (copy_loop_ok (T := ConnWithReader T) (S (length request + nc_size c)) n dst (NewConnWithReader c [request]) (request ++ m) e o Hn)
    as (dst' & c' & E & H & _); [|done| |by exists dst', c'].
  - exists m. cbn. by rewrite app_nil_r.
  - cbn. rewrite app_nil_r. lia.
Qed.

(** ** The pool of request buffers

    A [bytes.Buffer]: its bytes and the read offset. It has no lock; a [Read] copies the bytes out and then stores the
    new offset. The goroutine that copies towards the target reads the buffer first. The relay is over as soon as
    either direction ends, also when the answer ends first: the connections are closed and the buffer is reset and
    put back, whatever the other goroutine is doing. *)
Record bbuf := BB { bb_buf : list Z; bb_off : nat }.
Definition unread (b : bbuf) : list Z := drop (bb_off b) (bb_buf b).
Definition empty_bbuf : bbuf := BB [] 0.

(** The goroutine copying to the target: not started, about to read the buffer, with bytes copied out and an offset to store,
    with bytes to write, past the buffer, gone. *)
Inductive hcopier := HNone | HBuf | HLoaded (d : list Z) (o : nat) | HHold (d : list Z) | HConn | HDone.
Record httpConn := HC { hc_req : list Z; hc_buf : nat; hc_copier : hcopier; hc_open : bool; hc_sent : list Z }.
Record buffers := Buffers { bs_store : gmap nat bbuf; bs_pool : list nat; bs_conns : list httpConn }.
Definition new_conn (req : list Z) : httpConn := HC req 0 HNone true [].
(** It is past its buffer, or gone. *)
Definition off_buffer (k : hcopier) : Prop := k = HConn ∨ k = HDone.

(** [GetBytesBuffer] and [Request.Write], [PutBytesBuffer] *)
Definition write_request (i : nat) (req : list Z) (m : gmap nat bbuf) : gmap nat bbuf :=
  let b := default empty_bbuf (m !! i) in <[i := BB (bb_buf b ++ req) (bb_off b)]> m.
Definition PutBytesBuffer (i : nat) (m : gmap nat bbuf) (pool : list nat) : gmap nat bbuf * list nat := (<[i := empty_bbuf]> m, i :: pool).

(** [prompt]: no relay ends before its goroutine is done with the buffer. *)
Inductive hstep (prompt : bool) : buffers → buffers → Prop :=
| h_start_item m l1 i l2 cs j req :
    cs !! j = Some (new_conn req) →
    hstep prompt (Buffers m (l1 ++ i :: l2) cs) (Buffers (write_request i req m) (l1 ++ l2) (<[j := HC req i HBuf true []]> cs))
| h_start_new m pool cs j req i :
    cs !! j = Some (new_conn req) → m !! i = None →
    hstep prompt (Buffers m pool cs) (Buffers (write_request i req m) pool (<[j := HC req i HBuf true []]> cs))
(** a [Read] of the buffer, in its two accesses *)
| h_load m pool cs j req i open sent n b :
    cs !! j = Some (HC req i HBuf open sent) → m !! i = Some b → unread b ≠ [] → 0 < n →
    hstep prompt (Buffers m pool cs)
      (Buffers m pool (<[j := HC req i (HLoaded (take n (unread b)) (bb_off b + length (take n (unread b)))) open sent]> cs))
| h_store m pool cs j req i open sent d o b :
    cs !! j = Some (HC req i (HLoaded d o) open sent) → m !! i = Some b →
    hstep prompt (Buffers m pool cs) (Buffers (<[i := BB (bb_buf b) o]> m) pool (<[j := HC req i (HHold d) open sent]> cs))
(** a [Read] at the end of the buffer resets it, and the next reader is the connection *)
| h_drained m pool cs j req i open sent b :
    cs !! j = Some (HC req i HBuf open sent) → m !! i = Some b → unread b = [] →
    hstep prompt (Buffers m pool cs) (Buffers (<[i := empty_bbuf]> m) pool (<[j := HC req i HConn open sent]> cs))
| h_write m pool cs j req i sent d :
    cs !! j = Some (HC req i (HHold d) true sent) →
    hstep prompt (Buffers m pool cs) (Buffers m pool (<[j := HC req i HBuf true (sent ++ d)]> cs))
(** a write that fails, after some of the bytes, or because the target is closed *)
| h_write_error m pool cs j req i open sent d k :
    cs !! j = Some (HC req i (HHold d) open sent) → (open = false → k = 0) →
    hstep prompt (Buffers m pool cs) (Buffers m pool (<[j := HC req i HDone open (sent ++ take k d)]> cs))
| h_end m pool cs j req i k sent :
    cs !! j = Some (HC req i k true sent) → k ≠ HNone → (prompt = true → off_buffer k) →
    hstep prompt (Buffers m pool cs) (Buffers (PutBytesBuffer i m pool).1 (PutBytesBuffer i m pool).2 (<[j := HC req i k false sent]> cs))
| h_forget m l1 i l2 cs : hstep prompt (Buffers m (l1 ++ i :: l2) cs) (Buffers m (l1 ++ l2) cs).
Definition buffers0 (reqs : list (list Z)) : buffers := Buffers ∅ [] (new_conn <$> reqs).

(** Of prompt relays, a running connection has its buffer to itself; what was sent, what the goroutine holds and
    what is left in the buffer make up the request. *)
Definition running (c : httpConn) : Prop := hc_open c = true ∧ hc_copier c ≠ HNone.
Definition conn_ok (m : gmap nat bbuf) (c : httpConn) : Prop :=
  match hc_copier c with
  | HNone => c = new_conn (hc_req c)
  | HBuf => hc_open c = true ∧ ∃ b, m !! hc_buf c = Some b ∧ hc_req c = hc_sent c ++ unread b
  | HLoaded d o => hc_open c = true ∧ ∃ b, m !! hc_buf c = Some b ∧ hc_req c = hc_sent c ++ d ++ drop o (bb_buf b)
  | HHold d => hc_open c = true ∧ ∃ b, m !! hc_buf c = Some b ∧ hc_req c = hc_sent c ++ d ++ unread b
  | HConn => hc_sent c = hc_req c
  | HDone => hc_sent c `prefix_of` hc_req c
  end.
Record BufInv (s : buffers) : Prop := {
  bi_pool : NoDup (bs_pool s) ∧ ∀ i, i ∈ bs_pool s → bs_store s !! i = Some empty_bbuf;
  bi_own j c : bs_conns s !! j = Some c → running c →
    (hc_buf c ∉ bs_pool s) ∧ is_Some (bs_store s !! hc_buf c) ∧
    (∀ j' c', bs_conns s !! j' = Some c' → running c' → hc_buf c' = hc_buf c → j' = j);
  bi_conn j c : bs_conns s !! j = Some c → conn_ok (bs_store s) c;
}.

(** Looking up a connection after an update. *)
Lemma conn_update (cs : list httpConn) j x j' c : <[j := x]> cs !! j' = Some c → (j' = j ∧ c = x) ∨ (j' ≠ j ∧ cs !! j' = Some c).
Proof. intros H. apply list_lookup_insert_Some in H as [(-> & -> & _)|[? ?]]; auto. Qed.
(** Only its own buffer matters to a connection, and that only while it runs. *)
Lemma conn_ok_frame (m m' : gmap nat bbuf) c : (running c → m' !! hc_buf c = m !! hc_buf c) → conn_ok m c → conn_ok m' c.
Proof. unfold conn_ok, running. intros H. destruct (hc_copier c); try done; intros [Ho ?]; by rewrite H by done. Qed.
Lemma unread_split n b : unread b = take n (unread b) ++ drop (bb_off b + length (take n (unread b))) (bb_buf b).
Proof.
  unfold unread. rewrite <-drop_drop. rewrite length_take. destruct (decide (n ≤ length (drop (bb_off b) (bb_buf b)))).
  - rewrite Nat.min_l by done. by rewrite take_drop.
  - rewrite Nat.min_r by lia. rewrite take_ge by lia. rewrite (drop_ge (drop _ _)) by lia. by rewrite app_nil_r.
Qed.

(** A step of connection [j] that runs on buffer [i], which is nobody else's. *)
Lemma update_inv m m' pool pool' cs j i c1 : BufInv (Buffers m pool cs) →
  (NoDup pool' ∧ ∀ k, k ∈ pool' → m' !! k = Some empty_bbuf ∧ (k ∈ pool ∨ k = i)) → (∀ k, k ≠ i → m' !! k = m !! k) →
  (∀ j' c, j' ≠ j → cs !! j' = Some c → running c → hc_buf c ≠ i) →
  (running c1 → hc_buf c1 = i ∧ (i ∉ pool') ∧ is_Some (m' !! i)) → conn_ok m' c1 →
  BufInv (Buffers m' pool' (<[j := c1]> cs)).
Proof.
  intros [IP IO IC] HP Hm Hfree Hown Hok. cbn in *. split; cbn.
  - split; [apply HP|]. intros k Hk. by apply HP.
  - intros j' c [[-> ->]|[Hne Hc]]%conn_update Hrun.
    + destruct (Hown Hrun) as (E & H2 & H3). rewrite E. split_and!; [done|done|].
      intros j2 c2 [[-> ->]|[Hne2 Hc2]]%conn_update Hr2 E2; [done|]. by destruct (Hfree j2 c2 Hne2 Hc2 Hr2).
    + pose proof (Hfree j' c Hne Hc Hrun) as Hi. destruct (IO j' c Hc Hrun) as (H1 & H2 & H3). split_and!.
      * intros Hin. by destruct (proj2 HP _ Hin) as [_ [? | ?]].
      * by rewrite Hm.
      * intros j2 c2 [[-> ->]|[Hne2 Hc2]]%conn_update Hr2 E2; [|by apply (H3 j2 c2)]. destruct (Hown Hr2) as (E & _). congruence.
  - intros j' c [[-> ->]|[Hne Hc]]%conn_update; [exact Hok|]. eapply conn_ok_frame; [|by apply (IC j')].
    intros Hr. apply Hm. by apply (Hfree j' c).
Qed.

(** A connection that starts on buffer [i], which is empty and nobody's. *)
Lemma start_inv m pool pool' cs j i req : BufInv (Buffers m pool cs) → default empty_bbuf (m !! i) = empty_bbuf →
  (∀ j' c, cs !! j' = Some c → running c → hc_buf c ≠ i) → NoDup pool' → (∀ k, k ∈ pool' → k ∈ pool ∧ k ≠ i) →
  BufInv (Buffers (write_request i req m) pool' (<[j := HC req i HBuf true []]> cs)).
Proof.
  intros HI Hi Hfree HN Hsub. unfold write_request. rewrite Hi. cbn [app empty_bbuf bb_buf bb_off].
  apply (update_inv m _ pool pool' cs j i); [done|split; [done|]|..].
  - intros k Hk. destruct (Hsub k Hk). rewrite lookup_insert_ne by done. split; [by apply HI|by left].
  - intros k Hk. by apply lookup_insert_ne.
  - intros j' c _. apply Hfree.
  - intros _. split_and!; [done|by intros [_ ?]%Hsub|]. by rewrite lookup_insert_eq.
  - split; [done|]. eexists. cbn. by rewrite lookup_insert_eq.
Qed.
(** A step of a running connection that leaves the pool alone. *)
Lemma running_inv m pool cs j req i k sent k' open' sent' b b' :
  BufInv (Buffers m pool cs) → cs !! j = Some (HC req i k true sent) → k ≠ HNone → m !! i = Some b →
  conn_ok (<[i := b']> m) (HC req i k' open' sent') → BufInv (Buffers (<[i := b']> m) pool (<[j := HC req i k' open' sent']> cs)).
Proof.
  intros HI Hj Hk Hb Hok. destruct (bi_own _ HI j _ Hj ltac:(done)) as (Hnp & _ & Hu). cbn in *.
  apply (update_inv m _ pool pool cs j i); [done|split; [apply HI|]|..|done].
  - intros k0 Hk0. rewrite lookup_insert_ne by (by intros ->). split; [by apply HI|by left].
  - intros k0 Hk0. by apply lookup_insert_ne.
  - intros j' c Hne Hc Hr E. by destruct Hne, (Hu j' c Hc Hr E).
  - intros _. split_and!; [done|done|]. by rewrite lookup_insert_eq.
Qed.
Lemma buf_step s s' : BufInv s → hstep true s s' → BufInv s'.
Proof.
  intros HI Hs. destruct Hs as [m l1 i l2 cs j req Hj|m pool cs j req i Hj Hi|m pool cs j req i open sent n b Hj Hb Hbn Hn|m pool cs j req i open sent d o b Hj Hb
    |m pool cs j req i open sent b Hj Hb Hbn|m pool cs j req i sent d Hj|m pool cs j req i open sent d k Hj Hk|m pool cs j req i k sent Hj Hk Hp|m l1 i l2 cs].
  - pose proof HI as [[HN HP] IO IC]. cbn in *. pose proof HN as HN'. rewrite <-Permutation_middle in HN'. apply NoDup_cons in HN' as [Hni HN'].
    eapply start_inv; [exact HI| | |done|].
    + by rewrite HP by set_solver.
    + intros j' c Hc Hr E. destruct (IO j' c Hc Hr) as [Hnot _]. apply Hnot. rewrite E. set_solver.
    + intros k Hk'. split; [set_solver|]. by intros ->.
  - eapply start_inv; [exact HI|by rewrite Hi| |apply HI|].
    + intros j' c Hc Hr E. destruct (bi_own _ HI j' c Hc Hr) as (_ & [b Hb] & _). cbn in Hb. congruence.
    + intros k Hk'. split; [done|]. intros ->. apply HI in Hk'. cbn in Hk'. congruence.
  - destruct (bi_conn _ HI j _ Hj) as [Ho (b' & Hb' & E)]. cbn in *. subst open. rewrite Hb in Hb'. injection Hb' as <-.
    rewrite <-(insert_id m i b) by done. eapply running_inv; [done|done|done|done|]. split; [done|]. exists b. cbn. rewrite lookup_insert_eq. split; [done|].
    by rewrite E, <-unread_split.
  - destruct (bi_conn _ HI j _ Hj) as [Ho (b' & Hb' & E)]. cbn in *. subst open. rewrite Hb in Hb'. injection Hb' as <-.
    eapply running_inv; [done|done|done|done|]. split; [done|]. eexists. cbn. by rewrite lookup_insert_eq.
  - destruct (bi_conn _ HI j _ Hj) as [Ho (b' & Hb' & E)]. cbn in *. subst open. rewrite Hb in Hb'. injection Hb' as <-.
    eapply running_inv; [done|done|done|done|]. unfold conn_ok. cbn. by rewrite E, Hbn, app_nil_r.
  - destruct (bi_conn _ HI j _ Hj) as [_ (b & Hb & E)]. cbn in *. rewrite <-(insert_id m i b) by done. eapply running_inv; [done|done|done|done|].
    split; [done|]. exists b. cbn. rewrite lookup_insert_eq, <-app_assoc. done.
  - destruct (bi_conn _ HI j _ Hj) as [Ho (b & Hb & E)]. cbn in *. subst open. rewrite <-(insert_id m i b) by done. eapply running_inv; [done|done|done|done|].
    unfold conn_ok. cbn. rewrite E. apply prefix_app. apply prefix_app_r, prefix_take.
  - destruct (bi_own _ HI j _ Hj ltac:(done)) as (Hnp & _ & Hu). pose proof (bi_conn _ HI j _ Hj) as Hc. cbn in *.
    apply (update_inv m _ pool (i :: pool) cs j i); [done|split|..].
    + apply NoDup_cons. split; [done|apply HI].
    + intros k' [->|Hk']%elem_of_cons; [rewrite lookup_insert_eq; auto|]. rewrite lookup_insert_ne by (by intros ->). split; [by apply HI|by left].
    + intros k' Hk'. by apply lookup_insert_ne.
    + intros j' c Hne Hc' Hr E. by destruct Hne, (Hu j' c Hc' Hr E).
    + by intros [? _].
    + by destruct (Hp eq_refl) as [->| ->].
  - destruct HI as [[HN HP] IO IC]. cbn in *. rewrite <-Permutation_middle in HN. apply NoDup_cons in HN as [Hni HN]. split; cbn; [|..|done].
    + split; [done|]. intros k Hk'. apply HP. set_solver.
    + intros j c Hc Hr. destruct (IO j c Hc Hr) as (H1 & H2). split; [set_solver|done].
Qed.

Lemma buf_start reqs : BufInv (buffers0 reqs).
Proof.
  assert (∀ j c, (new_conn <$> reqs) !! j = Some c → ∃ r, c = new_conn r) as H by (intros j c; rewrite list_lookup_fmap; destruct (reqs !! j); [intros [= <-]; eauto|done]).
  split; cbn.
  - split; [constructor|]. by intros i ?%elem_of_nil.
  - intros j c Hc [_ Hr]. by destruct (H j c Hc) as [r ->].
  - intros j c Hc. by destruct (H j c Hc) as [r ->].
Qed.

Lemma conn_ok_sent m c : conn_ok m c → hc_sent c `prefix_of` hc_req c ∧ (hc_copier c = HConn → hc_sent c = hc_req c).
Proof.
  destruct c as [req i k open sent]. unfold conn_ok. cbn. destruct k; cbn.
  - intros [= _ _ ->]. split; [apply prefix_nil|done].
  - intros (_ & b & _ & ->). split; [by eexists|done].
  - intros (_ & b & _ & ->). split; [by eexists|done].
  - intros (_ & b & _ & ->). split; [by eexists|done].
  - by intros ->.
  - done.
Qed.
(** The requests themselves stay what they were. *)
Lemma hstep_req prompt s s' : hstep prompt s s' → map hc_req (bs_conns s') = map hc_req (bs_conns s).
Proof.
  assert (∀ cs j c c', cs !! j = Some c → hc_req c' = hc_req c → map hc_req (<[j := c']> cs) = map hc_req cs) as H.
  { intros cs j c c' Hj E. rewrite list_fmap_insert, E. apply list_insert_id. by rewrite list_lookup_fmap, Hj. }
  by intros []; cbn; [by eapply H..|].
Qed.

(** C25 (safety): plain HTTP requests over shared, unlocked buffers. Any number of connections forward their requests, with the
    buffers of one pool; they start, read their buffer (the copying out and the new offset being two accesses), write
    to their target, fail to and end in any order. Provided that no relay ends before its goroutine has read its buffer to the
    end or failed to write (an answer that ends earlier breaks this, see [http_request_stolen] and [http_request_resent]): what a
    target got from the buffers is at all times a prefix of its own connection's request, and all of it when the
    connection goes on to the client's further bytes. *)
Theorem http_requests_isolated reqs s j c :
  rtc (hstep true) (buffers0 reqs) s → bs_conns s !! j = Some c →
  reqs !! j = Some (hc_req c) ∧ hc_sent c `prefix_of` hc_req c ∧ (hc_copier c = HConn → hc_sent c = hc_req c).
Proof.
  intros Hs Hc. assert (BufInv s ∧ map hc_req (bs_conns s) = reqs) as [HI Hr].
  { assert (BufInv (buffers0 reqs) ∧ map hc_req (bs_conns (buffers0 reqs)) = reqs) as H0.
    { split; [apply buf_start|]. cbn. rewrite <-list_fmap_compose. by apply list_fmap_id. }
    clear Hc. induction Hs as [|x y z Hxy _ IH]; [done|]. apply IH. destruct H0 as [H0 H1]. split; [by eapply buf_step|].
    rewrite <-H1. by apply (hstep_req true). }
  split; [by rewrite <-Hr, list_lookup_fmap, Hc|]. exact (conn_ok_sent _ _ (bi_conn _ HI j c Hc)).
Qed.

(** Without that condition it need not be: the answer to the first request ends while that is still being sent, its
    buffer goes to the second connection, and the first goroutine takes the second request away... *)
Definition stolen : buffers :=
  Buffers {[0 := empty_bbuf]} [] [HC [1; 2]%Z 0 HDone false [1]%Z; HC [3; 4]%Z 0 HConn true []].
Lemma http_request_stolen : rtc (hstep false) (buffers0 [[1; 2]; [3; 4]]%Z) stolen.
Proof.
  eapply rtc_l; [by apply (h_start_new _ _ _ _ 0 [1; 2]%Z 0)|].
  eapply rtc_l; [by apply (h_load _ _ _ _ 0 [1; 2]%Z 0 true [] 1 (BB [1; 2]%Z 0)); [..|lia]|].
  eapply rtc_l; [by apply (h_store _ _ _ _ 0 [1; 2]%Z 0 true [] [1]%Z 1 (BB [1; 2]%Z 0))|].
  eapply rtc_l; [by apply (h_write _ _ _ _ 0 [1; 2]%Z 0 [] [1]%Z)|].
  eapply rtc_l; [by apply (h_end _ _ _ _ 0 [1; 2]%Z 0 HBuf [1]%Z)|].
  eapply rtc_l; [by apply (h_start_item _ _ [] 0 [] _ 1 [3; 4]%Z)|].
  eapply rtc_l; [by apply (h_load _ _ _ _ 0 [1; 2]%Z 0 false [1]%Z 5 (BB [3; 4]%Z 0)); [..|lia]|].
  eapply rtc_l; [by apply (h_store _ _ _ _ 0 [1; 2]%Z 0 false [1]%Z [3; 4]%Z 2 (BB [3; 4]%Z 0))|].
  eapply rtc_l; [by apply (h_write_error _ _ _ _ 0 [1; 2]%Z 0 false [1]%Z [3; 4]%Z 0)|].
  eapply rtc_l; [by apply (h_drained _ _ _ _ 1 [3; 4]%Z 0 true [] (BB [3; 4]%Z 2))|]. constructor.
Qed.
(** ... or puts the offset back, so that a part of it is sent twice. *)
Definition resent : buffers :=
  Buffers {[0 := empty_bbuf]} [] [HC [1; 2]%Z 0 (HHold [1]%Z) false []; HC [3; 4]%Z 0 HConn true [3; 4; 4]%Z].
Lemma http_request_resent : rtc (hstep false) (buffers0 [[1; 2]; [3; 4]]%Z) resent.
Proof.
  eapply rtc_l; [by apply (h_start_new _ _ _ _ 0 [1; 2]%Z 0)|].
  eapply rtc_l; [by apply (h_load _ _ _ _ 0 [1; 2]%Z 0 true [] 1 (BB [1; 2]%Z 0)); [..|lia]|].
  eapply rtc_l; [by apply (h_end _ _ _ _ 0 [1; 2]%Z 0 (HLoaded [1]%Z 1) [])|].
  eapply rtc_l; [by apply (h_start_item _ _ [] 0 [] _ 1 [3; 4]%Z)|].
  eapply rtc_l; [by apply (h_load _ _ _ _ 1 [3; 4]%Z 0 true [] 2 (BB [3; 4]%Z 0)); [..|lia]|].
  eapply rtc_l; [by apply (h_store _ _ _ _ 1 [3; 4]%Z 0 true [] [3; 4]%Z 2 (BB [3; 4]%Z 0))|].
  eapply rtc_l; [by apply (h_write _ _ _ _ 1 [3; 4]%Z 0 [] [3; 4]%Z)|].
  eapply rtc_l; [by apply (h_store _ _ _ _ 0 [1; 2]%Z 0 false [] [1]%Z 1 (BB [3; 4]%Z 2))|].
  eapply rtc_l; [by apply (h_load _ _ _ _ 1 [3; 4]%Z 0 true [3; 4]%Z 2 (BB [3; 4]%Z 1)); [..|lia]|].
  eapply rtc_l; [by apply (h_store _ _ _ _ 1 [3; 4]%Z 0 true [3; 4]%Z [4]%Z 2 (BB [3; 4]%Z 1))|].
  eapply rtc_l; [by apply (h_write _ _ _ _ 1 [3; 4]%Z 0 [3; 4]%Z [4]%Z)|].
  eapply rtc_l; [by apply (h_drained _ _ _ _ 1 [3; 4]%Z 0 true [3; 4; 4]%Z (BB [3; 4]%Z 2))|]. constructor.
Qed.

(** Two connections, one after the other through the same buffer; the second is half way. *)
Definition reused : buffers :=
  Buffers {[0 := BB [3; 4]%Z 1]} [] [HC [1; 2]%Z 0 HConn false [1; 2]%Z; HC [3; 4]%Z 0 HBuf true [3]%Z].
Lemma http_requests_isolated_witness :
  rtc (hstep true) (buffers0 [[1; 2]; [3; 4]]%Z) reused ∧ [3]%Z `prefix_of` [3; 4]%Z.
Proof.
  assert (rtc (hstep true) (buffers0 [[1; 2]; [3; 4]]%Z) reused) as Hr.
  { eapply rtc_l; [by apply (h_start_new _ _ _ _ 0 [1; 2]%Z 0)|].
    eapply rtc_l; [by apply (h_load _ _ _ _ 0 [1; 2]%Z 0 true [] 2 (BB [1; 2]%Z 0)); [..|lia]|].
    eapply rtc_l; [by apply (h_store _ _ _ _ 0 [1; 2]%Z 0 true [] [1; 2]%Z 2 (BB [1; 2]%Z 0))|].
    eapply rtc_l; [by apply (h_write _ _ _ _ 0 [1; 2]%Z 0 [] [1; 2]%Z)|].
    eapply rtc_l; [by apply (h_drained _ _ _ _ 0 [1; 2]%Z 0 true [1; 2]%Z (BB [1; 2]%Z 2))|].
    eapply rtc_l; [by apply (h_end _ _ _ _ 0 [1; 2]%Z 0 HConn [1; 2]%Z); [..|intros _; left]|].
    eapply rtc_l; [by apply (h_start_item _ _ [] 0 [] _ 1 [3; 4]%Z)|].
    eapply rtc_l; [by apply (h_load _ _ _ _ 1 [3; 4]%Z 0 true [] 1 (BB [3; 4]%Z 0)); [..|lia]|].
    eapply rtc_l; [by apply (h_store _ _ _ _ 1 [3; 4]%Z 0 true [] [3]%Z 1 (BB [3; 4]%Z 0))|].
    eapply rtc_l; [by apply (h_write _ _ _ _ 1 [3; 4]%Z 0 [] [3]%Z)|]. constructor. }
  split; [exact Hr|].
  exact (proj1 (proj2 (http_requests_isolated [[1; 2]; [3; 4]]%Z reused 1 (HC [3; 4]%Z 0 HBuf true [3]%Z) Hr eq_refl))).
Defined.
