(* ===== verification/Options.v ===== *)
(** * The options of the client and the server.

    Models [src/options/option.go] (the transports' options and their defaults) and
    [src/ss/option.go]: what a program is started with is a list of options, functions
    that change the option record or a global variable. An option for a server
    applies to the first server of the record and panics when there is none, or when
    its transport's options are of another type. The pointer to the transport's options is
    modelled by what it points to: a composed server has its own copy. [rule.MatchRuler] is
    nil until it is set. *)
From S2P Require Import Prelude GoIO GoNet Rule Socks.
Local Open Scope Z_scope.

Abbreviation AddrPort := (Addr * Z)%type.

(** ** Package options *)
Inductive TlsMode := TlsNone | TLS | MTLS.

(** The TLS part of the transports with TLS. *)
Record TlsOptions := MkTls {
  tls_Mode : TlsMode; tls_CAFile : gostring; tls_KeyFile : gostring; tls_CertFile : gostring;
  tls_Hostname : gostring }.
Definition set_tls_Mode (x : TlsMode) (o : TlsOptions) : TlsOptions :=
  MkTls x (tls_CAFile o) (tls_KeyFile o) (tls_CertFile o) (tls_Hostname o).
Definition set_tls_CAFile (x : gostring) (o : TlsOptions) : TlsOptions :=
  MkTls (tls_Mode o) x (tls_KeyFile o) (tls_CertFile o) (tls_Hostname o).
Definition set_tls_KeyFile (x : gostring) (o : TlsOptions) : TlsOptions :=
  MkTls (tls_Mode o) (tls_CAFile o) x (tls_CertFile o) (tls_Hostname o).
Definition set_tls_CertFile (x : gostring) (o : TlsOptions) : TlsOptions :=
  MkTls (tls_Mode o) (tls_CAFile o) (tls_KeyFile o) x (tls_Hostname o).
Definition set_tls_Hostname (x : gostring) (o : TlsOptions) : TlsOptions :=
  MkTls (tls_Mode o) (tls_CAFile o) (tls_KeyFile o) (tls_CertFile o) x.

Record WsOptions := MkWs {
  ws_TlsOptions : TlsOptions; ws_Host : gostring; ws_Path : gostring; ws_SndBuffer : Z; ws_RevBuffer : Z;
  ws_Compress : bool; ws_UserAgent : gostring }.
Definition set_ws_TlsOptions (x : TlsOptions) (o : WsOptions) : WsOptions :=
  MkWs x (ws_Host o) (ws_Path o) (ws_SndBuffer o) (ws_RevBuffer o) (ws_Compress o) (ws_UserAgent o).
Definition set_ws_Host (x : gostring) (o : WsOptions) : WsOptions :=
  MkWs (ws_TlsOptions o) x (ws_Path o) (ws_SndBuffer o) (ws_RevBuffer o) (ws_Compress o) (ws_UserAgent o).
Definition set_ws_Path (x : gostring) (o : WsOptions) : WsOptions :=
  MkWs (ws_TlsOptions o) (ws_Host o) x (ws_SndBuffer o) (ws_RevBuffer o) (ws_Compress o) (ws_UserAgent o).
Definition set_ws_SndBuffer (x : Z) (o : WsOptions) : WsOptions :=
  MkWs (ws_TlsOptions o) (ws_Host o) (ws_Path o) x (ws_RevBuffer o) (ws_Compress o) (ws_UserAgent o).
Definition set_ws_RevBuffer (x : Z) (o : WsOptions) : WsOptions :=
  MkWs (ws_TlsOptions o) (ws_Host o) (ws_Path o) (ws_SndBuffer o) x (ws_Compress o) (ws_UserAgent o).
Definition set_ws_Compress (x : bool) (o : WsOptions) : WsOptions :=
  MkWs (ws_TlsOptions o) (ws_Host o) (ws_Path o) (ws_SndBuffer o) (ws_RevBuffer o) x (ws_UserAgent o).
Definition set_ws_UserAgent (x : gostring) (o : WsOptions) : WsOptions :=
  MkWs (ws_TlsOptions o) (ws_Host o) (ws_Path o) (ws_SndBuffer o) (ws_RevBuffer o) (ws_Compress o) x.

Record ObfsOptions := MkObfsOpt { obfs_Host : gostring }.
Definition set_obfs_Host (x : gostring) (o : ObfsOptions) : ObfsOptions := MkObfsOpt x.

(** Durations are nanoseconds. *)
Record QuicOptions := MkQuic {
  quic_TlsOptions : TlsOptions; quic_HandshakeIdleTimeout : Z; quic_KeepAlivePeriod : Z; quic_MaxIdleTimeout : Z;
  quic_Conns : Z }.
Definition set_quic_TlsOptions (x : TlsOptions) (o : QuicOptions) : QuicOptions :=
  MkQuic x (quic_HandshakeIdleTimeout o) (quic_KeepAlivePeriod o) (quic_MaxIdleTimeout o) (quic_Conns o).
Definition set_quic_HandshakeIdleTimeout (x : Z) (o : QuicOptions) : QuicOptions :=
  MkQuic (quic_TlsOptions o) x (quic_KeepAlivePeriod o) (quic_MaxIdleTimeout o) (quic_Conns o).
Definition set_quic_KeepAlivePeriod (x : Z) (o : QuicOptions) : QuicOptions :=
  MkQuic (quic_TlsOptions o) (quic_HandshakeIdleTimeout o) x (quic_MaxIdleTimeout o) (quic_Conns o).
Definition set_quic_MaxIdleTimeout (x : Z) (o : QuicOptions) : QuicOptions :=
  MkQuic (quic_TlsOptions o) (quic_HandshakeIdleTimeout o) (quic_KeepAlivePeriod o) x (quic_Conns o).
Definition set_quic_Conns (x : Z) (o : QuicOptions) : QuicOptions :=
  MkQuic (quic_TlsOptions o) (quic_HandshakeIdleTimeout o) (quic_KeepAlivePeriod o) (quic_MaxIdleTimeout o) x.

Record GrpcOptions := MkGrpc { grpc_TlsOptions : TlsOptions; grpc_SndBuffer : Z; grpc_RevBuffer : Z }.
Definition set_grpc_TlsOptions (x : TlsOptions) (o : GrpcOptions) : GrpcOptions :=
  MkGrpc x (grpc_SndBuffer o) (grpc_RevBuffer o).
Definition set_grpc_SndBuffer (x : Z) (o : GrpcOptions) : GrpcOptions := MkGrpc (grpc_TlsOptions o) x (grpc_RevBuffer o).
Definition set_grpc_RevBuffer (x : Z) (o : GrpcOptions) : GrpcOptions := MkGrpc (grpc_TlsOptions o) (grpc_SndBuffer o) x.

Record SshOptions := MkSsh {
  ssh_User : gostring; ssh_Password : gostring; ssh_PrivateKey : gostring; ssh_PublicKey : gostring;
  ssh_AuthorizedKey : gostring }.
Definition set_ssh_User (x : gostring) (o : SshOptions) : SshOptions :=
  MkSsh x (ssh_Password o) (ssh_PrivateKey o) (ssh_PublicKey o) (ssh_AuthorizedKey o).
Definition set_ssh_Password (x : gostring) (o : SshOptions) : SshOptions :=
  MkSsh (ssh_User o) x (ssh_PrivateKey o) (ssh_PublicKey o) (ssh_AuthorizedKey o).
Definition set_ssh_PrivateKey (x : gostring) (o : SshOptions) : SshOptions :=
  MkSsh (ssh_User o) (ssh_Password o) x (ssh_PublicKey o) (ssh_AuthorizedKey o).
Definition set_ssh_PublicKey (x : gostring) (o : SshOptions) : SshOptions :=
  MkSsh (ssh_User o) (ssh_Password o) (ssh_PrivateKey o) x (ssh_AuthorizedKey o).
Definition set_ssh_AuthorizedKey (x : gostring) (o : SshOptions) : SshOptions :=
  MkSsh (ssh_User o) (ssh_Password o) (ssh_PrivateKey o) (ssh_PublicKey o) x.

Inductive Options :=
| DefaultOptions_ (iface : gostring) (auto : bool)
| WsOpts (o : WsOptions)
| ObfsOpts (o : ObfsOptions)
| QuicOpts (o : QuicOptions)
| GrpcOpts (o : GrpcOptions)
| SshOpts (o : SshOptions).

Definition no_tls : TlsOptions := MkTls TlsNone [] [] [] [].
Definition Second : Z := 1000000000.
Definition DefaultQuicOptions : QuicOptions := MkQuic no_tls (5 * Second) (30 * Second) (30 * Second) 3.
Definition DefaultWsOptions : WsOptions :=
  MkWs no_tls (str "www.baidu.com") (str "/ws") 4096 4096 false
    (str "Mozilla/5.0 (Macintosh; Intel Mac OS X 10_15_7) AppleWebKit/537.36 (KHTML, like Gecko) Chrome/106.0.0.0 Safari/537.36").
Definition DefaultObfsOptions : ObfsOptions := MkObfsOpt (str "www.baidu.com").
Definition DefaultGrpcOptions : GrpcOptions := MkGrpc no_tls 0 0.
Definition DefaultSshOptions : SshOptions := MkSsh [] [] [] [] [].

(** [transport.Type]. *)
Inductive Type_ := Tcp | Quic | Websocket | Obfs | Grpc | Ssh.

(** ** The option records of package ss *)
Record ShadowsocksROption := MkSsr {
  ssr_Protocol : gostring; ssr_ProtocolParam : gostring; ssr_Obfs : gostring; ssr_ObfsParam : gostring }.
Definition set_ssr_Protocol (x : gostring) (o : ShadowsocksROption) : ShadowsocksROption :=
  MkSsr x (ssr_ProtocolParam o) (ssr_Obfs o) (ssr_ObfsParam o).
Definition set_ssr_ProtocolParam (x : gostring) (o : ShadowsocksROption) : ShadowsocksROption :=
  MkSsr (ssr_Protocol o) x (ssr_Obfs o) (ssr_ObfsParam o).
Definition set_ssr_Obfs (x : gostring) (o : ShadowsocksROption) : ShadowsocksROption :=
  MkSsr (ssr_Protocol o) (ssr_ProtocolParam o) x (ssr_ObfsParam o).
Definition set_ssr_ObfsParam (x : gostring) (o : ShadowsocksROption) : ShadowsocksROption :=
  MkSsr (ssr_Protocol o) (ssr_ProtocolParam o) (ssr_Obfs o) x.

Record serverOptions := MkServer {
  so_name : gostring; so_addr : gostring; so_method : gostring; so_password : gostring; so_transport : Type_;
  so_udp : bool; so_opts : option Options; so_ssr : bool; so_ssrOpt : ShadowsocksROption }.
Definition set_so_name (x : gostring) (o : serverOptions) : serverOptions :=
  MkServer x (so_addr o) (so_method o) (so_password o) (so_transport o) (so_udp o) (so_opts o) (so_ssr o) (so_ssrOpt o).
Definition set_so_addr (x : gostring) (o : serverOptions) : serverOptions :=
  MkServer (so_name o) x (so_method o) (so_password o) (so_transport o) (so_udp o) (so_opts o) (so_ssr o) (so_ssrOpt o).
Definition set_so_method (x : gostring) (o : serverOptions) : serverOptions :=
  MkServer (so_name o) (so_addr o) x (so_password o) (so_transport o) (so_udp o) (so_opts o) (so_ssr o) (so_ssrOpt o).
Definition set_so_password (x : gostring) (o : serverOptions) : serverOptions :=
  MkServer (so_name o) (so_addr o) (so_method o) x (so_transport o) (so_udp o) (so_opts o) (so_ssr o) (so_ssrOpt o).
Definition set_so_transport (x : Type_) (o : serverOptions) : serverOptions :=
  MkServer (so_name o) (so_addr o) (so_method o) (so_password o) x (so_udp o) (so_opts o) (so_ssr o) (so_ssrOpt o).
Definition set_so_udp (x : bool) (o : serverOptions) : serverOptions :=
  MkServer (so_name o) (so_addr o) (so_method o) (so_password o) (so_transport o) x (so_opts o) (so_ssr o) (so_ssrOpt o).
Definition set_so_opts (x : option Options) (o : serverOptions) : serverOptions :=
  MkServer (so_name o) (so_addr o) (so_method o) (so_password o) (so_transport o) (so_udp o) x (so_ssr o) (so_ssrOpt o).
Definition set_so_ssr (x : bool) (o : serverOptions) : serverOptions :=
  MkServer (so_name o) (so_addr o) (so_method o) (so_password o) (so_transport o) (so_udp o) (so_opts o) x (so_ssrOpt o).
Definition set_so_ssrOpt (x : ShadowsocksROption) (o : serverOptions) : serverOptions :=
  MkServer (so_name o) (so_addr o) (so_method o) (so_password o) (so_transport o) (so_udp o) (so_opts o) (so_ssr o) x.

(** The fields of the TUN library the program sets. *)
Record TunOptions := MkTun {
  tun_Name : gostring; tun_Inet4Address : list (option Prefix); tun_MTU : Z; tun_AutoRoute : bool }.
Definition set_tun_Name (x : gostring) (o : TunOptions) : TunOptions :=
  MkTun x (tun_Inet4Address o) (tun_MTU o) (tun_AutoRoute o).
Definition set_tun_Inet4Address (x : list (option Prefix)) (o : TunOptions) : TunOptions :=
  MkTun (tun_Name o) x (tun_MTU o) (tun_AutoRoute o).
Definition set_tun_MTU (x : Z) (o : TunOptions) : TunOptions := MkTun (tun_Name o) (tun_Inet4Address o) x (tun_AutoRoute o).
Definition set_tun_AutoRoute (x : bool) (o : TunOptions) : TunOptions :=
  MkTun (tun_Name o) (tun_Inet4Address o) (tun_MTU o) x.

Record EnhancerConfig := MkEhCfg {
  ec_Tun : TunOptions; ec_FakeDNS : gostring; ec_DisableRewrite : bool; ec_DnsHijack : list AddrPort }.
Definition set_ec_Tun (x : TunOptions) (o : EnhancerConfig) : EnhancerConfig :=
  MkEhCfg x (ec_FakeDNS o) (ec_DisableRewrite o) (ec_DnsHijack o).
Definition set_ec_FakeDNS (x : gostring) (o : EnhancerConfig) : EnhancerConfig :=
  MkEhCfg (ec_Tun o) x (ec_DisableRewrite o) (ec_DnsHijack o).
Definition set_ec_DisableRewrite (x : bool) (o : EnhancerConfig) : EnhancerConfig :=
  MkEhCfg (ec_Tun o) (ec_FakeDNS o) x (ec_DnsHijack o).
Definition set_ec_DnsHijack (x : list AddrPort) (o : EnhancerConfig) : EnhancerConfig :=
  MkEhCfg (ec_Tun o) (ec_FakeDNS o) (ec_DisableRewrite o) x.

(** With [FakeCertPool] inlined. *)
Record MimtOption := MkMitm {
  mitm_Enable : bool; mitm_Proxy : gostring; mitm_CaPath : gostring; mitm_KeyPath : gostring; mitm_Capacity : Z;
  mitm_Interval : Z; mitm_ExpireSecond : Z }.
Definition set_mitm_Enable (x : bool) (o : MimtOption) : MimtOption :=
  MkMitm x (mitm_Proxy o) (mitm_CaPath o) (mitm_KeyPath o) (mitm_Capacity o) (mitm_Interval o) (mitm_ExpireSecond o).
Definition set_mitm_Proxy (x : gostring) (o : MimtOption) : MimtOption :=
  MkMitm (mitm_Enable o) x (mitm_CaPath o) (mitm_KeyPath o) (mitm_Capacity o) (mitm_Interval o) (mitm_ExpireSecond o).
Definition set_mitm_CaPath (x : gostring) (o : MimtOption) : MimtOption :=
  MkMitm (mitm_Enable o) (mitm_Proxy o) x (mitm_KeyPath o) (mitm_Capacity o) (mitm_Interval o) (mitm_ExpireSecond o).
Definition set_mitm_KeyPath (x : gostring) (o : MimtOption) : MimtOption :=
  MkMitm (mitm_Enable o) (mitm_Proxy o) (mitm_CaPath o) x (mitm_Capacity o) (mitm_Interval o) (mitm_ExpireSecond o).
Definition set_mitm_Capacity (x : Z) (o : MimtOption) : MimtOption :=
  MkMitm (mitm_Enable o) (mitm_Proxy o) (mitm_CaPath o) (mitm_KeyPath o) x (mitm_Interval o) (mitm_ExpireSecond o).
Definition set_mitm_Interval (x : Z) (o : MimtOption) : MimtOption :=
  MkMitm (mitm_Enable o) (mitm_Proxy o) (mitm_CaPath o) (mitm_KeyPath o) (mitm_Capacity o) x (mitm_ExpireSecond o).
Definition set_mitm_ExpireSecond (x : Z) (o : MimtOption) : MimtOption :=
  MkMitm (mitm_Enable o) (mitm_Proxy o) (mitm_CaPath o) (mitm_KeyPath o) (mitm_Capacity o) (mitm_Interval o) x.

Record localOptions := MkLocal {
  lo_socksAddr : gostring; lo_httpAddr : gostring; lo_mixedAddr : gostring; lo_socksAuth : option Auth;
  lo_httpAuth : option Auth; lo_tcpTunAddr : list (list gostring); lo_systemProxy : bool; lo_enableTun : bool;
  lo_lookupHostsFile : bool; lo_enhancerConfig : EnhancerConfig; lo_mitmConfig : MimtOption }.
Definition set_lo_socksAddr (x : gostring) (o : localOptions) : localOptions :=
  MkLocal x (lo_httpAddr o) (lo_mixedAddr o) (lo_socksAuth o) (lo_httpAuth o) (lo_tcpTunAddr o) (lo_systemProxy o) (lo_enableTun o) (lo_lookupHostsFile o) (lo_enhancerConfig o) (lo_mitmConfig o).
Definition set_lo_httpAddr (x : gostring) (o : localOptions) : localOptions :=
  MkLocal (lo_socksAddr o) x (lo_mixedAddr o) (lo_socksAuth o) (lo_httpAuth o) (lo_tcpTunAddr o) (lo_systemProxy o) (lo_enableTun o) (lo_lookupHostsFile o) (lo_enhancerConfig o) (lo_mitmConfig o).
Definition set_lo_mixedAddr (x : gostring) (o : localOptions) : localOptions :=
  MkLocal (lo_socksAddr o) (lo_httpAddr o) x (lo_socksAuth o) (lo_httpAuth o) (lo_tcpTunAddr o) (lo_systemProxy o) (lo_enableTun o) (lo_lookupHostsFile o) (lo_enhancerConfig o) (lo_mitmConfig o).
Definition set_lo_socksAuth (x : option Auth) (o : localOptions) : localOptions :=
  MkLocal (lo_socksAddr o) (lo_httpAddr o) (lo_mixedAddr o) x (lo_httpAuth o) (lo_tcpTunAddr o) (lo_systemProxy o) (lo_enableTun o) (lo_lookupHostsFile o) (lo_enhancerConfig o) (lo_mitmConfig o).
Definition set_lo_httpAuth (x : option Auth) (o : localOptions) : localOptions :=
  MkLocal (lo_socksAddr o) (lo_httpAddr o) (lo_mixedAddr o) (lo_socksAuth o) x (lo_tcpTunAddr o) (lo_systemProxy o) (lo_enableTun o) (lo_lookupHostsFile o) (lo_enhancerConfig o) (lo_mitmConfig o).
Definition set_lo_tcpTunAddr (x : list (list gostring)) (o : localOptions) : localOptions :=
  MkLocal (lo_socksAddr o) (lo_httpAddr o) (lo_mixedAddr o) (lo_socksAuth o) (lo_httpAuth o) x (lo_systemProxy o) (lo_enableTun o) (lo_lookupHostsFile o) (lo_enhancerConfig o) (lo_mitmConfig o).
Definition set_lo_systemProxy (x : bool) (o : localOptions) : localOptions :=
  MkLocal (lo_socksAddr o) (lo_httpAddr o) (lo_mixedAddr o) (lo_socksAuth o) (lo_httpAuth o) (lo_tcpTunAddr o) x (lo_enableTun o) (lo_lookupHostsFile o) (lo_enhancerConfig o) (lo_mitmConfig o).
Definition set_lo_enableTun (x : bool) (o : localOptions) : localOptions :=
  MkLocal (lo_socksAddr o) (lo_httpAddr o) (lo_mixedAddr o) (lo_socksAuth o) (lo_httpAuth o) (lo_tcpTunAddr o) (lo_systemProxy o) x (lo_lookupHostsFile o) (lo_enhancerConfig o) (lo_mitmConfig o).
Definition set_lo_lookupHostsFile (x : bool) (o : localOptions) : localOptions :=
  MkLocal (lo_socksAddr o) (lo_httpAddr o) (lo_mixedAddr o) (lo_socksAuth o) (lo_httpAuth o) (lo_tcpTunAddr o) (lo_systemProxy o) (lo_enableTun o) x (lo_enhancerConfig o) (lo_mitmConfig o).
Definition set_lo_enhancerConfig (x : EnhancerConfig) (o : localOptions) : localOptions :=
  MkLocal (lo_socksAddr o) (lo_httpAddr o) (lo_mixedAddr o) (lo_socksAuth o) (lo_httpAuth o) (lo_tcpTunAddr o) (lo_systemProxy o) (lo_enableTun o) (lo_lookupHostsFile o) x (lo_mitmConfig o).
Definition set_lo_mitmConfig (x : MimtOption) (o : localOptions) : localOptions :=
  MkLocal (lo_socksAddr o) (lo_httpAddr o) (lo_mixedAddr o) (lo_socksAuth o) (lo_httpAuth o) (lo_tcpTunAddr o) (lo_systemProxy o) (lo_enableTun o) (lo_lookupHostsFile o) (lo_enhancerConfig o) x.

Record ssOptions := MkSs { serverOpts : list serverOptions; localOpts : localOptions }.
Definition set_serverOpts (x : list serverOptions) (o : ssOptions) : ssOptions := MkSs x (localOpts o).
Definition set_localOpts (x : localOptions) (o : ssOptions) : ssOptions := MkSs (serverOpts o) x.

(** Variables of other packages that options set: of options, resolver and rule. *)
Record globals := MkGlobals {
  g_OutboundInterface : gostring; g_AutoDetectInterface : bool; g_DefaultDnsNameservers : list gostring;
  g_DefaultDomainFilter : list gostring; g_MatchRuler : option Ruler }.
Definition set_g_OutboundInterface (x : gostring) (o : globals) : globals :=
  MkGlobals x (g_AutoDetectInterface o) (g_DefaultDnsNameservers o) (g_DefaultDomainFilter o) (g_MatchRuler o).
Definition set_g_AutoDetectInterface (x : bool) (o : globals) : globals :=
  MkGlobals (g_OutboundInterface o) x (g_DefaultDnsNameservers o) (g_DefaultDomainFilter o) (g_MatchRuler o).
Definition set_g_DefaultDnsNameservers (x : list gostring) (o : globals) : globals :=
  MkGlobals (g_OutboundInterface o) (g_AutoDetectInterface o) x (g_DefaultDomainFilter o) (g_MatchRuler o).
Definition set_g_DefaultDomainFilter (x : list gostring) (o : globals) : globals :=
  MkGlobals (g_OutboundInterface o) (g_AutoDetectInterface o) (g_DefaultDnsNameservers o) x (g_MatchRuler o).
Definition set_g_MatchRuler (x : option Ruler) (o : globals) : globals :=
  MkGlobals (g_OutboundInterface o) (g_AutoDetectInterface o) (g_DefaultDnsNameservers o) (g_DefaultDomainFilter o) x.

(** ** Options *)
Definition SSOption := M (globals * ssOptions) unit.

Definition on_local (f : localOptions → localOptions) : SSOption := λ s,
  ((s.1, set_localOpts (f (localOpts s.2)) s.2), Ret tt).
Definition on_globals (f : globals → globals) : SSOption := λ s, ((f s.1, s.2), Ret tt).
(** [so.serverOpts[0]]. *)
Definition on_server (f : serverOptions → res serverOptions) : SSOption := λ s,
  match serverOpts s.2 with
  | [] => (s, Panic)
  | o :: r =>
      match f o with
      | Ret o' => ((s.1, set_serverOpts (o' :: r) s.2), Ret tt)
      | Fail e => (s, Fail e)
      | Panic => (s, Panic)
      end
  end.
(** [so.serverOpts[0].opts.( *options.QuicOptions)] and the like: a type assertion. *)
Definition as_ws (f : WsOptions → WsOptions) : SSOption := on_server (λ o,
  match so_opts o with Some (WsOpts w) => Ret (set_so_opts (Some (WsOpts (f w))) o) | _ => Panic end).
Definition as_obfs (f : ObfsOptions → ObfsOptions) : SSOption := on_server (λ o,
  match so_opts o with Some (ObfsOpts w) => Ret (set_so_opts (Some (ObfsOpts (f w))) o) | _ => Panic end).
Definition as_quic (f : QuicOptions → QuicOptions) : SSOption := on_server (λ o,
  match so_opts o with Some (QuicOpts w) => Ret (set_so_opts (Some (QuicOpts (f w))) o) | _ => Panic end).
Definition as_grpc (f : GrpcOptions → GrpcOptions) : SSOption := on_server (λ o,
  match so_opts o with Some (GrpcOpts w) => Ret (set_so_opts (Some (GrpcOpts (f w))) o) | _ => Panic end).
Definition as_ssh (f : SshOptions → SshOptions) : SSOption := on_server (λ o,
  match so_opts o with Some (SshOpts w) => Ret (set_so_opts (Some (SshOpts (f w))) o) | _ => Panic end).
Definition start_transport (t : Type_) (p : Options) : SSOption := on_server (λ o, Ret (set_so_opts (Some p) (set_so_transport t o))).

Fixpoint apply_all (opts : list SSOption) : M (globals * ssOptions) unit :=
  match opts with [] => mret tt | o :: r => _ ← o; apply_all r end.

(** *** TUN and DNS *)
Definition on_enhancer (f : EnhancerConfig → EnhancerConfig) : SSOption := on_local (λ l, set_lo_enhancerConfig (f (lo_enhancerConfig l)) l).
Definition on_tun (f : TunOptions → TunOptions) : SSOption := on_enhancer (λ c, set_ec_Tun (f (ec_Tun c)) c).
Definition WithEnableTun : SSOption := on_local (set_lo_enableTun true).
Definition WithTunName (name : gostring) : SSOption := on_tun (set_tun_Name name).
Definition WithTunCIDR (cidr : gostring) : SSOption :=
  on_tun (λ t, match ParsePrefix cidr with Some p => set_tun_Inet4Address [Some p] t | None => t end).
Definition WithTunMTU (mtu : Z) : SSOption := on_tun (set_tun_MTU mtu).
Definition WithTunAutoRoute (autoRoute : bool) : SSOption := on_tun (set_tun_AutoRoute autoRoute).

(** [netip.ParseAddrPort]. *)
Definition ParseAddrPort (s : gostring) : option AddrPort :=
  i ← last_index_byte 58 s;
  let ip := take i s in
  let port := drop (S i) s in
  match ip, port with
  | [], _ | _, [] => None
  | c :: r, _ =>
      let v6 := c =? 91 in
      if v6 && negb ((2 <=? length ip)%nat && bool_decide (last ip = Some 93)) then None else
      let '(p, ok) := parse_uint 16 port in
      if negb ok then None else
      a ← ParseAddr (if v6 then take (length ip - 2) r else ip);
      match a with
      | Addr4 _ => if v6 then None else Some (a, p)
      | Addr6 _ _ => if v6 then Some (a, p) else None
      | AddrNone => None
      end
  end.
(** One address of [WithTunDnsHijack]; [None]: it is skipped. *)
Definition hijack_addr (addr0 : gostring) : option AddrPort :=
  let addr1 := if contains addr0 (str "any") then replace_all addr0 (str "any") (str "0.0.0.0") else addr0 in
  let '(host, port0) := match SplitHostPort addr1 with inl hp => hp | inr _ => ([], []) end in
  let missing := bool_decide (host = []) || bool_decide (port0 = []) in
  let port := if missing then str "53" else port0 in
  let addr := if missing then JoinHostPort addr1 port else addr1 in
  if negb (bool_decide (port = str "53")) then None else ParseAddrPort addr.
Definition WithTunDnsHijack (dns : list gostring) : SSOption :=
  on_enhancer (λ c, set_ec_DnsHijack (ec_DnsHijack c ++ omap hijack_addr dns) c).

Definition WithFakeDnsDomainFilter (domain : list gostring) : SSOption := on_globals (set_g_DefaultDomainFilter domain).
Definition WithFakeDnsServer (addr : gostring) : SSOption := on_enhancer (set_ec_FakeDNS addr).
Definition WithFakeDnsDisableRewrite (disable : bool) : SSOption := on_enhancer (set_ec_DisableRewrite disable).
Definition WithOutboundInterface (ifaceName : gostring) : SSOption := on_globals (set_g_OutboundInterface ifaceName).
Definition WithDefaultDnsNameservers (ns : list gostring) : SSOption :=
  on_globals (λ g, match ns with [] => g | _ => set_g_DefaultDnsNameservers ns g end).
Definition WithAutoDetectInterface (enable : bool) : SSOption := on_globals (set_g_AutoDetectInterface enable).

(** *** Servers

    [WithServerCompose] applies its options at once, to a record of its own. *)
Definition zero_server : serverOptions := MkServer [] [] [] [] Tcp false None false (MkSsr [] [] [] []).
Definition zero_local : localOptions :=
  MkLocal [] [] [] None None [] false false false (MkEhCfg (MkTun [] [] 0 false) [] false []) (MkMitm false [] [] [] 0 0 0).
Definition WithServerCompose (opts : list SSOption) : M globals SSOption := λ g,
  match apply_all opts (g, MkSs [zero_server] zero_local) with
  | ((g', o), Ret _) => (g', Ret (λ s, ((s.1, set_serverOpts (serverOpts s.2 ++ serverOpts o) s.2), Ret tt)))
  | ((g', _), Fail e) => (g', Fail e)
  | ((g', _), Panic) => (g', Panic)
  end.
Definition server_field (f : serverOptions → serverOptions) : SSOption := on_server (λ o, Ret (f o)).
Definition WithServerName (name : gostring) : SSOption := server_field (set_so_name name).
Definition WithServerAddr (addr : gostring) : SSOption := server_field (set_so_addr addr).
Definition WithUDPRelay (enable : bool) : SSOption := server_field (set_so_udp enable).
Definition WithEnableSSR : SSOption := server_field (set_so_ssr true).
Definition on_ssr (f : ShadowsocksROption → ShadowsocksROption) : SSOption := server_field (λ o, set_so_ssrOpt (f (so_ssrOpt o)) o).
Definition WithSSRProtocol (name : gostring) : SSOption := on_ssr (set_ssr_Protocol name).
Definition WithSSRProtocolParam (param : gostring) : SSOption := on_ssr (set_ssr_ProtocolParam param).
Definition WithSSRObfs (name : gostring) : SSOption := on_ssr (set_ssr_Obfs name).
Definition WithObfsParam (param : gostring) : SSOption := on_ssr (set_ssr_ObfsParam param).
Definition WithMethod (method : gostring) : SSOption := server_field (set_so_method method).
Definition WithPassword (password : gostring) : SSOption := server_field (set_so_password password).
Definition WithDefaultTransport : SSOption := λ s,
  start_transport Tcp (DefaultOptions_ (g_OutboundInterface s.1) (g_AutoDetectInterface s.1)) s.
Definition WithRuler (ruler : Ruler) : SSOption := on_globals (set_g_MatchRuler (Some ruler)).

(** *** The client's listeners *)
Definition WithSystemProxy : SSOption := on_local (set_lo_systemProxy true).
Definition WithLookupHostsFile : SSOption := on_local (set_lo_lookupHostsFile true).
Definition WithSocksUserInfo (username password : gostring) : SSOption := on_local (set_lo_socksAuth (NewAuth username password)).
Definition WithSocksAddr (addr : gostring) : SSOption := on_local (set_lo_socksAddr addr).
Definition WithHttpAddr (addr : gostring) : SSOption := on_local (set_lo_httpAddr addr).
Definition WithHttpUserInfo (username password : gostring) : SSOption := on_local (set_lo_httpAuth (NewAuth username password)).
Definition WithMixedAddr (addr : gostring) : SSOption := on_local (set_lo_mixedAddr addr).
Definition WithTcpTunAddr (addrs : list (list gostring)) : SSOption := on_local (set_lo_tcpTunAddr addrs).
Definition on_mitm (f : MimtOption → MimtOption) : SSOption := on_local (λ l, set_lo_mitmConfig (f (lo_mitmConfig l)) l).
Definition WithMitm (enable : bool) : SSOption := on_mitm (set_mitm_Enable enable).
Definition WithMitmProxy (proxy : gostring) : SSOption := on_mitm (set_mitm_Proxy proxy).
Definition WithMitmCAPath (caPath : gostring) : SSOption := on_mitm (set_mitm_CaPath caPath).
Definition WithMitmKeyPath (keyPath : gostring) : SSOption := on_mitm (set_mitm_KeyPath keyPath).
Definition WithMitmFakeCertPool (capacity interval expireSecond : Z) : SSOption :=
  on_mitm (λ m, set_mitm_ExpireSecond expireSecond (set_mitm_Interval interval (set_mitm_Capacity capacity m))).

(** *** Transports *)
Definition WithObfsTransport : SSOption := start_transport Obfs (ObfsOpts DefaultObfsOptions).
Definition WithObfsHost (host : gostring) : SSOption := as_obfs (set_obfs_Host host).
Definition WithQuicTransport : SSOption := start_transport Quic (QuicOpts DefaultQuicOptions).
Definition WithQuicHandshakeIdleTimeout (timeout : Z) : SSOption := as_quic (set_quic_HandshakeIdleTimeout timeout).
Definition WithQuicKeepAlivePeriod (timeout : Z) : SSOption := as_quic (set_quic_KeepAlivePeriod timeout).
Definition WithQuicMaxIdleTimeout (timeout : Z) : SSOption := as_quic (set_quic_MaxIdleTimeout timeout).
Definition WithQuicConns (conns : Z) : SSOption := if conns <=? 0 then (λ s, (s, Ret tt)) else as_quic (set_quic_Conns conns).
Definition on_quic_tls (f : TlsOptions → TlsOptions) : SSOption := as_quic (λ o, set_quic_TlsOptions (f (quic_TlsOptions o)) o).
Definition WithQuicTLS (mode : TlsMode) : SSOption := on_quic_tls (set_tls_Mode mode).
Definition WithQuicHostname (hostname : gostring) : SSOption := on_quic_tls (set_tls_Hostname hostname).
Definition WithQuicCertPath (certFile : gostring) : SSOption := on_quic_tls (set_tls_CertFile certFile).
Definition WithQuicKeyPath (keyFile : gostring) : SSOption := on_quic_tls (set_tls_KeyFile keyFile).
Definition WithQuicCAPath (caFile : gostring) : SSOption := on_quic_tls (set_tls_CAFile caFile).
Definition WithWsTransport : SSOption := start_transport Websocket (WsOpts DefaultWsOptions).
Definition WithWsHost (host : gostring) : SSOption := as_ws (set_ws_Host host).
Definition WithWsPath (path : gostring) : SSOption := as_ws (set_ws_Path path).
Definition WithWsSndRevBuffer (sndBuffer revBuffer : Z) : SSOption := as_ws (λ w, set_ws_RevBuffer revBuffer (set_ws_SndBuffer sndBuffer w)).
Definition WithWsCompress : SSOption := as_ws (set_ws_Compress true).
Definition WithWsUserAgent (userAgent : gostring) : SSOption := as_ws (set_ws_UserAgent userAgent).
Definition on_ws_tls (f : TlsOptions → TlsOptions) : SSOption := as_ws (λ o, set_ws_TlsOptions (f (ws_TlsOptions o)) o).
Definition WithWsTLS (mode : TlsMode) : SSOption := on_ws_tls (set_tls_Mode mode).
Definition WithWsHostname (hostname : gostring) : SSOption := on_ws_tls (set_tls_Hostname hostname).
Definition WithWsCertPath (certFile : gostring) : SSOption := on_ws_tls (set_tls_CertFile certFile).
Definition WithWsKeyPath (keyFile : gostring) : SSOption := on_ws_tls (set_tls_KeyFile keyFile).
Definition WithWsCAPath (caFile : gostring) : SSOption := on_ws_tls (set_tls_CAFile caFile).
Definition WithGrpcTransport : SSOption := start_transport Grpc (GrpcOpts DefaultGrpcOptions).
Definition on_grpc_tls (f : TlsOptions → TlsOptions) : SSOption := as_grpc (λ o, set_grpc_TlsOptions (f (grpc_TlsOptions o)) o).
Definition WithGrpcTLS (mode : TlsMode) : SSOption := on_grpc_tls (set_tls_Mode mode).
Definition WithGrpcHostname (hostname : gostring) : SSOption := on_grpc_tls (set_tls_Hostname hostname).
Definition WithGrpcCertPath (certFile : gostring) : SSOption := on_grpc_tls (set_tls_CertFile certFile).
Definition WithGrpcKeyPath (keyFile : gostring) : SSOption := on_grpc_tls (set_tls_KeyFile keyFile).
Definition WithGrpcCAPath (caFile : gostring) : SSOption := on_grpc_tls (set_tls_CAFile caFile).
Definition WithGrpcSndRevBuffer (sndBuffer revBuffer : Z) : SSOption := as_grpc (λ w, set_grpc_RevBuffer revBuffer (set_grpc_SndBuffer sndBuffer w)).
Definition WithSshTransport : SSOption := start_transport Ssh (SshOpts DefaultSshOptions).
Definition WithSshUser (user : gostring) : SSOption := as_ssh (set_ssh_User user).
Definition WithSshPassword (password : gostring) : SSOption := as_ssh (set_ssh_Password password).
Definition WithSshPrivateKey (key : gostring) : SSOption := as_ssh (set_ssh_PrivateKey key).
Definition WithSshPublicKey (key : gostring) : SSOption := as_ssh (set_ssh_PublicKey key).
Definition WithSshAuthorizedKey (key : gostring) : SSOption := as_ssh (set_ssh_AuthorizedKey key).
