(* ===== verification/Config.v ===== *)
(** * From the configuration to the running client and server.

    Models [src/config/config.go] (what a configuration is turned into; rules are in
    Rule.v), [src/ss/ss_client.go] and [src/ss/ss_server.go] (what the options set up:
    the listeners, the proxies of the selector, the resolver, the TUN enhancer), and
    [src/ss/conn.go] as far as it says which ciphers a connection is bound to. A
    configuration is a value: reading the file and the command line are not
    modelled. [logger.Fatal] ends the process, here [Fail errFatal]. *)
From S2P Require Import Prelude GoIO GoNet Cache Rule Socks Cipher SsrAuth SsrObfs OrdMap FakeIP Resolver Enhancer Options.
Local Open Scope Z_scope.

Definition errFatal := errNew "fatal".

(** ** The configuration *)
Record TlsOption := CfgTls { ct_Mode : gostring; ct_Hostname : gostring; ct_KeyPath : gostring; ct_CertPath : gostring; ct_CAPath : gostring }.
Record WsOption := CfgWs { cw_Path : gostring; cw_Host : gostring; cw_Compress : bool; cw_TLS : TlsOption }.
Record ObfsOption := CfgObfs { co_Host : gostring }.
Record QuicOption := CfgQuic { cq_Conns : Z; cq_KeepAlive : Z; cq_MaxIdleTimeout : Z; cq_HandshakeIdleTimeout : Z; cq_TLS : TlsOption }.
Record GrpcOption := CfgGrpc { cg_SendBufferSize : Z; cg_RecvBufferSize : Z; cg_TLS : TlsOption }.
Record SshOption := CfgSsh {
  cs_User : gostring; cs_Password : gostring; cs_PrivateKey : gostring; cs_PublicKey : gostring; cs_AuthorizedKey : gostring }.
Record SSROption := CfgSsr { cr_Protocol : gostring; cr_ProtocolParam : gostring; cr_Obfs : gostring; cr_ObfsParam : gostring }.
(** The sections are pointers, nil when the file does not have them. *)
Record ServerConfig := CfgServer {
  Disable : bool; sc_Type : gostring; sc_Name : gostring; sc_Addr : gostring; sc_Password : gostring; sc_Method : gostring;
  sc_Transport : gostring; sc_Udp : bool; sc_Ws : option WsOption; sc_Obfs : option ObfsOption; sc_Quic : option QuicOption;
  sc_Grpc : option GrpcOption; sc_Ssh : option SshOption; sc_SSR : option SSROption }.
Record TunOption := CfgTun {
  tn_Enable : bool; tn_Name : gostring; tn_Cidr : gostring; tn_Mtu : Z; tn_AutoRoute : bool; tn_DnsHijack : list gostring }.
Record DnsOption := CfgDns { dn_Listen : gostring; dn_DomainFilter : list gostring; dn_Nameservers : list gostring; dn_DisableRewrite : bool }.
Record MitmFakeCertPool := CfgPool { mp_Capacity : Z; mp_Interval : Z; mp_ExpireSecond : Z }.
Record MitmOption := CfgMitm {
  mo_Enable : bool; mo_Proxy : gostring; mo_CAPath : gostring; mo_KeyPath : gostring; mo_FakeCertPool : option MitmFakeCertPool }.
Record LocalConfig := CfgLocal {
  SocksAddr : gostring; HTTPAddr : gostring; SocksAuth : gostring; HTTPAuth : gostring; MixedAddr : gostring;
  TCPTunAddr : list gostring; SystemProxy : bool; LookupHostsFile : bool;
  lc_Mitm : option MitmOption; lc_Tun : option TunOption; lc_DNS : option DnsOption }.
Record Config_ := MkConfig {
  Server : list ServerConfig; Local : option LocalConfig; Iface : gostring; AutoDetectIface : bool; Rules : option cfgRules }.

(** [DeleteServerConfig]. *)
Fixpoint DeleteServerConfig (name : gostring) (l : list ServerConfig) : list ServerConfig :=
  match l with [] => [] | c :: r => if decide (sc_Name c = name) then r else c :: DeleteServerConfig name r end.

(** ** [BuildServerOptions] *)

(** Following a pointer. *)
Definition deref {A} (o : option A) : res A := match o with Some a => Ret a | None => Panic end.
Definition tls_mode (f : TlsMode → SSOption) (m : gostring) : list SSOption :=
  if decide (m = str "tls") then [f TLS] else if decide (m = str "mtls") then [f MTLS] else [].
(** [time.Second*time.Duration(n)]. *)
Definition seconds (n : Z) : Z := i64 (Second * n).

Definition transport_options (opt : ServerConfig) : res (list SSOption) :=
  let t := sc_Transport opt in
  if decide (t = str "ws") then
    ws ← deref (sc_Ws opt);
    Ret ([WithWsTransport; WithWsHost (cw_Host ws); WithWsPath (cw_Path ws); WithWsCertPath (ct_CertPath (cw_TLS ws));
          WithWsKeyPath (ct_KeyPath (cw_TLS ws)); WithWsCAPath (ct_CAPath (cw_TLS ws)); WithWsHostname (ct_Hostname (cw_TLS ws))] ++
         (if cw_Compress ws then [WithWsCompress] else []) ++ tls_mode WithWsTLS (ct_Mode (cw_TLS ws)))
  else if decide (t = str "obfs") then
    o ← deref (sc_Obfs opt); Ret [WithObfsTransport; WithObfsHost (co_Host o)]
  else if decide (t = str "quic") then
    q ← deref (sc_Quic opt);
    Ret ([WithQuicTransport; WithQuicConns (cq_Conns q); WithQuicKeepAlivePeriod (seconds (cq_KeepAlive q));
          WithQuicMaxIdleTimeout (seconds (cq_MaxIdleTimeout q)); WithQuicHandshakeIdleTimeout (seconds (cq_HandshakeIdleTimeout q));
          WithQuicCertPath (ct_CertPath (cq_TLS q)); WithQuicKeyPath (ct_KeyPath (cq_TLS q)); WithQuicCAPath (ct_CAPath (cq_TLS q));
          WithQuicHostname (ct_Hostname (cq_TLS q))] ++ tls_mode WithQuicTLS (ct_Mode (cq_TLS q)))
  else if decide (t = str "grpc") then
    gr ← deref (sc_Grpc opt);
    Ret ([WithGrpcTransport; WithGrpcSndRevBuffer (cg_SendBufferSize gr) (cg_RecvBufferSize gr); WithGrpcCertPath (ct_CertPath (cg_TLS gr));
          WithGrpcKeyPath (ct_KeyPath (cg_TLS gr)); WithGrpcCAPath (ct_CAPath (cg_TLS gr)); WithGrpcHostname (ct_Hostname (cg_TLS gr))] ++
         tls_mode WithGrpcTLS (ct_Mode (cg_TLS gr)))
  else if decide (t = str "ssh") then
    s ← deref (sc_Ssh opt);
    Ret [WithSshTransport; WithSshUser (cs_User s); WithSshPassword (cs_Password s); WithSshPrivateKey (cs_PrivateKey s);
         WithSshPublicKey (cs_PublicKey s); WithSshAuthorizedKey (cs_AuthorizedKey s)]
  else if decide (t = str "default") then
    if decide (sc_Type opt = str "ssr") then
      s ← deref (sc_SSR opt);
      Ret [WithEnableSSR; WithSSRProtocol (cr_Protocol s); WithSSRProtocolParam (cr_ProtocolParam s); WithSSRObfs (cr_Obfs s);
           WithObfsParam (cr_ObfsParam s)]
    else Ret []
  else Ret [].

Definition server_options (opt : ServerConfig) : res (list SSOption) :=
  l ← transport_options opt;
  Ret (l ++ [WithServerName (sc_Name opt); WithServerAddr (sc_Addr opt); WithMethod (sc_Method opt); WithPassword (sc_Password opt);
             WithUDPRelay (sc_Udp opt)]).

Fixpoint build_servers (l : list ServerConfig) : M globals (list SSOption) :=
  match l with
  | [] => mret []
  | opt :: r =>
      if Disable opt then build_servers r else
      opts ← mlift (server_options opt);
      o ← WithServerCompose opts;
      rest ← build_servers r;
      mret (o :: rest)
  end.
Definition BuildServerOptions (cfg : Config_) : M globals (list SSOption) :=
  l ← build_servers (Server cfg);
  mret (l ++ [WithOutboundInterface (Iface cfg); WithAutoDetectInterface (AutoDetectIface cfg)]).

(** ** [BuildLocalOptions] *)
Definition splitAuthInfo (auth : gostring) : gostring * gostring := fst (cut_byte 58 auth).
(** An address without ["="] gives a nil slice. *)
Definition splitTunAddrInfo (addr : gostring) : list gostring :=
  let '(l, r, found) := cut_byte 61 addr in if found then [l; r] else [].
Definition with_auth (f : gostring → gostring → SSOption) (auth : gostring) : SSOption :=
  let '(u, p) := splitAuthInfo auth in f u p.

Definition listen_options (l : LocalConfig) : list SSOption :=
  if negb (bool_decide (MixedAddr l = [])) then
    [WithMixedAddr (MixedAddr l); with_auth WithHttpUserInfo (HTTPAuth l); with_auth WithSocksUserInfo (SocksAuth l)]
  else
    (if negb (bool_decide (SocksAddr l = [])) then [WithSocksAddr (SocksAddr l); with_auth WithSocksUserInfo (SocksAuth l)] else []) ++
    (if negb (bool_decide (HTTPAddr l = [])) then [WithHttpAddr (HTTPAddr l); with_auth WithHttpUserInfo (HTTPAuth l)] else []).
Definition mitm_options (l : LocalConfig) : list SSOption :=
  match lc_Mitm l with
  | Some m =>
      if mo_Enable m then
        [WithMitm (mo_Enable m); WithMitmProxy (mo_Proxy m); WithMitmCAPath (mo_CAPath m); WithMitmKeyPath (mo_KeyPath m)] ++
        match mo_FakeCertPool m with
        | Some p => [WithMitmFakeCertPool (mp_Capacity p) (mp_Interval p) (mp_ExpireSecond p)] | None => [] end
      else []
  | None => []
  end.
Definition tun_options (l : LocalConfig) : res (list SSOption) :=
  match lc_Tun l with
  | Some t =>
      if tn_Enable t then
        match lc_DNS l with
        | None => Fail errFatal
        | Some _ => Ret [WithEnableTun; WithTunName (tn_Name t); WithTunCIDR (tn_Cidr t); WithTunMTU (u32 (tn_Mtu t));
                         WithTunDnsHijack (tn_DnsHijack t); WithTunAutoRoute (tn_AutoRoute t)]
        end
      else Ret []
  | None => Ret []
  end.
Definition dns_options (l : LocalConfig) : list SSOption :=
  match lc_DNS l with
  | Some d => [WithFakeDnsServer (dn_Listen d); WithFakeDnsDisableRewrite (dn_DisableRewrite d);
               WithFakeDnsDomainFilter (dn_DomainFilter d); WithDefaultDnsNameservers (dn_Nameservers d)]
  | None => []
  end.
Definition ruler_or_exit (cfg : Config_) : res Ruler := match BuildRuler (Rules cfg) with Some r => r | None => Fail errFatal end.

Definition BuildLocalOptions (cfg : Config_) : res (list SSOption) :=
  l ← deref (Local cfg);
  ruler ← ruler_or_exit cfg;
  tun ← tun_options l;
  Ret (listen_options l ++ [WithTcpTunAddr (splitTunAddrInfo <$> TCPTunAddr l); WithRuler ruler] ++
       mitm_options l ++ tun ++ dns_options l ++
       (if SystemProxy l then [WithSystemProxy] else []) ++
       (if LookupHostsFile l then [WithLookupHostsFile] else [])).

Definition BuildSSLocalOptions (cfg : Config_) : M globals (list SSOption) :=
  opts ← BuildServerOptions cfg;
  l ← mlift (BuildLocalOptions cfg);
  mret (opts ++ l).

(** ** [NewShadowsocksClient] *)

(** What a connection is bound to: the ciphers ([makeStreamConn], [makePacketConn]), or
    the obfuscator and protocol of ShadowsocksR around a stream cipher
    ([makeSSRClientStreamConn], [makeSSRClientPacketConn]). *)
Inductive bound :=
| BoundSS (sc : option metaStreamCipher) (ac : option metaAEADCipher)
| BoundSSR (sc : option metaStreamCipher) (obfs : obfs_kind * ObfsBase) (proto : protocol_kind * Base).
(** The protocols of ShadowsocksR that encrypt the payload themselves, with RC4. *)
Definition protocol_encrypts (k : protocol_kind) : bool :=
  match k with AuthChainA | AuthChainB => true | _ => false end.
(** Whether anything encrypts the payload: a cipher, or the protocol. *)
Definition encrypts (b : bound) : bool :=
  match b with
  | BoundSS sc ac => bool_decide (is_Some sc) || bool_decide (is_Some ac)
  | BoundSSR sc _ (k, _) => bool_decide (is_Some sc) || protocol_encrypts k
  end.

Record V := MkV { v_Addr : gostring; v_Type : Type_; v_TcpConnBound : bound; v_UdpConnBound : bound; v_Options : option Options }.

Inductive frontend :=
| TcpTunServer (localAddr remoteAddr : gostring)
| MixedServer (addr : gostring) (httpAuth socksAuth : option Auth) (mitm : MimtOption)
| HttpProxyServer (addr : gostring) (httpAuth : option Auth) (mitm : MimtOption)
| SocksProxyServer (addr : gostring) (socksAuth : option Auth) (mitm : MimtOption).

Section Setup.
Context (md5 : list Z → list Z) {Msg C1 C2 : Type}.
(** [route.DefaultRouteInterface] and [dnsutil.GetLocalDnsList]. *)
Context (DefaultRouteInterface : option gostring) (localDns : list gostring).

Record ShadowsocksClient := MkClient { cl_srvGroup : list frontend; cl_enhancer : option Enhancer; cl_Opts : ssOptions }.
(** The global variables a client is made of. *)
Record clientWorld := ClientWorld {
  cw_globals : globals; cw_selector : selector.Selector V; cw_resolver : option (Resolver.Resolver Msg C1 C2) }.

Definition default_prefix : option Prefix := ParsePrefix (str "198.18.0.1/16").
Definition defaultSSLocalOpts : ssOptions :=
  MkSs [] (set_lo_enhancerConfig (MkEhCfg (MkTun (str "utun3") [default_prefix] 0 false) [] false []) zero_local).

Definition bind_server (opt : serverOptions) : res bound :=
  match GetCipher md5 (so_method opt) (so_password opt) with
  | Panic => Panic
  | Fail _ => Fail errFatal
  | Ret (sc, ac) =>
      if so_ssr opt then
        match NewSSRClientStreamCipher ((λ s, (sc_key s, sc_ivSize s)) <$> sc) (so_addr opt)
                (ssr_Protocol (so_ssrOpt opt)) (ssr_ProtocolParam (so_ssrOpt opt)) (ssr_Obfs (so_ssrOpt opt)) (ssr_ObfsParam (so_ssrOpt opt)) with
        | Ret (ob, pr) => Ret (BoundSSR sc ob pr)
        | Fail _ => Fail errFatal
        | Panic => Panic
        end
      else Ret (BoundSS sc ac)
  end.
Definition initServerOption (opt : serverOptions) (s : selector.Selector V) : res (selector.Selector V) :=
  b ← bind_server opt;
  let item := MkV (so_addr opt) (so_transport opt) b b (so_opts opt) in
  let s1 := selector.AddProxy (so_name opt) item s in
  Ret (if so_udp opt then selector.AddPacketProxy (so_name opt) item s1 else s1).
Fixpoint init_servers (l : list serverOptions) (s : selector.Selector V) : selector.Selector V * res unit :=
  match l with
  | [] => (s, Ret tt)
  | opt :: r =>
      match initServerOption opt s with
      | Ret s1 => init_servers r s1
      | Fail e => (s, Fail e)
      | Panic => (s, Panic)
      end
  end.

(** The one proxy node of a command line gets a name and is the target of global mode. *)
Definition DefaultName : gostring := str "<Default>".
Definition set_GlobalTo (x : gostring) (r : Ruler) : Ruler := MkRuler (r_mode r) (matched r) (MS r) (DirectTo r) x.
Definition name_default (s : globals * ssOptions) : res (globals * ssOptions) :=
  match serverOpts s.2 with
  | [o] =>
      if bool_decide (so_name o = []) then
        r ← deref (g_MatchRuler s.1);
        if bool_decide (GlobalTo r = []) then
          Ret (set_g_MatchRuler (Some (set_GlobalTo DefaultName r)) s.1, set_serverOpts [set_so_name DefaultName o] s.2)
        else Ret s
      else Ret s
  | _ => Ret s
  end.

(** [addrs[0]], [addrs[1]]. *)
Fixpoint tun_servers (l : list (list gostring)) : res (list frontend) :=
  match l with
  | [] => Ret []
  | addrs :: r => a ← index addrs 0; b ← index addrs 1; rest ← tun_servers r; Ret (TcpTunServer a b :: rest)
  end.
Definition listeners (lo : localOptions) : list frontend :=
  if negb (bool_decide (lo_mixedAddr lo = [])) then
    [MixedServer (lo_mixedAddr lo) (lo_httpAuth lo) (lo_socksAuth lo) (lo_mitmConfig lo)]
  else
    (if negb (bool_decide (lo_httpAddr lo = [])) then [HttpProxyServer (lo_httpAddr lo) (lo_httpAuth lo) (lo_mitmConfig lo)] else []) ++
    (if negb (bool_decide (lo_socksAddr lo = [])) then [SocksProxyServer (lo_socksAddr lo) (lo_socksAuth lo) (lo_mitmConfig lo)] else []).
Definition auto_detect (g : globals) : globals :=
  if g_AutoDetectInterface g
  then match DefaultRouteInterface with Some i => set_g_OutboundInterface i g | None => g end else g.

Definition NewShadowsocksClient (opts : list SSOption) (w : clientWorld) : clientWorld * res ShadowsocksClient :=
  match apply_all opts (cw_globals w, defaultSSLocalOpts) with
  | ((g, _), Fail e) => (ClientWorld g (cw_selector w) (cw_resolver w), Fail e)
  | ((g, _), Panic) => (ClientWorld g (cw_selector w) (cw_resolver w), Panic)
  | ((g0, so0), Ret _) =>
      let g1 := auto_detect g0 in
      match NewDnsResolver (g_DefaultDnsNameservers g1) localDns (lo_lookupHostsFile (localOpts so0)) with
      | Fail e => (ClientWorld g1 (cw_selector w) (cw_resolver w), Fail e)
      | Panic => (ClientWorld g1 (cw_selector w) (cw_resolver w), Panic)
      | Ret rs =>
          match name_default (g1, so0) with
          | Fail e => (ClientWorld g1 (cw_selector w) (Some rs), Fail e)
          | Panic => (ClientWorld g1 (cw_selector w) (Some rs), Panic)
          | Ret (g2, so) =>
              let lo := localOpts so in
              let '(sel, x) := init_servers (serverOpts so) (cw_selector w) in
              (ClientWorld g2 sel (Some rs),
               _ ← x;
               tuns ← tun_servers (lo_tcpTunAddr lo);
               let ec := lo_enhancerConfig lo in
               Ret (MkClient (tuns ++ listeners lo)
                      (if lo_enableTun lo
                       then Some (NewEnhancer (tun_Inet4Address (ec_Tun ec)) (ec_FakeDNS ec) (ec_DisableRewrite ec) (ec_DnsHijack ec))
                       else None) so))
          end
      end
  end.

(** *** [setSystemProxy], [Start] and [Close]

    A URL: scheme, host, user. *)
Definition proxy_url := (gostring * gostring * option Auth)%type.
Definition local_url (scheme addr : gostring) (user : option Auth) : proxy_url :=
  let port := match SplitHostPort addr with inl (_, p) => p | inr _ => [] end in
  (scheme, JoinHostPort (str "127.0.0.1") port, user).
Definition system_proxies (lo : localOptions) : option proxy_url * option proxy_url :=
  if negb (bool_decide (lo_mixedAddr lo = [])) then
    (Some (local_url (str "http") (lo_mixedAddr lo) None), Some (local_url (str "socks") (lo_mixedAddr lo) None))
  else
    (if negb (bool_decide (lo_httpAddr lo = [])) then Some (local_url (str "http") (lo_httpAddr lo) (lo_httpAuth lo)) else None,
     if negb (bool_decide (lo_socksAddr lo = [])) then Some (local_url (str "socks") (lo_socksAddr lo) (lo_socksAuth lo)) else None).

Inductive action :=
| EnhancerStarted | EnhancerClosed | SystemProxySet (http socks : option proxy_url) | SystemProxyUnset
| GroupStarted | GroupClosed | GeoIPClosed.

(** What is done, in order; [ehStart] and [grpStart] are what starting the enhancer and
    the listeners returns. *)
Definition client_Start (ehStart grpStart : option error) (c : ShadowsocksClient) : list action * option error :=
  let lo := localOpts (cl_Opts c) in
  match cl_srvGroup c with
  | [] => ([], None)
  | _ =>
      let eh := if lo_enableTun lo then [EnhancerStarted] else [] in
      match (if lo_enableTun lo then ehStart else None) with
      | Some e => (eh, Some e)
      | None =>
          let sp := if lo_systemProxy lo then [SystemProxySet (system_proxies lo).1 (system_proxies lo).2] else [] in
          match grpStart with
          | Some e => (eh ++ sp ++ [GroupStarted; SystemProxyUnset] ++ (if lo_enableTun lo then [EnhancerClosed] else []), Some e)
          | None => (eh ++ sp ++ [GroupStarted], None)
          end
      end
  end.
Definition client_Close (grpClose : option error) (c : ShadowsocksClient) : list action * option error :=
  let lo := localOpts (cl_Opts c) in
  match cl_srvGroup c with
  | [] => ([GeoIPClosed], None)
  | _ => ((if lo_systemProxy lo then [SystemProxyUnset] else []) ++ (if lo_enableTun lo then [EnhancerClosed] else []) ++
          [GroupClosed; GeoIPClosed], grpClose)
  end.

(** ** [NewShadowsocksServer]

    A listener: transport, address, options; its handler: the ciphers and, with UDP
    relaying, the UDP address and what its datagrams are bound to. *)
Record serverHandler := MkHandler { sh_tcpRelayer : bound; sh_udpRelayer : option (gostring * bound) }.
Record ShadowsocksServer := MkSServer { sv_handlerList : list serverHandler; sv_srvGroup : list (Type_ * gostring * option Options) }.

Definition initServerHandler (opt : serverOptions) (s : ShadowsocksServer) : res ShadowsocksServer :=
  '(sc, ac) ← GetCipher md5 (so_method opt) (so_password opt);
  Ret (MkSServer (sv_handlerList s ++ [MkHandler (BoundSS sc ac) (if so_udp opt then Some (so_addr opt, BoundSS sc ac) else None)])
                 (sv_srvGroup s ++ [(so_transport opt, so_addr opt, match so_transport opt with Tcp => None | _ => so_opts opt end)])).
(** A server that cannot be initialised is logged and left out. *)
Fixpoint init_handlers (l : list serverOptions) (s : ShadowsocksServer) : res ShadowsocksServer :=
  match l with
  | [] => Ret s
  | opt :: r =>
      match initServerHandler opt s with
      | Ret s1 => init_handlers r s1
      | Fail _ => init_handlers r s
      | Panic => Panic
      end
  end.
Definition NewShadowsocksServer (opts : list SSOption) (g : globals) : globals * res ShadowsocksServer :=
  match apply_all opts (g, MkSs [] zero_local) with
  | ((g, _), Fail e) => (g, Fail e)
  | ((g, _), Panic) => (g, Panic)
  | ((g0, so), Ret _) =>
      match serverOpts so with
      | [] => (g0, Fail errFatal)
      | l =>
          match NewDnsResolver (Msg := Msg) (C1 := C1) (C2 := C2) [] localDns false with
          | Fail e => (g0, Fail e)
          | Panic => (g0, Panic)
          | Ret _ => match init_handlers l (MkSServer [] []) with
                     | Ret s => (auto_detect g0, Ret s) | Fail e => (g0, Fail e) | Panic => (g0, Panic) end
          end
      end
  end.
End Setup.

(** ** What a server of the configuration means *)
Definition mode_of (m : gostring) : TlsMode :=
  if decide (m = str "tls") then TLS else if decide (m = str "mtls") then MTLS else TlsNone.
Definition tls_of (t : TlsOption) : TlsOptions := MkTls (mode_of (ct_Mode t)) (ct_CAPath t) (ct_KeyPath t) (ct_CertPath t) (ct_Hostname t).
Definition no_ssr : ShadowsocksROption := MkSsr [] [] [] [].

(** The options of a server, read off its section; [None]: the section its transport
    needs is missing. *)
Definition server_of (c : ServerConfig) : option serverOptions :=
  let mk t o ssr so := MkServer (sc_Name c) (sc_Addr c) (sc_Method c) (sc_Password c) t (sc_Udp c) o ssr so in
  let t := sc_Transport c in
  if decide (t = str "ws") then
    ws ← sc_Ws c;
    Some (mk Websocket (Some (WsOpts (MkWs (tls_of (cw_TLS ws)) (cw_Host ws) (cw_Path ws) 4096 4096 (cw_Compress ws)
                                        (ws_UserAgent DefaultWsOptions)))) false no_ssr)
  else if decide (t = str "obfs") then o ← sc_Obfs c; Some (mk Obfs (Some (ObfsOpts (MkObfsOpt (co_Host o)))) false no_ssr)
  else if decide (t = str "quic") then
    q ← sc_Quic c;
    Some (mk Quic (Some (QuicOpts (MkQuic (tls_of (cq_TLS q)) (seconds (cq_HandshakeIdleTimeout q)) (seconds (cq_KeepAlive q))
                                     (seconds (cq_MaxIdleTimeout q)) (if cq_Conns q <=? 0 then 3 else cq_Conns q)))) false no_ssr)
  else if decide (t = str "grpc") then
    gr ← sc_Grpc c;
    Some (mk Grpc (Some (GrpcOpts (MkGrpc (tls_of (cg_TLS gr)) (cg_SendBufferSize gr) (cg_RecvBufferSize gr)))) false no_ssr)
  else if decide (t = str "ssh") then
    s ← sc_Ssh c;
    Some (mk Ssh (Some (SshOpts (MkSsh (cs_User s) (cs_Password s) (cs_PrivateKey s) (cs_PublicKey s) (cs_AuthorizedKey s)))) false no_ssr)
  else if decide (t = str "default" ∧ sc_Type c = str "ssr") then
    s ← sc_SSR c; Some (mk Tcp None true (MkSsr (cr_Protocol s) (cr_ProtocolParam s) (cr_Obfs s) (cr_ObfsParam s)))
  else Some (mk Tcp None false no_ssr).

Definition add_servers (l : list serverOptions) : SSOption := λ s,
  ((s.1, set_serverOpts (serverOpts s.2 ++ l) s.2), Ret tt).

Lemma compose_server c g :
  match server_of c with
  | Some s => ∃ l, server_options c = Ret l ∧ WithServerCompose l g = (g, Ret (add_servers [s]))
  | None => server_options c = Panic
  end.
Proof.
  unfold server_of, server_options, transport_options.
  destruct (decide (sc_Transport c = str "ws")); [destruct (sc_Ws c) as [ws|]; [|done]|].
  { cbn [deref mbind res_bind option_bind]. eexists. split; [reflexivity|].
    unfold tls_of, mode_of, tls_mode. destruct (cw_Compress ws); repeat case_decide; reflexivity. }
  destruct (decide (sc_Transport c = str "obfs")); [destruct (sc_Obfs c) as [o|]; [|done]; eexists; split; reflexivity|].
  destruct (decide (sc_Transport c = str "quic")); [destruct (sc_Quic c) as [q|]; [|done]|].
  { cbn [deref mbind res_bind option_bind]. eexists. split; [reflexivity|].
    unfold tls_of, mode_of, tls_mode, WithQuicConns. destruct (cq_Conns q <=? 0); repeat case_decide; reflexivity. }
  destruct (decide (sc_Transport c = str "grpc")); [destruct (sc_Grpc c) as [gr|]; [|done]|].
  { cbn [deref mbind res_bind option_bind]. eexists. split; [reflexivity|].
    unfold tls_of, mode_of, tls_mode. repeat case_decide; reflexivity. }
  destruct (decide (sc_Transport c = str "ssh")); [destruct (sc_Ssh c) as [s|]; [|done]; eexists; split; reflexivity|].
  destruct (decide (sc_Transport c = str "default")) as [e|ne].
  - destruct (decide (sc_Type c = str "ssr")).
    + rewrite decide_True by done. destruct (sc_SSR c) as [s|]; [|done]. eexists. split; reflexivity.
    + rewrite decide_False by tauto. eexists. split; reflexivity.
  - rewrite decide_False by tauto. eexists. split; reflexivity.
Qed.

Definition enabled (l : list ServerConfig) : list ServerConfig := filter (λ c, Disable c = false) l.

Lemma build_servers_spec l g :
  match mapM server_of (enabled l) with
  | Some ss => build_servers l g = (g, Ret ((λ s, add_servers [s]) <$> ss))
  | None => build_servers l g = (g, Panic)
  end.
Proof.
  induction l as [|c l IH]; [done|]. unfold enabled. cbn [filter list_filter build_servers].
  destruct (Disable c) eqn:Ed; rewrite ?decide_False, ?decide_True by congruence; [exact IH|].
  fold (enabled l). change (filter (λ c, Disable c = false) l) with (enabled l). cbn [mapM]. pose proof (compose_server c g) as Hc.
  destruct (server_of c) as [s|]; cbn [mbind option_bind].
  - destruct Hc as (o & Ho & Hg). destruct (mapM server_of (enabled l)); cbn [mbind option_bind];
      unfold mbind, M_bind, mlift; rewrite Ho, Hg, IH; done.
  - unfold mbind at 1, M_bind at 1, mlift. by rewrite Hc.
Qed.

Lemma apply_all_app l k s :
  apply_all (l ++ k) s = match apply_all l s with (s', Ret _) => apply_all k s' | (s', x) => (s', x) end.
Proof.
  revert s. induction l as [|o l IH]; intros s; [done|]. cbn [apply_all app]. unfold mbind, M_bind.
  destruct (o s) as [s1 [[]|e|]]; [|done..]. apply IH.
Qed.

Lemma apply_all_cons o l s :
  apply_all (o :: l) s = match o s with (s', Ret _) => apply_all l s' | (s', Fail e) => (s', Fail e) | (s', Panic) => (s', Panic) end.
Proof. reflexivity. Qed.

Lemma apply_add_servers ss : ∀ s,
  apply_all ((λ s, add_servers [s]) <$> ss) s = ((s.1, set_serverOpts (serverOpts s.2 ++ ss) s.2), Ret tt).
Proof.
  induction ss as [|x ss IH]; intros [g so]; cbn [fmap list_fmap apply_all]; [by destruct so; simpl; rewrite app_nil_r|].
  unfold mbind, M_bind, add_servers at 1. cbn [fst snd]. rewrite IH. destruct so. simpl. by rewrite <-app_assoc.
Qed.

Definition set_ifaces (cfg : Config_) (g : globals) : globals :=
  set_g_AutoDetectInterface (AutoDetectIface cfg) (set_g_OutboundInterface (Iface cfg) g).

Lemma server_options_run cfg g :
  match mapM server_of (enabled (Server cfg)) with
  | Some ss => ∃ opts, BuildServerOptions cfg g = (g, Ret opts) ∧
      ∀ g1 so, apply_all opts (g1, so) = ((set_ifaces cfg g1, set_serverOpts (serverOpts so ++ ss) so), Ret tt)
  | None => BuildServerOptions cfg g = (g, Panic)
  end.
Proof.
  pose proof (build_servers_spec (Server cfg) g) as H. unfold BuildServerOptions, mbind, M_bind.
  destruct (mapM server_of (enabled (Server cfg))) as [ss|]; rewrite H; [|done].
  eexists. split; [reflexivity|]. intros g1 so. by rewrite apply_all_app, apply_add_servers.
Qed.

(** The options a configuration's servers are turned into do what the
    configuration says: applied to any option record they append, in order, exactly one server per
    enabled section, each field as the section has it, with the transport and TLS
    mode its names stand for, and set the interface. If an enabled server lacks
    the section its transport needs, building the options panics. *)
Theorem config_servers cfg g :
  match mapM server_of (enabled (Server cfg)) with
  | Some ss => ∃ opts, BuildServerOptions cfg g = (g, Ret opts) ∧
      ∀ g1 so, apply_all opts (g1, so) = ((set_ifaces cfg g1, set_serverOpts (serverOpts so ++ ss) so), Ret tt)
  | None => BuildServerOptions cfg g = (g, Panic)
  end.
Proof. apply server_options_run. Qed.

(** ** What the client's section means *)
Definition auth_of (s : gostring) : option Auth := let '(u, p) := splitAuthInfo s in NewAuth u p.
Definition mitm_of (l : LocalConfig) : MimtOption :=
  match lc_Mitm l with
  | Some m =>
      if mo_Enable m then
        let '(a, b, c) := match mo_FakeCertPool m with Some p => (mp_Capacity p, mp_Interval p, mp_ExpireSecond p) | None => (0, 0, 0) end in
        MkMitm true (mo_Proxy m) (mo_CAPath m) (mo_KeyPath m) a b c
      else MkMitm false [] [] [] 0 0 0
  | None => MkMitm false [] [] [] 0 0 0
  end.
Definition tun_on (l : LocalConfig) : bool := match lc_Tun l with Some t => tn_Enable t | None => false end.
Definition tun_of (l : LocalConfig) : TunOptions :=
  match lc_Tun l with
  | Some t =>
      if tn_Enable t then
        MkTun (tn_Name t) (match ParsePrefix (tn_Cidr t) with Some p => [Some p] | None => [default_prefix] end) (u32 (tn_Mtu t)) (tn_AutoRoute t)
      else MkTun (str "utun3") [default_prefix] 0 false
  | None => MkTun (str "utun3") [default_prefix] 0 false
  end.
Definition enhancer_of (l : LocalConfig) : EnhancerConfig :=
  let hijack := match lc_Tun l with Some t => if tn_Enable t then omap hijack_addr (tn_DnsHijack t) else [] | None => [] end in
  match lc_DNS l with
  | Some d => MkEhCfg (tun_of l) (dn_Listen d) (dn_DisableRewrite d) hijack
  | None => MkEhCfg (tun_of l) [] false hijack
  end.
Definition local_of (l : LocalConfig) : localOptions :=
  let mixed := negb (bool_decide (MixedAddr l = [])) in
  let socks := negb (bool_decide (SocksAddr l = [])) in
  let http := negb (bool_decide (HTTPAddr l = [])) in
  MkLocal (if mixed then [] else SocksAddr l) (if mixed then [] else HTTPAddr l) (MixedAddr l)
    (if mixed || socks then auth_of (SocksAuth l) else None) (if mixed || http then auth_of (HTTPAuth l) else None)
    (splitTunAddrInfo <$> TCPTunAddr l) (SystemProxy l) (tun_on l) (LookupHostsFile l) (enhancer_of l) (mitm_of l).
Definition globals_of (cfg : Config_) (l : LocalConfig) (ru : Ruler) (g : globals) : globals :=
  let g1 := set_g_MatchRuler (Some ru) (set_ifaces cfg g) in
  match lc_DNS l with
  | Some d =>
      let g2 := set_g_DefaultDomainFilter (dn_DomainFilter d) g1 in
      match dn_Nameservers d with [] => g2 | ns => set_g_DefaultDnsNameservers ns g2 end
  | None => g1
  end.

(** The groups of options, one after the other. *)
Lemma listen_run l g so : localOpts so = localOpts defaultSSLocalOpts →
  apply_all (listen_options l) (g, so) =
  ((g, set_localOpts (set_lo_socksAddr (lo_socksAddr (local_of l)) (set_lo_httpAddr (lo_httpAddr (local_of l))
         (set_lo_mixedAddr (MixedAddr l) (set_lo_socksAuth (lo_socksAuth (local_of l)) (set_lo_httpAuth (lo_httpAuth (local_of l)) (localOpts so)))))) so), Ret tt).
Proof.
  intros H. destruct so as [ss lo]. simpl in H. subst lo. unfold listen_options, local_of, with_auth, auth_of.
  destruct (splitAuthInfo (SocksAuth l)), (splitAuthInfo (HTTPAuth l)).
  destruct (decide (MixedAddr l = [])) as [Em|Em], (decide (SocksAddr l = [])) as [Es|Es], (decide (HTTPAddr l = [])) as [Eh|Eh];
    rewrite ?(bool_decide_true (MixedAddr l = [])), ?(bool_decide_false (MixedAddr l = [])),
      ?(bool_decide_true (SocksAddr l = [])), ?(bool_decide_false (SocksAddr l = [])),
      ?(bool_decide_true (HTTPAddr l = [])), ?(bool_decide_false (HTTPAddr l = [])) by done; rewrite ?Em, ?Es, ?Eh; reflexivity.
Qed.
Lemma mitm_run l g so : lo_mitmConfig (localOpts so) = MkMitm false [] [] [] 0 0 0 →
  apply_all (mitm_options l) (g, so) = ((g, set_localOpts (set_lo_mitmConfig (mitm_of l) (localOpts so)) so), Ret tt).
Proof.
  intros H. destruct so as [ss []]. simpl in H. subst. unfold mitm_options, mitm_of.
  destruct (lc_Mitm l) as [[[] ? ? ? [[]|]]|]; reflexivity.
Qed.
Lemma tun_run l tun g so : tun_options l = Ret tun →
  lo_enhancerConfig (localOpts so) = lo_enhancerConfig (localOpts defaultSSLocalOpts) → lo_enableTun (localOpts so) = false →
  apply_all tun (g, so) = ((g, set_localOpts (set_lo_enableTun (tun_on l) (set_lo_enhancerConfig
     (MkEhCfg (tun_of l) [] false (ec_DnsHijack (enhancer_of l))) (localOpts so))) so), Ret tt).
Proof.
  intros Ht He Hn. destruct so as [ss []]. simpl in He, Hn. subst. unfold tun_options, tun_on, tun_of, enhancer_of in *.
  destruct (lc_DNS l), (lc_Tun l) as [[[] ? cidr ? ? ?]|]; try discriminate Ht; injection Ht as <-; try reflexivity.
  cbn. unfold WithTunCIDR. cbn. destruct (ParsePrefix cidr); reflexivity.
Qed.
Lemma dns_run l g so :
  apply_all (dns_options l) (g, so) =
  ((match lc_DNS l with
    | Some d => let g2 := set_g_DefaultDomainFilter (dn_DomainFilter d) g in
                match dn_Nameservers d with [] => g2 | ns => set_g_DefaultDnsNameservers ns g2 end
    | None => g end,
    set_localOpts (set_lo_enhancerConfig
      (match lc_DNS l with
       | Some d => set_ec_DisableRewrite (dn_DisableRewrite d) (set_ec_FakeDNS (dn_Listen d) (lo_enhancerConfig (localOpts so)))
       | None => lo_enhancerConfig (localOpts so) end) (localOpts so)) so), Ret tt).
Proof. destruct so as [ss []]. unfold dns_options. destruct (lc_DNS l) as [[? ? [] ?]|]; reflexivity. Qed.
Lemma flags_run l g so : lo_systemProxy (localOpts so) = false → lo_lookupHostsFile (localOpts so) = false →
  apply_all ((if SystemProxy l then [WithSystemProxy] else []) ++ (if LookupHostsFile l then [WithLookupHostsFile] else [])) (g, so) =
  ((g, set_localOpts (set_lo_lookupHostsFile (LookupHostsFile l) (set_lo_systemProxy (SystemProxy l) (localOpts so))) so), Ret tt).
Proof.
  intros H1 H2. destruct so as [ss []]. simpl in H1, H2. subst. by destruct (SystemProxy l), (LookupHostsFile l).
Qed.

(** All of them: the configuration's record. *)
Lemma local_run cfg l ru opts g ss : Local cfg = Some l → ruler_or_exit cfg = Ret ru → BuildLocalOptions cfg = Ret opts →
  apply_all opts (set_ifaces cfg g, MkSs ss (localOpts defaultSSLocalOpts)) = ((globals_of cfg l ru g, MkSs ss (local_of l)), Ret tt).
Proof.
  intros Hl Hr Ho. unfold BuildLocalOptions in Ho. rewrite Hl, Hr in Ho. cbn [deref mbind res_bind] in Ho.
  destruct (tun_options l) as [tun|e|] eqn:Ht; [|done..]. cbn [mbind res_bind] in Ho. injection Ho as <-.
  rewrite apply_all_app, listen_run by done. cbv beta iota.
  rewrite apply_all_cons. unfold WithTcpTunAddr, on_local at 1. cbn [fst snd].
  rewrite apply_all_cons. unfold WithRuler, on_globals at 1. cbn [fst snd].
  rewrite apply_all_app, mitm_run by done. cbv beta iota. rewrite apply_all_app, (tun_run l tun) by done. cbv beta iota.
  rewrite apply_all_app, dns_run. cbv beta iota. rewrite flags_run by done.
  unfold globals_of, local_of, enhancer_of. destruct (lc_DNS l); reflexivity.
Qed.

(** ** The client a configuration makes *)
Section Client.
Context (md5 : list Z → list Z) {Msg C1 C2 : Type}.
Context (DefaultRouteInterface : option gostring) (localDns : list gostring).
Abbreviation NewShadowsocksClient := (NewShadowsocksClient (Msg := Msg) (C1 := C1) (C2 := C2) md5 DefaultRouteInterface localDns).
Abbreviation bind_server := (bind_server md5).

(** The listeners, straight from the configuration. *)
Definition front_ends (l : LocalConfig) : list frontend :=
  ((λ a, let '(x, y, _) := cut_byte 61 a in TcpTunServer x y) <$> TCPTunAddr l) ++
  (if decide (MixedAddr l = []) then
     (if decide (HTTPAddr l = []) then [] else [HttpProxyServer (HTTPAddr l) (auth_of (HTTPAuth l)) (mitm_of l)]) ++
     (if decide (SocksAddr l = []) then [] else [SocksProxyServer (SocksAddr l) (auth_of (SocksAuth l)) (mitm_of l)])
   else [MixedServer (MixedAddr l) (auth_of (HTTPAuth l)) (auth_of (SocksAuth l)) (mitm_of l)]).

(** The registrations of a proxy node at the selector. *)
Definition registrations (sv : serverOptions * V) : list (bool * gostring * V) :=
  (true, so_name sv.1, sv.2) :: (if so_udp sv.1 then [(false, so_name sv.1, sv.2)] else []).
Definition node_of (s : serverOptions) (v : V) : Prop :=
  ∃ b, bind_server s = Ret b ∧ v = MkV (so_addr s) (so_transport s) b b (so_opts s).

Lemma init_servers_ok l : ∀ s s', init_servers md5 l s = (s', Ret tt) →
  ∃ vs, Forall2 node_of l vs ∧ s' = foldl selector.register s (concat (registrations <$> zip l vs)).
Proof.
  induction l as [|o l IH]; intros s s' H; cbn [init_servers] in H; [injection H as <-; by exists []|].
  unfold initServerOption in H. destruct (Config.bind_server md5 o) as [b|e|] eqn:Eb; [|done..]. cbn [mbind res_bind] in H.
  apply IH in H as (vs & HF & ->). exists (MkV (so_addr o) (so_transport o) b b (so_opts o) :: vs).
  split; [constructor; [by exists b|done]|]. cbn [zip zip_with fmap list_fmap concat]. rewrite foldl_app. f_equal.
  unfold registrations. cbn [fst snd]. by destruct (so_udp o).
Qed.

Lemma tun_servers_ok l fs : tun_servers (splitTunAddrInfo <$> l) = Ret fs →
  Forall (λ a, 61 ∈ a) l ∧ fs = (λ a, let '(x, y, _) := cut_byte 61 a in TcpTunServer x y) <$> l.
Proof.
  revert fs. induction l as [|a l IH]; intros fs H; cbn [fmap list_fmap tun_servers] in H; [injection H as <-; by split|].
  destruct (cut_byte 61 a) as [[x y] found] eqn:E.
  assert (splitTunAddrInfo a = if found then [x; y] else []) as Hs by (unfold splitTunAddrInfo; by rewrite E).
  rewrite Hs in H. destruct found; [|done]. cbn [index lookup list_lookup mbind res_bind] in H.
  destruct (tun_servers (splitTunAddrInfo <$> l)) as [r|e|] eqn:Er; [|done..]. injection H as <-.
  destruct (IH r eq_refl) as [Hf ->]. split; [|cbn; by rewrite E]. constructor; [|done].
  destruct (decide (61 ∈ a)) as [Hin|Hn]; [done|]. exfalso. unfold cut_byte in E.
  by rewrite (proj2 (index_byte_None 61 a) Hn) in E.
Qed.

Lemma listeners_of l : listeners (local_of l) = drop (length (TCPTunAddr l)) (front_ends l).
Proof.
  unfold front_ends. rewrite drop_app_length' by (by rewrite length_fmap).
  unfold listeners, local_of. cbn. destruct (decide (MixedAddr l = [])) as [->|Hm].
  - cbn. destruct (decide (HTTPAddr l = [])) as [->|Hh], (decide (SocksAddr l = [])) as [->|Hs]; cbn;
      rewrite ?(bool_decide_false (HTTPAddr l = [])), ?(bool_decide_false (SocksAddr l = [])) by done; done.
  - rewrite !bool_decide_false by done. done.
Qed.

Definition default_named (ru : Ruler) (ss : list serverOptions) : Ruler * list serverOptions :=
  match ss with
  | [s] => if decide (so_name s = [] ∧ GlobalTo ru = []) then (set_GlobalTo DefaultName ru, [set_so_name DefaultName s]) else (ru, ss)
  | _ => (ru, ss)
  end.
Lemma name_default_run g ru ss lo : g_MatchRuler g = Some ru →
  name_default (g, MkSs ss lo) =
  Ret (set_g_MatchRuler (Some (default_named ru ss).1) g, MkSs (default_named ru ss).2 lo).
Proof.
  intros Hg. assert (set_g_MatchRuler (Some ru) g = g) as Hs by (unfold set_g_MatchRuler; destruct g; simpl in *; by subst).
  unfold name_default, default_named. destruct ss as [|s [|s2 ss]]; cbn [serverOpts fst snd]; rewrite ?Hs; [done| |done].
  destruct (decide (so_name s = [])) as [Hn|Hn].
  - rewrite bool_decide_true, Hg by done. cbn [deref mbind res_bind]. destruct (decide (GlobalTo ru = [])) as [Hr|Hr].
    + by rewrite bool_decide_true, decide_True.
    + rewrite bool_decide_false, decide_False by tauto. cbn [fst snd]. by rewrite Hs.
  - rewrite bool_decide_false, decide_False by tauto. cbn [fst snd]. by rewrite Hs.
Qed.

Lemma globals_of_ruler cfg l ru g : g_MatchRuler (auto_detect DefaultRouteInterface (globals_of cfg l ru g)) = Some ru.
Proof.
  unfold auto_detect, globals_of. destruct (lc_DNS l) as [[? ? [] ?]|]; destruct DefaultRouteInterface; case_match; reflexivity.
Qed.

(** The options of a configuration and what they come to. *)
Lemma options_run cfg l g g' opts : Local cfg = Some l → BuildSSLocalOptions cfg g = (g', Ret opts) →
  ∃ ss ru, mapM server_of (enabled (Server cfg)) = Some ss ∧ ruler_or_exit cfg = Ret ru ∧
    ∀ g1, apply_all opts (g1, defaultSSLocalOpts) = ((globals_of cfg l ru g1, MkSs ss (local_of l)), Ret tt).
Proof.
  intros Hl H. unfold BuildSSLocalOptions, mbind, M_bind in H. pose proof (server_options_run cfg g) as Hs.
  destruct (mapM server_of (enabled (Server cfg))) as [ss|]; [|by rewrite Hs in H].
  destruct Hs as (so & Eo & Hrun). rewrite Eo in H. unfold mlift in H.
  destruct (BuildLocalOptions cfg) as [lo|e|] eqn:El; [|done..]. injection H as <- <-.
  assert (∃ ru, ruler_or_exit cfg = Ret ru) as [ru Hr].
  { unfold BuildLocalOptions in El. rewrite Hl in El. destruct (ruler_or_exit cfg) as [ru|e|]; [by exists ru|done..]. }
  exists ss, ru. split_and!; [done|done|]. intros g1. rewrite apply_all_app, Hrun. by apply local_run.
Qed.

Lemma client_config_made cfg l w opts g g' w' c :
  Local cfg = Some l → BuildSSLocalOptions cfg g = (g', Ret opts) → NewShadowsocksClient opts w = (w', Ret c) →
  cl_srvGroup c = front_ends l ∧ Forall (λ a, 61 ∈ a) (TCPTunAddr l) ∧
  cl_enhancer c = (if tun_on l then Some (NewEnhancer (tun_Inet4Address (tun_of l)) (ec_FakeDNS (enhancer_of l))
                                            (ec_DisableRewrite (enhancer_of l)) (ec_DnsHijack (enhancer_of l))) else None) ∧
  ∃ ss ru vs, mapM server_of (enabled (Server cfg)) = Some ss ∧ ruler_or_exit cfg = Ret ru ∧
    Forall2 node_of (default_named ru ss).2 vs ∧
    cw_selector w' = foldl selector.register (cw_selector w) (concat (registrations <$> zip (default_named ru ss).2 vs)) ∧
    g_MatchRuler (cw_globals w') = Some (default_named ru ss).1.
Proof.
  intros Hl Hb Hn. destruct (options_run cfg l _ _ _ Hl Hb) as (ss & ru & Hss & Hru & Hrun).
  unfold Config.NewShadowsocksClient in Hn. rewrite Hrun in Hn. destruct (NewDnsResolver _ _ _) as [rs|e|]; [|done..].
  rewrite (name_default_run _ ru) in Hn by apply globals_of_ruler. cbn [serverOpts localOpts] in Hn.
  destruct (init_servers md5 (default_named ru ss).2 (cw_selector w)) as [sel [[]|e|]] eqn:Ei; [|done..]. cbn [mbind res_bind] in Hn.
  destruct (tun_servers (lo_tcpTunAddr (local_of l))) as [tuns|e|] eqn:Et; [|done..]. injection Hn as <- <-.
  apply tun_servers_ok in Et as [Heq ->]. apply init_servers_ok in Ei as (vs & HF & ->).
  cbn [cl_srvGroup cl_enhancer cw_selector cw_globals]. split_and!; [|done| |by exists ss, ru, vs].
  - rewrite listeners_of. unfold front_ends. by rewrite drop_app_length' by (by rewrite length_fmap).
  - cbn. destruct (tun_on l); [|done]. unfold enhancer_of. by destruct (lc_DNS l).
Qed.

(** C29 (refinement): the client that a configuration makes, through the options and their order, is
    the one its sections describe. It listens exactly where the configuration says,
    each listener with its own credentials, the mixed port in place of the other two and
    the fixed tunnels first; every tunnel address has an ["="]. At the selector every
    enabled server is registered under its name, in order and in the protocols it
    supports, bound to the ciphers of its method; a single server without a name
    becomes the default one of global mode. The ruler is the configured one. *)
Theorem client_from_config cfg l w opts g' w' c :
  Local cfg = Some l → BuildSSLocalOptions cfg (cw_globals w) = (g', Ret opts) → NewShadowsocksClient opts w = (w', Ret c) →
  cl_srvGroup c = front_ends l ∧ Forall (λ a, 61 ∈ a) (TCPTunAddr l) ∧
  cl_enhancer c = (if tun_on l then Some (NewEnhancer (tun_Inet4Address (tun_of l)) (ec_FakeDNS (enhancer_of l))
                                            (ec_DisableRewrite (enhancer_of l)) (ec_DnsHijack (enhancer_of l))) else None) ∧
  ∃ ss ru vs, mapM server_of (enabled (Server cfg)) = Some ss ∧ ruler_or_exit cfg = Ret ru ∧
    Forall2 node_of (default_named ru ss).2 vs ∧
    cw_selector w' = foldl selector.register (cw_selector w) (concat (registrations <$> zip (default_named ru ss).2 vs)) ∧
    g_MatchRuler (cw_globals w') = Some (default_named ru ss).1.
Proof. apply client_config_made. Qed.
End Client.

Lemma GetCipher_cases md5 method password sc ac : GetCipher md5 method password = Ret (sc, ac) →
  (method = str "none" ∧ sc = None ∧ ac = None) ∨
  (method ≠ str "none" ∧ is_Some (lookup_method method streamCipherMap) ∧ is_Some sc ∧ ac = None) ∨
  (method ≠ str "none" ∧ lookup_method method streamCipherMap = None ∧ sc = None ∧ is_Some ac).
Proof.
  unfold GetCipher. case_decide; [intros [= <- <-]; by left|]. destruct (lookup_method method streamCipherMap) eqn:E.
  - destruct (NewStreamCipher md5 method password); [|done..]. intros [= <- <-]. right. left. eauto.
  - destruct (lookup_method method aeadCipherMap); [|done]. destruct (NewAEADCipher md5 method password); [|done..].
    intros [= <- <-]. right. right. eauto.
Qed.

(** No cipher at all means the method none. *)
Lemma GetCipher_none md5 method password sc ac : GetCipher md5 method password = Ret (sc, ac) → sc = None → ac = None → method = str "none".
Proof. intros [(? & _)|[(_ & _ & [x ->] & _)|(_ & _ & _ & [x ->])]]%GetCipher_cases; done. Qed.
Lemma protocol_of_name name ob k b : GetProtocol name ob = Ret (k, b) →
  protocol_encrypts k = bool_decide (name = str "auth_chain_a" ∨ name = str "auth_chain_b").
Proof.
  unfold GetProtocol. destruct (list_find _ protocolMap) as [[i [n [o k']]]|] eqn:E; [|done]. intros [= <- _].
  apply list_find_Some in E as (Hi & <- & _). do 6 (destruct i as [|i]; [by injection Hi as <- <- <-|]). done.
Qed.

(** The server sections with a cipher, and those with a protocol that encrypts. *)
Definition with_cipher (opt : serverOptions) : bool :=
  bool_decide (so_method opt ≠ str "none") &&
  (negb (so_ssr opt) || bool_decide (is_Some (lookup_method (so_method opt) streamCipherMap))).
Definition with_chain (opt : serverOptions) : bool :=
  bool_decide (ssr_Protocol (so_ssrOpt opt) = str "auth_chain_a" ∨ ssr_Protocol (so_ssrOpt opt) = str "auth_chain_b").

(** C33 (safety): what encrypts the payload of a proxied connection. A Shadowsocks server
    with a method other than none is always bound to a cipher. A ShadowsocksR server is
    only if its method is one of the stream ciphers; with an AEAD method it is bound to
    none, without an error, as with the method none. The payload of such a server is
    encrypted exactly if its protocol is auth_chain_a or auth_chain_b, which encrypt it
    themselves; with any other protocol it is sent in the clear. *)
Theorem bind_encrypts md5 opt b :
  bind_server md5 opt = Ret b →
  match b with
  | BoundSS sc ac => so_ssr opt = false ∧ bool_decide (is_Some sc) || bool_decide (is_Some ac) = with_cipher opt
  | BoundSSR sc _ _ => so_ssr opt = true ∧ bool_decide (is_Some sc) = with_cipher opt
  end ∧ encrypts b = with_cipher opt || (so_ssr opt && with_chain opt).
Proof.
  unfold bind_server. destruct (GetCipher md5 (so_method opt) (so_password opt)) as [[sc ac]|e|] eqn:E; [|done..].
  intros H. apply GetCipher_cases in E.
  assert (b = BoundSS sc ac ∧ so_ssr opt = false ∨ (∃ o k p, b = BoundSSR sc o (k, p) ∧ protocol_encrypts k = with_chain opt) ∧ so_ssr opt = true) as Hb.
  { destruct (so_ssr opt); [|injection H as <-; by left]. right. split; [|done].
    unfold NewSSRClientStreamCipher in H. destruct (match SplitHostPort _ with inl hp => hp | inr _ => ([], []) end) as [hst p].
    destruct (GetObfs _) as [[ok ov]|e|]; [|done..]. cbn [mbind res_bind] in H.
    destruct (GetProtocol _ _) as [[k pb]|e|] eqn:Ep; [|done..]. injection H as <-. apply protocol_of_name in Ep. eauto 6. }
  clear H. unfold with_cipher. destruct E as [(-> & -> & ->)|[(Hm & Hs & [x ->] & ->)|(Hm & Hs & -> & [x ->])]];
    destruct Hb as [[-> ->]|[(o & k & p & -> & Hk) ->]]; cbn [encrypts negb orb andb]; rewrite ?Hk.
  all: rewrite ?Hs, ?(bool_decide_true (_ ≠ _)) by done; by rewrite ?(bool_decide_true (is_Some _)) by done.
Qed.

(** *** The addresses whose DNS is hijacked *)
Lemma SplitHostPort_last s h p : SplitHostPort s = inl (h, p) → ∃ i, last_index_byte 58 s = Some i ∧ p = drop (S i) s.
Proof.
  unfold SplitHostPort. destruct (last_index_byte 58 s) as [i|]; [|done]. intros H. exists i. split; [done|].
  repeat (case_match; try done); by simplify_eq.
Qed.
Lemma JoinHostPort_last h p : 58 ∉ p → ∃ i, last_index_byte 58 (JoinHostPort h p) = Some i ∧ drop (S i) (JoinHostPort h p) = p.
Proof.
  intros Hp. assert (∀ x, last_index_byte 58 (x ++ 58 :: p) = Some (length x) ∧ drop (S (length x)) (x ++ 58 :: p) = p) as Hx.
  { intros x. split; [by apply last_index_byte_app|]. rewrite (cons_middle 58 x), app_assoc.
    by rewrite drop_app_length' by (rewrite length_app; simpl; lia). }
  unfold JoinHostPort. destruct (contains_byte 58 h).
  - exists (length (str "[" ++ h ++ str "]")). replace (str "[" ++ h ++ str "]:" ++ p) with ((str "[" ++ h ++ str "]") ++ 58 :: p); [apply Hx|].
    by rewrite <-!app_assoc.
  - exists (length h). apply (Hx h).
Qed.
Lemma ParseAddrPort_53 s i a : last_index_byte 58 s = Some i → drop (S i) s = str "53" → ParseAddrPort s = Some a → a.2 = 53.
Proof.
  intros Hi Hd. unfold ParseAddrPort. rewrite Hi. cbn [mbind option_bind]. rewrite Hd.
  destruct (take i s) as [|x r]; [done|]. change (parse_uint 16 (str "53")) with (53, true).
  cbn [str]. intros H. destruct ((x =? 91) && _); [done|]. cbn [negb] in H.
  destruct (ParseAddr _) as [[|b|b z]|]; cbn in H; [done|..|done]; case_match; by simplify_eq.
Qed.

(** Whatever is configured, every address whose DNS is hijacked has port 53: an entry
    without a port is taken with this one, and any other entry is skipped. *)
Theorem hijack_only_53 addr a : hijack_addr addr = Some a → a.2 = 53.
Proof.
  unfold hijack_addr. set (addr1 := if contains addr (str "any") then _ else _).
  destruct (match SplitHostPort addr1 with inl hp => hp | inr _ => ([], []) end) as [h p] eqn:E.
  destruct (bool_decide (h = []) || bool_decide (p = [])) eqn:Em.
  - rewrite bool_decide_true by done. cbn [negb]. intros H.
    destruct (JoinHostPort_last addr1 (str "53")) as (i & Hi & Hd); [by apply contains_byte_false|]. by eapply ParseAddrPort_53.
  - apply orb_false_iff in Em as [Hh Hp]. case_bool_decide; [done|]. case_bool_decide; [done|].
    destruct (SplitHostPort addr1) as [[h' p']|] eqn:Es; [|by simplify_eq]. simplify_eq.
    case_bool_decide; [|done]. cbn [negb]. subst. intros Hx. apply SplitHostPort_last in Es as (i & Hi & Hd).
    by eapply ParseAddrPort_53.
Qed.

(** ** The server a configuration makes *)
Section Servers.
Context (md5 : list Z → list Z) {Msg C1 C2 : Type}.
Context (DefaultRouteInterface : option gostring) (localDns : list gostring).

Definition usable (o : serverOptions) : option (serverHandler * (Type_ * gostring * option Options)) :=
  match GetCipher md5 (so_method o) (so_password o) with
  | Ret (sc, ac) => Some (MkHandler (BoundSS sc ac) (if so_udp o then Some (so_addr o, BoundSS sc ac) else None),
                          (so_transport o, so_addr o, match so_transport o with Tcp => None | _ => so_opts o end))
  | _ => None
  end.
Lemma init_handlers_run l : ∀ s s', init_handlers md5 l s = Ret s' →
  sv_handlerList s' = sv_handlerList s ++ (omap usable l).*1 ∧ sv_srvGroup s' = sv_srvGroup s ++ (omap usable l).*2.
Proof.
  induction l as [|o l IH]; intros s s' H; cbn [init_handlers omap list_omap] in *; [injection H as <-; by rewrite !app_nil_r|].
  unfold initServerHandler in H. destruct (usable o) as [[h r]|] eqn:Eu; unfold usable in Eu;
    destruct (GetCipher md5 (so_method o) (so_password o)) as [[sc ac]|e|]; try discriminate Eu; try discriminate H; [|by apply IH].
  injection Eu as <- <-. cbn [mbind res_bind] in H. apply IH in H as [-> ->]. cbn. by rewrite <-!app_assoc.
Qed.

(** The server started from a configuration has one listener and one handler per enabled
    server whose method is known, in the order of the configuration, each handler
    bound to the ciphers of its own method and relaying UDP exactly if the
    configuration says so; it exists only if some server is enabled. *)
Theorem server_from_config cfg g g1 opts g' s :
  BuildServerOptions cfg g = (g1, Ret opts) →
  NewShadowsocksServer (Msg := Msg) (C1 := C1) (C2 := C2) md5 DefaultRouteInterface localDns opts g1 = (g', Ret s) →
  ∃ ss, mapM server_of (enabled (Server cfg)) = Some ss ∧ ss ≠ [] ∧
    sv_handlerList s = (omap usable ss).*1 ∧ sv_srvGroup s = (omap usable ss).*2.
Proof.
  intros Hb Hn. pose proof (server_options_run cfg g) as Hs.
  destruct (mapM server_of (enabled (Server cfg))) as [ss|]; [|by rewrite Hs in Hb].
  destruct Hs as (o & Eo & Hrun). rewrite Eo in Hb. injection Hb as <- <-.
  unfold NewShadowsocksServer in Hn. rewrite Hrun in Hn. cbn [serverOpts set_serverOpts app] in Hn.
  exists ss. destruct ss as [|x ss]; [done|]. destruct (NewDnsResolver _ _ _); [|done..].
  destruct (init_handlers md5 (x :: ss) (MkSServer [] [])) as [s1|e|] eqn:Ei; [|done..]. injection Hn as <- <-.
  apply init_handlers_run in Ei as [-> ->]. done.
Qed.
End Servers.

(** A start that fails leaves nothing behind that it has set up, except when the enhancer
    itself failed. *)
Lemma client_start_undone ehStart grpStart c acts e :
  client_Start ehStart grpStart c = (acts, Some e) → lo_enableTun (localOpts (cl_Opts c)) = false ∨ ehStart = None →
  ∃ p, acts = p ++ [SystemProxyUnset] ++ (if lo_enableTun (localOpts (cl_Opts c)) then [EnhancerClosed] else []).
Proof.
  unfold client_Start. destruct (cl_srvGroup c); [done|].
  set (sp := if lo_systemProxy (localOpts (cl_Opts c)) then _ else _). clearbody sp.
  destruct (lo_enableTun (localOpts (cl_Opts c))); [destruct ehStart as [e0|]; [by intros _ [|]|]|];
    (destruct grpStart as [e1|]; [|done]); intros H _; apply (f_equal fst) in H; cbn [fst] in H; rewrite <-H.
  - exists ([EnhancerStarted] ++ sp ++ [GroupStarted]). by rewrite <-!app_assoc.
  - exists (sp ++ [GroupStarted]). by rewrite <-!app_assoc.
Qed.

(** *** Witnesses *)
Module CfgDemo.
Definition no_tls : TlsOption := CfgTls (str "tls") (str "h") [] [] (str "ca.pem").
Definition ws : ServerConfig :=
  CfgServer false [] (str "p1") (str "1.2.3.4:443") (str "pw") (str "aes-128-gcm") (str "ws") true
    (Some (CfgWs (str "/x") (str "h") true no_tls)) None None None None None.
Definition ssr (method : gostring) : ServerConfig :=
  CfgServer false (str "ssr") (str "p2") (str "1.2.3.4:444") (str "pw") method (str "default") false
    None None None None None (Some (CfgSsr (str "origin") [] (str "plain") [])).
Definition rules : cfgRules := CfgRules (str "global") [] (str "p1") None.
Definition local (tuns : list gostring) (mixed : gostring) (tun : bool) : LocalConfig :=
  CfgLocal (str ":1080") (str ":8080") [] (str "user:pass") mixed tuns true false None
    (Some (CfgTun tun (str "utun9") (str "198.18.0.1/16") 1500 true [str "any:53"]))
    (Some (CfgDns (str ":53") [] [str "8.8.4.4"] false)).
Definition cfg (tuns : list gostring) (mixed : gostring) : Config_ :=
  MkConfig [ws; ssr (str "aes-128-gcm")] (Some (local tuns mixed true)) [] false (Some rules).
Definition md5 : list Z → list Z := λ _, replicate 16 7.
Definition globals0 : globals := MkGlobals [] false [str "114.114.114.114"; str "8.8.8.8"] [] None.
Definition opts (c : Config_) : list SSOption := match BuildSSLocalOptions c globals0 with (_, Ret o) => o | _ => [] end.
Definition run (c : Config_) := NewShadowsocksClient (Msg := unit) (C1 := unit) (C2 := unit) md5 None [] (opts c)
  (ClientWorld globals0 selector.NewSelector None).
Definition client (c : Config_) : ShadowsocksClient := match (run c).2 with Ret x => x | _ => MkClient [] None defaultSSLocalOpts end.
Definition sopts : list SSOption := match BuildServerOptions (cfg [] []) globals0 with (_, Ret o) => o | _ => [] end.
Definition server : ShadowsocksServer :=
  match (NewShadowsocksServer (Msg := unit) (C1 := unit) (C2 := unit) md5 None [] sopts globals0).2 with Ret x => x | _ => MkSServer [] [] end.
Definition ssr_server : serverOptions := default zero_server (server_of (ssr (str "aes-128-gcm"))).
Definition ssr_bound : bound := match bind_server md5 ssr_server with Ret b => b | _ => BoundSS None None end.
End CfgDemo.

(** A tunnel address without ["="] makes the client panic while it starts. *)
Lemma tun_addr_panics : (CfgDemo.run (CfgDemo.cfg [str ":1234"] (str ":1081"))).2 = Panic.
Proof. vm_compute. reflexivity. Qed.
(** With neither listeners nor tunnels, starting the client does nothing, TUN mode or not. *)
Lemma tun_alone_not_started :
  let c := MkConfig [CfgDemo.ws] (Some (CfgLocal [] [] [] [] [] [] false false None (lc_Tun (CfgDemo.local [] [] true))
                                          (lc_DNS (CfgDemo.local [] [] true)))) [] false (Some CfgDemo.rules) in
  (∃ x, (CfgDemo.run c).2 = Ret x) ∧ is_Some (cl_enhancer (CfgDemo.client c)) ∧
  client_Start None None (CfgDemo.client c) = ([], None).
Proof. cbv zeta. split_and!; [eexists; vm_compute; reflexivity|eexists; vm_compute; reflexivity|vm_compute; reflexivity]. Qed.

Lemma client_from_config_witness :
  cl_srvGroup (CfgDemo.client (CfgDemo.cfg [str ":1=a:2"] (str ":1081"))) =
    [TcpTunServer (str ":1") (str "a:2");
     MixedServer (str ":1081") (Some (MkAuth (str "user") (Some (str "pass")))) None (MkMitm false [] [] [] 0 0 0)].
Proof.
  pose (c := CfgDemo.cfg [str ":1=a:2"] (str ":1081")).
  exact (proj1 (client_from_config CfgDemo.md5 (Msg := unit) (C1 := unit) (C2 := unit) None [] c (CfgDemo.local [str ":1=a:2"] (str ":1081") true)
    (ClientWorld CfgDemo.globals0 selector.NewSelector None) (CfgDemo.opts c) CfgDemo.globals0 (CfgDemo.run c).1 (CfgDemo.client c)
    eq_refl ltac:(vm_compute; reflexivity) ltac:(vm_compute; reflexivity))).
Defined.

Lemma bind_encrypts_witness : bind_server CfgDemo.md5 CfgDemo.ssr_server = Ret CfgDemo.ssr_bound ∧ encrypts CfgDemo.ssr_bound = false.
Proof.
  assert (bind_server CfgDemo.md5 CfgDemo.ssr_server = Ret CfgDemo.ssr_bound) as H by (vm_compute; reflexivity).
  split; [exact H|]. rewrite (proj2 (bind_encrypts CfgDemo.md5 CfgDemo.ssr_server CfgDemo.ssr_bound H)). vm_compute. reflexivity.
Defined.

Lemma hijack_only_53_witness : (Addr4 [0; 0; 0; 0], 53).2 = 53.
Proof. exact (hijack_only_53 (str "any") (Addr4 [0; 0; 0; 0], 53) ltac:(vm_compute; reflexivity)). Defined.

Lemma server_from_config_witness :
  sv_srvGroup CfgDemo.server = [(Websocket, str "1.2.3.4:443", snd <$> Some (tt, WsOpts (MkWs (tls_of CfgDemo.no_tls) (str "h") (str "/x") 4096 4096 true
                                 (ws_UserAgent DefaultWsOptions)))); (Tcp, str "1.2.3.4:444", None)].
Proof.
  destruct (server_from_config (Msg := unit) (C1 := unit) (C2 := unit) CfgDemo.md5 None [] (CfgDemo.cfg [] []) CfgDemo.globals0 CfgDemo.globals0
    CfgDemo.sopts CfgDemo.globals0 CfgDemo.server ltac:(vm_compute; reflexivity) ltac:(vm_compute; reflexivity)) as (ss & Hss & _ & _ & ->). injection Hss as <-. vm_compute. reflexivity.
Defined.
