(* ===== verification/Servers.v ===== *)
(** * Package server: listeners, their group, and the connections they accept.

    Models [src/server/tcp_server.go], [src/server/server_group.go],
    [closeWithContextDoneErr] of [src/server/server.go] and
    [src/server/server_conn.go]. The servers of a group run concurrently, each with
    the goroutine that closes it when the group's context ends and with any callers of its
    [Close]: a step relation whose steps are the atomic operations on
    [running] and on the listening socket. The error group belongs to another package; what is
    used of it is that the first error cancels the context with that error as its
    cause, and that [Wait] returns it when all have returned. The group here is one of
    [TcpServer]s: all the listeners of the client ([tcptun.go], [mixed.go], [http.go],
    [socks.go]) and the servers of the default and the obfs transports are; the other
    transports' servers are in Transports.v and SshServer.v, with what they do
    differently when they fail. *)
From S2P Require Import Prelude GoIO.
Local Open Scope nat_scope.

Definition ErrServerClosed := errNew "server: Server closed".
Definition ErrServerStarted := errNew "server: Server started".
Definition errClosed := errNew "connection closed".

(** ** One server *)

(** Where [Start] is: before [running.Load], the socket made but [running] not set, in
    [Accept], with an error of [Accept] in hand, or returned. *)
Inductive spc := PIdle | PListening | PAccept | PGotErr | PDone (r : option error).
Inductive lstate := LNone | LOpen | LClosed.
(** [closeWithContextDoneErr]: not started, waiting for the context, past it. *)
Inductive wpc := WNone | WWait | WEnd.
(** A call of [Close]: before the load of [running], before the store, before closing
    the socket. *)
Inductive cpc := CLoad | CStore | CClose.
Record TcpServer := Srv { s_pc : spc; s_running : bool; s_ln : lstate; s_watch : wpc; s_closers : list cpc }.
Definition NewTcpServer : TcpServer := Srv PIdle false LNone WNone [].

(** The context of the group: ended by an error, or by [Wait] at the end. *)
Inductive cause := Canceled | Cause (e : error).

(** The steps of a server by itself. [None]: [Start] goes on; [Some r]: it returns [r]. *)
Inductive sstep (ctx : option cause) : TcpServer → option (option error) → TcpServer → Prop :=
| s_started ln w cs : sstep ctx (Srv PIdle true ln w cs) (Some (Some ErrServerStarted)) (Srv (PDone (Some ErrServerStarted)) true ln w cs)
| s_listen_failed ln w cs e : sstep ctx (Srv PIdle false ln w cs) (Some (Some e)) (Srv (PDone (Some e)) false ln w cs)
| s_listen ln w cs : sstep ctx (Srv PIdle false ln w cs) None (Srv PListening false LOpen w cs)
| s_run r ln w cs : sstep ctx (Srv PListening r ln w cs) None (Srv PAccept true ln WWait cs)
| s_accept_closed r w cs : sstep ctx (Srv PAccept r LClosed w cs) None (Srv PGotErr r LClosed w cs)
| s_stop ln w cs : sstep ctx (Srv PGotErr false ln w cs) (Some None) (Srv (PDone None) false ln w cs)
| s_continue ln w cs : sstep ctx (Srv PGotErr true ln w cs) None (Srv PAccept true ln w cs)
| s_watch_ended p r ln cs : ctx = Some Canceled → sstep ctx (Srv p r ln WWait cs) None (Srv p r ln WEnd cs)
| s_watch_close p r ln cs e : ctx = Some (Cause e) → sstep ctx (Srv p r ln WWait cs) None (Srv p r ln WEnd (CLoad :: cs))
| s_close_not_running p ln w c1 c2 : sstep ctx (Srv p false ln w (c1 ++ CLoad :: c2)) None (Srv p false ln w (c1 ++ c2))
| s_close_running p ln w c1 c2 : sstep ctx (Srv p true ln w (c1 ++ CLoad :: c2)) None (Srv p true ln w (c1 ++ CStore :: c2))
| s_close_store p r ln w c1 c2 : sstep ctx (Srv p r ln w (c1 ++ CStore :: c2)) None (Srv p false ln w (c1 ++ CClose :: c2))
| s_close_ln p r ln w c1 c2 : ln ≠ LNone → sstep ctx (Srv p r ln w (c1 ++ CClose :: c2)) None (Srv p r LClosed w (c1 ++ c2)).

(** What comes from outside: a connection, an error of [Accept] though the socket is
    open, a call of [Close]. *)
Inductive estep : TcpServer → TcpServer → Prop :=
| e_conn r w cs : estep (Srv PAccept r LOpen w cs) (Srv PAccept r LOpen w cs)
| e_accept_err r w cs : estep (Srv PAccept r LOpen w cs) (Srv PGotErr r LOpen w cs)
| e_close p r ln w cs : estep (Srv p r ln w cs) (Srv p r ln w (CLoad :: cs)).

(** ** The group *)
Record ServerGroup := Grp { serverList : list TcpServer; g_err : option error; g_ctx : option cause; g_ret : option (option error) }.
(** [Start] of a group of [n] [TcpServer]s. *)
Definition group_start (n : nat) : ServerGroup := Grp (replicate n NewTcpServer) None None None.

(** A goroutine of the error group returns. *)
Definition returned (r : option error) (err : option error) (ctx : option cause) : option error * option cause :=
  match r, err with
  | Some e, None => (Some e, match ctx with None => Some (Cause e) | _ => ctx end)
  | _, _ => (err, ctx)
  end.

Inductive gstep : ServerGroup → ServerGroup → Prop :=
| g_server l i s s' err ctx ret :
    l !! i = Some s → sstep ctx s None s' → gstep (Grp l err ctx ret) (Grp (<[i := s']> l) err ctx ret)
| g_return l i s s' r err ctx ret err' ctx' :
    l !! i = Some s → sstep ctx s (Some r) s' → returned r err ctx = (err', ctx') →
    gstep (Grp l err ctx ret) (Grp (<[i := s']> l) err' ctx' ret)
| g_wait l err ctx :
    Forall (λ s, ∃ r, s_pc s = PDone r) l →
    gstep (Grp l err ctx None) (Grp l err (match ctx with None => Some Canceled | _ => ctx end) (Some err)).
Inductive genv : ServerGroup → ServerGroup → Prop :=
| g_env l i s s' err ctx ret : l !! i = Some s → estep s s' → genv (Grp l err ctx ret) (Grp (<[i := s']> l) err ctx ret).
Definition gany (a b : ServerGroup) : Prop := gstep a b ∨ genv a b.

(** ** Connections: [onceCloseConn] and [serve] *)
Record Conn := MkConn { closed : bool; under_closes : nat }.
Definition newConn : Conn := MkConn false 0.
Definition conn_Close (c : Conn) : Conn * option error :=
  if closed c then (c, Some errClosed) else (MkConn true (S (under_closes c)), None).
(** Concurrent calls of [Close]: before the load, and with what it loaded. *)
Inductive closer := KLoad | KLoaded (v : bool).
Inductive kstep : Conn * list closer → Conn * list closer → Prop :=
| k_load c k1 k2 : kstep (c, k1 ++ KLoad :: k2) (c, k1 ++ KLoaded (closed c) :: k2)
| k_closed c k1 k2 : kstep (c, k1 ++ KLoaded true :: k2) (c, k1 ++ k2)
| k_close c k1 k2 : kstep (c, k1 ++ KLoaded false :: k2) (MkConn true (S (under_closes c)), k1 ++ k2).
(** How a handler ends: by returning, or by a panic with a value that is an error or
    not. *)
Inductive ending := Returns | PanicsError | PanicsOther.
(** [serve], with the calls of [Close] the handler makes; the flag tells whether the
    process survives: the recovery asserts that the value is an error. *)
Definition serve (handler_closes : nat) (e : ending) : Conn * bool :=
  let c := Nat.iter handler_closes (λ c, fst (conn_Close c)) newConn in
  (fst (conn_Close c), match e with PanicsOther => false | _ => true end).

(** ** Invariants

    Before [Accept]: not running, and callers of [Close] find that. From then on: running with the
    socket open, or stopped with the socket closed or about to be; and where the
    context ended with an error, the socket is closed or somebody is about to. *)
Definition early (r : bool) (w : wpc) (cs : list cpc) : Prop := r = false ∧ w = WNone ∧ Forall (λ c, c = CLoad) cs.
Definition live (ctx : option cause) (r : bool) (ln : lstate) (w : wpc) (cs : list cpc) : Prop :=
  w ≠ WNone ∧ ((r = true ∧ ln = LOpen ∧ CClose ∉ cs) ∨ (r = false ∧ (ln = LOpen ∧ CClose ∈ cs ∨ ln = LClosed))) ∧
  (w = WEnd → ctx = Some Canceled ∨ ln = LClosed ∨ cs ≠ []).
Definition SInv (ctx : option cause) (s : TcpServer) : Prop :=
  let '(Srv p r ln w cs) := s in
  match p with
  | PIdle | PDone (Some _) => ln = LNone ∧ early r w cs
  | PListening => ln = LOpen ∧ early r w cs
  | PAccept | PGotErr | PDone None => live ctx r ln w cs
  end.

Lemma new_inv ctx : SInv ctx NewTcpServer.
Proof. by repeat split. Qed.

Lemma elem_mid {A} (x y : A) c1 c2 : x ∈ c1 ++ y :: c2 ↔ x = y ∨ x ∈ c1 ++ c2.
Proof. rewrite !elem_of_app, elem_of_cons. tauto. Qed.
Lemma early_mid r w c1 x c2 : early r w (c1 ++ x :: c2) → x = CLoad ∧ early r w (c1 ++ c2).
Proof. intros (? & ? & (H1 & [-> H2]%Forall_cons)%Forall_app). split; [done|]. split_and!; [done|done|]. by apply Forall_app. Qed.
Lemma cases_inv ctx p r ln w cs : SInv ctx (Srv p r ln w cs) →
  (∀ r' w' cs', early r' w' cs' → SInv ctx (Srv p r' ln w' cs')) ∧ early r w cs ∨
  (∀ r' ln' w' cs', live ctx r' ln' w' cs' → SInv ctx (Srv p r' ln' w' cs')) ∧ live ctx r ln w cs.
Proof. destruct p as [| | | |[e|]]; simpl; intuition. Qed.

Lemma live_not_running ctx ln w c1 c2 : live ctx false ln w (c1 ++ CLoad :: c2) → live ctx false ln w (c1 ++ c2).
Proof.
  intros (Hw & [(? & _)|(_ & Hl)] & He); [done|]. split_and!; [done| |].
  - right. split; [done|]. destruct Hl as [[-> Hin]| ->]; [left; split; [done|]|by right]. apply elem_mid in Hin as [|]; done.
  - intros _. destruct Hl as [[-> Hin]| ->]; [|by right; left]. right. right. apply elem_mid in Hin as [|Hin]; [done|].
    intros Hn. rewrite Hn in Hin. by apply elem_of_nil in Hin.
Qed.
Lemma live_running ctx ln w c1 c2 : live ctx true ln w (c1 ++ CLoad :: c2) → live ctx true ln w (c1 ++ CStore :: c2).
Proof.
  intros (Hw & [(_ & -> & Hn)|(? & _)] & He); [|done]. split_and!; [done| |intros _; right; right; by destruct c1].
  left. rewrite elem_mid in *. naive_solver.
Qed.
Lemma live_store ctx r ln w c1 c2 : live ctx r ln w (c1 ++ CStore :: c2) → live ctx false ln w (c1 ++ CClose :: c2).
Proof.
  intros (Hw & Hl & He). split_and!; [done| |intros _; right; right; by destruct c1].
  right. split; [done|]. destruct Hl as [(_ & -> & _)|(_ & [[-> _]| ->])]; [left|left|by right]; (split; [done|]); rewrite elem_mid; by left.
Qed.
Lemma live_close ctx r ln w c1 c2 : live ctx r ln w (c1 ++ CClose :: c2) → live ctx r LClosed w (c1 ++ c2).
Proof.
  intros (Hw & Hl & He). split_and!; [done| |intros _; by right; left].
  right. split; [|by right]. destruct Hl as [(_ & _ & Hn)|(? & _)]; [|done]. exfalso. apply Hn. rewrite elem_mid. by left.
Qed.

Lemma sstep_inv ctx s o s' : SInv ctx s → sstep ctx s o s' → SInv ctx s'.
Proof.
  intros HI Hs. destruct Hs as [ln w cs|ln w cs e|ln w cs|r ln w cs|r w cs|ln w cs|ln w cs|p r ln cs Hc|p r ln cs e Hc|p ln w c1 c2|p ln w c1 c2|p r ln w c1 c2|p r ln w c1 c2 Hn].
  - by destruct HI as (_ & ? & _).
  - by destruct HI as (-> & ? & -> & ?).
  - by destruct HI as (-> & ? & -> & ?).
  - destruct HI as (-> & -> & -> & HF). split_and!; [done| |done]. left. split_and!; [done|done|].
    intros Hin. rewrite Forall_forall in HF. by apply HF in Hin.
  - exact HI.
  - exact HI.
  - exact HI.
  - apply cases_inv in HI as [(_ & _ & ? & _)|(HP & Hw & Hl & _)]; [done|]. apply HP. split_and!; [done|done|by left].
  - apply cases_inv in HI as [(_ & _ & ? & _)|(HP & Hw & Hl & _)]; [done|]. apply HP. split_and!; [done| |intros _; by right; right].
    rewrite elem_of_cons. naive_solver.
  - apply cases_inv in HI as [(HP & He)|(HP & Hl)]; apply HP; [by apply early_mid in He as [_ ?]|by apply live_not_running].
  - apply cases_inv in HI as [(_ & ? & _)|(HP & Hl)]; [done|]. by apply HP, live_running.
  - apply cases_inv in HI as [(_ & He)|(HP & Hl)]; [by apply early_mid in He as [? _]|]. eapply HP, live_store, Hl.
  - apply cases_inv in HI as [(_ & He)|(HP & Hl)]; [by apply early_mid in He as [? _]|]. eapply HP, live_close, Hl.
Qed.
Lemma estep_inv ctx s s' : SInv ctx s → estep s s' → SInv ctx s'.
Proof.
  intros HI Hs. destruct Hs as [r w cs|r w cs|p r ln w cs]; [exact HI|exact HI|].
  apply cases_inv in HI as [(HP & ? & ? & HF)|(HP & Hw & Hl & He)]; apply HP.
  - split_and!; [done|done|by constructor].
  - split_and!; [done| |intros _; by right; right]. rewrite elem_of_cons. naive_solver.
Qed.
Lemma ctx_inv s ctx : SInv None s → SInv ctx s.
Proof.
  destruct s as [p r ln w cs]. intros HI. apply cases_inv in HI as Hc. destruct p as [| | | |[e|]]; try exact HI; destruct HI as (? & ? & He);
    (split_and!; [done|done|]); intros Hw; destruct (He Hw) as [|]; [done|by right|done|by right|done|by right].
Qed.

(** ** The group *)
Definition done_ (s : TcpServer) : Prop := ∃ r, s_pc s = PDone r.
Record GInv (g : ServerGroup) : Prop := {
  gi_servers : Forall (SInv (g_ctx g)) (serverList g);
  gi_ctx : match g_err g with Some e => g_ctx g = Some (Cause e) | None => g_ctx g = None ∨ g_ctx g = Some Canceled ∧ g_ret g = Some None end;
  gi_ret r : g_ret g = Some r → Forall done_ (serverList g) ∧ r = g_err g;
  gi_failed e : g_err g = None → Forall (λ s, s_pc s ≠ PDone (Some e)) (serverList g);
}.

Lemma sstep_pc ctx s o s' : sstep ctx s o s' →
  match o with
  | Some r => s_pc s' = PDone r ∧ ¬ done_ s
  | None => (done_ s → s_pc s' = s_pc s) ∧ (¬ done_ s → ¬ done_ s')
  end.
Proof. intros H. destruct H; unfold done_; simpl; split; (done || naive_solver). Qed.

Lemma group_start_inv n : GInv (group_start n).
Proof.
  split; simpl; [|by left|done|].
  - apply Forall_replicate, new_inv.
  - intros e _. by apply Forall_replicate.
Qed.

Lemma insert_done l i s s' : l !! i = Some s → (done_ s → s_pc s' = s_pc s) → Forall done_ l → Forall done_ (<[i := s']> l).
Proof.
  intros Hi Hd HF. apply Forall_insert; [done|]. destruct (Forall_lookup_1 _ _ _ _ HF Hi) as [r Hr]. exists r. rewrite Hd; [done|by exists r].
Qed.

Lemma gstep_inv g g' : GInv g → gstep g g' → GInv g'.
Proof.
  intros [Hs Hc Hr Hf] Hg. destruct Hg as [l i s s' err ctx ret Hi Hst|l i s s' r err ctx ret err' ctx' Hi Hst Hre|l err ctx HF]; simpl in *.
  - pose proof (Forall_lookup_1 _ _ _ _ Hs Hi) as HI. pose proof (sstep_pc _ _ _ _ Hst) as [Hd Hn]. split; simpl.
    + apply Forall_insert; [done|]. by eapply sstep_inv.
    + done.
    + intros r0 Hr0. destruct (Hr r0 Hr0) as [Hall ->]. split; [by eapply insert_done|done].
    + intros e He. pose proof (Hf e He) as HF. apply Forall_insert; [done|]. intros Hp.
      pose proof (Forall_lookup_1 _ _ _ _ HF Hi) as Hx. simpl in Hx.
      destruct (s_pc s) as [| | | |r0] eqn:Ep; try (apply Hn; [intros [? ?]; congruence|by eexists]).
      rewrite Hd in Hp by (by eexists). congruence.
  - pose proof (Forall_lookup_1 _ _ _ _ Hs Hi) as HI. pose proof (sstep_pc _ _ _ _ Hst) as [Hd Hn].
    assert (ret = None) as ->.
    { destruct ret as [r0|]; [|done]. destruct (Hr r0 eq_refl) as [Hall _]. destruct Hn. exact (Forall_lookup_1 _ _ _ _ Hall Hi). }
    assert (Forall (SInv ctx) (<[i := s']> l)) as Hs' by (apply Forall_insert; [done|by eapply sstep_inv]).
    unfold returned in Hre. destruct r as [e|], err as [e0|]; simplify_eq/=.
    + split; simpl; [done|done|done|done].
    + destruct Hc as [->|[_ ?]]; [|done]. split; simpl; [|done|done|done]. eapply Forall_impl; [exact Hs'|]. intros x. apply ctx_inv.
    + split; simpl; [done|done|done|done].
    + split; simpl; [done|done|done|]. intros e _. apply Forall_insert; [by apply Hf|]. congruence.
  - split; simpl.
    + destruct ctx; [done|]. eapply Forall_impl; [exact Hs|]. intros x. apply ctx_inv.
    + destruct err as [e|]; [by rewrite Hc|]. destruct Hc as [->|[-> ?]]; by right.
    + by intros r [= <-].
    + done.
Qed.
Lemma genv_inv g g' : GInv g → genv g g' → GInv g'.
Proof.
  intros [Hs Hc Hr Hf] Hg. destruct Hg as [l i s s' err ctx ret Hi Hst]; simpl in *.
  pose proof (Forall_lookup_1 _ _ _ _ Hs Hi) as HI.
  assert (s_pc s' = s_pc s ∨ ¬ done_ s ∧ ¬ done_ s') as Hd.
  { destruct Hst; simpl; [by left| |by left]. right. unfold done_. simpl. naive_solver. }
  split; simpl; [apply Forall_insert; [done|]; by eapply estep_inv|done| |].
  - intros r0 Hr0. destruct (Hr r0 Hr0) as [Hall ->]. split; [|done]. eapply insert_done; [done| |done]. intros Hx. by destruct Hd as [|[? ?]].
  - intros e He. apply Forall_insert; [by apply Hf|]. intros Hp. pose proof (Forall_lookup_1 _ _ _ _ (Hf e He) Hi) as Hx. simpl in Hx.
    destruct Hd as [Hd|[_ Hd]]; [congruence|]. apply Hd. by eexists.
Qed.
Lemma group_reachable n g : rtc gany (group_start n) g → GInv g.
Proof.
  intros H. assert (GInv (group_start n)) as H0 by apply group_start_inv. revert H0.
  induction H as [|x y z [Hs|Hs] _ IH]; intros; [done|..]; eauto using gstep_inv, genv_inv.
Qed.

(** *** Internal steps end *)
Definition pc_weight (p : spc) (ln : lstate) : nat :=
  match p, ln with
  | PIdle, _ => 40 | PListening, _ => 30
  | PAccept, LClosed => 2 | PAccept, _ => 4 | PGotErr, LClosed => 1 | PGotErr, _ => 5 | PDone _, _ => 0
  end.
Definition closers_weight (cs : list cpc) : nat := sum_list_with (λ c, match c with CLoad => 3 | CStore => 2 | CClose => 1 end) cs.
Definition weight (s : TcpServer) : nat :=
  pc_weight (s_pc s) (s_ln s) + (match s_watch s with WWait => 5 | _ => 0 end) + closers_weight (s_closers s).

Lemma closers_mid c1 c c2 : closers_weight (c1 ++ c :: c2) = closers_weight [c] + closers_weight (c1 ++ c2).
Proof. unfold closers_weight. rewrite !sum_list_with_app. simpl. lia. Qed.
Lemma sstep_weight ctx s o s' : SInv ctx s → sstep ctx s o s' → weight s' < weight s.
Proof.
  intros HI Hs. destruct Hs; unfold weight; cbn [s_pc s_ln s_watch s_closers]; rewrite ?closers_mid; cbn; try lia.
  - destruct ln; simpl; destruct w; lia.
  - destruct ln; simpl; lia.
  - destruct HI as (_ & [(_ & -> & _)|(? & _)] & _); [simpl; lia|done].
  - unfold closers_weight. simpl. lia.
  - destruct p, ln; simpl; (done || lia).
Qed.
Lemma sum_insert (l : list TcpServer) i s s' : l !! i = Some s → weight s' < weight s →
  sum_list_with weight (<[i := s']> l) < sum_list_with weight l.
Proof.
  revert i. induction l as [|x l IH]; intros [|i] Hi Hw; simplify_eq/=; [lia|]. apply (IH i) in Hi; [lia|done].
Qed.
Definition gweight (g : ServerGroup) : nat := sum_list_with weight (serverList g) + (match g_ret g with None => 1 | Some _ => 0 end).
Lemma gstep_weight g g' : GInv g → gstep g g' → gweight g' < gweight g.
Proof.
  intros [Hs _ _ _] Hg. unfold gweight. destruct Hg as [l i s s' err ctx ret Hi Hst|l i s s' r err ctx ret err' ctx' Hi Hst Hre|l err ctx HF]; simpl in *.
  - pose proof (sum_insert l i s s' Hi (sstep_weight _ _ _ _ (Forall_lookup_1 _ _ _ _ Hs Hi) Hst)). lia.
  - pose proof (sum_insert l i s s' Hi (sstep_weight _ _ _ _ (Forall_lookup_1 _ _ _ _ Hs Hi) Hst)). lia.
  - lia.
Qed.
Lemma group_sn g : GInv g → sn gstep g.
Proof.
  remember (gweight g) as n eqn:En. revert g En. induction (lt_wf n) as [n _ IH]. intros g -> HI. constructor. intros g' Hg.
  eapply IH; [by apply gstep_weight|done|by eapply gstep_inv].
Qed.

(** *** While the context has ended with an error, a server is done or can go on *)
Lemma server_progress e s : SInv (Some (Cause e)) s →
  (∃ o s', sstep (Some (Cause e)) s o s') ∨ (done_ s ∧ s_ln s ≠ LOpen).
Proof.
  destruct s as [p r ln w [|c cs]].
  - destruct p as [| | | |[e0|]]; simpl.
    + intros (-> & -> & -> & _). left. eexists _, _. apply s_listen.
    + intros (-> & -> & -> & _). left. eexists _, _. apply s_run.
    + intros (Hw & _ & He). destruct w; [done|left; eexists _, _; by eapply s_watch_close|].
      destruct He as [|[->|]]; [done|done| |done]. left. eexists _, _. apply s_accept_closed.
    + intros _. left. destruct r; eexists _, _; [apply s_continue|apply s_stop].
    + intros (-> & _). right. split; [by eexists|done].
    + intros (Hw & _ & He). destruct w; [done|left; eexists _, _; by eapply s_watch_close|].
      destruct He as [|[->|]]; [done|done| |done]. right. split; [by eexists|done].
  - intros HI. left. apply cases_inv in HI as [(_ & HE)|(_ & Hl)].
    + apply (early_mid _ _ [] _ cs) in HE as [-> (-> & _)]. eexists _, _. apply (s_close_not_running _ _ _ _ []).
    + destruct c; [destruct r|..]; eexists _, _; [apply (s_close_running _ _ _ _ [])|apply (s_close_not_running _ _ _ _ [])|apply (s_close_store _ _ _ _ _ [])|].
      apply (s_close_ln _ _ _ _ _ []). destruct Hl as (_ & [(_ & -> & _)|(_ & [[-> _]| ->])] & _); done.
Qed.

Lemma gstep_err g g' e : GInv g → gstep g g' → g_err g = Some e → g_err g' = Some e.
Proof. intros _ Hg. destruct Hg as [| l i s s' r err ctx ret err' ctx' _ _ Hre|]; simpl; [done| |done]. intros ->. unfold returned in Hre. by destruct r; simplify_eq. Qed.

Lemma group_settled g e : GInv g → g_err g = Some e → nf gstep g →
  g_ret g = Some (Some e) ∧ Forall (λ s, done_ s ∧ s_ln s ≠ LOpen) (serverList g).
Proof.
  intros HI He Hn. assert (Forall (λ s, done_ s ∧ s_ln s ≠ LOpen) (serverList g)) as HF.
  { destruct g as [l err ctx ret]. simpl in *. destruct HI as [Hs Hc _ _]. simpl in *. subst err. simpl in Hc. subst ctx.
    apply Forall_lookup_2. intros i s Hi. destruct (server_progress e s (Forall_lookup_1 _ _ _ _ Hs Hi)) as [(o & s' & Hst)|]; [|done].
    destruct Hn. destruct o as [r|]; [|eexists; by eapply g_server].
    destruct (returned r (Some e) (Some (Cause e))) as [err' ctx'] eqn:Er. eexists. by eapply g_return. }
  split; [|done]. destruct g as [l err ctx ret]. simpl in *. subst err. destruct ret as [r|].
  - destruct HI as [_ _ Hr _]. by destruct (Hr r eq_refl) as [_ ->].
  - destruct Hn. eexists. apply g_wait. eapply Forall_impl; [exact HF|]. by intros s [? _].
Qed.

(** C32 (liveness): in a group of [TcpServer]s, which is what the client's listeners and
    the server's default and obfs transports are (a group with WebSocket, QUIC, gRPC or
    SSH servers is not covered: those can leave a socket open or fail to return), one
    listener that fails takes the group down. From the moment some server has failed,
    however the servers, their closing goroutines and callers of [Close] interleave:
    left to itself the group comes to rest, and then [Start] has returned the first
    error, every server has returned and no socket is left open. *)
Theorem group_fails_together n g e :
  rtc gany (group_start n) g → g_err g = Some e →
  sn gstep g ∧
  ∀ g', rtc gstep g g' → nf gstep g' →
    g_ret g' = Some (Some e) ∧ Forall (λ s, done_ s ∧ s_ln s ≠ LOpen) (serverList g').
Proof.
  intros HI%group_reachable He. split; [by apply group_sn|]. intros g' Hr Hn.
  assert (GInv g' ∧ g_err g' = Some e) as [HI' He'].
  { revert HI He. clear Hn. induction Hr as [|x y z Hxy _ IH]; intros; [done|]. apply IH; [by eapply gstep_inv|by eapply gstep_err]. }
  by apply group_settled.
Qed.

(** Whatever happens, [Close] of a server never finds its listener nil,
    [Start] of the group returns only when every server has returned, and it returns no error exactly if
    none of them did. *)
Theorem group_return n g :
  rtc gany (group_start n) g →
  Forall (λ s, s_running s = true → s_ln s = LOpen) (serverList g) ∧
  Forall (λ s, CStore ∈ s_closers s ∨ CClose ∈ s_closers s → s_ln s ≠ LNone) (serverList g) ∧
  ∀ r, g_ret g = Some r → Forall done_ (serverList g) ∧ (r = None → Forall (λ s, s_pc s = PDone None) (serverList g)).
Proof.
  intros [Hs Hc Hr Hf]%group_reachable. split_and!.
  - eapply Forall_impl; [exact Hs|]. intros [p r ln w cs] HI. apply cases_inv in HI as [(_ & -> & _)|(_ & _ & [(_ & ? & _)|(-> & _)] & _)]; done.
  - eapply Forall_impl; [exact Hs|]. intros [p r ln w cs] HI Hin. apply cases_inv in HI as [(_ & _ & _ & HF)|(_ & _ & Hl & _)].
    + rewrite Forall_forall in HF. by destruct Hin as [Hin|Hin]; apply HF in Hin.
    + simpl. destruct Hl as [(_ & -> & _)|(_ & [[-> _]| ->])]; done.
  - intros r Hret. destruct (Hr r Hret) as [Hd ->]. split; [done|]. intros He. apply Forall_lookup_2. intros i s Hi.
    destruct (Forall_lookup_1 _ _ _ _ Hd Hi) as [[e|] Hp]; [|done]. by pose proof (Forall_lookup_1 _ _ _ _ (Hf e He) Hi).
Qed.

(** ** Connections *)
Definition closes (k : nat) : Conn := Nat.iter k (λ c, fst (conn_Close c)) newConn.
Lemma closes_S k : closes (S k) = fst (conn_Close (closes k)).
Proof. reflexivity. Qed.
Lemma conn_Close_once k : closed (closes (S k)) = true ∧ under_closes (closes (S k)) = 1.
Proof. induction k as [|k [IH1 IH2]]; [done|]. rewrite closes_S. unfold conn_Close. by rewrite IH1. Qed.

(** Whatever the handler does and however it ends, [serve] leaves the
    connection closed, and closed once: as long as the calls of [Close] come one after
    the other, the handler's included, only the first reaches the socket. The process
    survives a panic whose value is an error, and no other. *)
Theorem serve_closes_once k e :
  closed (serve k e).1 = true ∧ under_closes (serve k e).1 = 1 ∧ ((serve k e).2 = false ↔ e = PanicsOther).
Proof. destruct (conn_Close_once k) as [H1 H2]. unfold serve. split_and!; [done|done|by destruct e]. Qed.

(** Two calls at the same time can both close the socket. *)
Lemma close_race : ∃ c, rtc kstep (newConn, [KLoad; KLoad]) (c, []) ∧ under_closes c = 2.
Proof.
  eexists. split.
  - eapply rtc_l; [apply (k_load _ [])|]. eapply rtc_l; [apply (k_load _ [KLoaded false])|]. cbn.
    eapply rtc_l; [apply (k_close _ [])|]. eapply rtc_l; [apply (k_close _ [])|]. apply rtc_refl.
  - done.
Qed.

(** *** Witnesses *)
Definition demo_failed : ServerGroup :=
  Grp [Srv (PDone (Some io_EOF)) false LNone WNone []; Srv PAccept true LOpen WWait []] (Some io_EOF) (Some (Cause io_EOF)) None.
Lemma demo_failed_reachable : rtc gany (group_start 2) demo_failed.
Proof.
  eapply rtc_l; [left; eapply (g_server _ 1); [reflexivity|apply s_listen]|].
  eapply rtc_l; [left; eapply (g_server _ 1); [reflexivity|apply s_run]|].
  eapply rtc_l; [left; eapply (g_return _ 0); [reflexivity|apply (s_listen_failed _ _ _ _ io_EOF)|reflexivity]|]. apply rtc_refl.
Qed.
Lemma group_fails_together_witness : sn gstep demo_failed.
Proof. exact (proj1 (group_fails_together 2 demo_failed io_EOF demo_failed_reachable eq_refl)). Defined.
Lemma group_return_witness : Forall (λ s, s_running s = true → s_ln s = LOpen) (serverList demo_failed).
Proof. exact (proj1 (group_return 2 demo_failed demo_failed_reachable)). Defined.
