(* ===== verification/Dialer.v ===== *)
(** * Packages transport and connection: the dual-stack dialer, and connections over messages.

    Models [dualStackDialContext] of [src/transport/tcp_dialer.go] (two goroutines that dial
    and hand over what they got, as a step relation) and the reading and writing of
    [src/connection/ws.go] and [src/connection/grpc.go], which make a byte stream of
    WebSocket and gRPC messages. Dialling one address and the message libraries are
    parameters: a message connection is a connection of GoIO.v whose pieces are the
    messages. Both message connections are instances of the interface of GoStream.v. *)
From S2P Require Import Prelude GoIO GoNet GoStream.

(** ** The race *)
(** A racer: dialling, offering its result, ended. A result is a connection, by its
    number, or an error. *)
Abbreviation outcome := (res nat).
Inductive racer := RDialing | ROffers (x : outcome) | REnd.
(** The caller: the errors so far over IPv4 and IPv6, or what it returned. *)
Inductive caller := Waits (primary fallback : option error) | Returned (x : outcome).
Record race := Race { r_four : racer; r_six : racer; r_main : caller; r_opened : list nat; r_closed : list nat }.

(** The loop over [results], for one result. *)
Definition receive (ipv6 : bool) (x : outcome) (p f : option error) : caller :=
  match x with
  | Ret c => Returned (Ret c)
  | Fail e =>
      match (if ipv6 then p else Some e), (if ipv6 then Some e else f) with
      | Some e4, Some _ => Returned (Fail e4)
      | p', f' => Waits p' f'
      end
  | Panic => Returned Panic
  end.
Definition get_racer (ipv6 : bool) (r : race) : racer := if ipv6 then r_six r else r_four r.
Definition set_racer (ipv6 : bool) (x : racer) (r : race) : race :=
  if ipv6 then Race (r_four r) x (r_main r) (r_opened r) (r_closed r) else Race x (r_six r) (r_main r) (r_opened r) (r_closed r).

Inductive rstep : race → race → Prop :=
| r_dialled ipv6 r c : get_racer ipv6 r = RDialing → c ∉ r_opened r →
    rstep r (let r' := set_racer ipv6 (ROffers (Ret c)) r in Race (r_four r') (r_six r') (r_main r') (c :: r_opened r') (r_closed r'))
| r_dial_failed ipv6 r e : get_racer ipv6 r = RDialing → rstep r (set_racer ipv6 (ROffers (Fail e)) r)
| r_received ipv6 r x p f : get_racer ipv6 r = ROffers x → r_main r = Waits p f →
    rstep r (let r' := set_racer ipv6 REnd r in Race (r_four r') (r_six r') (receive ipv6 x p f) (r_opened r') (r_closed r'))
| r_abandoned ipv6 r x y : get_racer ipv6 r = ROffers x → r_main r = Returned y →
    rstep r (let r' := set_racer ipv6 REnd r in
             Race (r_four r') (r_six r') (r_main r') (r_opened r') (match x with Ret c => c :: r_closed r' | _ => r_closed r' end)).
Definition dualStackDialContext : race := Race RDialing RDialing (Waits None None) [] [].

(** What a racer holds. *)
Definition holds (x : racer) : list nat := match x with ROffers (Ret c) => [c] | _ => [] end.
Definition main_holds (m : caller) : list nat := match m with Returned (Ret c) => [c] | _ => [] end.
(** The racer's part in what the caller knows. *)
Definition told (x : racer) (e : option error) : Prop :=
  match x with REnd => True | ROffers Panic => False | _ => e = None end.
Record RInv (r : race) : Prop := {
  ri_nodup : NoDup (r_opened r);
  ri_account : r_opened r ≡ₚ holds (r_four r) ++ holds (r_six r) ++ main_holds (r_main r) ++ r_closed r;
  ri_four : r_four r ≠ ROffers Panic;
  ri_six : r_six r ≠ ROffers Panic;
  ri_main : match r_main r with
            | Waits p f => (r_four r = REnd ↔ is_Some p) ∧ (r_six r = REnd ↔ is_Some f) ∧ ¬ (is_Some p ∧ is_Some f) ∧ r_closed r = []
            | Returned (Ret c) => True
            | Returned (Fail e) => r_four r = REnd ∧ r_six r = REnd ∧ r_opened r = []
            | Returned Panic => False
            end;
}.

Lemma race_init : RInv dualStackDialContext.
Proof. split; simpl; try done; [constructor|]. split_and!; (split; [done|by intros [? ?]]) || (by intros [[? ?] _]) || done. Qed.

Lemma is_Some_None {A} : ¬ is_Some (@None A).
Proof. by intros [? ?]. Qed.

Lemma race_inv r r' : RInv r → rstep r r' → RInv r'.
Proof.
  intros [Hn Ha H4 H6 Hm] Hs.
  destruct Hs as [v6 r c Hg Hc|v6 r e Hg|v6 r x p f Hg Hw|v6 r x y Hg Hw]; destruct r as [a b m o k], v6; simpl in *; subst.
  - split; simpl; [by constructor|by rewrite Ha, <-Permutation_middle|done|done|]. destruct m as [p f|[c0|e|]]; naive_solver.
  - split; simpl; [by constructor|by rewrite Ha|done|done|]. destruct m as [p f|[c0|e|]]; naive_solver.
  - split; simpl; [done|done|done|done|]. destruct m as [p f|[c0|e0|]]; naive_solver.
  - split; simpl; [done|done|done|done|]. destruct m as [p f|[c0|e0|]]; naive_solver.
  - destruct Hm as (Hp & Hf & Hnot & ->). destruct x as [c|e|]; [| |done]; simpl in *.
    + split; simpl; [done|by rewrite Ha|done|done|done].
    + destruct p as [e4|].
      * assert (a = REnd) as -> by (apply Hp; eauto). split; simpl; [done|by rewrite Ha|done|done|]. split_and!; [done|done|].
        apply Permutation_nil_r. by rewrite Ha.
      * split; simpl; [done|by rewrite Ha|done|done|]. split_and!; [done| |naive_solver|done]. split; [eauto|done].
  - destruct Hm as (Hp & Hf & Hnot & ->). destruct x as [c|e|]; [| |done]; simpl in *.
    + split; simpl; [done| |done|done|done]. by rewrite Ha, Permutation_middle.
    + destruct f as [e6|].
      * assert (b = REnd) as -> by (apply Hf; eauto). split; simpl; [done|by rewrite Ha|done|done|]. split_and!; [done|done|].
        apply Permutation_nil_r. by rewrite Ha.
      * split; simpl; [done|by rewrite Ha|done|done|]. split_and!; [|done|naive_solver|done]. split; [eauto|done].
  - destruct y as [c0|e|]; [|by destruct Hm as (_ & ? & _)|done]. destruct x as [c|e|]; [| |done]; simpl in *; (split; simpl; [done| |done|done|done]).
    + rewrite Ha. by solve_Permutation.
    + done.
  - destruct y as [c0|e|]; [|by destruct Hm as (? & _)|done]. destruct x as [c|e|]; [| |done]; simpl in *; (split; simpl; [done| |done|done|done]).
    + rewrite Ha. by solve_Permutation.
    + done.
Qed.

Definition rweight (x : racer) : nat := match x with RDialing => 2 | ROffers _ => 1 | REnd => 0 end.
Lemma rstep_weight r r' : rstep r r' → rweight (r_four r') + rweight (r_six r') < rweight (r_four r) + rweight (r_six r).
Proof. intros Hs. destruct Hs as [v6 r c Hg Hc|v6 r e Hg|v6 r x p f Hg Hw|v6 r x y Hg Hw]; destruct v6; simpl in *; rewrite Hg; simpl; lia. Qed.
Lemma race_sn r : sn rstep r.
Proof.
  remember (rweight (r_four r) + rweight (r_six r)) as n eqn:En. revert r En. induction (lt_wf n) as [n _ IH]. intros r ->.
  constructor. intros r' Hr. eapply IH; [by apply rstep_weight|done].
Qed.
Lemma race_reachable r : rtc rstep dualStackDialContext r → RInv r.
Proof.
  intros H. assert (RInv dualStackDialContext) as H0 by apply race_init. revert H0.
  induction H as [|x y z Hxy _ IH]; intros; [done|]. eauto using race_inv.
Qed.

(** A racer that has not ended can go on. *)
Lemma racer_progress v6 r : nf rstep r → get_racer v6 r = REnd.
Proof.
  intros Hn. destruct (get_racer v6 r) as [|x|] eqn:E; [|destruct (r_main r) as [p f|y] eqn:Em|done]; destruct Hn; eexists.
  - by apply (r_dial_failed v6 r io_EOF).
  - by eapply r_received.
  - by eapply r_abandoned.
Qed.

(** The dual-stack race ends and leaks nothing. Whichever of the two dials succeeds or fails, and
    in whatever order: the race comes to an end, and then the caller has returned. If
    it returns a connection, that one is open and every other connection that was
    made is closed; if it returns an error, neither dial made a connection. *)
Theorem dual_stack_race r :
  rtc rstep dualStackDialContext r →
  sn rstep r ∧
  (nf rstep r →
   match r_main r with
   | Returned (Ret c) => c ∈ r_opened r ∧ (c ∉ r_closed r) ∧ (∀ c', c' ∈ r_opened r → c' = c ∨ c' ∈ r_closed r)
   | Returned (Fail _) => r_opened r = []
   | _ => False
   end).
Proof.
  intros [Hn Ha _ _ Hm]%race_reachable. split; [apply race_sn|]. intros Hnf.
  pose proof (racer_progress false r Hnf) as H4. pose proof (racer_progress true r Hnf) as H6. simpl in H4, H6.
  rewrite H4, H6 in *. simpl in Ha. destruct (r_main r) as [p f|[c|e|]]; simpl in *.
  - destruct Hm as (Hp & Hf & Hnot & _). apply Hnot. split; [by apply Hp|by apply Hf].
  - rewrite Ha in Hn. apply NoDup_cons in Hn as [Hn _]. split_and!; [rewrite Ha; by left|done|].
    intros c'. rewrite Ha, elem_of_cons. done.
  - by destruct Hm as (_ & _ & ?).
  - done.
Qed.

(** ** Byte streams over messages *)
Record msgConn := MsgConn { m_conn : conn; m_rbuf : list Z }.
Definition NewMsgConn (c : conn) : msgConn := MsgConn c [].
(** [ReadMessage], [RecvMsg]: a whole message. *)
Definition ReadMessage (c : conn) : conn * res (list Z) :=
  match c_in c with [] => (c, Fail (c_rerr c)) | m :: r => (set_in r c, Ret m) end.

Definition take_rbuf (n : nat) (c : conn) (rbuf : list Z) : msgConn * list Z := (MsgConn c (drop n rbuf), take n rbuf).
(** [WebsocketConn.Read]: the error of [ReadMessage] comes with what could be copied,
    which is nothing. *)
Definition ws_Read (n : nat) (s : msgConn) : msgConn * res (list Z) :=
  let '(c, rbuf, err) :=
    match m_rbuf s with
    | [] => match ReadMessage (m_conn s) with
            | (c, Ret m) => (c, m, None) | (c, Fail e) => (c, [], Some e) | (c, Panic) => (c, [], None) end
    | b => (m_conn s, b, None)
    end in
  let '(s', d) := take_rbuf n c rbuf in
  (s', match err with Some e => Fail e | None => Ret d end).
(** [grpcStreamReaderWriter.Read]. *)
Definition grpc_Read (n : nat) (s : msgConn) : msgConn * res (list Z) :=
  match m_rbuf s with
  | [] => match ReadMessage (m_conn s) with
          | (c, Ret m) => let '(s', d) := take_rbuf n c m in (s', Ret d)
          | (c, Fail e) => (MsgConn c [], Fail e)
          | (c, Panic) => (MsgConn c [], Panic)
          end
  | b => let '(s', d) := take_rbuf n (m_conn s) b in (s', Ret d)
  end.
(** [Write] of both: one message. *)
Definition msg_Write (b : list Z) (s : msgConn) : msgConn * res nat :=
  match conn_write b (m_conn s) with
  | (c, (_, Some e)) => (MsgConn c (m_rbuf s), Fail e)
  | (c, (_, None)) => (MsgConn c (m_rbuf s), Ret (length b))
  end.

(** The two ways of reading agree. *)
Lemma ws_grpc_Read n s : ws_Read n s = grpc_Read n s.
Proof.
  unfold ws_Read, grpc_Read, ReadMessage, take_rbuf. destruct s as [c [|x rb]]; simpl; [|done].
  destruct (c_in c); simpl; [|done]. by rewrite drop_nil.
Qed.

#[export] Instance msg_conn : NetConn msgConn := {
  nc_Read := grpc_Read;
  nc_Write := msg_Write;
  nc_new _ c := NewMsgConn c;
  nc_under := m_conn;
}.
#[export] Program Instance msg_laws : NetConnLaws msgConn := {
  nc_in s m e := m_rbuf s ++ pending (m_conn s) = m ∧ c_rerr (m_conn s) = e;
  nc_out s o := nc_out (m_conn s) o;
  nc_size s := length (m_rbuf s) + src_size (m_conn s);
  nc_rnd _ := True;
}.
Next Obligation.
  intros n [c rb] m e Hn [Hp He]. simpl in *. unfold grpc_Read, ReadMessage, take_rbuf. simpl. destruct rb as [|x rb].
  - destruct (c_in c) as [|ch r] eqn:Ec; simpl.
    + unfold pending in *. rewrite Ec in Hp. simpl in Hp. split_and!; try done. by rewrite Ec.
    + unfold pending, src_size, pending in *. simpl in *. rewrite Ec in Hp |- *. simpl in *. rewrite length_take, length_drop, length_app.
      split_and!; [lia|lia| |done]. exists (drop n ch ++ concat r). by rewrite app_assoc, take_drop.
  - simpl. unfold src_size. rewrite length_take, length_drop. split_and!; [simpl; lia|simpl; lia| |done].
    exists (drop n (x :: rb) ++ pending c). by rewrite app_assoc, take_drop.
Qed.
Next Obligation.
  intros b [c rb] o Ho. simpl in *. unfold msg_Write. simpl. destruct Ho as [Hw Ho].
  rewrite conn_write_unbounded by done. eexists. split; [done|]. simpl. rewrite Ho. split_and!; done.
Qed.
Next Obligation. done. Qed.
Next Obligation. intros s o rnd c [_ <-] Hp. simpl. done. Qed.

Fixpoint msg_writes (ds : list (list Z)) (s : msgConn) : msgConn :=
  match ds with [] => s | d :: r => msg_writes r (fst (msg_Write d s)) end.
Lemma msg_writes_out ds : ∀ s o, nc_out s o → nc_out (msg_writes ds s) (o ++ concat ds).
Proof.
  induction ds as [|d ds IH]; intros s o Ho; simpl; [by rewrite app_nil_r|].
  destruct (nc_write_law d s o Ho) as (s' & E & Ho' & _). change (nc_Write d s) with (msg_Write d s) in E. rewrite E. simpl.
  rewrite app_assoc. by apply IH.
Qed.

(** WebSocket and gRPC carry a byte stream. Whatever is written at one end, in whatever pieces and each piece as one
    message, a relay at the other end copies out exactly, with a buffer of any size,
    and its copy ends without error when the writer closes; empty messages do not
    end it. The WebSocket and the gRPC reader do the same. *)
Theorem msg_stream_transparent ds n (c0 c t : conn) :
  c_wbudget c0 = None → c_out c0 = [] → 0 < n →
  pending c = c_out (m_conn (msg_writes ds (NewMsgConn c0))) → c_rerr c = io_EOF → c_wbudget t = None → c_out t = [] →
  (∀ k s, ws_Read k s = grpc_Read k s) ∧
  ∃ t' s', copy_loop (S (nc_size (NewMsgConn c))) n t (NewMsgConn c) = (t', s', Ret None) ∧ c_out t' = concat ds.
Proof.
  intros Hb Ho Hn Hp He Htb Hto. split; [apply ws_grpc_Read|].
  pose proof (msg_writes_out ds (NewMsgConn c0) [] (conj Hb Ho)) as Hout.
  pose proof (nc_link _ _ [] c Hout Hp) as Hin. rewrite He in Hin. assert (nc_out t []) as Ht by (by split).
  destruct (copy_loop_ok (S (nc_size (NewMsgConn c))) n t (NewMsgConn c) (concat ds) io_EOF [] Hn Hin Ht) as (t' & s' & E & [_ Ho'] & _); [lia|].
  exists t', s'. split; [exact E|exact Ho'].
Qed.

(** *** Witnesses *)
Lemma dual_stack_race_witness : sn rstep dualStackDialContext.
Proof. exact (proj1 (dual_stack_race dualStackDialContext (rtc_refl _ _))). Defined.
Lemma msg_stream_transparent_witness :
  ∃ t' s', copy_loop 20 2 (Conn [] io_EOF [] None io_EOF) (NewMsgConn (Conn [str "hel"; []; str "lo"] io_EOF [] None io_EOF)) = (t', s', Ret None) ∧
    c_out t' = str "hello".
Proof.
  destruct (msg_stream_transparent [str "he"; str "llo"] 2 (Conn [] io_EOF [] None io_EOF)
    (Conn [str "hel"; []; str "lo"] io_EOF [] None io_EOF) (Conn [] io_EOF [] None io_EOF)
    eq_refl eq_refl ltac:(lia) eq_refl eq_refl eq_refl eq_refl) as [_ (t' & s' & E & Ho)].
  vm_compute in E. injection E as <- <-. eexists _, _. split; [vm_compute; reflexivity|exact Ho].
Defined.
