(* ===== verification/GrpcConn.v ===== *)
(** * gRPC streams as connections.

    Models [src/connection/grpc.go], the end of [grpcDialer.Dial] of [src/transport/grpc_dialer.go] with the context
    that [src/relay/tcp.go] dials with, and [Transfer] of [src/server/grpc_server.go]. The streams of the gRPC library are parameters. *)
From S2P Require Import Prelude GoIO GoNet GoStream Dialer.
Local Open Scope nat_scope.

Section Grpc.
(** A stream: [RecvMsg] and [SendMsg] at a moment in time, and closing its sending half. *)
Context {S : Type} (RecvMsg : Z → S → S * res (list Z)) (SendMsg : Z → list Z → S → S * option error) (CloseSend : S → S).

(** [grpcStreamReaderWriter] *)
Record grpcStreamReaderWriter := MkRW { rw_stream : S; rw_rbuf : list Z }.
Definition newGrpcStreamReaderWriter (s : S) : grpcStreamReaderWriter := MkRW s [].
Definition rw_Read (now : Z) (n : nat) (rw : grpcStreamReaderWriter) : grpcStreamReaderWriter * res (list Z) :=
  match rw_rbuf rw with
  | [] =>
      match RecvMsg now (rw_stream rw) with
      | (s, Ret m) => (MkRW s (drop n m), Ret (take n m))
      | (s, Fail e) => (MkRW s [], Fail e)
      | (s, Panic) => (MkRW s [], Panic)
      end
  | b => (MkRW (rw_stream rw) (drop n b), Ret (take n b))
  end.
(** The length is returned also with an error. *)
Definition rw_Write (now : Z) (b : list Z) (rw : grpcStreamReaderWriter) : grpcStreamReaderWriter * (nat * option error) :=
  let '(s, e) := SendMsg now b (rw_stream rw) in (MkRW s (rw_rbuf rw), (length b, e)).

(** [GrpcStreamConn]: the client's end has the connection its stream is on. *)
Record GrpcStreamConn := MkGrpc { g_rw : grpcStreamReaderWriter; g_clientConn : option nat; g_localAddr : option gostring; g_remoteAddr : option gostring; g_isServer : bool }.
(** [peer.FromContext]: the local and remote address. *)
Context (peer : S → option (gostring * gostring)).
Definition NewGrpcServerStreamConn (s : S) : GrpcStreamConn :=
  MkGrpc (newGrpcStreamReaderWriter s) None (fst <$> peer s) (snd <$> peer s) true.
Definition NewGrpcClientStreamConn (s : S) (conn : nat) : GrpcStreamConn :=
  MkGrpc (newGrpcStreamReaderWriter s) (Some conn) (fst <$> peer s) (snd <$> peer s) false.
(** [Close]: which connection is closed. *)
Definition grpc_Close (c : GrpcStreamConn) : GrpcStreamConn * list nat :=
  if g_isServer c then (c, []) else
  (MkGrpc (MkRW (CloseSend (rw_stream (g_rw c))) (rw_rbuf (g_rw c))) (g_clientConn c) (g_localAddr c) (g_remoteAddr c) false, option_list (g_clientConn c)).
Definition grpc_conn_Read (now : Z) (n : nat) (c : GrpcStreamConn) : GrpcStreamConn * res (list Z) :=
  let '(rw, r) := rw_Read now n (g_rw c) in (MkGrpc rw (g_clientConn c) (g_localAddr c) (g_remoteAddr c) (g_isServer c), r).

(** ** Dialling

    [client.Transfer(ctx)] opens a stream whose context is [ctx], here its deadline; [RelayToProxyServer] dials with a context of
    [dialTimeout] that it cancels when the relay is over. *)
Definition dialTimeout : Z := 30.
Context (Transfer : Z → nat → res S).
Definition relay_context (now : Z) : Z := now + dialTimeout.
Definition dial_grpc (now : Z) (conn : nat) : res GrpcStreamConn :=
  cStream ← Transfer (relay_context now) conn; Ret (NewGrpcClientStreamConn cStream conn).

(** The library: a stream ends with its context. *)
Context (deadline : S → Z).
Class GrpcLibrary : Prop := {
  gl_deadline d conn s : Transfer d conn = Ret s → deadline s = d;
  gl_keeps now s : deadline (RecvMsg now s).1 = deadline s;
  gl_expired now s : (deadline s ≤ now)%Z → ∃ e, (RecvMsg now s).2 = Fail e;
}.
Context {HG : GrpcLibrary}.
Fixpoint reads (ops : list (Z * nat)) (c : GrpcStreamConn) : GrpcStreamConn :=
  match ops with [] => c | (now, n) :: r => reads r (grpc_conn_Read now n c).1 end.
Lemma reads_deadline ops c : deadline (rw_stream (g_rw (reads ops c))) = deadline (rw_stream (g_rw c)).
Proof.
  revert c. induction ops as [|[now n] r IH]; intros c; [done|]. cbn. rewrite IH. unfold grpc_conn_Read, rw_Read.
  pose proof (gl_keeps now (rw_stream (g_rw c))) as H. destruct (rw_rbuf (g_rw c)); [|done]. by destruct (RecvMsg now (rw_stream (g_rw c))) as [s [m|e|]].
Qed.

(** A connection over gRPC does not outlive the context it was dialled with: thirty seconds after the relay began, whatever was read before, it
    reads nothing but what it has buffered, and then fails. *)
Theorem grpc_relay_cut now conn c ops now' n :
  dial_grpc now conn = Ret c → (now + 30 ≤ now')%Z → rw_rbuf (g_rw (reads ops c)) = [] → ∃ e, (grpc_conn_Read now' n (reads ops c)).2 = Fail e.
Proof.
  unfold dial_grpc. intros Hd Hn Hb. destruct (Transfer (relay_context now) conn) as [s|e|] eqn:E; [|done..]. injection Hd as <-.
  pose proof (reads_deadline ops (NewGrpcClientStreamConn s conn)) as H. cbn [g_rw rw_stream NewGrpcClientStreamConn newGrpcStreamReaderWriter] in H.
  rewrite (gl_deadline _ _ _ E) in H. unfold relay_context, dialTimeout in H.
  destruct (gl_expired now' (rw_stream (g_rw (reads ops (NewGrpcClientStreamConn s conn)))) ltac:(lia)) as [e He].
  exists e. unfold grpc_conn_Read, rw_Read. rewrite Hb. destruct (RecvMsg now' _) as [s' r]. cbn in He. by subst r.
Qed.
End Grpc.
Arguments MkRW {S} _ _.

(** While its stream lives, it is the connection of Dialer.v. *)
Lemma rw_is_grpc_Read now n (s : msgConn) :
  rw_Read (λ _, ReadMessage) now n (MkRW (m_conn s) (m_rbuf s)) = (λ '(s', r), (MkRW (m_conn s') (m_rbuf s'), r)) (grpc_Read n s).
Proof. unfold rw_Read, grpc_Read, take_rbuf. cbn. destruct (m_rbuf s); [|done]. by destruct (ReadMessage (m_conn s)) as [c [m|e|]]. Qed.

(** *** Witness: a stream with a deadline that echoes *)
Module GrpcDemo.
Definition Recv (now : Z) (s : Z * list Z) : (Z * list Z) * res (list Z) := if (s.1 <=? now)%Z then (s, Fail (errExt 4)) else (s, Ret s.2).
Definition Transfer (d : Z) (conn : nat) : res (Z * list Z) := Ret (d, [1; 2; 3]%Z).
#[export] Instance library : GrpcLibrary Recv Transfer fst.
Proof.
  split.
  - by intros d conn s [= <-].
  - intros now s. unfold Recv. by destruct (s.1 <=? now)%Z.
  - intros now s H. unfold Recv. rewrite (proj2 (Z.leb_le _ _)) by done. by eexists.
Qed.
Definition c : GrpcStreamConn := NewGrpcClientStreamConn (λ _, None) (130, [1; 2; 3])%Z 7.
End GrpcDemo.
Lemma grpc_relay_cut_witness : ∃ e, (grpc_conn_Read GrpcDemo.Recv 131 4 (reads GrpcDemo.Recv [(101%Z, 2); (102%Z, 2)] GrpcDemo.c)).2 = Fail e.
Proof. exact (grpc_relay_cut (HG := GrpcDemo.library) GrpcDemo.Recv (λ _, None) GrpcDemo.Transfer fst 100 7 GrpcDemo.c [(101%Z, 2); (102%Z, 2)] 131 4 eq_refl ltac:(lia) eq_refl). Defined.
