(* ===== verification/Flow.v ===== *)
(** * Package proxy: what is done with intercepted messages.

    Models [src/proxy/interceptor.go] (the four kinds of interceptor, the copies of
    requests and responses) and [src/proxy/flow.go] (the views of a flow and their
    text, the decoding of bodies). A body is the data it will deliver and the errors
    it ends and closes with, or a piece of a pooled buffer, which has an identity:
    the pool hands a buffer that was put back to somebody else, who overwrites it.
    The buffer pool and the decompressors are third-party code and parameters. *)
From S2P Require Import Prelude GoIO GoNet GoURL GoBufio GoHTTP HttpObfs.
Local Open Scope Z_scope.

(** ** Messages *)

(** [io.ReadCloser] fields: nil, [http.NoBody], a stream, a reader of the first bytes
    of a pooled buffer. *)
Inductive body :=
| BNil
| NoBody
| BStream (data : list Z) (rerr cerr : option error)
| BPooled (buf n : nat).

Record HReq := MkReq {
  q_Method : gostring; q_RequestURI : gostring; q_URL_RequestURI : gostring; q_Proto : gostring;
  q_Header : Header; q_Host : gostring; q_Body : body;
}.
Record HRsp := MkRsp {
  p_Proto : gostring; p_StatusCode : Z; p_Header : Header; p_Trailer : Header; p_TransferEncoding : list gostring;
  p_ContentLength : Z; p_Body : body;
}.
Definition req_body (b : body) (q : HReq) : HReq :=
  MkReq (q_Method q) (q_RequestURI q) (q_URL_RequestURI q) (q_Proto q) (q_Header q) (q_Host q) b.
Definition rsp_body (b : body) (p : HRsp) : HRsp :=
  MkRsp (p_Proto p) (p_StatusCode p) (p_Header p) (p_Trailer p) (p_TransferEncoding p) (p_ContentLength p) b.
Definition is_nil (b : body) : bool := match b with BNil => true | _ => false end.

(** The memory of the pooled buffers; reading a body to its end gives the data and
    the error it ends with. Reading a nil body panics, which is guarded everywhere. *)
Abbreviation memory := (gmap nat (list Z)).
Definition read_all (m : memory) (b : body) : list Z * option error :=
  match b with
  | BNil | NoBody => ([], None)
  | BStream d e _ => (d, e)
  | BPooled i n => (take n (default [] (m !! i)), None)
  end.
Definition body_Close (b : body) : option error := match b with BStream _ _ e => e | _ => None end.
(** The same body when it has been read. *)
Definition drained (b : body) : body := match b with BStream _ _ c => BStream [] None c | BPooled i _ => BPooled i 0 | b => b end.

(** ** Views *)

Record HTTPRequestView := RequestView { v_Method : gostring; v_Uri : gostring; v_Proto : gostring; v_Header : Header; v_Body : list Z }.
Record HTTPResponseView := ResponseView { w_Proto : gostring; w_StatusCode : Z; w_Header : Header; w_Body : list Z }.
Record HTTPView := View { view_Request : HTTPRequestView; view_Response : HTTPResponseView }.

(** [http.Header.Write]. *)
Definition Header_Write (h : Header) : list Z :=
  concat ((λ kv, concat ((λ v, kv.1 ++ str ": " ++ header_value v ++ crlf) <$> kv.2)) <$> sort_keys (map_to_list h)).

(** [http.StatusText]. *)
Definition status_texts : list (Z * string) :=
  [(100, "Continue"); (101, "Switching Protocols"); (102, "Processing"); (103, "Early Hints");
   (200, "OK"); (201, "Created"); (202, "Accepted"); (203, "Non-Authoritative Information"); (204, "No Content");
   (205, "Reset Content"); (206, "Partial Content"); (207, "Multi-Status"); (208, "Already Reported"); (226, "IM Used");
   (300, "Multiple Choices"); (301, "Moved Permanently"); (302, "Found"); (303, "See Other"); (304, "Not Modified");
   (305, "Use Proxy"); (307, "Temporary Redirect"); (308, "Permanent Redirect");
   (400, "Bad Request"); (401, "Unauthorized"); (402, "Payment Required"); (403, "Forbidden"); (404, "Not Found");
   (405, "Method Not Allowed"); (406, "Not Acceptable"); (407, "Proxy Authentication Required"); (408, "Request Timeout");
   (409, "Conflict"); (410, "Gone"); (411, "Length Required"); (412, "Precondition Failed");
   (413, "Request Entity Too Large"); (414, "Request URI Too Long"); (415, "Unsupported Media Type");
   (416, "Requested Range Not Satisfiable"); (417, "Expectation Failed"); (418, "I'm a teapot"); (421, "Misdirected Request");
   (422, "Unprocessable Entity"); (423, "Locked"); (424, "Failed Dependency"); (425, "Too Early"); (426, "Upgrade Required");
   (428, "Precondition Required"); (429, "Too Many Requests"); (431, "Request Header Fields Too Large");
   (451, "Unavailable For Legal Reasons");
   (500, "Internal Server Error"); (501, "Not Implemented"); (502, "Bad Gateway"); (503, "Service Unavailable");
   (504, "Gateway Timeout"); (505, "HTTP Version Not Supported"); (506, "Variant Also Negotiates");
   (507, "Insufficient Storage"); (508, "Loop Detected"); (510, "Not Extended"); (511, "Network Authentication Required")].
Definition StatusText (code : Z) : gostring :=
  match find (λ p, p.1 =? code) status_texts with Some (_, s) => str s | None => [] end.

Definition RequestView_Encode (v : HTTPRequestView) : list Z :=
  v_Method v ++ str " " ++ v_Uri v ++ str " " ++ v_Proto v ++ crlf ++ Header_Write (v_Header v) ++ crlf ++ v_Body v.
Definition ResponseView_Encode (v : HTTPResponseView) : list Z :=
  w_Proto v ++ str " " ++ itoa (w_StatusCode v) ++ str " " ++ StatusText (w_StatusCode v) ++ crlf ++
  Header_Write (w_Header v) ++ crlf ++ w_Body v.

Definition HttpHeaderContentEncoding : gostring := str "Content-Encoding".
Definition HttpHeaderContentLength : gostring := str "Content-Length".

Section Views.
(** The decompressors: an error on opening (gzip and zstd read a header first), and
    what reading to the end gives. *)
Inductive codec := Br | Snappy | Deflate | Gzip | Zstd.
Context (codec_open : codec → list Z → option error) (codec_read : codec → list Z → list Z * option error).

Definition decoded (c : codec) (d : list Z) : body := let '(x, e) := codec_read c d in BStream x e None.
(** [decodeBody]: the raw body again, and the decoded one; after an error the
    second is the body given, which has been read. *)
Definition decodeBody (m : memory) (enc : gostring) (b : body) : body * body * option error :=
  match b with
  | BNil | NoBody => (NoBody, NoBody, None)
  | _ =>
      match read_all m b with
      | (_, Some e) => (BNil, drained b, Some e)
      | (d, None) =>
          match body_Close b with
          | Some e => (BNil, drained b, Some e)
          | None =>
              let raw := BStream d None None in
              if decide (enc = str "br") then (raw, decoded Br d, None)
              else if decide (enc = str "snappy") then (raw, decoded Snappy d, None)
              else if decide (enc = str "deflate") then (raw, decoded Deflate d, None)
              else if decide (enc = str "gzip") then
                match codec_open Gzip d with Some e => (BNil, drained b, Some e) | None => (raw, decoded Gzip d, None) end
              else if decide (enc = str "zstd") then
                match codec_open Zstd d with Some e => (BNil, drained b, Some e) | None => (raw, decoded Zstd d, None) end
              else (raw, BStream d None None, None)
          end
      end
  end.

(** What both dumps do with a body: the body afterwards, the data of the view and
    its header, or an error. *)
Definition dump_body (m : memory) (h : Header) (b : body) : body * res (list Z * Header) :=
  match b with
  | BNil => (BNil, Ret ([], h))
  | _ =>
      match decodeBody m (Header_Get h HttpHeaderContentEncoding) b with
      | (_, b', Some e) => (b', Fail e)
      | (save, b', None) =>
          let d := fst (read_all m b') in
          (save, Ret (d, match d with [] => h | _ => Header_Set HttpHeaderContentLength (itoa (Z.of_nat (length d))) h end))
      end
  end.

Definition DumpHTTPRequestView (m : memory) (req : HReq) : HReq * res HTTPRequestView :=
  let uri := match q_RequestURI req with [] => q_URL_RequestURI req | u => u end in
  let '(b, r) := dump_body m (q_Header req) (q_Body req) in
  (req_body b req, '(d, h) ← r; Ret (RequestView (q_Method req) uri (q_Proto req) h d)).
Definition DumpHTTPResponseView (m : memory) (rsp : HRsp) : HRsp * res HTTPResponseView :=
  let '(b, r) := dump_body m (p_Header rsp) (p_Body rsp) in
  (rsp_body b rsp, '(d, h) ← r; Ret (ResponseView (p_Proto rsp) (p_StatusCode rsp) h d)).
Definition DumpHTTPView (m : memory) (fl : HReq * HRsp) : HReq * HRsp * res HTTPView :=
  match DumpHTTPRequestView m (fst fl) with
  | (q, Ret rv) =>
      let '(p, r) := DumpHTTPResponseView m (snd fl) in (q, p, sv ← r; Ret (View rv sv))
  | (q, Fail e) => (q, snd fl, Fail e)
  | (q, Panic) => (q, snd fl, Panic)
  end.
End Views.

(** ** Interceptors *)

Inductive WSDirection := Send | Receive.

(** [bytebufferpool]: a buffer is not in two hands at once, until it is put back. *)
Class BufferPool (P : Type) := {
  pool_Get : P → nat * P;
  pool_Put : nat → P → P;
  in_use : P → nat → Prop;
  pool_Get_fresh p : ¬ in_use p (fst (pool_Get p));
  pool_Get_in_use p i : in_use (snd (pool_Get p)) i ↔ i = fst (pool_Get p) ∨ in_use p i;
  pool_Put_in_use p i j : in_use (pool_Put i p) j ↔ j ≠ i ∧ in_use p j;
}.

Section Interceptors.
Context {P : Type} `{!BufferPool P}.

(** What has happened: the requests sent with the data of their bodies, and what
    the interceptor was shown. *)
Record iworld := IWorld {
  i_mem : memory; i_pool : P;
  i_sent : list (HReq * list Z);
  i_seen : list (HReq * list Z * (HRsp * list Z));
}.
Definition take_buf (w : iworld) : nat * iworld :=
  let '(i, p) := pool_Get (i_pool w) in (i, IWorld (i_mem w) p (i_sent w) (i_seen w)).
Definition put_buf (o : option nat) (w : iworld) : iworld :=
  match o with Some i => IWorld (i_mem w) (pool_Put i (i_pool w)) (i_sent w) (i_seen w) | None => w end.
Definition buf_for (b : body) (w : iworld) : option nat * iworld :=
  if is_nil b then (None, w) else let '(i, w1) := take_buf w in (Some i, w1).

(** [copyBody]: the body in a buffer, for both; neither has one after a read error. *)
Definition copyBody (b : body) (o : option nat) (m : memory) : memory * body * body :=
  match b, o with
  | BNil, _ | _, None => (m, BNil, BNil)
  | _, Some i =>
      match read_all m b with
      | (d, Some _) => (<[i := d]> m, BNil, BNil)
      | (d, None) => (<[i := d]> m, BPooled i (length d), BPooled i (length d))
      end
  end.
Definition set_mem (m : memory) (w : iworld) : iworld := IWorld m (i_pool w) (i_sent w) (i_seen w).
Definition cloneHttpRequest (req : HReq) (o : option nat) (w : iworld) : iworld * HReq * HReq :=
  let '(m, nb, b) := copyBody (q_Body req) o (i_mem w) in (set_mem m w, req_body nb req, req_body b req).
Definition cloneHttpResponse (rsp : HRsp) (o : option nat) (w : iworld) : iworld * HRsp * HRsp :=
  let '(m, nb, b) := copyBody (p_Body rsp) o (i_mem w) in (set_mem m w, rsp_body nb rsp, rsp_body b rsp).

(** [invoker.Invoke]: the request goes out with its body. *)
Context (Invoke : HReq → list Z → res HRsp).
Definition do_invoke (req : HReq) : M iworld HRsp := λ w,
  let d := fst (read_all (i_mem w) (q_Body req)) in
  (IWorld (i_mem w) (i_pool w) (i_sent w ++ [(req, d)]) (i_seen w), Invoke req d).
(** [b.fn(copiedReq, copiedRsp)], which may read the bodies. *)
Definition show (req : HReq) (rsp : HRsp) (w : iworld) : iworld :=
  IWorld (i_mem w) (i_pool w) (i_sent w)
    (i_seen w ++ [(req, fst (read_all (i_mem w) (q_Body req)), (rsp, fst (read_all (i_mem w) (p_Body rsp))))]).

(** [baseImmutableHTTPInterceptor.InvokeInterceptor]; the buffers go back when it
    returns. *)
Definition ImmutHTTP_Invoke (req : HReq) : M iworld HRsp := λ w,
  let '(qb, w1) := buf_for (q_Body req) w in
  let '(w2, copiedReq, req1) := cloneHttpRequest req qb w1 in
  match do_invoke req1 w2 with
  | (w3, Ret rsp) =>
      let '(pb, w4) := buf_for (p_Body rsp) w3 in
      let '(w5, copiedRsp, rsp1) := cloneHttpResponse rsp pb w4 in
      (put_buf qb (put_buf pb (show copiedReq copiedRsp w5)), Ret rsp1)
  | (w3, Fail e) => (put_buf qb w3, Fail e)
  | (w3, Panic) => (put_buf qb w3, Panic)
  end.

End Interceptors.

(** WebSocket messages: what was written on without an error, and what an interceptor was shown. *)
Record wsworld := WSWorld { ws_out : list (Z * list Z); ws_seen : list (WSDirection * Z * list Z) }.
Section WSInterceptors.
Context (WriteMessage : Z → list Z → res unit).
(** [invoker.Invoke], that is [WriteMessage] of the other connection. *)
Definition ws_invoke (t : Z) (data : list Z) : M wsworld unit := λ w,
  match WriteMessage t data with
  | Ret u => (WSWorld (ws_out w ++ [(t, data)]) (ws_seen w), Ret u)
  | r => (w, r)
  end.
Definition ws_show (d : WSDirection) (t : Z) (data : list Z) (w : wsworld) : wsworld := WSWorld (ws_out w) (ws_seen w ++ [(d, t, data)]).
(** [baseImmutableWebsocketInterceptor.InvokeInterceptor]: the copy of the message is
    shown after the message was written, whatever came of it. *)
Definition ImmutWS_Invoke (d : WSDirection) (t : Z) (data : list Z) : M wsworld unit := λ w,
  let msgBuf := data in
  let '(w1, r) := ws_invoke t data w in (ws_show d t msgBuf w1, r).
(** [baseMutableWebsocketInterceptor.InvokeInterceptor]. *)
Context (fn : WSDirection → Z → list Z → (Z → list Z → M wsworld unit) → M wsworld unit).
Definition MutWS_Invoke (d : WSDirection) (t : Z) (data : list Z) : M wsworld unit := fn d t data ws_invoke.
End WSInterceptors.

(** ** Properties *)

(** A body that does not live in a pooled buffer and is read without an error. *)
Definition plain_body (b : body) (d : list Z) : Prop :=
  match b with BNil | NoBody => d = [] | BStream x None _ => x = d | _ => False end.
Lemma plain_body_read m b d : plain_body b d → read_all m b = (d, None).
Proof. by destruct b as [| |x [e|] c|i n]; simpl; intros; subst. Qed.

Section Transparent.
Context {P : Type} `{!BufferPool P} (Invoke : HReq → list Z → res HRsp).

(** What [copyBody] leaves: both bodies read as the original did, and nothing else
    in memory has changed. *)
Lemma copyBody_plain b d o m : plain_body b d → o = None ↔ is_nil b = true →
  ∃ m' b', copyBody b o m = (m', b', b') ∧ read_all m' b' = (d, None) ∧ is_nil b' = is_nil b ∧
    match o with
    | Some i => b' = BPooled i (length d) ∧ m' = <[i := d]> m
    | None => b' = BNil ∧ m' = m
    end.
Proof.
  intros Hb Ho. destruct o as [i|].
  - destruct (is_nil b) eqn:E; [by pose proof (proj2 Ho eq_refl)|].
    assert (copyBody b (Some i) m = (<[i := d]> m, BPooled i (length d), BPooled i (length d))) as ->.
    { pose proof (plain_body_read m b d Hb) as H. unfold copyBody. by destruct b; rewrite ?H. }
    eexists _, _. split; [done|]. simpl. rewrite lookup_insert_eq. simpl. by rewrite take_ge.
  - destruct b; try (by destruct Ho as [Ho _]; specialize (Ho eq_refl)). simpl in Hb. subst. by eexists _, _.
Qed.

Lemma buf_for_spec b (w : iworld (P := P)) : 
  let '(o, w') := buf_for b w in
  (o = None ↔ is_nil b = true) ∧ i_mem w' = i_mem w ∧ i_sent w' = i_sent w ∧ i_seen w' = i_seen w ∧
  (∀ i, in_use (i_pool w') i ↔ o = Some i ∨ in_use (i_pool w) i) ∧ (∀ i, o = Some i → ¬ in_use (i_pool w) i).
Proof.
  unfold buf_for, take_buf. destruct (is_nil b); [split_and!; try done; intros; naive_solver|].
  pose proof (pool_Get_fresh (i_pool w)) as Hf. pose proof (pool_Get_in_use (i_pool w)) as Hu.
  destruct (pool_Get (i_pool w)) as [i p]. simpl in *. split_and!; try done.
  - intros j. rewrite Hu. naive_solver.
  - by intros j [= <-].
Qed.

Lemma put_buf_in_use o (w : iworld (P := P)) i : in_use (i_pool (put_buf o w)) i ↔ o ≠ Some i ∧ in_use (i_pool w) i.
Proof. destruct o as [j|]; simpl; [rewrite pool_Put_in_use|]; naive_solver. Qed.
Lemma put_buf_frame o (w : iworld (P := P)) :
  i_mem (put_buf o w) = i_mem w ∧ i_sent (put_buf o w) = i_sent w ∧ i_seen (put_buf o w) = i_seen w.
Proof. by destruct o. Qed.

(** An immutable interceptor does not change the exchange. A request
    whose body can be read goes out once, with the same fields and the same data; the
    response returned has the fields and the data of the answer; the interceptor is
    shown the same data of both; and no pooled buffer is kept. In particular the
    buffer the returned response reads from has been put back when it is returned. *)
Theorem immutable_http_transparent req (w : iworld (P := P)) d rsp d' :
  plain_body (q_Body req) d → plain_body (p_Body rsp) d' →
  (∀ b, Invoke (req_body b req) d = Ret rsp) →
  ∃ w' rsp' qb cq cp, ImmutHTTP_Invoke Invoke req w = (w', Ret rsp') ∧
    i_sent w' = i_sent w ++ [(req_body qb req, d)] ∧ is_nil qb = is_nil (q_Body req) ∧
    i_seen w' = i_seen w ++ [(req_body cq req, d, (rsp_body cp rsp, d'))] ∧
    rsp' = rsp_body (p_Body rsp') rsp ∧ read_all (i_mem w') (p_Body rsp') = (d', None) ∧
    (∀ i, in_use (i_pool w') i ↔ in_use (i_pool w) i) ∧
    (∀ i n, p_Body rsp' = BPooled i n → ¬ in_use (i_pool w') i).
Proof.
  intros Hq Hp HI. unfold ImmutHTTP_Invoke.
  pose proof (buf_for_spec (q_Body req) w) as H. destruct (buf_for (q_Body req) w) as [qb w1].
  destruct H as (Hn1 & Hm1 & Hs1 & Hv1 & Hu1 & Hf1). unfold cloneHttpRequest.
  destruct (copyBody_plain (q_Body req) d qb (i_mem w1) Hq Hn1) as (m1 & b1 & E1 & Hr1 & Hnil1 & Hb1). rewrite E1.
  unfold do_invoke. cbn [i_mem set_mem q_Body req_body]. rewrite Hr1. cbn [fst]. rewrite HI.
  set (w3 := IWorld _ _ _ _). pose proof (buf_for_spec (p_Body rsp) w3) as H. destruct (buf_for (p_Body rsp) w3) as [pb w4].
  destruct H as (Hn2 & Hm2 & Hs2 & Hv2 & Hu2 & Hf2). unfold cloneHttpResponse.
  destruct (copyBody_plain (p_Body rsp) d' pb (i_mem w4) Hp Hn2) as (m2 & b2 & E2 & Hr2 & Hnil2 & Hb2). rewrite E2.
  assert (read_all m2 b1 = (d, None)) as Hr1'.
  { rewrite <-Hr1. assert (i_mem w4 = m1) as Hm by (rewrite Hm2; done). destruct pb as [j|]; [|destruct Hb2 as [_ ->]; by rewrite Hm].
    destruct Hb2 as [_ ->]. rewrite Hm. destruct qb as [i|]; [|by destruct Hb1 as [-> _]]. destruct Hb1 as [-> ->]. simpl.
    rewrite (lookup_insert_ne _ j i); [done|]. intros ->. apply (Hf2 i eq_refl). unfold w3. simpl. apply Hu1. by left. }
  eexists _, _, b1, b1, b2. split; [reflexivity|].
  destruct (put_buf_frame qb (put_buf pb (show (req_body b1 req) (rsp_body b2 rsp) (set_mem m2 w4)))) as (-> & -> & ->).
  destruct (put_buf_frame pb (show (req_body b1 req) (rsp_body b2 rsp) (set_mem m2 w4))) as (-> & -> & ->).
  cbn [show set_mem i_sent i_seen i_mem q_Body p_Body req_body rsp_body]. rewrite Hs2, Hv2, Hr1', Hr2. cbn [fst].
  unfold w3. cbn [i_sent i_seen set_mem]. rewrite Hs1, Hv1. split_and!; try done.
  - intros i. rewrite !put_buf_in_use. cbn [show set_mem i_pool]. rewrite Hu2. unfold w3. cbn [i_pool set_mem]. rewrite Hu1.
    specialize (Hf1 i). specialize (Hf2 i). unfold w3 in Hf2. cbn [i_pool set_mem] in Hf2. rewrite Hu1 in Hf2. naive_solver.
  - intros i n ->. destruct pb as [j|]; [|by destruct Hb2]. destruct Hb2 as [[= -> _] _]. rewrite !put_buf_in_use. naive_solver.
Qed.
End Transparent.

(** A request whose body cannot be read is sent all the same, without a body. *)
Lemma immutable_http_body_dropped {P} `{!BufferPool P} Invoke req (w : iworld (P := P)) d e c :
  q_Body req = BStream d (Some e) c →
  i_sent (fst (ImmutHTTP_Invoke Invoke req w)) = i_sent w ++ [(req_body BNil req, [])].
Proof.
  intros Hb. unfold ImmutHTTP_Invoke, cloneHttpRequest.
  pose proof (buf_for_spec (q_Body req) w) as H. destruct (buf_for (q_Body req) w) as [[i|] w1];
    destruct H as (Hn & Hm & Hs & _); rewrite Hb in *; [|by pose proof (proj1 Hn eq_refl)].
  cbn [copyBody read_all]. unfold do_invoke. cbn [set_mem i_mem q_Body req_body read_all fst i_sent]. rewrite Hs.
  destruct (Invoke _ _) as [rsp|e'|]; [|done|done].
  set (w3 := IWorld _ _ _ _). pose proof (buf_for_spec (p_Body rsp) w3) as H. destruct (buf_for (p_Body rsp) w3) as [pb w4].
  destruct H as (_ & _ & Hs' & _). unfold cloneHttpResponse. destruct (copyBody (p_Body rsp) pb (i_mem w4)) as [[m nb] b].
  cbn [fst]. rewrite !(proj1 (proj2 (put_buf_frame _ _))). cbn [show set_mem i_sent]. by rewrite Hs'.
Qed.

(** *** Views *)

Section DumpProps.
Context (codec_open : codec → list Z → option error) (codec_read : codec → list Z → list Z * option error).
Abbreviation dump_body := (dump_body codec_open codec_read).

(** The data a view shows of a body with the encoding [enc]. *)
Definition view_data (enc : gostring) (d : list Z) : list Z :=
  if decide (enc = str "br") then fst (codec_read Br d) else if decide (enc = str "snappy") then fst (codec_read Snappy d)
  else if decide (enc = str "deflate") then fst (codec_read Deflate d) else if decide (enc = str "gzip") then fst (codec_read Gzip d)
  else if decide (enc = str "zstd") then fst (codec_read Zstd d) else d.

(** What a dump does with a body: it can still be read as before and the view has
    the decoded data; or there is an error, and nothing can be read any more. *)
Lemma dump_body_spec m h b : match dump_body m h b with
  | (b', Ret (x, _)) => (∀ m', read_all m' b' = (fst (read_all m b), None)) ∧
      x = match b with BNil | NoBody => [] | _ => view_data (Header_Get h HttpHeaderContentEncoding) (fst (read_all m b)) end
  | (b', Fail _) => ∀ m', fst (read_all m' b') = []
  | (_, Panic) => False
  end.
Proof.
  assert (∀ c x, fst (read_all m (decoded codec_read c x)) = fst (codec_read c x)) as Hd
    by (intros c x; unfold decoded; by destruct (codec_read c x)).
  assert (∀ m' b', fst (read_all m' (drained b')) = []) as Hdr by (by intros m' []).
  unfold Flow.dump_body, decodeBody. destruct b as [| |d e c|i n]; [done|done|..].
  - cbn [read_all body_Close fst]. destruct e; [intros; apply Hdr|]. destruct c; [intros; apply Hdr|]. unfold view_data.
    repeat case_decide; repeat case_match; simplify_eq; rewrite ?Hd in *; first [done|intros; apply Hdr|by split|split; [done|congruence]].
  - cbn [read_all body_Close fst]. unfold view_data.
    repeat case_decide; repeat case_match; simplify_eq; rewrite ?Hd in *; first [done|intros; apply Hdr|by split|split; [done|congruence]].
Qed.

(** Dumping a flow. On success the request and the response can be
    read as before, byte for byte and still encoded, the other fields are the same and
    the view has the decoded data; an error leaves one of the two without its body,
    although it is still to be forwarded; nothing panics. *)
Theorem flow_dump m q p : match DumpHTTPView codec_open codec_read m (q, p) with
  | (q', p', Ret v) =>
      q' = req_body (q_Body q') q ∧ p' = rsp_body (p_Body p') p ∧
      (∀ m', read_all m' (q_Body q') = (fst (read_all m (q_Body q)), None)) ∧
      (∀ m', read_all m' (p_Body p') = (fst (read_all m (p_Body p)), None)) ∧
      v_Body (view_Request v) = match q_Body q with BNil | NoBody => []
        | _ => view_data (Header_Get (q_Header q) HttpHeaderContentEncoding) (fst (read_all m (q_Body q))) end ∧
      w_Body (view_Response v) = match p_Body p with BNil | NoBody => []
        | _ => view_data (Header_Get (p_Header p) HttpHeaderContentEncoding) (fst (read_all m (p_Body p))) end
  | (q', p', Fail e) => (∀ m', fst (read_all m' (q_Body q')) = []) ∨ (∀ m', fst (read_all m' (p_Body p')) = [])
  | (_, _, Panic) => False
  end.
Proof.
  unfold DumpHTTPView, DumpHTTPRequestView, DumpHTTPResponseView. cbn [fst snd].
  pose proof (dump_body_spec m (q_Header q) (q_Body q)) as Hq. destruct (dump_body m (q_Header q) (q_Body q)) as [qb [[x h]|e|]]; [|by left|done].
  pose proof (dump_body_spec m (p_Header p) (p_Body p)) as Hp. destruct (dump_body m (p_Header p) (p_Body p)) as [pb [[y h']|e|]]; [|by right|done].
  cbn. destruct Hq, Hp. done.
Qed.
End DumpProps.

(** *** Witnesses *)

(** A pool that hands out the buffer put back last. *)
Record lifo := Lifo { l_free : list nat; l_out : list nat }.
Definition lifo_Get (p : lifo) : nat * lifo :=
  match filter (λ i, i ∉ l_out p) (l_free p) with
  | i :: r => (i, Lifo r (i :: l_out p))
  | [] => let n := S (max_list (l_out p)) in (n, Lifo [] (n :: l_out p))
  end.
#[export] Program Instance lifo_pool : BufferPool lifo := {
  pool_Get := lifo_Get;
  pool_Put i p := Lifo (i :: l_free p) (filter (λ j, j ≠ i) (l_out p));
  in_use p i := i ∈ l_out p;
}.
Next Obligation.
  intros p. unfold lifo_Get. destruct (filter _ (l_free p)) as [|i r] eqn:E; simpl.
  - intros H. apply max_list_elem_of_le in H. lia.
  - assert (i ∈ filter (λ i, i ∉ l_out p) (l_free p)) as H by (rewrite E; left). by apply list_elem_of_filter in H as [? _].
Qed.
Next Obligation. intros p i. unfold lifo_Get. destruct (filter _ (l_free p)); simpl; set_solver. Qed.
Next Obligation. intros p i j. simpl. rewrite list_elem_of_filter. naive_solver. Qed.

Definition demo_req : HReq := MkReq (str "POST") (str "/a") [] (str "HTTP/1.1") ∅ (str "h") (BStream (str "question") None None).
Definition demo_rsp (d : list Z) : HRsp := MkRsp (str "HTTP/1.1") 200 ∅ ∅ [] (-1) (BStream d None None).
Definition demo_world : iworld (P := lifo) := IWorld ∅ (Lifo [] []) [] [].

Lemma immutable_http_transparent_witness :
  ∃ w' rsp', ImmutHTTP_Invoke (λ _ _, Ret (demo_rsp (str "answer"))) demo_req demo_world = (w', Ret rsp') ∧
    read_all (i_mem w') (p_Body rsp') = (str "answer", None).
Proof.
  destruct (immutable_http_transparent (λ _ _, Ret (demo_rsp (str "answer"))) demo_req demo_world
    (str "question") (demo_rsp (str "answer")) (str "answer") eq_refl eq_refl (λ _, eq_refl))
    as (w' & rsp' & _ & _ & _ & E & _ & _ & _ & _ & H & _).
  by exists w', rsp'.
Defined.

(** The response of one connection is read from a buffer that another connection
    has filled in the meantime. *)
Lemma immutable_http_buffer_reused :
  let '(w1, r1) := ImmutHTTP_Invoke (λ _ _, Ret (demo_rsp (str "my secret"))) demo_req demo_world in
  let '(w2, _) := ImmutHTTP_Invoke (λ _ _, Ret (demo_rsp (str "your data"))) demo_req w1 in
  match r1 with Ret rsp => fst (read_all (i_mem w1) (p_Body rsp)) = str "my secret" ∧ fst (read_all (i_mem w2) (p_Body rsp)) = str "your data" | _ => False end.
Proof. vm_compute. done. Qed.
