(* ===== verification/Addons.v ===== *)
(** * Package proxyaddons: the chain of addons.

    Models [src/proxy-addons/*.go]: the context of a flow with its chains of handlers,
    [Next], [Abort] and [Reject], the registration of addons, the interceptors that
    run the chains around the exchange, and the addons themselves. A handler is a
    program over the context: it may look at the flow and change it, go on with the
    rest of the chain, abort it and reject the flow. The position in a chain is an
    eight-bit integer and wraps. *)
From S2P Require Import Prelude GoIO GoNet GoURL GoBufio GoHTTP HttpObfs Flow.
Local Open Scope Z_scope.

Definition errContextReject := errNew "context reject".
(** [math.MaxInt8 >> 1]. *)
Definition abortIndex : Z := 63.
Definition i8 (z : Z) : Z := (z + 128) mod 256 - 128.
Lemma i8_id z : -128 ≤ z ≤ 127 → i8 z = z.
Proof. intros. unfold i8. rewrite Z.mod_small; lia. Qed.

(** ** Chains *)

Section Chain.
Context {F : Type}.

Inductive handler :=
| HDone
| HPanic
| HUse (f : F → F) (k : F → handler)
| HNext (k : handler)
| HAbort (k : handler)
| HReject (e : option error) (k : handler).

(** [contextT] with the flow. [c_trace] and [c_stop] only record: the handlers that were
    started, and how many had been at the first abort. *)
Record contextT := Ctx { c_err : option error; c_index : Z; c_flow : F; c_trace : list nat; c_stop : option nat }.
Inductive outcome := Done (c : contextT) | Panicked | OutOfFuel.

Definition set_index (i : Z) (c : contextT) : contextT := Ctx (c_err c) i (c_flow c) (c_trace c) (c_stop c).
Definition incr (c : contextT) : contextT := set_index (i8 (c_index c + 1)) c.
Definition start (i : nat) (c : contextT) : contextT := Ctx (c_err c) (c_index c) (c_flow c) (c_trace c ++ [i]) (c_stop c).
Definition use (f : F → F) (c : contextT) : contextT := Ctx (c_err c) (c_index c) (f (c_flow c)) (c_trace c) (c_stop c).
Definition abort (c : contextT) : contextT :=
  Ctx (c_err c) abortIndex (c_flow c) (c_trace c) (Some (default (length (c_trace c)) (c_stop c))).
Definition Reject (e : option error) (c : contextT) : contextT :=
  let c1 := abort c in Ctx (Some (default errContextReject e)) (c_index c1) (c_flow c1) (c_trace c1) (c_stop c1).

Definition after (o : outcome) (k : contextT → outcome) : outcome := match o with Done c => k c | o => o end.
(** A handler, given what [Next] does. *)
Fixpoint exec (nx : contextT → outcome) (h : handler) (c : contextT) : outcome :=
  match h with
  | HDone => Done c
  | HPanic => Panicked
  | HUse f k => exec nx (k (c_flow c)) (use f c)
  | HNext k => after (nx c) (exec nx k)
  | HAbort k => exec nx k (abort c)
  | HReject e k => exec nx k (Reject e c)
  end.
(** The loop of [next], with the index already increased. *)
Fixpoint next_loop (fuel : nat) (chains : list handler) (c : contextT) : outcome :=
  match fuel with
  | O => OutOfFuel
  | S f =>
      if c_index c <? i8 (Z.of_nat (length chains)) then
        if c_index c <? 0 then Panicked else
        match chains !! Z.to_nat (c_index c) with
        | None => Panicked
        | Some h =>
            after (exec (λ c, next_loop f chains (incr c)) h (start (Z.to_nat (c_index c)) c))
              (λ c1, next_loop f chains (incr c1))
        end
      else Done c
  end.
Definition next (fuel : nat) (chains : list handler) (c : contextT) : outcome := next_loop fuel chains (incr c).
(** [contextT[T]{index: -1, chains: chains}] and a first [Next]. *)
Definition run_chain (fuel : nat) (chains : list handler) (fl : F) : outcome := next fuel chains (Ctx None (-1) fl [] None).

(** ** What a chain does *)

(** At most one [Next] on every path ([b]: one is still allowed), no panic, and the
    flow stays one that satisfies [Inv]. *)
Context (Inv : F → Prop).
Fixpoint nexts_le (b : bool) (h : handler) : Prop :=
  match h with
  | HDone => True
  | HPanic => False
  | HUse f k => ∀ x, Inv x → Inv (f x) ∧ nexts_le b (k x)
  | HNext k => b = true ∧ nexts_le false k
  | HAbort k | HReject _ k => nexts_le b k
  end.
Definition maxHandlers : nat := 63.

Section Runs.
Context (chains : list handler) (Hn : (length chains ≤ maxHandlers)%nat) (Hc : Forall (nexts_le true) chains).
Abbreviation n := (length chains).

(** An error is only there when the chain was stopped. *)
Definition err_stops (c : contextT) : Prop := c_err c ≠ None → c_stop c ≠ None.
(** [d] handlers are running and [t] have been started, in order. *)
Definition started (d t : nat) (c : contextT) : Prop :=
  c_trace c = seq 0 t ∧ (d ≤ t ≤ n)%nat ∧ c_index c ≤ 127 - Z.of_nat d ∧ err_stops c ∧ Inv (c_flow c).
(** In a handler that has not called [Next], in one that may have, between handlers,
    and at the end of the loop. *)
Definition before_next (d t : nat) (c : contextT) : Prop :=
  started d t c ∧ (1 ≤ d)%nat ∧
  (c_stop c = None ∧ c_index c = Z.of_nat t - 1 ∨ c_stop c = Some t ∧ c_index c = abortIndex).
Definition after_next (d t : nat) (c : contextT) : Prop :=
  started d t c ∧ (1 ≤ d)%nat ∧
  (c_stop c = None ∧ (c_index c = Z.of_nat t - 1 ∨ t = n ∧ Z.of_nat n ≤ c_index c) ∨ c_stop c = Some t ∧ abortIndex ≤ c_index c).
Definition at_loop (d t : nat) (c : contextT) : Prop :=
  started d t c ∧
  (c_stop c = None ∧ (c_index c = Z.of_nat t ∨ t = n ∧ Z.of_nat n ≤ c_index c) ∨ c_stop c = Some t ∧ abortIndex < c_index c).
Definition loop_done (d t : nat) (c : contextT) : Prop :=
  started d t c ∧
  (c_stop c = None ∧ t = n ∧ Z.of_nat n ≤ c_index c ∨ c_stop c = Some t ∧ abortIndex ≤ c_index c).

Ltac chain_lia := unfold maxHandlers, abortIndex in *; lia.
Lemma before_after d t c : before_next d t c → after_next d t c.
Proof.
  intros (Hs & H1 & H). split; [done|]. split; [done|]. destruct H as [[? ?]|[? ?]]; [left; auto|right; split; [done|lia]].
Qed.

(** [Abort] and [Reject] in a handler. *)
Lemma abort_after d t c : after_next d t c → before_next d t (abort c).
Proof.
  intros ((Htr & Hd & Hi & He) & H1 & H). split; [|split; [done|]].
  - destruct He. split_and!; simpl; first [done|chain_lia].
  - right. simpl. rewrite Htr, length_seq. split; [|done]. by destruct H as [[-> _]|[-> _]].
Qed.
Lemma reject_after e d t c : after_next d t c → before_next d t (Reject e c).
Proof.
  intros H. apply abort_after in H as ((Htr & Hd & Hi & He) & H1 & H). split; [|done].
  destruct He. split_and!; try done; lia.
Qed.

(** The index does not wrap. *)
Lemma incr_before d t c : before_next d t c → at_loop d t (incr c).
Proof.
  intros ((Htr & Hd & Hi & He) & H1 & H).
  assert (c_index (incr c) = c_index c + 1) as E by (simpl; apply i8_id; destruct H as [[_ ->]|[_ ->]]; chain_lia).
  destruct He as [He HI]. split; [split_and!; try done; rewrite ?E; destruct H as [[_ Hx]|[_ Hx]]; rewrite ?Hx; chain_lia|].
  rewrite E. destruct H as [[Hs ->]|[Hs ->]]; [left|right]; (split; [done|]); chain_lia.
Qed.
Lemma incr_after d t c : after_next (S d) t c → at_loop d t (incr c).
Proof.
  intros ((Htr & Hd & Hi & He) & H1 & H).
  assert (c_index (incr c) = c_index c + 1) as E
    by (simpl; apply i8_id; destruct H as [[_ [->|[_ ?]]]|[_ ?]]; chain_lia).
  destruct He as [He HI]. split; [split_and!; try done; rewrite ?E; chain_lia|].
  rewrite E. destruct H as [[Hs H]|[Hs H]]; [left|right]; (split; [done|]); chain_lia.
Qed.

Lemma exec_spec (nx : contextT → outcome) (f : nat) :
  (∀ d t c, at_loop d t c → (n - t < f)%nat → ∃ c' t', nx c = Done c' ∧ loop_done d t' c' ∧ (t ≤ t')%nat) →
  ∀ h b d t c, nexts_le b h → (if b : bool then before_next d t c else after_next d t c) → (n - t < f)%nat →
  ∃ c' t', exec (λ c, nx (incr c)) h c = Done c' ∧ after_next d t' c' ∧ (t ≤ t')%nat.
Proof.
  intros Hnx. induction h as [| |g k IH|k IH|k IH|e k IH]; intros b d t c Hle Hpre Hf; [|done|..].
  - exists c, t. split; [done|]. split; [|lia]. destruct b; [by apply before_after|done].
  - assert (started d t c) as (? & ? & ? & ? & HI) by (destruct b; apply Hpre). destruct (Hle _ HI) as [HI' Hk].
    destruct (IH (c_flow c) b d t (use g c) Hk) as (c' & t' & E & H'); [|done|by exists c', t'].
    destruct b; (split; [by split_and!; try apply Hpre|apply Hpre]).
  - destruct Hle as [-> Hle]. destruct (Hnx d t (incr c) (incr_before _ _ _ Hpre) Hf) as (c1 & t1 & E1 & H1 & Ht1).
    destruct (IH false d t1 c1 Hle) as (c' & t' & E & H & Ht); [|lia|exists c', t'; simpl; rewrite E1; split_and!; [done|done|lia]].
    destruct H1 as [Hs H1], Hpre as (_ & Hd1 & _). split; [done|]. split; [done|]. destruct H1 as [(? & ? & ?)|[? ?]]; [left|right]; auto.
  - destruct (IH b d t (abort c) Hle) as (c' & t' & E & H); [|done|by exists c', t'].
    assert (before_next d t (abort c)) by (apply abort_after; destruct b; [by apply before_after|done]).
    destruct b; [done|by apply before_after].
  - destruct (IH b d t (Reject e c) Hle) as (c' & t' & E & H); [|done|by exists c', t'].
    assert (before_next d t (Reject e c)) by (apply reject_after; destruct b; [by apply before_after|done]).
    destruct b; [done|by apply before_after].
Qed.

Lemma next_loop_spec f : ∀ d t c, at_loop d t c → (n - t < f)%nat →
  ∃ c' t', next_loop f chains c = Done c' ∧ loop_done d t' c' ∧ (t ≤ t')%nat.
Proof.
  induction f as [|f IH]; intros d t c H Hf; [lia|]. simpl. rewrite (i8_id (Z.of_nat n)) by chain_lia.
  destruct (Z.ltb_spec (c_index c) (Z.of_nat n)) as [Hlt|Hge].
  - destruct H as [(Htr & Hd & Hi & He) [[Hs [Hx|[-> Hx]]]|[Hs Hx]]]; [|chain_lia|chain_lia].
    rewrite Hx, (proj2 (Z.ltb_ge _ _)), Nat2Z.id by lia. destruct (lookup_lt_is_Some_2 chains t) as [h Hh]; [lia|]. rewrite Hh.
    destruct (exec_spec (next_loop f chains) f IH h true (S d) (S t) (start t c)) as (c1 & t1 & E1 & H1 & Ht1).
    + by apply (Forall_lookup_1 _ _ _ _ Hc Hh).
    + split; [|split; [lia|]]; [|left; simpl; rewrite Hx; split; [done|lia]].
      split_and!; [rewrite seq_S; cbn [c_trace start]; by rewrite Htr|lia|lia|cbn [c_index start]; rewrite Hx; chain_lia|apply He|apply He].
    + lia.
    + simpl in E1. rewrite E1. destruct (IH d t1 (incr c1) (incr_after _ _ _ H1)) as (c' & t' & E & H' & Ht'); [lia|].
      exists c', t'. simpl. split_and!; [done|done|lia].
  - exists c, t. split; [done|]. split; [|lia]. destruct H as [Hst H]. split; [done|].
    destruct H as [[Hs [Hx|[-> Hx]]]|[Hs Hx]]; [left|left; auto|right; split; [done|lia]]. unfold started in Hst. split_and!; try done; lia.
Qed.

(** A chain ends without a panic; exactly the handlers before the first abort have
    run, each once and in order, and all of them if there is none. *)
Lemma chain_spec fuel fl : (n < fuel)%nat → Inv fl →
  ∃ c', run_chain fuel chains fl = Done c' ∧ c_trace c' = seq 0 (default n (c_stop c')) ∧
    (default n (c_stop c') ≤ n)%nat ∧ err_stops c' ∧ Inv (c_flow c').
Proof.
  intros Hf HI. destruct (next_loop_spec fuel 0 0 (incr (Ctx None (-1) fl [] None))) as (c' & t' & E & [(Htr & Ht & _ & He & HI') H] & _).
  - split; [split_and!; simpl; [done|lia|lia|rewrite i8_id; lia|intros H; by destruct H|done]|left; by split; [|left]].
  - lia.
  - exists c'. split; [done|]. destruct H as [(-> & -> & _)|[-> _]]; simpl; split_and!; done || lia.
Qed.
End Runs.
End Chain.
Arguments handler : clear implicits.
Arguments contextT : clear implicits.
Arguments outcome : clear implicits.

(** ** Flows *)

(** The response of a flow is a pointer: changing the response and replacing it are
    different things. [f_heap]: the responses; [f_out]: what addons print or store. *)
Record HTTPFlow := MkHTTPFlow { f_Request : HReq; f_Response : option nat }.
Record WSFlow := MkWSFlow { f_Direction : WSDirection; f_WSRequest : HReq; f_MsgType : Z; f_FramedData : list Z }.
Record flow := MkFlow {
  FlowID : Z; Timestamp : Z; f_HTTP : option HTTPFlow; f_WS : option WSFlow;
  f_heap : list HRsp; f_mem : memory; f_out : list (list Z);
}.
Definition set_http (h : HTTPFlow) (fl : flow) : flow :=
  MkFlow (FlowID fl) (Timestamp fl) (Some h) (f_WS fl) (f_heap fl) (f_mem fl) (f_out fl).
Definition set_heap (l : list HRsp) (fl : flow) : flow :=
  MkFlow (FlowID fl) (Timestamp fl) (f_HTTP fl) (f_WS fl) l (f_mem fl) (f_out fl).
Definition print (x : list Z) (fl : flow) : flow :=
  MkFlow (FlowID fl) (Timestamp fl) (f_HTTP fl) (f_WS fl) (f_heap fl) (f_mem fl) (f_out fl ++ [x]).
Definition response_of (fl : flow) : option (nat * HRsp) :=
  h ← f_HTTP fl; r ← f_Response h; p ← f_heap fl !! r; Some (r, p).

(** An addon: the handlers it implements. *)
Record addon := Addon { a_Request : option (handler flow); a_Response : option (handler flow); a_Message : option (handler flow) }.
(** The lists an addon is registered in. *)
Record addonLists := AddonLists { requestList : list (handler flow); responseList : list (handler flow); messageList : list (handler flow) }.
Definition Use (l : addonLists) (addons : list addon) : addonLists :=
  foldl (λ l pa, AddonLists (requestList l ++ option_list (a_Request pa)) (responseList l ++ option_list (a_Response pa))
                   (messageList l ++ option_list (a_Message pa))) l addons.

(** *** The addons *)

Definition see (k : flow → handler flow) : handler flow := HUse id k.
(** Dereferencing the HTTP flow, its response, and the WebSocket flow. *)
Definition with_http (k : HTTPFlow → handler flow) : handler flow := see (λ fl, match f_HTTP fl with Some h => k h | None => HPanic end).
Definition with_response (k : nat → HRsp → handler flow) : handler flow :=
  see (λ fl, match response_of fl with Some (r, p) => k r p | None => HPanic end).
Definition with_ws (k : WSFlow → handler flow) : handler flow := see (λ fl, match f_WS fl with Some m => k m | None => HPanic end).

(** [duration] (what it logs is the time). *)
Definition duration_handler : handler flow := HNext HDone.
Definition duration : addon := Addon (Some duration_handler) (Some duration_handler) (Some duration_handler).
(** [logEvent]: it reads the flow for the log. *)
Definition logEvent : addon :=
  Addon (Some HDone) (Some (with_http (λ _, with_response (λ _ _, HDone)))) (Some (with_ws (λ _, HDone))).
Definition reject : addon :=
  let h := HReject (Some errContextReject) HDone in Addon (Some h) (Some h) (Some h).
(** [modifiedHeader]: both headers are changed in place. *)
Definition set_req_header (k v : gostring) (fl : flow) : flow :=
  match f_HTTP fl with
  | Some h => let q := f_Request h in
      set_http (MkHTTPFlow (MkReq (q_Method q) (q_RequestURI q) (q_URL_RequestURI q) (q_Proto q) (Header_Set k v (q_Header q)) (q_Host q) (q_Body q))
                  (f_Response h)) fl
  | None => fl
  end.
Definition set_rsp_header (k v : gostring) (fl : flow) : flow :=
  match response_of fl with
  | Some (r, p) =>
      set_heap (<[r := MkRsp (p_Proto p) (p_StatusCode p) (Header_Set k v (p_Header p)) (p_Trailer p) (p_TransferEncoding p)
                         (p_ContentLength p) (p_Body p)]> (f_heap fl)) fl
  | None => fl
  end.
(** [strconv.Itoa(int(flow.FlowID))]. *)
Definition id_text (fl : flow) : gostring := itoa (i64 (FlowID fl)).
Definition modifiedHeader : addon :=
  Addon (Some (with_http (λ _, HUse (λ fl, set_req_header (str "X-Request") (id_text fl) fl) (λ _, HDone))))
        (Some (with_response (λ _ _, HUse (λ fl, set_rsp_header (str "X-Response") (id_text fl) fl) (λ _, HDone)))) None.

(** [filter] of dumper.go. *)
Definition media_filter (contentType : gostring) : bool :=
  existsb (λ t, has_prefix (str t) contentType) ["image"; "font"; "video"; "audio"]%string.

Section DumpingAddons.
Context (codec_open : codec → list Z → option error) (codec_read : codec → list Z → list Z * option error).
Definition rule_ (s : string) : list Z := str "--------" ++ str s ++ str "---------" ++ [10].
Definition printed (s : string) (x : list Z) : list Z := rule_ s ++ x ++ [10] ++ str "--------------------" ++ [10].
(** The dump and what it leaves in the flow. *)
Definition dump_flow (fl : flow) : flow * res HTTPView :=
  match f_HTTP fl, response_of fl with
  | Some h, Some (r, p) =>
      let '(q', p', v) := DumpHTTPView codec_open codec_read (f_mem fl) (f_Request h, p) in
      (set_heap (<[r := p']> (f_heap fl)) (set_http (MkHTTPFlow q' (f_Response h)) fl), v)
  | _, _ => (fl, Panic)
  end.
Definition dumper : addon :=
  Addon (Some HDone)
    (Some (with_response (λ _ p, if media_filter (Header_Get (p_Header p) (str "Content-Type")) then HDone else
       HUse (λ fl, match dump_flow fl with
                   | (fl', Ret v) => print (printed "RSP" (ResponseView_Encode (view_Response v)))
                                       (print (printed "REQ" (RequestView_Encode (view_Request v))) fl')
                   | (fl', _) => fl'
                   end) (λ _, HDone))))
    (Some (with_ws (λ m, HUse (print (printed "MSG" (f_FramedData m))) (λ _, HDone)))).
(** [grabImage]: the decoded data of an image goes to a file. *)
Definition grabImage : addon :=
  Addon None
    (Some (with_response (λ _ p, if negb (has_prefix (str "image") (Header_Get (p_Header p) (str "Content-Type"))) then HDone else
       with_http (λ _, HUse (λ fl, match response_of fl with
         | Some (r, p) =>
             let '(p', v) := DumpHTTPResponseView codec_open codec_read (f_mem fl) p in
             let fl' := set_heap (<[r := p']> (f_heap fl)) fl in
             match v with Ret v => print (w_Body v) fl' | _ => fl' end
         | None => fl
         end) (λ _, HDone))))) None.
End DumpingAddons.

(** ** The interceptors *)

(** [deepCopyRequest]: the copy and the request with their bodies. *)
Definition deepCopyRequest (m : memory) (req : HReq) : res (HReq * HReq) :=
  match q_Body req with
  | BNil => Ret (req, req)
  | b => match read_all m b with
         | (_, Some e) => Fail e
         | (d, None) => Ret (req_body (BStream d None None) req, req_body (BStream d None None) req)
         end
  end.

(** [uniqueId], and what has been sent on. *)
Record aworld := AWorld { uniqueId : Z; w_sent : list (HReq * list Z); w_msgs : list (Z * list Z) }.
Definition u64 (z : Z) : Z := z mod 2 ^ 64.

Section Interceptor.
Context (lists : addonLists) (fuel : nat) (now : Z) (mem : memory).
Context (Invoke : HReq → list Z → res HRsp) (WriteMessage : Z → list Z → res unit).

Definition increaseId (w : aworld) : aworld := AWorld (u64 (uniqueId w + 1)) (w_sent w) (w_msgs w).
Definition new_flow (w : aworld) (h : option HTTPFlow) (m : option WSFlow) : flow := MkFlow (u64 (uniqueId w + 1)) now h m [] mem [].
(** The flow when the response has arrived. *)
Definition answered (clone : HReq) (rsp : HRsp) (fl : flow) : flow :=
  set_heap (f_heap fl ++ [rsp]) (set_http (MkHTTPFlow clone (Some (length (f_heap fl)))) fl).

(** [None]: a chain does not end. *)
Definition MutableHTTPInterceptor (req : HReq) (w : aworld) : option (aworld * res HRsp) :=
  let w1 := increaseId w in
  match run_chain fuel (requestList lists) (new_flow w (Some (MkHTTPFlow req None)) None) with
  | OutOfFuel => None
  | Panicked => Some (w1, Panic)
  | Done c =>
      match c_err c, f_HTTP (c_flow c) with
      | Some e, _ => Some (w1, Fail e)
      | None, None => Some (w1, Panic)
      | None, Some h =>
          match deepCopyRequest mem (f_Request h) with
          | Fail e => Some (w1, Fail e)
          | Panic => Some (w1, Panic)
          | Ret (cloneReq, req1) =>
              let d := fst (read_all mem (q_Body req1)) in
              let w2 := AWorld (uniqueId w1) (w_sent w1 ++ [(req1, d)]) (w_msgs w1) in
              match Invoke req1 d with
              | Fail e => Some (w2, Fail e)
              | Panic => Some (w2, Panic)
              | Ret rsp =>
                  let fl := answered cloneReq rsp (c_flow c) in
                  match run_chain fuel (responseList lists) fl with
                  | OutOfFuel => None
                  | Panicked => Some (w2, Panic)
                  | Done c2 =>
                      Some (w2, match c_err c2 with
                                | Some e => Fail e
                                | None => match f_heap (c_flow c2) !! length (f_heap (c_flow c)) with Some p => Ret p | None => Panic end
                                end)
                  end
              end
          end
      end
  end.

Definition MutableWSInterceptor (dir : WSDirection) (req : HReq) (msgType : Z) (data : list Z) (w : aworld) : option (aworld * res unit) :=
  let w1 := increaseId w in
  match run_chain fuel (messageList lists) (new_flow w None (Some (MkWSFlow dir req msgType data))) with
  | OutOfFuel => None
  | Panicked => Some (w1, Panic)
  | Done c =>
      match c_err c, f_WS (c_flow c) with
      | Some e, _ => Some (w1, Fail e)
      | None, None => Some (w1, Panic)
      | None, Some m => Some (AWorld (uniqueId w1) (w_sent w1) (w_msgs w1 ++ [(f_MsgType m, f_FramedData m)]),
                              WriteMessage (f_MsgType m) (f_FramedData m))
      end
  end.
End Interceptor.

(** [init]: the addons in use. *)
Definition default_addons : addonLists := Use (AddonLists [] [] []) [duration; logEvent].

(** ** Properties *)

(** C38 (bounds): a chain of at most 63 handlers that call [Next] at most once and do
    not panic ends: the eight-bit index never wraps, exactly the handlers up to
    the first abort have run, each once and in order (all of them if nobody aborts),
    and an error means that somebody did. *)
Theorem addon_chain_runs {F} (Inv : F → Prop) (chains : list (handler F)) fuel fl :
  (length chains ≤ maxHandlers)%nat → Forall (nexts_le Inv true) chains → (length chains < fuel)%nat → Inv fl →
  ∃ c, run_chain fuel chains fl = Done c ∧ c_trace c = seq 0 (default (length chains) (c_stop c)) ∧
    (default (length chains) (c_stop c) ≤ length chains)%nat ∧ (c_err c ≠ None → c_stop c ≠ None) ∧ Inv (c_flow c).
Proof. intros Hn Hc Hf HI. by apply (chain_spec Inv). Qed.

(** The bound is tight: 64 handlers that call [Next] take the index past 127. *)
Lemma chain_64_panics : run_chain 200 (replicate 64 (HNext HDone)) tt = Panicked.
Proof. vm_compute. reflexivity. Qed.
(** Beyond the 64th handler, aborting does not stop a chain but repeats it. *)
Lemma abort_repeats fuel (c : contextT unit) : c_index c = 64 →
  next_loop fuel (replicate 64 HDone ++ [HAbort HDone]) c = OutOfFuel.
Proof.
  revert c. induction fuel as [|f IH]; intros c Hi; [done|]. cbn [next_loop]. rewrite Hi.
  change (i8 (Z.of_nat (length (replicate 64 (HDone (F := unit)) ++ [HAbort HDone])))) with 65.
  cbn [Z.ltb Z.compare Pos.compare Pos.compare_cont]. change (Z.to_nat 64) with 64%nat.
  change ((replicate 64 HDone ++ [HAbort HDone]) !! 64%nat) with (Some (HAbort (F := unit) HDone)). cbv iota.
  cbn [exec after]. by apply IH.
Qed.

Definition req_inv (fl : flow) : Prop := f_HTTP fl ≠ None.
(** The response of the exchange is number [k], and the flow has one. *)
Definition rsp_inv (k : nat) (fl : flow) : Prop := f_HTTP fl ≠ None ∧ (k < length (f_heap fl))%nat ∧ response_of fl ≠ None.

Section Exchange.
Context (lists : addonLists) (fuel : nat) (now : Z) (mem : memory).
Context (Invoke : HReq → list Z → res HRsp).
Hypothesis Hreq_n : (length (requestList lists) ≤ maxHandlers)%nat.
Hypothesis Hrsp_n : (length (responseList lists) ≤ maxHandlers)%nat.
Hypothesis Hreq : Forall (nexts_le req_inv true) (requestList lists).
Hypothesis Hrsp : ∀ k, Forall (nexts_le (rsp_inv k) true) (responseList lists).
Hypothesis Hfuel : (length (requestList lists) < fuel)%nat ∧ (length (responseList lists) < fuel)%nat.
Hypothesis Hinv : ∀ q d, Invoke q d ≠ Panic.

(** C15 (safety): the interceptor with any addons that keep to the rules returns
    without a panic; the request is sent at most once, with the data of its body;
    and when a request handler rejects the flow, nothing is sent and the error
    is returned. *)
Theorem addons_http_exchange req w :
  ∃ w' r, MutableHTTPInterceptor lists fuel now mem Invoke req w = Some (w', r) ∧ r ≠ Panic ∧
    uniqueId w' = u64 (uniqueId w + 1) ∧
    (w_sent w' = w_sent w ∧ (∃ e, r = Fail e) ∨
     ∃ q d, w_sent w' = w_sent w ++ [(q, d)] ∧ read_all mem (q_Body q) = (d, None) ∧
            (∀ e, Invoke q d = Fail e → r = Fail e)) ∧
    (∀ c e, run_chain fuel (requestList lists) (new_flow now mem w (Some (MkHTTPFlow req None)) None) = Done c →
            c_err c = Some e → w_sent w' = w_sent w ∧ r = Fail e).
Proof.
  destruct (chain_spec req_inv _ Hreq_n Hreq fuel (new_flow now mem w (Some (MkHTTPFlow req None)) None))
    as (c & E & _ & _ & _ & HI); [apply Hfuel|done|]. unfold MutableHTTPInterceptor. rewrite E.
  destruct (c_err c) as [e|] eqn:Ee.
  { eexists _, _. split; [done|]. split_and!; [done|done|left; by split; [|exists e]|]. intros c' e' [= <-]. rewrite Ee. by intros [= ->]. }
  destruct (f_HTTP (c_flow c)) as [h|] eqn:Eh; [|done].
  assert (∀ c0 e, Done c = Done c0 → c_err c0 = Some e → False) as Hno by (intros c0 e [= <-]; by rewrite Ee).
  destruct (deepCopyRequest mem (f_Request h)) as [[cq q]|e|] eqn:Ed.
  - assert (read_all mem (q_Body q) = (fst (read_all mem (q_Body q)), None)) as Hr.
    { unfold deepCopyRequest in Ed. destruct (q_Body (f_Request h)) as [| |x [e|] y|i n] eqn:Eb; simplify_eq/=; rewrite ?Eb; done. }
    destruct (Invoke q _) as [rsp|e|] eqn:EI; [|eexists _, _; split; [done|]|by apply Hinv in EI].
    + destruct (chain_spec (rsp_inv (length (f_heap (c_flow c)))) _ Hrsp_n (Hrsp _) fuel (answered cq rsp (c_flow c)))
        as (c2 & E2 & _ & _ & _ & HI2).
      { apply Hfuel. }
      { split_and!; [done|simpl; rewrite length_app; simpl; lia|]. unfold response_of. simpl.
        rewrite lookup_app_r, Nat.sub_diag by lia. done. }
      rewrite E2. eexists _, _. split; [done|]. destruct HI2 as (_ & Hlt & _). apply lookup_lt_is_Some_2 in Hlt as [p Hp]. rewrite Hp.
      split_and!; [by destruct (c_err c2)|done| |by intros; destruct (Hno c0 e)].
      right. exists q, (fst (read_all mem (q_Body q))). split_and!; [done|done|congruence].
    + split_and!; [done|done| |by intros; destruct (Hno c0 e0)]. right. exists q, (fst (read_all mem (q_Body q))).
      split_and!; [done|done|congruence].
  - eexists _, _. split; [done|]. split_and!; [done|done|left; by split; [|exists e]|]. intros c0 e0 H1 H2. by destruct (Hno c0 e0).
  - unfold deepCopyRequest in Ed. by repeat case_match.
Qed.
End Exchange.

(** *** The addons keep to the rules *)

Definition ws_inv (fl : flow) : Prop := f_WS fl ≠ None.
Definition behaves (a : addon) : Prop :=
  (∀ h, a_Request a = Some h → nexts_le req_inv true h) ∧
  (∀ h k, a_Response a = Some h → nexts_le (rsp_inv k) true h) ∧
  (∀ h, a_Message a = Some h → nexts_le ws_inv true h).

Lemma with_http_ok (Inv : flow → Prop) b k : (∀ fl, Inv fl → f_HTTP fl ≠ None) → (∀ h, nexts_le Inv b (k h)) → nexts_le Inv b (with_http k).
Proof. intros H Hk x Hx. split; [done|]. specialize (H x Hx). by destruct (f_HTTP x). Qed.
Lemma with_response_ok (Inv : flow → Prop) b k :
  (∀ fl, Inv fl → response_of fl ≠ None) → (∀ r p, nexts_le Inv b (k r p)) → nexts_le Inv b (with_response k).
Proof. intros H Hk x Hx. split; [done|]. specialize (H x Hx). by destruct (response_of x) as [[r p]|]. Qed.
Lemma with_ws_ok (Inv : flow → Prop) b k : (∀ fl, Inv fl → f_WS fl ≠ None) → (∀ m, nexts_le Inv b (k m)) → nexts_le Inv b (with_ws k).
Proof. intros H Hk x Hx. split; [done|]. specialize (H x Hx). by destruct (f_WS x). Qed.
Lemma use_ok {F} (Inv : F → Prop) f : (∀ x, Inv x → Inv (f x)) → nexts_le Inv true (HUse f (λ _, HDone)).
Proof. intros H x Hx. by split; [apply H|]. Qed.
Lemma rsp_inv_http k fl : rsp_inv k fl → f_HTTP fl ≠ None.
Proof. by intros (? & _). Qed.
Lemma rsp_inv_response k fl : rsp_inv k fl → response_of fl ≠ None.
Proof. by intros (_ & _ & ?). Qed.
Create HintDb addons.
#[local] Hint Resolve with_http_ok with_response_ok with_ws_ok use_ok rsp_inv_http rsp_inv_response : addons.

(** Changing a response in place, or a request, and printing. *)
Lemma rsp_inv_heap k fl r p : rsp_inv k fl → rsp_inv k (set_heap (<[r := p]> (f_heap fl)) fl).
Proof.
  intros (H1 & H2 & H3). split_and!; [done|simpl; by rewrite length_insert|].
  unfold response_of in *. simpl. destruct (f_HTTP fl) as [h|]; [|done]. cbn [mbind option_bind] in *.
  destruct (f_Response h) as [i|]; [|done]. cbn [mbind option_bind] in *. destruct (f_heap fl !! i) as [x|] eqn:E; [|done].
  destruct (decide (r = i)) as [->|Hne]; [rewrite list_lookup_insert_eq by (by apply lookup_lt_Some in E)|rewrite list_lookup_insert_ne, E by done]; done.
Qed.
Lemma rsp_inv_request k fl h q : f_HTTP fl = Some h → rsp_inv k fl → rsp_inv k (set_http (MkHTTPFlow q (f_Response h)) fl).
Proof. intros Eh (H1 & H2 & H3). split_and!; [done|done|]. unfold response_of in *. simpl. by rewrite Eh in H3. Qed.
Lemma rsp_inv_print k x fl : rsp_inv k fl → rsp_inv k (print x fl).
Proof. by intros (H1 & H2 & H3). Qed.
Lemma dump_flow_inv co cr k fl : rsp_inv k fl → rsp_inv k (fst (dump_flow co cr fl)).
Proof.
  intros H. unfold dump_flow. destruct (f_HTTP fl) as [h|] eqn:Eh; [|done]. destruct (response_of fl) as [[r p]|]; [|done].
  destruct (DumpHTTPView _ _ _ _) as [[q' p'] v]. simpl.
  apply (rsp_inv_heap k (set_http (MkHTTPFlow q' (f_Response h)) fl)). by apply rsp_inv_request.
Qed.
#[local] Hint Resolve rsp_inv_heap rsp_inv_print dump_flow_inv : addons.

(** Every addon of the package keeps to the rules of a chain. *)
Lemma addons_behave co cr : Forall behaves [duration; logEvent; reject; modifiedHeader; dumper co cr; grabImage co cr].
Proof.
  repeat (apply Forall_cons; split); [..|done]; unfold behaves; (split; [|split]); (intros h k [= <-] || intros h [= <-]); try done; try (by split).
  - apply with_http_ok; [eauto with addons|]. intros _. by apply with_response_ok; [eauto with addons|].
  - by apply with_ws_ok.
  - apply with_http_ok; [done|]. intros _. apply use_ok. intros fl Hfl. unfold set_req_header. by destruct (f_HTTP fl).
  - apply with_response_ok; [eauto with addons|]. intros r p. apply use_ok. intros fl Hfl. unfold set_rsp_header.
    destruct (response_of fl) as [[r' p']|]; eauto with addons.
  - apply with_response_ok; [eauto with addons|]. intros r p. case_match; [done|]. apply use_ok. intros fl Hfl.
    pose proof (dump_flow_inv co cr k fl Hfl). destruct (dump_flow co cr fl) as [fl' [v|e|]]; auto with addons.
  - apply with_ws_ok; [done|]. intros m. by apply use_ok.
  - apply with_response_ok; [eauto with addons|]. intros r p. case_match; [done|]. apply with_http_ok; [eauto with addons|].
    intros _. apply use_ok. intros fl Hfl. destruct (response_of fl) as [[r' p']|]; [|done].
    destruct (DumpHTTPResponseView _ _ _ _) as [p2 [v|e|]]; eauto with addons.
Qed.

Lemma default_requests fuel fl : run_chain (S (S (S (S fuel)))) (requestList default_addons) fl = Done (Ctx None 3 fl [0%nat; 1%nat] None).
Proof. reflexivity. Qed.
(** One handler, and the end of a chain. *)
Lemma next_loop_step {F} f (chains : list (handler F)) i h c : i8 (Z.of_nat (length chains)) = Z.of_nat (length chains) →
  chains !! i = Some h → c_index c = Z.of_nat i →
  next_loop (S f) chains c = after (exec (λ c, next_loop f chains (incr c)) h (start i c)) (λ c1, next_loop f chains (incr c1)).
Proof.
  intros Hl Hi Hx. pose proof (lookup_lt_Some _ _ _ Hi). cbn [next_loop]. rewrite Hl, Hx, (proj2 (Z.ltb_lt _ _)) by lia.
  rewrite (proj2 (Z.ltb_ge _ _)) by lia. by rewrite Nat2Z.id, Hi.
Qed.
Lemma next_loop_end {F} f (chains : list (handler F)) c : i8 (Z.of_nat (length chains)) ≤ c_index c → next_loop (S f) chains c = Done c.
Proof. intros H. cbn [next_loop]. by rewrite (proj2 (Z.ltb_ge _ _)). Qed.
Lemma exec_see nx k c : exec nx (see k) c = exec nx (k (c_flow c)) c.
Proof. by destruct c. Qed.
Lemma default_responses fuel fl : response_of fl ≠ None →
  run_chain (S (S (S (S fuel)))) (responseList default_addons) fl = Done (Ctx None 3 fl [0%nat; 1%nat] None).
Proof.
  intros H. unfold run_chain, next. rewrite (next_loop_step _ _ 0 duration_handler) by reflexivity.
  cbn [exec duration_handler].
  rewrite (next_loop_step _ _ 1 (with_http (λ _, with_response (λ _ _, HDone)))) by reflexivity.
  unfold with_http. rewrite exec_see. cbn [start c_flow incr set_index].
  assert (∃ h, f_HTTP fl = Some h) as [h ->] by (unfold response_of in H; destruct (f_HTTP fl) as [h|]; [by exists h|done]).
  unfold with_response. rewrite exec_see. cbn [start c_flow incr set_index]. destruct (response_of fl) as [[r p]|]; [|done].
  cbn [exec after]. rewrite next_loop_end by (vm_compute; done). cbn [after]. rewrite next_loop_end by (vm_compute; done). reflexivity.
Qed.

(** The request as it is sent: its body has been read and can be read again. *)
Definition sent_request (req : HReq) (d : list Z) : HReq := if is_nil (q_Body req) then req else req_body (BStream d None None) req.
Lemma default_http_ok fuel now mem Invoke req w d rsp : (4 ≤ fuel)%nat → plain_body (q_Body req) d →
  Invoke (sent_request req d) d = Ret rsp →
  MutableHTTPInterceptor default_addons fuel now mem Invoke req w =
    Some (AWorld (u64 (uniqueId w + 1)) (w_sent w ++ [(sent_request req d, d)]) (w_msgs w), Ret rsp).
Proof.
  intros Hf Hb HI. do 4 (destruct fuel as [|fuel]; [lia|]). unfold MutableHTTPInterceptor. rewrite default_requests.
  cbn [c_err c_flow new_flow f_HTTP f_Request f_heap]. set (req1 := sent_request req d) in *.
  assert (deepCopyRequest mem req = Ret (req1, req1)) as ->.
  { unfold deepCopyRequest, req1, sent_request. pose proof (plain_body_read mem (q_Body req) d Hb) as H. by destruct (q_Body req); rewrite ?H. }
  assert (read_all mem (q_Body req1) = (d, None)) as ->.
  { unfold req1, sent_request. destruct (is_nil (q_Body req)); [by apply plain_body_read|done]. }
  cbn [fst]. rewrite HI, default_responses by done. done.
Qed.

(** The addons that are in use by default change nothing. A request
    goes out once, with the same data, and the response comes back as it is; a
    WebSocket message is written on once, as it is; each gets a fresh number. *)
Theorem default_addons_transparent fuel now mem Invoke WriteMessage req w d rsp dir t data :
  (4 ≤ fuel)%nat → plain_body (q_Body req) d → Invoke (sent_request req d) d = Ret rsp →
  MutableHTTPInterceptor default_addons fuel now mem Invoke req w =
    Some (AWorld (u64 (uniqueId w + 1)) (w_sent w ++ [(sent_request req d, d)]) (w_msgs w), Ret rsp) ∧
  MutableWSInterceptor default_addons fuel now mem WriteMessage dir req t data w =
    Some (AWorld (u64 (uniqueId w + 1)) (w_sent w) (w_msgs w ++ [(t, data)]), WriteMessage t data).
Proof.
  intros Hf Hb HI. split; [by apply default_http_ok|]. do 4 (destruct fuel as [|fuel]; [lia|]). reflexivity.
Qed.

(** Replacing the response of a flow has no effect: the one that was received is
    returned. *)
Definition replace_response (p : HRsp) : handler flow :=
  HUse (λ fl, match f_HTTP fl with
              | Some h => set_heap (f_heap fl ++ [p]) (set_http (MkHTTPFlow (f_Request h) (Some (length (f_heap fl)))) fl)
              | None => fl end) (λ _, HDone).
Lemma replaced_response_ignored now mem Invoke req rsp p w : q_Body req = BNil → Invoke req [] = Ret rsp →
  option_map snd (MutableHTTPInterceptor (Use (AddonLists [] [] []) [Addon None (Some (replace_response p)) None]) 3 now mem Invoke req w) = Some (Ret rsp).
Proof.
  intros Hb HI. unfold MutableHTTPInterceptor.
  change (run_chain 3 (requestList _) ?fl) with (Done (Ctx None 0 fl [] None)). cbn [c_err c_flow new_flow f_HTTP f_Request].
  unfold deepCopyRequest. rewrite Hb. cbv iota beta. rewrite Hb. cbn [read_all fst]. by rewrite HI.
Qed.

(** What is registered is what the addons have, in order; so it keeps to the rules. *)
Lemma Use_spec addons l :
  requestList (Use l addons) = requestList l ++ omap a_Request addons ∧
  responseList (Use l addons) = responseList l ++ omap a_Response addons ∧
  messageList (Use l addons) = messageList l ++ omap a_Message addons.
Proof.
  unfold Use. revert l. induction addons as [|a r IH]; intros l; simpl; [by rewrite !app_nil_r|].
  destruct (IH (AddonLists (requestList l ++ option_list (a_Request a)) (responseList l ++ option_list (a_Response a))
                  (messageList l ++ option_list (a_Message a)))) as (-> & -> & ->). simpl.
  destruct (a_Request a), (a_Response a), (a_Message a); simpl; rewrite ?app_nil_r, <-?app_assoc; done.
Qed.
Lemma Use_behaves addons : Forall behaves addons →
  Forall (nexts_le req_inv true) (requestList (Use (AddonLists [] [] []) addons)) ∧
  ∀ k, Forall (nexts_le (rsp_inv k) true) (responseList (Use (AddonLists [] [] []) addons)).
Proof.
  intros H. destruct (Use_spec addons (AddonLists [] [] [])) as (-> & -> & _). simpl.
  split; [|intros k]; apply Forall_forall; intros h (a & Ha & Eh)%list_elem_of_omap; rewrite Forall_forall in H;
    destruct (H a Ha) as (H1 & H2 & _); eauto.
Qed.

(** *** Witnesses *)

Definition demo_codec (c : codec) (d : list Z) : list Z * option error := (d, None).
Definition demo_chain : list (handler nat) := [HNext HDone; HUse S (λ _, HDone); HReject None (HNext HDone); HUse S (λ _, HDone)].
Lemma addon_chain_runs_witness :
  ∃ c, run_chain 5 demo_chain 0%nat = Done c ∧ c_trace c = [0; 1; 2]%nat ∧ c_flow c = 1%nat.
Proof.
  destruct (addon_chain_runs (λ _, True) demo_chain 5 0%nat) as (c & E & Ht & _).
  - simpl. unfold maxHandlers. lia.
  - repeat constructor; done.
  - simpl. lia.
  - done.
  - exists c. split; [done|]. vm_compute in E. injection E as <-. split; reflexivity.
Defined.

Definition demo_lists : addonLists := Use (AddonLists [] [] []) [duration; modifiedHeader; reject].
Lemma demo_addons_behave : Forall behaves [duration; modifiedHeader; reject].
Proof. pose proof (addons_behave (λ _ _, None) demo_codec) as H. decompose_Forall_hyps. by repeat (apply Forall_cons; split). Qed.
Definition demo_aworld : aworld := AWorld 0 [] [].
Lemma addons_http_exchange_witness :
  ∃ w' r, MutableHTTPInterceptor demo_lists 9 0 ∅ (λ _ _, Ret (demo_rsp (str "x"))) demo_req demo_aworld = Some (w', r) ∧
    w_sent w' = [] ∧ r = Fail errContextReject.
Proof.
  destruct (addons_http_exchange demo_lists 9 0 ∅ (λ _ _, Ret (demo_rsp (str "x")))) with (req := demo_req) (w := demo_aworld)
    as (w' & r & E & _ & _ & _ & H).
  - simpl. unfold maxHandlers. lia.
  - simpl. unfold maxHandlers. lia.
  - apply Use_behaves, demo_addons_behave.
  - apply Use_behaves, demo_addons_behave.
  - simpl. lia.
  - done.
  - exists w', r. split; [done|]. eapply H; reflexivity.
Defined.

Lemma default_addons_transparent_witness :
  MutableHTTPInterceptor default_addons 4 0 ∅ (λ _ _, Ret (demo_rsp (str "x"))) demo_req demo_aworld =
    Some (AWorld 1 [(demo_req, str "question")] [], Ret (demo_rsp (str "x"))).
Proof.
  exact (proj1 (default_addons_transparent 4 0 ∅ (λ _ _, Ret (demo_rsp (str "x"))) (λ _ _, Ret tt) demo_req demo_aworld
    (str "question") (demo_rsp (str "x")) Send 1 [] (le_n 4) eq_refl eq_refl)).
Defined.
