(* ===== verification/Certs.v ===== *)
(** * Package util/cert: keys, certificates and their pools.

    Models [src/util/cert/*.go]: the pool of private keys, the pool of forged
    certificates (a cache of Cache.v with its options), the certificate templates and
    what is signed, the loading of the CA and the TLS configurations. Key generation,
    signing, the file system and the PEM, PKCS and X.509 parsers are parameters. *)
From S2P Require Import Prelude GoIO GoNet Cache.
Local Open Scope Z_scope.

Definition errNoPriKey := errNew "no private key available".

(** ** [PriKeyPool] *)

Section PriKeys.
Context {Key : Type}.
(** [p.keys] with its capacity. *)
Record PriKeyPool := MkPriKeyPool { pk_keys : list Key; pk_cap : nat }.
Definition NewPriKeyPool (maxSize : Z) : PriKeyPool := MkPriKeyPool [] (Z.to_nat (if maxSize <=? 0 then 10 else maxSize)).

(** [Get]: [gen] is what [GeneratePrivateKey] would return and [draw] what the random
    source would. The capacity is reached exactly, so [append] does not move it. *)
Definition PriKeyPool_Get (gen : res Key) (draw : Z) : M PriKeyPool Key := λ p,
  let n := length (pk_keys p) in
  let m := pk_cap p in
  if (m =? 0)%nat then (p, Fail errNoPriKey)
  else if (n <? m)%nat then
    match gen with
    | Ret key => (MkPriKeyPool (pk_keys p ++ [key]) m, Ret key)
    | Fail e => (p, Fail e)
    | Panic => (p, Panic)
    end
  else (p, index (pk_keys p) (Z.to_nat (draw mod Z.of_nat n))).

(** [GeneratePrivateKey]. *)
Definition GeneratePrivateKey (GenerateKey : Z → res Key) (Validate : Key → option error) : res Key :=
  k ← GenerateKey 2048; match Validate k with Some e => Fail e | None => Ret k end.

(** The pool never holds more keys than it was made for. *)
Definition pool_ok (p : PriKeyPool) : Prop := (length (pk_keys p) ≤ pk_cap p)%nat ∧ (0 < pk_cap p)%nat.

(** What a [Get] does to a pool: one more key, which is the one returned, or none, and
    then an old one. *)
Lemma PriKeyPool_Get_spec gen draw p p' r : pool_ok p → PriKeyPool_Get gen draw p = (p', r) →
  pool_ok p' ∧ pk_cap p' = pk_cap p ∧
  match r with
  | Ret k => k ∈ pk_keys p' ∧ (pk_keys p' = pk_keys p ∧ length (pk_keys p) = pk_cap p ∨ gen = Ret k ∧ pk_keys p' = pk_keys p ++ [k])
  | Fail e => p' = p ∧ gen = Fail e
  | Panic => p' = p ∧ gen = Panic
  end.
Proof.
  intros [Hl Hc]. unfold PriKeyPool_Get. destruct (Nat.eqb_spec (pk_cap p) 0); [lia|].
  destruct (Nat.ltb_spec (length (pk_keys p)) (pk_cap p)).
  - destruct gen as [k|e|]; intros [= <- <-]; try done. split_and!; simpl; [|done|set_solver|by right].
    split; simpl; [rewrite length_app; simpl; lia|lia].
  - intros [= <- <-]. split; [done|]. split; [done|]. unfold index.
    destruct (lookup_lt_is_Some_2 (pk_keys p) (Z.to_nat (draw mod Z.of_nat (length (pk_keys p))))) as [k Hk].
    { pose proof (Z.mod_pos_bound draw (Z.of_nat (length (pk_keys p)))). lia. }
    rewrite Hk. split; [by eapply list_elem_of_lookup_2|]. left. split; [done|lia].
Qed.

(** A sequence of calls, and how often a key was generated. *)
Inductive pool_runs : PriKeyPool → nat → PriKeyPool → Prop :=
| pool_none p : pool_runs p 0 p
| pool_call p gen draw p1 r n p2 : PriKeyPool_Get gen draw p = (p1, r) → pool_runs p1 n p2 →
    pool_runs p (n + (length (pk_keys p1) - length (pk_keys p))) p2.

Lemma pool_runs_spec p n p' : pool_runs p n p' → pool_ok p → pool_ok p' ∧ pk_cap p' = pk_cap p ∧ pk_keys p `prefix_of` pk_keys p' ∧
  length (pk_keys p') = (length (pk_keys p) + n)%nat.
Proof.
  induction 1 as [p|p gen draw p1 r n p2 E _ IH]; intros Hp; [split_and!; try done; lia|].
  destruct (PriKeyPool_Get_spec _ _ _ _ _ Hp E) as (Hp1 & Hc1 & Hr). destruct (IH Hp1) as (Hp2 & Hc2 & Hpre & Hl).
  assert (pk_keys p `prefix_of` pk_keys p1) as Hpre1.
  { destruct r as [k|e|]; [destruct Hr as [_ [[-> _]|[_ ->]]]; [done|by exists [k]]|by destruct Hr as [-> _]..]. }
  split_and!; [done|congruence|by etrans|]. apply prefix_length in Hpre1. lia.
Qed.
End PriKeys.
Arguments PriKeyPool : clear implicits.

(** ** [CertPool] *)

(** The cache options of a pool; the arguments are durations. *)
Definition NewCertPool (maxCapacity checkInterval certExpired : Z) : options :=
  make_options [WithMaxSize (Z.to_nat (if maxCapacity <=? 0 then 50 else maxCapacity));
                WithInterval (if checkInterval <=? 0 then 30 * second else checkInterval);
                WithExpiration (if certExpired <=? 0 then 15 * second else certExpired);
                WithBackgroundCheckCache; WithUpdateCacheExpirationOnGet].

Lemma NewCertPool_ok c i e : (0 < maxSize (NewCertPool c i e))%nat ∧ 0 < interval (NewCertPool c i e) ∧ 0 < expiration (NewCertPool c i e).
Proof. unfold NewCertPool, make_options, second. simpl. repeat case_match; zify_bool; lia. Qed.

(** ** Certificates *)

(** The parts of [x509.Certificate] that are set. *)
Record x509 := X509 {
  SerialNumber : Z; Subject : gostring; NotBefore : Z; NotAfter : Z; KeyUsage : Z; ExtKeyUsage : list Z;
  IsCA : bool; DNSNames : list gostring; IPAddresses : list (list Z);
}.
Definition KeyUsageDigitalSignature : Z := 1.
Definition KeyUsageKeyEncipherment : Z := 4.
Definition KeyUsageCertSign : Z := 32.
Definition KeyUsageCRLSign : Z := 64.
Definition ExtKeyUsageServerAuth : Z := 1.

Definition generateCertificateTemplate (serial : res Z) (subject : gostring) (dnsNames : list gostring) (ipAddresses : list (list Z))
    (notBefore notAfter : Z) (isCA : bool) : res x509 :=
  n ← serial;
  let usage := Z.lor KeyUsageKeyEncipherment KeyUsageDigitalSignature in
  Ret (if isCA then X509 n subject notBefore notAfter (Z.lor usage (Z.lor KeyUsageCertSign KeyUsageCRLSign)) [] true [] []
       else X509 n subject notBefore notAfter usage [ExtKeyUsageServerAuth] false dnsNames ipAddresses).

Section Sign.
Context {Key : Type}.
(** [x509.CreateCertificate(rand, template, parent, pub, priv)]; [time.Now] and the
    date so many years later. *)
Context (CreateCertificate : x509 → x509 → Key → Key → res (list Z)) (AddDate : Z → Z → Z).
(** [pem.EncodeToMemory] of the two kinds of block, and [tls.X509KeyPair]. *)
Context (pem_key : Key → list Z) (pem_cert : list Z → list Z) (X509KeyPair : list Z → list Z → res (list (list Z) * Key)).

(** [tls.Certificate]: the chain and the key. *)
Record Certificate := MkCertificate { c_chain : list (list Z); c_key : Key }.

Definition GenerateCertificate (serial : res Z) (now : Z) (subject : gostring) (dnsNames : list gostring) (ips : list (list Z))
    (ca : option x509) (caKey : option Key) (privateKey : Key) : res Certificate :=
  template ← generateCertificateTemplate serial subject dnsNames ips now (AddDate now 1) false;
  let '(parent, signer) := match ca, caKey with Some c, Some k => (c, k) | _, _ => (template, privateKey) end in
  certBytes ← CreateCertificate template parent privateKey signer;
  Ret (MkCertificate [certBytes] privateKey).

Definition key_pair (certPem keyPem : list Z) : res Certificate :=
  '(chain, k) ← X509KeyPair certPem keyPem; Ret (MkCertificate chain k).
Definition GenerateCertificateWithPEM (serial : res Z) (now : Z) (subject : gostring) (dnsNames : list gostring) (ips : list (list Z))
    (ca : x509) (caKey privateKey : Key) : res (Certificate * list Z * list Z) :=
  template ← generateCertificateTemplate serial subject dnsNames ips now (AddDate now 1) false;
  certBytes ← CreateCertificate template ca privateKey caKey;
  let keyPem := pem_key privateKey in
  let certPem := pem_cert certBytes in
  cert ← key_pair certPem keyPem;
  Ret (cert, certPem, keyPem).
Definition GenerateCACertificate (serial : res Z) (now : Z) (subject : gostring) (privateKey : Key)
    : res (x509 * Certificate * list Z * list Z) :=
  template ← generateCertificateTemplate serial subject [] [] now (AddDate now 2) true;
  certBytes ← CreateCertificate template template privateKey privateKey;
  let keyPem := pem_key privateKey in
  let certPem := pem_cert certBytes in
  cert ← key_pair certPem keyPem;
  Ret (template, cert, certPem, keyPem).

(** [LoadCACertificate]: a file without a PEM block is a nil block, whose bytes are
    read. [PKCS8] keys need not be RSA keys. *)
Context (ReadFile : gostring → res (list Z)) (pem_Decode : list Z → option (list Z)) (ParseCertificate : list Z → res x509)
        (ParsePKCS1 : list Z → res Key) (ParsePKCS8 : list Z → res (option Key)).
Definition LoadCACertificate (certPath keyPath : gostring) : res (x509 * Key) :=
  certPem ← ReadFile certPath;
  keyPem ← ReadFile keyPath;
  certBlock ← match pem_Decode certPem with Some b => Ret b | None => Panic end;
  caCert ← ParseCertificate certBlock;
  keyBlock ← match pem_Decode keyPem with Some b => Ret b | None => Panic end;
  match ParsePKCS1 keyBlock with
  | Ret k => Ret (caCert, k)
  | Panic => Panic
  | Fail _ => o ← ParsePKCS8 keyBlock; match o with Some k => Ret (caCert, k) | None => Fail (errNew "private key is not of RSA type") end
  end.

(** *** TLS configurations *)

Inductive ClientAuth := NoClientCert | RequireAndVerifyClientCert.
Record tlsConfig := TlsConfig {
  t_Certificates : list Certificate; t_ServerName : gostring; t_RootCAs : option (list Z); t_ClientAuth : ClientAuth;
  t_ClientCAs : option (list Z); t_InsecureSkipVerify : bool;
}.
(** [AppendCertsFromPEM] of a new pool; the pool is the file it was made of. *)
Context (AppendCertsFromPEM : list Z → bool) (LoadX509KeyPair : gostring → gostring → res Certificate).
Definition load_pool (caPath : gostring) (msg : string) : res (option (list Z)) :=
  match caPath with
  | [] => Ret None
  | _ => ca ← ReadFile caPath; if AppendCertsFromPEM ca then Ret (Some ca) else Fail (errNew msg)
  end.
Definition GetClientMTlsConfig (certPath keyPath caPath hostname : gostring) : res tlsConfig :=
  rootCAs ← load_pool caPath "failed to append certs";
  cert ← LoadX509KeyPair certPath keyPath;
  Ret (TlsConfig [cert] hostname rootCAs NoClientCert None false).
Definition GetServerMTlsConfig (certPath keyPath caPath : gostring) : res tlsConfig :=
  clientCAs ← load_pool caPath "failed to append ca file to cert pool";
  cert ← LoadX509KeyPair certPath keyPath;
  Ret (TlsConfig [cert] [] None RequireAndVerifyClientCert clientCAs false).
Definition GetInsecureTlsConfig : tlsConfig := TlsConfig [] [] None NoClientCert None true.
Definition GetClientTlsConfig (caPath hostname : gostring) : res tlsConfig :=
  rootCAs ← load_pool caPath "failed to append ca file to cert pool";
  Ret (TlsConfig [] hostname rootCAs NoClientCert None false).
Definition GetServerTlsConfig (certPath keyPath : gostring) : res tlsConfig :=
  cert ← LoadX509KeyPair certPath keyPath;
  Ret (TlsConfig [cert] [] None NoClientCert None false).
End Sign.
Arguments Certificate : clear implicits.
Arguments tlsConfig : clear implicits.

(** ** Properties *)

(** However often keys are asked for, at most as many are generated as the pool was
    made for (ten by default), none is lost, and every key handed out is kept. *)
Theorem key_pool_bounded {Key} maxSize n (p : PriKeyPool Key) : pool_runs (NewPriKeyPool maxSize) n p →
  n = length (pk_keys p) ∧ Z.of_nat n ≤ (if maxSize <=? 0 then 10 else maxSize).
Proof.
  intros H. apply pool_runs_spec in H as ([Hl _] & Hc & _ & Hn); simpl in *.
  - split; [done|]. rewrite Hc in Hl. case_match; zify_bool; lia.
  - split; simpl; [lia|]. case_match; zify_bool; lia.
Qed.

(** A forged certificate: never a CA, the names and the subject it was asked for,
    signed with the CA's key. *)
Lemma GenerateCertificate_template {Key} (Create : x509 → x509 → Key → Key → res (list Z)) AddDate serial now subject dns ips ca caKey key c :
  GenerateCertificate Create AddDate serial now subject dns ips (Some ca) (Some caKey) key = Ret c →
  ∃ t der, Create t ca key caKey = Ret der ∧ c = MkCertificate [der] key ∧
    IsCA t = false ∧ Subject t = subject ∧ DNSNames t = dns ∧ IPAddresses t = ips ∧ ExtKeyUsage t = [ExtKeyUsageServerAuth] ∧
    NotBefore t = now ∧ NotAfter t = AddDate now 1.
Proof.
  unfold GenerateCertificate, generateCertificateTemplate. destruct serial as [n|e|]; [|done|done]. cbn [mbind res_bind].
  set (t := X509 _ _ _ _ _ _ _ _ _). destruct (Create t ca key caKey) as [der|e|] eqn:E; [|done|done]. intros [= <-].
  exists t, der. by split_and!.
Qed.

(** A CA file that is not PEM makes the program panic. *)
Lemma load_ca_not_pem {Key} ReadFile pem_Decode ParseCertificate (P1 : list Z → res Key) P8 certPath keyPath cp kp :
  ReadFile certPath = Ret cp → ReadFile keyPath = Ret kp → pem_Decode cp = None →
  LoadCACertificate ReadFile pem_Decode ParseCertificate P1 P8 certPath keyPath = Panic.
Proof. intros H1 H2 H3. unfold LoadCACertificate. rewrite H1. cbn. rewrite H2. cbn. by rewrite H3. Qed.
