(* ===== verification/Mitm.v ===== *)
(** * Package proxy: interception of HTTP, HTTPS and WebSocket traffic.

    Models [src/proxy/mitm.go]: the handler and its interceptors, the dialling of the
    origin (directly or through a SOCKS5 proxy), the forged certificates with their
    pool (Certs.v over Cache.v), the dispatch of a tunnelled connection, the exchange of
    one request and its response, and the two message pumps of a WebSocket connection as a
    step relation. TLS, the HTTP and WebSocket client and the text of a response are
    library code and parameters; the connection to the client is the decrypted one once
    the handshake is done. Connections to origins are numbered in the order they
    are dialled, so that one can say which of them are still open. *)
From S2P Require Import Prelude GoIO GoNet GoStream GoURL GoBufio GoHTTP HttpObfs Address Cache FakeIP Rule Socks HttpProxy Options Flow Addons Certs.
Local Open Scope Z_scope.

Definition errServerCertUnavailable := errNew "cannot found a available server tls certificate".
Definition errShortPacket := errNew "short packet".
Definition errMitmDisabled := errNew "mitm disabled".
Definition errProxyTypeUnsupported := errNew "unsupported proxy type".

Record MReqContext := MkMReq { m_ConnMethod : bool; m_Host : gostring; m_Port : gostring; m_Addr : gostring; m_Request : option HReq }.

(** ** The handler *)

Section Mitm.
Context {Key C P : Type} `{!CacheOps gostring (Certificate Key) C} `{!BufferPool P}.

(** What an interceptor of requests gets, and what it does. *)
Definition mutHTTP : Type := (HReq → list Z → res HRsp) → HReq → aworld → aworld * res HRsp.
Record mitmHandlerImpl := MkHandler {
  mitmOpt : MimtOption; caCert : option x509; caKey : option Key; proxyInfo : option URL; certOpts : options;
  immutHttpIntc : bool; mutHttpIntc : option mutHTTP;
  immutWsIntc : bool; mutWsIntc : option (WSDirection → Z → list Z → (Z → list Z → M wsworld unit) → M wsworld unit);
}.
(** The pools of a handler, the client connection, the origins dialled and those
    closed again, and the state of the interceptors. *)
Record mworld := MWorld {
  mw_certs : C; mw_keys : PriKeyPool Key; mw_conn : conn;
  mw_dialled : list gostring; mw_closed : list nat; mw_a : aworld; mw_i : iworld (P := P);
}.

Definition millisecond : Z := 1000000.
(** [NewMitmHandler], with the CA and the pools it makes. *)
Definition NewMitmHandler (LoadCA : gostring → gostring → res (x509 * Key)) (opt : MimtOption)
    : res (mitmHandlerImpl * C * PriKeyPool Key) :=
  if negb (mitm_Enable opt) then Fail errMitmDisabled else
  '(cert, key) ← LoadCA (mitm_CaPath opt) (mitm_KeyPath opt);
  info ← match mitm_Proxy opt with
         | [] => Ret None
         | p => match url_Parse p with Some u => Ret (Some u) | None => Fail (errNew "parse: invalid URL") end
         end;
  Ret (MkHandler opt (Some cert) (Some key) info
         (NewCertPool (mitm_Capacity opt) (i64 (mitm_Interval opt * millisecond)) (i64 (mitm_ExpireSecond opt * millisecond)))
         false None false None, cache_new, NewPriKeyPool 10).

Definition SetMutableHTTPInterceptor (fn : option mutHTTP) (h : mitmHandlerImpl) : mitmHandlerImpl :=
  MkHandler (mitmOpt h) (caCert h) (caKey h) (proxyInfo h) (certOpts h) false fn (immutWsIntc h) (mutWsIntc h).
Definition SetImmutableHTTPInterceptor (fn : bool) (h : mitmHandlerImpl) : mitmHandlerImpl :=
  MkHandler (mitmOpt h) (caCert h) (caKey h) (proxyInfo h) (certOpts h) fn None (immutWsIntc h) (mutWsIntc h).
Definition SetMutableWebsocketInterceptor fn (h : mitmHandlerImpl) : mitmHandlerImpl :=
  MkHandler (mitmOpt h) (caCert h) (caKey h) (proxyInfo h) (certOpts h) (immutHttpIntc h) (mutHttpIntc h) false fn.
Definition SetImmutableWebsocketInterceptor (fn : bool) (h : mitmHandlerImpl) : mitmHandlerImpl :=
  MkHandler (mitmOpt h) (caCert h) (caKey h) (proxyInfo h) (certOpts h) (immutHttpIntc h) (mutHttpIntc h) fn None.
Definition CAPath (h : mitmHandlerImpl) : gostring := mitm_CaPath (mitmOpt h).

Definition set_certs (c : C) (w : mworld) : mworld := MWorld c (mw_keys w) (mw_conn w) (mw_dialled w) (mw_closed w) (mw_a w) (mw_i w).
Definition set_keys (k : PriKeyPool Key) (w : mworld) : mworld := MWorld (mw_certs w) k (mw_conn w) (mw_dialled w) (mw_closed w) (mw_a w) (mw_i w).
Definition set_conn (c : conn) (w : mworld) : mworld := MWorld (mw_certs w) (mw_keys w) c (mw_dialled w) (mw_closed w) (mw_a w) (mw_i w).
Definition set_a (a : aworld) (w : mworld) : mworld := MWorld (mw_certs w) (mw_keys w) (mw_conn w) (mw_dialled w) (mw_closed w) a (mw_i w).
Definition set_i (i : iworld) (w : mworld) : mworld := MWorld (mw_certs w) (mw_keys w) (mw_conn w) (mw_dialled w) (mw_closed w) (mw_a w) i.

Section Handle.
Context (h : mitmHandlerImpl).
(** [transport.DialTCP] and a dial through the SOCKS5 proxy: the error, if any. *)
Context (DialTCP : gostring → option error) (DialSOCKS5 : gostring → gostring → option error).
Definition dial (e : option error) (addr : gostring) : M mworld nat := λ w,
  match e with
  | Some e => (w, Fail e)
  | None => (MWorld (mw_certs w) (mw_keys w) (mw_conn w) (mw_dialled w ++ [addr]) (mw_closed w) (mw_a w) (mw_i w), Ret (length (mw_dialled w)))
  end.
Definition close_origin (i : nat) (w : mworld) : mworld :=
  MWorld (mw_certs w) (mw_keys w) (mw_conn w) (mw_dialled w) (i :: mw_closed w) (mw_a w) (mw_i w).
(** [defer conn.Close()] around the rest of a function. *)
Definition closing {A} (i : nat) (m : M mworld A) : M mworld A := λ w, let '(w1, r) := m w in (close_origin i w1, r).

Definition useProxyDial (ctx : MReqContext) : M mworld nat :=
  match proxyInfo h with
  | None => dial (DialTCP (m_Addr ctx)) (m_Addr ctx)
  | Some u => if decide (Scheme u = str "socks5") then dial (DialSOCKS5 (UHost u) (m_Addr ctx)) (m_Addr ctx)
              else mfail errProxyTypeUnsupported
  end.

(** [tls.Client(...).Handshake()] with a server name to verify, or without
    verification: the certificates of the peer. *)
Context (tls_Client : nat → option gostring → res (list x509)).
Context (CreateCertificate : x509 → x509 → Key → Key → res (list Z)) (AddDate : Z → Z → Z).
(** The clock, the random serial number, the next key and the next random index. *)
Context (now : Z) (serial : res Z) (gen : res Key) (draw : Z).

Definition pool_Get_cert (host : gostring) : M mworld (option (Certificate Key)) := λ w,
  let '(c, _, r) := cache_get (certOpts h) host now (mw_certs w) in
  (set_certs c w, match r with Ret x => Ret (Some x) | Fail _ => Ret None | Panic => Panic end).
Definition pool_Set_cert (host : gostring) (x : Certificate Key) : M mworld unit := λ w,
  let '(c, _, r) := cache_set (certOpts h) host x now (mw_certs w) in (set_certs c w, r).
Definition pool_Get_key : M mworld Key := λ w, let '(k, r) := PriKeyPool_Get gen draw (mw_keys w) in (set_keys k w, r).
(** The loop over the peer's certificates: the last that is not a CA. *)
Definition find_cert (l : list x509) : option x509 := foldl (λ a c, if IsCA c then a else Some c) None l.

(** [getServerResponseCert]: the origin's connection and the certificate to show. *)
Definition getServerResponseCert (ctx : MReqContext) (serverName : gostring) : M mworld (nat * Certificate Key) :=
  dst ← useProxyDial ctx;
  peers ← mlift (tls_Client dst (match serverName with [] => None | n => Some n end));
  cached ← pool_Get_cert (m_Host ctx);
  match cached with
  | Some c => mret (dst, c)
  | None =>
      match find_cert peers with
      | None => mfail errServerCertUnavailable
      | Some found =>
          privateKey ← pool_Get_key;
          serverCert ← mlift (GenerateCertificate CreateCertificate AddDate serial now (Subject found) (DNSNames found) (IPAddresses found)
                                (caCert h) (caKey h) privateKey);
          _ ← pool_Set_cert (m_Host ctx) serverCert;
          mret (dst, serverCert)
      end
  end.

Definition isTLSRequest (data : list Z) : bool :=
  (byte_at data 0 =? 22) && (byte_at data 1 =? 3) && ((1 <=? byte_at data 2) && (byte_at data 2 <=? 3)) && (byte_at data 5 =? 1).

(** [Peek(6)] of the buffered connection. *)
Fixpoint Peek_loop (fuel n : nat) (b : breader) : breader :=
  if (n <=? length (b_buf b))%nat then b else
  match b_err b, fuel with None, S f => Peek_loop f n (fill b) | _, _ => b end.
Definition Peek (n : nat) (c : conn) : breader * res (list Z) :=
  let b := Peek_loop (S (S (src_size c))) n (NewReader c) in
  if (n <=? length (b_buf b))%nat then (b, Ret (take n (b_buf b))) else (b, Fail (default io_EOF (b_err b))).

(** [http.Transport.RoundTrip] on an origin's connection, and [Response.Write]. *)
Context (RoundTrip : nat → HReq → list Z → res HRsp) (Response_bytes : memory → HRsp → list Z).

(** [handleCommonHTTPRequestAndResponse]. *)
Definition invoke_http (dst : nat) (req : HReq) : M mworld HRsp := λ w,
  if immutHttpIntc h then let '(i, r) := ImmutHTTP_Invoke (RoundTrip dst) req (mw_i w) in (set_i i w, r)
  else match mutHttpIntc h with
       | Some fn => let '(a, r) := fn (RoundTrip dst) req (mw_a w) in (set_a a w, r)
       | None => (w, RoundTrip dst req (fst (read_all (i_mem (mw_i w)) (q_Body req))))
       end.
Definition write_response (rsp : HRsp) : M mworld unit := λ w,
  (set_conn (conn_write_ (Response_bytes (i_mem (mw_i w)) rsp) (mw_conn w)) w, Ret tt).
Definition handleCommonHTTP (ctx : MReqContext) (dst : nat) : M mworld unit :=
  match m_Request ctx with
  | None => mlift Panic
  | Some req => rsp ← invoke_http dst req;
      (* [defer response.Body.Close()] of a nil body *)
      if is_nil (p_Body rsp) then mlift Panic else write_response rsp
  end.

(** [readHTTPRequestForConnect]: the request of a tunnel, with its body, and whether it asks for
    an upgrade. [mk_req]: the message read, with the body that follows in the reader. *)
Context (mk_req : Request → breader → HReq).
Definition wants_upgrade (r : Request) : bool :=
  bool_decide (Header_Get (ReqHeader r) (str "Connection") = str "Upgrade") ||
  bool_decide (Header_Get (ReqHeader r) (str "Upgrade") = str "websocket").
Definition with_request (ctx : MReqContext) (q : HReq) : MReqContext :=
  MkMReq (m_ConnMethod ctx) (m_Host ctx) (m_Port ctx) (m_Addr ctx) (Some q).
Definition readHTTPRequestForConnect (ctx : MReqContext) : M mworld (MReqContext * bool) := λ w,
  match m_ConnMethod ctx, m_Request ctx with
  | true, None =>
      match ReadRequest (NewReader (mw_conn w)) with
      | (b, Ret r) => (set_conn (b_conn b) w, Ret (with_request ctx (mk_req r b), wants_upgrade r))
      | (b, Fail e) => (set_conn (b_conn b) w, Fail e)
      | (b, Panic) => (set_conn (b_conn b) w, Panic)
      end
  | _, _ => (w, Ret (ctx, false))
  end.

(** [tls.Server(...).Handshake()]: the server name the client asks for, and, with a
    certificate, the decrypted connection. *)
Context (client_hello : conn → res gostring) (server_finish : conn → Certificate Key → res conn).
(** [handleCommonWSRequstAndResponse]: the upgrade of the client's connection, the
    handshake with the origin, and the first error of the pumps, which run as
    [ws_step] below; it never returns without one. *)
Context (Upgrade : HReq → M conn unit) (WSDial : nat → HReq → res unit) (first_err : error).
Definition RemoveWebsocketRequestHeaders (hd : Header) : Header :=
  Header_Del (str "Sec-Websocket-Extensions") (Header_Del (str "Sec-Websocket-Version") (Header_Del (str "Sec-Websocket-Key")
    (Header_Del (str "Connection") (Header_Del (str "Upgrade") hd)))).
Definition without_ws (q : HReq) : HReq :=
  MkReq (q_Method q) (q_RequestURI q) (q_URL_RequestURI q) (q_Proto q) (RemoveWebsocketRequestHeaders (q_Header q)) (q_Host q) (q_Body q).
Definition upgrade (q : HReq) : M mworld unit := λ w, let '(c, r) := Upgrade q (mw_conn w) in (set_conn c w, r).
Definition handleWS (ctx : MReqContext) (dst : nat) : M mworld unit :=
  match m_Request ctx with
  | None => mlift Panic
  | Some q => _ ← upgrade q; _ ← mlift (WSDial dst (without_ws q)); mfail first_err
  end.

Definition peek6 : M mworld (list Z) := λ w,
  let '(b, r) := Peek 6 (mw_conn w) in
  (set_conn (match b_buf b with [] => b_conn b | l => set_in (l :: c_in (b_conn b)) (b_conn b) end) w, r).
Definition keep_conn (c : conn) (dst : nat) : M mworld nat := λ w, (set_conn c w, Ret dst).
Definition accept_tls (ctx : MReqContext) : M mworld nat := λ w,
  (name ← mlift (client_hello (mw_conn w));
   '(dst, cert) ← getServerResponseCert ctx name;
   c ← mlift (server_finish (mw_conn w) cert);
   keep_conn c dst) w.
Definition serve_tunnel (ctx : MReqContext) (dst : nat) : M mworld unit :=
  '(ctx', isWsUpgrade) ← readHTTPRequestForConnect ctx;
  if (isWsUpgrade : bool) then handleWS ctx' dst else handleCommonHTTP ctx' dst.
Definition handleConnectMethod (ctx : MReqContext) : M mworld unit :=
  data ← peek6;
  if (length data <? 6)%nat then mfail errShortPacket else
  dst ← (if isTLSRequest data then accept_tls ctx else dial (DialTCP (m_Addr ctx)) (m_Addr ctx));
  closing dst (serve_tunnel ctx dst).

Definition HandleMIMT (ctx : MReqContext) : M mworld unit :=
  if m_ConnMethod ctx then handleConnectMethod ctx
  else (dst ← dial (DialTCP (m_Addr ctx)) (m_Addr ctx); closing dst (handleCommonHTTP ctx dst)).
End Handle.
End Mitm.
Arguments mitmHandlerImpl : clear implicits.
Arguments mworld : clear implicits.

(** ** The pumps of a WebSocket connection *)

(** A goroutine: the messages its connection will deliver and the error after them, where it is (about to read, with a message
    to pass on, gone), and what it has written on and shown. *)
Inductive ppc := PRead | PHold (m : Z * list Z) | PDone.
#[export] Instance ppc_eq_dec : EqDecision ppc.
Proof. solve_decision. Defined.
Record pump := Pump { p_in : list (Z * list Z); p_rerr : error; p_pc : ppc; p_w : wsworld }.
(** The two of them, the channel, the error the handler has returned, and whether the connections to the origin and to the
    client are open. *)
Record wsrelay := WSRelay { r_up : pump; r_down : pump; errCh : list error; r_ret : option error; r_dst_open : bool; r_src_open : bool }.

Section Pumps.
Context {Key : Type} (h : mitmHandlerImpl Key).
(** [reliable]: no write to an open connection fails. *)
Context (reliable : bool).
(** What is done with one message; the result is dropped. *)
Definition pump_message (WriteMessage : Z → list Z → res unit) (d : WSDirection) (m : Z * list Z) (w : wsworld) : wsworld :=
  fst (if immutWsIntc h then ImmutWS_Invoke WriteMessage d (fst m) (snd m) w
       else match mutWsIntc h with
            | Some fn => MutWS_Invoke WriteMessage fn d (fst m) (snd m) w
            | None => ws_invoke WriteMessage (fst m) (snd m) w
            end).
(** [WriteMessage] of a connection at one moment. *)
Definition write_ok (open : bool) (W : Z → list Z → res unit) : Prop :=
  (open = false → ∀ t x, W t x ≠ Ret tt) ∧ (open = true → reliable = true → ∀ t x, W t x = Ret tt).
(** [ao], [bo]: whether the connections read and written are open; the last component is what is sent on the channel. *)
Inductive pump_step (d : WSDirection) (ao bo : bool) : pump → option error → pump → Prop :=
| pump_read m r e w : ao = true → pump_step d ao bo (Pump (m :: r) e PRead w) None (Pump r e (PHold m) w)
| pump_end e w : ao = true → pump_step d ao bo (Pump [] e PRead w) (Some e) (Pump [] e PDone w)
| pump_closed l e w : ao = false → pump_step d ao bo (Pump l e PRead w) (Some errNetClosed) (Pump l e PDone w)
| pump_forward W m r e w : write_ok bo W → pump_step d ao bo (Pump r e (PHold m) w) None (Pump r e PRead (pump_message W d m w)).
(** The channel has room for the errors of both. The handler returns the first; its deferred call closes the connection to the
    origin, and the server that called it closes the client's. *)
Inductive ws_step : wsrelay → wsrelay → Prop :=
| step_up p o p' q l x dp sp : pump_step Send sp dp p o p' → ws_step (WSRelay p q l x dp sp) (WSRelay p' q (l ++ option_list o) x dp sp)
| step_down p q o q' l x dp sp : pump_step Receive dp sp q o q' → ws_step (WSRelay p q l x dp sp) (WSRelay p q' (l ++ option_list o) x dp sp)
| ws_return p q e l dp sp : ws_step (WSRelay p q (e :: l) None dp sp) (WSRelay p q l (Some e) dp sp)
| ws_close_dst p q l e sp : ws_step (WSRelay p q l (Some e) true sp) (WSRelay p q l (Some e) false sp)
| ws_close_src p q l e : ws_step (WSRelay p q l (Some e) false true) (WSRelay p q l (Some e) false false).
End Pumps.
Definition ws_start (mu : list (Z * list Z)) (eu : error) (md : list (Z * list Z)) (ed : error) : wsrelay :=
  WSRelay (Pump mu eu PRead (WSWorld [] [])) (Pump md ed PRead (WSWorld [] [])) [] None true true.
(** Returned, everything closed, both goroutines gone. *)
Definition ws_over (s : wsrelay) : Prop :=
  r_ret s ≠ None ∧ r_dst_open s = false ∧ r_src_open s = false ∧ p_pc (r_up s) = PDone ∧ p_pc (r_down s) = PDone.

(** ** The front ends with interception *)

(** [WithMitmMode]: the handler, if it can be made, with the addons as interceptors. *)
Section FrontEnds.
Context {Key C : Type} `{!CacheOps gostring (Certificate Key) C}.
Context (httpFn : mutHTTP) (wsFn : WSDirection → Z → list Z → (Z → list Z → M wsworld unit) → M wsworld unit).
Definition WithMitmMode (LoadCA : gostring → gostring → res (x509 * Key)) (opt : MimtOption) : res (option (mitmHandlerImpl Key * C * PriKeyPool Key)) :=
  match NewMitmHandler LoadCA opt with
  | Ret (h, c, k) => Ret (Some (SetMutableWebsocketInterceptor (Some wsFn) (SetMutableHTTPInterceptor (Some httpFn) h), c, k))
  | Fail _ => Ret None
  | Panic => Panic
  end.
End FrontEnds.

(** ** Properties *)

(** *** WebSocket *)

Section PumpProps.
Context {Key : Type} (h : mitmHandlerImpl Key) (reliable : bool).
Hypothesis Hfn : immutWsIntc h = true ∨ mutWsIntc h = None.
Abbreviation pump_step := (pump_step h reliable).
Abbreviation ws_step := (ws_step h reliable).

Definition pc_hold (c : ppc) : list (Z * list Z) := match c with PHold m => [m] | _ => [] end.
(** Of the messages [l] the pump has dealt with [k], and shown them; [open]: whether it can still write. *)
Definition dealt (d : WSDirection) (l : list (Z * list Z)) (e : error) (open : bool) (p : pump) (k : list (Z * list Z)) : Prop :=
  l = k ++ pc_hold (p_pc p) ++ p_in p ∧ p_rerr p = e ∧
  ws_seen (p_w p) = (if immutWsIntc h then (λ m, (d, fst m, snd m)) <$> k else []) ∧
  ws_out (p_w p) `sublist_of` k ∧
  (reliable = true → ws_out (p_w p) `prefix_of` k ∧ (open = true → ws_out (p_w p) = k)).

Lemma pump_message_spec W d m w :
  ws_out (pump_message h W d m w) = ws_out w ++ (match W (fst m) (snd m) with Ret _ => [m] | _ => [] end) ∧
  ws_seen (pump_message h W d m w) = ws_seen w ++ (if immutWsIntc h then [(d, fst m, snd m)] else []).
Proof.
  unfold pump_message, ImmutWS_Invoke, ws_invoke. destruct (immutWsIntc h) eqn:Ei; [|destruct Hfn as [?| ->]; [done|]];
    destruct m as [t x]; cbn; destruct (W t x); cbn; by rewrite ?app_nil_r.
Qed.
Lemma pump_step_dealt d l e ao bo p o p' k : pump_step d ao bo p o p' → dealt d l e bo p k →
  ∃ k', dealt d l e bo p' k' ∧ p_pc p ≠ PDone ∧ (p_pc p' = PDone ↔ o ≠ None) ∧ (ao = true → ∀ x, o = Some x → x = e ∧ k' = l).
Proof.
  intros Hs (Hl & He & Hse & Hsub & Hrel). destruct Hs as [m r e0 w Ho|e0 w Ho|l0 e0 w Ho|W m r e0 w [Hw1 Hw2]]; cbn in *.
  - exists k. by split_and!.
  - exists k. split; [by split_and!|]. split_and!; try done. intros _ x [= <-]. split; [done|]. by rewrite Hl, app_nil_r.
  - exists k. split; [by split_and!|]. split_and!; try done. congruence.
  - destruct (pump_message_spec W d m w) as [Hout Hsn]. exists (k ++ [m]). split; [|by split_and!].
    split_and!; cbn; [by rewrite Hl, <-app_assoc|done| | |].
    + rewrite Hsn, Hse. destruct (immutWsIntc h); [by rewrite fmap_app|done].
    + rewrite Hout. apply sublist_app; [done|]. destruct (W m.1 m.2); [done|apply sublist_nil_l..].
    + intros Hr. destruct (Hrel Hr) as [Hp Heq]. rewrite Hout. destruct bo.
      * rewrite Hw2, Heq by done. done.
      * split; [|done]. specialize (Hw1 eq_refl m.1 m.2). destruct (W m.1 m.2) as [[]| |]; [done| |]; rewrite app_nil_r; by apply prefix_app_r.
Qed.
Lemma dealt_close d l e p k : dealt d l e true p k → dealt d l e false p k.
Proof. intros (H1 & H2 & H3 & H4 & H5). split_and!; try done. intros Hr. by destruct (H5 Hr). Qed.

(** While nothing has been returned both connections are open, and what is on the channel, or was returned, is the error of a side all of
    whose messages have been dealt with; what comes on it later does not matter. *)
Record relay_inv (mu : list (Z * list Z)) (eu : error) (md : list (Z * list Z)) (ed : error) (s : wsrelay) : Prop := {
  ri_up : ∃ k, dealt Send mu eu (r_dst_open s) (r_up s) k;
  ri_down : ∃ k, dealt Receive md ed (r_src_open s) (r_down s) k;
  ri_open : r_ret s = None → r_dst_open s = true ∧ r_src_open s = true ∧
    (errCh s = [] → p_pc (r_up s) ≠ PDone ∧ p_pc (r_down s) ≠ PDone) ∧
    ∀ x, x ∈ errCh s → (x = eu ∧ p_pc (r_up s) = PDone ∧ dealt Send mu eu true (r_up s) mu) ∨ (x = ed ∧ p_pc (r_down s) = PDone ∧ dealt Receive md ed true (r_down s) md);
  ri_src : r_src_open s = false → r_dst_open s = false;
  ri_ret x : r_ret s = Some x →
    (x = eu ∧ p_pc (r_up s) = PDone ∧ dealt Send mu eu true (r_up s) mu) ∨ (x = ed ∧ p_pc (r_down s) = PDone ∧ dealt Receive md ed true (r_down s) md);
}.
Lemma pump_done d ao bo p o p' : pump_step d ao bo p o p' → p_pc p ≠ PDone.
Proof. by destruct 1. Qed.
Lemma ws_step_inv mu eu md ed s s' : ws_step s s' → relay_inv mu eu md ed s → relay_inv mu eu md ed s'.
Proof.
  intros Hs [[ku Hu] [kd Hd] Ho Hsrc Hret]. destruct Hs as [p o p' q l x dp sp Hp|p q o q' l x dp sp Hq|p q e l dp sp|p q l e sp|p q l e]; cbn in *.
  - pose proof (pump_done _ _ _ _ _ _ Hp) as Hnd. destruct (pump_step_dealt _ _ _ _ _ _ _ _ _ Hp Hu) as (k' & Hu' & _ & Hdo & Hx).
    split; cbn; [by exists k'|by exists kd| |done|].
    + intros Hn. destruct (Ho Hn) as (-> & -> & Hch & Hin). split_and!; [done|done| |].
      * intros E. apply app_eq_nil in E as [-> E]. destruct (Hch eq_refl) as [_ ?]. split; [|done]. intros Hz%Hdo. by destruct o.
      * intros z [Hz|Hz]%elem_of_app; [destruct (Hin z Hz) as [(_ & ? & _)|?]; [done|by right]|]. destruct o as [y|]; [|by apply elem_of_nil in Hz].
        apply list_elem_of_singleton in Hz as ->. destruct (Hx eq_refl y eq_refl) as [-> ->]. left. split_and!; [done|by apply Hdo|done].
    + intros z Hz. destruct (Hret z Hz) as [(_ & ? & _)|?]; [done|by right].
  - pose proof (pump_done _ _ _ _ _ _ Hq) as Hnd. destruct (pump_step_dealt _ _ _ _ _ _ _ _ _ Hq Hd) as (k' & Hd' & _ & Hdo & Hx).
    split; cbn; [by exists ku|by exists k'| |done|].
    + intros Hn. destruct (Ho Hn) as (-> & -> & Hch & Hin). split_and!; [done|done| |].
      * intros E. apply app_eq_nil in E as [-> E]. destruct (Hch eq_refl) as [? _]. split; [done|]. intros Hz%Hdo. by destruct o.
      * intros z [Hz|Hz]%elem_of_app; [destruct (Hin z Hz) as [?|(_ & ? & _)]; [by left|done]|]. destruct o as [y|]; [|by apply elem_of_nil in Hz].
        apply list_elem_of_singleton in Hz as ->. destruct (Hx eq_refl y eq_refl) as [-> ->]. right. split_and!; [done|by apply Hdo|done].
    + intros z Hz. destruct (Hret z Hz) as [?|(_ & ? & _)]; [by left|done].
  - split; cbn; [by exists ku|by exists kd|done|done|]. intros z [= <-]. apply (Ho eq_refl). left.
  - split; cbn; [exists ku; by apply dealt_close|by exists kd|done|done|done].
  - split; cbn; [by exists ku|exists kd; by apply dealt_close|done|done|done].
Qed.
Lemma relay_reachable mu eu md ed s : rtc ws_step (ws_start mu eu md ed) s → relay_inv mu eu md ed s.
Proof.
  assert (relay_inv mu eu md ed (ws_start mu eu md ed)) as H0.
  { assert (∀ d l e, dealt d l e true (Pump l e PRead (WSWorld [] [])) []) as Hs by (intros; split_and!; cbn; try done; by destruct (immutWsIntc h)).
    split; cbn; [by eexists|by eexists| |done|done]. intros _. split_and!; try done. by intros x ?%elem_of_nil. }
  intros Hs. revert H0. induction Hs; [done|]. eauto using ws_step_inv.
Qed.

Definition pump_size (p : pump) : nat := match p_pc p with PRead => 2 * length (p_in p) + 1 | PHold _ => 2 * length (p_in p) + 2 | PDone => 0 end.
Definition ws_size (s : wsrelay) : nat :=
  (pump_size (r_up s) + pump_size (r_down s) + (match r_ret s with None => 1 | _ => 0 end) + Nat.b2n (r_dst_open s) + Nat.b2n (r_src_open s))%nat.
Lemma ws_step_decreases s s' : ws_step s s' → (ws_size s' < ws_size s)%nat.
Proof.
  assert (∀ d ao bo p o p', pump_step d ao bo p o p' → (pump_size p' < pump_size p)%nat) as Hp.
  { intros d ao bo p o p' Hs. destruct Hs; unfold pump_size; cbn; lia. }
  intros Hs. destruct Hs as [p o p' q l x dp sp H|p q o q' l x dp sp H|p q e l dp sp|p q l e sp|p q l e]; unfold ws_size; cbn; try (apply Hp in H); lia.
Qed.
Lemma pump_live d ao bo p : p_pc p ≠ PDone → ∃ o p', pump_step d ao bo p o p'.
Proof.
  destruct p as [l e [|m|] w]; cbn; intros H; [| |done].
  - destruct ao; [destruct l|]; eexists _, _; by constructor.
  - exists None. eexists. apply (pump_forward _ _ _ _ _ (λ _ _, if bo then Ret tt else Fail errNetClosed)). by destruct bo.
Qed.
Lemma ws_progress mu eu md ed s : relay_inv mu eu md ed s → ¬ ws_over s → ∃ s', ws_step s s'.
Proof.
  intros [_ _ Ho Hsrc _] Hn. destruct s as [p q l x dp sp]. cbn in *.
  destruct (decide (p_pc p = PDone)) as [Hp|Hp]; [|destruct (pump_live Send sp dp p Hp) as (o & p' & H); eexists; by apply step_up].
  destruct (decide (p_pc q = PDone)) as [Hq|Hq]; [|destruct (pump_live Receive dp sp q Hq) as (o & q' & H); eexists; by apply step_down].
  destruct x as [e|].
  - destruct dp; [eexists; apply ws_close_dst|]. destruct sp; [eexists; apply ws_close_src|]. destruct Hn. by split_and!.
  - destruct (Ho eq_refl) as (_ & _ & Hch & _). destruct l as [|e l]; [by destruct (Hch eq_refl)|]. eexists. apply ws_return.
Qed.
End PumpProps.

(** C16 (invariant): a WebSocket connection without an interceptor, or with one that only looks; the two goroutines interleave at every read
    and write, writes may fail, and the first error is returned, upon which the connections are closed. What was written
    without an error to each side is at all times a subsequence of the messages of the other side, unchanged and in order; if no
    write to an open connection fails it is a prefix, and, while that side is open, all that was read bar the one message in hand. The
    looking interceptor was shown what was read, bar that message. The error returned is the one that ended a side
    all of whose messages were read and, if no write to an open connection fails, written to the other. Until the handler
    has returned, the connections are closed and the goroutines are gone, something can happen, and this does not go on
    forever. *)
Theorem ws_relay_transparent {Key} (h : mitmHandlerImpl Key) reliable mu eu md ed :
  immutWsIntc h = true ∨ mutWsIntc h = None →
  (∀ s, rtc (ws_step h reliable) (ws_start mu eu md ed) s →
    (∃ k, mu = k ++ pc_hold (p_pc (r_up s)) ++ p_in (r_up s) ∧ ws_out (p_w (r_up s)) `sublist_of` k ∧
       ws_seen (p_w (r_up s)) = (if immutWsIntc h then (λ m, (Send, fst m, snd m)) <$> k else []) ∧
       (reliable = true → ws_out (p_w (r_up s)) `prefix_of` k ∧ (r_dst_open s = true → ws_out (p_w (r_up s)) = k))) ∧
    (∃ k, md = k ++ pc_hold (p_pc (r_down s)) ++ p_in (r_down s) ∧ ws_out (p_w (r_down s)) `sublist_of` k ∧
       ws_seen (p_w (r_down s)) = (if immutWsIntc h then (λ m, (Receive, fst m, snd m)) <$> k else []) ∧
       (reliable = true → ws_out (p_w (r_down s)) `prefix_of` k ∧ (r_src_open s = true → ws_out (p_w (r_down s)) = k))) ∧
    (∀ e, r_ret s = Some e →
       (e = eu ∧ p_in (r_up s) = [] ∧ (reliable = true → ws_out (p_w (r_up s)) = mu)) ∨
       (e = ed ∧ p_in (r_down s) = [] ∧ (reliable = true → ws_out (p_w (r_down s)) = md))) ∧
    (¬ ws_over s → ∃ s', ws_step h reliable s s')) ∧
  (∀ f, f 0%nat = ws_start mu eu md ed → ¬ ∀ i, ws_step h reliable (f i) (f (S i))).
Proof.
  intros Hfn. split.
  - intros s Hr. pose proof (relay_reachable h reliable Hfn _ _ _ _ _ Hr) as HI.
    assert (∀ d l e p, p_pc p = PDone → dealt h reliable d l e true p l → p_in p = [] ∧ (reliable = true → ws_out (p_w p) = l)) as Hall.
    { intros d l e p Hd (Hl & _ & _ & _ & Hrel). rewrite Hd in Hl. cbn in Hl. split; [|intros Hre; by apply (Hrel Hre)].
      apply (f_equal length) in Hl. rewrite length_app in Hl. apply nil_length_inv. lia. }
    split_and!.
    + destruct (ri_up _ _ _ _ _ _ _ HI) as (k & H1 & _ & H3 & H4 & H5). by exists k.
    + destruct (ri_down _ _ _ _ _ _ _ HI) as (k & H1 & _ & H3 & H4 & H5). by exists k.
    + intros e He. destruct (ri_ret _ _ _ _ _ _ _ HI e He) as [(-> & H1 & H2)|(-> & H1 & H2)]; [left|right]; eauto.
    + by eapply ws_progress.
  - intros f _ Hf. apply (no_infinite_run (ws_step h reliable) ws_size (λ _, True) f); [done| |done]. intros s s' _ Hst. split; [done|by eapply ws_step_decreases].
Qed.

(** *** Certificates *)

Section CertProps.
Context {Key C P : Type} `{!CacheOps gostring (Certificate Key) C} `{!CacheLaws gostring (Certificate Key) C} `{!BufferPool P}.
Context (h : mitmHandlerImpl Key) (DialTCP : gostring → option error) (DialSOCKS5 : gostring → gostring → option error).
Context (tls_Client : nat → option gostring → res (list x509)).
Context (CreateCertificate : x509 → x509 → Key → Key → res (list Z)) (AddDate : Z → Z → Z).
Context (now : Z) (serial : res Z) (gen : res Key) (draw : Z).
Abbreviation getServerResponseCert := (getServerResponseCert (C := C) (P := P) h DialTCP DialSOCKS5 tls_Client CreateCertificate AddDate now serial gen draw).

(** A certificate made for the origin's certificate [found]: its names, no CA, signed
    by the handler's CA, with a key of the pool. *)
Definition forged (ca : x509) (caKey : Key) (keys : list Key) (found : x509) (c : Certificate Key) : Prop :=
  ∃ t der, CreateCertificate t ca (c_key c) caKey = Ret der ∧ c_chain c = [der] ∧ c_key c ∈ keys ∧
    IsCA t = false ∧ Subject t = Subject found ∧ DNSNames t = DNSNames found ∧ IPAddresses t = IPAddresses found.
Definition cert_pairs (w : mworld Key C P) : list (gostring * Certificate Key) := pairs (cache_view (mw_certs w)).
Definition mitm_ok (w : mworld Key C P) : Prop := cache_inv (mw_certs w) ∧ pool_ok (mw_keys w).

Lemma useProxyDial_Ret ctx (w w' : mworld Key C P) i : useProxyDial h DialTCP DialSOCKS5 ctx w = (w', Ret i) →
  i = length (mw_dialled w) ∧
  w' = MWorld (mw_certs w) (mw_keys w) (mw_conn w) (mw_dialled w ++ [m_Addr ctx]) (mw_closed w) (mw_a w) (mw_i w).
Proof.
  unfold useProxyDial, dial. destruct (proxyInfo h) as [u|]; [case_decide; [|done]|].
  - destruct (DialSOCKS5 _ _); intros; simplify_eq. done.
  - destruct (DialTCP _); intros; simplify_eq. done.
Qed.

(** Looking a certificate up, keeping one, and taking a key. *)
Lemma pool_Get_cert_Ret host (w w' : mworld Key C P) o : mitm_ok w → pool_Get_cert h now host w = (w', Ret o) →
  mitm_ok w' ∧ mw_keys w' = mw_keys w ∧ mw_dialled w' = mw_dialled w ∧ (∀ p, p ∈ cert_pairs w' → p ∈ cert_pairs w) ∧
  (∀ c, o = Some c → (host, c) ∈ cert_pairs w).
Proof.
  intros [Hi Hk]. unfold pool_Get_cert. destruct (cache_get (certOpts h) host now (mw_certs w)) as [[c ev] r] eqn:E.
  destruct (cache_get_ok _ _ _ _ _ _ _ Hi E) as [Hi' Hg]. intros [= <- Hr].
  split_and!; [by split|done|done|by eapply get_subset|].
  intros x ->. destruct r; simplify_eq. by apply get_Ret_elem in Hg as [? _].
Qed.
Lemma pool_Set_cert_Ret host x (w w' : mworld Key C P) u : (0 < maxSize (certOpts h))%nat → mitm_ok w →
  pool_Set_cert h now host x w = (w', Ret u) →
  mitm_ok w' ∧ mw_keys w' = mw_keys w ∧ mw_dialled w' = mw_dialled w ∧ (∀ p, p ∈ cert_pairs w' → p = (host, x) ∨ p ∈ cert_pairs w).
Proof.
  intros Hm [Hi Hk]. unfold pool_Set_cert. destruct (cache_set (certOpts h) host x now (mw_certs w)) as [[c ev] r] eqn:E.
  destruct (cache_set_ok _ _ _ _ _ _ _ _ Hi E) as [Hi' Hg]. intros [= <- ->].
  destruct (set_subset _ _ _ _ _ _ _ _ Hm Hg) as [_ Hs]. split_and!; [by split|done|done|].
  intros p Hp. destruct (Hs p Hp) as [?|[? _]]; auto.
Qed.
Lemma pool_Get_key_Ret (w w' : mworld Key C P) k : mitm_ok w → pool_Get_key gen draw w = (w', Ret k) →
  mitm_ok w' ∧ k ∈ pk_keys (mw_keys w') ∧ cert_pairs w' = cert_pairs w ∧ mw_dialled w' = mw_dialled w.
Proof.
  intros [Hi Hk]. unfold pool_Get_key. destruct (PriKeyPool_Get gen draw (mw_keys w)) as [p r] eqn:E.
  destruct (PriKeyPool_Get_spec _ _ _ _ _ Hk E) as (Hp & _ & Hr). intros [= <- ->]. by destruct Hr as [? _].
Qed.

(** C13 (safety): the certificate a client is shown. The origin is dialled and its
    certificate is verified for the name the client asked for whenever it asked for
    one; what is shown is either in the pool under the requested host already, or made
    for the certificate the origin has just presented: the same names, not a CA,
    signed by the CA, with a key of the pool; and nothing else enters the pool. *)
Theorem mitm_certificate ca key ctx serverName (w w' : mworld Key C P) dst c :
  caCert h = Some ca → caKey h = Some key → (0 < maxSize (certOpts h))%nat → mitm_ok w →
  getServerResponseCert ctx serverName w = (w', Ret (dst, c)) →
  mitm_ok w' ∧ dst = length (mw_dialled w) ∧ mw_dialled w' = mw_dialled w ++ [m_Addr ctx] ∧
  (∃ peers, tls_Client dst (match serverName with [] => None | n => Some n end) = Ret peers ∧
     ((m_Host ctx, c) ∈ cert_pairs w ∨
      ∃ found, find_cert peers = Some found ∧ forged ca key (pk_keys (mw_keys w')) found c)) ∧
  (∀ p, p ∈ cert_pairs w' → p = (m_Host ctx, c) ∨ p ∈ cert_pairs w).
Proof.
  intros Hca Hkey Hm Hok H. unfold Mitm.getServerResponseCert in H.
  apply bind_inv in H as (w1 & i & [-> Hw1]%useProxyDial_Ret & H).
  apply bind_inv in H as (w2 & peers & Hp & H). unfold mlift in Hp. injection Hp as <- Hp.
  assert (mitm_ok w1 ∧ cert_pairs w1 = cert_pairs w ∧ mw_dialled w1 = mw_dialled w ++ [m_Addr ctx]) as (Hok1 & Hc1 & Hd1) by (by rewrite Hw1).
  clear Hw1. apply bind_inv in H as (w3 & o & Hg & H). destruct (pool_Get_cert_Ret _ _ _ _ Hok1 Hg) as (Hok3 & Hk3 & Hd3 & Hs3 & Ho3).
  rewrite Hc1 in *. destruct o as [x|].
  { injection H as <- <- <-. split_and!; [done|done|congruence| |auto]. exists peers. split; [done|]. left. by apply Ho3. }
  destruct (find_cert peers) as [found|] eqn:Ef; [|done].
  apply bind_inv in H as (w4 & k & Hk & H). destruct (pool_Get_key_Ret _ _ _ Hok3 Hk) as (Hok4 & Hin & Hc4 & Hd4).
  apply bind_inv in H as (w5 & cert & Hgen & H). unfold mlift in Hgen. injection Hgen as <- Hgen. rewrite Hca, Hkey in Hgen.
  apply GenerateCertificate_template in Hgen as (t & der & Hder & -> & HCA & Hsub & Hdns & Hips & _).
  apply bind_inv in H as (w6 & u & Hset & H). destruct (pool_Set_cert_Ret _ _ _ _ _ Hm Hok4 Hset) as (Hok6 & Hk6 & Hd6 & Hs6).
  injection H as <- <- <-. split_and!; [done|done|congruence| |].
  - exists peers. split; [done|]. right. exists found. split; [done|]. exists t, der. rewrite Hk6. by split_and!.
  - intros p Hp6. destruct (Hs6 p Hp6) as [|Hp4]; [by left|]. right. rewrite Hc4 in Hp4. auto.
Qed.

(** A TLS handshake with the origin that fails leaves its connection open. *)
Lemma tls_failure_leaks ctx serverName (w w1 : mworld Key C P) dst e :
  useProxyDial h DialTCP DialSOCKS5 ctx w = (w1, Ret dst) → dst ∉ mw_closed w →
  tls_Client dst (match serverName with [] => None | n => Some n end) = Fail e →
  getServerResponseCert ctx serverName w = (w1, Fail e) ∧ mw_dialled w1 !! dst = Some (m_Addr ctx) ∧ dst ∉ mw_closed w1.
Proof.
  intros Hd Hn Ht. destruct (useProxyDial_Ret _ _ _ _ Hd) as [-> Hw1]. split.
  - unfold Mitm.getServerResponseCert. unfold mbind, M_bind. rewrite Hd. unfold mlift. by rewrite Ht.
  - rewrite Hw1. simpl. split; [|done]. by rewrite lookup_app_r, Nat.sub_diag by lia.
Qed.
End CertProps.

(** *** The exchange *)

Lemma Peek_loop_ok n fuel : ∀ b, br_ok b → (n ≤ bufSize)%nat → (n ≤ length (br_pending b))%nat → (src_size (b_conn b) < fuel)%nat →
  (n ≤ length (b_buf (Peek_loop fuel n b)))%nat ∧ br_pending (Peek_loop fuel n b) = br_pending b ∧ same_conn (b_conn b) (b_conn (Peek_loop fuel n b)).
Proof.
  induction fuel as [|f IH]; intros b Hb Hn Hp Hf; [lia|]. cbn [Peek_loop].
  destruct (Nat.leb_spec n (length (b_buf b))) as [Hle|Hgt]; [done|]. rewrite (bo_err _ Hb).
  destruct (fill_ok b Hb) as (d & Hd & Hbuf & Hpd & Hok & Hs & Hsz & _); [lia| |].
  { intros E. unfold br_pending in Hp. rewrite E, app_nil_r in Hp. lia. }
  assert (br_pending (fill b) = br_pending b) as Hpe by (unfold br_pending; rewrite Hbuf, <-app_assoc, <-Hpd; done).
  destruct (IH (fill b) Hok Hn) as (H1 & H2 & H3); [by rewrite Hpe|lia|]. split_and!; [done|congruence|by etrans].
Qed.
Lemma Peek_ok n c : full_chunks c → (n ≤ bufSize)%nat → (n ≤ length (pending c))%nat →
  ∃ b, Peek n c = (b, Ret (take n (pending c))) ∧ b_buf b ++ pending (b_conn b) = pending c ∧ same_conn c (b_conn b).
Proof.
  intros Hf Hn Hl. destruct (Peek_loop_ok n (S (S (src_size c))) (NewReader c)) as (H1 & H2 & H3).
  - by split; simpl; [|lia|].
  - done.
  - done.
  - cbn [NewReader b_conn]. lia.
  - exists (Peek_loop (S (S (src_size c))) n (NewReader c)). unfold Peek. cbv zeta. apply Nat.leb_le in H1 as Hle. rewrite Hle.
    split_and!; [|exact H2|exact H3]. f_equal. f_equal. change (pending c) with (br_pending (NewReader c)). rewrite <-H2.
    unfold br_pending. by rewrite take_app_le.
Qed.
(** However the first six bytes arrive, they are seen, and the connection still
    delivers them. *)
Lemma peek6_ok {Key C P} (w : mworld Key C P) : full_chunks (mw_conn w) → (6 ≤ length (pending (mw_conn w)))%nat →
  ∃ c, peek6 w = (set_conn c w, Ret (take 6 (pending (mw_conn w)))) ∧ pending c = pending (mw_conn w) ∧ same_conn (mw_conn w) c.
Proof.
  intros Hf Hl. unfold peek6. destruct (Peek_ok 6 (mw_conn w) Hf) as (b & E & Hp & Hs); [pose proof bufSize_16; lia|done|].
  rewrite E. eexists. split; [reflexivity|]. destruct (b_buf b); by split.
Qed.

(** The addons of the package as an interceptor. *)
Definition addon_fn (lists : addonLists) (fuel : nat) (now : Z) (mem : memory) : mutHTTP :=
  λ Invoke req w, default (w, Panic) (MutableHTTPInterceptor lists fuel now mem Invoke req w).

Section ExchangeProps.
Context {Key C P : Type} `{!CacheOps gostring (Certificate Key) C} `{!BufferPool P}.
Context (h : mitmHandlerImpl Key) (RoundTrip : nat → HReq → list Z → res HRsp) (Response_bytes : memory → HRsp → list Z).
Context (fuel : nat) (tnow : Z) (mem : memory).
Hypothesis Hfuel : (4 ≤ fuel)%nat.
Hypothesis Himm : immutHttpIntc h = false.
Hypothesis Hmut : mutHttpIntc h = Some (addon_fn default_addons fuel tnow mem).

Lemma handleCommonHTTP_ok ctx dst req d rsp (w : mworld Key C P) :
  m_Request ctx = Some req → plain_body (q_Body req) d → RoundTrip dst (sent_request req d) d = Ret rsp →
  is_nil (p_Body rsp) = false → c_wbudget (mw_conn w) = None →
  ∃ w', handleCommonHTTP h RoundTrip Response_bytes ctx dst w = (w', Ret tt) ∧
    c_out (mw_conn w') = c_out (mw_conn w) ++ Response_bytes (i_mem (mw_i w)) rsp ∧
    w_sent (mw_a w') = w_sent (mw_a w) ++ [(sent_request req d, d)] ∧ mw_closed w' = mw_closed w ∧ mw_dialled w' = mw_dialled w.
Proof.
  intros Hr Hb HR Hnil Hw. unfold handleCommonHTTP. rewrite Hr. unfold mbind, M_bind, invoke_http. rewrite Himm, Hmut. unfold addon_fn.
  rewrite (default_http_ok fuel tnow mem (RoundTrip dst) req (mw_a w) d rsp) by done. cbn [default from_option id]. rewrite Hnil.
  unfold write_response, conn_write_. cbn [mw_conn set_a mw_i]. rewrite conn_write_unbounded by done.
  eexists. split; [reflexivity|]. done.
Qed.

(** Forging a certificate does not look at the client's connection. *)
Lemma getServerResponseCert_conn DialTCP DialSOCKS5 tls_Client Create AddDate now serial gen draw ctx name (w w2 : mworld Key C P) r c :
  getServerResponseCert h DialTCP DialSOCKS5 tls_Client Create AddDate now serial gen draw ctx name w = (w2, r) →
  getServerResponseCert h DialTCP DialSOCKS5 tls_Client Create AddDate now serial gen draw ctx name (set_conn c w) = (set_conn c w2, r) ∧
  mw_i w2 = mw_i w ∧ mw_a w2 = mw_a w ∧ mw_closed w2 = mw_closed w.
Proof.
  unfold getServerResponseCert. unfold mbind, M_bind, useProxyDial, dial, mlift, pool_Get_cert, pool_Set_cert, pool_Get_key, mfail, mret, M_ret.
  cbn [set_conn mw_certs mw_keys mw_dialled mw_closed mw_a mw_i].
  repeat (case_match; simplify_eq/=; try done; try (by intros [= <- <-])).
Qed.

Context (DialTCP : gostring → option error) (DialSOCKS5 : gostring → gostring → option error).
Context (tls_Client : nat → option gostring → res (list x509)).
Context (CreateCertificate : x509 → x509 → Key → Key → res (list Z)) (AddDate : Z → Z → Z).
Context (now : Z) (serial : res Z) (gen : res Key) (draw : Z).
Context (mk_req : Request → breader → HReq) (client_hello : conn → res gostring) (server_finish : conn → Certificate Key → res conn).
Context (Upgrade : HReq → M conn unit) (WSDial : nat → HReq → res unit) (first_err : error).
Abbreviation HandleMIMT := (HandleMIMT (C := C) (P := P) h DialTCP DialSOCKS5 tls_Client CreateCertificate AddDate now serial gen draw
  RoundTrip Response_bytes mk_req client_hello server_finish Upgrade WSDial first_err).
Abbreviation getCert := (getServerResponseCert (C := C) (P := P) h DialTCP DialSOCKS5 tls_Client CreateCertificate AddDate now serial gen draw).

(** C12 (functional): an intercepted HTTPS request, with the interceptor of the default addons. Take a tunnel whose first six bytes, in
    whatever non-empty pieces, begin a TLS client hello; for which [getServerResponseCert] connects to the origin and gives a
    certificate (the pooled one of the host of the CONNECT if there is one, see C13); with which the TLS handshake succeeds; and
    over which comes a request that does not ask for an upgrade, with a body (or none) that is read without error. If the origin
    answers the request with that body, rewritten as the addons do ([sent_request]), with a response that has a body, then the
    request is sent once with that data; the origin's response as it is is what is written to the client, to whom
    writes do not fail; and the origin's connection is closed. *)
Theorem mitm_https_exchange ctx (w w2 : mworld Key C P) name dst cert c b r d rsp :
  m_ConnMethod ctx = true → m_Request ctx = None →
  full_chunks (mw_conn w) → (6 ≤ length (pending (mw_conn w)))%nat → isTLSRequest (take 6 (pending (mw_conn w))) = true →
  (∀ c', pending c' = pending (mw_conn w) → client_hello c' = Ret name ∧ server_finish c' cert = Ret c) →
  getCert ctx name w = (w2, Ret (dst, cert)) →
  ReadRequest (NewReader c) = (b, Ret r) → wants_upgrade r = false → c_wbudget (b_conn b) = None →
  plain_body (q_Body (mk_req r b)) d → RoundTrip dst (sent_request (mk_req r b) d) d = Ret rsp → is_nil (p_Body rsp) = false →
  ∃ w', HandleMIMT ctx w = (w', Ret tt) ∧
    c_out (mw_conn w') = c_out (b_conn b) ++ Response_bytes (i_mem (mw_i w)) rsp ∧
    w_sent (mw_a w') = w_sent (mw_a w) ++ [(sent_request (mk_req r b) d, d)] ∧ mw_closed w' = dst :: mw_closed w.
Proof.
  intros Hm Hq Hf Hl Htls Hhello Hget Hread Hup Hwb Hbody HR Hnil. unfold Mitm.HandleMIMT. rewrite Hm. unfold handleConnectMethod.
  destruct (peek6_ok w Hf Hl) as (c1 & E1 & Hp1 & _). unfold mbind at 1, M_bind at 1. rewrite E1.
  rewrite length_take, (proj2 (Nat.ltb_ge _ _)), Htls by lia.
  destruct (Hhello c1 Hp1) as [Hh Hfin]. destruct (getServerResponseCert_conn _ _ _ _ _ _ _ _ _ _ _ _ _ _ c1 Hget) as (Hget1 & Hi & Ha & Hc).
  unfold accept_tls, mlift, keep_conn. unfold mbind, M_bind. cbn [mw_conn set_conn]. rewrite Hh, Hget1. cbn [mw_conn set_conn]. rewrite Hfin.
  unfold closing, serve_tunnel, readHTTPRequestForConnect, mbind, M_bind. rewrite Hm, Hq. cbn [mw_conn set_conn]. rewrite Hread, Hup.
  destruct (handleCommonHTTP_ok (with_request ctx (mk_req r b)) dst (mk_req r b) d rsp (set_conn (b_conn b) (set_conn c (set_conn c1 w2))))
    as (w' & E & Ho & Hs & Hcl & _); [done..|].
  rewrite E. eexists. split; [reflexivity|]. cbn [close_origin mw_conn mw_a mw_closed]. rewrite Ho, Hs, Hcl. cbn. by rewrite Hi, Ha, Hc.
Qed.

(** An intercepted plain request: one exchange with the origin, which is closed. *)
Lemma mitm_http_exchange ctx (w : mworld Key C P) req d rsp :
  m_ConnMethod ctx = false → m_Request ctx = Some req → DialTCP (m_Addr ctx) = None → plain_body (q_Body req) d →
  RoundTrip (length (mw_dialled w)) (sent_request req d) d = Ret rsp → is_nil (p_Body rsp) = false → c_wbudget (mw_conn w) = None →
  ∃ w', HandleMIMT ctx w = (w', Ret tt) ∧
    c_out (mw_conn w') = c_out (mw_conn w) ++ Response_bytes (i_mem (mw_i w)) rsp ∧
    w_sent (mw_a w') = w_sent (mw_a w) ++ [(sent_request req d, d)] ∧
    mw_dialled w' = mw_dialled w ++ [m_Addr ctx] ∧ mw_closed w' = length (mw_dialled w) :: mw_closed w.
Proof.
  intros Hm Hq Hd Hb HR Hnil Hw. unfold Mitm.HandleMIMT. rewrite Hm. unfold mbind, M_bind, dial. rewrite Hd.
  set (w1 := MWorld _ _ _ _ _ _ _).
  destruct (handleCommonHTTP_ok ctx (length (mw_dialled w)) req d rsp w1) as (w' & E & Ho & Hs & Hcl & Hdl); [done..|].
  unfold closing. rewrite E. eexists. split; [reflexivity|]. cbn [close_origin mw_conn mw_a mw_closed mw_dialled].
  by rewrite Ho, Hs, Hcl, Hdl.
Qed.
End ExchangeProps.

(** *** The rules *)

(** With interception the HTTP front end serves a request whatever the rules say: the
    same outcome for every ruler, which is left as it is. *)
Lemma mitm_http_ignores_rules LookupHost db_Country caFile ca_response httpAuth r c ru1 ru2 :
  let '(w1, x1) := readRequest LookupHost db_Country (Some caFile) ca_response httpAuth r (HWorld c ru1) in
  let '(w2, x2) := readRequest LookupHost db_Country (Some caFile) ca_response httpAuth r (HWorld c ru2) in
  x1 = x2 ∧ h_conn w1 = h_conn w2 ∧ h_ruler w1 = ru1 ∧ h_ruler w2 = ru2.
Proof.
  unfold readRequest, handleHomeAccess, mbind, M_bind, mlift, h_write, mfail, mret, M_ret.
  destruct (home_access r); cbn [negb]; [destruct (_ && _); [destruct caFile|]; by split_and!|].
  destruct (parseHostPort r) as [[host port]|e|]; [|by split_and!..]. cbn [negb]. destruct (credentials r) as [[u p]|]; [|by split_and!].
  destruct (match httpAuth with Some a => negb (Validate a u p) | None => false end); [by split_and!|].
  destruct (bool_decide (Method r = str "CONNECT")); by split_and!.
Qed.

(** *** Witnesses *)

Definition demo_opt : MimtOption := MkMitm true [] [] [] 0 0 0.
Definition demo_ca : x509 := X509 1 (str "CA") 0 9 0 [] true [] [].
Definition demo_leaf : x509 := X509 2 (str "a.b") 0 9 0 [] false [str "a.b"] [].
Definition demo_handler : mitmHandlerImpl Z :=
  MkHandler demo_opt (Some demo_ca) (Some 7) None (NewCertPool 0 0 0) false (Some (addon_fn default_addons 4 0 ∅)) true None.
(** A client hello in two pieces; what the handshake decrypts to is the request. *)
Definition demo_hello : conn := Conn [[22; 3; 1; 0]; [5; 1; 0; 0; 0]] io_EOF [] None io_EOF.
Definition demo_plain : conn := Conn [str "GET / HTTP/1.1" ++ crlf ++ str "Host: a.b" ++ crlf ++ crlf] io_EOF [] None io_EOF.
Definition demo_mworld : mworld Z (LruCache gostring (Certificate Z)) lifo :=
  MWorld cache_new (NewPriKeyPool 10) demo_hello [] [] demo_aworld demo_world.
Definition demo_ctx : MReqContext := MkMReq true (str "a.b") (str "443") (str "a.b:443") None.
Definition demo_mk (r : Request) (b : breader) : HReq := MkReq (Method r) (RequestURI r) [] (str "HTTP/1.1") (ReqHeader r) (ReqHost r) NoBody.
Definition demo_create (t p : x509) (pub priv : Z) : res (list Z) := Ret [Z.of_nat (length (Subject t)); pub; priv].
Definition demo_tls (i : nat) (n : option gostring) : res (list x509) := Ret [demo_leaf; demo_ca].
Definition demo_get : M (mworld Z (LruCache gostring (Certificate Z)) lifo) (nat * Certificate Z) :=
  getServerResponseCert demo_handler (λ _, None) (λ _ _, None) demo_tls demo_create (λ t n, t + n) 5 (Ret 3) (Ret 11) 0 demo_ctx (str "a.b").
Definition demo_cert : Certificate Z := MkCertificate [[3; 11; 7]] 11.

Lemma mitm_certificate_witness :
  mw_dialled (fst (demo_get demo_mworld)) = [str "a.b:443"] ∧
  ∃ peers, demo_tls 0 (Some (str "a.b")) = Ret peers ∧
    ((m_Host demo_ctx, demo_cert) ∈ cert_pairs demo_mworld ∨
     ∃ found, find_cert peers = Some found ∧ forged demo_create demo_ca 7 (pk_keys (mw_keys (fst (demo_get demo_mworld)))) found demo_cert).
Proof.
  destruct (mitm_certificate demo_handler (λ _, None) (λ _ _, None) demo_tls demo_create (λ t n, t + n) 5 (Ret 3) (Ret 11) 0 demo_ca 7
    demo_ctx (str "a.b") demo_mworld (fst (demo_get demo_mworld)) 0%nat demo_cert) as (_ & _ & Hd & Hp & _).
  - reflexivity.
  - reflexivity.
  - apply NewCertPool_ok.
  - split; [apply cache_new_ok|split; simpl; lia].
  - vm_compute. reflexivity.
  - split; [exact Hd|exact Hp].
Defined.

Lemma mitm_https_exchange_witness :
  ∃ w', HandleMIMT demo_handler (λ _, None) (λ _ _, None) demo_tls demo_create (λ t n, t + n) 5 (Ret 3) (Ret 11) 0
          (λ _ _ _, Ret (demo_rsp (str "hi"))) (λ m p, fst (read_all m (p_Body p))) demo_mk (λ _, Ret (str "a.b")) (λ _ _, Ret demo_plain)
          (λ _ c, (c, Ret tt)) (λ _ _, Ret tt) io_EOF demo_ctx demo_mworld = (w', Ret tt) ∧
    c_out (mw_conn w') = str "hi" ∧ mw_closed w' = [0%nat].
Proof.
  destruct (mitm_https_exchange demo_handler (λ _ _ _, Ret (demo_rsp (str "hi"))) (λ m p, fst (read_all m (p_Body p))) 4 0 ∅
    (le_n 4) eq_refl eq_refl (λ _, None) (λ _ _, None) demo_tls demo_create (λ t n, t + n) 5 (Ret 3) (Ret 11) 0
    demo_mk (λ _, Ret (str "a.b")) (λ _ _, Ret demo_plain) (λ _ c, (c, Ret tt)) (λ _ _, Ret tt) io_EOF
    demo_ctx demo_mworld (fst (demo_get demo_mworld)) (str "a.b") 0%nat demo_cert demo_plain
    (fst (ReadRequest (NewReader demo_plain)))
    (MkRequest (str "GET") (str "/") (MkURL [] [] None [] (str "/")) ∅ (str "a.b") 0) [] (demo_rsp (str "hi"))) as (w' & E & Ho & _ & Hc).
  - reflexivity.
  - reflexivity.
  - repeat constructor; discriminate.
  - vm_compute. lia.
  - reflexivity.
  - intros; split; reflexivity.
  - vm_compute. reflexivity.
  - vm_compute. reflexivity.
  - reflexivity.
  - vm_compute. reflexivity.
  - reflexivity.
  - reflexivity.
  - reflexivity.
  - exists w'. split; [exact E|]. split; [rewrite Ho; vm_compute; reflexivity|rewrite Hc; vm_compute; reflexivity].
Defined.

(** The first message has been passed on and the second is in hand. *)
Lemma ws_relay_transparent_witness :
  let s := WSRelay (Pump [] io_EOF (PHold (2, [])) (WSWorld [(1, [104])] [(Send, 1, [104])])) (Pump [] io_EOF PRead (WSWorld [] [])) [] None true true in
  rtc (ws_step demo_handler true) (ws_start [(1, [104]); (2, [])] io_EOF [] io_EOF) s ∧ ∃ s', ws_step demo_handler true s s'.
Proof.
  intros s. assert (rtc (ws_step demo_handler true) (ws_start [(1, [104]); (2, [])] io_EOF [] io_EOF) s) as Hr.
  { eapply rtc_l; [eapply (step_up _ _ _ None _ _ []); by eapply pump_read|].
    eapply rtc_l; [eapply (step_up _ _ _ None _ _ []); by eapply (pump_forward _ _ _ _ _ (λ _ _, Ret tt))|].
    eapply rtc_l; [eapply (step_up _ _ _ None _ _ []); by eapply pump_read|]. constructor. }
  split; [exact Hr|].
  apply (proj1 (ws_relay_transparent demo_handler true [(1, [104]); (2, [])] io_EOF [] io_EOF ltac:(by left)) s Hr).
  by intros (H & _).
Defined.
