(* ===== verification/DnsClient.v ===== *)
(** * Package resolver: asking one nameserver, and sharing the answer.

    Models [src/resolver/dns_client.go]: [ExchangeContext], the exchange over HTTPS with the
    query it sends and the loop that reads the reply into the pooled buffer;
    [NewDnsServer] of [src/resolver/dns_server.go]; and the sharing of simultaneous lookups by
    [lookupIPWithMsg] of [src/resolver/resolver.go] as a step relation over the callers, their
    contexts and the one exchange of a question. DNS messages and their wire format, the
    HTTP client and plain DNS exchanges are library code and parameters. *)
From S2P Require Import Prelude GoIO GoNet GoURL GoBufio GoHTTP Resolver.
Local Open Scope Z_scope.

Definition dohMimeType : gostring := str "application/dns-message".
(** [bufferpool.NewBufferPool(4096 * 2)]. *)
Definition dohBufferSize : nat := Z.to_nat 8192.

(** ** The query *)

(** [base64.RawURLEncoding]. *)
Definition url_char (c : Z) : Z := if c =? 43 then 45 else if c =? 47 then 95 else c.
Definition RawURLEncoding (l : list Z) : list Z := url_char <$> filter (λ c, c ≠ 61) (b64_encode l).
(** What a DoH server does with it. *)
Definition std_char (c : Z) : Z := if c =? 45 then 43 else if c =? 95 then 47 else c.
Definition RawURLDecoding (s : list Z) : option (list Z) :=
  b64_decode ((std_char <$> s) ++ replicate (Z.to_nat (- Z.of_nat (length s) mod 4)) 61).

(** [values.Encode()] of the one parameter; the alphabet needs no escaping. *)
Definition doh_query (msg : list Z) : gostring := str "dns=" ++ RawURLEncoding msg.

(** ** The reply *)

(** [readBody]: reads into what is left of the buffer until an error. [None]: the fuel
    is used up. *)
Fixpoint readBody (fuel : nat) (size : nat) (acc : list Z) (c : conn) : option (conn * (list Z * option error)) :=
  match fuel with
  | O => None
  | S f =>
      match conn_read (size - length acc) c with
      | (c1, Ret d) => readBody f size (acc ++ d) c1
      | (c1, Fail e) => Some (c1, (acc, if decide (e = io_EOF) then None else Some e))
      | (c1, Panic) => None
      end
  end.

Definition errStatus := errNew "dns: server returned HTTP error".
Definition errContentType := errNew "dns: unexpected Content-Type".

Section Client.
Context {Msg : Type}.
(** [PackBuffer], and what [Unpack] leaves in the message, whether or not it fails. *)
Context (Pack : Msg → res (list Z)) (Unpack : list Z → Msg) (Questions : Msg → list gostring).
(** The HTTP client: a request gives a status, a content type and a body. [rq_query] is
    the query put in the place of the address's own. *)
Record httpReply := HttpReply { hr_status : Z; hr_type : gostring; hr_body : conn }.
Record httpReq := HttpReq { rq_method : gostring; rq_addr : gostring; rq_query : option gostring; rq_body : option (list Z) }.
Context (http_Do : httpReq → res httpReply) (dns_Exchange : DnsClient → Msg → res Msg).

(** POST sends the message as the body, any other method as the query. *)
Definition doh_request (c : DnsClient) (msg : list Z) : httpReq :=
  if decide (dc_method c = str "POST") then HttpReq (dc_method c) (dc_addr c) None (Some msg)
  else HttpReq (dc_method c) (dc_addr c) (Some (doh_query msg)) None.

Definition exchangeDoH (fuel : nat) (c : DnsClient) (request : Msg) : option (res Msg) :=
  match Pack request with
  | Fail e => Some (Fail e)
  | Panic => Some Panic
  | Ret msg =>
      match http_Do (doh_request c msg) with
      | Fail e => Some (Fail e)
      | Panic => Some Panic
      | Ret rsp =>
          if negb (hr_status rsp =? 200) then Some (Fail errStatus) else
          if negb (bool_decide (hr_type rsp = dohMimeType)) then Some (Fail errContentType) else
          match readBody fuel dohBufferSize [] (hr_body rsp) with
          | None => None
          | Some (_, (_, Some e)) => Some (Fail e)
          | Some (_, (data, None)) => Some (Ret (Unpack data))
          end
      end
  end.

(** [ExchangeContext]: the first question is read for the log. *)
Definition ExchangeContext (fuel : nat) (c : DnsClient) (request : Msg) : option (res Msg) :=
  match Questions request with
  | [] => Some Panic
  | _ => if decide (dc_net c = str "https") then exchangeDoH fuel c request else Some (dns_Exchange c request)
  end.
End Client.

(** [NewDnsServer]: the address it listens on and the port. *)
Record DnsServer := MkDnsServer { ds_Addr : gostring; ds_Port : Z; ds_UDPSize : Z }.
Definition NewDnsServer (addr : gostring) : DnsServer :=
  let p := match SplitHostPort addr with inl (_, x :: r) => x :: r | _ => str "53" end in
  MkDnsServer addr (fst (parse_uint 16 p)) 4096.
Definition LocalAddress (s : DnsServer) : gostring := ds_Addr s.

(** ** Properties of the exchange *)

(** The body fits: everything is read, however it arrives. *)
Lemma readBody_ok fuel size : ∀ acc c, (length acc + length (pending c) ≤ size)%nat → c_rerr c = io_EOF → (src_size c < fuel)%nat →
  full_chunks c →
  ∃ c', readBody fuel size acc c = Some (c', (acc ++ pending c, None)).
Proof.
  induction fuel as [|f IH]; intros acc c Hl He Hf Hch; [lia|]. cbn [readBody].
  destruct (conn_read (size - length acc) c) as [c1 [d|e|]] eqn:E.
  - destruct (conn_read_pending _ _ _ _ E) as [Hp Hd].
    assert (0 < size - length acc)%nat as Hpos.
    { unfold conn_read in E. destruct (c_in c) as [|ch rest] eqn:Ec; [done|]. unfold full_chunks in Hch. rewrite Ec in Hch.
      apply Forall_cons in Hch as [Hne _]. destruct ch as [|x ch]; [done|]. unfold pending in Hl. rewrite Ec in Hl. simpl in Hl. lia. }
    pose proof (conn_read_progress _ _ _ _ Hpos E) as Hpr. pose proof (conn_read_rerr _ _ _ _ E) as Hre.
    destruct (conn_read_full (size - length acc) c) as (c2 & d2 & E2 & _ & _ & _ & Hf2 & _); [done|done| |].
    { unfold conn_read in E. destruct (c_in c) as [|ch rest] eqn:Ec; [done|]. unfold full_chunks in Hch. rewrite Ec in Hch.
      apply Forall_cons in Hch as [Hne _]. unfold pending. rewrite Ec. by destruct ch. }
    rewrite E in E2. injection E2 as <- <-.
    destruct (IH (acc ++ d) c1) as [c' E']; [rewrite length_app, Hp in *; rewrite length_app in Hl; lia|congruence|lia|done|].
    exists c'. rewrite E', Hp, app_assoc. done.
  - apply conn_read_Fail in E as (-> & Hin & ->). exists c. unfold pending. rewrite Hin, He, decide_True by done. by rewrite app_nil_r.
  - by apply conn_read_nopanic in E.
Qed.

(** It does not fit: once the buffer is full every read asks for nothing and gets it. *)
Lemma readBody_full fuel size acc c : (size ≤ length acc)%nat → pending c ≠ [] → full_chunks c → readBody fuel size acc c = None.
Proof.
  intros Hl Hp Hf. induction fuel as [|f IH]; [done|]. cbn [readBody]. replace (size - length acc)%nat with 0%nat by lia.
  unfold conn_read. destruct (c_in c) as [|ch rest] eqn:Ec; [unfold pending in Hp; by rewrite Ec in Hp|].
  unfold full_chunks in Hf. rewrite Ec in Hf. apply Forall_cons in Hf as [Hne Hf']. destruct ch as [|x ch]; [done|]. cbn [length Nat.leb drop take].
  rewrite app_nil_r. replace (set_in ((x :: ch) :: rest) c) with c; [done|]. destruct c; simpl in *. by subst.
Qed.
Lemma readBody_hangs fuel size : ∀ acc c, (length acc ≤ size)%nat → (size < length acc + length (pending c))%nat → full_chunks c → readBody fuel size acc c = None.
Proof.
  induction fuel as [|f IH]; intros acc c Ha Hl Hf; [done|].
  destruct (decide (size ≤ length acc)%nat) as [Hle|Hgt].
  { destruct (pending c) eqn:Ep; [simpl in Hl; lia|]. apply readBody_full; [done|by rewrite Ep|done]. }
  cbn [readBody]. destruct (conn_read_full (size - length acc) c) as (c2 & d2 & E2 & _ & Hd & Hp & Hf2 & _); [lia|done| |].
  { intros E. rewrite E in Hl. simpl in Hl. lia. }
  rewrite E2. rewrite Hp, length_app in Hl. apply IH; rewrite ?length_app; [lia|lia|done].
Qed.

(** *** The query can be read back *)

Lemma b64_char_alpha v : 0 ≤ v < 64 → b64_char v ≠ 61 ∧ b64_char v ≠ 45 ∧ b64_char v ≠ 95.
Proof. intros Hv. unfold b64_char. repeat case_match; zify_bool; lia. Qed.
Lemma std_url c : c ≠ 45 → c ≠ 95 → std_char (url_char c) = c.
Proof. intros H1 H2. unfold std_char, url_char. repeat case_match; zify_bool; lia. Qed.

Definition alpha (c : Z) : Prop := c ≠ 61 ∧ c ≠ 45 ∧ c ≠ 95.
(** The encoding is letters of the alphabet and then padding up to a multiple of four. *)
Lemma b64_encode_shape l : wf_bytes l →
  ∃ u k, b64_encode l = u ++ replicate k 61 ∧ Forall alpha u ∧ (k < 4)%nat ∧ (Z.of_nat (length u) + Z.of_nat k) mod 4 = 0.
Proof.
  revert l. fix IH 1. intros l Hw. unfold wf_bytes in Hw. destruct l as [|a [|b [|c r]]]; cbn [b64_encode]; rewrite ?Forall_cons in Hw.
  - exists [], 0%nat. by split_and!; [|constructor|lia|].
  - destruct Hw as [Ha _]. destruct (b64_groups a a a Ha Ha Ha) as (-> & _ & _ & _ & -> & _).
    exists [b64_char (a / 4); b64_char (a mod 4 * 16)], 2%nat. unfold is_byte in Ha.
    split_and!; [done| |lia|done]. repeat constructor; apply b64_char_alpha; dlia.
  - destruct Hw as (Ha & Hb & _). destruct (b64_groups a b b Ha Hb Hb) as (-> & -> & _ & _ & _ & ->).
    eexists [_; _; _], 1%nat. unfold is_byte in *. split_and!; [done| |lia|done]. repeat constructor; apply b64_char_alpha; dlia.
  - destruct Hw as (Ha & Hb & Hc & Hr). destruct (b64_groups a b c Ha Hb Hc) as (-> & -> & -> & -> & _).
    destruct (IH r Hr) as (u & k & -> & Hu & Hk & Hm). unfold is_byte in *.
    eexists (_ :: _ :: _ :: _ :: u), k. split_and!; [done| |done|].
    + repeat (constructor; [apply b64_char_alpha; dlia|]). done.
    + cbn [length]. rewrite <-Hm. rewrite <-(Z_mod_plus_full (Z.of_nat (length u) + Z.of_nat k) 1 4). f_equal. lia.
Qed.

Lemma RawURL_roundtrip l : wf_bytes l → RawURLDecoding (RawURLEncoding l) = Some l.
Proof.
  intros Hw. rewrite <-(b64_decode_encode l Hw). unfold RawURLDecoding, RawURLEncoding.
  destruct (b64_encode_shape l Hw) as (u & k & -> & Hu & Hk & Hm). f_equal.
  assert (filter (λ c, c ≠ 61) (u ++ replicate k 61) = u) as ->.
  { rewrite filter_app. assert (filter (λ c, c ≠ 61) (replicate k 61) = []) as ->.
    { clear. induction k; [done|]. cbn [replicate]. by rewrite filter_cons_False by tauto. }
    rewrite app_nil_r. clear -Hu. induction Hu as [|c u [Hc _] _ IH]; [done|]. by rewrite filter_cons_True, IH by done. }
  f_equal.
  - clear -Hu. induction Hu as [|c u (_ & H1 & H2) _ IH]; [done|]. simpl. f_equal; [by apply std_url|exact IH].
  - rewrite length_fmap. f_equal. apply Nat2Z.inj. rewrite Z2Nat.id by (apply Z.mod_pos_bound; lia).
    apply Z.mod_divide in Hm as [q Hq]; [|done]. replace (- Z.of_nat (length u)) with (Z.of_nat k + (- q) * 4) by lia.
    rewrite Z_mod_plus_full, Z.mod_small by lia. done.
Qed.

(** An exchange over HTTPS. The request carries the packed message so
    that the server can decode it, and a reply with status 200 and the right type
    whose body fits the buffer, in whatever pieces it arrives, is handed to the
    decoder whole; with any other status or type the exchange fails. *)
Theorem doh_exchange {Msg} (Pack : Msg → res (list Z)) Unpack http_Do c request msg rsp fuel :
  Pack request = Ret msg → wf_bytes msg → http_Do (doh_request c msg) = Ret rsp →
  full_chunks (hr_body rsp) → c_rerr (hr_body rsp) = io_EOF → (length (pending (hr_body rsp)) ≤ dohBufferSize)%nat →
  (src_size (hr_body rsp) < fuel)%nat →
  match rq_query (doh_request c msg) with Some q => RawURLDecoding (drop 4 q) = Some msg | None => rq_body (doh_request c msg) = Some msg end ∧
  exchangeDoH Pack Unpack http_Do fuel c request =
    Some (if negb (hr_status rsp =? 200) then Fail errStatus
          else if negb (bool_decide (hr_type rsp = dohMimeType)) then Fail errContentType
          else Ret (Unpack (pending (hr_body rsp)))).
Proof.
  intros Hp Hw Hg Hf He Hl Hfu. split; [unfold doh_request; case_decide; [done|]; by apply RawURL_roundtrip|]. unfold exchangeDoH. rewrite Hp, Hg.
  destruct (negb (hr_status rsp =? 200)); [done|]. destruct (negb _); [done|].
  destruct (readBody_ok fuel dohBufferSize [] (hr_body rsp)) as [c' ->]; done.
Qed.

(** A longer reply never ends the loop: the client's goroutine spins for good. *)
Lemma doh_large_reply_hangs {Msg} (Pack : Msg → res (list Z)) Unpack http_Do c request msg rsp fuel :
  Pack request = Ret msg → http_Do (doh_request c msg) = Ret rsp → hr_status rsp = 200 → hr_type rsp = dohMimeType →
  full_chunks (hr_body rsp) → (dohBufferSize < length (pending (hr_body rsp)))%nat →
  exchangeDoH Pack Unpack http_Do fuel c request = None.
Proof.
  intros Hp Hg Hs Ht Hf Hl. unfold exchangeDoH. rewrite Hp, Hg, Hs, Ht. rewrite bool_decide_true by done. cbn [Z.eqb Pos.eqb negb].
  rewrite readBody_hangs; [done|simpl; lia|done|done].
Qed.

Definition demo_doh (n : nat) : httpReply := HttpReply 200 dohMimeType (Conn [replicate n 1; [2]] io_EOF [] None io_EOF).
Lemma doh_exchange_witness :
  exchangeDoH (Msg := list Z) (λ m, Ret m) id (λ _, Ret (demo_doh 3)) 99 (MkDnsClient (str "GET") [] (str "https://d/q") (str "https")) [7; 200; 9]
    = Some (Ret [1; 1; 1; 2]).
Proof.
  refine (proj2 (doh_exchange (Msg := list Z) (λ m, Ret m) id (λ _, Ret (demo_doh 3)) (MkDnsClient (str "GET") [] (str "https://d/q") (str "https"))
    [7; 200; 9] [7; 200; 9] (demo_doh 3) 99 eq_refl _ eq_refl _ eq_refl _ _)).
  - repeat constructor; unfold is_byte; lia.
  - repeat constructor; discriminate.
  - vm_compute. lia.
  - vm_compute. lia.
Defined.

(** ** Sharing a lookup: [lookupIPWithMsg]

    Callers with the same question and one [singleflight] group: a caller starts the
    exchange, with a context made from its own, unless one is under way, and then
    waits for the result or for its context to end. Most lookups of the program have
    [context.Background], which never ends ([c_bg]). *)
Definition errCanceled := errNew "context canceled".
Section Shared.
Context {Msg : Type}.
(** The possible outcomes of an exchange whose context lives. *)
Context (outcome : res Msg → Prop).

Inductive cpc := CIdle | CWaiting | CGot (r : res Msg) | CDone (r : res Msg).
Record caller := Caller { c_pc : cpc; c_ended : bool; c_bg : bool }.
(** [s_call]: whose exchange is under way. *)
Record shared := Shared { s_callers : list caller; s_call : option nat }.

(** The result goes to everybody who waits. *)
Definition deliver (r : res Msg) (c : caller) : caller :=
  match c_pc c with CWaiting => Caller (CGot r) (c_ended c) (c_bg c) | _ => c end.
Definition ended_at (l : list caller) (i : nat) : bool := match l !! i with Some c => c_ended c | None => false end.

Inductive lstep : shared → shared → Prop :=
| l_join l i e b o : l !! i = Some (Caller CIdle e b) →
    lstep (Shared l o) (Shared (<[i := Caller CWaiting e b]> l) (match o with None => Some i | _ => o end))
| l_end l i p o : l !! i = Some (Caller p false false) → lstep (Shared l o) (Shared (<[i := Caller p true false]> l) o)
| l_giveup l i p b o : l !! i = Some (Caller p true b) → p = CWaiting ∨ (∃ r, p = CGot r) →
    lstep (Shared l o) (Shared (<[i := Caller (CDone (Fail errCanceled)) true b]> l) o)
(** with its context ended the exchange fails, unless it has succeeded already *)
| l_reply l i r : outcome r ∨ (ended_at l i = true ∧ r = Fail errDnsExchangedFailed) →
    lstep (Shared l (Some i)) (Shared (deliver r <$> l) None)
| l_take l i r e b o : l !! i = Some (Caller (CGot r) e b) → lstep (Shared l o) (Shared (<[i := Caller (CDone r) e b]> l) o).
(** The exchange always comes to an end. *)
Hypothesis Hout : ∃ r, outcome r.
Definition shared0 (bgs : list bool) : shared := Shared (Caller CIdle false <$> bgs) None.

(** A result is an outcome, the error of the caller's own ended context, or what an exchange gives whose context has ended. *)
Definition result_ok (l : list caller) (c : caller) (r : res Msg) : Prop :=
  outcome r ∨ (r = Fail errCanceled ∧ c_ended c = true ∧ c_bg c = false) ∨
  (r = Fail errDnsExchangedFailed ∧ ∃ j c', l !! j = Some c' ∧ c_ended c' = true ∧ c_bg c' = false).
(** Whoever waits, waits for an exchange under way. *)
Record LInv (s : shared) : Prop := {
  li_bg i c : s_callers s !! i = Some c → c_ended c = true → c_bg c = false;
  li_result i c r : s_callers s !! i = Some c → c_pc c = CGot r ∨ c_pc c = CDone r → result_ok (s_callers s) c r;
  li_wait i c : s_callers s !! i = Some c → c_pc c = CWaiting → s_call s ≠ None;
}.

(** Contexts that have ended stay so. *)
Definition ends_kept (l l' : list caller) : Prop :=
  ∀ j c, l !! j = Some c → ∃ c', l' !! j = Some c' ∧ c_bg c' = c_bg c ∧ (c_ended c = true → c_ended c' = true).
Lemma result_kept l l' c c' r : ends_kept l l' → c_bg c' = c_bg c → (c_ended c = true → c_ended c' = true) → result_ok l c r → result_ok l' c' r.
Proof.
  intros Hk Hb He [H|[(-> & H1 & H2)|(-> & j & d & H1 & H2 & H3)]]; [by left|right; left; rewrite Hb; auto|right; right].
  split; [done|]. destruct (Hk j d H1) as (d' & ? & E & ?). exists j, d'. rewrite E. auto.
Qed.
Lemma ends_insert l i c c' : l !! i = Some c → c_bg c' = c_bg c → (c_ended c = true → c_ended c' = true) → ends_kept l (<[i := c']> l).
Proof.
  intros Hi Hb He j d Hj. destruct (decide (j = i)) as [->|Hne].
  - rewrite list_lookup_insert_eq by by eapply lookup_lt_Some. simplify_eq. eauto.
  - rewrite list_lookup_insert_ne by done. eauto.
Qed.
(** A step of one caller, with what it needs of its new state. *)
Lemma insert_inv l o o' i c c' : LInv (Shared l o) → l !! i = Some c → c_bg c' = c_bg c → (c_ended c = true → c_ended c' = true) →
  (c_ended c' = true → c_bg c' = false) → (∀ r, c_pc c' = CGot r ∨ c_pc c' = CDone r → c_pc c = CGot r ∨ c_pc c = CDone r ∨ result_ok (<[i := c']> l) c' r) →
  (c_pc c' = CWaiting → o' ≠ None) → (o ≠ None → o' ≠ None) → LInv (Shared (<[i := c']> l) o').
Proof.
  intros [Hb Hr Hw] Hi Eb Ee He Hres Hwait Ho. pose proof (ends_insert l i c c' Hi Eb Ee) as Hk. cbn in *.
  split; cbn; [intros j d Hj|intros j d Hd Hj|intros j d Hj].
  - apply list_lookup_insert_Some in Hj as [(-> & -> & _)|[Hne Hj]]; [done|by eapply Hb].
  - apply list_lookup_insert_Some in Hj as [(-> & <- & _)|[Hne Hj]]; intros Hpc.
    + destruct (Hres Hd Hpc) as [H|[H|H]]; [| |done]; eapply result_kept; eauto.
    + eapply result_kept; [done|reflexivity|done|by eapply Hr].
  - intros Hpc. apply list_lookup_insert_Some in Hj as [(-> & -> & _)|[Hne Hj]]; [by apply Hwait|]. apply Ho. by eapply Hw.
Qed.
Lemma lstep_inv s s' : lstep s s' → LInv s → LInv s'.
Proof.
  intros Hs HI. destruct Hs as [l i e b o Hi|l i p o Hi|l i p b o Hi Hp|l i r Hx|l i r e b o Hi].
  - eapply insert_inv; [done|done|done|done|exact (li_bg _ HI i _ Hi)|by intros r [?|?]|by destruct o|by destruct o].
  - eapply insert_inv; [done|done|done|done|done|cbn; tauto|exact (li_wait _ HI i _ Hi)|done].
  - pose proof (li_bg _ HI i _ Hi eq_refl) as Hb. cbn in Hb. eapply insert_inv; [done|done|done|done|done| |done|done].
    intros r [?|[= <-]]; [done|]. right; right. right; left. done.
  - destruct HI as [Hb Hr Hw]. cbn in *.
    assert (ends_kept l (deliver r <$> l)) as Hk.
    { intros j c Hj. rewrite list_lookup_fmap, Hj. eexists. split; [done|]. unfold deliver. by destruct (c_pc c). }
    split; cbn; [intros j d|intros j d r'|intros j d]; rewrite list_lookup_fmap; (destruct (l !! j) as [[p e b]|] eqn:Hj; [|done]); intros [= <-]; unfold deliver; cbn.
    + specialize (Hb j _ Hj). by destruct p.
    + intros Hpc. destruct p as [| |r0|r0]; cbn in Hpc.
      * by destruct Hpc.
      * destruct Hpc as [[= <-]|?]; [|done]. destruct Hx as [Hx|[He ->]]; [by left|]. right; right. split; [done|].
        unfold ended_at in He. destruct (l !! i) as [c'|] eqn:Hi; [|done]. destruct (Hk i c' Hi) as (c2 & H2 & H3 & H4). exists i, c2.
        split_and!; [done|auto|]. rewrite H3. by eapply Hb.
      * eapply result_kept; [exact Hk|reflexivity|done|by eapply Hr].
      * eapply result_kept; [exact Hk|reflexivity|done|by eapply Hr].
    + by destruct p.
  - eapply insert_inv; [done|done|done|done|exact (li_bg _ HI i _ Hi)| |done|done]. intros r' [?|[= <-]]; [done|]. by left.
Qed.
Lemma shared_reachable bgs s : rtc lstep (shared0 bgs) s → LInv s.
Proof.
  assert (LInv (shared0 bgs)) as H0.
  { split; cbn; [intros i c|intros i c r|intros i c]; rewrite list_lookup_fmap; (destruct (bgs !! i); [|done]); intros [= <-]; cbn; [done|by intros [?|?]|done]. }
  intros Hs. induction Hs; eauto using lstep_inv.
Qed.

(** Every step brings some caller closer to its return. *)
Definition caller_size (c : caller) : nat := match c_pc c with CIdle => 4 | CWaiting => 2 | CGot _ => 1 | CDone _ => 0 end + Nat.b2n (negb (c_ended c)).
Definition shared_size (s : shared) : nat := sum_list_with caller_size (s_callers s) + match s_call s with Some _ => 1 | None => 0 end.
Lemma size_insert l i c c' : l !! i = Some c → (sum_list_with caller_size (<[i := c']> l) + caller_size c = sum_list_with caller_size l + caller_size c')%nat.
Proof.
  revert i. induction l as [|x l IH]; intros [|i] Hi; simplify_eq/=; [lia|]. specialize (IH i Hi). lia.
Qed.
Lemma size_deliver r l : (sum_list_with caller_size (deliver r <$> l) ≤ sum_list_with caller_size l)%nat.
Proof.
  induction l as [|[p e b] l IH]; [done|]. rewrite fmap_cons. cbn [sum_list_with].
  assert (caller_size (deliver r (Caller p e b)) ≤ caller_size (Caller p e b))%nat by (unfold caller_size, deliver; destruct p; cbn; lia). lia.
Qed.
Lemma lstep_decreases s s' : lstep s s' → (shared_size s' < shared_size s)%nat.
Proof.
  intros Hs. destruct Hs as [l i e b o Hi|l i p o Hi|l i p b o Hi Hp|l i r Hx|l i r e b o Hi]; unfold shared_size; cbn [s_callers s_call].
  - pose proof (size_insert l i _ (Caller CWaiting e b) Hi). unfold caller_size in *. cbn in *. destruct o; lia.
  - pose proof (size_insert l i _ (Caller p true false) Hi). unfold caller_size in *. cbn in *. destruct o; lia.
  - pose proof (size_insert l i _ (Caller (CDone (Fail errCanceled)) true b) Hi). unfold caller_size in *. destruct Hp as [->|[r ->]]; cbn in *; destruct o; lia.
  - pose proof (size_deliver r l). lia.
  - pose proof (size_insert l i _ (Caller (CDone r) e b) Hi). unfold caller_size in *. cbn in *. destruct o; lia.
Qed.
Lemma shared_progress s i c : LInv s → s_callers s !! i = Some c → (∀ r, c_pc c ≠ CDone r) → ∃ s', lstep s s'.
Proof.
  intros HI Hi Hp. destruct s as [l o], c as [p e b]. cbn in *. destruct p as [| |r|r]; [| | |by destruct (Hp r)].
  - eexists. by eapply l_join.
  - pose proof (li_wait _ HI i _ Hi eq_refl) as Hw. cbn in Hw. destruct o as [j|]; [|done]. destruct Hout as [r Hr]. eexists. by apply (l_reply l j r); left.
  - eexists. by eapply l_take.
Qed.

(** C37 (liveness): simultaneous lookups of one question by any number of callers, some with contexts that can end and some with
    [context.Background]; the shared exchange itself is assumed to come to an end (C6 says when). As long as a caller
    has not returned something can happen, and this does not go on forever: every caller returns. What it returns is an
    outcome of the exchange; or the error of its own context, which has ended; or the failure of an exchange that ran on
    another caller's context, which has ended. So if no context can end, everybody gets an outcome of the exchange. *)
Theorem shared_lookup bgs :
  (∀ s, rtc lstep (shared0 bgs) s →
     (∀ i c, s_callers s !! i = Some c → (∀ r, c_pc c ≠ CDone r) → ∃ s', lstep s s') ∧
     (∀ i c r, s_callers s !! i = Some c → c_pc c = CDone r →
        outcome r ∨ (r = Fail errCanceled ∧ c_ended c = true ∧ c_bg c = false) ∨
        (r = Fail errDnsExchangedFailed ∧ ∃ j c', s_callers s !! j = Some c' ∧ c_ended c' = true ∧ c_bg c' = false))) ∧
  (∀ f, f 0%nat = shared0 bgs → ¬ ∀ i, lstep (f i) (f (S i))).
Proof.
  split.
  - intros s Hs. pose proof (shared_reachable _ _ Hs) as HI. split; [intros; by eapply shared_progress|].
    intros i c r Hi Hr. apply (li_result _ HI i c r Hi). by right.
  - intros f _ Hf. apply (no_infinite_run lstep shared_size (λ _, True) f); [done| |done]. intros s s' _ Hst. split; [done|by apply lstep_decreases].
Qed.
End Shared.

(** The exchange lives on the first caller's context: when that caller gives up, the
    others fail as well, although theirs never end. *)
Lemma leader_cancels_others {Msg} (outcome : res Msg → Prop) :
  ∃ s, rtc (lstep outcome) (shared0 [false; true]) s ∧
       s_callers s !! 1%nat = Some (Caller (CDone (Fail errDnsExchangedFailed)) false true).
Proof.
  eexists. split.
  - eapply rtc_l; [by apply (l_join _ _ 0 false)|]. eapply rtc_l; [by apply (l_join _ _ 1 false)|].
    eapply rtc_l; [by apply (l_end _ _ 0 CWaiting)|]. eapply rtc_l; [apply (l_reply _ _ 0 (Fail errDnsExchangedFailed)); by right|].
    eapply rtc_l; [by apply (l_take _ _ 1 (Fail errDnsExchangedFailed) false)|]. reflexivity.
  - reflexivity.
Qed.

(** Two callers that can not give up, the first one waiting. *)
Lemma shared_lookup_witness :
  let s := Shared [Caller CWaiting false true; Caller CIdle false true] (Some 0%nat) in
  rtc (lstep (λ r, r = Ret 5)) (shared0 [true; true]) s ∧ ∃ s', lstep (λ r, r = Ret 5) s s'.
Proof.
  intros s. assert (rtc (lstep (λ r, r = Ret 5)) (shared0 [true; true]) s) as Hr.
  { apply rtc_once. apply (l_join _ [Caller CIdle false true; Caller CIdle false true] 0 false true None eq_refl). }
  split; [exact Hr|].
  apply (proj1 (proj1 (shared_lookup (λ r, r = Ret 5) (ex_intro _ (Ret 5) eq_refl) [true; true]) s Hr) 0%nat (Caller CWaiting false true)); [reflexivity|].
  discriminate.
Defined.
