(* ===== verification/SshServer.v ===== *)
(** * SSH as a transport: the server, its authentication, and the client's side.

    Models [src/server/ssh_server.go], the set-up of [src/transport/ssh_dialer.go] (its
    pool of connections is ConnPool.v) and [src/connection/ssh.go]. The server is the
    TCP listener of Servers.v with one more thing that happens in its accept loop, the SSH
    handshake of the connection just accepted; the reachable states are those of a step
    relation. The SSH library, key parsing and files are parameters. *)
From S2P Require Import Prelude GoIO GoNet Options Servers.
Local Open Scope nat_scope.

Definition errPasswordAuthFailed := errNew "ssh password authentication failed".
Definition errPublicKeyAuthFailed := errNew "ssh public key authentication failed".

(** ** The configuration *)
Section Ssh.
Context {Key : Type} (ReadFile : gostring → res (list Z)) (ParsePrivateKey : list Z → res Key).
(** [ssh.ParseAuthorizedKey]: the first key of the data, marshalled, and the rest. *)
Context (ParseAuthorizedKey : list Z → res (list Z * list Z)).

(** The loop of [getPublicKeysFromAuthorizedKeyFile]; an entry that cannot be parsed is
    not skipped. [None]: the fuel is used up. *)
Fixpoint keys_loop (fuel : nat) (keys : list (list Z)) (data : list Z) : option (res (list (list Z))) :=
  match data with
  | [] => Some (Ret keys)
  | _ =>
      match fuel with
      | O => None
      | S f =>
          match ParseAuthorizedKey data with
          | Ret (key, rest) => keys_loop f (keys ++ [key]) rest
          | Fail _ => keys_loop f keys data
          | Panic => Some Panic
          end
      end
  end.
Definition getPublicKeysFromAuthorizedKeyFile (fuel : nat) (file : gostring) : option (res (list (list Z))) :=
  match ReadFile file with
  | Ret data => keys_loop fuel [] data
  | Fail e => Some (Fail e)
  | Panic => Some Panic
  end.

(** [ssh.ServerConfig]: what is set of it. A callback returns an error or none. *)
Record serverConfig := ServerConfig_ {
  sc_hostKey : Key; sc_Password : option (gostring → list Z → option error);
  sc_PublicKey : option (gostring → list Z → option error); sc_NoClientAuth : bool }.

Definition PasswordCallback (o : SshOptions) (user : gostring) (password : list Z) : option error :=
  if bool_decide (ssh_User o = user) && bool_decide (ssh_Password o = password) then None else Some errPasswordAuthFailed.
Definition PublicKeyCallback (o : SshOptions) (keys : list (list Z)) (user : gostring) (key : list Z) : option error :=
  if bool_decide (ssh_User o ≠ user) then Some errPublicKeyAuthFailed
  else if existsb (λ k, bool_decide (key = k)) keys then None else Some errPublicKeyAuthFailed.

Definition newSshConfig (fuel : nat) (o : SshOptions) : option (res serverConfig) :=
  match ReadFile (ssh_PrivateKey o) ≫= ParsePrivateKey with
  | Fail e => Some (Fail e)
  | Panic => Some Panic
  | Ret privateKey =>
      if bool_decide (ssh_Password o ≠ []) then Some (Ret (ServerConfig_ privateKey (Some (PasswordCallback o)) None false))
      else if bool_decide (ssh_AuthorizedKey o ≠ []) then
        match getPublicKeysFromAuthorizedKeyFile fuel (ssh_AuthorizedKey o) with
        | Some (Ret keys) => Some (Ret (ServerConfig_ privateKey None (Some (PublicKeyCallback o keys)) false))
        | Some (Fail e) => Some (Fail e)
        | Some Panic => Some Panic
        | None => None
        end
      else Some (Ret (ServerConfig_ privateKey None None true))
  end.

(** ** Channels *)
Record SshConn {Ch : Type} := MkSshConn { sc_Channel : Ch; sc_laddr : gostring; sc_raddr : gostring }.
Arguments SshConn : clear implicits.
Definition NewSshConn {Ch} (channel : Ch) (laddr raddr : gostring) : SshConn Ch := MkSshConn _ channel laddr raddr.
(** What becomes of a channel a client opens. *)
Inductive chanEnd {Ch : Type} := ChRejected (msg : gostring) | ChUnaccepted | ChServed (c : SshConn Ch).
Arguments chanEnd : clear implicits.
Definition handlePerChannel {Ch} (chType : gostring) (Accept : res Ch) (laddr raddr : gostring) : chanEnd Ch :=
  if bool_decide (chType ≠ str "direct-tcpip") then ChRejected (str "unknown channel type: " ++ chType) else
  match Accept with Ret channel => ChServed (NewSshConn channel laddr raddr) | _ => ChUnaccepted end.

(** ** The server: [Start]

    [config]: what [newSshConfig] gives. [NewServerConn]: the handshake with a client,
    [None] if the client does not go on with it; a session is a client with the user
    it has logged in as. *)
Context (config : res serverConfig) (NewServerConn : serverConfig → nat → option (res gostring)).
Record SshServer := SshSrv { ss_srv : TcpServer; ss_shaking : option nat; ss_sessions : list (nat * gostring) }.
Definition NewSshServer : SshServer := SshSrv NewTcpServer None [].

Inductive sshstep (ctx : option cause) : SshServer → option (option error) → SshServer → Prop :=
| h_base s o s' l : s_pc s ≠ PListening ∨ s_pc s' = s_pc s → sstep ctx s o s' →
    sshstep ctx (SshSrv s None l) o (SshSrv s' None l)
| h_run r ln w cs cfg l : config = Ret cfg →
    sshstep ctx (SshSrv (Srv PListening r ln w cs) None l) None (SshSrv (Srv PAccept true ln WWait cs) None l)
| h_config_failed r ln w cs e l : config = Fail e →
    sshstep ctx (SshSrv (Srv PListening r ln w cs) None l) (Some (Some e)) (SshSrv (Srv (PDone (Some e)) r ln w cs) None l)
(** in a handshake: the closing goroutine and callers of [Close] go on *)
| h_aside s s' c l : s_pc s' = s_pc s → sstep ctx s None s' → sshstep ctx (SshSrv s (Some c) l) None (SshSrv s' (Some c) l)
| h_shaken s c cfg u l : config = Ret cfg → NewServerConn cfg c = Some (Ret u) →
    sshstep ctx (SshSrv s (Some c) l) None (SshSrv s None (l ++ [(c, u)]))
| h_refused s c cfg e l : config = Ret cfg → NewServerConn cfg c = Some (Fail e) →
    sshstep ctx (SshSrv s (Some c) l) None (SshSrv s None l).
Inductive sshenv : SshServer → SshServer → Prop :=
| v_client r w cs c l : sshenv (SshSrv (Srv PAccept r LOpen w cs) None l) (SshSrv (Srv PAccept r LOpen w cs) (Some c) l)
| v_accept_err r w cs l : sshenv (SshSrv (Srv PAccept r LOpen w cs) None l) (SshSrv (Srv PGotErr r LOpen w cs) None l)
| v_close p r ln w cs h l : sshenv (SshSrv (Srv p r ln w cs) h l) (SshSrv (Srv p r ln w (CLoad :: cs)) h l).
Definition sshany (a b : SshServer) : Prop := (∃ ctx o, sshstep ctx a o b) ∨ sshenv a b.

(** ** The client's side: [newSSHDialer] *)
Inductive authMethod := APassword (p : gostring) | APublicKeys (signer : Key).
Record sshDialer := MkSshDialer { sd_err : option error; sd_opts : SshOptions; sd_User : gostring; sd_Auth : list authMethod; sd_conns : Z }.
Definition newSSHDialer (opt : option Options) : res sshDialer :=
  match opt with
  | Some (SshOpts o) =>
      let pw := if bool_decide (ssh_Password o ≠ []) then [APassword (ssh_Password o)] else [] in
      let mk err pk := Ret (MkSshDialer err o (ssh_User o) (pw ++ pk) 3) in
      if bool_decide (ssh_PublicKey o ≠ []) then
        match ReadFile (ssh_PrivateKey o) ≫= ParsePrivateKey with
        | Ret signer => mk None [APublicKeys signer]
        | Fail e => mk (Some e) []
        | Panic => Panic
        end
      else mk None []
  | _ => Panic
  end.
(** [Dial]: the error of the set-up, then a stream of a pooled connection. *)
Definition sshDialer_Dial {S Stream} (pooled : M S Stream) (d : sshDialer) : M S Stream :=
  match sd_err d with
  | Some e => if bool_decide (ssh_PublicKey (sd_opts d) ≠ []) then mfail e else pooled
  | None => pooled
  end.
(** [initClient]: dialling, the handshake, and closing what was dialled if it fails. *)
Definition close_failed {S C} (close : nat → S → S) (m : M S C) (c : nat) : M S C := λ s,
  match m s with (s', Fail e) => (close c s', Fail e) | r => r end.
Definition initClient {S C} (dial : M S nat) (NewClientConn : nat → M S C) (close : nat → S → S) : M S C :=
  c ← dial; close_failed close (NewClientConn c) c.
End Ssh.

(** ** Reading the keys *)
Section Keys.
Context (ParseAuthorizedKey : list Z → res (list Z * list Z)).
(** A call that succeeds gives the first key it can find, skipping comments and lines it
    cannot parse, and takes up some of the data. *)
Hypothesis Hrest : ∀ data key rest, ParseAuthorizedKey data = Ret (key, rest) → length rest < length data.
Hypothesis Hnopanic : ∀ data, ParseAuthorizedKey data ≠ Panic.

(** Files that can be read key by key (with whatever the library skips before a key), and
    those that end in something without a key. *)
Inductive key_file : list Z → list (list Z) → Prop :=
| kf_nil : key_file [] []
| kf_cons data key rest keys : data ≠ [] → ParseAuthorizedKey data = Ret (key, rest) → key_file rest keys → key_file data (key :: keys).
Inductive bad_file : list Z → Prop :=
| bf_here data e : data ≠ [] → ParseAuthorizedKey data = Fail e → bad_file data
| bf_later data key rest : data ≠ [] → ParseAuthorizedKey data = Ret (key, rest) → bad_file rest → bad_file data.

Lemma file_cases data : (∃ keys, key_file data keys) ∨ bad_file data.
Proof.
  remember (length data) as n eqn:En. revert data En. induction (lt_wf n) as [n _ IH]. intros data ->.
  destruct data as [|x data]; [left; eexists; constructor|].
  destruct (ParseAuthorizedKey (x :: data)) as [[key rest]|e|] eqn:E; [|right; by econstructor|by destruct (Hnopanic (x :: data))].
  destruct (IH _ (Hrest _ _ _ E) rest eq_refl) as [[keys Hk]|Hb]; [left; eexists; by econstructor|right; by eapply bf_later].
Qed.
Lemma key_file_loop fuel : ∀ data keys acc, key_file data keys → length data < fuel →
  keys_loop ParseAuthorizedKey fuel acc data = Some (Ret (acc ++ keys)).
Proof.
  induction fuel as [|f IH]; intros data keys acc Hk Hf; [lia|]. destruct Hk as [|data key rest keys Hd E Hk]; [simpl; by rewrite app_nil_r|].
  destruct data as [|x data]; [done|]. cbn [keys_loop]. rewrite E. pose proof (Hrest _ _ _ E). rewrite (IH rest keys) by (done || lia).
  by rewrite <-app_assoc.
Qed.
Lemma bad_file_loop fuel : ∀ data acc, bad_file data → keys_loop ParseAuthorizedKey fuel acc data = None.
Proof.
  induction fuel as [|f IH]; intros data acc Hb.
  - destruct Hb as [[|] ? ? ?|[|] ? ? ? ? ?]; done.
  - pose proof Hb as Hb'. destruct Hb as [data e Hd E|data key rest Hd E Hb]; destruct data as [|x data]; try done; cbn [keys_loop]; rewrite E; auto.
Qed.

(** C39 (termination): reading the authorized keys with a library call that, when it
    succeeds, skips to a key and takes it off the data. If the calls, each on what
    the one before has left, succeed until nothing is left, the file is read in at most
    one turn per byte and its keys are kept in the order of the file; if what is left
    at some point is not empty and has no key in it, as a blank or a comment after the last key,
    the file is never read to its end: the loop goes on for good with the same data.
    Every file is of one of the two kinds. *)
Theorem authorized_keys_read data :
  (∃ keys, key_file data keys ∧ ∀ fuel, length data < fuel → keys_loop ParseAuthorizedKey fuel [] data = Some (Ret keys)) ∨
  (bad_file data ∧ ∀ fuel, keys_loop ParseAuthorizedKey fuel [] data = None).
Proof.
  destruct (file_cases data) as [[keys Hk]|Hb]; [left; exists keys; split; [done|intros; by rewrite (key_file_loop _ _ keys)]|right; split; [done|]].
  intros fuel. by apply bad_file_loop.
Qed.
End Keys.

(** ** Who gets a session *)
Section Auth.
Context {Key : Type} (ReadFile : gostring → res (list Z)) (ParsePrivateKey : list Z → res Key)
  (ParseAuthorizedKey : list Z → res (list Z * list Z)) (o : SshOptions) (fuel : nat)
  (config : res (serverConfig (Key := Key))) (NewServerConn : serverConfig (Key := Key) → nat → option (res gostring)).
(** [knows c p]: client [c] has sent password [p]; [holds_key c k]: it has signed with
    the private key of [k]. *)
Context (knows : nat → list Z → Prop) (holds_key : nat → list Z → Prop).
(** The library lets nobody in unless no authentication is asked for or a callback has
    agreed to what the client has sent or signed with. *)
Hypothesis Hshake : ∀ cfg c u, NewServerConn cfg c = Some (Ret u) →
  sc_NoClientAuth cfg = true ∨
  (∃ f p, sc_Password cfg = Some f ∧ f u p = None ∧ knows c p) ∨
  (∃ f k, sc_PublicKey cfg = Some f ∧ f u k = None ∧ holds_key c k).
Hypothesis Hconfig : newSshConfig ReadFile ParsePrivateKey ParseAuthorizedKey fuel o = Some config.

(** What the options ask of a session. *)
Definition session_ok (s : nat * gostring) : Prop :=
  if bool_decide (ssh_Password o ≠ []) then s.2 = ssh_User o ∧ knows s.1 (ssh_Password o)
  else if bool_decide (ssh_AuthorizedKey o ≠ []) then
    s.2 = ssh_User o ∧ ∃ keys k, getPublicKeysFromAuthorizedKeyFile ReadFile ParseAuthorizedKey fuel (ssh_AuthorizedKey o) = Some (Ret keys) ∧
      k ∈ keys ∧ holds_key s.1 k
  else True.

Lemma PasswordCallback_ok u p : PasswordCallback o u p = None → u = ssh_User o ∧ p = ssh_Password o.
Proof. unfold PasswordCallback. destruct (bool_decide_reflect (ssh_User o = u)), (bool_decide_reflect (ssh_Password o = p)); naive_solver. Qed.
Lemma PublicKeyCallback_ok keys u k : PublicKeyCallback o keys u k = None ↔ u = ssh_User o ∧ k ∈ keys.
Proof.
  unfold PublicKeyCallback. destruct (bool_decide_reflect (ssh_User o ≠ u)) as [Hn|He]; [naive_solver|]. apply dec_stable in He as <-.
  destruct (existsb _ keys) eqn:E.
  - apply existsb_exists in E as (x & Hx & ->%bool_decide_eq_true). rewrite <-list_elem_of_In in Hx. by split.
  - split; [done|]. intros [_ Hin]. assert (existsb (λ k0, bool_decide (k = k0)) keys = true) as E'; [|congruence].
    apply existsb_exists. exists k. rewrite <-list_elem_of_In. by rewrite bool_decide_eq_true.
Qed.

Lemma shaken_ok cfg c u : config = Ret cfg → NewServerConn cfg c = Some (Ret u) → session_ok (c, u).
Proof.
  intros -> Hn. unfold session_ok, newSshConfig in *. destruct (ReadFile (ssh_PrivateKey o) ≫= ParsePrivateKey) as [key|e|]; [|done|done].
  destruct (bool_decide (ssh_Password o ≠ [])); [|destruct (bool_decide (ssh_AuthorizedKey o ≠ []))].
  - injection Hconfig as <-. destruct (Hshake _ _ _ Hn) as [?|[(f & p & [= <-] & Hp & Hk)|(f & k & ? & _)]]; [done| |done].
    apply PasswordCallback_ok in Hp as [-> ->]. done.
  - destruct (getPublicKeysFromAuthorizedKeyFile _ _ _ _) as [[keys|e|]|] eqn:E; [|done|done|done]. injection Hconfig as <-.
    destruct (Hshake _ _ _ Hn) as [?|[(f & p & ? & _)|(f & k & [= <-] & Hp & Hk)]]; [done|done|].
    apply PublicKeyCallback_ok in Hp as [-> Hin]. split; [done|]. by exists keys, k.
  - done.
Qed.

(** C14 (safety): nobody is served over SSH without the credentials the options ask
    for. In every state the server can get into, whatever clients and callers of [Close]
    do, every session is the configured user's: of a client that has sent the
    password, where one is set, and otherwise, where a file of authorized keys is set, of
    one that holds a key of the file. *)
Theorem ssh_sessions_authenticated s :
  rtc (sshany config NewServerConn) NewSshServer s → Forall session_ok (ss_sessions s).
Proof.
  intros H. assert (Forall session_ok (ss_sessions NewSshServer)) as H0 by constructor. revert H0.
  induction H as [|x y z Hxy _ IH]; [done|]. intros HF. apply IH. clear IH. destruct Hxy as [(ctx & r & Hs)|Hs].
  - destruct Hs; simpl in *; try done. apply Forall_app. split; [done|]. constructor; [|constructor]. by eapply shaken_ok.
  - by destruct Hs.
Qed.

(** A client that does not go on with its handshake stops the server: nobody else is
    accepted, and [Start] does not return even after [Close]. *)
Lemma ssh_silent_client_blocks cfg c s s' : config = Ret cfg → NewServerConn cfg c = None → ss_shaking s = Some c →
  rtc (sshany config NewServerConn) s s' →
  ss_shaking s' = Some c ∧ ss_sessions s' = ss_sessions s ∧ s_pc (ss_srv s') = s_pc (ss_srv s).
Proof.
  intros Hc Hn Hs H. revert Hs. induction H as [|x y z Hxy _ IH]; intros Hs; [done|].
  assert (ss_shaking y = Some c ∧ ss_sessions y = ss_sessions x ∧ s_pc (ss_srv y) = s_pc (ss_srv x)) as (H1 & H2 & H3).
  { destruct Hxy as [(ctx & r & Hst)|Hst]; destruct Hst; simpl in *; simplify_eq; try done; congruence. }
  destruct (IH H1) as (? & -> & ->). done.
Qed.

(** When the configuration cannot be made the listening socket stays open. *)
Lemma ssh_config_failure_leaks e : config = Fail e →
  ∃ s, rtc (sshany config NewServerConn) NewSshServer s ∧ s_pc (ss_srv s) = PDone (Some e) ∧ s_ln (ss_srv s) = LOpen ∧ s_watch (ss_srv s) = WNone.
Proof.
  intros He. eexists. split.
  - eapply rtc_l; [left; exists None, None; apply h_base; [by left|apply s_listen]|].
    eapply rtc_l; [left; exists None, (Some (Some e)); by apply h_config_failed|]. apply rtc_refl.
  - done.
Qed.
End Auth.

(** ** Client and server with the same options *)
Section Agree.
Context {Key : Type} (ReadFile : gostring → res (list Z)) (ParsePrivateKey : list Z → res Key)
  (ParseAuthorizedKey : list Z → res (list Z * list Z)) (Marshal : Key → list Z).
(** What a server configuration says to a method of a client. *)
Definition accepts (cfg : serverConfig (Key := Key)) (user : gostring) (m : authMethod (Key := Key)) : bool :=
  match m with
  | APassword p => match sc_Password cfg with Some f => bool_decide (f user p = None) | None => false end
  | APublicKeys k => match sc_PublicKey cfg with Some f => bool_decide (f user (Marshal k) = None) | None => false end
  end.

(** A client and a server with the same options agree on a method, provided that with
    keys the client uses its key and the file of authorized keys lists it. *)
Lemma ssh_same_options o fuel cfg d :
  newSshConfig ReadFile ParsePrivateKey ParseAuthorizedKey fuel o = Some (Ret cfg) →
  newSSHDialer ReadFile ParsePrivateKey (Some (SshOpts o)) = Ret d →
  (ssh_Password o = [] → ssh_AuthorizedKey o ≠ [] → ssh_PublicKey o ≠ [] ∧
     ∃ keys, getPublicKeysFromAuthorizedKeyFile ReadFile ParseAuthorizedKey fuel (ssh_AuthorizedKey o) = Some (Ret keys) ∧
             Marshal (sc_hostKey cfg) ∈ keys) →
  sd_err d = None ∧ (sc_NoClientAuth cfg = true ∨ existsb (accepts cfg (sd_User d)) (sd_Auth d) = true).
Proof.
  unfold newSshConfig, newSSHDialer. intros Hc Hd Hk. destruct (ReadFile (ssh_PrivateKey o) ≫= ParsePrivateKey) as [key|e|]; [|done|done].
  assert (sd_err d = None ∧ sd_User d = ssh_User o ∧
    sd_Auth d = (if bool_decide (ssh_Password o ≠ []) then [APassword (ssh_Password o)] else []) ++
                (if bool_decide (ssh_PublicKey o ≠ []) then [APublicKeys key] else [])) as (H1 & Hu & Ha).
  { destruct (bool_decide (ssh_PublicKey o ≠ [])); by injection Hd as <-. }
  split; [done|]. rewrite Hu, Ha. clear Hd Ha Hu. destruct (bool_decide_reflect (ssh_Password o ≠ [])) as [Hp|Hp].
  - right. injection Hc as <-. simpl.
    assert (PasswordCallback o (ssh_User o) (ssh_Password o) = None) as -> by (unfold PasswordCallback; by rewrite !bool_decide_true by done).
    by rewrite bool_decide_true by done.
  - apply dec_stable in Hp. destruct (bool_decide_reflect (ssh_AuthorizedKey o ≠ [])) as [Hq|Hq]; [|left; by injection Hc as <-].
    destruct (Hk Hp Hq) as (Hpk & keys & Hg & Hin). rewrite Hg in Hc. injection Hc as <-. right. rewrite (bool_decide_true (ssh_PublicKey o ≠ [])) by done.
    simpl in *. rewrite bool_decide_true; [done|]. by apply PublicKeyCallback_ok.
Qed.
End Agree.

(** A server with a password set does not look at keys at all. *)
Lemma ssh_password_excludes_keys {Key} Marshal ReadFile ParsePrivateKey ParseAuthorizedKey fuel o cfg user (k : Key) :
  newSshConfig ReadFile ParsePrivateKey ParseAuthorizedKey fuel o = Some (Ret cfg) → ssh_Password o ≠ [] →
  accepts Marshal cfg user (APublicKeys k) = false.
Proof.
  unfold newSshConfig. destruct (_ ≫= _); [|done|done]. intros H Hp. rewrite bool_decide_true in H by done. by injection H as <-.
Qed.

(** *** Witnesses *)

(** A file format of one byte per key, in which 10 is a blank line. *)
Definition demo_parse_key (data : list Z) : res (list Z * list Z) :=
  match data with [] => Fail io_EOF | x :: r => if (x =? 10)%Z then Fail io_EOF else Ret ([x], r) end.
Lemma authorized_keys_read_witness :
  keys_loop demo_parse_key 9 [] [5; 7]%Z = Some (Ret [[5]; [7]]%Z) ∧ ∀ fuel, keys_loop demo_parse_key fuel [] [5; 10]%Z = None.
Proof.
  assert (∀ data key rest, demo_parse_key data = Ret (key, rest) → length rest < length data) as H1
    by (intros [|x r] key rest; simpl; [done|]; case_match; [done|]; intros [= <- <-]; lia).
  assert (∀ data, demo_parse_key data ≠ Panic) as H2 by (intros [|x r]; simpl; [done|]; by case_match).
  split.
  - destruct (authorized_keys_read demo_parse_key H1 H2 [5; 7]%Z) as [(keys & Hk & H)|[_ H]]; [|specialize (H 9); vm_compute in H; discriminate H].
    pose proof (H 9 ltac:(simpl; lia)) as E. rewrite E. vm_compute in E. injection E as <-. reflexivity.
  - destruct (authorized_keys_read demo_parse_key H1 H2 [5; 10]%Z) as [(keys & Hk & H)|[_ H]]; [|exact H].
    pose proof (H 9 ltac:(simpl; lia)) as E. vm_compute in E. discriminate E.
Defined.

Definition demo_ssh : SshOptions := MkSsh (str "u") (str "p") [] [] [].
Definition demo_sshConfig : serverConfig (Key := unit) := ServerConfig_ tt (Some (PasswordCallback demo_ssh)) None false.
Definition demo_shake (cfg : serverConfig (Key := unit)) (c : nat) : option (res gostring) :=
  match sc_Password cfg with
  | Some f => Some (match f (str "u") (if c =? 1 then str "p" else str "q") with None => Ret (str "u") | Some e => Fail e end)
  | None => None
  end.
Lemma demo_session : rtc (sshany (Ret demo_sshConfig) demo_shake) NewSshServer (SshSrv (Srv PAccept true LOpen WWait []) None [(1, str "u")]).
Proof.
  eapply rtc_l; [left; exists None, None; apply h_base; [by left|apply s_listen]|].
  eapply rtc_l; [left; exists None, None; by eapply h_run|].
  eapply rtc_l; [right; apply (v_client true WWait [] 1)|].
  eapply rtc_l; [left; exists None, None; by eapply h_shaken|]. apply rtc_refl.
Qed.
Lemma ssh_sessions_authenticated_witness :
  Forall (session_ok (λ _, Ret []) demo_parse_key demo_ssh 9 (λ c p, c = 1 ∧ p = str "p" ∨ c ≠ 1 ∧ p = str "q") (λ _ _, False)) [(1, str "u")].
Proof.
  refine (ssh_sessions_authenticated (λ _, Ret []) (λ _, Ret tt) demo_parse_key demo_ssh 9 (Ret demo_sshConfig) demo_shake _ _ _ eq_refl
    (SshSrv (Srv PAccept true LOpen WWait []) None [(1, str "u")]) demo_session).
  intros cfg c u. unfold demo_shake. destruct (sc_Password cfg) as [f|] eqn:E; [|done]. intros H. right. left.
  exists f, (if c =? 1 then str "p" else str "q"). destruct (f _ _) eqn:Ef; [done|]. injection H as <-. split_and!; [done|done|].
  destruct (Nat.eqb_spec c 1); auto.
Defined.
