(* ===== verification/Transports.v ===== *)
(** * Packages transport and server: the transports over TCP, WebSocket, QUIC, gRPC, SSH
    and HTTP obfuscation.

    Models [src/transport/dialer.go], the set-up and [Dial] of [tcp_dialer.go],
    [ws_dialer.go], [quic_dialer.go], [grpc_dialer.go] and [obfs_dialer.go],
    [src/server/ws_server.go], [quic_server.go], [grpc_server.go], [obfs_server.go] and
    [server.go], the TLS part of [src/options/option.go], and [Start] and [Close] of
    [src/ss/ss_server.go]. The WebSocket, QUIC and gRPC libraries, TLS, dialling and
    listening are parameters. *)
From S2P Require Import Prelude GoIO GoNet GoURL GoHTTP HttpObfs Options Certs Config ConnPool Servers SshServer.
Local Open Scope Z_scope.

(** ** Names *)
Definition Type_String (t : Type_) : gostring :=
  str match t with Tcp => "tcp" | Quic => "quic" | Websocket => "websocket" | Obfs => "obfs" | Grpc => "grpc" | Ssh => "ssh" end.
Inductive ServerType := STcp | SSocks | SHttp | SSimpleTcpTun | SWs | SObfs | SQuic | SMixed | SGrpc | SSsh.
Definition ServerType_String (t : ServerType) : gostring :=
  str match t with
      | STcp => "tcp" | SSocks => "socks" | SHttp => "http" | SSimpleTcpTun => "simple-tcp-tun" | SWs => "ws" | SObfs => "obfs"
      | SQuic => "quic" | SGrpc => "grpc" | SSsh => "ssh" | SMixed => "mixed-socks-http"
      end.

(** ** TLS of the options *)
Section Transports.
Context {Key : Type} (ReadFile : gostring → res (list Z)) (AppendCertsFromPEM : list Z → bool)
  (LoadX509KeyPair : gostring → gostring → res (Certificate Key)).
Abbreviation cfg_t := (tlsConfig Key).

Definition opts_GetServerTlsConfig (o : TlsOptions) : res (option cfg_t) :=
  match tls_Mode o with
  | TlsNone => Ret None
  | TLS => c ← GetServerTlsConfig LoadX509KeyPair (tls_CertFile o) (tls_KeyFile o); Ret (Some c)
  | MTLS => c ← GetServerMTlsConfig ReadFile AppendCertsFromPEM LoadX509KeyPair (tls_CertFile o) (tls_KeyFile o) (tls_CAFile o); Ret (Some c)
  end.
Definition opts_GetClientTlsConfig (o : TlsOptions) : res (option cfg_t) :=
  match tls_Mode o with
  | TlsNone => Ret None
  | TLS => c ← GetClientTlsConfig ReadFile AppendCertsFromPEM (tls_CAFile o) (tls_Hostname o); Ret (Some c)
  | MTLS => c ← GetClientMTlsConfig ReadFile AppendCertsFromPEM LoadX509KeyPair (tls_CertFile o) (tls_KeyFile o) (tls_CAFile o) (tls_Hostname o); Ret (Some c)
  end.
(** The error of a call whose result is kept beside it. *)
Definition err_of {A} (r : res A) : option error := match r with Fail e => Some e | _ => None end.
Definition opt_of {A} (r : res (option A)) : option A := match r with Ret o => o | _ => None end.

(** ** What the servers set up

    The QUIC server makes itself a certificate when it has none. *)
Definition quic_server_tls (GeneratePrivateKey : res Key) (Generate : gostring → Key → res (Certificate Key)) (o : QuicOptions) : res cfg_t :=
  c ← opts_GetServerTlsConfig (quic_TlsOptions o);
  match c with
  | Some c => Ret c
  | None => privateKey ← GeneratePrivateKey; cert ← Generate (str "mini-ss") privateKey; Ret (TlsConfig [cert] [] None NoClientCert None false)
  end.
Definition TlsConfigQuicALPN (c : cfg_t) : cfg_t * list gostring := (c, [str "http/3"; str "quic/v1"]).
Inductive grpcOption := WriteBufferSize (n : Z) | ReadBufferSize (n : Z) | UseGzip | Creds (c : option cfg_t).
Definition buffer_options (o : GrpcOptions) : list grpcOption :=
  (if 0 <? grpc_SndBuffer o then [WriteBufferSize (grpc_SndBuffer o)] else []) ++
  (if 0 <? grpc_RevBuffer o then [ReadBufferSize (grpc_RevBuffer o)] else []).
Definition grpc_server_options (o : GrpcOptions) : res (list grpcOption) :=
  c ← opts_GetServerTlsConfig (grpc_TlsOptions o); Ret (Creds c :: buffer_options o).
(** What the servers give to their libraries in [Start]: the WebSocket server calls
    [ServeTLS] with its configuration or [Serve] without one, the QUIC server
    [ListenEarly], and the gRPC server [NewServer] with its options. *)
Inductive serving := Serve | ServeTLS (c : cfg_t) | ListenEarly (c : cfg_t * list gostring) | GrpcNewServer (opts : list grpcOption).
Definition ws_serving (o : WsOptions) : res serving :=
  tlsConfig ← opts_GetServerTlsConfig (ws_TlsOptions o);
  Ret (if tlsConfig is Some c then ServeTLS c else Serve).
Definition quic_serving (GeneratePrivateKey : res Key) (Generate : gostring → Key → res (Certificate Key)) (o : QuicOptions) : res serving :=
  tlsConfig ← quic_server_tls GeneratePrivateKey Generate o; Ret (ListenEarly (TlsConfigQuicALPN tlsConfig)).
Definition grpc_serving (o : GrpcOptions) : res serving := opts ← grpc_server_options o; Ret (GrpcNewServer opts).
(** The credentials of a list of options: each overwrites the one before. *)
Definition creds_of (opts : list grpcOption) : option cfg_t := foldl (λ r o, match o with Creds c => c | _ => r end) None opts.
(** The configuration the connections of a server are accepted with. *)
Definition serving_tls (how : serving) : option cfg_t :=
  match how with
  | Serve => None
  | ServeTLS c => Some c
  | ListenEarly (c, _) => Some c
  | GrpcNewServer opts => creds_of opts
  end.
Definition ObfsServer_serveTCP (o : ObfsOptions) (c : conn) : ObfsConn := NewObfsConn c (obfs_Host o) true.

(** ** Making a dialer *)
Record wsDialer := MkWsDialer { wd_err : option error; wd_tlsConfig : option cfg_t; wd_opts : WsOptions }.
Definition newWSDialer (o : WsOptions) : wsDialer :=
  let r := opts_GetClientTlsConfig (ws_TlsOptions o) in MkWsDialer (err_of r) (opt_of r) o.

(** The pool holds connections with their address and their slot. *)
Record pooledConn {C : Type} := MkPooled { pc_addr : gostring; pc_idx : nat; pc_conn : C }.
Record quicDialer := MkQuicDialer { qd_err : option error; qd_tlsConfig : cfg_t; qd_pool : connPool (pooledConn (C := nat)); qd_opts : QuicOptions }.
Definition insecure : cfg_t := TlsConfig [] [] None NoClientCert None true.
Definition newQUICDialer (o : QuicOptions) : quicDialer :=
  let r := opts_GetClientTlsConfig (quic_TlsOptions o) in
  MkQuicDialer (err_of r) (default insecure (opt_of r)) (newConnPool (quic_Conns o)) o.

Record grpcDialer := MkGrpcDialer { gd_err : option error; gd_dialOpts : list grpcOption; gd_opts : GrpcOptions }.
Definition newGRPCDialer (o : GrpcOptions) : grpcDialer :=
  let r := opts_GetClientTlsConfig (grpc_TlsOptions o) in
  MkGrpcDialer (err_of r) (buffer_options o ++ [UseGzip; Creds (opt_of r)]) o.

Context (ParsePrivateKey : list Z → res Key).
Inductive Dialer :=
| DTcp
| DWs (d : wsDialer)
| DQuic (d : quicDialer)
| DGrpc (d : grpcDialer)
| DSsh (d : sshDialer (Key := Key))
| DObfs (o : ObfsOptions).
(** Options of another type, or none at all, make it panic. *)
Definition NewDialer (tr : Type_) (opt : option Options) : res Dialer :=
  match tr, opt with
  | Tcp, _ => Ret DTcp
  | Websocket, Some (WsOpts o) => Ret (DWs (newWSDialer o))
  | Quic, Some (QuicOpts o) => Ret (DQuic (newQUICDialer o))
  | Grpc, Some (GrpcOpts o) => Ret (DGrpc (newGRPCDialer o))
  | Ssh, _ => d ← newSSHDialer ReadFile ParsePrivateKey opt; Ret (DSsh d)
  | Obfs, Some (ObfsOpts o) => Ret (DObfs o)
  | _, _ => Panic
  end.

(** ** Dialling

    The world keeps the sockets opened, by their numbers in order, with the address
    each was opened to, and those closed. *)
Record dworld := DWorld { dw_opened : list gostring; dw_closed : list nat }.
Context (iface : gostring) (ResolveTCPAddr : gostring → res gostring) (BindToDevice : gostring → gostring → res unit)
  (reach : gostring → gostring → option error).
(** [net.Dialer.DialContext]; [reach]: the error of dialling an address over a network. *)
Definition net_DialContext (network addr : gostring) : M dworld nat := λ w,
  match reach network addr with
  | Some e => (w, Fail e)
  | None => (DWorld (dw_opened w ++ [addr]) (dw_closed w), Ret (length (dw_opened w)))
  end.
Definition close_sock (c : nat) (w : dworld) : dworld := DWorld (dw_opened w) (c :: dw_closed w).
Definition dialSingle (network addr : gostring) : M dworld nat :=
  tcpAddr ← mlift (ResolveTCPAddr addr);
  _ ← mlift (BindToDevice network tcpAddr);
  net_DialContext network tcpAddr.
(** With an interface to bind to, the race of [dualStackDialContext], a parameter here. *)
Context (race : gostring → M dworld nat).
Definition tcpDialer_Dial (addr : gostring) : M dworld nat :=
  if bool_decide (iface = []) then tcpAddr ← mlift (ResolveTCPAddr addr); net_DialContext (str "tcp") tcpAddr
  else match SplitHostPort addr with inr _ => mfail (errNew "address error") | inl _ => race addr end.

(** *** WebSocket *)
Definition ws_url (d : wsDialer) (addr : gostring) : URL :=
  MkURL (if wd_tlsConfig d is Some _ then str "wss" else str "ws") [] None addr (ws_Path (wd_opts d)).
Definition ws_header (d : wsDialer) : list (gostring * gostring) :=
  (str "Host", ws_Host (wd_opts d)) ::
  match ws_UserAgent (wd_opts d) with [] => [] | ua => [(str "User-Agent", ua)] end.
(** The library's [Dial] is given the dialer below it and the TLS configuration it was
    made with, the address and the headers. *)
Context (gorilla_Dial : (gostring → M dworld nat) → option cfg_t → gostring → list (gostring * gostring) → M dworld nat).
Definition wsDialer_Dial (d : wsDialer) (addr : gostring) : M dworld nat :=
  match wd_err d with
  | Some e => mfail e
  | None => gorilla_Dial tcpDialer_Dial (wd_tlsConfig d) (URL_String (ws_url d addr)) (ws_header d)
  end.

(** *** gRPC: the connection, then a stream of it *)
Context (grpc_Dial : list grpcOption → gostring → M dworld nat) (Transfer : nat → res nat).
Definition grpcDialer_Dial (d : grpcDialer) (addr : gostring) : M dworld (nat * nat) :=
  match gd_err d with
  | Some e => mfail e
  | None => conn ← grpc_Dial (gd_dialOpts d) addr; cStream ← mlift (Transfer conn); mret (cStream, conn)
  end.

(** *** HTTP obfuscation *)
Definition obfsDialer_Dial (o : ObfsOptions) (sock : nat → conn) (addr : gostring) : M dworld ObfsConn :=
  c ← tcpDialer_Dial addr; mret (NewObfsConn (sock c) (obfs_Host o) false).

(** *** Datagram sockets, and a QUIC connection over one *)
Context (BindForPacket : gostring → res gostring) (listen : gostring → option error) (ResolveUDPAddr : gostring → res gostring)
  (DialEarly : nat → gostring → cfg_t * list gostring → res nat).
Definition ListenPacket (addr : gostring) : M dworld nat := λ w,
  match listen addr with
  | Some e => (w, Fail e)
  | None => (DWorld (dw_opened w ++ [addr]) (dw_closed w), Ret (length (dw_opened w)))
  end.
Definition ListenUDP (addr : gostring) : M dworld nat :=
  if bool_decide (iface = []) then ListenPacket addr else a ← mlift (BindForPacket addr); ListenPacket a.
Definition ListenLocalUDP : M dworld nat := ListenUDP [].
Definition quicDialer_dial (d : quicDialer) (addr : gostring) : M dworld nat :=
  raddr ← mlift (ResolveUDPAddr addr);
  conn ← ListenLocalUDP;
  mlift (DialEarly conn raddr (TlsConfigQuicALPN (qd_tlsConfig d))).

(** *** QUIC: [getAndDial] and [retryDial] over the pool; the SSH dialer's are alike *)
Section Pooled.
Context {C S : Type} (pick : nat) (dial : gostring → M S C).
Definition pooled_dialFn (addr : gostring) (idx : nat) : M S (pooledConn (C := C)) := c ← dial addr; mret (MkPooled _ addr idx c).
Definition getAndDial (addr : gostring) : M (connPool pooledConn * S) pooledConn := getConn pick (pooled_dialFn addr).
Definition retryDial (addr : gostring) (idx : nat) : M (connPool pooledConn * S) pooledConn :=
  getConnWithIndex pick (pooled_dialFn addr) idx false.
End Pooled.
End Transports.

(** ** The WebSocket server *)
Definition errWsUpgradeHostNotMatch := errNew "ws upgrade host not match".
(** A request as the handler gets it: its [Host], the host and the path of its URL. *)
Record upgradeReq := UpgradeReq { ur_Host : gostring; ur_URLHost : gostring; ur_Path : gostring }.
Definition wsUpgrade {A} (o : WsOptions) (Upgrade : res A) (r : upgradeReq) : res A :=
  let host := match ur_Host r with [] => ur_URLHost r | h => h end in
  if negb (bool_decide (ws_Host o = [])) && negb (bool_decide (host = ws_Host o)) then Fail errWsUpgradeHostNotMatch else Upgrade.
(** [http.ServeMux] with one pattern: the path, or everything below it if it ends in a
    slash. *)
Definition mux_matches (pattern path : gostring) : bool :=
  bool_decide (path = pattern) || (bool_decide (last pattern = Some 47) && has_prefix pattern path).
Definition errNotFound := errNew "404 page not found".
Definition ws_handler {A} (o : WsOptions) (Upgrade : res A) (r : upgradeReq) : res A :=
  if mux_matches (ws_Path o) (ur_Path r) then wsUpgrade o Upgrade r else Fail errNotFound.

(** The request the library makes of an address and the headers: the [Host] header, if
    not empty, in the place of the address's host. *)
Definition ws_request (url : gostring) (header : list (gostring * gostring)) : option upgradeReq :=
  u ← url_Parse url;
  let host := match header with (_, h) :: _ => h | [] => [] end in
  Some (UpgradeReq (match host with [] => UHost u | _ => host end) [] (Path u)).

(** A client and a server with the same options: the server upgrades what the client
    asks for, whatever the path is made of. *)
Lemma ws_same_options {Key A} (d : wsDialer (Key := Key)) path addr (Upgrade : res A) :
  ws_Path (wd_opts d) = 47 :: path → wf_bytes path → addr ≠ [] → Forall (λ c, host_char c = true) addr → parseHost addr = Some addr →
  ∃ r, ws_request (URL_String (ws_url d addr)) (ws_header d) = Some r ∧ ws_handler (wd_opts d) Upgrade r = Upgrade.
Proof.
  intros Hp Hw Ha Hh Hph. unfold ws_request, ws_url. rewrite Hp.
  rewrite (url_Parse_String (if wd_tlsConfig d is Some _ then str "wss" else str "ws")); try done.
  2: by destruct (wd_tlsConfig d). 2: destruct (wd_tlsConfig d); by repeat constructor.
  cbn [mbind option_bind UHost Path]. eexists. split; [reflexivity|]. unfold ws_handler, mux_matches. cbn [ur_Path].
  rewrite Hp, bool_decide_true by done. cbn [orb]. unfold wsUpgrade, ws_header. cbn [ur_Host ur_URLHost].
  destruct (ws_Host (wd_opts d)) as [|x h]; [by rewrite bool_decide_true by done|].
  by rewrite (bool_decide_true (x :: h = x :: h)), andb_false_r by done.
Qed.

(** ** Serving until closed

    [Start] of the WebSocket and gRPC servers: a server of Servers.v whose socket is made
    before its TLS configuration, and which then leaves accepting to the library's
    [Serve]. That returns when the server is shut down, with an error of its own, which
    counts as none, or fails; either way it closes the socket. [tls]: the error of
    loading the configuration. *)
Section LibServers.
Context (tls : option error).
Inductive libstep (ctx : option cause) : TcpServer → option (option error) → TcpServer → Prop :=
| b_base s o s' : s_pc s = PIdle ∨ s_pc s' = s_pc s → sstep ctx s o s' → libstep ctx s o s'
| b_tls_failed r ln w cs e : tls = Some e →
    libstep ctx (Srv PListening r ln w cs) (Some (Some e)) (Srv (PDone (Some e)) r ln w cs)
| b_run r ln w cs : tls = None → libstep ctx (Srv PListening r ln w cs) None (Srv PAccept true ln WWait cs)
| b_shut_down r w cs : libstep ctx (Srv PAccept r LClosed w cs) (Some None) (Srv (PDone None) false LClosed w cs)
| b_serve_failed r ln w cs e : libstep ctx (Srv PAccept r ln w cs) (Some (Some e)) (Srv (PDone (Some e)) false LClosed w cs).
Inductive libenv : TcpServer → TcpServer → Prop :=
| b_close p r ln w cs : libenv (Srv p r ln w cs) (Srv p r ln w (CLoad :: cs)).
(** The gRPC server's [Start] and [Close] are the same, over another library. *)
Definition grpcstep := libstep.
Definition libany (a b : TcpServer) : Prop := (∃ ctx o, libstep ctx a o b) ∨ libenv a b.

Definition LibInv (s : TcpServer) : Prop :=
  let '(Srv p r ln w cs) := s in
  match p with
  | PIdle => ln = LNone ∧ early r w cs
  | PListening => ln = LOpen ∧ early r w cs
  | PAccept => ln ≠ LNone
  | PGotErr => False
  | PDone _ => r = false ∧ ln ≠ LOpen
  end.
Lemma lib_inv s s' : tls = None → libany s s' → LibInv s → LibInv s'.
Proof.
  intros Ht [(ctx & o & Hs)|Hs]; [|destruct Hs as [p r ln w cs]; destruct p; simpl; try done; intros (? & ? & ? & ?); (split; [done|]); (split; [done|]); (split; [done|]); by constructor].
  destruct Hs as [s o s' Hpc Hs|r ln w cs e Hn|r ln w cs _|r w cs|r ln w cs e]; [|congruence|intros (-> & _); done|done|done].
  intros HI. destruct Hs as [ln w cs|ln w cs e|ln w cs|r ln w cs|r w cs|ln w cs|ln w cs|p r ln cs Hc|p r ln cs e Hc|p ln w c1 c2|p ln w c1 c2|p r ln w c1 c2|p r ln w c1 c2 Hn];
    simpl in *; try (by destruct Hpc).
  - by destruct HI as (_ & ? & _).
  - by destruct HI as (-> & ? & _).
  - by destruct HI as (_ & ? & ? & ?).
  - destruct p; try done; by destruct HI as (_ & _ & ? & _).
  - destruct p; try done; by destruct HI as (_ & _ & ? & _).
  - destruct p; try done; (destruct HI as [? HE]; split; [done|]); by apply early_mid in HE as [_ ?].
  - destruct p; try done; (destruct HI as [? HE]); by destruct HE as [? _].
  - destruct p; try done; (destruct HI as [? HE]); first [done|by apply early_mid in HE as [? _]].
  - destruct p; try done; (destruct HI as [? HE]); first [done|by apply early_mid in HE as [? _]].
Qed.
(** When its TLS configuration loads, a server that has returned has left no socket open. *)
Lemma lib_server_returns s r : tls = None → rtc libany NewTcpServer s → s_pc s = PDone r → s_ln s ≠ LOpen ∧ s_running s = false.
Proof.
  intros Ht H Hp. assert (LibInv NewTcpServer) as H0 by (by repeat split).
  assert (LibInv s) as HI by (revert H0; induction H; eauto using lib_inv). destruct s as [p rr ln w cs]. simpl in *. subst p. by destruct HI.
Qed.
(** When it does not, [Start] fails and the socket stays open; [Close] finds the server
    not running and does not close it either. *)
Lemma tls_failure_leaks_listener e : tls = Some e →
  ∃ s, rtc libany NewTcpServer s ∧ s_pc s = PDone (Some e) ∧ s_ln s = LOpen ∧ s_running s = false ∧ s_watch s = WNone ∧ s_closers s = [].
Proof.
  intros He. eexists. split.
  - eapply rtc_l; [left; exists None, None; apply b_base; [by left|apply s_listen]|].
    eapply rtc_l; [left; exists None, (Some (Some e)); by apply b_tls_failed|]. apply rtc_refl.
  - done.
Qed.
End LibServers.

(** ** The QUIC server's connections

    A connection is accepted, registered when its handshake is complete, and closed by
    [Close], which goes through the registered ones. [qs_closing]: the calls of [Close],
    before the store of [running], before closing the listener, before the critical
    section over the connections. *)
Inductive qconn := QAccepted | QRegistered | QGone.
Inductive qcpc := QStore | QListener | QConns.
Record QuicServer := QuicSrv {
  qs_running : bool; qs_ln : bool; qs_all : list qconn; qs_conns : list nat; qs_closed : list nat; qs_closing : list qcpc }.
Definition quic_started : QuicServer := QuicSrv true true [] [] [] [].
Inductive qstep : QuicServer → QuicServer → Prop :=
| q_accept r l cs cl k : qstep (QuicSrv r true l cs cl k) (QuicSrv r true (l ++ [QAccepted]) cs cl k)
| q_register r ln l cs cl k i : l !! i = Some QAccepted →
    qstep (QuicSrv r ln l cs cl k) (QuicSrv r ln (<[i := QRegistered]> l) (cs ++ [i]) cl k)
| q_gone r ln l cs cl k i : l !! i = Some QAccepted → qstep (QuicSrv r ln l cs cl k) (QuicSrv r ln (<[i := QGone]> l) cs cl k)
| q_close ln l cs cl k : qstep (QuicSrv true ln l cs cl k) (QuicSrv true ln l cs cl (QStore :: k))
| q_store r ln l cs cl k1 k2 : qstep (QuicSrv r ln l cs cl (k1 ++ QStore :: k2)) (QuicSrv false ln l cs cl (k1 ++ QListener :: k2))
| q_listener r ln l cs cl k1 k2 : qstep (QuicSrv r ln l cs cl (k1 ++ QListener :: k2)) (QuicSrv r false l cs cl (k1 ++ QConns :: k2))
| q_conns r ln l cs cl k1 k2 : qstep (QuicSrv r ln l cs cl (k1 ++ QConns :: k2)) (QuicSrv r ln l [] (cl ++ cs) (k1 ++ k2)).

Record QInv (s : QuicServer) : Prop := {
  qi_registered i : qs_all s !! i = Some QRegistered ↔ i ∈ qs_conns s ++ qs_closed s;
  qi_once : NoDup (qs_conns s ++ qs_closed s);
  qi_running : qs_running s = true → qs_closed s = [] ∧ (QListener ∉ qs_closing s) ∧ (QConns ∉ qs_closing s);
}.
Lemma quic_started_inv : QInv quic_started.
Proof. split; simpl; [set_solver|constructor|]. intros _. split_and!; [done|set_solver|set_solver]. Qed.
Lemma quic_step_inv s s' : qstep s s' → QInv s → QInv s'.
Proof.
  intros Hs [Hr Ho Hn]. destruct Hs as [r l cs cl k|r ln l cs cl k i Hi|r ln l cs cl k i Hi|ln l cs cl k|r ln l cs cl k1 k2|r ln l cs cl k1 k2|r ln l cs cl k1 k2];
    simpl in *; split; simpl; try done.
  - intros i. rewrite <-Hr. destruct (decide (i < length l)%nat) as [Hlt|Hge]; [by rewrite lookup_app_l by done|].
    rewrite lookup_app_r, (lookup_ge_None_2 l) by lia. destruct (i - length l)%nat as [|[|]]; done.
  - intros j. destruct (decide (i = j)) as [->|Hne].
    + rewrite list_lookup_insert_eq by (by eapply lookup_lt_Some). set_solver.
    + rewrite list_lookup_insert_ne, Hr by done. set_solver.
  - assert (i ∉ cs ++ cl) as Hi' by (rewrite <-Hr, Hi; congruence). rewrite <-app_assoc. simpl.
    apply NoDup_app in Ho as (H1 & H2 & H3). apply NoDup_app. split_and!; [done|set_solver|]. constructor; [set_solver|done].
  - intros j. destruct (decide (i = j)) as [->|Hne].
    + rewrite list_lookup_insert_eq by (by eapply lookup_lt_Some). split; [done|]. rewrite <-Hr, Hi. done.
    + rewrite list_lookup_insert_ne, Hr by done. done.
  - intros _. destruct (Hn eq_refl) as (? & ? & ?). split_and!; [done|set_solver|set_solver].
  - intros Hrr. destruct (Hn Hrr) as (_ & Hq & _). set_solver.
  - intros i. rewrite Hr. set_solver.
  - by rewrite (Permutation_app_comm cl cs).
  - intros Hrr. destruct (Hn Hrr) as (_ & _ & Hq). set_solver.
Qed.
Lemma quic_reachable s : rtc qstep quic_started s → QInv s.
Proof.
  intros H. assert (QInv quic_started) as H0 by apply quic_started_inv. revert H0.
  induction H; intros; eauto using quic_step_inv.
Qed.

(** Whatever happens, a registered connection is either still in the list or has been
    closed, once; while the server runs none is closed; and the critical section of
    [Close] closes all that are in the list. *)
Theorem quic_connections s : rtc qstep quic_started s →
  (∀ i, qs_all s !! i = Some QRegistered ↔ i ∈ qs_conns s ++ qs_closed s) ∧ NoDup (qs_conns s ++ qs_closed s) ∧
  (qs_running s = true → qs_closed s = []) ∧
  (∀ r ln l cs cl k1 k2, s = QuicSrv r ln l cs cl (k1 ++ QConns :: k2) →
     ∃ s', qstep s s' ∧ ∀ i, qs_all s' !! i = Some QRegistered → i ∈ qs_closed s').
Proof.
  intros [Hr Ho Hn]%quic_reachable. split_and!; [done|done|intros H; by destruct (Hn H)|].
  intros r ln l cs cl k1 k2 ->. eexists. split; [apply q_conns|]. simpl in *. intros i Hi. apply Hr in Hi. set_solver.
Qed.

(** A handshake that completes after [Close] has gone through the list leaves a
    connection that nobody closes. *)
Lemma quic_late_connection_leaks :
  ∃ s, rtc qstep quic_started s ∧ qs_running s = false ∧ qs_ln s = false ∧ qs_closing s = [] ∧ qs_conns s = [0%nat] ∧
    ∀ s', rtc qstep s s' → (0%nat ∈ qs_conns s') ∧ qs_closed s' = [].
Proof.
  exists (QuicSrv false false [QRegistered] [0%nat] [] []). split_and!; [|done..|].
  - eapply rtc_l; [apply q_accept|]. eapply rtc_l; [apply q_close|]. eapply rtc_l; [apply (q_store _ _ _ _ _ [])|].
    eapply rtc_l; [apply (q_listener _ _ _ _ _ [])|]. eapply rtc_l; [apply (q_conns _ _ _ _ _ [])|].
    eapply rtc_l; [by apply (q_register _ _ _ _ _ _ 0)|]. apply rtc_refl.
  - assert (∀ s s', qstep s s' → (qs_running s = false ∧ qs_closing s = []) ∧ (0%nat ∈ qs_conns s) ∧ qs_closed s = [] →
      (qs_running s' = false ∧ qs_closing s' = []) ∧ (0%nat ∈ qs_conns s') ∧ qs_closed s' = []) as Hstep.
    { intros s s' Hs. destruct Hs as [| | | |r ln l cs cl [|? k1] k2|r ln l cs cl [|? k1] k2|r ln l cs cl [|? k1] k2]; simpl; try set_solver. }
    intros s' H. assert ((qs_running s' = false ∧ qs_closing s' = []) ∧ (0%nat ∈ qs_conns s') ∧ qs_closed s' = []) as (_ & ? & ?); [|done].
    remember (QuicSrv false false [QRegistered] [0%nat] [] []) as s0 eqn:E0.
    assert ((qs_running s0 = false ∧ qs_closing s0 = []) ∧ (0%nat ∈ qs_conns s0) ∧ qs_closed s0 = []) as H0 by (subst; simpl; set_solver).
    clear E0. revert H0. induction H; eauto.
Qed.

(** ** One configuration, two ends

    The client and the server each have their own files: [ReadFile] and
    [LoadX509KeyPair] are those of the client's machine, [sReadFile] and
    [sLoadX509KeyPair] those of the server's. *)
Section Agree.
Context {Key : Type} (ReadFile sReadFile : gostring → res (list Z)) (AppendCertsFromPEM : list Z → bool)
  (LoadX509KeyPair sLoadX509KeyPair : gostring → gostring → res (Certificate Key)) (ParsePrivateKey : list Z → res Key)
  (GenPrivateKey : res Key) (Generate : gostring → Key → res (Certificate Key)).
Abbreviation client_tls := (opts_GetClientTlsConfig ReadFile AppendCertsFromPEM LoadX509KeyPair).
Abbreviation server_tls := (opts_GetServerTlsConfig sReadFile AppendCertsFromPEM sLoadX509KeyPair).
Abbreviation new_dialer := (NewDialer ReadFile AppendCertsFromPEM LoadX509KeyPair ParsePrivateKey).
Implicit Types d : Dialer (Key := Key).

Definition tls_part (o : option Options) : option TlsOptions :=
  match o with
  | Some (WsOpts o) => Some (ws_TlsOptions o)
  | Some (QuicOpts o) => Some (quic_TlsOptions o)
  | Some (GrpcOpts o) => Some (grpc_TlsOptions o)
  | _ => None
  end.
Definition dialer_type d : Type_ :=
  match d with DTcp => Tcp | DWs _ => Websocket | DQuic _ => Quic | DGrpc _ => Grpc | DSsh _ => Ssh | DObfs _ => Obfs end.
(** The TLS configuration a dialer uses, and the error it keeps for [Dial]. *)
Definition dialer_tls d : option (tlsConfig Key) :=
  match d with
  | DWs w => wd_tlsConfig w
  | DQuic q => Some (qd_tlsConfig q)
  | DGrpc g => creds_of (gd_dialOpts g)
  | _ => None
  end.
Definition dialer_err d : option error :=
  match d with DWs w => wd_err w | DQuic q => qd_err q | DGrpc g => gd_err g | DSsh s => sd_err s | _ => None end.

(** What the server of a section with TLS options gives to its library. *)
Definition server_serving (o : option Options) : option (res (serving (Key := Key))) :=
  match o with
  | Some (WsOpts o) => Some (ws_serving sReadFile AppendCertsFromPEM sLoadX509KeyPair o)
  | Some (QuicOpts o) => Some (quic_serving sReadFile AppendCertsFromPEM sLoadX509KeyPair GenPrivateKey Generate o)
  | Some (GrpcOpts o) => Some (grpc_serving sReadFile AppendCertsFromPEM sLoadX509KeyPair o)
  | _ => None
  end.
(** The error of loading the client's files: the TLS ones, or the key of SSH if a public
    key is configured. *)
Definition client_load_error (o : option Options) : option error :=
  match o with
  | Some (SshOpts o) => if bool_decide (ssh_PublicKey o ≠ []) then err_of (ReadFile (ssh_PrivateKey o) ≫= ParsePrivateKey) else None
  | _ => match tls_part o with Some t => err_of (client_tls t) | None => None end
  end.

(** Two ends that fit, by the mode of the options. Without TLS neither has a configuration,
    except over QUIC. With it the server shows the configured certificate and the client
    checks it against the configured authorities, for the configured name; with mutual
    TLS the server also asks for a certificate, which the client shows. *)
Definition one_way (t : TlsOptions) (c s : tlsConfig Key) : Prop :=
  t_InsecureSkipVerify c = false ∧ t_ServerName c = tls_Hostname t ∧
  (∃ msg, load_pool ReadFile AppendCertsFromPEM (tls_CAFile t) msg = Ret (t_RootCAs c)) ∧
  ∃ cert, sLoadX509KeyPair (tls_CertFile t) (tls_KeyFile t) = Ret cert ∧ t_Certificates s = [cert].
Definition both_ways (t : TlsOptions) (c s : tlsConfig Key) : Prop :=
  t_ClientAuth s = RequireAndVerifyClientCert ∧
  (∃ msg, load_pool sReadFile AppendCertsFromPEM (tls_CAFile t) msg = Ret (t_ClientCAs s)) ∧
  ∃ cert, LoadX509KeyPair (tls_CertFile t) (tls_KeyFile t) = Ret cert ∧ t_Certificates c = [cert].
Definition no_client_cert (c s : tlsConfig Key) : Prop := t_ClientAuth s = NoClientCert ∧ t_Certificates c = [].
Definition ends_fit (quic : bool) (t : TlsOptions) (cl sv : option (tlsConfig Key)) : Prop :=
  match tls_Mode t, cl, sv with
  | TlsNone, None, None => quic = false
  | TlsNone, Some c, Some s => quic = true ∧ t_InsecureSkipVerify c = true ∧ t_Certificates s ≠ [] ∧ no_client_cert c s
  | TLS, Some c, Some s => one_way t c s ∧ no_client_cert c s
  | MTLS, Some c, Some s => one_way t c s ∧ both_ways t c s
  | _, _, _ => False
  end.
(** The two configurations of the same options, before QUIC fills in what is missing. *)
Lemma tls_options_match t cl sv : client_tls t = Ret cl → server_tls t = Ret sv → ends_fit false t cl sv.
Proof.
  unfold opts_GetClientTlsConfig, opts_GetServerTlsConfig, GetClientTlsConfig, GetServerTlsConfig, GetClientMTlsConfig, GetServerMTlsConfig, ends_fit.
  destruct (tls_Mode t); intros H1 H2.
  - by simplify_eq.
  - destruct (load_pool _ _ _ _) eqn:E1; [|done|done]. destruct (sLoadX509KeyPair _ _) eqn:E2; [|done|done]. simplify_eq/=. unfold one_way. by split_and!; eauto.
  - destruct (load_pool ReadFile _ _ _) eqn:E1; [|done|done]. destruct (load_pool sReadFile _ _ _) eqn:E2; [|done|done].
    destruct (LoadX509KeyPair _ _) eqn:E3; [|done|done]. destruct (sLoadX509KeyPair _ _) eqn:E4; [|done|done]. simplify_eq/=.
    unfold one_way, both_ways. by split_and!; eauto.
Qed.
(** QUIC's own configurations take the place of those that are absent. *)
Lemma quic_options_match t cl how o : quic_TlsOptions o = t → client_tls t = Ret cl →
  quic_serving sReadFile AppendCertsFromPEM sLoadX509KeyPair GenPrivateKey Generate o = Ret how →
  ends_fit true t (Some (default insecure cl)) (serving_tls how).
Proof.
  intros Ht Hc. unfold quic_serving, quic_server_tls. rewrite Ht. destruct (server_tls t) as [sv|e|] eqn:Es; [|done..].
  pose proof (tls_options_match t cl sv Hc Es) as Hm. cbn [mbind res_bind]. destruct sv as [s|].
  - intros [= <-]. revert Hm. unfold ends_fit. destruct (tls_Mode t), cl; simpl; naive_solver.
  - destruct GenPrivateKey as [k|e|]; [|done..]. cbn [mbind res_bind]. destruct (Generate _ k) as [cert|e|]; [|done..]. intros [= <-].
    revert Hm. unfold ends_fit. destruct (tls_Mode t), cl; simpl; unfold no_client_cert; naive_solver.
Qed.

Lemma creds_of_server (c : option (tlsConfig Key)) o : creds_of (Creds c :: buffer_options o) = c.
Proof. unfold buffer_options. by repeat case_match. Qed.
Lemma creds_of_client (c : option (tlsConfig Key)) o : creds_of (buffer_options o ++ [UseGzip; Creds c]) = c.
Proof. unfold creds_of. by rewrite foldl_app. Qed.
Lemma server_of_options c so : server_of c = Some so →
  match so_transport so, so_opts so with
  | Tcp, None => True
  | Websocket, Some (WsOpts _) | Quic, Some (QuicOpts _) | Grpc, Some (GrpcOpts _) | Ssh, Some (SshOpts _) | Obfs, Some (ObfsOpts _) => True
  | _, _ => False
  end.
Proof.
  unfold server_of. intros H.
  destruct (decide (sc_Transport c = _)); [destruct (sc_Ws c); [by injection H as <-|done]|].
  destruct (decide (sc_Transport c = _)); [destruct (sc_Obfs c); [by injection H as <-|done]|].
  destruct (decide (sc_Transport c = _)); [destruct (sc_Quic c); [by injection H as <-|done]|].
  destruct (decide (sc_Transport c = _)); [destruct (sc_Grpc c); [by injection H as <-|done]|].
  destruct (decide (sc_Transport c = _)); [destruct (sc_Ssh c); [by injection H as <-|done]|].
  destruct (decide (_ ∧ _)); [destruct (sc_SSR c); [by injection H as <-|done]|by injection H as <-].
Qed.

(** None of the loading functions panics. *)
Context (Hread : ∀ p, ReadFile p ≠ Panic) (Hload : ∀ c k, LoadX509KeyPair c k ≠ Panic) (Hkey : ∀ b, ParsePrivateKey b ≠ Panic).
Lemma client_tls_returns t : client_tls t ≠ Panic.
Proof using Hread Hload.
  assert (∀ p msg, load_pool ReadFile AppendCertsFromPEM p msg ≠ Panic) as Hp.
  { intros [|x p] msg; [done|]. unfold load_pool. destruct (ReadFile (x :: p)) eqn:E; [simpl; by case_match|done|by apply Hread in E]. }
  unfold opts_GetClientTlsConfig, GetClientTlsConfig, GetClientMTlsConfig. destruct (tls_Mode t); [done|..].
  - destruct (load_pool _ _ _ _) eqn:E; [done|done|by apply Hp in E].
  - destruct (load_pool _ _ _ _) eqn:E; [|done|by apply Hp in E]. simpl. destruct (LoadX509KeyPair _ _) eqn:E2; [done|done|by apply Hload in E2].
Qed.

(** C31 (refinement): one section of the configuration sets up two ends that fit, each with
    the files of its own machine. For every section that is accepted, if loading files
    does not panic, the client's dialer can be made, is of the section's transport, and
    keeps an error for [Dial] exactly if a file it needs could not be loaded: a TLS one,
    or the key of SSH. Over WebSocket, QUIC and gRPC the server fails if its own TLS files
    cannot be loaded, and otherwise the configuration it hands to its library fits the
    dialer's: without TLS neither has one, except over QUIC, where the server makes
    itself a certificate that the client does not check; with TLS the server shows the
    configured certificate and the client checks it for the configured name against its
    authorities; with mutual TLS the server also demands a certificate and the client
    shows the one configured. *)
Theorem transports_agree c so :
  server_of c = Some so →
  ∃ d, new_dialer (so_transport so) (so_opts so) = Ret d ∧ dialer_type d = so_transport so ∧
    dialer_err d = client_load_error (so_opts so) ∧
    ∀ t, tls_part (so_opts so) = Some t →
      (∀ e, server_tls t = Fail e → server_serving (so_opts so) = Some (Fail e)) ∧
      ∀ how, dialer_err d = None → server_serving (so_opts so) = Some (Ret how) →
        ends_fit (if so_transport so is Quic then true else false) t (dialer_tls d) (serving_tls how).
Proof using Hread Hload Hkey.
  intros Hs. pose proof (server_of_options c so Hs) as Ho. destruct (so_transport so), (so_opts so) as [[i a|o|o|o|o|o]|]; try done; simpl.
  - by exists DTcp.
  - eexists. split_and!; [done|done|done|]. intros t [= <-]. split; [intros e E; unfold quic_serving, quic_server_tls; by rewrite E|].
    intros how. simpl. destruct (client_tls _) as [cl|e|] eqn:Ec; [|done|by apply client_tls_returns in Ec]. intros _ [= Hh]. by eapply quic_options_match.
  - eexists. split_and!; [done|done|done|]. intros t [= <-]. split; [intros e E; unfold ws_serving; by rewrite E|].
    intros how. simpl. destruct (client_tls _) as [cl|e|] eqn:Ec; [|done|by apply client_tls_returns in Ec]. intros _. unfold ws_serving.
    destruct (server_tls _) as [sv|e|] eqn:Es; [|done..]. intros [= <-]. pose proof (tls_options_match _ _ _ Ec Es). by destruct sv.
  - by exists (DObfs o).
  - eexists. split_and!; [done|done|done|]. intros t [= <-]. split; [intros e E; unfold grpc_serving, grpc_server_options; by rewrite E|].
    intros how. cbn [dialer_tls gd_dialOpts newGRPCDialer dialer_err gd_err]. rewrite creds_of_client. destruct (client_tls _) as [cl|e|] eqn:Ec; [|done|by apply client_tls_returns in Ec]. intros _.
    unfold grpc_serving, grpc_server_options. destruct (server_tls _) as [sv|e|] eqn:Es; [|done..]. intros [= <-]. cbn [serving_tls]. rewrite creds_of_server. by apply tls_options_match.
  - unfold newSSHDialer. assert (ReadFile (ssh_PrivateKey o) ≫= ParsePrivateKey ≠ Panic) as Hp.
    { destruct (ReadFile _) eqn:E; [apply Hkey|done|by apply Hread in E]. }
    destruct (bool_decide (ssh_PublicKey o ≠ [])); [destruct (ReadFile (ssh_PrivateKey o) ≫= ParsePrivateKey) as [k|e|]; [..|done]|];
      by eexists (DSsh _).
Qed.

(** A stream that cannot be opened leaves the gRPC connection open. *)
Lemma grpc_transfer_leaks grpc_Dial Transfer (g : grpcDialer (Key := Key)) addr w w' n e :
  gd_err g = None → grpc_Dial (gd_dialOpts g) addr w = (w', Ret n) → Transfer n = Fail e →
  grpcDialer_Dial grpc_Dial Transfer g addr w = (w', Fail e).
Proof. intros He Hd Ht. unfold grpcDialer_Dial. rewrite He. rewrite (bind_Ret _ _ _ _ _ Hd). rewrite Ht. done. Qed.
End Agree.

(** A QUIC connection that cannot be made leaves its datagram socket open. *)
Lemma quic_dial_leaks {Key} BindForPacket ResolveUDPAddr DialEarly (d : quicDialer (Key := Key)) addr raddr e w :
  ResolveUDPAddr addr = Ret raddr → DialEarly (length (dw_opened w)) raddr (TlsConfigQuicALPN (qd_tlsConfig d)) = Fail e →
  quicDialer_dial [] BindForPacket (λ _, None) ResolveUDPAddr DialEarly d addr w = (DWorld (dw_opened w ++ [[]]) (dw_closed w), Fail e).
Proof.
  intros Hr Hd. unfold quicDialer_dial. rewrite Hr. cbn. unfold mbind, M_bind, mlift. cbn. by rewrite Hd.
Qed.

(** Connections that are dialled for a slot know it, so that the pool's invariant is kept. *)
Lemma pooled_idx {C S} (dial : gostring → M S C) addr i s s' c :
  pooled_dialFn dial addr i s = (s', Ret c) → pc_idx c = i ∧ pc_addr c = addr.
Proof. unfold pooled_dialFn. intros H. apply bind_inv in H as (s1 & x & _ & [= _ <-]). done. Qed.

(** ** The server program: [Start] and [Close]

    Which UDP relayers are started, and what the group gives. *)
Definition ss_Start (grpStart : option error) (s : ShadowsocksServer) : list gostring * option error :=
  match sv_srvGroup s with
  | [] => ([], None)
  | _ => (fst <$> omap sh_udpRelayer (sv_handlerList s), grpStart)
  end.
Definition ss_Close (grpClose : option error) (s : ShadowsocksServer) : option error :=
  match sv_srvGroup s with [] => None | _ => grpClose end.
(** [udpRelayer.start]: the socket of the relay, and that it is closed at the end. *)
Definition udp_start {W} (ListenUDP : gostring → M W nat) (close : nat → W → W) (Relay : nat → W → W * error) (addr : gostring) (w : W) : W * option error :=
  match ListenUDP addr w with
  | (w1, Ret c) => let '(w2, e) := Relay c w1 in (close c w2, Some e)
  | (w1, Fail e) => (w1, Some e)
  | (w1, Panic) => (w1, None)
  end.

(** *** Witnesses *)
Definition demo_files (p : gostring) : res (list Z) := if decide (p = str "ca.pem") then Ret [1] else Fail io_EOF.
Definition demo_cert (c _ : gostring) : res (Certificate unit) := Ret (MkCertificate [c] tt).
Lemma transports_agree_witness :
  ∃ d, NewDialer (Key := unit) demo_files (λ _, true) (λ _ _, Fail io_EOF) (λ _, Ret tt) Websocket
         (so_opts (default zero_server (server_of CfgDemo.ws))) = Ret d ∧ dialer_type d = Websocket ∧ dialer_err d = None ∧
       ∃ c, dialer_tls d = Some c ∧ t_InsecureSkipVerify c = false ∧ t_RootCAs c = Some [1].
Proof.
  destruct (transports_agree (Key := unit) demo_files (λ _, Fail io_EOF) (λ _, true) (λ _ _, Fail io_EOF) demo_cert
    (λ _, Ret tt) (Ret tt) (λ _ _, Fail io_EOF)) with (c := CfgDemo.ws) (so := default zero_server (server_of CfgDemo.ws)) as (d & H1 & H2 & H3 & H4).
  - intros p. unfold demo_files. by case_decide.
  - done.
  - done.
  - reflexivity.
  - exists d. split; [exact H1|]. split; [exact H2|]. split; [exact H3|].
    destruct (H4 (tls_of CfgDemo.no_tls) eq_refl) as [_ Hf].
    specialize (Hf (ServeTLS (TlsConfig [MkCertificate [[]] tt] [] None NoClientCert None false)) H3 eq_refl).
    destruct (dialer_tls d) as [c|]; [|done]. exists c. destruct Hf as [(Hi & _ & [msg Hr] & _) _].
    split; [reflexivity|]. split; [exact Hi|]. by injection Hr as <-.
Defined.
