(* ===== verification/SsrConn.v ===== *)
(** * Package ssr: obfuscation, cipher and protocol stacked on a connection.

    Models [src/ssr/conn.go] and the ShadowsocksR half of [src/ss/conn.go], with the
    protocol connection of [src/ssr/protocol/stream.go] and [packet.go] over any
    connection of the interface [NetConn] (SsrAuth.v has it over a plain one). The
    interface [Protocol] says what the protocols promise; auth_sha1_v4 and the
    auth_aes128 variants are instances. The theorem composes the layers: what one end
    writes through protocol and cipher the other end reads. *)
From S2P Require Import Prelude GoIO GoNet GoStream Cipher TcpRelay SsrAuth.
From S2P Require StreamConn.

(** ** The protocol over a connection *)
Section Proto.
Context {T : Type} `{!NetConn T}.
(** The receiving and the sending state of a protocol. *)
Context {St Sd : Type} (Decode : St → list Z → list Z → St * list Z * list Z * decode_result)
        (Encode : Sd → list Z → list Z → rng → Sd * list Z * rng).

Record Conn := MkConn { p_Conn : T; p_recv : St; p_decoded : list Z; p_under : list Z; p_send : Sd; p_rng : rng }.

Definition pr_Read (n : nat) (c : Conn) : Conn * res (list Z) :=
  let mk c1 st dst src := MkConn c1 st dst src (p_send c) (p_rng c) in
  match p_decoded c with
  | _ :: _ => (mk (p_Conn c) (p_recv c) (drop n (p_decoded c)) (p_under c), Ret (take n (p_decoded c)))
  | [] =>
      match nc_Read relayBufferSize (p_Conn c) with
      | (c1, Fail e) => (mk c1 (p_recv c) [] (p_under c), Fail e)
      | (c1, Panic) => (mk c1 (p_recv c) [] (p_under c), Panic)
      | (c1, Ret d) =>
          let '(st, dst, src, x) := Decode (p_recv c) [] (p_under c ++ d) in
          match x with
          | DErr e => (mk c1 st dst src, Fail e)
          | DPanic => (mk c1 st dst src, Panic)
          | DOk => (mk c1 st (drop n dst) src, Ret (take n dst))
          end
      end
  end.
Definition pr_Write (b : list Z) (c : Conn) : Conn * res nat :=
  let '(s1, buf, r1) := Encode (p_send c) [] b (p_rng c) in
  match nc_Write buf (p_Conn c) with
  | (c1, Ret _) => (MkConn c1 (p_recv c) (p_decoded c) (p_under c) s1 r1, Ret (length b))
  | (c1, Fail e) => (MkConn c1 (p_recv c) (p_decoded c) (p_under c) s1 r1, Fail e)
  | (c1, Panic) => (MkConn c1 (p_recv c) (p_decoded c) (p_under c) s1 r1, Panic)
  end.
Fixpoint pr_Writes (ws : list (list Z)) (c : Conn) : Conn * res nat :=
  match ws with
  | [] => (c, Ret 0)
  | w :: r => match pr_Write w c with (c1, Ret n) => pr_Writes r c1 | x => x end
  end.
(** Reading until an error, with buffers of [n] bytes. *)
Fixpoint pr_Drain (fuel n : nat) (acc : list Z) (c : Conn) : Conn * list Z * res unit :=
  match fuel with
  | O => (c, acc, Panic)
  | S f =>
      match pr_Read n c with
      | (c1, Ret d) => pr_Drain f n (acc ++ d) c1
      | (c1, Fail e) => (c1, acc, Fail e)
      | (c1, Panic) => (c1, acc, Panic)
      end
  end.
End Proto.
Arguments Conn T St Sd : clear implicits.

(** ** What the protocols promise

    [sends] and [agree] as in [FrameLaws]; [fresh]: a sender that has sent nothing, and the number or state its
    frames will start from; [header]: what it may send first, an authentication header with some data in it;
    [follow]: the number or state the frames of a sender whose header is out continue from. *)
Class Protocol {F St Sd : Type} (Decode : St → list Z → list Z → St * list Z * list Z * decode_result)
    (Encode : Sd → list Z → list Z → rng → Sd * list Z * rng) := {
  pl_loop : nat → St → list Z → list Z → St * list Z * list Z * decode_result;
  pl_sends : F → list Z → list Z → F → Prop;
  pl_agree : F → St → Prop;
  pl_fresh : Sd → F → Prop;
  pl_header : Sd → list Z → list Z → Prop;
  pl_follow : Sd → F → Prop;
  pl_frames : FrameLaws pl_loop pl_sends pl_agree;
  pl_decode s t dst src : pl_agree s t → Decode t dst src = pl_loop (length src) t dst src;
  pl_encode s f b r : pl_follow s f →
    ∃ s' ds fs f' r', Encode s [] b r = (s', concat fs, r') ∧ framed pl_sends f ds fs f' ∧ concat ds = b ∧ pl_follow s' f';
  (** the header with a first part of the data, and frames for the rest *)
  pl_first s f b r : pl_fresh s f →
    ∃ s' n hdr ds fs f' r', Encode s [] b r = (s', hdr ++ concat fs, r') ∧ pl_header s (take n b) hdr ∧
      framed pl_sends f ds fs f' ∧ concat ds = drop n b ∧ pl_follow s' f';
}.

Section Session.
Context {T : Type} `{!NetConn T, !NetConnLaws T}.
Context {F St Sd : Type} (Decode : St → list Z → list Z → St * list Z * list Z * decode_result)
        (Encode : Sd → list Z → list Z → rng → Sd * list Z * rng) `{P : !Protocol (F := F) Decode Encode}.
Implicit Types c : Conn T St Sd.

(** What is still to come: decoded data, and the frames that are on their way. *)
Definition ssr_in c (m : list Z) (e : error) : Prop :=
  ∃ w ds fs f f', nc_in (p_Conn c) w e ∧ framed pl_sends f ds fs f' ∧ pl_agree f (p_recv c) ∧
    p_under c ++ w = concat fs ∧ (w = [] → p_under c = []) ∧ m = p_decoded c ++ concat ds.
(** What was sent: after the header, frames on the connection below. *)
Definition ssr_out (hdr : list Z) (f0 : F) c (o : list Z) : Prop :=
  ∃ ds fs f, nc_out (p_Conn c) (hdr ++ concat fs) ∧ framed pl_sends f0 ds fs f ∧ concat ds = o ∧ pl_follow (p_send c) f.

Lemma relayBufferSize_pos : 0 < relayBufferSize.
Proof. assert (relayBufferSize = Z.to_nat (20 * 1024)) as -> by reflexivity. lia. Qed.

(** A read makes progress and delivers the next bytes, or the error after the last. *)
Lemma pr_Read_law n c m e : 0 < n → ssr_in c m e →
  match pr_Read Decode n c with
  | (c', Ret d) => length d ≤ n ∧ ∃ m', m = d ++ m' ∧ ssr_in c' m' e ∧ nc_size (p_Conn c') + length m' < nc_size (p_Conn c) + length m
  | (c', Fail e') => m = [] ∧ e' = e
  | (_, Panic) => False
  end.
Proof.
  intros Hn (w & ds & fs & f & f' & Hin & HF & Ha & Hw & He & ->). unfold pr_Read. destruct c as [c st dec und sd r]. cbn [p_Conn p_recv p_decoded p_under p_send p_rng] in *.
  destruct dec as [|x dec].
  - pose proof (nc_read_law relayBufferSize c w e relayBufferSize_pos Hin) as H.
    destruct (nc_Read relayBufferSize c) as [c1 [d|e1|]]; [| |done].
    + destruct H as (_ & Hs & (w' & -> & Hin') & _). rewrite (pl_decode f) by done.
      destruct (loop_prefix (FL := pl_frames) fs (length (und ++ d)) f f' st [] (und ++ d) w' ds)
        as (ds1 & ds2 & fs2 & p & f1 & t' & -> & E & HF2 & Ha2 & Hp & Hnil); [done|done|by rewrite <-app_assoc|done|].
      rewrite E. cbn [app]. split; [rewrite length_take; lia|]. exists (drop n (concat ds1) ++ concat ds2). split_and!.
      * by rewrite concat_app, app_assoc, take_drop.
      * exists w', ds2, fs2, f1, f'. by split_and!.
      * cbn [p_Conn]. rewrite concat_app, !length_app, length_drop. lia.
    + destruct H as (-> & -> & _). rewrite (He eq_refl) in Hw. simpl in Hw.
      destruct (framed_empty (FL := pl_frames) _ _ _ _ HF) as [-> _]; [done|]. by split.
  - split; [rewrite length_take; lia|]. exists (drop n (x :: dec) ++ concat ds). split_and!.
    + by rewrite app_assoc, take_drop.
    + exists w, ds, fs, f, f'. by split_and!.
    + cbn [p_Conn]. rewrite !length_app, length_drop. simpl. lia.
Qed.
Lemma pr_Drain_law fuel n : ∀ acc c m e, 0 < n → ssr_in c m e → nc_size (p_Conn c) + length m < fuel →
  ∃ c', pr_Drain Decode fuel n acc c = (c', acc ++ m, Fail e).
Proof.
  induction fuel as [|k IH]; intros acc c m e Hn Hin Hf; [lia|]. cbn [pr_Drain]. pose proof (pr_Read_law n c m e Hn Hin) as H.
  destruct (pr_Read Decode n c) as [c1 [d|e1|]]; [| |done].
  - destruct H as (_ & m' & -> & Hin' & Hlt). destruct (IH (acc ++ d) c1 m' e Hn Hin' ltac:(lia)) as [c' E]. exists c'. by rewrite E, <-app_assoc.
  - destruct H as [-> ->]. exists c1. by rewrite app_nil_r.
Qed.

Lemma pr_Write_law hdr f0 b c o : ssr_out hdr f0 c o → ∃ c', pr_Write Encode b c = (c', Ret (length b)) ∧ ssr_out hdr f0 c' (o ++ b) ∧ (∀ m e, ssr_in c m e → ssr_in c' m e).
Proof.
  intros (ds & fs & f & Ho & HF & <- & Hf). unfold pr_Write.
  destruct (pl_encode (p_send c) f b (p_rng c) Hf) as (s' & ds2 & fs2 & f' & r' & -> & HF2 & <- & Hf').
  destruct (nc_write_law (concat fs2) (p_Conn c) _ Ho) as (c1 & -> & Ho1 & _ & Hk). eexists. split; [done|]. split.
  - exists (ds ++ ds2), (fs ++ fs2), f'. cbn [p_Conn p_send]. rewrite !concat_app, app_assoc. split_and!; [done|by eapply framed_app|done|done].
  - intros m e (w & ds0 & fs0 & g & g' & Hin & H). exists w, ds0, fs0, g, g'. split; [by apply Hk|]. exact H.
Qed.
Lemma pr_Writes_law hdr f0 ws : ∀ c o, ssr_out hdr f0 c o → ∃ c' n, pr_Writes Encode ws c = (c', Ret n) ∧ ssr_out hdr f0 c' (o ++ concat ws).
Proof.
  induction ws as [|w ws IH]; intros c o Ho; [exists c, 0; cbn; by rewrite app_nil_r|]. cbn [pr_Writes concat].
  destruct (pr_Write_law hdr f0 w c o Ho) as (c1 & -> & Ho1 & _). destruct (IH c1 _ Ho1) as (c' & n & E & H). exists c', n. rewrite E. by rewrite app_assoc.
Qed.

(** The first write of a sender. *)
Lemma pr_first_law f0 b c : nc_out (p_Conn c) [] → pl_fresh (p_send c) f0 →
  ∃ c' hdr j, pr_Write Encode b c = (c', Ret (length b)) ∧ pl_header (p_send c) (take j b) hdr ∧ ssr_out hdr f0 c' (drop j b).
Proof.
  intros Ho Hf. unfold pr_Write. destruct (pl_first (p_send c) f0 b (p_rng c) Hf) as (s' & j & hdr & ds & fs & f' & r' & -> & Hh & HF & Hd & Hf').
  destruct (nc_write_law (hdr ++ concat fs) (p_Conn c) _ Ho) as (c1 & -> & Ho1 & _). exists (MkConn c1 (p_recv c) (p_decoded c) (p_under c) s' r'), hdr, j.
  split_and!; [done|done|]. exists ds, fs, f'. by split_and!.
Qed.

(** C20 (round trip): a ShadowsocksR session from its beginning. Over every connection of the interface on which writes do not fail, so over
    every stream cipher, and for every protocol with the laws (auth_sha1_v4 and the auth_aes128 variants have them): a
    fresh sender writes whatever it likes, in whatever pieces, with whatever padding. Its first write puts its
    authentication header on the wire, which holds a first part of the data written, and all the rest goes in
    frames. Another end has, through its own connection, on the bytes that were put on the wire, cut anywhere, first read
    exactly the header, and then decodes as this code does, starting from the number the sender's frames start from: it reads
    exactly the data written after that first part, and then the error of the connection. *)
Theorem ssr_session w ws (a : Conn T St Sd) f0 :
  nc_out (p_Conn a) [] → pl_fresh (p_send a) f0 →
  ∃ a' k hdr j, pr_Writes Encode (w :: ws) a = (a', Ret k) ∧ pl_header (p_send a) (take j w) hdr ∧
    ∀ rnd (c : conn), pending c = c_out (nc_under (p_Conn a')) →
      ∃ s, io_ReadFull (length hdr) (nc_new rnd c) = (s, Ret hdr) ∧
        ∀ (b : Conn T St Sd) n fuel, p_Conn b = s → pl_agree f0 (p_recv b) → p_decoded b = [] → p_under b = [] → 0 < n →
          nc_size s + length (drop j w ++ concat ws) < fuel →
          ∃ b', pr_Drain Decode fuel n [] b = (b', drop j w ++ concat ws, Fail (c_rerr c)).
Proof.
  intros Ho Hf. destruct (pr_first_law f0 w a Ho Hf) as (a1 & hdr & j & E1 & Hh & Ho1).
  destruct (pr_Writes_law hdr f0 ws a1 _ Ho1) as (a' & k & E & ds & fs & f & Hout & HF & Hds & _).
  exists a', k, hdr, j. split_and!; [cbn [pr_Writes]; by rewrite E1|done|]. intros rnd c Hp.
  destruct (io_ReadFull_ok (length hdr) hdr (concat fs) (c_rerr c) (nc_new rnd c)) as (s & Es & Hs & _); [by eapply nc_link|done|].
  exists s. split; [done|]. intros b n fuel Hb Ha Hd Hu Hn Hfu. rewrite <-Hds in *. rewrite <-Hb in *.
  apply (pr_Drain_law fuel n [] b (concat ds) (c_rerr c)); [done| |done].
  exists (concat fs), ds, fs, f0, f. rewrite Hd, Hu. by split_and!.
Qed.
End Session.

(** ** The protocols *)
#[export] Program Instance sha1v4_protocol HmacSHA1 now :
  Protocol (F := Z) sha1v4.Decode (λ a, sha1v4.Encode HmacSHA1 a now) := {
  pl_loop := decode_loop sha1v4.head_ok sha1v4.tail_ok get_be16 sha1v4.errCRC32 sha1v4.errLength sha1v4.errAdler32;
  pl_sends := sends_frame sha1v4.head_ok sha1v4.tail_ok get_be16;
  pl_agree := follows;
  pl_fresh a _ := sha1v4.hasSentHeader a = false;
  pl_header a d hdr := ∃ r r', sha1v4.packAuthData HmacSHA1 a now [] d r = (hdr, r');
  pl_follow a _ := sha1v4.hasSentHeader a = true;
  pl_frames := frame_laws _ _ _ _ _ _;
}.
Next Obligation. intros HmacSHA1 now s t dst src H. by eapply decode_is_loop. Qed.
Next Obligation.
  intros HmacSHA1 now s f b r H. unfold sha1v4.Encode. rewrite H.
  destruct (sha1v4_loop_frames (S (length b)) f [] b r) as (ds & fs & id' & r' & -> & HF & Hc); [lia|].
  exists s, ds, fs, id', r'. by split_and!.
Qed.
Next Obligation.
  intros HmacSHA1 now s f b r H. unfold sha1v4.Encode. rewrite H. destruct (SsrAuth.getDataLength b r) as [n r0].
  destruct (sha1v4.packAuthData HmacSHA1 s now [] (take n b) r0) as [hdr r1] eqn:Eh.
  destruct (sha1v4_loop_frames (S (length b)) f hdr (drop n b) r1) as (ds & fs & id' & r' & -> & HF & Hc); [rewrite length_drop; lia|].
  eexists _, n, hdr, ds, fs, id', r'. split_and!; [done|by eexists _, _|done|done|done].
Qed.

Section Aes128.
Context (hmac : list Z → list Z → list Z) (salt : gostring) (base64 : list Z → gostring) (kdf16 : gostring → list Z)
        (aes_cbc : list Z → list Z → res (list Z)) (hmac_len : ∀ k d, 16 ≤ length (hmac k d)) (now : Z) (u : userData).
#[export] Program Instance aes128_protocol :
  Protocol (F := Z) (aes128.Decode hmac u) (λ a, aes128.Encode hmac salt base64 kdf16 aes_cbc a now) := {
  pl_loop := decode_loop (aes128.head_ok hmac u) (aes128.tail_ok hmac u) get_le16 aes128.errMAC aes128.errLength aes128.errChksum;
  pl_sends := sends_frame (aes128.head_ok hmac u) (aes128.tail_ok hmac u) get_le16;
  pl_agree := follows;
  pl_fresh a id := aes128.hasSentHeader a = false ∧ aes128.user a = u ∧ aes128.packID a = id;
  pl_header a d hdr := ∃ r r', aes128.packAuthData hmac salt base64 kdf16 aes_cbc a now [] d r = (hdr, r');
  pl_follow a id := aes128.hasSentHeader a = true ∧ aes128.user a = u ∧ aes128.packID a = id;
  pl_frames := frame_laws _ _ _ _ _ _;
}.
Next Obligation. intros s t dst src H. by eapply decode_is_loop. Qed.
Next Obligation.
  intros s f b r (Hs & Hu & Hi). unfold aes128.Encode. rewrite Hs.
  destruct (aes128_loop_frames hmac hmac_len (S (length b)) s [] b (Z.of_nat (length b)) r) as (ds & fs & id' & r' & -> & HF & Hc); [lia|].
  rewrite Hu, Hi in HF. exists (sent_from s id'), ds, fs, id', r'. by split_and!.
Qed.
Next Obligation.
  intros s f b r (Hs & Hu & Hi). unfold aes128.Encode. rewrite Hs. destruct (SsrAuth.getDataLength b r) as [n r0].
  destruct (aes128.packAuthData hmac salt base64 kdf16 aes_cbc s now [] (take n b) r0) as [hdr r1] eqn:Eh.
  set (s1 := aes128.AuthAES128 _ _ _ _ true _).
  destruct (aes128_loop_frames hmac hmac_len (S (length b)) s1 hdr (drop n b) (Z.of_nat (length b)) r1) as (ds & fs & id' & r' & -> & HF & Hc); [rewrite length_drop; lia|].
  subst s1. cbn [aes128.user aes128.packID] in HF. rewrite Hu, Hi in HF.
  eexists _, n, hdr, ds, fs, id', r'. split_and!; [done|by eexists _, _|done|done|done|done|done].
Qed.
End Aes128.

(** ** [ShadowsocksR.StreamConn] *)
Section Stack.
(** The obfuscation and the protocol, by what they make of a connection; the types are
    the connections of each layer. *)
Context {C0 C1 C2 : Type} (Obfs_StreamConn : C0 → C1) (TcpConn : C1 → C2)
        (** [ObtainWriteIV] if the connection is a stream-cipher connection *)
        (write_iv : C2 → option (C2 * res (list Z)))
        {C3 : Type} (Protocol_StreamConn : C2 → list Z → C3).
(** [None]: the nil connection. *)
Definition ShadowsocksR_StreamConn (c : C0) : option C3 :=
  let c2 := TcpConn (Obfs_StreamConn c) in
  match write_iv c2 with
  | Some (c2', Ret iv) => Some (Protocol_StreamConn c2' iv)
  | Some (_, _) => None
  | None => Some (Protocol_StreamConn c2 [])
  end.
End Stack.

(** [makeSSRClientStreamConn]: the cipher connection of [makeStreamConn] with a stream
    cipher or none, over the obfuscated connection; plain obfuscation is the identity. *)
Definition bound_write_iv (rnd : list Z) (b : boundConn) : option (boundConn * res (list Z)) :=
  match b with
  | BStream x (iv, s) => let '(s1, r) := StreamConn.ObtainWriteIV (sIVSize x) (Ret rnd) s in Some (BStream x (iv, s1), r)
  | _ => None
  end.
Definition plain_StreamConn (c : conn) : conn := c.
Definition makeSSRClientStreamConn {C3} (scipher : option stream_cipher) (rnd : list Z) (Protocol_StreamConn : boundConn → list Z → C3) (c : conn) : option C3 :=
  ShadowsocksR_StreamConn plain_StreamConn (makeStreamConn scipher None rnd) (bound_write_iv rnd) Protocol_StreamConn c.

(** The protocol is given the IV that the first write will put on the wire. *)
Lemma ssr_iv_on_wire x iv c `{HS : !StreamScheme (sIVSize x) (sGetEncrypter x) (sGetDecrypter x)} :
  length iv = sIVSize x → c_wbudget c = None → c_out c = [] →
  ∃ s, makeSSRClientStreamConn (Some x) iv pair c = Some (BStream x (iv, s), iv) ∧ stream_out (sIVSize x) (sGetEncrypter x) (sGetDecrypter x) iv s [] ∧
    ∀ b, ∃ s' ct, nc_Write (NetConn := str_ops x) b (iv, s) = ((iv, s'), Ret (length b)) ∧ c_out (StreamConn.sc_conn s') = iv ++ ct.
Proof.
  intros Hl Hb Ho. pose proof (@stream_pos _ _ _ HS) as Hp.
  unfold makeSSRClientStreamConn, ShadowsocksR_StreamConn, plain_StreamConn, makeStreamConn, bound_write_iv.
  unfold StreamConn.ObtainWriteIV. cbn [StreamConn.writeIV StreamConn.NewStreamConn length].
  rewrite (proj2 (Nat.eqb_neq 0 (sIVSize x))) by lia. exists (StreamConn.MkStreamConn c None None [] iv). split; [reflexivity|].
  assert (stream_out (sIVSize x) (sGetEncrypter x) (sGetDecrypter x) iv (StreamConn.MkStreamConn c None None [] iv) []) as Hout.
  { split; [done|]. split; [done|]. simpl. auto. }
  split; [done|]. intros b. destruct (stream_write_law _ _ _ iv b _ [] Hout) as (s' & E & (_ & _ & Hw) & _).
  unfold StreamConn.conn_Write, StreamConn.get_writer in E. cbn [StreamConn.sc_w] in E.
  destruct (StreamConn.initWriter _ _ _ _) as [s1 [w|e|]] eqn:Ei; [|done|done].
  destruct (StreamConn.Write b w (StreamConn.sc_conn s1)) as [[[w1 c1] y]|] eqn:Ew; [|done]. injection E as <- Ey. cbn [StreamConn.put_writer StreamConn.sc_w StreamConn.sc_conn] in *.
  destruct Hw as (enc & dec & _ & _ & _ & Hc & _). exists (StreamConn.put_writer s1 c1 w1), (enc [] ([] ++ b)). split; [|exact Hc].
  unfold str_ops. cbn [nc_Write stream_conn]. unfold StreamConn.conn_Write, StreamConn.get_writer. cbn [StreamConn.sc_w]. by rewrite Ei, Ew, Ey.
Qed.

(** Without a stream cipher, as with an AEAD method, the protocol runs on the bare connection. *)
Lemma ssr_without_cipher {C3} rnd (proto : boundConn → list Z → C3) c :
  makeSSRClientStreamConn None rnd proto c = Some (proto (BPlain c) []).
Proof. reflexivity. Qed.

(** ** [ShadowsocksR.PacketConn]: the protocol over the cipher's datagrams *)
Section Packets.
Context {A P : Type} (EncodePacket : list Z → list Z) (DecodePacket : list Z → res (list Z)).
(** [WriteTo] and [ReadFrom] of the packet connection below. *)
Context (under_WriteTo : list Z → A → M P nat) (under_ReadFrom : nat → M P (list Z * A)).
Definition ssr_WriteTo (b : list Z) (addr : A) : M P nat := _ ← under_WriteTo (EncodePacket b) addr; mret (length b).
Definition decode_datagram (x : list Z * A) : M P (list Z * A) := d ← mlift (DecodePacket x.1); mret (d, x.2).
Definition ssr_ReadFrom (n : nat) : M P (list Z * A) := x ← under_ReadFrom n; decode_datagram x.

(** A datagram that the layer below carries is decoded to what was written. *)
Lemma ssr_packet_roundtrip n b addr p p1 p2 k :
  (∀ x, DecodePacket (EncodePacket x) = Ret x) → under_WriteTo (EncodePacket b) addr p = (p1, Ret k) →
  ssr_WriteTo b addr p = (p1, Ret (length b)) ∧
  (∀ q, under_ReadFrom n q = (p2, Ret (EncodePacket b, addr)) → ssr_ReadFrom n q = (p2, Ret (b, addr))).
Proof.
  intros Hd Hw. unfold ssr_WriteTo, ssr_ReadFrom. rewrite (bind_Ret _ _ _ _ _ Hw). split; [done|]. intros q Hr.
  rewrite (bind_Ret _ _ _ _ _ Hr). unfold decode_datagram. cbn. by rewrite Hd.
Qed.
End Packets.

(** [makePacketConn]: the cipher the datagrams of a connection are bound to. *)
Inductive boundPacket {P : Type} := PStream (x : stream_cipher) (c : P) | PAead (x : aead_cipher) (c : P) | PPlain (c : P).
Arguments boundPacket : clear implicits.
Definition makePacketConn {P} (scipher : option stream_cipher) (acipher : option aead_cipher) (c : P) : boundPacket P :=
  match scipher, acipher with
  | Some x, _ => PStream x c
  | None, Some x => PAead x c
  | None, None => PPlain c
  end.
Definition ShadowsocksR_PacketConn {P0 P1 P2} (UdpConn : P0 → P1) (Protocol_PacketConn : P1 → P2) (c : P0) : P2 := Protocol_PacketConn (UdpConn c).
Definition makeSSRClientPacketConn {P P2} (scipher : option stream_cipher) (Protocol_PacketConn : boundPacket P → P2) (c : P) : P2 :=
  ShadowsocksR_PacketConn (makePacketConn scipher None) Protocol_PacketConn c.

(** *** Witness: auth_sha1_v4 over the toy stream cipher *)
Definition demo_scheme : stream_cipher := StreamCipher 2 (λ _, Ret StreamConn.toy_enc) (λ _, Ret StreamConn.toy_dec).
#[export] Instance demo_scheme_ok : StreamScheme 2 (λ _, Ret StreamConn.toy_enc) (λ _, Ret StreamConn.toy_dec).
Proof. split; [lia|]. intros iv _. exists StreamConn.toy_enc, StreamConn.toy_dec. split_and!; [done|done|exact StreamConn.toy_stream_laws]. Qed.
Definition demo_sender : Conn (list Z * StreamConn.StreamConn) recvState sha1v4.authSHA1V4 :=
  MkConn (([1; 2]%Z, StreamConn.NewStreamConn w_conn) : list Z * StreamConn.StreamConn) (RecvState false 1) [] []
    (sha1v4.AuthSHA1V4 (sha1v4.base w_sha1) newAuthData [7]%Z false) w_rng.
Lemma ssr_session_witness :
  ∃ a' k hdr j, pr_Writes (NetConn0 := str_ops demo_scheme) (λ a, sha1v4.Encode (λ x _, x) a 0) [[7]; [8; 9]]%Z demo_sender = (a', Ret k) ∧
    ∀ c, pending c = c_out (StreamConn.sc_conn (p_Conn a').2) →
    ∃ s fuel b', io_ReadFull (NetConn0 := str_ops demo_scheme) (NetConnLaws0 := stream_conn_laws 2 (λ _, Ret StreamConn.toy_enc) (λ _, Ret StreamConn.toy_dec))
        (length hdr) ([1; 2]%Z, StreamConn.NewStreamConn c) = (s, Ret hdr) ∧
      pr_Drain (NetConn0 := str_ops demo_scheme) sha1v4.Decode fuel 4 [] (MkConn s (RecvState false 1) [] [] w_sha1 w_rng) =
        (b', drop j [7]%Z ++ [8; 9]%Z, Fail (c_rerr c)).
Proof.
  destruct (ssr_session (NetConn0 := str_ops demo_scheme) (NetConnLaws0 := stream_conn_laws 2 (λ _, Ret StreamConn.toy_enc) (λ _, Ret StreamConn.toy_dec))
    sha1v4.Decode (λ a, sha1v4.Encode (λ x _, x) a 0) [7]%Z [[8; 9]]%Z demo_sender 1%Z) as (a' & k & hdr & j & E & _ & H); [by repeat split; auto|done|].
  exists a', k, hdr, j. split; [exact E|]. intros c Hp. destruct (H [1; 2]%Z c Hp) as (s & Es & Hs). exists s.
  eexists. destruct (Hs (MkConn s (RecvState false 1) [] [] w_sha1 w_rng) 4 _ eq_refl eq_refl eq_refl eq_refl ltac:(lia) (le_n _)) as [b' Hb].
  exists b'. split; [exact Es|exact Hb].
Defined.
