(* ===== verification/Cmd.v ===== *)
(** * Package cmd: the command line.

    Models [src/cmd/root.go], [local.go] and [server.go]: the configuration that the flags
    make, the configuration file in its place, and what the two commands do with
    it. A flag's value is what the flag library has parsed; a flag that is not given has its
    default. Reading the file, the GeoIP database and waiting for a signal are
    parameters; the look of log lines is left out. *)
From S2P Require Import Prelude GoIO GoNet Rule Resolver Options Config OrdMap.
Local Open Scope Z_scope.

(** ** Flags *)
Inductive flagValue := FString (s : gostring) | FBool (b : bool) | FInt (n : Z) | FStrings (l : list gostring).
Abbreviation flags := (list (string * flagValue)).
(** The last occurrence counts. *)
Definition find_flag (fl : flags) (name : string) : option flagValue :=
  foldl (λ acc f, if decide (f.1 = name) then Some f.2 else acc) None fl.
Definition StringVar (fl : flags) (name : string) (d : string) : gostring :=
  match find_flag fl name with Some (FString s) => s | _ => str d end.
Definition BoolVar (fl : flags) (name : string) (d : bool) : bool :=
  match find_flag fl name with Some (FBool b) => b | _ => d end.
Definition IntVar (fl : flags) (name : string) (d : Z) : Z :=
  match find_flag fl name with Some (FInt n) => n | _ => d end.
Definition StringSliceVar (fl : flags) (name : string) (d : list gostring) : list gostring :=
  match find_flag fl name with Some (FStrings l) => l | _ => d end.

(** [enhancer.DefaultMTU] belongs to the TUN library. *)
Section Flags.
Context (DefaultMTU : Z) (fl : flags).

Definition tls_flags (prefix : string) : TlsOption :=
  let f n := StringVar fl (prefix ++ n) "" in
  CfgTls (f "-tls-mode") (f "-tls-host") (f "-tls-key") (f "-tls-cert") (f "-tls-ca").
Definition ws_flags : WsOption :=
  CfgWs (StringVar fl "ws-path" "/ws") (StringVar fl "ws-host" "www.baidu.com") (BoolVar fl "ws-compress" false) (tls_flags "ws").
Definition quic_flags : QuicOption :=
  CfgQuic (IntVar fl "quic-max-conn" 3) (IntVar fl "quic-keepalive" 0) (IntVar fl "quic-max-idle-timeout" 0)
    (IntVar fl "quic-handshake-idle-timeout" 0) (tls_flags "quic").
Definition grpc_flags : GrpcOption := CfgGrpc (IntVar fl "grpc-send-buf" 0) (IntVar fl "grpc-recv-buf" 0) (tls_flags "grpc").
Definition ssh_flags : SshOption :=
  CfgSsh (StringVar fl "ssh-user" "") (StringVar fl "ssh-password" "") (StringVar fl "ssh-prikey" "") (StringVar fl "ssh-pubkey" "")
    (StringVar fl "ssh-authorizedkey" "").
Definition ssr_flags : SSROption :=
  CfgSsr (StringVar fl "ssr-protocol" "origin") (StringVar fl "ssr-protocol-param" "") (StringVar fl "ssr-obfs" "plain")
    (StringVar fl "ssr-obfs-param" "").
(** The one server of the command line; it has no name. *)
Definition server_flags : ServerConfig :=
  CfgServer false (StringVar fl "type" "") [] (StringVar fl "server" "") (StringVar fl "password" "") (StringVar fl "method" "none")
    (StringVar fl "transport" "default") (BoolVar fl "udp-relay" false) (Some ws_flags) (Some (CfgObfs (StringVar fl "obfs-host" "www.baidu.com")))
    (Some quic_flags) (Some grpc_flags) (Some ssh_flags) (Some ssr_flags).
Definition tun_flags : TunOption :=
  CfgTun (BoolVar fl "tun-enable" false) (StringVar fl "tun-name" "utun9") (StringVar fl "tun-cidr" "198.18.0.1/16") (IntVar fl "tun-mtu" DefaultMTU)
    (BoolVar fl "tun-dns-auto-route" true) (StringSliceVar fl "tun-dns-hijack" []).
Definition dns_flags : DnsOption :=
  CfgDns (StringVar fl "fake-dns-listen" ":53") (StringSliceVar fl "fake-dns-domain-filter" [])
    (StringSliceVar fl "fake-dns-nameservers" [str "114.114.114.114"; str "8.8.8.8"]) (BoolVar fl "fake-dns-disable-rewrite" false).
Definition mitm_flags : MitmOption :=
  CfgMitm (BoolVar fl "mitm-mode" false) [] (StringVar fl "mitm-ca-path" "") (StringVar fl "mitm-key-path" "") None.
Definition local_flags : LocalConfig :=
  CfgLocal (StringVar fl "socks" "127.0.0.1:10086") (StringVar fl "http" "") (StringVar fl "socks-auth" "") (StringVar fl "http-auth" "")
    (StringVar fl "mixed" "") (StringSliceVar fl "tcp-tun" []) (BoolVar fl "system-proxy" false) (BoolVar fl "lookup-hostsfile" false)
    (Some mitm_flags) (Some tun_flags) (Some dns_flags).
Definition rules_flags : cfgRules := CfgRules (str "global") [] [] (Some (CfgMatch [] [] [] [] [] [])).
Definition cfg_flags : Config_ :=
  MkConfig [server_flags] (Some local_flags) (StringVar fl "iface" "") (BoolVar fl "auto-detect-iface" false) (Some rules_flags).

(** [initConfig]: a configuration file replaces everything. *)
Context (ParseConfigFile : gostring → res Config_).
Definition configFile : gostring := StringVar fl "config" "".
Definition initConfig : res Config_ := match configFile with [] => Ret cfg_flags | f => ParseConfigFile f end.

(** The level of the logger; the name is compared as it is. *)
Inductive LevelType := LevelTrace | LevelDebug | LevelInfo | LevelWarn | LevelError | LevelFatal | LevelPanic.
Definition log_level (s : gostring) : LevelType :=
  if decide (s = str "trace") then LevelTrace else if decide (s = str "debug") then LevelDebug else
  if decide (s = str "warn") then LevelWarn else if decide (s = str "error") then LevelError else
  if decide (s = str "fatal") then LevelFatal else if decide (s = str "panic") then LevelPanic else LevelInfo.

(** ** The commands *)

(** A command shows its help, ends with a message, or runs. A panic is recovered: with
    an error as its value it is reported, with anything else it is not. *)
Inductive outcome {A : Type} := ShowHelp | Fatal (e : error) | Crashed | Runs (a : A).
Arguments outcome : clear implicits.
Definition no_server (cfg : Config_) : bool := match Server cfg with [] => true | s :: _ => bool_decide (sc_Addr s = []) end.
Definition result {A} (r : res A) : outcome A := match r with Ret a => Runs a | Fail e => Fatal e | Panic => Crashed end.

Definition errServerEmpty := errNew "server node is empty".

Context (md5 : list Z → list Z) {Msg C1 C2 : Type} (DefaultRouteInterface : option gostring) (localDns : list gostring).
(** What opening the country database gives. *)
Context (OpenDB : option error).
Abbreviation NewClient := (NewShadowsocksClient (Msg := Msg) (C1 := C1) (C2 := C2) md5 DefaultRouteInterface localDns).
Abbreviation NewServer := (NewShadowsocksServer (Msg := Msg) (C1 := C1) (C2 := C2) md5 DefaultRouteInterface localDns).
Abbreviation world := (clientWorld (Msg := Msg) (C1 := C1) (C2 := C2)).

Definition StartLocal (cfg : Config_) (w : world) : world * outcome ShadowsocksClient :=
  match OpenDB with
  | Some e => (w, Fatal e)
  | None =>
      let '(g, r) := BuildSSLocalOptions cfg (cw_globals w) in
      let w1 := ClientWorld g (cw_selector w) (cw_resolver w) in
      match r with
      | Ret opts => let '(w2, x) := NewClient opts w1 in (w2, result x)
      | Fail e => (w1, Fatal e)
      | Panic => (w1, Crashed)
      end
  end.
Definition run_client (w : world) : world * outcome ShadowsocksClient :=
  match initConfig with
  | Fail e => (w, Fatal e)
  | Panic => (w, Crashed)
  | Ret cfg => if no_server cfg && bool_decide (configFile = []) then (w, ShowHelp) else StartLocal cfg w
  end.
Definition StartServer (cfg : Config_) (g : globals) : globals * outcome ShadowsocksServer :=
  if no_server cfg then (g, Fatal errServerEmpty) else
  match BuildServerOptions cfg g with
  | (g1, Ret opts) => let '(g2, x) := NewServer opts g1 in (g2, result x)
  | (g1, Fail e) => (g1, Fatal e)
  | (g1, Panic) => (g1, Crashed)
  end.
Definition run_server (g : globals) : globals * outcome ShadowsocksServer :=
  match initConfig with
  | Fail e => (g, Fatal e)
  | Panic => (g, Crashed)
  | Ret cfg => if no_server cfg && bool_decide (configFile = []) then (g, ShowHelp) else StartServer cfg g
  end.

(** ** Properties *)

Lemma server_flags_of so : server_of server_flags = Some so → so_name so = [] ∧ so_addr so = StringVar fl "server" "".
Proof.
  unfold server_of. cbn [sc_Name sc_Addr server_flags sc_Ws sc_Obfs sc_Quic sc_Grpc sc_Ssh sc_SSR mbind option_bind]. intros H.
  repeat (destruct (decide _) in H; [by injection H as <-|]). by injection H as <-.
Qed.

(** The client of a command line, by its flags. *)
Lemma cli_client_made w w' o :
  configFile = [] → run_client w = (w', o) →
  if decide (StringVar fl "server" "" = []) then w' = w ∧ o = ShowHelp
  else ∀ c, o = Runs c →
    cl_srvGroup c = front_ends local_flags ∧
    ∃ so v ru, server_of server_flags = Some so ∧ so_addr so = StringVar fl "server" "" ∧ node_of md5 (set_so_name DefaultName so) v ∧
      cw_selector w' = foldl selector.register (cw_selector w) (registrations (set_so_name DefaultName so, v)) ∧
      g_MatchRuler (cw_globals w') = Some ru ∧
      ∀ LookupHost db target, ∃ ru', Ruler_Match LookupHost db target ru = (ru', target, Ret true) ∧ Rule.Select ru' = Ret DefaultName.
Proof.
  intros Hc. unfold run_client, initConfig. rewrite Hc. cbn [Server cfg_flags no_server]. unfold server_flags at 1. cbn [sc_Addr].
  rewrite (bool_decide_true (@nil Z = [])) by done. destruct (decide (StringVar fl "server" "" = [])) as [Hs|Hs].
  { rewrite bool_decide_true by done. cbn [andb]. by intros [= <- <-]. }
  rewrite bool_decide_false by done. cbn [andb]. unfold StartLocal. destruct OpenDB as [e|]; [by intros [= <- <-]|].
  destruct (BuildSSLocalOptions cfg_flags (cw_globals w)) as [g [opts|e|]] eqn:Eb; [|by intros [= <- <-]|by intros [= <- <-]].
  destruct (NewClient opts _) as [w2 x] eqn:En. intros [= <- <-] c Hx. destruct x as [c'|e|]; [|done|done]. injection Hx as ->.
  destruct (client_config_made md5 DefaultRouteInterface localDns cfg_flags local_flags _ _ _ _ _ _ eq_refl Eb En)
    as (Hf & _ & _ & ss & ru & vs & Hss & Hru & HF & Hsel & Hr). split; [exact Hf|].
  change (enabled (Server cfg_flags)) with [server_flags] in Hss. cbn [mapM] in Hss.
  destruct (server_of server_flags) as [so|] eqn:Eso; [|done]. injection Hss as <-.
  destruct (server_flags_of so Eso) as [Hn Ha]. injection Hru as <-.
  unfold default_named in *. rewrite Hn in *. cbn [GlobalTo] in *. rewrite decide_True in * by done. cbn [fst snd] in *.
  apply Forall2_cons_inv_l in HF as (v & vs' & Hv & ->%Forall2_nil_inv_l & ->).
  eexists so, v, _. split_and!; [done|done|done|by rewrite Hsel; cbn; rewrite app_nil_r|exact Hr|].
  intros LookupHost db target. eexists. split; reflexivity.
Qed.
(** The server of a command line. *)
Lemma cli_server_made g g' s : configFile = [] → run_server g = (g', Runs s) →
  ∃ g1 opts, BuildServerOptions cfg_flags g = (g1, Ret opts) ∧ NewServer opts g1 = (g', Ret s).
Proof.
  intros Hc. unfold run_server, initConfig. rewrite Hc. unfold StartServer. destruct (no_server cfg_flags); [by destruct (bool_decide _)|].
  cbn [andb]. destruct (BuildServerOptions cfg_flags g) as [g1 [opts|e|]]; [|done|done]. destruct (NewServer opts g1) as [g2 [x|e|]] eqn:E; [|done|done].
  intros [= <- <-]. by exists g1, opts.
Qed.

(** C30 (functional): the client a command line makes. Without a configuration file it
    shows its help unless a server is named; otherwise, when it runs, it listens
    exactly where the flags say, on 127.0.0.1:10086 for SOCKS5 by default, and has one
    proxy node, the server of the flags with its transport and ciphers; and whatever
    the target of a connection, the rules let it pass and choose that node. *)
Theorem cli_client w w' o :
  configFile = [] → run_client w = (w', o) →
  if decide (StringVar fl "server" "" = []) then w' = w ∧ o = ShowHelp
  else ∀ c, o = Runs c →
    cl_srvGroup c = front_ends local_flags ∧
    ∃ so v ru, server_of server_flags = Some so ∧ so_addr so = StringVar fl "server" "" ∧ node_of md5 (set_so_name DefaultName so) v ∧
      cw_selector w' = foldl selector.register (cw_selector w) (registrations (set_so_name DefaultName so, v)) ∧
      g_MatchRuler (cw_globals w') = Some ru ∧
      ∀ LookupHost db target, ∃ ru', Ruler_Match LookupHost db target ru = (ru', target, Ret true) ∧ Rule.Select ru' = Ret DefaultName.
Proof. apply cli_client_made. Qed.
End Flags.

(** *** Witness *)
Module CmdDemo.
Definition fl : flags :=
  [("server"%string, FString (str "1.2.3.4:8388")); ("method"%string, FString (str "aes-128-gcm")); ("password"%string, FString (str "pw"));
   ("socks-auth"%string, FString (str "user:pass"));
   ("http"%string, FString (str ":8080"))].
Definition world0 : clientWorld (Msg := unit) (C1 := unit) (C2 := unit) := ClientWorld CfgDemo.globals0 selector.NewSelector None.
Definition run := run_client 1500 fl (λ _, Fail io_EOF) CfgDemo.md5 None [] None world0.
Definition client : ShadowsocksClient := match run.2 with Runs c => c | _ => MkClient [] None defaultSSLocalOpts end.
End CmdDemo.
Lemma cli_client_witness :
  cl_srvGroup CmdDemo.client = front_ends (local_flags 1500 CmdDemo.fl) ∧ length (cl_srvGroup CmdDemo.client) = 2%nat.
Proof.
  pose proof (cli_client 1500 CmdDemo.fl (λ _, Fail io_EOF) CfgDemo.md5 None [] None CmdDemo.world0 CmdDemo.run.1 CmdDemo.run.2 eq_refl
    ltac:(unfold CmdDemo.run; apply surjective_pairing)) as H.
  destruct (decide _) as [E|_] in H; [discriminate E|]. destruct (H CmdDemo.client ltac:(vm_compute; reflexivity)) as [Hf _].
  split; [exact Hf|]. vm_compute. reflexivity.
Defined.
