(* ===== verification/Deploy.v ===== *)
(** * Client and server of one deployment.

    Composes Config.v, OrdMap.v, Cipher.v and TcpRelay.v: a client made of its
    configuration, with the node its selector finds under a name, and a server made of
    another configuration, with the handler of a section that has the same method
    and password. The primitives of cryptography stay parameters; here they are
    assumed to be what their documentation says, for the sizes of keys and nonces the
    tables of [src/cipher/cipher.go] ask for. *)
From S2P Require Import Prelude GoIO GoNet Address Cipher GoStream TcpRelay OrdMap Rule Options Config.
Local Open Scope nat_scope.

(** Two constructors give streams that undo each other. *)
Definition stream_pair (enc dec : res Stream) : Prop := ∃ e d, enc = Ret e ∧ dec = Ret d ∧ StreamLaws e d.
(** The sizes of AES keys. *)
Definition aes_key (n : nat) : Prop := n = 16 ∨ n = 24 ∨ n = 32.

Section Deploy.
Context (md5 : list Z → list Z) (hkdf_sha1 : list Z → list Z → list Z → nat → list Z)
        {Block : Type} (aes_NewCipher blowfish_NewCipher : list Z → res Block)
        (NewCTR NewCFBEncrypter NewCFBDecrypter : Block → list Z → res Stream)
        (NewGCM : Block → res AEAD) (chacha20poly1305_New chacha20poly1305_NewX : list Z → res AEAD)
        (rc4 : list Z → res Stream) (chacha20 : list Z → list Z → res Stream) (salsa20_xor : list Z → list Z → list Z → list Z).

(** The primitives, as documented. [block b n]: [b] is a block cipher of blocks of [n] bytes. *)
Context (block : Block → nat → Prop).
Class Primitives := {
  prim_md5 m : length (md5 m) = 16;
  prim_hkdf key salt info n : length (hkdf_sha1 key salt info n) = n;
  prim_aes key : aes_key (length key) → ∃ b, aes_NewCipher key = Ret b ∧ block b 16;
  prim_blowfish key : length key = 16 → ∃ b, blowfish_NewCipher key = Ret b ∧ block b 8;
  prim_ctr b n iv : block b n → length iv = n → stream_pair (NewCTR b iv) (NewCTR b iv);
  prim_cfb b n iv : block b n → length iv = n → stream_pair (NewCFBEncrypter b iv) (NewCFBDecrypter b iv);
  prim_gcm b : block b 16 → ∃ a, NewGCM b = Ret a ∧ AEADLaws a a;
  prim_poly1305 key : length key = 32 → ∃ a, chacha20poly1305_New key = Ret a ∧ AEADLaws a a;
  prim_xpoly1305 key : length key = 32 → ∃ a, chacha20poly1305_NewX key = Ret a ∧ AEADLaws a a;
  prim_rc4 key : length key = 16 → stream_pair (rc4 key) (rc4 key);
  prim_chacha20 key iv : length key = 32 → length iv = 12 → stream_pair (chacha20 key iv) (chacha20 key iv);
}.
Context {HP : Primitives}.

Definition stream_of (m : metaStreamCipher) : stream_cipher :=
  StreamCipher (sc_ivSize m)
    (sc_GetEncrypter md5 aes_NewCipher blowfish_NewCipher NewCTR NewCFBEncrypter rc4 chacha20 salsa20_xor m)
    (sc_GetDecrypter md5 aes_NewCipher blowfish_NewCipher NewCTR NewCFBDecrypter rc4 chacha20 salsa20_xor m).
Definition aead_of (m : metaAEADCipher) : aead_cipher :=
  AeadCipher (ac_saltSize m) (ac_GetEncrypter hkdf_sha1 aes_NewCipher NewGCM chacha20poly1305_New chacha20poly1305_NewX m)
    (ac_GetDecrypter hkdf_sha1 aes_NewCipher NewGCM chacha20poly1305_New chacha20poly1305_NewX m).

(** The methods that work. The stream of salsa20 depends on how its input is cut, and the
    IVs of chacha20 are refused by its constructor. *)
Definition working_method (m : gostring) : bool := bool_decide (m ≠ str "salsa20") && bool_decide (m ≠ str "chacha20").

(** ** The tables fit the primitives *)
Lemma lookup_method_elem {A} m (l : list (gostring * A)) a : lookup_method m l = Some a → (m, a) ∈ l.
Proof.
  induction l as [|[k x] l IH]; [done|]. cbn [lookup_method]. case_decide as H; [intros [= ->]; subst; by left|]. intros E. right. by apply IH.
Qed.

(** The entries of the tables, by their key, IV or salt sizes and kinds. *)
Lemma stream_table m k iv kind : lookup_method m streamCipherMap = Some (k, iv, kind) → working_method m = true →
  (aes_key k ∧ iv = 16 ∧ (kind = AesCtr ∨ kind = AesCfb)) ∨ (k = 16 ∧ iv = 8 ∧ kind = BfCfb) ∨ (k = 16 ∧ iv = 16 ∧ kind = Rc4Md5) ∨
  (k = 32 ∧ iv = 12 ∧ kind = Chacha20Ietf).
Proof.
  intros H Hw. apply lookup_method_elem in H. unfold working_method in Hw. apply andb_true_iff in Hw as [H1%bool_decide_eq_true H2%bool_decide_eq_true].
  unfold streamCipherMap in H. unfold aes_key.
  repeat (apply elem_of_cons in H as [H|H]; [injection H as -> -> -> ->; first [done|auto 8]|]). by apply elem_of_nil in H.
Qed.
Lemma aead_table m k salt n tag kind : lookup_method m aeadCipherMap = Some (k, salt, n, tag, kind) →
  salt = k ∧ aes_key k ∧ (kind = AesGcm ∨ k = 32).
Proof.
  intros H. apply lookup_method_elem in H. unfold aeadCipherMap in H. unfold aes_key.
  repeat (apply elem_of_cons in H as [H|H]; [injection H as -> -> -> -> -> ->; auto 8|]). by apply elem_of_nil in H.
Qed.

(** ** Every working method gives a working cipher *)
Lemma stream_method_works m password sc : NewStreamCipher md5 m password = Ret sc → working_method m = true →
  StreamScheme (sIVSize (stream_of sc)) (sGetEncrypter (stream_of sc)) (sGetDecrypter (stream_of sc)).
Proof.
  intros HN Hw. destruct (NewStreamCipher_inv _ _ _ _ HN) as (k & Hl).
  destruct (kdf_evp_bytes_to_key md5 prim_md5 password 0) as (_ & _ & Hk & _). destruct (Hk m sc HN) as (iv & kd & Hl' & _).
  rewrite Hl in Hl'. injection Hl' as -> _ _. destruct sc as [key ivSize kind]. unfold sc_KeySize in Hl. cbn [sc_key sc_ivSize sc_kind] in Hl.
  destruct (stream_table m _ _ _ Hl Hw) as [(Hk1 & -> & [-> | ->])|[(Hk1 & -> & ->)|[(Hk1 & -> & ->)|(Hk1 & -> & ->)]]];
    (split; [simpl; lia|]); intros iv0 Hiv; cbn in *.
  - unfold aesCTR. destruct (prim_aes key Hk1) as (b & -> & Hb). exact (prim_ctr b 16 iv0 Hb Hiv).
  - unfold aesCFB_enc, aesCFB_dec. destruct (prim_aes key Hk1) as (b & -> & Hb). exact (prim_cfb b 16 iv0 Hb Hiv).
  - unfold bfCFB_enc, bfCFB_dec. destruct (prim_blowfish key Hk1) as (b & -> & Hb). exact (prim_cfb b 8 iv0 Hb Hiv).
  - unfold rc4MD5. apply prim_rc4, prim_md5.
  - by apply prim_chacha20.
Qed.
Lemma aead_method_works m password ac : NewAEADCipher md5 m password = Ret ac →
  AeadScheme (aSaltSize (aead_of ac)) (aGetEncrypter (aead_of ac)) (aGetDecrypter (aead_of ac)).
Proof.
  intros HN. destruct (kdf_evp_bytes_to_key md5 prim_md5 password 0) as (_ & _ & _ & Hk). destruct (Hk m ac HN) as (n & tag & kd & Hl).
  destruct (aead_table _ _ _ _ _ _ Hl) as (Hs & Ha & Hkd).
  assert (ac_kind ac = kd) as Hkind.
  { unfold NewAEADCipher in HN. rewrite Hl in HN. destruct (Kdf _ _ _); [|done]. by injection HN as <-. }
  split; [simpl; unfold aes_key in Ha; lia|]. intros salt _. cbn. unfold ac_GetEncrypter, ac_GetDecrypter, hkdfSha1.
  set (key := hkdf_sha1 _ _ _ _). assert (length key = ac_KeySize ac) as Hkey by apply prim_hkdf.
  assert (∃ a, makeAEAD aes_NewCipher NewGCM chacha20poly1305_New chacha20poly1305_NewX (ac_kind ac) key = Ret a ∧ AEADLaws a a) as (a & -> & HA).
  { rewrite Hkind. rewrite <-Hkey in Ha, Hkd. destruct kd; cbn [makeAEAD].
    - destruct (prim_aes key Ha) as (b & -> & Hb). by apply prim_gcm.
    - apply prim_poly1305. by destruct Hkd.
    - apply prim_xpoly1305. by destruct Hkd. }
  by exists a, a.
Qed.
Lemma ciphers_work m password sc ac : GetCipher md5 m password = Ret (sc, ac) → working_method m = true →
  Ciphers (stream_of <$> sc) (aead_of <$> ac).
Proof.
  unfold GetCipher. intros H Hw. case_decide; [by injection H as <- <-|]. destruct (lookup_method m streamCipherMap).
  - destruct (NewStreamCipher md5 m password) as [s|e|] eqn:E; [|done..]. injection H as <- <-. split; [|done].
    intros x [= <-]. by eapply stream_method_works.
  - destruct (lookup_method m aeadCipherMap); [|done]. destruct (NewAEADCipher md5 m password) as [s|e|] eqn:E; [|done..].
    injection H as <- <-. split; [done|]. intros x [= <-]. by eapply aead_method_works.
Qed.

(** ** The node of a name, the handler of a section *)
Lemma latest_app {V} tcp name (a b : list (bool * gostring * V)) :
  selector.latest tcp name (a ++ b) = match selector.latest tcp name b with Some v => Some v | None => selector.latest tcp name a end.
Proof.
  unfold selector.latest. rewrite foldl_app. generalize (foldl (λ acc r, let '(t, n, v) := r in if decide (t = tcp ∧ n = name) then Some v else acc) None a).
  induction b as [|[[t n] v] b IH] using rev_ind; intros acc; [done|]. rewrite !foldl_snoc. case_decide; [done|]. apply IH.
Qed.
Lemma latest_other tcp so v name : so_name so ≠ name → selector.latest tcp name (registrations (so, v)) = None.
Proof. intros Hn. unfold registrations, selector.latest. cbn. rewrite decide_False by naive_solver. destruct (so_udp so); cbn; [|done]. by rewrite decide_False by naive_solver. Qed.
(** A server of the configuration relays UDP if it says so. *)
Definition serves (tcp : bool) (udp : bool) : Prop := tcp = true ∨ udp = true.
Lemma latest_own tcp so v : serves tcp (so_udp so) → selector.latest tcp (so_name so) (registrations (so, v)) = Some v.
Proof.
  unfold serves, registrations, selector.latest. destruct tcp.
  - intros _. cbn. rewrite decide_True by done. destruct (so_udp so); cbn; [|done]. by rewrite decide_False by naive_solver.
  - intros [|Hu]; [done|]. cbn. rewrite Hu. cbn. rewrite (decide_False (P := true = false ∧ _)) by (by intros [? _]). by rewrite decide_True by done.
Qed.
Lemma latest_absent tcp name ss vs : name ∉ so_name <$> ss → selector.latest tcp name (concat (registrations <$> zip ss vs)) = None.
Proof.
  revert vs. induction ss as [|s ss IH]; intros [|v vs]; cbn [zip zip_with fmap list_fmap concat]; try done. rewrite not_elem_of_cons. intros [H1 H2].
  by rewrite latest_app, IH, latest_other.
Qed.
Lemma node_found ss vs so : Forall2 (node_of md5) ss vs → NoDup (so_name <$> ss) → so ∈ ss →
  ∃ v, node_of md5 so v ∧ ∀ tcp, serves tcp (so_udp so) → selector.latest tcp (so_name so) (concat (registrations <$> zip ss vs)) = Some v.
Proof.
  intros HF. induction HF as [|s v ss vs Hv HF IH]; cbn [fmap list_fmap]; [by intros _ ?%elem_of_nil|]. rewrite NoDup_cons. intros [Hn HD] Hin.
  cbn [zip zip_with fmap list_fmap concat]. apply elem_of_cons in Hin as [-> |Hin].
  - exists v. split; [done|]. intros tcp Ht. by rewrite latest_app, latest_absent, latest_own.
  - destruct (IH HD Hin) as (v' & Hv' & E). exists v'. split; [done|]. intros tcp Ht. fold (zip ss vs). by rewrite latest_app, E.
Qed.

(** What a section says of its server, whatever its transport. *)
Definition uses_ssr (c : ServerConfig) : Prop := sc_Transport c = str "default" ∧ sc_Type c = str "ssr".
Lemma server_of_fields c so : server_of c = Some so →
  so_name so = sc_Name c ∧ so_addr so = sc_Addr c ∧ so_method so = sc_Method c ∧ so_password so = sc_Password c ∧ so_udp so = sc_Udp c ∧
  (¬ uses_ssr c → so_ssr so = false).
Proof.
  unfold server_of, uses_ssr. intros H. repeat case_decide;
    repeat match goal with H : context [?x ≫= _] |- _ => destruct x; cbn [mbind option_bind] in H; [|done] end; injection H as <-; by split_and!.
Qed.
(** The two ends of a transport agree on it. *)
Lemma server_of_transport c d so so' : server_of c = Some so → server_of d = Some so' → sc_Transport d = sc_Transport c → so_transport so' = so_transport so.
Proof.
  unfold server_of. intros H H' Ht. rewrite Ht in H'. repeat case_decide;
    repeat match goal with H : context [?x ≫= _] |- _ => destruct x; cbn [mbind option_bind] in H; [|done] end; by injection H as <-; injection H' as <-.
Qed.

Context {Msg C1 C2 : Type} (DefaultRouteInterface : option gostring) (localDns localDns' : list gostring).
Abbreviation NewClient := (NewShadowsocksClient (Msg := Msg) (C1 := C1) (C2 := C2) md5 DefaultRouteInterface localDns).
Abbreviation NewServer := (NewShadowsocksServer (Msg := Msg) (C1 := C1) (C2 := C2) md5 DefaultRouteInterface localDns').

Lemma default_named_named ru ss so : so ∈ ss → so_name so ≠ [] → default_named ru ss = (ru, ss).
Proof.
  unfold default_named. destruct ss as [|s [|s2 ss]]; [done| |done]. intros ->%list_elem_of_singleton Hn. by rewrite decide_False by tauto.
Qed.
Lemma section_server l ss c : mapM server_of l = Some ss → c ∈ l → ∃ so, server_of c = Some so ∧ so ∈ ss.
Proof.
  intros H%mapM_Some Hc. induction H as [|x y l ss Hxy _ IH]; [by apply elem_of_nil in Hc|].
  apply elem_of_cons in Hc as [-> |Hc]; [exists y; split; [done|by left]|]. destruct (IH Hc) as (so & ? & ?). exists so. split; [done|by right].
Qed.
Lemma section_names l ss : mapM server_of l = Some ss → so_name <$> ss = sc_Name <$> l.
Proof.
  intros H%mapM_Some. induction H as [|x y l ss Hxy _ IH]; [done|]. cbn. f_equal; [|done]. by destruct (server_of_fields _ _ Hxy).
Qed.

(** The node a client uses under the name of a section. *)
Lemma client_node cfg l w opts g w' c sec :
  Local cfg = Some l → BuildSSLocalOptions cfg (cw_globals w) = (g, Ret opts) → NewClient opts w = (w', Ret c) → cw_selector w = selector.NewSelector →
  sec ∈ enabled (Server cfg) → sc_Name sec ≠ [] → NoDup (sc_Name <$> enabled (Server cfg)) →
  ∃ so v, server_of sec = Some so ∧ node_of md5 so v ∧ selector.Select (sc_Name sec) (cw_selector w') = selector.Proxy v ∧
    (sc_Udp sec = true → selector.SelectPacket (sc_Name sec) (cw_selector w') = selector.Proxy v).
Proof.
  intros Hl Hb Hc Hs Hin Hn HD.
  destruct (client_config_made md5 DefaultRouteInterface localDns cfg l w opts (cw_globals w) g w' c Hl Hb Hc) as (_ & _ & _ & ss & ru & vs & Hss & _ & HF & Hsel & _).
  destruct (section_server _ _ _ Hss Hin) as (so & Hso & Hm). destruct (server_of_fields _ _ Hso) as (Hname & _ & _ & _ & Hudp & _).
  rewrite (default_named_named ru ss so) in HF, Hsel by congruence. cbn [snd] in *. rewrite <-(section_names _ _ Hss) in HD.
  destruct (node_found ss vs so HF HD Hm) as (v & Hv & E). exists so, v. rewrite Hsel, Hs.
  destruct (selector_latest (concat (registrations <$> zip ss vs)) (sc_Name sec)) as [H1 H2]. unfold selector.configured in H1, H2. rewrite H1, H2.
  rewrite !decide_False by done. rewrite Hname in E. split_and!; [done|done|by rewrite (E true) by (by left)|]. intros Hu. by rewrite (E false) by (right; congruence).
Qed.
(** The listener of a section and its handler. *)
Lemma server_handler cfg g g1 opts g' sv sec sc ac :
  BuildServerOptions cfg g = (g1, Ret opts) → NewServer opts g1 = (g', Ret sv) →
  sec ∈ enabled (Server cfg) → GetCipher md5 (sc_Method sec) (sc_Password sec) = Ret (sc, ac) →
  ∃ so i h o, server_of sec = Some so ∧ sv_handlerList sv !! i = Some h ∧ sh_tcpRelayer h = BoundSS sc ac ∧ sv_srvGroup sv !! i = Some (so_transport so, sc_Addr sec, o) ∧
    sh_udpRelayer h = (if sc_Udp sec then Some (sc_Addr sec, BoundSS sc ac) else None).
Proof.
  intros Hb Hs Hin Hc. destruct (server_from_config md5 DefaultRouteInterface localDns' cfg g g1 opts g' sv Hb Hs) as (ss & Hss & _ & Hh & Hg).
  destruct (section_server _ _ _ Hss Hin) as (so & Hso & Hm).
  destruct (server_of_fields _ _ Hso) as (_ & <- & Hmm & Hp & <- & _). rewrite <-Hmm, <-Hp in Hc.
  assert (∃ h o, usable md5 so = Some (h, (so_transport so, so_addr so, o)) ∧ sh_tcpRelayer h = BoundSS sc ac ∧
    sh_udpRelayer h = (if so_udp so then Some (so_addr so, BoundSS sc ac) else None)) as (h & o & Hu & Hr & Hur).
  { unfold usable. rewrite Hc. by eexists _, _. }
  assert ((h, (so_transport so, so_addr so, o)) ∈ omap (usable md5) ss) as [i Hi]%list_elem_of_lookup by (apply list_elem_of_omap; eauto).
  exists so, i, h, o. rewrite Hh, Hg, !list_lookup_fmap, Hi. done.
Qed.

(** C2 (round trip): a deployment works. Take a client and a server, each made of its own
    configuration, and an enabled section of each with the same method, password and
    transport. The client's section is not a ShadowsocksR one, the names of its enabled
    sections are distinct and this one's is not empty, and the method is not salsa20 or
    chacha20. Then the client's selector finds, under the name of the section, a node
    that dials the section's address, the server listens on its address over the same
    transport, and both are bound to the ciphers that [GetCipher] gives for the method
    and password, which are none only for the method none. If both ends can dial, no
    write fails and what is read ends with EOF: whatever a local program sends through
    that node to the target it names, the handler of the server dials that target and
    sends it exactly these bytes. *)
Theorem deployment_end_to_end cfgC l w opts g w' c cfgS gs gs1 sopts gs' sv cs ss :
  Local cfgC = Some l → BuildSSLocalOptions cfgC (cw_globals w) = (g, Ret opts) → NewClient opts w = (w', Ret c) → cw_selector w = selector.NewSelector →
  BuildServerOptions cfgS gs = (gs1, Ret sopts) → NewServer sopts gs1 = (gs', Ret sv) →
  cs ∈ enabled (Server cfgC) → sc_Name cs ≠ [] → NoDup (sc_Name <$> enabled (Server cfgC)) → ¬ uses_ssr cs → ss ∈ enabled (Server cfgS) →
  sc_Method ss = sc_Method cs → sc_Password ss = sc_Password cs → sc_Transport ss = sc_Transport cs → working_method (sc_Method cs) = true →
  ∃ v i h o sc ac (HC : Ciphers (stream_of <$> sc) (aead_of <$> ac)),
    GetCipher md5 (sc_Method cs) (sc_Password cs) = Ret (sc, ac) ∧ (sc = None → ac = None → sc_Method cs = str "none") ∧
    selector.Select (sc_Name cs) (cw_selector w') = selector.Proxy v ∧ v_Addr v = sc_Addr cs ∧ v_TcpConnBound v = BoundSS sc ac ∧
    sv_handlerList sv !! i = Some h ∧ sv_srvGroup sv !! i = Some (v_Type v, sc_Addr ss, o) ∧ sh_tcpRelayer h = BoundSS sc ac ∧
    let ops := bound_conn (stream_of <$> sc) (aead_of <$> ac) in let laws := bound_conn_laws (stream_of <$> sc) (aead_of <$> ac) in
    ∀ Dial DialS remote rnd rnd' buf buf' a (cc d : conn) (n n' : nat),
      Dial (v_Addr v) = Ret d → c_wbudget d = None → c_out d = [] → nc_rnd (T := boundConn) rnd →
      (∀ host p, SplitHostPort remote = inl (host, p) → wf_bytes host) → ParseAddress remote buf = Ret a →
      c_rerr cc = io_EOF → 0 < n → 0 < n' → MaxAddressBufferSize ≤ length buf' →
      ∃ b s cc', RelayToProxyServer (T := boundConn) Dial (v_Addr v) remote rnd buf cc = Ret b ∧
        ioCopyWithBuffer n (b_dst b) (b_src b) = (s, cc', Ret None) ∧
        ∀ cs addr t, pending cs = c_out (nc_under s) → c_rerr cs = io_EOF →
          dialled remote = Some addr → DialS addr = Ret t → c_wbudget t = None → c_out t = [] →
          ∃ b' t' s', RelayToServer (T := boundConn) DialS rnd' buf' cs = Ret b' ∧
            ioCopyWithBuffer n' (b_dst b') (b_src b') = (t', s', Ret None) ∧ c_out t' = pending cc.
Proof.
  intros Hl Hb Hc Hsel Hbs Hns Hin Hn HD Hssr Hins Hm Hp Ht Hw.
  destruct (client_node cfgC l w opts g w' c cs Hl Hb Hc Hsel Hin Hn HD) as (so & v & Hso & (b & Hbind & ->) & Hv & _).
  destruct (server_of_fields _ _ Hso) as (_ & Ha & Hmc & Hpc & _ & Hr). unfold bind_server in Hbind. rewrite (Hr Hssr) in Hbind.
  destruct (GetCipher md5 (so_method so) (so_password so)) as [[sc ac]|e|] eqn:Eg; [|done..]. injection Hbind as <-.
  rewrite Hmc, Hpc in Eg. pose proof (ciphers_work _ _ _ _ Eg Hw) as HC. rewrite <-Hm, <-Hp in Eg.
  destruct (server_handler cfgS gs gs1 sopts gs' sv ss sc ac Hbs Hns Hins Eg) as (so' & i & h & o & Hso' & Hh & Hrel & Hg & _).
  rewrite (server_of_transport _ _ _ _ Hso Hso' Ht) in Hg. rewrite Hm, Hp in Eg.
  eexists _, i, h, o, sc, ac, HC. split_and!; [exact Eg|by apply (GetCipher_none _ _ _ _ _ Eg)|exact Hv|exact Ha|done|done|exact Hg|done|].
  intros ops laws Dial DialS remote rnd rnd' buf buf' a cc d n n'. exact (tcp_transfer _ _ Dial DialS (so_addr so) remote rnd rnd' buf buf' a cc d n n').
Qed.
End Deploy.

(** *** Witness: the configuration of Config.v on both sides *)
Module DeployDemo.
(** A block cipher is given by the size of its blocks. *)
Definition mode : nat → list Z → res Stream := λ n iv, if length iv =? n then Ret (λ _ m, m) else Panic.
Definition cfb_enc : nat → list Z → res Stream := λ n iv, if length iv =? n then Ret StreamConn.toy_enc else Panic.
Definition cfb_dec : nat → list Z → res Stream := λ n iv, if length iv =? n then Ret StreamConn.toy_dec else Panic.
Definition aead : list Z → res AEAD := λ _, Ret AeadConn.toy_aead.
Lemma id_stream : StreamLaws (λ _ m, m) (λ _ m, m).
Proof. by split. Qed.
#[export] Instance primitives : Primitives CfgDemo.md5 (λ _ _ _ n, replicate n 0%Z) (λ _, Ret 16) (λ _, Ret 8) mode cfb_enc cfb_dec
  (λ _, aead []) aead aead (λ _, Ret (λ _ m, m)) (λ _ _, Ret (λ _ m, m)) eq.
Proof.
  pose proof id_stream as Hid. split.
  - done.
  - intros. by rewrite length_replicate.
  - intros. by eexists.
  - intros. by eexists.
  - intros b n iv -> Hiv. unfold mode. rewrite Hiv, Nat.eqb_refl. by eexists _, _.
  - intros b n iv -> Hiv. unfold cfb_enc, cfb_dec. rewrite Hiv, Nat.eqb_refl. eexists _, _. split_and!; [done|done|exact StreamConn.toy_stream_laws].
  - intros. eexists. split; [done|exact AeadConn.toy_laws].
  - intros. eexists. split; [done|exact AeadConn.toy_laws].
  - intros. eexists. split; [done|exact AeadConn.toy_laws].
  - intros. by eexists _, _.
  - intros. by eexists _, _.
Qed.
Definition cfg : Config_ := CfgDemo.cfg [] (str ":1081").
Definition w : clientWorld (Msg := unit) (C1 := unit) (C2 := unit) := ClientWorld CfgDemo.globals0 selector.NewSelector None.
End DeployDemo.
Lemma deployment_end_to_end_witness :
  ∃ v i h b, selector.Select (str "p1") (cw_selector (CfgDemo.run DeployDemo.cfg).1) = selector.Proxy v ∧ v_Addr v = str "1.2.3.4:443" ∧
    sv_handlerList CfgDemo.server !! i = Some h ∧ v_TcpConnBound v = b ∧ sh_tcpRelayer h = b.
Proof.
  destruct (deployment_end_to_end (HP := DeployDemo.primitives) CfgDemo.md5 (λ _ _ _ n, replicate n 0%Z) (λ _, Ret 16) (λ _, Ret 8) DeployDemo.mode DeployDemo.cfb_enc DeployDemo.cfb_dec
    (λ _, DeployDemo.aead []) DeployDemo.aead DeployDemo.aead (λ _, Ret (λ _ m, m)) (λ _ _, Ret (λ _ m, m)) (λ m _ _, m) eq None [] []
    DeployDemo.cfg (CfgDemo.local [] (str ":1081") true) DeployDemo.w (CfgDemo.opts DeployDemo.cfg) CfgDemo.globals0 (CfgDemo.run DeployDemo.cfg).1
    (CfgDemo.client DeployDemo.cfg) (CfgDemo.cfg [] []) CfgDemo.globals0 CfgDemo.globals0 CfgDemo.sopts CfgDemo.globals0 CfgDemo.server CfgDemo.ws CfgDemo.ws)
    as (v & i & h & o & sc & ac & HC & H7 & _ & H1 & H2 & H3 & H4 & H5 & H6 & _); try (vm_compute; reflexivity).
  - by left.
  - discriminate.
  - repeat constructor; set_solver.
  - intros [? _]. discriminate.
  - by left.
  - exists v, i, h, (BoundSS sc ac). split_and!; [exact H1|exact H2|exact H4|exact H3|exact H6].
Defined.
