(* ===== verification/CacheClock.v ===== *)
(** * The clock of a cache.

    Models the goroutines of [src/util/cache/cache.go]: [updateTick], which stores the
    time for [Get] and [Set] to read, [check], which removes expired entries, and [Stop].
    The cache itself is any that satisfies [CacheLaws] of Cache.v. Time is the state's own;
    it passes between steps, but a goroutine whose timer is due runs within [lag]. A call or a
    cleanup is one step: calls that overlap, of which Cache.v has [set_race_duplicates], are not
    covered. *)
From S2P Require Import Prelude Cache.
Local Open Scope Z_scope.

(** [DefaultUpdateTimeTickInterval], in nanoseconds. *)
Definition DefaultUpdateTimeTickInterval : Z := 300000000.

Section Clock.
Context {K V C : Type} `{CacheLaws K V C} (o : options) (lag : Z).

(** [t_now]: the time; [t_fast]: [fasttimeNow]; [t_tick], [t_check]: when the timers of
    the goroutines are due, if they run; [t_born]: for the proofs only, the time at which
    the expiry of a key's entry was set last. *)
Record timedCache := Timed {
  t_now : Z; t_fast : Z; t_tick : option Z; t_check : option Z; t_done : bool; t_cache : C; t_born : K → Z }.

(** [NewCache]: which goroutines it starts. *)
Definition StartCache (t : Z) : timedCache :=
  Timed t t (if timeNowFn o then None else Some (t + DefaultUpdateTimeTickInterval))
    (if checkCache o then Some (t + interval o) else None) false cache_new (λ _, t).

(** [timeNowFn] *)
Definition clock (s : timedCache) : Z := if timeNowFn o then t_now s else t_fast s.

(** [Stop]: closing a closed channel panics. *)
Definition Stop (s : timedCache) : res timedCache :=
  if t_done s then Panic else Ret (Timed (t_now s) (t_fast s) (t_tick s) (t_check s) true (t_cache s) (t_born s)).

(** The keys whose expiry a call sets. *)
Definition touches (x : op K V) (r : out V) (k : K) : bool :=
  match x, r with
  | OSet k' _, _ => bool_decide (k = k')
  | OGet k', RGet (Ret _) => updateCacheExpOnGet o && bool_decide (k = k')
  | _, _ => false
  end.
Definition in_time (due : option Z) (t : Z) : Prop := ∀ d, due = Some d → t ≤ d + lag.

Inductive tstep : timedCache → timedCache → Prop :=
| t_pass n f tk ck dn c b d : 0 ≤ d → in_time tk (n + d) → in_time ck (n + d) →
    tstep (Timed n f tk ck dn c b) (Timed (n + d) f tk ck dn c b)
| t_call s x c' ev r : x ≠ OCleanup → cstep o (clock s) x (t_cache s) c' ev r →
    tstep s (Timed (t_now s) (t_fast s) (t_tick s) (t_check s) (t_done s) c'
               (λ k, if touches x r k then t_now s else t_born s k))
| t_updateTick n f due ck dn c b : due ≤ n →
    tstep (Timed n f (Some due) ck dn c b) (Timed n n (Some (due + DefaultUpdateTimeTickInterval)) ck dn c b)
| t_cleanup n f tk due dn c b c' ev : due ≤ n →
    cache_cleanup o (clock (Timed n f tk (Some due) dn c b)) c c' ev →
    tstep (Timed n f tk (Some due) dn c b) (Timed n f tk (Some (n + interval o)) dn c' b)
| t_stop s s' : Stop s = Ret s' → tstep s s'
| t_tick_end n f tk ck c b : tstep (Timed n f tk ck true c b) (Timed n f None ck true c b)
| t_check_end n f tk ck c b : tstep (Timed n f tk ck true c b) (Timed n f tk None true c b).

(** ** How far the clock may be behind *)
Definition stale : Z := if timeNowFn o then 0 else DefaultUpdateTimeTickInterval + lag.

Lemma remove_elem (k : K) (l : list (K * (V * Z))) e : e ∈ Spec.remove k l → e ∈ l ∧ e.1 ≠ k.
Proof. unfold Spec.remove. intros [? ?]%list_elem_of_filter. done. Qed.
Lemma absent_elem (k : K) (l : list (K * (V * Z))) e : Spec.find k l = None → e ∈ l → e.1 ≠ k.
Proof. intros Hn%find_None_elem Hin <-. apply Hn. by apply list_elem_of_fmap_2. Qed.

(** After a call every entry is an old one, or its expiry was set by the call. *)
Lemma spec_step_entries now x l l' ev r k v e :
  spec_step o now x l = (l', ev, r) → (k, (v, e)) ∈ l' →
  if touches x r k then e = now + expiration o else (k, (v, e)) ∈ l.
Proof.
  destruct x as [k'|k' v'|k'|k'|]; cbn [spec_step].
  - unfold Spec.get. destruct (Spec.find k' l) as [[v0 e0]|] eqn:Ef; [|by intros [= <- <- <-]].
    destruct (e0 <=? now); [destruct (deleteExpCacheOnGet o); intros [= <- <- <-] Hin; cbn; [by destruct (remove_elem _ _ _ Hin)|done]|].
    intros [= <- <- <-]. cbn [touches]. intros [[Hin Hne]%remove_elem|[= -> -> ->]%list_elem_of_singleton]%elem_of_app.
    + rewrite bool_decide_false, andb_false_r by done. done.
    + rewrite bool_decide_true, andb_true_r by done. destruct (updateCacheExpOnGet o); [done|]. by apply find_Some_elem.
  - unfold Spec.set. cbn [touches]. destruct (Spec.find k' l) as [x|] eqn:Ef.
    + intros [= <- <- <-]. cbn. intros [[Hin Hne]%remove_elem|[= -> -> ->]%list_elem_of_singleton]%elem_of_app.
      * by rewrite bool_decide_false by done.
      * by rewrite bool_decide_true by done.
    + assert (∀ r', (r' ⊆ l)%stdpp → (k, (v, e)) ∈ r' ++ [(k', (v', now + expiration o))] →
        if bool_decide (k = k') then e = now + expiration o else (k, (v, e)) ∈ l) as Hs.
      { intros r' Hsub [Hin%Hsub|[= -> -> ->]%list_elem_of_singleton]%elem_of_app; [|by rewrite bool_decide_true by done].
        pose proof (absent_elem _ _ _ Ef Hin) as Hne. by rewrite bool_decide_false by done. }
      destruct (length l =? maxSize o)%nat; [destruct l as [|old l]|]; intros [= <- <- <-] Hin; cbn; [by apply elem_of_nil in Hin|..];
        apply Hs in Hin; try done. intros y Hy. by right.
  - unfold Spec.del. destruct (Spec.find k' l) as [x|]; intros [= <- <- <-]; cbn; [by intros []%remove_elem|done].
  - by intros [= <- <- <-].
  - intros [= <- <- <-] Hin. cbn. unfold Spec.live in Hin. by apply list_elem_of_filter in Hin as [_ ?].
Qed.

(** ** The invariant, as long as the cache is not stopped *)
Context (Hlag : 0 ≤ lag) (Hexp : 0 < expiration o).
Record TInv (s : timedCache) : Prop := {
  ti_cache : cache_inv (t_cache s);
  ti_fast : t_fast s ≤ t_now s;
  ti_tick : timeNowFn o = false → ∃ due, t_tick s = Some due ∧ due ≤ t_fast s + DefaultUpdateTimeTickInterval ∧ t_now s ≤ due + lag;
  ti_check : checkCache o = true → ∃ due, t_check s = Some due ∧ due ≤ t_now s + interval o ∧ t_now s ≤ due + lag ∧
    ∀ k v e, (k, (v, e)) ∈ cache_view (t_cache s) → due - interval o - stale < e;
  ti_entries k v e : (k, (v, e)) ∈ cache_view (t_cache s) →
    t_born s k + expiration o - stale ≤ e ≤ t_born s k + expiration o;
}.

Lemma TInv_clock s : TInv s → t_now s - stale ≤ clock s ≤ t_now s.
Proof.
  intros HI. unfold clock, stale. destruct (timeNowFn o) eqn:E; [lia|]. pose proof (ti_fast s HI).
  destruct (ti_tick s HI E) as (due & _ & ? & ?). lia.
Qed.
Lemma TInv_start t : 0 ≤ interval o → TInv (StartCache t).
Proof.
  intros Hi. destruct cache_new_ok as [Hc Hv]. split; unfold StartCache; cbn [t_cache t_now t_fast t_tick t_check t_born].
  - done.
  - done.
  - intros ->. eexists. unfold DefaultUpdateTimeTickInterval. split; [done|]. lia.
  - intros ->. eexists. split; [done|]. split_and!; [lia|lia|]. rewrite Hv. by intros ??? ?%elem_of_nil.
  - rewrite Hv. by intros ??? ?%elem_of_nil.
Qed.

Lemma TInv_call s x c' ev r : TInv s → cstep o (clock s) x (t_cache s) c' ev r →
  TInv (Timed (t_now s) (t_fast s) (t_tick s) (t_check s) (t_done s) c' (λ k, if touches x r k then t_now s else t_born s k)).
Proof.
  intros HI Hs. pose proof (TInv_clock s HI) as Hc. apply cstep_refines in Hs as (Hi & ev' & E & _); [|apply HI].
  split; cbn [t_cache t_now t_fast t_tick t_check t_born]; try apply HI; [done| |].
  - intros Hk. destruct (ti_check s HI Hk) as (due & Hd & H1 & H2 & H3). exists due. split_and!; [done..|]. intros k v e Hin.
    pose proof (spec_step_entries _ _ _ _ _ _ k v e E Hin) as He. destruct (touches x r k); [lia|by apply (H3 k v)].
  - intros k v e Hin. pose proof (spec_step_entries _ _ _ _ _ _ k v e E Hin) as He. destruct (touches x r k); [lia|by eapply ti_entries].
Qed.
Lemma TInv_cleanup n f tk due dn c b c' ev : 0 ≤ interval o → TInv (Timed n f tk (Some due) dn c b) →
  cache_cleanup o (clock (Timed n f tk (Some due) dn c b)) c c' ev → TInv (Timed n f tk (Some (n + interval o)) dn c' b).
Proof.
  intros Hi HI Hc. pose proof (TInv_clock _ HI) as Hk. destruct (cache_cleanup_ok _ _ _ _ _ (ti_cache _ HI) Hc) as (Hinv & Hv & _).
  split; cbn [t_cache t_now t_fast t_tick t_check t_born]; try apply HI; [done| |].
  - intros _. eexists. split; [done|]. split_and!; [lia|lia|]. intros k v e. rewrite Hv. unfold Spec.live.
    intros [Hn _]%list_elem_of_filter. cbn in *. lia.
  - intros k v e. rewrite Hv. unfold Spec.live. intros [_ Hin]%list_elem_of_filter. by apply (ti_entries _ HI k v e).
Qed.
Lemma TInv_step s s' : 0 ≤ interval o → tstep s s' → t_done s' = false → t_done s = false ∧ (TInv s → TInv s').
Proof.
  intros Hi Hs Hd. destruct Hs as [n f tk ck dn c b d Hd0 Ht Hk|s x c' ev r Hx Hc|n f due ck dn c b Hle|n f tk due dn c b c' ev Hle Hc|s s' E|n f tk ck c b|n f tk ck c b];
    cbn [t_done] in *; try done.
  - split; [done|]. intros [I1 I2 I3 I4 I5]. split; cbn [t_cache t_now t_fast t_tick t_check t_born] in *; [done|lia| | |done].
    + intros E. destruct (I3 E) as (due & -> & ? & ?). exists due. split; [done|]. by specialize (Ht _ eq_refl).
    + intros E. destruct (I4 E) as (due & -> & ? & ? & ?). exists due. split; [done|]. specialize (Hk _ eq_refl). split_and!; [lia|lia|done].
  - split; [done|]. intros HI. by eapply TInv_call.
  - split; [done|]. intros [I1 I2 I3 I4 I5]. split; cbn [t_cache t_now t_fast t_tick t_check t_born] in *; [done|lia| |done|done].
    intros E. destruct (I3 E) as (d & [= <-] & ? & ?). eexists. unfold DefaultUpdateTimeTickInterval in *. split; [done|]. lia.
  - split; [done|]. intros HI. by eapply TInv_cleanup.
  - exfalso. unfold Stop in E. destruct (t_done s); [done|]. injection E as <-. done.
Qed.
Lemma TInv_steps t s : 0 ≤ interval o → rtc tstep (StartCache t) s → t_done s = false → TInv s.
Proof.
  intros Hi Hr. revert s Hr. apply (rtc_ind_r (λ s, t_done s = false → TInv s)); [intros _; by apply TInv_start|].
  intros s s' _ Hs IH Hd. destruct (TInv_step s s' Hi Hs Hd). auto.
Qed.

(** C40 (bounds): how long a cached entry lives. Calls and cleanups come in any order with ticks and the passing of time
    between them, but none overlaps another (two overlapping [Set]s of one key can leave an element that is never removed,
    [set_race_duplicates] of Cache.v); a goroutine whose timer is due runs within some fixed lag, and the check interval is not
    negative. As long as the cache has not been stopped: a [Get] that returns a value comes less than the expiration plus the
    staleness of the clock after the entry's expiry was set; a [Get] that reports the entry as expired comes no earlier than
    the expiration minus that staleness; and with the background check no entry is kept for the expiration plus an
    interval plus the lag plus the staleness. The staleness is nothing with [time.Now] as the clock, and 300 ms plus the
    lag otherwise. *)
Theorem cache_lifetime t s :
  0 ≤ interval o → rtc tstep (StartCache t) s → t_done s = false →
  (∀ k v c' ev, cache_get o k (clock s) (t_cache s) = (c', ev, Ret v) → t_now s < t_born s k + expiration o + stale) ∧
  (∀ k c' ev, cache_get o k (clock s) (t_cache s) = (c', ev, Fail ErrCacheWasExpired) → t_born s k + expiration o - stale ≤ t_now s) ∧
  (checkCache o = true → ∀ k v e, (k, (v, e)) ∈ cache_view (t_cache s) → t_now s < t_born s k + expiration o + interval o + lag + stale).
Proof.
  intros Hi Hr Hd. pose proof (TInv_steps t s Hi Hr Hd) as HI. pose proof (TInv_clock s HI) as Hc. split_and!.
  - intros k v c' ev E. apply cache_get_ok in E as [_ E]; [|apply HI]. unfold Spec.get in E.
    destruct (Spec.find k (cache_view (t_cache s))) as [[v0 e]|] eqn:Ef; [|done]. apply find_Some_elem in Ef.
    pose proof (ti_entries s HI _ _ _ Ef). destruct (Z.leb_spec e (clock s)); [by destruct (deleteExpCacheOnGet o)|lia].
  - intros k c' ev E. apply cache_get_ok in E as [_ E]; [|apply HI]. unfold Spec.get in E.
    destruct (Spec.find k (cache_view (t_cache s))) as [[v0 e]|] eqn:Ef; [|done]. apply find_Some_elem in Ef.
    pose proof (ti_entries s HI _ _ _ Ef). destruct (Z.leb_spec e (clock s)); [lia|done].
  - intros Hk k v e Hin. destruct (ti_check s HI Hk) as (due & _ & _ & Hdue & Hall). specialize (Hall k v e Hin).
    pose proof (ti_entries s HI k v e Hin). lia.
Qed.

(** A second [Stop] panics. *)
Lemma stop_twice s s' : Stop s = Ret s' → Stop s' = Panic.
Proof. unfold Stop. destruct (t_done s); [done|]. by intros [= <-]. Qed.
(** Once the ticker of a stopped cache has ended its clock stands still: what was not
    expired then never expires. *)
Lemma stopped_clock_stands s s' : timeNowFn o = false → t_tick s = None → rtc tstep s s' → clock s' = clock s ∧ t_tick s' = None.
Proof.
  intros Hf Ht Hr. unfold clock. rewrite Hf. induction Hr as [|x y z Hxy _ IH]; [done|].
  assert (t_fast y = t_fast x ∧ t_tick y = None) as [E1 E2].
  { destruct Hxy as [| | | |a b E| |]; cbn in *; try done. unfold Stop in E. destruct (t_done a); [done|]. by injection E as <-. }
  destruct (IH E2) as [-> ?]. done.
Qed.
End Clock.

(** *** Witness: an entry set at 0 and read after the first tick, with the default options *)
Definition clock_demo (n f due : Z) : timedCache (K := Z) (C := LruCache Z Z) :=
  Timed n f (Some due) None false (Set_ default_options 1 10 0 NewCache).1.1
    (λ k, if touches default_options (OSet 1 10) (RSet (Ret tt)) k then 0 else 0).
Lemma cache_lifetime_witness :
  let s := clock_demo 300000000 300000000 600000000 in
  ∃ c', cache_get default_options 1 (clock default_options s) (t_cache s) = (c', [], Ret 10) ∧
    t_now s < t_born s 1 + expiration default_options + stale default_options 0.
Proof.
  intros s.
  assert (rtc (tstep default_options 0) (StartCache default_options 0) s) as Hr.
  { eapply rtc_l; [refine (t_call default_options 0 (StartCache default_options 0) (OSet 1 10) _ [] (RSet (Ret tt)) ltac:(discriminate) _);
      constructor; vm_compute; reflexivity|].
    eapply rtc_l; [refine (t_pass default_options 0 _ _ _ _ _ _ _ 300000000 _ _ _); [lia|intros d Hd; injection Hd as <-; vm_compute; discriminate|intros d Hd; discriminate Hd]|].
    eapply rtc_l; [refine (t_updateTick default_options 0 _ _ _ _ _ _ _ _); vm_compute; discriminate|]. apply rtc_refl. }
  eexists. split; [vm_compute; reflexivity|].
  assert (0 < expiration default_options) as He by (vm_compute; reflexivity).
  assert (0 ≤ interval default_options) as Hi by (vm_compute; discriminate).
  destruct (cache_lifetime default_options 0 ltac:(lia) He 0 s Hi Hr eq_refl) as [H _].
  refine (H 1 10 _ [] _). vm_compute. reflexivity.
Defined.
