(* ===== verification/Tracked.v ===== *)
(** * Connections with statistics.

    Models the tracker as a [net.Conn] ([src/statistic/tracker.go]) and what the front ends
    do around it: [src/ss/socks.go], [http.go], [tcptun.go] and [src/enhancer/handler.go]
    wrap a connection in a tracker, hand it to the selected relay, and take the tracker out
    of the manager afterwards. The counters that trackers share are in Statistic.v; here
    a tracker is an instance of the interface [NetConn] over any other connection, so that
    what is proved of relays holds of tracked connections. *)
From S2P Require Import Prelude GoIO GoNet GoStream Statistic.
Local Open Scope nat_scope.

(** ** The tracker is a connection *)
Record tcpTracker {T : Type} := MkTracker { k_Conn : T; k_up : Z; k_down : Z }.
Arguments tcpTracker : clear implicits.
Arguments MkTracker {T} _ _ _.

(** The count that comes with the error of a [Write]. *)
Class WriteCount (T : Type) := write_count : list Z → T → nat.
#[export] Instance plain_count : WriteCount conn := λ b c, (conn_write b c).2.1.

Section Tracker.
Context {T : Type} `{!NetConn T, !WriteCount T}.
Definition NewTCPTracker (c : T) : tcpTracker T := MkTracker c 0 0.
(** What was read counts as upload, what was written as download, with or without an error; a
    [Read] that fails comes with a count of 0 ([NetConn]: the bytes are delivered first, the error by
    the next call). *)
Definition tracker_Read (n : nat) (t : tcpTracker T) : tcpTracker T * res (list Z) :=
  match nc_Read n (k_Conn t) with
  | (c, Ret d) => (MkTracker c (i64 (k_up t + Z.of_nat (length d))) (k_down t), Ret d)
  | (c, r) => (MkTracker c (k_up t) (k_down t), r)
  end.
Definition tracker_Write (b : list Z) (t : tcpTracker T) : tcpTracker T * res nat :=
  match nc_Write b (k_Conn t) with
  | (c, Ret n) => (MkTracker c (k_up t) (i64 (k_down t + Z.of_nat n)), Ret n)
  | (c, Fail e) => (MkTracker c (k_up t) (i64 (k_down t + Z.of_nat (write_count b (k_Conn t)))), Fail e)
  | (c, Panic) => (MkTracker c (k_up t) (k_down t), Panic)
  end.

#[export] Instance tracker_count : WriteCount (tcpTracker T) := λ b t, write_count b (k_Conn t).
#[export] Instance tracker_conn : NetConn (tcpTracker T) := {
  nc_Read := tracker_Read;
  nc_Write := tracker_Write;
  nc_new rnd c := NewTCPTracker (nc_new rnd c);
  nc_under t := nc_under (k_Conn t);
}.
#[export] Program Instance tracker_laws `{!NetConnLaws T} : NetConnLaws (tcpTracker T) := {
  nc_in t m e := nc_in (k_Conn t) m e;
  nc_out t o := nc_out (k_Conn t) o;
  nc_size t := nc_size (k_Conn t);
  nc_rnd := nc_rnd (T := T);
}.
Next Obligation.
  intros HL n t m e Hn Hin. pose proof (nc_read_law n (k_Conn t) m e Hn Hin) as H. cbn. unfold tracker_Read.
  destruct (nc_Read n (k_Conn t)) as [c [d|e'|]]; exact H.
Qed.
Next Obligation.
  intros HL b t o Ho. destruct (nc_write_law b (k_Conn t) o Ho) as (c & E & H1 & H2 & H3). cbn. unfold tracker_Write. rewrite E.
  eexists. split; [done|]. by split_and!.
Qed.
Next Obligation. intros HL rnd c Hr Hb Ho. by apply nc_new_law. Qed.
Next Obligation. intros HL t o rnd c Ho Hp. by apply (nc_link (k_Conn t)). Qed.
End Tracker.

(** On a plain connection the download counter grows by exactly the bytes that went out, also when
    the write fails half way. *)
Lemma tracker_Write_exact b (t : tcpTracker conn) :
  let t' := (tracker_Write b t).1 in
  ∃ p, p `prefix_of` b ∧ c_out (k_Conn t') = c_out (k_Conn t) ++ p ∧ k_down t' = i64 (k_down t + Z.of_nat (length p)).
Proof.
  cbn. unfold tracker_Write. cbn. unfold write_count, plain_count, conn_write. destruct (c_wbudget (k_Conn t)) as [w|] eqn:Ew; cbn.
  - destruct (length b <=? w) eqn:El; cbn; eexists; (split; [|split; [reflexivity|]]).
    + done.
    + done.
    + apply prefix_take.
    + rewrite length_take. apply Nat.leb_gt in El. by rewrite Nat.min_l by lia.
  - by exists b.
Qed.

(** ** A relay with a tracked client

    Without the tracker: the same steps. *)
Section Relay.
Context {T U : Type} `{!NetConn T, !NetConn U, !WriteCount U, !NetConnLaws T, !NetConnLaws U}.

Definition erase (s : bistate T (tcpTracker U)) : bistate T U :=
  MkBi (b_dst s) (k_Conn (b_src s)) (b_up s) (b_down s) (b_done s) (b_src_open s) (b_dst_open s).

Lemma tracker_Read_inv n t t' r : tracker_Read (T := U) n t = (t', r) →
  nc_Read n (k_Conn t) = (k_Conn t', r) ∧ k_down t' = k_down t ∧
  k_up t' = match r with Ret d => i64 (k_up t + Z.of_nat (length d)) | _ => k_up t end.
Proof. unfold tracker_Read. destruct (nc_Read n (k_Conn t)) as [c [d|e|]]; intros [= <- <-]; done. Qed.
Lemma tracker_Write_inv b t t' r : tracker_Write (T := U) b t = (t', r) →
  nc_Write b (k_Conn t) = (k_Conn t', r) ∧ k_up t' = k_up t ∧
  k_down t' = match r with
              | Ret n => i64 (k_down t + Z.of_nat n)
              | Fail _ => i64 (k_down t + Z.of_nat (write_count b (k_Conn t)))
              | Panic => k_down t
              end.
Proof. unfold tracker_Write. destruct (nc_Write b (k_Conn t)) as [c [d|e|]]; intros [= <- <-]; done. Qed.

(** A goroutine does to the connection under the tracker what it would do without it. *)
Lemma erase_from {ao bo} (a a' : tcpTracker U) (b b' : T) c c' r :
  copy_step ao bo a b c a' b' c' r → copy_step ao bo (k_Conn a) b c (k_Conn a') b' c' r.
Proof.
  intros Hs. destruct Hs as [n a b d a1 Ho Hn Hr|n a b a1 e1 Ho Hn Hr|a b Ho|a b d b1 Ho Hw|a b d b1 k Ho Hw Hk|a b d b1 e1 Ho Hw|a b d Ho];
    try (apply tracker_Read_inv in Hr as [Hr _]); by econstructor.
Qed.
Lemma erase_to {ao bo} (a a' : T) (b b' : tcpTracker U) c c' r :
  copy_step ao bo a b c a' b' c' r → copy_step ao bo a (k_Conn b) c a' (k_Conn b') c' r.
Proof.
  intros Hs. destruct Hs as [n a b d a1 Ho Hn Hr|n a b a1 e1 Ho Hn Hr|a b Ho|a b d b1 Ho Hw|a b d b1 k Ho Hw Hk|a b d b1 e1 Ho Hw|a b d Ho];
    try (apply tracker_Write_inv in Hw as [Hw _]); by econstructor.
Qed.
Lemma erase_step s s' : bi_step s s' → bi_step (erase s) (erase s').
Proof.
  intros Hs. destruct Hs as [dst src u w o so dp dst' src' u' r Hst|dst src u w o so dp dst' src' w' r Hst|dst src u w x|dst src u w x];
    unfold erase; cbn; [apply up_step; by apply erase_from|apply down_step; by apply erase_to|apply close_src|apply close_dst].
Qed.

(** [r] has been read from [a] and [u] of it written to [b]; a goroutine at work holds the rest. *)
Definition flow {A B} `{!NetConn A, !NetConnLaws A, !NetConn B, !NetConnLaws B}
    (m : list Z) (e : error) (o : list Z) (c : copier) (a : A) (b : B) (r u : list Z) : Prop :=
  nc_out b (o ++ u) ∧ u `prefix_of` r ∧ (c ≠ CGone → r = u ++ held c) ∧ ∃ m', m = r ++ m' ∧ nc_in a m' e.

Lemma i64_count (n : Z) (l d : list Z) : n = i64 (Z.of_nat (length l)) → i64 (n + Z.of_nat (length d)) = i64 (Z.of_nat (length (l ++ d))).
Proof.
  intros ->. rewrite length_app, Nat2Z.inj_add. apply i64_unique; [apply i64_i64|]. by rewrite !i64_eq64.
Qed.

(** What one step reads and writes. *)
Lemma flow_step {A B} `{!NetConn A, !NetConnLaws A, !NetConn B, !NetConnLaws B} {ao bo} m e o c (a a' : A) (b b' : B) c' x r u :
  flow m e o c a b r u → copy_step ao bo a b c a' b' c' x →
  (flow m e o c' a' b' r u ∧ (a' = a ∨ ∃ n e', nc_Read n a = (a', Fail e')) ∧ b' = b) ∨
  (∃ n d, flow m e o c' a' b' (r ++ d) u ∧ nc_Read n a = (a', Ret d) ∧ b' = b) ∨
  (∃ d, flow m e o c' a' b' r (u ++ d) ∧ nc_Write d b = (b', Ret (length d)) ∧ a' = a).
Proof.
  intros (Ho & Hp & Hh & m' & -> & Hin) Hs.
  destruct Hs as [n a b d a1 Hop Hn Hr|n a b a1 e1 Hop Hn Hr|a b Hop|a b d b1 Hop Hw|a b d b1 k Hop Hw Hk|a b d b1 e1 Hop Hw|a b d Hop];
    specialize (Hh ltac:(done)); cbn [held] in Hh; rewrite ?app_nil_r in Hh; subst r.
  - pose proof (nc_read_law n a _ _ Hn Hin) as H. rewrite Hr in H. destruct H as (_ & _ & (m'' & -> & Hi) & _). right; left.
    exists n, d. split; [|done]. split_and!; [done|by eexists|by rewrite held_after_read|]. exists m''. by rewrite app_assoc.
  - pose proof (nc_read_law n a _ _ Hn Hin) as H. rewrite Hr in H. destruct H as (-> & -> & Hi & _). left. split; [|eauto].
    split_and!; [done|done|done|]. by exists [].
  - left. split; [|auto]. split_and!; [done|done|done|by exists m'].
  - destruct (nc_write_law d b _ Ho) as (b2 & E & Ho2 & _). rewrite Hw in E. injection E as <-. right; right. exists d. split; [|done].
    split_and!; [by rewrite app_assoc|done|by rewrite app_nil_r|by exists m'].
  - destruct (nc_write_law d b _ Ho) as (b2 & E & _). congruence.
  - destruct (nc_write_law d b _ Ho) as (b2 & E & _). congruence.
  - left. split; [|auto]. split_and!; [done|done|done|by exists m'].
Qed.
Lemma flow_frame {A B} `{!NetConn A, !NetConnLaws A, !NetConn B, !NetConnLaws B} m e o c (a a' : A) (b b' : B) r u :
  flow m e o c a b r u → (∀ x y, nc_in a x y → nc_in a' x y) → (∀ x, nc_out b x → nc_out b' x) → flow m e o c a' b' r u.
Proof. intros (H1 & H2 & H3 & m' & H4 & H5) Ha Hb. split_and!; [by apply Hb|done|done|]. exists m'. eauto. Qed.
Lemma flow_passed {A B} `{!NetConn A, !NetConnLaws A, !NetConn B, !NetConnLaws B} m e o c (a : A) (b : B) r u :
  flow m e o c a b r u → passed m e o c a b.
Proof.
  intros (H1 & [k Hk] & H3 & m' & -> & H5). exists u, m'. split_and!; [done|done| |].
  - rewrite Hk, <-app_assoc. by eexists.
  - intros Hc. by rewrite (H3 Hc), <-app_assoc.
Qed.

(** What was passed on, and what was counted. *)
Record TrackInv (mu md : list Z) (eu ed : error) (ou od : list Z) (s : bistate T (tcpTracker U)) : Prop := {
  tr_up : ∃ r u, flow mu eu ou (b_up s) (b_src s) (b_dst s) r u ∧ k_up (b_src s) = i64 (Z.of_nat (length r));
  tr_down : ∃ r d, flow md ed od (b_down s) (b_dst s) (b_src s) r d ∧ k_down (b_src s) = i64 (Z.of_nat (length d));
}.

Lemma TrackInv_step mu md eu ed ou od s s' : TrackInv mu md eu ed ou od s → bi_step s s' → TrackInv mu md eu ed ou od s'.
Proof.
  intros [(r & u & Hu & Hku) (r2 & d & Hd & Hkd)] Hs.
  destruct Hs as [dst src cu cd o so dp dst' src' u' x Hst|dst src cu cd o so dp dst' src' w' x Hst|dst src cu cd x|dst src cu cd x]; cbn [b_dst b_src b_up b_down] in *.
  - destruct (copy_step_law so dp _ _ _ _ _ _ _ _ _ _ (flow_passed _ _ _ _ _ _ _ _ Hu) Hst) as (_ & _ & _ & Hka & Hkb & _).
    pose proof (flow_frame _ _ _ _ _ dst' _ src' _ _ Hd Hkb Hka) as Hd'.
    destruct (flow_step _ _ _ _ _ _ _ _ _ _ _ _ Hu Hst) as [(Hu' & [->|(n & e' & Hr)] & _)|[(n & z & Hu' & Hr & _)|(z & Hu' & _ & ->)]];
      try (destruct (tracker_Read_inv _ _ _ _ Hr) as (_ & Ed & Eu)); split; cbn [b_dst b_src b_up b_down];
      try (exists r2, d; split; [done|congruence]); eexists _, _; (split; [exact Hu'|]); rewrite ?Eu; [done|done|by apply i64_count|done].
  - destruct (copy_step_law dp so _ _ _ _ _ _ _ _ _ _ (flow_passed _ _ _ _ _ _ _ _ Hd) Hst) as (_ & _ & _ & Hka & Hkb & _).
    pose proof (flow_frame _ _ _ _ _ src' _ dst' _ _ Hu Hkb Hka) as Hu'.
    destruct (flow_step _ _ _ _ _ _ _ _ _ _ _ _ Hd Hst) as [(Hd' & _ & ->)|[(n & z & Hd' & _ & ->)|(z & Hd' & Hw & _)]];
      try (destruct (tracker_Write_inv _ _ _ _ Hw) as (_ & Eu & Ed)); split; cbn [b_dst b_src b_up b_down];
      try (exists r, u; split; [done|congruence]); eexists _, _; (split; [exact Hd'|]); rewrite ?Ed; [done|done|by apply i64_count].
  - by split; [exists r, u|exists r2, d].
  - by split; [exists r, u|exists r2, d].
Qed.

(** C36 (invariant): statistics do not touch the traffic and count it. Whatever a tracked client connection is made of and
    whatever it is relayed to, the two directions interleaving at every read and every write: without the tracker
    the relay would have gone through the same states. Provided that no write to a connection that is still open
    fails, at every moment the upload counter is the number of bytes read from the client so far (those passed on, which are a
    prefix of them, and, while the goroutine of that direction is at work, those it has read and not yet written)
    and the download counter the number of bytes written back to the client, as 64-bit numbers. *)
Theorem tracked_relay (dst : T) (src : U) s :
  rtc bi_step (Bi dst (NewTCPTracker src)) s →
  rtc bi_step (Bi dst src) (erase s) ∧
  ∀ mu md eu ed ou od, nc_in src mu eu → nc_out dst ou → nc_in dst md ed → nc_out src od →
    ∃ r u d, r `prefix_of` mu ∧ u `prefix_of` r ∧ (b_up s ≠ CGone → r = u ++ held (b_up s)) ∧ d `prefix_of` md ∧
      nc_out (b_dst s) (ou ++ u) ∧ nc_out (k_Conn (b_src s)) (od ++ d) ∧
      k_up (b_src s) = i64 (Z.of_nat (length r)) ∧ k_down (b_src s) = i64 (Z.of_nat (length d)).
Proof.
  intros Hs. split.
  - change (Bi dst src) with (erase (Bi dst (NewTCPTracker src))).
    induction Hs as [|x y z Hxy _ IH]; [done|]. eapply rtc_l; [by apply erase_step|done].
  - intros mu md eu ed ou od H1 H2 H3 H4.
    assert (TrackInv mu md eu ed ou od (Bi dst (NewTCPTracker src))) as HI.
    { split; exists [], []; (split; [|done]); (split_and!; [by rewrite app_nil_r|done|done|by eexists]). }
    clear H1 H2 H3 H4. assert (TrackInv mu md eu ed ou od s) as [(r & u & (Ho & Hp & Hh & m' & -> & _) & Hk) (r2 & d & (Ho' & Hp' & _ & m2 & -> & _) & Hk')].
    { clear -Hs HI. induction Hs as [|x y z Hxy _ IH]; [done|]. apply IH. by eapply TrackInv_step. }
    exists r, u, d. split_and!; [by eexists|done|done| |done|done|done|done].
    destruct Hp' as [z ->]. rewrite <-app_assoc. by eexists.
Qed.
End Relay.

(** ** The front ends *)
Record TrackContext := MkContext {
  tc_Src : gostring; tc_Dst : gostring; tc_Network : gostring; tc_Type : gostring; tc_Rule : gostring; tc_Proxy : gostring }.
Inductive front := FSocks | FHttp | FTcpTun | FTunTCP.
(** The context each front end describes a connection with. *)
Definition front_context (f : front) (src dst rule proxy : gostring) : TrackContext :=
  MkContext src dst (str "TCP")
    (str match f with FSocks => "SOCKS" | FHttp => "HTTP" | FTcpTun => "SIMPLE-TCP-TUN" | FTunTCP => "TCP-TUN" end) rule proxy.
(** [Remove], and which front ends defer it. *)
Definition Remove (id : nat) (m : Manager) : Manager := exec (Unregister id) m.
Definition defers_remove (f : front) : bool := match f with FHttp => false | _ => true end.
(** A relay, by what it does to the manager: when dialling fails it returns at once;
    otherwise it runs ([traffic]) and closes both connections, a tracker by taking itself
    out of the manager. *)
Definition relay_invoke (dial : res unit) (traffic : Manager → Manager) (t : option nat) : M Manager unit := λ m,
  match dial with
  | Ret _ => (match t with Some id => Remove id (traffic m) | None => traffic m end, Ret tt)
  | r => (m, r)
  end.
(** The end of [ServeTCP] and [HandleTCPConnection]. *)
Definition invoke_tracked (EnableStatistic : bool) (f : front) (id : nat) (invoke : option nat → M Manager unit) : M Manager unit := λ m,
  if EnableStatistic then
    let '(m1, r) := invoke (Some id) (NewTracker id false m) in (if defers_remove f then Remove id m1 else m1, r)
  else invoke None m.

(** Every tracker is gone when its connection has been served, with one exception: the HTTP
    front end leaves it to the relay to close the tracker, which a relay that cannot
    dial does not do. *)
Theorem trackers_unregistered on f id dial traffic m :
  id ∉ trackers m → (∀ x, trackers (traffic x) = trackers x) →
  id ∈ trackers (invoke_tracked on f id (relay_invoke dial traffic) m).1 ↔ on = true ∧ f = FHttp ∧ dial ≠ Ret tt.
Proof.
  intros Hm Ht. unfold invoke_tracked, relay_invoke. destruct on; [|split; [|naive_solver]].
  - destruct dial as [[]|e|]; cbn; destruct f; cbn; rewrite ?Ht; set_solver.
  - destruct dial as [[]|e|]; cbn; rewrite ?Ht; set_solver.
Qed.
Lemma http_tracker_leaks id e m :
  id ∈ trackers (invoke_tracked true FHttp id (relay_invoke (Fail e) (λ x, x)) m).1.
Proof. cbn. set_solver. Qed.

(** *** Witnesses *)
Definition track_src : conn := Conn [[1; 2]%Z; [3]%Z] io_EOF [] None io_EOF.
Definition track_dst : conn := Conn [[9]%Z] io_EOF [] None io_EOF.
(** The first two bytes have been read and are on the way: counted, not yet passed on. *)
Lemma tracked_relay_witness :
  let s := MkBi track_dst (MkTracker (Conn [[3]%Z] io_EOF [] None io_EOF) 2 0) (CWrite [1; 2]%Z) CRead None true true in
  rtc bi_step (Bi track_dst (NewTCPTracker track_src)) s ∧ rtc bi_step (Bi track_dst track_src) (erase s) ∧
  ∃ r u, r `prefix_of` [1; 2; 3]%Z ∧ r = u ++ [1; 2]%Z ∧ k_up (b_src s) = i64 (Z.of_nat (length r)).
Proof.
  intros s.
  assert (rtc bi_step (Bi track_dst (NewTCPTracker track_src)) s) as Hr.
  { eapply rtc_l; [|apply rtc_refl]. refine (up_step _ _ _ _ _ _ _ _ _ _ None _).
    refine (cp_read true true 5 (NewTCPTracker track_src) _ [1; 2]%Z _ _ _ _); [done|lia|vm_compute; reflexivity]. }
  destruct (tracked_relay track_dst track_src s Hr) as (H1 & H2).
  destruct (H2 [1; 2; 3]%Z [9]%Z io_EOF io_EOF [] []) as (r & u & d & Hu & _ & Hh & _ & _ & _ & Hk & _);
    [by split|by split|by split|by split|].
  split; [exact Hr|]. split; [exact H1|]. exists r, u. split; [exact Hu|]. split; [by apply Hh|exact Hk].
Defined.
Lemma trackers_unregistered_witness : 7 ∉ trackers (invoke_tracked true FSocks 7 (relay_invoke (Fail io_EOF) (λ x, x)) NewTrackerManager).1.
Proof.
  intros H. apply (trackers_unregistered true FSocks 7 (Fail io_EOF) (λ x, x) NewTrackerManager) in H as (_ & ? & _); [done|set_solver|done].
Defined.
