(* ===== verification/Program.v ===== *)
(** * The whole way of a connection.

    Composes the command line (Cmd.v), the set-up (Config.v, Deploy.v), the SOCKS5 front end
    (Socks.v), the rules (Rule.v), the selector (OrdMap.v) and the relays (TcpRelay.v): the
    calls that [src/ss/socks.go] makes of [src/selector] and [src/relay], and what
    becomes of the bytes of a local program. *)
From S2P Require Import Prelude GoIO GoNet Address Cipher GoStream TcpRelay SsrAuth SsrObfs Cache FakeIP Certs Mitm OrdMap Rule Socks Options Config Cmd Deploy.
Local Open Scope nat_scope.

(** ** Targets *)

(** The targets whose text names them: IPv4 addresses, and names that are no IP literal and
    have no colon or bracket. *)
Definition plain_target (a : list Z) : Prop :=
  wf_addr a ∧
  match a with
  | 1%Z :: _ => True
  | 3%Z :: _ => Host a ≠ [] ∧ net_ParseIP (Host a) = None ∧ (58%Z ∉ Host a) ∧ (91%Z ∉ Host a) ∧ (93%Z ∉ Host a)
  | _ => False
  end.

Lemma dec_wf n : (0 ≤ n)%Z → wf_bytes (dec n).
Proof. intros Hn. eapply Forall_impl; [by apply dec_digits|]. intros c (d & -> & Hd)%is_digit_spec. unfold is_byte. lia. Qed.
Lemma fmt4_wf l : wf_bytes l → wf_bytes (fmt4 l).
Proof.
  intros Hw. induction Hw as [|x l Hx Hw IH]; [constructor|]. unfold is_byte in Hx. cbn [fmt4]. pose proof (dec_wf x ltac:(lia)).
  destruct l as [|y l]; [done|]. apply Forall_app. split; [done|]. constructor; [unfold is_byte; lia|done].
Qed.
Lemma plain_host_wf a : plain_target a → wf_bytes (Host a) ∧ (91%Z ∉ Host a) ∧ (93%Z ∉ Host a) ∧ (0 ≤ Port a < 65536)%Z.
Proof.
  intros [Hw Hp]. destruct Hw as [ip p Hl Hw Hr|ip p Hl Hw Hr|h p Hl Hw Hr]; [|done|].
  - rewrite Host_wf_v4, Port_wf_v4 by done. unfold IP_String, To4. rewrite Hl. cbn. split_and!; [by apply fmt4_wf|apply fmt4_no_punct; [done|lia]..|lia|lia].
  - cbn [app] in Hp. change (3%Z :: Z.of_nat (length h) :: h ++ be16 p) with ([3%Z; Z.of_nat (length h)] ++ h ++ be16 p) in Hp.
    rewrite Host_wf_dom, Port_wf_dom in * by done. destruct Hp as (_ & _ & _ & ? & ?).
    split_and!; done || lia.
Qed.
Lemma plain_split a : plain_target a → SplitHostPort (Address.String a) = inl (Host a, itoa (Port a)).
Proof.
  intros Hp. destruct (plain_host_wf a Hp) as (_ & H1 & H2 & H3). unfold Address.String.
  assert (itoa (Port a) = dec (Port a)) as -> by (unfold itoa; by rewrite (proj2 (Z.ltb_ge (Port a) 0)) by lia).
  apply SplitHostPort_JoinHostPort; [done|done|apply dec_no_punct; lia..].
Qed.
(** What the client makes of such a target, and what the server makes of that. *)
Lemma plain_parse a buf : plain_target a → MaxAddressBufferSize ≤ length buf →
  ParseAddress (Address.String a) buf = Ret a ∧ dialled (Address.String a) = Some (Address.String a) ∧
  ∀ host p, SplitHostPort (Address.String a) = inl (host, p) → wf_bytes host.
Proof.
  intros Hp Hb. pose proof (plain_split a Hp) as Hs. destruct (plain_host_wf a Hp) as [Hh _].
  assert (∀ host p, SplitHostPort (Address.String a) = inl (host, p) → wf_bytes host) as Hw by (intros host p E; by rewrite Hs in E; injection E as <- _).
  assert (ParseAddress (Address.String a) buf = Ret a) as Ha by (destruct Hp; by apply string_parse_roundtrip).
  split_and!; [done| |done]. by destruct (ParseAddress_dialled _ _ _ Hw Ha).
Qed.

(** ** How a connection ends

    Serving a request does not change the error that the client's connection ends with. *)
Definition keeps {S A} (f : S → error) (m : M S A) : Prop := ∀ s, f (m s).1 = f s.
Lemma keeps_bind {S A B} (f : S → error) (m : M S A) (g : A → M S B) : keeps f m → (∀ x, keeps f (g x)) → keeps f (m ≫= g).
Proof. intros Hm Hg s. unfold mbind, M_bind. specialize (Hm s). destruct (m s) as [s' [x|e|]]; [by rewrite (Hg x s')|done..]. Qed.
Lemma keeps_ret {S A} (f : S → error) (x : A) : keeps f (mret x : M S A).
Proof. done. Qed.
Lemma keeps_fail {S A} (f : S → error) e : keeps f (mfail e : M S A).
Proof. done. Qed.
Lemma keeps_lift {S A} (f : S → error) (r : res A) : keeps f (mlift r : M S A).
Proof. done. Qed.
Lemma keeps_read_full n : keeps c_rerr (read_full n).
Proof. intros c. unfold read_full. by destruct (read_loop (c_in c) n []). Qed.
Lemma keeps_read_or e n : keeps c_rerr (read_or e n).
Proof. intros c. unfold read_or. pose proof (keeps_read_full n c) as H. by destruct (read_full n c) as [c1 [x|e1|]]. Qed.
Lemma keeps_write b : keeps c_rerr (write_ b).
Proof. intros c. unfold write_, conn_write_, conn_write. cbn. destruct (c_wbudget c); [by destruct (_ <=? _)|done]. Qed.
Create HintDb keeps.
#[export] Hint Resolve keeps_ret keeps_fail keeps_lift keeps_read_full keeps_read_or keeps_write : keeps.
Ltac keeps :=
  repeat (first [solve [auto with keeps] | apply keeps_bind; [|intros ?] | progress cbv zeta | case_match]).

Lemma keeps_ParseAddress b : keeps c_rerr (ParseAddressFromReader b).
Proof. unfold ParseAddressFromReader, ParseAddressFrom, read_from. keeps. Qed.
Lemma keeps_negotiate au : keeps c_rerr (negotiate au).
Proof. unfold negotiate, auth. keeps. Qed.
Lemma keeps_handleCmdConnect : keeps c_rerr handleCmdConnect.
Proof. unfold handleCmdConnect. keeps. Qed.
#[export] Hint Resolve keeps_ParseAddress keeps_negotiate keeps_handleCmdConnect : keeps.

Section Keeps.
Context {R : Type} `{!EnhancerOps R} (LookupHost : gostring → Addr) (db_Country : Addr → option gostring)
        (ListenLocalUDP : res gostring) (InvokePacket : gostring → res unit).
Abbreviation end_of := (λ w : Socks.world (R := R), c_rerr (w_conn w)).
Lemma keeps_on_conn {T} (m : M conn T) : keeps c_rerr m → keeps end_of (on_conn m).
Proof. intros Hm w. unfold on_conn. specialize (Hm (w_conn w)). by destruct (m (w_conn w)). Qed.
Lemma keeps_resolve_host h : keeps end_of (resolve_host h).
Proof. intros w. unfold resolve_host. by destruct (target_host h (w_res w)). Qed.
Lemma keeps_match_host h : keeps end_of (match_host LookupHost db_Country h).
Proof. intros w. unfold match_host. by destruct (Ruler_Match LookupHost db_Country h (w_ruler w)) as [[ru h'] x]. Qed.
Lemma keeps_select : keeps end_of select_proxy.
Proof. done. Qed.
#[local] Hint Resolve keeps_on_conn keeps_resolve_host keeps_match_host keeps_select : keeps.
Lemma keeps_ServeTCP mitm au : keeps end_of (Socks.ServeTCP LookupHost db_Country ListenLocalUDP InvokePacket mitm au).
Proof. unfold Socks.ServeTCP, handshake, request, handleCmdUdpAssociate, handleFail. keeps. Qed.
End Keeps.

(** ** A connection of the SOCKS5 port *)
Section Program.
Context (md5 : list Z → list Z) (hkdf_sha1 : list Z → list Z → list Z → nat → list Z)
        {Block : Type} (aes_NewCipher blowfish_NewCipher : list Z → res Block)
        (NewCTR NewCFBEncrypter NewCFBDecrypter : Block → list Z → res Stream)
        (NewGCM : Block → res AEAD) (chacha20poly1305_New chacha20poly1305_NewX : list Z → res AEAD)
        (rc4 : list Z → res Stream) (chacha20 : list Z → list Z → res Stream) (salsa20_xor : list Z → list Z → list Z → list Z)
        (block : Block → nat → Prop).
Context {HP : Primitives md5 hkdf_sha1 aes_NewCipher blowfish_NewCipher NewCTR NewCFBEncrypter NewCFBDecrypter NewGCM
                chacha20poly1305_New chacha20poly1305_NewX rc4 chacha20 block}.
Abbreviation stream_of := (stream_of md5 aes_NewCipher blowfish_NewCipher NewCTR NewCFBEncrypter NewCFBDecrypter rc4 chacha20 salsa20_xor).
Abbreviation aead_of := (aead_of hkdf_sha1 aes_NewCipher NewGCM chacha20poly1305_New chacha20poly1305_NewX).
(** The connection a node's relayer makes of what it dials. *)
Abbreviation node_conn sc ac := (bound_conn (stream_of <$> sc) (aead_of <$> ac)).

(** The connections of ShadowsocksR nodes (SsrConn.v), by their interface. *)
Context {SC : Type} (ssr_conn : option metaStreamCipher → obfs_kind * ObfsBase → protocol_kind * Base → NetConn SC).
(** A relay that runs: directly, through a Shadowsocks node, or through a ShadowsocksR node; or the interceptor, with what it is
    called with. *)
Inductive invoked :=
| IDirect (b : bistate conn conn)
| IProxy (sc : option metaStreamCipher) (ac : option metaAEADCipher) (b : bistate boundConn conn)
| ISsr (b : bistate SC conn)
| IMitm (host port addr : gostring).
(** [selector.ProxySelector.Select(proxy).Invoke(conn, addr)] *)
Definition Invoke (Dial : gostring → res conn) (rnd buf : list Z) (sel : selector.Selector V) (proxy addr : gostring) (c : conn) : res invoked :=
  match selector.Select proxy sel with
  | selector.Direct => b ← TCPDirectRelayer_RelayToServer Dial c addr; Ret (IDirect b)
  | selector.Proxy v =>
      match v_TcpConnBound v with
      | BoundSS sc ac => b ← RelayToProxyServer (NetConn0 := node_conn sc ac) Dial (v_Addr v) addr rnd buf c; Ret (IProxy sc ac b)
      | BoundSSR sc ob pr => b ← RelayToProxyServer (NetConn0 := ssr_conn sc ob pr) Dial (v_Addr v) addr rnd buf c; Ret (ISsr b)
      end
  end.

Context {R : Type} `{!EnhancerOps R} (LookupHost : gostring → Addr) (db_Country : Addr → option gostring)
        (ListenLocalUDP : res gostring) (InvokePacket : gostring → res unit).
(** The CA of the interceptor. *)
Context {Key C : Type} `{!CacheOps gostring (Certificate Key) C} (LoadCA : gostring → gostring → res (x509 * Key)).
(** Whether [WithMitmMode] leaves a server with a handler. *)
Definition intercepts (mo : MimtOption) : bool := match NewMitmHandler (C := C) LoadCA mo with Ret _ => true | _ => false end.
(** The whole of [ServeTCP] of a SOCKS5 server with credentials [au] and interception options [mo]. *)
Definition serve_socks (Dial : gostring → res conn) (rnd buf : list Z) (sel : selector.Selector V) (au : option Auth) (mo : MimtOption)
    : M (Socks.world (R := R)) (option invoked) := λ w,
  match Socks.ServeTCP LookupHost db_Country ListenLocalUDP InvokePacket (intercepts mo) au w with
  | (w', Ret (Some (ToMitm host port addr))) => (w', Ret (Some (IMitm host port addr)))
  | (w', Ret (Some (ToProxy proxy dst))) => (w', i ← Invoke Dial rnd buf sel proxy dst (w_conn w'); Ret (Some i))
  | (w', Ret None) => (w', Ret None)
  | (w', Fail e) => (w', Fail e)
  | (w', Panic) => (w', Panic)
  end.

(** ** From the local program to the target *)

(** A connection whose target the selected Shadowsocks node is invoked with, on both ends of the proxy. *)
Lemma invoke_carried sc ac (HC : Ciphers (stream_of <$> sc) (aead_of <$> ac)) v sel proxy a c Dial rnd buf d n :
  selector.Select proxy sel = selector.Proxy v → v_TcpConnBound v = BoundSS sc ac → plain_target a → c_rerr c = io_EOF →
  let ops := node_conn sc ac in let laws := bound_conn_laws (stream_of <$> sc) (aead_of <$> ac) in
  Dial (v_Addr v) = Ret d → c_wbudget d = None → c_out d = [] → nc_rnd (T := boundConn) rnd → MaxAddressBufferSize ≤ length buf → 0 < n →
  ∃ b s cc', Invoke Dial rnd buf sel proxy (Address.String a) c = Ret (IProxy sc ac b) ∧
    ioCopyWithBuffer n (b_dst b) (b_src b) = (s, cc', Ret None) ∧
    ∀ DialS rnd' buf' n' cs t, MaxAddressBufferSize ≤ length buf' → 0 < n' →
      pending cs = c_out (nc_under s) → c_rerr cs = io_EOF →
      DialS (Address.String a) = Ret t → c_wbudget t = None → c_out t = [] →
      ∃ b' t' s', RelayToServer (T := boundConn) DialS rnd' buf' cs = Ret b' ∧
        ioCopyWithBuffer n' (b_dst b') (b_src b') = (t', s', Ret None) ∧ c_out t' = pending c.
Proof.
  intros Hsel Hv Ha Hc ops laws HD Hdw Hdo Hrnd Hbuf Hn.
  destruct (plain_parse a buf Ha Hbuf) as (Hpa & Hdial & Hwf).
  pose proof (λ DialS rnd' buf' n', tcp_transfer (stream_of <$> sc) (aead_of <$> ac) Dial DialS (v_Addr v) (Address.String a) rnd rnd' buf buf' a c d n n'
    HD Hdw Hdo Hrnd Hwf Hpa Hc Hn) as HT.
  destruct (HT (λ _, Panic) [] (replicate 259 0%Z) 1 ltac:(lia) ltac:(rewrite length_replicate; unfold MaxAddressBufferSize; lia)) as (b & s & cc' & Eb & Ec & _).
  exists b, s, cc'. split_and!.
  - unfold Invoke. rewrite Hsel, Hv.
    match goal with |- context [RelayToProxyServer ?D ?x ?y ?z ?k ?c] => replace (RelayToProxyServer D x y z k c) with (Ret b) by (symmetry; exact Eb) end. done.
  - exact Ec.
  - intros DialS rnd' buf' n' cs t Hb' Hn' Hcs Hcse HDt Htw Hto. destruct (HT DialS rnd' buf' n' Hn' Hb') as (b1 & s1 & cc1 & Eb1 & Ec1 & H).
    rewrite Eb in Eb1. injection Eb1 as <-. rewrite Ec in Ec1. injection Ec1 as <- <-.
    exact (H cs (Address.String a) t Hcs Hcse Hdial HDt Htw Hto).
Qed.

(** A CONNECT request served through a Shadowsocks node, on both ends of the proxy. *)
Lemma socks_connect_carried sc ac (HC : Ciphers (stream_of <$> sc) (aead_of <$> ac)) v sel proxy
    au mo methods u p rsv a c r ru ru' rest Dial rnd buf d n :
  selector.Select proxy sel = selector.Proxy v → v_TcpConnBound v = BoundSS sc ac → mitm_Enable mo = false →
  0 < length methods → login_ok au u p → plain_target a → IsEnhancerMode r = false →
  c_wbudget c = None → c_rerr c = io_EOF → pending c = (greeting methods ++ login au u p) ++ [5%Z; CONNECT; rsv] ++ a ++ rest →
  Ruler_Match LookupHost db_Country (Host a) ru = (ru', Host a, Ret true) → Rule.Select ru' = Ret proxy →
  let ops := node_conn sc ac in let laws := bound_conn_laws (stream_of <$> sc) (aead_of <$> ac) in
  Dial (v_Addr v) = Ret d → c_wbudget d = None → c_out d = [] → nc_rnd (T := boundConn) rnd → MaxAddressBufferSize ≤ length buf → 0 < n →
  ∃ w' b s cc', serve_socks Dial rnd buf sel au mo (World c r ru) = (w', Ret (Some (IProxy sc ac b))) ∧
    c_out (w_conn w') = c_out c ++ ([5%Z; method_of au] ++ login_reply au) ++ connect_reply ∧
    ioCopyWithBuffer n (b_dst b) (b_src b) = (s, cc', Ret None) ∧
    ∀ DialS rnd' buf' n' cs t, MaxAddressBufferSize ≤ length buf' → 0 < n' →
      pending cs = c_out (nc_under s) → c_rerr cs = io_EOF →
      DialS (Address.String a) = Ret t → c_wbudget t = None → c_out t = [] →
      ∃ b' t' s', RelayToServer (T := boundConn) DialS rnd' buf' cs = Ret b' ∧
        ioCopyWithBuffer n' (b_dst b') (b_src b') = (t', s', Ret None) ∧ c_out t' = rest.
Proof.
  intros Hsel Hv Hmo Hm Hl Ha Hr Hcw Hce Hcp Hmatch Hrs ops laws HD Hdw Hdo Hrnd Hbuf Hn.
  assert (target_host (Host a) r = (r, Ret (Host a))) as Hth by (unfold target_host; by rewrite Hr).
  assert (intercepts mo = false) as Hi by (unfold intercepts, NewMitmHandler; by rewrite Hmo).
  destruct (connect_run_served LookupHost db_Country ListenLocalUDP InvokePacket false au methods u p rsv a c r ru rest r (Host a) ru' (Host a) proxy
    Hm Hl (proj1 Ha) Hcw Hcp Hth Hmatch (λ _, Hrs)) as (c' & E & Hp' & Ho' & Hw').
  pose proof (keeps_ServeTCP LookupHost db_Country ListenLocalUDP InvokePacket false au (World c r ru)) as Hend. rewrite E in Hend. cbn in Hend.
  fold (Address.String a) in E. assert (c_rerr c' = io_EOF) as Hc' by congruence.
  destruct (invoke_carried sc ac HC v sel proxy a c' Dial rnd buf d n Hsel Hv Ha Hc' HD Hdw Hdo Hrnd Hbuf Hn) as (b & s & cc' & Ei & Ec & H).
  exists (World c' r ru'), b, s, cc'. rewrite Hp' in H. split_and!; [|exact Ho'|exact Ec|exact H].
  unfold serve_socks. rewrite Hi, E. cbn [w_conn]. by rewrite Ei.
Qed.

Context (DefaultMTU : Z) (ParseConfigFile : gostring → res Config_) {Msg C1 C2 : Type} (DefaultRouteInterface : option gostring)
        (localDns localDns' : list gostring) (OpenDB : option error).
Abbreviation run_client fl := (run_client (Msg := Msg) (C1 := C1) (C2 := C2) DefaultMTU fl ParseConfigFile md5 DefaultRouteInterface localDns OpenDB).
Abbreviation run_server fl := (run_server (Msg := Msg) (C1 := C1) (C2 := C2) DefaultMTU fl ParseConfigFile md5 DefaultRouteInterface localDns').

(** The single node of a command line. *)
Lemma single_node so v : selector.Select DefaultName (foldl selector.register selector.NewSelector (registrations (set_so_name DefaultName so, v))) = selector.Proxy v.
Proof.
  destruct (selector_latest (registrations (set_so_name DefaultName so, v)) DefaultName) as [H _]. unfold selector.configured in H. rewrite H.
  rewrite decide_False by done. pose proof (latest_own true (set_so_name DefaultName so) v ltac:(by left)) as E. cbn [so_name set_so_name] in E. by rewrite E.
Qed.

(** Without the flag no SOCKS5 port intercepts. *)
Lemma socks_port_plain fl addr au mo : BoolVar fl "mitm-mode" false = false → SocksProxyServer addr au mo ∈ front_ends (local_flags DefaultMTU fl) → mitm_Enable mo = false.
Proof.
  intros Hm Hin. unfold front_ends in Hin.
  assert (mitm_of (local_flags DefaultMTU fl) = MkMitm false [] [] [] 0 0 0) as Hmo.
  { unfold mitm_of. cbn [lc_Mitm local_flags]. unfold mitm_flags. cbn [mo_Enable]. by rewrite Hm. }
  apply elem_of_app in Hin as [(a & E & _)%list_elem_of_fmap|Hin]; [by destruct (cut_byte 61 a) as [[x y] z]|].
  rewrite Hmo in Hin. repeat (case_decide; try apply elem_of_app in Hin as [Hin|Hin]);
    repeat match goal with H : _ ∈ [] |- _ => by apply elem_of_nil in H | H : _ ∈ [_] |- _ => apply list_elem_of_singleton in H; simplify_eq; try done end.
Qed.

(** C1 (round trip): the program as a whole. Start a server and a client, without configuration files, from command lines with
    the same method, password and transport, the client's without type ssr and without mitm-mode, the method not salsa20 or
    chacha20. A local program connects to the client's SOCKS5 port, logs in with the credentials of that port if it has any, asks for a
    connection to a host or an IPv4 address, and sends data and closes, all in whatever pieces; the client does not
    look targets up as fake IPs (enhancer mode is off). Then it gets the answers of the protocol, the client dials the
    server its command line names and sends it, through the cipher that method and password give, what makes the
    server's handler, in whatever pieces it reads it, dial the very target the program named and send it exactly
    the program's data. All this provided that the dials succeed and writes to the connections do not fail. *)
Theorem command_line_end_to_end flC flS w w' c g g' sv :
  configFile flC = [] → configFile flS = [] →
  run_client flC w = (w', Runs c) → cw_selector w = selector.NewSelector → run_server flS g = (g', Runs sv) →
  StringVar flS "method" "none" = StringVar flC "method" "none" → StringVar flS "password" "" = StringVar flC "password" "" →
  StringVar flS "transport" "default" = StringVar flC "transport" "default" →
  working_method (StringVar flC "method" "none") = true → StringVar flC "type" "" ≠ str "ssr" → BoolVar flC "mitm-mode" false = false →
  ∃ ru v i h o sc ac (HC : Ciphers (stream_of <$> sc) (aead_of <$> ac)),
    GetCipher md5 (StringVar flC "method" "none") (StringVar flC "password" "") = Ret (sc, ac) ∧
    g_MatchRuler (cw_globals w') = Some ru ∧ selector.Select DefaultName (cw_selector w') = selector.Proxy v ∧ v_Addr v = StringVar flC "server" "" ∧
    sv_handlerList sv !! i = Some h ∧ sh_tcpRelayer h = BoundSS sc ac ∧ sv_srvGroup sv !! i = Some (v_Type v, StringVar flS "server" "", o) ∧
    let ops := node_conn sc ac in let laws := bound_conn_laws (stream_of <$> sc) (aead_of <$> ac) in
    ∀ addr au mo methods u p rsv a c0 r data Dial rnd buf d n,
      SocksProxyServer addr au mo ∈ cl_srvGroup c → 0 < length methods → login_ok au u p → plain_target a → IsEnhancerMode r = false →
      c_wbudget c0 = None → c_rerr c0 = io_EOF → pending c0 = (greeting methods ++ login au u p) ++ [5%Z; CONNECT; rsv] ++ a ++ data →
      Dial (StringVar flC "server" "") = Ret d → c_wbudget d = None → c_out d = [] → nc_rnd (T := boundConn) rnd →
      MaxAddressBufferSize ≤ length buf → 0 < n →
      ∃ w2 b s cc', serve_socks Dial rnd buf (cw_selector w') au mo (World c0 r ru) = (w2, Ret (Some (IProxy sc ac b))) ∧
        c_out (w_conn w2) = c_out c0 ++ ([5%Z; method_of au] ++ login_reply au) ++ connect_reply ∧
        ioCopyWithBuffer n (b_dst b) (b_src b) = (s, cc', Ret None) ∧
        ∀ DialS rnd' buf' n' cs t, MaxAddressBufferSize ≤ length buf' → 0 < n' →
          pending cs = c_out (nc_under s) → c_rerr cs = io_EOF →
          DialS (Address.String a) = Ret t → c_wbudget t = None → c_out t = [] →
          ∃ b' t' s', RelayToServer (T := boundConn) DialS rnd' buf' cs = Ret b' ∧
            ioCopyWithBuffer n' (b_dst b') (b_src b') = (t', s', Ret None) ∧ c_out t' = data.
Proof.
  intros HfC HfS Hc Hsel Hs Hm Hp Ht Hw Hty Hmitm.
  pose proof (cli_client_made DefaultMTU flC ParseConfigFile md5 DefaultRouteInterface localDns OpenDB w w' (Runs c) HfC Hc) as H.
  destruct (decide (StringVar flC "server" "" = [])) as [|Hsrv]; [by destruct H|].
  destruct (H c eq_refl) as (Hfe & so & v & ru & Hso & Haddr & (b & Hb & ->) & Hreg & Hru & Hmatch). clear H.
  destruct (cli_server_made DefaultMTU flS ParseConfigFile md5 DefaultRouteInterface localDns' g g' sv HfS Hs) as (g1 & opts & Hbs & Hns).
  destruct (server_of_fields _ _ Hso) as (_ & _ & Hmc & Hpc & _ & Hssr). unfold bind_server in Hb. cbn [so_method so_password so_ssr set_so_name] in Hb.
  rewrite Hssr in Hb by (intros [_ E]; exact (Hty E)). rewrite Hmc, Hpc in Hb.
  change (sc_Method (server_flags flC)) with (StringVar flC "method" "none") in Hb. change (sc_Password (server_flags flC)) with (StringVar flC "password" "") in Hb.
  destruct (GetCipher md5 _ _) as [[sc ac]|e|] eqn:Eg in Hb; [|done..]. injection Hb as <-.
  assert (Ciphers (stream_of <$> sc) (aead_of <$> ac)) as HC by (by eapply ciphers_work). pose proof Eg as Eg0. rewrite <-Hm, <-Hp in Eg.
  destruct (server_handler md5 DefaultRouteInterface localDns' (cfg_flags DefaultMTU flS) g g1 opts g' sv (server_flags flS) sc ac Hbs Hns ltac:(by left) Eg)
    as (so' & i & h & o & Hso' & Hh & Hrel & Hgrp & _).
  rewrite (server_of_transport _ _ _ _ Hso Hso' Ht) in Hgrp. rewrite Hsel in Hreg.
  match type of Hreg with _ = foldl _ _ (registrations (_, ?v)) => exists ru, v, i, h, o, sc, ac, HC end.
  assert (selector.Select DefaultName (cw_selector w') = selector.Proxy (MkV (so_addr so) (so_transport so) (BoundSS sc ac) (BoundSS sc ac) (so_opts so))) as Hnode
    by (rewrite Hreg; apply single_node).
  split_and!; [exact Eg0|done|exact Hnode|exact Haddr|done|done|exact Hgrp|].
  intros ops laws addr au mo methods u p rsv a c0 r data Dial rnd buf d n H0 H1 H2 H3 H4 H5 H6 H7 H8 H9 H10 H11 H12 H13.
  destruct (Hmatch LookupHost db_Country (Host a)) as (ru' & Hrm & Hrs).
  assert (mitm_Enable mo = false) as Hmo by (rewrite Hfe in H0; by eapply socks_port_plain).
  refine (socks_connect_carried sc ac HC _ (cw_selector w') DefaultName au mo methods u p rsv a c0 r ru ru' data Dial rnd buf d n
    Hnode eq_refl Hmo H1 H2 H3 H4 H5 H6 H7 Hrm Hrs _ H9 H10 H11 H12 H13).
  cbn [v_Addr]. by rewrite Haddr.
Qed.
End Program.

(** *** Witness: one command line for both ends, and the program of Socks.v *)
Module ProgramDemo.
Definition server_run := run_server (Msg := unit) (C1 := unit) (C2 := unit) 1500 CmdDemo.fl (λ _, Fail io_EOF) CfgDemo.md5 None [] CfgDemo.globals0.
Definition server : ShadowsocksServer := match server_run.2 with Runs s => s | _ => MkSServer [] [] end.
Definition fresh : conn := Conn [] io_EOF [] None io_EOF.
Definition Dial (a : gostring) : gostring → res conn := λ x, if bool_decide (x = a) then Ret fresh else Fail io_EOF.
Definition salt : list Z := replicate 16 0%Z.
Abbreviation demo_stream := (stream_of CfgDemo.md5 (λ _, Ret 16) (λ _, Ret 8) DeployDemo.mode DeployDemo.cfb_enc DeployDemo.cfb_dec (λ _, Ret (λ _ m, m)) (λ _ _, Ret (λ _ m, m)) (λ m _ _, m)).
Abbreviation demo_aead := (aead_of (λ _ _ _ n, replicate n 0%Z) (λ _, Ret 16) (λ _, DeployDemo.aead []) DeployDemo.aead DeployDemo.aead).
Lemma target_plain : plain_target demo_dst.
Proof. split; [exact demo_dst_wf|]. cbn [demo_dst app]. split_and!; [vm_compute; discriminate|reflexivity|apply (bool_decide_unpack _); vm_compute; exact I..]. Qed.
Definition no_CA (a b : gostring) : res (x509 * Z) := Fail io_EOF.
Lemma socks_port : SocksProxyServer (str "127.0.0.1:10086") (Some demo_auth) (mitm_of (local_flags 1500 CmdDemo.fl)) ∈ cl_srvGroup CmdDemo.client.
Proof. apply (list_elem_of_lookup_2 _ 1). vm_compute. reflexivity. Qed.
Lemma buf_fits : MaxAddressBufferSize ≤ length (replicate 259 0%Z).
Proof. rewrite length_replicate. unfold MaxAddressBufferSize. lia. Qed.
End ProgramDemo.
Lemma command_line_end_to_end_witness :
  ∃ ru sc ac (HC : Ciphers (ProgramDemo.demo_stream <$> sc) (ProgramDemo.demo_aead <$> ac)) w2 b s cc' b' t' s',
    let ops := bound_conn (ProgramDemo.demo_stream <$> sc) (ProgramDemo.demo_aead <$> ac) in
    let laws := bound_conn_laws (ProgramDemo.demo_stream <$> sc) (ProgramDemo.demo_aead <$> ac) in
    serve_socks CfgDemo.md5 (λ _ _ _ n, replicate n 0%Z) (λ _, Ret 16) (λ _, Ret 8) DeployDemo.mode DeployDemo.cfb_enc DeployDemo.cfb_dec
      (λ _, DeployDemo.aead []) DeployDemo.aead DeployDemo.aead (λ _, Ret (λ _ m, m)) (λ _ _, Ret (λ _ m, m)) (λ m _ _, m) (λ _ _ _, plain_conn)
      no_lookup no_country (Fail io_EOF) (λ _, Ret tt) (C := LruCache gostring (Certificate Z)) ProgramDemo.no_CA (ProgramDemo.Dial (str "1.2.3.4:8388")) ProgramDemo.salt (replicate 259 0%Z)
      (cw_selector CmdDemo.run.1) (Some demo_auth) (mitm_of (local_flags 1500 CmdDemo.fl)) (World demo_client tt ru) = (w2, Ret (Some (IProxy sc ac b))) ∧
    ioCopyWithBuffer 4 (b_dst b) (b_src b) = (s, cc', Ret None) ∧
    RelayToServer (T := boundConn) (ProgramDemo.Dial (str "a.b.com:443")) [] (replicate 259 0%Z) (Conn [c_out (nc_under s)] io_EOF [] None io_EOF) = Ret b' ∧
    ioCopyWithBuffer 4 (b_dst b') (b_src b') = (t', s', Ret None) ∧ c_out t' = [22; 3; 1]%Z.
Proof.
  destruct (command_line_end_to_end (HP := DeployDemo.primitives) CfgDemo.md5 (λ _ _ _ n, replicate n 0%Z) (λ _, Ret 16) (λ _, Ret 8) DeployDemo.mode DeployDemo.cfb_enc DeployDemo.cfb_dec
    (λ _, DeployDemo.aead []) DeployDemo.aead DeployDemo.aead (λ _, Ret (λ _ m, m)) (λ _ _, Ret (λ _ m, m)) (λ m _ _, m) eq (λ _ _ _, plain_conn)
    no_lookup no_country (Fail io_EOF) (λ _, Ret tt) (C := LruCache gostring (Certificate Z)) ProgramDemo.no_CA 1500 (λ _, Fail io_EOF) None [] [] None
    CmdDemo.fl CmdDemo.fl CmdDemo.world0 CmdDemo.run.1 CmdDemo.client CfgDemo.globals0 ProgramDemo.server_run.1 ProgramDemo.server
    eq_refl eq_refl ltac:(vm_compute; reflexivity) eq_refl ltac:(vm_compute; reflexivity) eq_refl eq_refl eq_refl eq_refl ltac:(discriminate) eq_refl)
    as (ru & v & i & h & o & sc & ac & HC & _ & _ & _ & _ & H4 & H5 & _ & H).
  assert (BoundSS sc ac = BoundSS None ac ∧ ∃ x, ac = Some x ∧ ac_saltSize x = 16) as [Hsc (x & -> & Hx)].
  { destruct i as [|i]; [|by destruct i]. injection H4 as <-. vm_compute in H5. injection H5 as <- <-. eauto. }
  injection Hsc as ->.
  destruct (H (str "127.0.0.1:10086") (Some demo_auth) (mitm_of (local_flags 1500 CmdDemo.fl)) [0; 2]%Z (str "user") (str "pass") 0%Z demo_dst demo_client tt [22; 3; 1]%Z (ProgramDemo.Dial (str "1.2.3.4:8388")) ProgramDemo.salt
    (replicate 259 0%Z) ProgramDemo.fresh 4 ProgramDemo.socks_port ltac:(cbn; lia) ltac:(cbn; split_and!; [lia..|reflexivity]) ProgramDemo.target_plain eq_refl eq_refl eq_refl
    ltac:(vm_compute; reflexivity) eq_refl eq_refl eq_refl (eq_sym Hx) ProgramDemo.buf_fits ltac:(lia)) as (w2 & b & s & cc' & E1 & _ & E2 & H').
  pose (ops := bound_conn (ProgramDemo.demo_stream <$> None) (ProgramDemo.demo_aead <$> Some x)).
  set (cs := Conn [c_out (nc_under s)] io_EOF [] None io_EOF). assert (pending cs = c_out (nc_under s)) as Hcs by apply app_nil_r.
  destruct (H' (ProgramDemo.Dial (str "a.b.com:443")) [] (replicate 259 0%Z) 4 cs ProgramDemo.fresh
    ProgramDemo.buf_fits ltac:(lia) Hcs eq_refl eq_refl eq_refl eq_refl) as (b' & t' & s' & E3 & E4 & E5).
  exists ru, _, _, HC, w2, b, s, cc', b', t', s'. split_and!; [exact E1|exact E2|exact E3|exact E4|exact E5].
Defined.
