(* ===== verification/Datagrams.v ===== *)
(** * The whole way of a datagram.

    The UDP counterpart of Deploy.v: the packet connections a node and a handler are
    bound to ([makePacketConn] of [src/ss/conn.go]), how the relayers of [src/relay/udp.go] and
    [src/relay/udp_natmap.go] are set up and invoked through the selector, and what becomes of a
    datagram and of the answer to it. *)
From S2P Require Import Prelude GoIO GoNet Address Cipher GoStream TcpRelay UdpRelay Pools OrdMap SsrAuth SsrObfs Options Config SsrConn Deploy.
Local Open Scope nat_scope.

(** ** Datagrams over ciphers *)
Section Bound.
Context {A : Type}.
Abbreviation packet := (boundPacket (pconn A)).
(** [WriteTo] and [ReadFrom] of the connection of [makePacketConn]; [rnd] fills the salt or IV, [stale] is what the buffer of a
    stream-cipher connection held. A read gives the length and the bytes that are in the caller's buffer. *)
Definition bound_WriteTo (rnd b : list Z) (addr : A) (p : packet) : packet * res nat :=
  match p with
  | PStream x c => let '(c1, r) := StreamConn.packet_WriteTo (sGetEncrypter x) (Ret rnd) b addr c in (PStream x c1, r)
  | PAead x c => let '(c1, r) := AeadConn.packet_WriteTo (aSaltSize x) (aGetEncrypter x) (Ret rnd) b addr c in (PAead x c1, r)
  | PPlain c => let '(c1, r) := pconn_write b addr c in (PPlain c1, r)
  end.
Definition bound_ReadFrom (stale : list Z) (n : nat) (p : packet) : packet * res (Z * list Z * A) :=
  match p with
  | PStream x c => let '(c1, r) := StreamConn.packet_ReadFrom (sIVSize x) (sGetDecrypter x) stale n c in (PStream x c1, r)
  | PAead x c => let '(c1, r) := AeadConn.packet_ReadFrom (aSaltSize x) (aGetDecrypter x) n c in
                 (PAead x c1, '(d, a) ← r; Ret (Z.of_nat (length d), d, a))
  | PPlain c => let '(c1, r) := pconn_read n c in (PPlain c1, '(d, a) ← r; Ret (Z.of_nat (length d), d, a))
  end.
Definition packet_under (p : packet) : pconn A := match p with PStream _ c | PAead _ c | PPlain c => c end.

Context (scipher : option stream_cipher) (acipher : option aead_cipher) {HC : Ciphers scipher acipher}.
Abbreviation bind := (makePacketConn (P := pconn A) scipher acipher).
(** Random bytes for one datagram, and the datagrams there is room for. *)
Definition packet_rnd (rnd : list Z) : Prop :=
  match scipher, acipher with
  | Some x, _ => length rnd = sIVSize x
  | None, Some x => length rnd = aSaltSize x
  | None, None => True
  end.
Definition packet_room (rnd b : list Z) : Prop :=
  match scipher, acipher with
  | None, Some x => ∀ enc, aGetEncrypter x rnd = Ret enc → aSaltSize x + length b + Cipher.Overhead enc ≤ MaxUdpBufferSize
  | _, _ => length b ≤ MaxUdpBufferSize
  end.
(** One end sends a datagram, the other receives it. *)
Lemma packet_carried rnd b (dst : A) c : packet_rnd rnd → packet_room rnd b → pk_werr c = None →
  ∃ d c', bound_WriteTo rnd b dst (bind c) = (bind c', Ret (length b)) ∧ pk_out c' = pk_out c ++ [(d, dst)] ∧ pk_werr c' = None ∧ pk_in c' = pk_in c ∧
    ∀ from later rerr stale, bound_ReadFrom stale MaxUdpBufferSize (bind (PConn ((d, from) :: later) rerr [] None)) =
      (bind (PConn later rerr [] None), Ret (Z.of_nat (length b), b, from)).
Proof.
  unfold packet_rnd, packet_room, makePacketConn. intros Hr Hb Hw. destruct scipher as [x|]; [|destruct acipher as [x|]].
  - destruct (stream_ok (StreamScheme := ciphers_stream _ _ x eq_refl) rnd Hr) as (enc & dec & HE & HD & HL). cbn [bound_WriteTo bound_ReadFrom].
    unfold StreamConn.packet_WriteTo. rewrite HE, (proj2 (Nat.ltb_ge _ _)) by lia. unfold pconn_write. rewrite Hw. eexists _, _. split_and!; [done..|].
    intros from later rerr stale. unfold StreamConn.packet_ReadFrom, pconn_read. cbn [pk_in pk_rerr pk_out pk_werr].
    rewrite (take_ge (rnd ++ enc [] b)) by (rewrite length_app, stream_length; lia). rewrite <-app_assoc, take_app_length', HD by done.
    rewrite length_app, stream_length, (proj2 (Nat.ltb_ge _ _)) by lia. rewrite drop_app_length', stream_inverse, take_ge by (done || lia).
    repeat f_equal. lia.
  - destruct (scheme_ok (AeadScheme := ciphers_aead _ _ x eq_refl) rnd Hr) as (enc & dec & HE & HD & HL). cbn [bound_WriteTo bound_ReadFrom].
    specialize (Hb enc HE). pose proof (λ from later rerr, AeadConn.aead_packet_roundtrip (aSaltSize x) (aGetEncrypter x) (aGetDecrypter x) rnd enc dec b dst from c
      MaxUdpBufferSize later rerr HL Hr HE HD Hw) as H. unfold AeadConn.packet_WriteTo in *. rewrite HE, (proj2 (Nat.ltb_ge _ _)) in * by lia.
    unfold pconn_write in *. rewrite Hw in *. eexists _, _. split_and!; [done..|]. intros from later rerr stale.
    specialize (H from later rerr). rewrite decide_True in H by done. destruct H as (_ & d & Hd & Hl & H). cbn [pk_out] in Hd. apply app_inj_tail in Hd as [_ [= <-]].
    by rewrite H by lia.
  - cbn [bound_WriteTo bound_ReadFrom]. unfold pconn_write, pconn_read. rewrite Hw. eexists _, _. split_and!; [done..|].
    intros from later rerr stale. cbn. by rewrite take_ge by lia.
Qed.
End Bound.

(** ** Setting up a relay *)
Section Setup.
Context {A : Type} (ResolveUDPAddr : gostring → res A) (ListenLocalUDP : res (pconn A)).
(** The packet connections of ShadowsocksR nodes (SsrConn.v), by what they are made of. *)
Context {SP : Type} (ssr_packet : option metaStreamCipher → obfs_kind * ObfsBase → protocol_kind * Base → pconn A → SP).
Context (stream_of : metaStreamCipher → stream_cipher) (aead_of : metaAEADCipher → aead_cipher).

(** The socket towards the outside, with what it is bound to. *)
Inductive outbound := OutPlain (c : pconn A) | OutSS (p : boundPacket (pconn A)) | OutSSR (p : SP).
(** What [IoCopyBidirectionalForPacket] is called with. *)
Record udpRelay := UdpRelay { ur_dst : outbound; ur_serverAddr : gostring; ur_relayer : relayer (A := A) }.

(** [UDPDirectRelayer.RelayToServer] *)
Definition UDPDirect_RelayToServer (remoteServerAddr : gostring) : res udpRelay :=
  r ← (if decide (remoteServerAddr = []) then Ret RDirect else target ← ResolveUDPAddr remoteServerAddr; Ret (RPlain target));
  dst ← ListenLocalUDP;
  Ret (UdpRelay (OutPlain dst) [] r).
(** [ProxyUDPRelayer.RelayToProxyServer] *)
Definition bind_packet (b : bound) (c : pconn A) : outbound :=
  match b with
  | BoundSS sc ac => OutSS (makePacketConn (stream_of <$> sc) (aead_of <$> ac) c)
  | BoundSSR sc ob pr => OutSSR (ssr_packet sc ob pr c)
  end.
Definition UDPProxy_RelayToProxyServer (proxyServerAddr : gostring) (b : bound) (remoteServerAddr : gostring) : res udpRelay :=
  target ← ResolveUDPAddr proxyServerAddr;
  dst ← ListenLocalUDP;
  Ret (UdpRelay (bind_packet b dst) proxyServerAddr (if decide (remoteServerAddr = []) then RSocks target else RRemote remoteServerAddr target)).
(** [SelectPacket(proxy).Invoke(conn, addr)] *)
Definition InvokePacket (sel : selector.Selector V) (proxy addr : gostring) : res udpRelay :=
  match selector.SelectPacket proxy sel with
  | selector.Direct => UDPDirect_RelayToServer addr
  | selector.Proxy v => UDPProxy_RelayToProxyServer (v_Addr v) (v_UdpConnBound v) addr
  end.

(** [NatmapUDPRelayer]: what its [RelayToServer] reads from and how. *)
Definition Natmap_RelayToServer (inbound : option bound) (conn : pconn A) : outbound * relayer (A := A) :=
  (match inbound with Some b => bind_packet b conn | None => OutPlain conn end, RNatmap).
Definition Natmap_DirectRelayToServer (inbound : option bound) (remoteAddr : gostring) (conn : pconn A) : res (outbound * relayer (A := A)) :=
  target ← ResolveUDPAddr remoteAddr;
  Ret (match inbound with Some b => bind_packet b conn | None => OutPlain conn end, RPlain target).
(** [udpRelayer.start] of a handler; the socket is closed when the relay is over. *)
Definition udpRelayer_start (ListenUDP : A → res (pconn A)) (u : gostring * bound) : res (outbound * relayer (A := A)) :=
  a ← ResolveUDPAddr u.1;
  conn ← ListenUDP a;
  Ret (Natmap_RelayToServer (Some u.2) conn).
End Setup.
Arguments outbound : clear implicits.
Arguments udpRelay : clear implicits.

(** ** A datagram and its answer *)
Section Path.
Context {A : Type} (addr_string : A → gostring) (ResolveUDPAddr : gostring → res A).
(** A datagram of the SOCKS5 client is relayed to the server without its header, the server relays the data. *)
Lemma socks_upstream (server local : A) a d : 3 + length (a ++ d) ≤ MaxUdpBufferSize →
  upstream (socks_read server) ([0; 0; 0]%Z ++ a ++ d, local) = Some (a ++ d, server).
Proof.
  intros Hf. assert (length ([0; 0; 0]%Z ++ a ++ d) = 3 + length (a ++ d)) as Hl by apply length_app.
  unfold upstream. cbn [fst]. rewrite take_ge by (rewrite Hl; exact Hf). rewrite Hl.
  by rewrite (socks_read_ok server _ (a ++ d) (holds_fill ([0; 0; 0]%Z ++ a ++ d) ltac:(rewrite Hl; exact Hf))).
Qed.
Lemma natmap_upstream (client target : A) a d : wf_addr a → ResolveUDPAddr (String a) = Ret target → length (a ++ d) ≤ MaxUdpBufferSize →
  upstream (natmap_read ResolveUDPAddr) (a ++ d, client) = Some (d, target).
Proof.
  intros Ha Hr Hf. unfold upstream. cbn [fst]. rewrite take_ge by done. by rewrite (natmap_read_ok ResolveUDPAddr target _ a d Ha Hr (holds_fill _ Hf)).
Qed.
(** The answer, which only comes from the target. *)
Lemma natmap_downstream (target : A) a e : ParseAddress (addr_string target) addr_buf = Ret a → length (a ++ e) ≤ MaxUdpBufferSize →
  downstream addr_string (addr_string target) (natmap_write addr_string) (e, target) = Some (a ++ e).
Proof.
  intros Ha Hf. rewrite length_app in Hf. unfold downstream, illegal. cbn [fst snd]. rewrite (bool_decide_eq_true_2 (addr_string target = addr_string target)), andb_false_r by done.
  assert (length e ≤ MaxUdpBufferSize) as He by lia. rewrite take_ge by done. by rewrite (natmap_write_ok addr_string target _ a e Ha (holds_fill _ He) Hf).
Qed.
Lemma socks_downstream (server : A) serverAddr x : serverAddr ≠ [] → 3 ≤ length x → 3 + length x ≤ MaxUdpBufferSize →
  downstream addr_string serverAddr socks_write (x, server) = if decide (addr_string server = serverAddr) then Some ([0; 0; 0]%Z ++ x) else None.
Proof.
  intros Hs H3 Hf. unfold downstream, illegal. cbn [fst snd]. rewrite (bool_decide_eq_false_2 _ Hs). cbn [negb andb].
  destruct (decide (addr_string server = serverAddr)) as [->|Hn]; [rewrite bool_decide_eq_true_2 by done|by rewrite bool_decide_eq_false_2 by done]. cbn [negb].
  assert (length x ≤ MaxUdpBufferSize) as Hx by lia. rewrite take_ge by done. by rewrite (socks_write_ok server _ x (holds_fill _ Hx) H3 Hf).
Qed.
End Path.

(** ** Two configurations *)
Section Deployed.
Context (md5 : list Z → list Z) (hkdf_sha1 : list Z → list Z → list Z → nat → list Z)
        {Block : Type} (aes_NewCipher blowfish_NewCipher : list Z → res Block)
        (NewCTR NewCFBEncrypter NewCFBDecrypter : Block → list Z → res Stream)
        (NewGCM : Block → res AEAD) (chacha20poly1305_New chacha20poly1305_NewX : list Z → res AEAD)
        (rc4 : list Z → res Stream) (chacha20 : list Z → list Z → res Stream) (salsa20_xor : list Z → list Z → list Z → list Z)
        (block : Block → nat → Prop).
Context {HP : Primitives md5 hkdf_sha1 aes_NewCipher blowfish_NewCipher NewCTR NewCFBEncrypter NewCFBDecrypter NewGCM
                chacha20poly1305_New chacha20poly1305_NewX rc4 chacha20 block}.
Abbreviation stream_of := (stream_of md5 aes_NewCipher blowfish_NewCipher NewCTR NewCFBEncrypter NewCFBDecrypter rc4 chacha20 salsa20_xor).
Abbreviation aead_of := (aead_of hkdf_sha1 aes_NewCipher NewGCM chacha20poly1305_New chacha20poly1305_NewX).
Context {Msg C1 C2 : Type} (DefaultRouteInterface : option gostring) (localDns localDns' : list gostring).
Abbreviation NewClient := (NewShadowsocksClient (Msg := Msg) (C1 := C1) (C2 := C2) md5 DefaultRouteInterface localDns).
Abbreviation NewServer := (NewShadowsocksServer (Msg := Msg) (C1 := C1) (C2 := C2) md5 DefaultRouteInterface localDns').
Context {A SP : Type} (addr_string : A → gostring) (ResolveUDPAddr : gostring → res A)
        (ssr_packet : option metaStreamCipher → obfs_kind * ObfsBase → protocol_kind * Base → pconn A → SP).
Abbreviation InvokePacket Listen := (InvokePacket ResolveUDPAddr Listen ssr_packet stream_of aead_of).

End Deployed.

(** *** Witness: the deployment of Deploy.v; addresses are their texts *)
Module DatagramDemo.
Definition target : list Z := [1; 9; 9; 9; 9; 0; 53]%Z.
Lemma target_wf : wf_addr target.
Proof. apply (wf_v4 [9; 9; 9; 9]%Z 53); [done| |lia]. repeat constructor; unfold is_byte; lia. Qed.
Lemma target_parsed : ParseAddress (str "9.9.9.9:53") addr_buf = Ret target.
Proof. rewrite <-(ParseAddress_any _ (replicate 259 0%Z)) by apply length_replicate. vm_compute. reflexivity. Qed.
Definition socket : pconn gostring := PConn [] io_EOF [] None.
Lemma room (sc : metaStreamCipher → stream_cipher) x d : ac_saltSize x = 16 → length d = 2 →
  packet_room (sc <$> None) (aead_of (λ _ _ _ n, replicate n 0%Z) (λ _, Ret 16) (λ _, DeployDemo.aead []) DeployDemo.aead DeployDemo.aead <$> Some x) (replicate 16 0%Z) (target ++ d).
Proof.
  intros Hx Hd enc He. pose proof MaxUdp_size. assert (enc = AeadConn.toy_aead) as -> by (destruct x as [k n []]; cbn in He; by injection He as <-).
  rewrite length_app, Hd. cbn [aead_of aSaltSize length target AeadConn.toy_aead Cipher.Overhead]. rewrite Hx. lia.
Qed.
Definition salt_size {A SP} (o : outbound A SP * relayer (A := A)) : option nat := match o.1 with OutSS (PAead x _) => Some (aSaltSize x) | _ => None end.
End DatagramDemo.
