(* ===== verification/TunRelay.v ===== *)
(** * The whole way of a connection through the TUN device.

    Composes the handlers of the TUN device (Enhancer.v), with the fake-IP resolver and the rules
    behind them, with the selector and the relays (Program.v): the calls that
    [src/enhancer/handler.go] makes of [src/selector]. Statistics are off. *)
From S2P Require Import Prelude GoIO GoNet Address Cache IPPool FakeIP Resolver Cipher GoStream TcpRelay SsrAuth SsrObfs OrdMap Rule Options Config Deploy Program Enhancer.
Local Open Scope nat_scope.

Section Tun.
Context (md5 : list Z → list Z) (hkdf_sha1 : list Z → list Z → list Z → nat → list Z)
        {Block : Type} (aes_NewCipher blowfish_NewCipher : list Z → res Block)
        (NewCTR NewCFBEncrypter NewCFBDecrypter : Block → list Z → res Stream)
        (NewGCM : Block → res AEAD) (chacha20poly1305_New chacha20poly1305_NewX : list Z → res AEAD)
        (rc4 : list Z → res Stream) (chacha20 : list Z → list Z → res Stream) (salsa20_xor : list Z → list Z → list Z → list Z)
        (block : Block → nat → Prop).
Context {HP : Primitives md5 hkdf_sha1 aes_NewCipher blowfish_NewCipher NewCTR NewCFBEncrypter NewCFBDecrypter NewGCM
                chacha20poly1305_New chacha20poly1305_NewX rc4 chacha20 block}.
Abbreviation stream_of := (stream_of md5 aes_NewCipher blowfish_NewCipher NewCTR NewCFBEncrypter NewCFBDecrypter rc4 chacha20 salsa20_xor).
Abbreviation aead_of := (aead_of hkdf_sha1 aes_NewCipher NewGCM chacha20poly1305_New chacha20poly1305_NewX).
Context {SC : Type} (ssr_conn : option metaStreamCipher → obfs_kind * ObfsBase → protocol_kind * Base → NetConn SC).
Abbreviation Invoke := (Invoke md5 hkdf_sha1 aes_NewCipher blowfish_NewCipher NewCTR NewCFBEncrypter NewCFBDecrypter
  NewGCM chacha20poly1305_New chacha20poly1305_NewX rc4 chacha20 salsa20_xor ssr_conn).

Context {Msg : Type} (question : Msg → option (gostring * Z * Z)) (emptyMsg : Msg) (SetReply : Msg → Msg → Msg)
  (Fqdn : gostring → gostring) (appendA appendAAAA : Msg → gostring → Z → list Z → Msg)
  (Unpack : list Z → res Msg) (PackBuffer : Msg → res (list Z)).
Context {C1 C2 : Type} `{!CacheOps gostring nat C1, !CacheOps Addr nat C2} `{!CacheLaws gostring nat C1, !CacheLaws Addr nat C2}.
Context (hostsMap : gmap gostring (list Addr)) (lookupIPWithMsg : Msg → res Msg) (DefaultDomainFilter : list gostring).
Context (LookupHost : gostring → Addr) (db_Country : Addr → option gostring).
Abbreviation HandleTCP := (HandleTCPConnection question emptyMsg SetReply Fqdn appendA appendAAAA Unpack PackBuffer
  hostsMap lookupIPWithMsg DefaultDomainFilter LookupHost db_Country).
Abbreviation HandleUDP := (HandleUDPConnection question emptyMsg SetReply Fqdn appendA appendAAAA Unpack PackBuffer
  hostsMap lookupIPWithMsg DefaultDomainFilter LookupHost db_Country).
Implicit Types (w : tunWorld Msg C1 C2) (f : fakeIPResolver Msg C1 C2).

(** The whole of [HandleTCPConnection]: an error of [Invoke] is logged and its panic recovered, and no error
    is returned for either. *)
Definition serve_tun (Dial : gostring → res conn) (rnd buf : list Z) (sel : selector.Selector V)
    (cfg : tunConfig) (dst : AddrPort) (now : Z) (c : conn) (w : tunWorld Msg C1 C2) : (conn * tunWorld Msg C1 C2) * res (option invoked) :=
  match HandleTCP cfg dst now c w with
  | (s, Ret (Routed proxy addr)) => (s, Ret (match Invoke Dial rnd buf sel proxy addr s.1 with Ret i => Some i | _ => None end))
  | (s, Ret _) => (s, Ret None)
  | (s, Fail e) => (s, Fail e)
  | (s, Panic) => (s, Panic)
  end.

(** C7 (round trip): a program that knows nothing of the proxy. It asks the hijacked DNS for the IPv4
    address of a name, which is neither in the hosts file nor filtered nor already known, while
    the IPv4 pool has a free address: exactly one datagram goes back, with an address of the pool that
    was free. The next thing the resolver serves is the program's connection to that address, while
    the record lives, at a port on which no DNS is hijacked. When the rules give the NAME to a
    Shadowsocks node (not ShadowsocksR) with a method other than salsa20 and chacha20, under whatever
    name or IPv4 address they hand on: the client dials that node, and, as long as dialling
    and writing do not fail, what a server with the same ciphers reads from the
    connection, in whatever pieces, makes it dial this target at the port of the program and send
    it exactly the program's data, up to its EOF. *)
Theorem tun_end_to_end {A} b n w f cfg dns port now now' dg rest (src : A) rerr outs req name data
    method password sc ac sel p v h a :
  length b = 4 → wf_bytes b → (0 ≤ n ≤ 31)%Z → (be_int b < 2 ^ 32 - 1)%Z → fakeip (tw_res w) = Some f →
  reachable (question_name question) emptyMsg SetReply Fqdn appendA (Addr4 b, n) f →
  isNeedHijackDNS cfg dns = true → (∀ x, isNeedHijackDNS cfg (x, port) = false) →
  Unpack (take dnsBufferSize dg) = Ret req → question req = Some (name, TypeA, ClassINET) →
  IsValid (hosts_LookupIP hostsMap (TrimDomain name)) = false → matchDomainFilter DefaultDomainFilter name = false →
  TrimDomain name ∉ (FakeIP.hosts f).*1 → 0 < Available (pool f) →
  (∀ ip, PackBuffer (fake_reply emptyMsg SetReply Fqdn appendA (TrimDomain name) req ip) = Ret (data ip)) →
  (now' < now + DefaultFakeIPDnsRecordTTL)%Z →
  routed LookupHost db_Country (tw_ruler w) (TrimDomain name) = Ret (p, h) → plain_target a → Host a = h → Port a = port →
  selector.Select p sel = selector.Proxy v → v_TcpConnBound v = BoundSS sc ac →
  GetCipher md5 method password = Ret (sc, ac) → working_method method = true →
  ∃ ip w1 (HC : Ciphers (stream_of <$> sc) (aead_of <$> ac)),
    HandleUDP cfg dns now (PConn ((dg, src) :: rest) rerr outs None) w = ((PConn rest rerr (outs ++ [(data ip, src)]) None, w1), Ret Hijacked) ∧
    IsAvailable (pool f) ip = Ret true ∧
    let ops := bound_conn (stream_of <$> sc) (aead_of <$> ac) in let laws := bound_conn_laws (stream_of <$> sc) (aead_of <$> ac) in
    ∀ c Dial rnd buf d k, c_rerr c = io_EOF →
      Dial (v_Addr v) = Ret d → c_wbudget d = None → c_out d = [] → nc_rnd (T := boundConn) rnd → MaxAddressBufferSize ≤ length buf → 0 < k →
      ∃ w2 bi s cc', serve_tun Dial rnd buf sel cfg (ip, port) now' c w1 = ((c, w2), Ret (Some (IProxy sc ac bi))) ∧
        ioCopyWithBuffer k (b_dst bi) (b_src bi) = (s, cc', Ret None) ∧
        ∀ DialS rnd' buf' k' cs t, MaxAddressBufferSize ≤ length buf' → 0 < k' →
          pending cs = c_out (nc_under s) → c_rerr cs = io_EOF →
          DialS (JoinHostPort h (itoa port)) = Ret t → c_wbudget t = None → c_out t = [] →
          ∃ bi' t' s', RelayToServer (T := boundConn) DialS rnd' buf' cs = Ret bi' ∧
            ioCopyWithBuffer k' (b_dst bi') (b_src bi') = (t', s', Ret None) ∧ c_out t' = pending c.
Proof.
  intros Hl Hw Hn Hmax Hf Hreach Hdns Hport Hun Hq Hhosts Hfilter Habs Hav Hpack Hnow Hroute Ha Hh Hp Hsel Hv Hg Hwk.
  assert (Ciphers (stream_of <$> sc) (aead_of <$> ac)) as HC by (by eapply ciphers_work).
  destruct (tun_named question emptyMsg SetReply Fqdn appendA appendAAAA Unpack PackBuffer hostsMap lookupIPWithMsg DefaultDomainFilter LookupHost db_Country
    b n w f cfg dns port now now' dg rest src rerr outs req name data Hl Hw Hn Hmax Hf Hreach Hdns Hport Hun Hq Hhosts Hfilter Habs Hav Hpack Hnow)
    as (ip & w1 & w2 & HU & Hip & HT).
  exists ip, w1, HC. split_and!; [exact HU|exact Hip|]. intros ops laws c Dial rnd buf d k Hc HD Hdw Hdo Hrnd Hbuf Hk.
  assert (Address.String a = JoinHostPort h (itoa port)) as Es by (unfold Address.String; congruence).
  destruct (invoke_carried md5 hkdf_sha1 aes_NewCipher blowfish_NewCipher NewCTR NewCFBEncrypter NewCFBDecrypter
    NewGCM chacha20poly1305_New chacha20poly1305_NewX rc4 chacha20 salsa20_xor ssr_conn
    sc ac HC v sel p a c Dial rnd buf d k Hsel Hv Ha Hc HD Hdw Hdo Hrnd Hbuf Hk) as (bi & s & cc' & Ei & Ec & H).
  rewrite Es in Ei, H. exists w2, bi, s, cc'. split_and!; [|exact Ec|exact H].
  unfold serve_tun. rewrite (HT c), Hroute. cbn [mbind res_bind recovering fst]. by rewrite Ei.
Qed.
End Tun.

(** *** Witness: the query of Enhancer.v, then a connection through a node with AES-GCM *)
Module TunRelayDemo.
Definition name : gostring := str "www.google.com".
Definition target : list Z := [3; 14]%Z ++ name ++ be16 443.
Definition ciphers := GetCipher CfgDemo.md5 (str "aes-128-gcm") (str "123456").
Definition ac : option metaAEADCipher := match ciphers with Ret (_, a) => a | _ => None end.
Definition node : V := MkV (str "1.2.3.4:8388") Tcp (BoundSS None ac) (BoundSS None ac) None.
Definition sel : selector.Selector V := foldl selector.register selector.NewSelector [(true, str "proxy-g", node)].
Definition program : conn := Conn [[22; 3]; [1]]%Z io_EOF [] None io_EOF.
Lemma google_plain : plain_target target.
Proof.
  split; [apply (wf_dom name 443); [vm_compute; lia|unfold name, str; apply bytes_of_string_wf|lia]|].
  cbn [target app]. split_and!; [vm_compute; discriminate|reflexivity|apply (bool_decide_unpack _); vm_compute; exact I..].
Qed.
End TunRelayDemo.
Lemma tun_end_to_end_witness :
  ∃ ip (w1 w2 : tunWorld gostring Demo.C1 Demo.C2) (HC : Ciphers (ProgramDemo.demo_stream <$> None) (ProgramDemo.demo_aead <$> TunRelayDemo.ac)) bi s cc' bi' t' s',
    let ops := bound_conn (ProgramDemo.demo_stream <$> None) (ProgramDemo.demo_aead <$> TunRelayDemo.ac) in
    let laws := bound_conn_laws (ProgramDemo.demo_stream <$> None) (ProgramDemo.demo_aead <$> TunRelayDemo.ac) in
    serve_tun CfgDemo.md5 (λ _ _ _ n, replicate n 0%Z) (λ _, Ret 16) (λ _, Ret 8) DeployDemo.mode DeployDemo.cfb_enc DeployDemo.cfb_dec
      (λ _, DeployDemo.aead []) DeployDemo.aead DeployDemo.aead (λ _, Ret (λ _ m, m)) (λ _ _, Ret (λ _ m, m)) (λ m _ _, m) (λ _ _ _, plain_conn)
      TunDemo.question_ [] Demo.set_reply Demo.fqdn Demo.append_a Demo.append_a Ret Ret ∅ Ret [] no_lookup no_country
      (ProgramDemo.Dial (str "1.2.3.4:8388")) ProgramDemo.salt (replicate 259 0%Z) TunRelayDemo.sel TunDemo.cfg (ip, 443%Z) 1000 TunRelayDemo.program w1
      = ((TunRelayDemo.program, w2), Ret (Some (IProxy None TunRelayDemo.ac bi))) ∧
    ioCopyWithBuffer 4 (b_dst bi) (b_src bi) = (s, cc', Ret None) ∧
    RelayToServer (T := boundConn) (ProgramDemo.Dial (str "www.google.com:443")) [] (replicate 259 0%Z) (Conn [c_out (nc_under s)] io_EOF [] None io_EOF) = Ret bi' ∧
    ioCopyWithBuffer 4 (b_dst bi') (b_src bi') = (t', s', Ret None) ∧ c_out t' = [22; 3; 1]%Z.
Proof.
  edestruct (tun_end_to_end (HP := DeployDemo.primitives) CfgDemo.md5 (λ _ _ _ n, replicate n 0%Z) (λ _, Ret 16) (λ _, Ret 8) DeployDemo.mode DeployDemo.cfb_enc DeployDemo.cfb_dec
    (λ _, DeployDemo.aead []) DeployDemo.aead DeployDemo.aead (λ _, Ret (λ _ m, m)) (λ _ _, Ret (λ _ m, m)) (λ m _ _, m) eq (λ _ _ _, plain_conn)
    TunDemo.question_ [] Demo.set_reply Demo.fqdn Demo.append_a Demo.append_a Ret Ret ∅ Ret []
    no_lookup no_country (A := nat) Demo.prefix 29 TunDemo.world Demo.r1 TunDemo.cfg (Addr4 [198; 18; 0; 2]%Z, 53%Z) 443%Z 0%Z 1000%Z
    (str "www.google.com.") [] 7 io_EOF [] (str "www.google.com.") (str "www.google.com.")
    (λ ip, str "www.google.com." ++ AsSlice ip) (str "aes-128-gcm") (str "123456") None TunRelayDemo.ac TunRelayDemo.sel (str "proxy-g") TunRelayDemo.node
    TunRelayDemo.name TunRelayDemo.target) as (ip & w1 & HC & _ & _ & H).
  - reflexivity.
  - exact Demo.prefix_wf.
  - lia.
  - vm_compute. reflexivity.
  - reflexivity.
  - exact Demo.reach_r1.
  - vm_compute. reflexivity.
  - exact demo_port.
  - rewrite take_ge; [reflexivity|]. vm_compute. lia.
  - reflexivity.
  - vm_compute. reflexivity.
  - vm_compute. reflexivity.
  - change (FakeIP.hosts Demo.r1) with [(str "a.com", 0)]. set_solver.
  - vm_compute. lia.
  - reflexivity.
  - vm_compute. reflexivity.
  - exact demo_routed.
  - exact TunRelayDemo.google_plain.
  - vm_compute. reflexivity.
  - vm_compute. reflexivity.
  - vm_compute. reflexivity.
  - reflexivity.
  - vm_compute. reflexivity.
  - vm_compute. reflexivity.
  - destruct (H TunRelayDemo.program (ProgramDemo.Dial (str "1.2.3.4:8388")) ProgramDemo.salt (replicate 259 0%Z) ProgramDemo.fresh 4 eq_refl
      ltac:(vm_compute; reflexivity) eq_refl eq_refl ltac:(vm_compute; reflexivity) ProgramDemo.buf_fits ltac:(lia)) as (w2 & bi & s & cc' & E1 & E2 & H').
    pose (ops := bound_conn (ProgramDemo.demo_stream <$> None) (ProgramDemo.demo_aead <$> TunRelayDemo.ac)).
    set (cs := Conn [c_out (nc_under s)] io_EOF [] None io_EOF). assert (pending cs = c_out (nc_under s)) as Hcs by apply app_nil_r.
    destruct (H' (ProgramDemo.Dial (str "www.google.com:443")) [] (replicate 259 0%Z) 4 cs ProgramDemo.fresh
      ProgramDemo.buf_fits ltac:(lia) Hcs eq_refl ltac:(vm_compute; reflexivity) eq_refl eq_refl) as (bi' & t' & s' & E3 & E4 & E5).
    exists ip, w1, w2, HC, bi, s, cc', bi', t', s'. split_and!; [exact E1|exact E2|exact E3|exact E4|exact E5].
Defined.
